(* ===== verification/_CoqProject ===== *)
-Q . S2P
Prelude.v
Arrays.v
Sums.v
CfBisect.v
CfInsertionsort.v
CfHeap.v
CfHeapselect.v
CfQuicksort.v
CfQuicksortCorrect.v
CfArray.v
CfBits.v
CfCore.v
CfInv.v
CfFilter.v
CfSelect.v
CfTop.v
CfMerge.v
CfGroups.v
CfShape.v
CfAdd.v
CfDimension.v
CfGroupTake.v
CfGroupAdd.v
CfLinks.v
CfGroupUse.v
CfPreAdd.v
CfRecords.v
CfRank.v
CfRemove.v
CfRegroup.v
CfShrink.v
CfRemoval.v
CfDispose.v
CfHistory.v
CfCalls.v
CfClient.v
CfProps.v
Queue.v
JsStrings.v
Helpers.v
Bootpag.v
Dom.v
Pages.v
Charts.v
AlmViz.v
Overview.v
Requests.v
RequestsProps.v
ShimArray.v
ShimArrayProps.v
ShimDate.v
ShimDateProps.v
ShimNumber.v
ShimNumberProps.v
ShimString.v
Modal.v
ModalProps.v
Collapse.v
CollapseProps.v
Ujs.v
UjsProps.v
TooltipPlace.v
Tooltip.v
TooltipProps.v
TooltipRedraw.v
TooltipBars.v
Redraw.v
Tab.v
Dropdown.v
Carousel.v
