(* ===== verification/Prelude.v ===== *)
(** * Lagotto front end: verification development (root file)

    Lagotto collects the events (citations, saves, views, discussions) of
    scholarly works.  Its server is a Rails application; its pages are drawn
    in the browser by JavaScript under [src/app/assets/javascripts].  This
    development models the JavaScript that carries logic: the filtering
    library [crossfilter.js], the scheduler [queue.js], the pager
    [jquery.bootpag.js], the shared helpers [d3_helpers.js], the pages, the
    polyfills of [es5-shim.js] that the pages run on in old browsers, the adapter
    [rails.js] through which links and forms reach the server, and the plugins of
    bootstrap that have state of their own ([bootstrap/modal.js], [collapse.js],
    [tooltip.js], [tab.js], [dropdown.js], [carousel.js]).

    ** How the program fits together

    A page script reads the attributes of an element, builds the addresses of
    its requests to the JSON API, hands the requests to [queue], and draws what
    comes back with d3, through the helpers ([formattedDate], [pathForWork],
    [paginate]) and the charts.  [paginate] sets up a bootpag pager whose links
    go back to the same page.  The page of API requests keeps a crossfilter: it
    filters by brushing bar charts, and every filter redraws the charts from
    the groups of the other dimensions.  The bars of the charts have tooltips, which
    a chart drawn again destroys and makes anew; menus, tabs and collapsible panels are
    driven by attributes of the pages.

    ** Conventions

    - Statements of JavaScript that can fail are in the monad [js]: [Ret],
      [Throw] with the message (the class of the error, where the engine
      throws it), and [Stuck] for what the model does not follow: an access
      outside an array and a loop out of fuel.  Theorems are stated so that
      [Stuck] and [Throw] are excluded ([exists r, f x = Ret r], or [wp]).
    - The variables of a closure are the fields of a record, threaded through
      the functions that close over them.  Objects that refer to each other
      (dimensions, groups, their listeners) are numbered, and kept in lists of
      the record; a listener is the constructor that says whose function it is.
    - Numbers are [Z] where the code counts or indexes; the operators of 32
      bits truncate explicitly ([to_int32], [js_and], [js_shl], ...), and a cell of
      a typed array keeps the low bits of what is stored.  Measures are rationals, with
      [None] for [NaN].  Strings are the bytes of their UTF-8 form.
    - [loop] has fuel.  The fuel is computed from the arguments: the length of
      the slice (bisection, sifting, partitions, [top], [bottom]), one more than
      the slice for the recursion of the sort, the number of tasks for [pop],
      the number of units for [numberToHumanSize], the length of an array or of a
      string for the polyfills; the two loops of [log] have a constant, enough for
      any double.  The theorems that the
      functions return show that it is enough.
    - What is not in the repository's own JavaScript is a parameter: the
      formatters and scales of d3, [Date], [toFixed], the brush, the tasks of a
      queue.  Each such group is a class ([D3], [Scales], [Times], [Clock],
      [ReqTools]) with a concrete instance for the examples.
    - Calls that draw are recorded as a trace of effects ([Dom.effect]), in
      the order of the statements.

    ** Files

    Shared: this file (the monad, loops and their rules, order on values,
    lists); [Arrays] (JavaScript arrays, slices, permutation of a slice); [Sums]
    (sums over ids).

    crossfilter, the library ([crossfilter.js]):
    - [CfBisect] (lines 3-57, [permute], [bisect_by]), [CfInsertionsort], [CfHeap],
      [CfHeapselect], [CfQuicksort] with its proof [CfQuicksortCorrect] (58-438), [CfArray]
      (439-528 and 1377-1400: typed arrays, the refilter functions, reducers);
    - [CfCore] (531-1376): the state [cf] with its dimensions [dim], groups [grp]
      and [gall], and every method: [add], [remove], [dimension], the filters,
      [top], [bottom], [group] and its methods, [groupAll] and its methods,
      [dispose];
    - state and filters: [CfBits] (facts of 32-bit masks), [CfInv] (the invariant
      [cf_ok], and the interface [FilterListeners] between a dimension and what
      listens to its filter), [CfFilter] and [CfSelect] (the filters against that
      interface), [CfTop], [CfDimension];
    - groups: [CfGroups] (values kept incrementally; it discharges the interface),
      [CfGroupTake] and [CfGroupAdd] (new records enter the groups), [CfLinks]
      (which group listens to what), [CfShape] (what listeners leave alone),
      [CfGroupUse] (making and reading a group);
    - adding: [CfMerge] and [CfAdd] (the merge of new records into a dimension),
      [CfPreAdd] and [CfRecords] (all of [add]);
    - removing: [CfRank] (the places of those kept), [CfRemove] (values without
      the removed records), [CfRegroup] and [CfShrink] (groups, dimensions and
      records close the gaps), [CfRemoval] (all of [remove]);
    - [CfDispose] ([dispose] of groups, dimensions and [groupAll]), [CfHistory] (the
      states clients reach), [CfCalls] (the calls as values: which are allowed, which
      throw, and that the others return), [CfClient] (the calls as a client sees them),
      [CfProps] (the theorems about them).

    The rest: [Queue] ([queue.js]); [JsStrings] (strings, encodings, query
    strings); [Helpers] ([d3_helpers.js]); [Bootpag] ([jquery.bootpag.js] and [paginate]);
    [Dom] (traces, data joins, [nest]); [Pages] ([works/index.js],
    [works/recommendations.js], [works/references.js], [references/index.js],
    [publishers/works.js]); [Charts] ([bar_chart.js], [donut_chart.js]); [AlmViz]
    ([works/events.js], [sources/events.js]) with [Redraw] (a chart drawn again at
    another level, with its tooltips; it comes after the plugins in the list of files); [Overview] ([works/show.js], [sources/index.js],
    [sources/show.js], [status/index.js], [docs/show.js]); [Requests]
    ([api_requests/index.js]), with its proof [RequestsProps].

    The polyfills ([es5-shim.js]): [ShimArray] (objects with indices and a length;
    iteration, searches, [splice], [push]) with [ShimArrayProps]; [ShimDate]
    ([toISOString], the regular expression and the parser of dates) with
    [ShimDateProps]; [ShimNumber] ([toFixed]) with [ShimNumberProps]; [ShimString]
    ([split], [trim], [substr], [lastIndexOf]).

    Links and forms ([rails.js]): [Ujs] (elements with their attributes and data, the
    handlers, the requests made), with [UjsProps].

    The plugins: [Modal] ([bootstrap/modal.js]: the object, the parts of the page it
    changes, its listeners, and what waits for transitions) with [ModalProps]; [Collapse]
    ([bootstrap/collapse.js]: the panels of a group and their instances) with
    [CollapseProps]; [TooltipPlace] and [Tooltip] ([bootstrap/tooltip.js]: where a tip goes;
    an element, its instances and its tips) with [TooltipProps], and [TooltipRedraw] and
    [TooltipBars] (the tooltips of the bars that [works/events.js] draws again: one that has been
    shown, and one for which no tip has been made); [Tab] ([bootstrap/tab.js]: a list of tabs and
    its panes); [Dropdown] ([bootstrap/dropdown.js]: the menus of a page); [Carousel]
    ([bootstrap/carousel.js]).  The end of a CSS transition is a step of its own, as are
    timeouts and intervals.

    ** What is shown

    - Sorting and searching: each routine returns on every slice of comparable
      values, and its result is the specified one (a sorted permutation, the
      greatest [k] elements, the point of a partition), with the rest of the
      array untouched.
    - crossfilter: [reachable] are the states a client can bring about under the
      documented conditions (values in natural order, ranges the right way up,
      order-preserving keys, reducers that add and subtract).  In all of them
      every call that [allowed] lists returns or throws as [throws] says, and leads to a
      reachable state again; the bit set of filters means the conjunction of the
      filters in use; [add], [remove], [dimension], [dispose] and the filters
      change the selection as specified, and after [add] the bits and the index of each dimension show it; [top] and [bottom] are the first records of the selection;
      the values of groups and of [groupAll], kept incrementally, are the
      reductions from scratch.  Four theorems show where the code does not do
      this (reversed ranges, the 32nd dimension with typed arrays, a 33rd
      dimension, an empty group that is disposed of twice).
    - queue: bounded parallelism, progress, and one call of the awaited function,
      with the first error a task called back with or with the result of each task in its
      place; two fields of the model record what the tasks were and answered.
    - bootpag: a simulation of a pager by its specification, under any
      clicks; where [paginate] deviates from it on the last page.
    - Helpers: the round trip of dates, the unit of a size.
    - Pages: what each page draws, from which answers; which answers stop a page.
      A chart drawn again at other levels shows the bins of the last one, and its
      number and date in the tip of a bar that had none before; but some bars keep the
      colour of the level before ([redraw_keeps_class]).  The bars of a chart are as high as
      their values to half a pixel, if the scale rounds a linear map to the nearest integer.
    - The page of API requests: a refinement of the abstract page (a range per
      chart), and that it handles every event, proved from what [CfClient] states
      of crossfilter.
    - The polyfills: dates are read back from their ISO texts, and the parser
      accepts the dates of the calendar and no others; [toFixed] is the nearest
      decimal; [splice] moves the right cells; the iteration methods are folds;
      the searches find the first or the last entry; [split] returns the texts between the
      matches, and a string where the limit cuts the list ([split_limit_text]).
    - Links and forms, over any sequence of actions: nothing is done before the
      user has said yes, the token goes to the own site only, texts of disabled
      elements come back, the answer to a request restores the page, and a
      form is sent, in the way its attributes say, exactly if no required field is missing, until a click on a button without
      validation, which is never forgotten ([novalidate_sticks]).
    - The plugins, by rule induction over calls and ends of transitions: a modal
      used without haste leaves the page as it found it and shows one backdrop;
      an accordion has one open panel; a tooltip with a title is there exactly if the pointer or the
      focus is, if no listener prevents [show] or [hide]; a tab list and its panes agree.  These fail when a call comes during
      a transition, which [modal_early_show_leaks], [accordion_two], [tooltip_hurried] and
      [tabs_hurried] show.  A carousel, which refuses or keeps such calls, has one
      active item whatever happens, and loses no call of [to].  Of the menus one is open.
      A tip fits into the viewport, and its arrow points at its element.
    - Composition: a bar of a chart that has shown its tooltip loses it when the chart is drawn again,
      as [destroy] waits for a transition and the next call does not
      ([redraw_loses_tooltip], [redraw_drops_shown_tooltip]); one that has not gets its new
      title ([redraw_renews_tooltip], [chart_shows_level]).

    ** Not modelled

    - The rendering of d3 and jQuery themselves, HTTP, the DOM: parameters or
      recorded calls.
    - A second call of bootpag on the same element, which merges the settings
      that jQuery stored there.
    - Third-party scripts that are only loaded ([jquery.js], [lodash.js], [d3.js],
      [swagger-ui.js], the other plugins of [bootstrap/]), the manifests, the
      Ember skeleton under [src/frontend], and the server (Ruby).
    - Of [es5-shim.js]: the tests that decide which polyfills are installed, [bind],
      [Object.keys], [sort], [join], [toJSON], and the wrappers that only pass
      their arguments on to a native method.
    - Of the plugins: the options that are functions or templates, delegation, remote content, and
      calls by scripts that the pages of this program do not make; [alert] and [button],
      which close or change one element; [popover] (a tooltip with another template), [affix] and
      [scrollspy], which no page uses.
    - [dimension.groupAll()] is modelled ([dim_groupAll] in [CfCore]); no theorem is about it.
      Its one group has no key, so that the invariant of the groups with keys does not
      speak of it. *)

From stdpp Require Export base tactics list option numbers strings.
From Stdlib Require Export ZArith Lia.

#[global] Open Scope Z_scope.

(** Ranges of the bitwise operators. *)
Create HintDb js_bits.
(** Consequences of the crossfilter invariant. *)
Create HintDb cf.

(** [lia] with division and modulo by constants. *)
Ltac divlia := Z.to_euclidean_division_equations; lia.

(** ** Outcomes of JavaScript code

    A piece of code either returns a value, throws, or leaves the part of
    the language the model covers: [Stuck] stands for a read outside an
    array (JavaScript would go on with [undefined]) and for a loop that
    has used up its fuel.  Every correctness theorem below shows that the
    code ends in [Ret]. *)

Inductive js (A : Type) : Type :=
| Ret (a : A)
| Throw (e : string)
| Stuck.
Arguments Ret {A} a.
Arguments Throw {A} e.
Arguments Stuck {A}.

#[export] Instance js_ret : MRet js := fun A x => Ret x.
#[export] Instance js_bind : MBind js := fun A B f m =>
  match m with
  | Ret x => f x
  | Throw e => Throw e
  | Stuck => Stuck
  end.

(** [wp m P]: the code [m] returns, with a value that satisfies [P]. *)
Definition wp {A} (m : js A) (P : A -> Prop) : Prop :=
  match m with Ret x => P x | _ => False end.

Lemma wp_elim {A} (m : js A) P : wp m P -> exists x, m = Ret x /\ P x.
Proof. destruct m; simpl; naive_solver. Qed.

Lemma wp_ret {A} (x : A) (P : A -> Prop) : P x -> wp (mret x) P.
Proof. done. Qed.

Lemma wp_Ret {A} (x : A) (P : A -> Prop) : P x -> wp (Ret x) P.
Proof. done. Qed.

Lemma wp_eq {A} (m : js A) x (P : A -> Prop) : m = Ret x -> P x -> wp m P.
Proof. by intros ->. Qed.

Lemma wp_bind {A B} (m : js A) (k : A -> js B) P :
  wp m (fun x => wp (k x) P) -> wp (m ≫= k) P.
Proof. by destruct m. Qed.

Lemma wp_mono {A} (m : js A) (P Q : A -> Prop) :
  wp m P -> (forall x, P x -> Q x) -> wp m Q.
Proof. destruct m; simpl; auto. Qed.

(** ** Loops

    [loop] runs a body until it says to stop ([inr]); [for_] is the
    counting loop [for (i = lo; i < hi; ++i)]. *)

Fixpoint loop {S R} (fuel : nat) (body : S -> js (S + R)) (s : S) : js R :=
  match fuel with
  | O => Stuck
  | Datatypes.S k =>
      r ← body s;
      match r with
      | inl s' => loop k body s'
      | inr x => Ret x
      end
  end.

Fixpoint for_n {S} (k : nat) (i : Z) (body : Z -> S -> js S) (s : S) : js S :=
  match k with
  | O => Ret s
  | Datatypes.S k' => s' ← body i s; for_n k' (i + 1) body s'
  end.

Definition for_ {S} (lo hi : Z) (body : Z -> S -> js S) (s : S) : js S :=
  for_n (Z.to_nat (hi - lo)) lo body s.

(** Total correctness of a loop: an invariant, and a measure the body
    lowers each time it goes on. *)
Lemma wp_loop {S R} (Inv : S -> Prop) (meas : S -> Z) (P : R -> Prop)
    (body : S -> js (S + R)) fuel s :
  Inv s -> 0 <= meas s < Z.of_nat fuel ->
  (forall s, Inv s -> wp (body s) (fun r =>
     match r with
     | inl s' => Inv s' /\ 0 <= meas s' < meas s
     | inr x => P x
     end)) ->
  wp (loop fuel body s) P.
Proof.
  intros HI Hm Hbody. revert s HI Hm.
  induction fuel as [|k IH]; intros s HI Hm; [lia|]. simpl.
  apply wp_bind. eapply wp_mono; [by apply Hbody|].
  intros [s'|x]; [|done]. intros [HI' Hm']. apply IH; [done|lia].
Qed.

Lemma wp_for {S} (Inv : Z -> S -> Prop) lo hi (body : Z -> S -> js S) s :
  lo <= hi -> Inv lo s ->
  (forall i s, lo <= i < hi -> Inv i s -> wp (body i s) (Inv (i + 1))) ->
  wp (for_ lo hi body s) (Inv hi).
Proof.
  unfold for_. intros Hle HI Hbody.
  remember (Z.to_nat (hi - lo)) as k eqn:Hk.
  assert (hi = lo + Z.of_nat k) as -> by lia. clear Hk Hle.
  revert lo s HI Hbody. induction k as [|k IH]; intros lo s HI Hbody; simpl.
  - by rewrite Z.add_0_r.
  - apply wp_bind. eapply wp_mono; [apply Hbody; [lia|done]|].
    intros s' HI'. replace (lo + Z.of_nat (Datatypes.S k)) with (lo + 1 + Z.of_nat k) by lia.
    apply IH; [done|]. intros i s1 Hi. apply Hbody. lia.
Qed.

Lemma for_empty {S} lo hi (body : Z -> S -> js S) s :
  hi <= lo -> for_ lo hi body s = Ret s.
Proof. intros H. unfold for_. by replace (Z.to_nat (hi - lo)) with O by lia. Qed.

(** ** Machine integers of the bitwise operators

    JavaScript numbers are exact integers in the ranges used here; the
    bitwise operators convert to 32 bits first. *)

Definition to_uint32 (x : Z) : Z := x mod 2 ^ 32.
Definition to_int32 (x : Z) : Z :=
  let u := to_uint32 x in if u <? 2 ^ 31 then u else u - 2 ^ 32.

Definition js_ushr (x k : Z) : Z := Z.shiftr (to_uint32 x) k.
Definition js_sshr (x k : Z) : Z := Z.shiftr (to_int32 x) k.
Definition js_shl (x k : Z) : Z := to_int32 (Z.shiftl (to_int32 x) k).
Definition js_and (x y : Z) : Z := Z.land (to_int32 x) (to_int32 y).
Definition js_or (x y : Z) : Z := Z.lor (to_int32 x) (to_int32 y).
Definition js_xor (x y : Z) : Z := Z.lxor (to_int32 x) (to_int32 y).
Definition js_not (x : Z) : Z := Z.lnot (to_int32 x).

Lemma to_uint32_small x : 0 <= x < 2 ^ 32 -> to_uint32 x = x.
Proof. apply Z.mod_small. Qed.

Lemma to_int32_small x : - 2 ^ 31 <= x < 2 ^ 31 -> to_int32 x = x.
Proof.
  intros H. unfold to_int32, to_uint32.
  destruct (decide (0 <= x)).
  - rewrite Z.mod_small by lia. destruct (Z.ltb_spec x (2 ^ 31)); lia.
  - replace (x mod 2 ^ 32) with (x + 2 ^ 32).
    + destruct (Z.ltb_spec (x + 2 ^ 32) (2 ^ 31)); lia.
    + rewrite <- (Z.mod_add x 1) by lia. rewrite Z.mod_small; lia.
Qed.

Lemma js_ushr_1 x : 0 <= x < 2 ^ 32 -> js_ushr x 1 = x / 2.
Proof.
  intros H. unfold js_ushr. rewrite to_uint32_small by done.
  by rewrite Z.shiftr_div_pow2.
Qed.

Lemma js_sshr_1 x : 0 <= x < 2 ^ 31 -> js_sshr x 1 = x / 2.
Proof.
  intros H. unfold js_sshr. rewrite to_int32_small by lia.
  by rewrite Z.shiftr_div_pow2.
Qed.

Lemma js_shl_1 x : 0 <= x < 2 ^ 30 -> js_shl x 1 = 2 * x.
Proof.
  intros H. unfold js_shl. rewrite (to_int32_small x) by lia.
  rewrite Z.shiftl_mul_pow2 by lia. rewrite to_int32_small; lia.
Qed.

(** ** Relational operators on JavaScript values

    [jlt] and [jle] are the operators [<] and [<=] on the values an
    accessor returns.  [NaN] and [undefined] are unordered, so [a <= b] is
    not the negation of [b < a]; [natural x] says [x] is comparable with
    itself, which the library asks of the values it sorts. *)

Class JsOrd (X : Type) := { jlt : X -> X -> bool; jle : X -> X -> bool }.

Definition natural {X} `{JsOrd X} (x : X) : Prop := jle x x = true.

Class JsOrdLaws (X : Type) `{JsOrd X} : Prop := {
  jle_trans : forall x y z : X, jle x y = true -> jle y z = true -> jle x z = true;
  jle_total : forall x y : X, natural x -> natural y -> jle x y = true \/ jle y x = true;
  jlt_spec : forall x y : X, jlt x y = jle x y && negb (jle y x);
  jle_natural : forall x y : X, jle x y = true -> natural x /\ natural y;
}.

Declare Scope js_scope.
Delimit Scope js_scope with js.
Notation "x '<.' y" := (jlt x y) (at level 70) : js_scope.
Notation "x '>.' y" := (jlt y x) (at level 70, only parsing) : js_scope.
Notation "x '<=.' y" := (jle x y) (at level 70) : js_scope.
Notation "x '>=.' y" := (jle y x) (at level 70, only parsing) : js_scope.
#[global] Open Scope js_scope.

Section order.
Context {X : Type} `{JsOrdLaws X}.
Implicit Types x y z : X.

Lemma jlt_true x y : (x <. y) = true <-> (x <=. y) = true /\ (y <=. x) = false.
Proof. rewrite jlt_spec. by rewrite andb_true_iff, negb_true_iff. Qed.

Lemma jlt_false x y : natural x -> natural y -> (x <. y) = false <-> (y <=. x) = true.
Proof.
  intros Hx Hy. rewrite jlt_spec.
  destruct (jle_total x y Hx Hy) as [->| ->]; simpl; [|rewrite andb_false_r; done].
  by destruct (y <=. x).
Qed.

Lemma jle_false x y : natural x -> natural y -> (x <=. y) = false <-> (y <. x) = true.
Proof.
  intros Hx Hy. rewrite jlt_spec.
  destruct (jle_total x y Hx Hy) as [->| ->]; simpl; [rewrite andb_false_r; done|].
  by destruct (x <=. y).
Qed.

Lemma jlt_le x y : (x <. y) = true -> (x <=. y) = true.
Proof. by rewrite jlt_true; intros []. Qed.

Lemma jlt_le_trans x y z : (x <. y) = true -> (y <=. z) = true -> (x <. z) = true.
Proof.
  rewrite !jlt_true. intros [H1 H2] H3. split; [by eapply jle_trans|].
  destruct (z <=. x) eqn:E; [|done]. by rewrite (jle_trans y z x) in H2.
Qed.

Lemma jle_lt_trans x y z : (x <=. y) = true -> (y <. z) = true -> (x <. z) = true.
Proof.
  rewrite !jlt_true. intros H1 [H2 H3]. split; [by eapply jle_trans|].
  destruct (z <=. x) eqn:E; [|done]. by rewrite (jle_trans z x y) in H3.
Qed.

Lemma jlt_irrefl x : (x <. x) = false.
Proof. rewrite jlt_spec. by destruct (x <=. x). Qed.
End order.

(** Integers are an instance. *)
#[export] Instance Z_JsOrd : JsOrd Z := {| jlt := Z.ltb; jle := Z.leb |}.
#[export] Instance Z_JsOrdLaws : JsOrdLaws Z.
Proof.
  split; unfold natural; simpl; intros; rewrite ?Z.leb_le in *; try lia.
Qed.

Lemma Z_natural (x : Z) : natural x.
Proof. apply Z.leb_refl. Qed.

(** ** Updated lists and filters *)

Lemma filter_unique {A} (P : A -> Prop) `{!forall x, Decision (P x)} l x :
  NoDup l -> x ∈ l -> (forall y, P y <-> y = x) -> filter P l = [x].
Proof.
  intros Hn Hx HP. induction Hn as [|y l Hy Hn IH]; [by apply elem_of_nil in Hx|].
  apply elem_of_cons in Hx as [<-|Hx].
  - rewrite filter_cons_True by (by apply HP). f_equal.
    destruct (filter P l) as [|z r] eqn:E; [done|].
    assert (z ∈ filter P l) as Hz by (rewrite E; left).
    apply list_elem_of_filter in Hz as [Hz Hzl]. apply HP in Hz. by subst z.
  - rewrite filter_cons_False; [by apply IH|]. intros Hpy. apply HP in Hpy. by subst y.
Qed.

Lemma imap_imap {A B C} (f : nat -> B -> C) (g : nat -> A -> B) l : imap f (imap g l) = imap (fun i x => f i (g i x)) l.
Proof. apply list_eq. intros i. rewrite !list_lookup_imap. by destruct (l !! i). Qed.

Lemma lookup_alter_if {A} (f : A -> A) i (l : list A) (j : nat) :
  alter f i l !! j = (if decide (i = j) then f else id) <$> l !! j.
Proof.
  destruct (decide (i = j)) as [<- |Hn]; [apply list_lookup_alter_eq|]. rewrite list_lookup_alter_ne by done.
  by destruct (l !! j).
Qed.
