(* ===== verification/Arrays.v ===== *)
(** * JavaScript arrays with integer indices

    Arrays are lists indexed by [Z].  [rd] and [wr] are the accesses
    [a[i]] and [a[i] = x] inside the bounds of the array; outside them they
    are [Stuck].  The file also has the calculus the sorting routines are
    verified with: [reg a i j P] says that the elements of [a[i:j]] satisfy
    [P], and [frame lo hi a a'] that [a'] differs from [a] by a permutation
    of [a[lo:hi]] only. *)

From S2P Require Import Prelude.

Definition alen {A} (a : list A) : Z := Z.of_nat (length a).

Definition aget {A} (a : list A) (i : Z) : option A :=
  if 0 <=? i then a !! Z.to_nat i else None.

Definition aupd {A} (a : list A) (i : Z) (x : A) : list A :=
  <[Z.to_nat i := x]> a.

Definition in_bounds {A} (a : list A) (i : Z) : bool := (0 <=? i) && (i <? alen a).

Definition rd {A} (a : list A) (i : Z) : js A :=
  match aget a i with Some x => Ret x | None => Stuck end.

Definition wr {A} (a : list A) (i : Z) (x : A) : js (list A) :=
  if in_bounds a i then Ret (aupd a i x) else Stuck.

(** [sorted f a lo hi]: the slice [a[lo:hi]] is in ascending order of the
    accessor [f], as the operator [<=] sees it. *)
Definition sorted {A X} `{JsOrd X} (f : A -> X) (a : list A) (lo hi : Z) : Prop :=
  forall i j x y, lo <= i -> i <= j -> j < hi ->
    aget a i = Some x -> aget a j = Some y -> (f x <=. f y) = true.

Section arrays.
Context {A : Type}.
Implicit Types (a : list A) (x y : A) (i j k lo hi : Z).

Lemma alen_nonneg a : 0 <= alen a.
Proof. unfold alen. lia. Qed.

Lemma in_bounds_spec a i : in_bounds a i = true <-> 0 <= i < alen a.
Proof. unfold in_bounds. rewrite andb_true_iff, Z.leb_le, Z.ltb_lt. lia. Qed.

Lemma aget_Some a i x : aget a i = Some x -> 0 <= i < alen a.
Proof.
  unfold aget, alen. destruct (Z.leb_spec 0 i); [|done].
  intros Hx%lookup_lt_Some. lia.
Qed.

Lemma aget_is_Some a i : 0 <= i < alen a -> exists x, aget a i = Some x.
Proof.
  unfold aget, alen. intros Hi. destruct (Z.leb_spec 0 i); [|lia].
  apply lookup_lt_is_Some_2. lia.
Qed.

Lemma alen_aupd a i x : alen (aupd a i x) = alen a.
Proof. unfold alen, aupd. by rewrite length_insert. Qed.

Lemma aget_aupd_eq a i x : 0 <= i < alen a -> aget (aupd a i x) i = Some x.
Proof.
  unfold aget, aupd, alen. intros Hi. destruct (Z.leb_spec 0 i); [|lia].
  apply list_lookup_insert_eq. lia.
Qed.

Lemma aget_aupd_ne a i j x : 0 <= i -> i <> j -> aget (aupd a i x) j = aget a j.
Proof.
  unfold aget, aupd. intros Hi Hne. destruct (Z.leb_spec 0 j); [|done].
  apply list_lookup_insert_ne. lia.
Qed.

Lemma aget_aupd a i j x :
  0 <= i < alen a -> aget (aupd a i x) j = if decide (i = j) then Some x else aget a j.
Proof.
  intros Hi. destruct (decide (i = j)) as [->|Hne].
  - by apply aget_aupd_eq.
  - apply aget_aupd_ne; [lia|done].
Qed.

Lemma aupd_id a i x : aget a i = Some x -> aupd a i x = a.
Proof.
  intros Hx. pose proof (aget_Some _ _ _ Hx). unfold aget in Hx.
  destruct (Z.leb_spec 0 i); [|lia]. by apply list_insert_id.
Qed.

Lemma aget_ext a b :
  alen a = alen b -> (forall i, 0 <= i < alen a -> aget a i = aget b i) -> a = b.
Proof.
  unfold alen, aget. intros Hl H. apply list_eq_same_length with (n := length a);
    [lia|done|]. intros i x y Hi Hx Hy. specialize (H (Z.of_nat i) ltac:(lia)).
  destruct (Z.leb_spec 0 (Z.of_nat i)); [|lia]. rewrite Nat2Z.id in H. congruence.
Qed.

Lemma aget_snoc a x i : aget (a ++ [x]) i = if decide (i = alen a) then Some x else aget a i.
Proof.
  unfold aget, alen. case_decide as E.
  - subst i. destruct (Z.leb_spec 0 (Z.of_nat (length a))); [|lia].
    rewrite Nat2Z.id. by apply list_lookup_middle.
  - destruct (Z.leb_spec 0 i); [|done].
    destruct (decide (Z.to_nat i < length a)%nat); [by apply lookup_app_l|].
    rewrite !lookup_ge_None_2; rewrite ?length_app; simpl; done || lia.
Qed.

Lemma wp_rd a i (P : A -> Prop) :
  0 <= i < alen a -> (forall x, aget a i = Some x -> P x) -> wp (rd a i) P.
Proof. intros [x Hx]%aget_is_Some HP. unfold rd. rewrite Hx. by apply HP. Qed.

Lemma rd_Some a i x : aget a i = Some x -> rd a i = Ret x.
Proof. unfold rd. by intros ->. Qed.

Lemma wp_rd_Some a i x (P : A -> Prop) : aget a i = Some x -> P x -> wp (rd a i) P.
Proof. intros H HP. by rewrite (rd_Some _ _ _ H). Qed.

Lemma wp_wr a i x (P : list A -> Prop) :
  0 <= i < alen a -> P (aupd a i x) -> wp (wr a i x) P.
Proof. intros Hi%in_bounds_spec HP. unfold wr. by rewrite Hi. Qed.

(** ** Permutations by replacing one element *)

Lemma aupd_perm a i x y : aget a i = Some y -> y :: aupd a i x ≡ₚ x :: a.
Proof.
  intros Hy. pose proof (aget_Some _ _ _ Hy). unfold aget in Hy.
  destruct (Z.leb_spec 0 i); [|lia]. unfold aupd.
  rewrite insert_take_drop by (apply lookup_lt_Some in Hy; done).
  rewrite <- (take_drop_middle _ _ _ Hy) at 3. solve_Permutation.
Qed.

(** Exchanging two elements. *)
Lemma swap_perm a i j x y :
  aget a i = Some x -> aget a j = Some y -> aupd (aupd a i y) j x ≡ₚ a.
Proof.
  intros Hx Hy. destruct (decide (i = j)) as [<-|Hne].
  - assert (x = y) as <- by congruence. by rewrite (aupd_id a i x), (aupd_id a i x).
  - pose proof (aget_Some _ _ _ Hx).
    pose proof (aupd_perm a i y x Hx) as H1.
    pose proof (aupd_perm (aupd a i y) j x y) as H2.
    rewrite aget_aupd_ne in H2 by lia. specialize (H2 Hy).
    apply (Permutation_cons_inv (a := y)). rewrite H2. exact H1.
Qed.

(** ** Regions *)

Definition reg a i j (P : A -> Prop) : Prop :=
  forall k x, i <= k < j -> aget a k = Some x -> P x.

Lemma reg_empty a i j P : j <= i -> reg a i j P.
Proof. unfold reg. lia. Qed.

Lemma reg_sub a i j i' j' P : reg a i j P -> i <= i' -> j' <= j -> reg a i' j' P.
Proof. unfold reg. intros H ?? k x ?. apply H. lia. Qed.

Lemma reg_mono a i j (P Q : A -> Prop) : reg a i j P -> (forall x, P x -> Q x) -> reg a i j Q.
Proof. unfold reg. eauto. Qed.

Lemma reg_app a i j k P : reg a i j P -> reg a j k P -> reg a i k P.
Proof.
  unfold reg. intros H1 H2 l x Hl. destruct (decide (l < j)); [apply H1|apply H2]; lia.
Qed.

Lemma reg_snoc a i j x P : reg a i j P -> aget a j = Some x -> P x -> reg a i (j + 1) P.
Proof.
  unfold reg. intros H Hj Hx k y Hk Hy. destruct (decide (k = j)) as [->|].
  - by assert (y = x) as -> by congruence.
  - eapply H; [|done]. lia.
Qed.

Lemma reg_cons a i j x P : reg a (i + 1) j P -> aget a i = Some x -> P x -> reg a i j P.
Proof.
  unfold reg. intros H Hi Hx k y Hk Hy. destruct (decide (k = i)) as [->|].
  - by assert (y = x) as -> by congruence.
  - eapply H; [|done]. lia.
Qed.

Lemma reg_aupd a i j k x P :
  0 <= k < alen a -> reg a i j P -> (i <= k < j -> P x) -> reg (aupd a k x) i j P.
Proof.
  unfold reg. intros Hk H Hx l y Hl. rewrite aget_aupd by done.
  case_decide; [intros [= <-]; subst; auto|]. by apply H.
Qed.

Lemma reg_get a i j k x P : reg a i j P -> aget a k = Some x -> i <= k < j -> P x.
Proof. unfold reg. eauto. Qed.

Lemma reg_ext a a' i j P :
  reg a i j P -> (forall k, i <= k < j -> aget a' k = aget a k) -> reg a' i j P.
Proof. unfold reg. intros H He k x Hk. rewrite He by done. by apply H. Qed.

Lemma reg_Forall a P : reg a 0 (alen a) P <-> Forall P a.
Proof.
  rewrite Forall_lookup. unfold reg, aget, alen. split.
  - intros H i x Hx. apply (H (Z.of_nat i)); [apply lookup_lt_Some in Hx; lia|].
    destruct (Z.leb_spec 0 (Z.of_nat i)); [|lia]. by rewrite Nat2Z.id.
  - intros H k x Hk. destruct (Z.leb_spec 0 k); [|done]. apply H.
Qed.

(** ** Frames *)

Record frame lo hi a a' : Prop := Frame {
  frame_perm : a' ≡ₚ a;
  frame_out : forall i, i < lo \/ hi <= i -> aget a' i = aget a i
}.

Lemma frame_refl lo hi a : frame lo hi a a.
Proof. by split. Qed.

Lemma frame_trans lo hi a b c : frame lo hi a b -> frame lo hi b c -> frame lo hi a c.
Proof.
  intros [P1 O1] [P2 O2]. split; [by rewrite P2|].
  intros i Hi. by rewrite O2, O1.
Qed.

Lemma frame_weaken lo hi lo' hi' a b :
  frame lo hi a b -> lo' <= lo -> hi <= hi' -> frame lo' hi' a b.
Proof. intros [P O] ??. split; [done|]. intros i Hi. apply O. lia. Qed.

Lemma frame_alen lo hi a a' : frame lo hi a a' -> alen a' = alen a.
Proof. intros [P _]. unfold alen. by rewrite P. Qed.

Lemma frame_swap lo hi a i j x y :
  aget a i = Some x -> aget a j = Some y -> lo <= i < hi -> lo <= j < hi ->
  frame lo hi a (aupd (aupd a i y) j x).
Proof.
  intros Hx Hy Hi Hj. split; [by apply swap_perm|].
  pose proof (aget_Some _ _ _ Hx). pose proof (aget_Some _ _ _ Hy).
  intros k Hk. rewrite !aget_aupd_ne by lia. done.
Qed.

(** The slice [a[lo:hi]]. *)
Definition slice a lo hi : list A :=
  take (Z.to_nat hi - Z.to_nat lo) (drop (Z.to_nat lo) a).

Lemma slice_split a lo hi :
  0 <= lo <= hi -> hi <= alen a ->
  a = take (Z.to_nat lo) a ++ slice a lo hi ++ drop (Z.to_nat hi) a.
Proof.
  intros. unfold slice.
  replace (drop (Z.to_nat hi) a)
    with (drop (Z.to_nat hi - Z.to_nat lo) (drop (Z.to_nat lo) a)).
  - by rewrite take_drop, take_drop.
  - rewrite drop_drop. f_equal. lia.
Qed.

Lemma slice_lookup a lo hi i :
  0 <= lo -> 0 <= i < hi - lo -> slice a lo hi !! Z.to_nat i = aget a (lo + i).
Proof.
  intros. unfold slice, aget. destruct (Z.leb_spec 0 (lo + i)); [|lia].
  rewrite lookup_take_lt by lia. rewrite lookup_drop. f_equal. lia.
Qed.

Lemma alen_slice a lo hi : 0 <= lo <= hi -> hi <= alen a -> alen (slice a lo hi) = hi - lo.
Proof. unfold alen, slice. intros. rewrite length_take, length_drop. lia. Qed.

Lemma slice_snoc a lo hi x :
  0 <= lo <= hi -> aget a hi = Some x -> slice a lo (hi + 1) = slice a lo hi ++ [x].
Proof.
  intros Hlo Hx. pose proof (aget_Some _ _ _ Hx). unfold aget in Hx.
  destruct (Z.leb_spec 0 hi); [|lia]. unfold slice.
  replace (Z.to_nat (hi + 1) - Z.to_nat lo)%nat with (S (Z.to_nat hi - Z.to_nat lo)) by lia.
  erewrite take_S_r; [done|]. rewrite lookup_drop.
  replace (Z.to_nat lo + (Z.to_nat hi - Z.to_nat lo))%nat with (Z.to_nat hi) by lia. done.
Qed.

Lemma slice_nil a lo : slice a lo lo = [].
Proof. unfold slice. by rewrite Nat.sub_diag. Qed.

Lemma slice_all a n : alen a = n -> slice a 0 n = a.
Proof. intros <-. unfold slice, alen. rewrite Nat2Z.id. simpl. rewrite drop_0, Nat.sub_0_r. apply take_ge. lia. Qed.

Lemma slice_app a lo mid hi :
  0 <= lo <= mid -> mid <= hi -> slice a lo hi = slice a lo mid ++ slice a mid hi.
Proof.
  intros Hlo Hhi. unfold slice.
  replace (Z.to_nat hi - Z.to_nat lo)%nat
    with ((Z.to_nat mid - Z.to_nat lo) + (Z.to_nat hi - Z.to_nat mid))%nat by lia.
  rewrite <- take_take_drop, drop_drop.
  by replace (Z.to_nat lo + (Z.to_nat mid - Z.to_nat lo))%nat with (Z.to_nat mid) by lia.
Qed.

Lemma elem_of_slice a lo hi x :
  0 <= lo <= hi -> hi <= alen a ->
  x ∈ slice a lo hi <-> exists i, lo <= i < hi /\ aget a i = Some x.
Proof.
  intros H1 H2. rewrite list_elem_of_lookup. split.
  - intros [i Hi]. exists (lo + Z.of_nat i).
    pose proof (lookup_lt_Some _ _ _ Hi) as Hlt.
    pose proof (alen_slice a lo hi H1 H2) as Hal. unfold alen in Hal.
    split; [lia|]. rewrite <- (slice_lookup a lo hi) by lia. by rewrite Nat2Z.id.
  - intros (i & Hi & Hx). exists (Z.to_nat (i - lo)).
    rewrite slice_lookup by lia. by replace (lo + (i - lo)) with i by lia.
Qed.

(** A frame permutes the slice it is a frame of. *)
Lemma frame_slice lo hi a a' :
  0 <= lo <= hi -> hi <= alen a -> frame lo hi a a' -> slice a' lo hi ≡ₚ slice a lo hi.
Proof.
  intros H1 H2 Hf. pose proof (frame_alen _ _ _ _ Hf) as Hl. destruct Hf as [P O].
  rewrite (slice_split a lo hi), (slice_split a' lo hi) in P by lia.
  assert (take (Z.to_nat lo) a' = take (Z.to_nat lo) a) as E1.
  { apply list_eq. intros i. destruct (decide (i < Z.to_nat lo)%nat).
    - rewrite !lookup_take_lt by lia. specialize (O (Z.of_nat i) ltac:(lia)).
      unfold aget in O. destruct (Z.leb_spec 0 (Z.of_nat i)); [|lia].
      by rewrite Nat2Z.id in O.
    - rewrite !lookup_take_ge by lia. done. }
  assert (drop (Z.to_nat hi) a' = drop (Z.to_nat hi) a) as E2.
  { apply list_eq. intros i. rewrite !lookup_drop.
    specialize (O (hi + Z.of_nat i) ltac:(lia)). unfold aget in O.
    destruct (Z.leb_spec 0 (hi + Z.of_nat i)); [|lia].
    by replace (Z.to_nat (hi + Z.of_nat i)) with (Z.to_nat hi + i)%nat in O by lia. }
  rewrite E1, E2 in P. apply Permutation_app_inv_l in P.
  by apply Permutation_app_inv_r in P.
Qed.

(** What holds of every element of a slice still holds after a frame. *)
Lemma frame_reg lo hi a a' P :
  0 <= lo <= hi -> hi <= alen a -> frame lo hi a a' -> reg a lo hi P -> reg a' lo hi P.
Proof.
  intros H1 H2 Hf HP k x Hk Hx.
  assert (x ∈ slice a lo hi) as Hin.
  { rewrite <- (frame_slice lo hi a a') by done. apply elem_of_slice; [done| |eauto].
    rewrite (frame_alen _ _ _ _ Hf). done. }
  apply elem_of_slice in Hin as (j & Hj & Hgj); [|done..]. by apply (HP j).
Qed.

(** Regions wider than, or disjoint from, the frame. *)
Lemma frame_reg_super lo hi a a' i j P :
  0 <= lo <= hi -> hi <= alen a -> frame lo hi a a' -> i <= lo -> hi <= j ->
  reg a i j P -> reg a' i j P.
Proof.
  intros H1 H2 Hf Hi Hj HP.
  apply (reg_app _ _ lo); [|apply (reg_app _ _ hi)].
  - apply (reg_ext a); [by eapply reg_sub; [done|lia..]|].
    intros k Hk. apply (frame_out _ _ _ _ Hf). lia.
  - eapply frame_reg; [done..|]. by eapply reg_sub.
  - apply (reg_ext a); [by eapply reg_sub; [done|lia..]|].
    intros k Hk. apply (frame_out _ _ _ _ Hf). lia.
Qed.

Lemma frame_reg_disjoint lo hi a a' i j P :
  frame lo hi a a' -> j <= lo \/ hi <= i -> reg a i j P -> reg a' i j P.
Proof.
  intros Hf Hd HP. apply (reg_ext a); [done|].
  intros k Hk. apply (frame_out _ _ _ _ Hf). lia.
Qed.
Lemma alen_app (l l' : list A) : alen (l ++ l') = alen l + alen l'.
Proof. unfold alen. rewrite length_app. lia. Qed.

Lemma aget_app_l (l l' : list A) k : k < alen l -> aget (l ++ l') k = aget l k.
Proof. unfold aget, alen. intros Hk. destruct (Z.leb_spec 0 k); [|done]. apply lookup_app_l. lia. Qed.

Lemma aget_app_r (l l' : list A) k : 0 <= k -> aget (l ++ l') (k + alen l) = aget l' k.
Proof.
  unfold aget, alen. intros Hk. destruct (Z.leb_spec 0 k), (Z.leb_spec 0 (k + Z.of_nat (length l))); try lia.
  rewrite lookup_app_r by lia. f_equal. lia.
Qed.

Lemma aget_elem (l : list A) i x : aget l i = Some x -> x ∈ l.
Proof. unfold aget. destruct (0 <=? i); [|done]. apply list_elem_of_lookup_2. Qed.
Lemma aget_nat (l : list A) (i : nat) : aget l (Z.of_nat i) = l !! i.
Proof. unfold aget. destruct (Z.leb_spec 0 (Z.of_nat i)); [by rewrite Nat2Z.id|lia]. Qed.

Lemma elem_of_aget (l : list A) x : x ∈ l -> exists i, aget l i = Some x.
Proof.
  intros [i Hi]%list_elem_of_lookup. exists (Z.of_nat i). unfold aget.
  destruct (Z.leb_spec 0 (Z.of_nat i)); [by rewrite Nat2Z.id|lia].
Qed.
End arrays.

(** ** Sorted slices *)

Section sorted.
Context {A X : Type} `{JsOrdLaws X} (f : A -> X).
Implicit Types (a : list A) (i j lo hi : Z).

Lemma sorted_natural a lo hi : sorted f a lo hi -> reg a lo hi (fun x => natural (f x)).
Proof. intros Hs i x Hi Hx. apply (Hs i i x x); [lia..|done|done]. Qed.

Lemma sorted_sub a lo hi lo' hi' :
  sorted f a lo hi -> lo <= lo' -> hi' <= hi -> sorted f a lo' hi'.
Proof. intros Hs ?? i j x y ???. apply Hs; lia. Qed.

Lemma sorted_ext a a' lo hi :
  sorted f a lo hi -> (forall i, lo <= i < hi -> aget a' i = aget a i) -> sorted f a' lo hi.
Proof. intros Hs He i j x y ???. rewrite !He by lia. apply Hs; lia. Qed.

Lemma sorted_single a lo hi :
  hi <= lo + 1 -> reg a lo hi (fun x => natural (f x)) -> sorted f a lo hi.
Proof.
  intros Hl Hn i j x y ??? Hx Hy. assert (j = i) as -> by lia.
  assert (y = x) as -> by congruence. apply (Hn i); [lia|done].
Qed.

(** Two sorted slices around a boundary value form a sorted slice. *)
Lemma sorted_join a lo mid hi (p : X) :
  sorted f a lo mid -> sorted f a mid hi ->
  reg a lo mid (fun x => (f x <=. p) = true) ->
  reg a mid hi (fun x => (p <=. f x) = true) ->
  sorted f a lo hi.
Proof.
  intros S1 S2 R1 R2 i j x y ??? Hx Hy.
  destruct (decide (j < mid)); [apply (S1 i j); done || lia|].
  destruct (decide (mid <= i)); [apply (S2 i j); done || lia|].
  apply (jle_trans _ p).
  - eapply (R1 i); [lia|done].
  - eapply (R2 j); [lia|done].
Qed.
End sorted.

(** A boolean test for [sorted], for concrete arrays. *)
Definition sortedb {A X} `{JsOrd X} (f : A -> X) (a : list A) (lo hi : Z) : bool :=
  forallb (fun i => forallb (fun j =>
    match aget a i, aget a j with
    | Some x, Some y => f x <=. f y
    | _, _ => true
    end) (seqZ i (hi - i))) (seqZ lo (hi - lo)).

Lemma sortedb_sound {A X} `{JsOrd X} (f : A -> X) a lo hi :
  sortedb f a lo hi = true -> sorted f a lo hi.
Proof.
  unfold sortedb. rewrite forallb_forall. intros Hs i j x y H1 H2 H3 Hx Hy.
  specialize (Hs i). rewrite forallb_forall in Hs.
  assert (In i (seqZ lo (hi - lo))) as Hi by (apply list_elem_of_In, elem_of_seqZ; lia).
  specialize (Hs Hi j). rewrite Hx, Hy in Hs. apply Hs, list_elem_of_In, elem_of_seqZ. lia.
Qed.
