(* ===== verification/Sums.v ===== *)
(** * Sums over lists of ids

    The reduce values of groups are sums over record ids; these are the
    facts about such sums the groups share. *)

From S2P Require Import Prelude.

Definition zsum {A} (g : A -> Z) (l : list A) : Z := foldr (fun k s => g k + s) 0 l.

(** [g k] when the test holds, 0 otherwise. *)
Definition when (b : bool) (v : Z) : Z := if b then v else 0.

Section sums.
Context {A : Type}.
Implicit Types (l : list A) (g : A -> Z).

Lemma zsum_app g l l' : zsum g (l ++ l') = zsum g l + zsum g l'.
Proof. induction l; simpl; lia. Qed.

Lemma zsum_snoc g l x : zsum g (l ++ [x]) = zsum g l + g x.
Proof. rewrite zsum_app. simpl. lia. Qed.

Lemma zsum_perm g l l' : l ≡ₚ l' -> zsum g l = zsum g l'.
Proof. induction 1; simpl; lia. Qed.

#[export] Instance zsum_Permutation g : Proper ((≡ₚ) ==> eq) (zsum g).
Proof. intros l l'. apply zsum_perm. Qed.

Lemma zsum_ext g h l : (forall x, x ∈ l -> g x = h x) -> zsum g l = zsum h l.
Proof.
  induction l as [|x l IH]; intros He; [done|]. simpl.
  rewrite (He x) by left. rewrite IH; [done|]. intros y Hy. apply He. by right.
Qed.

Lemma zsum_add g h l : zsum (fun x => g x + h x) l = zsum g l + zsum h l.
Proof. induction l; simpl; lia. Qed.

Lemma zsum_opp g l : zsum (fun x => - g x) l = - zsum g l.
Proof. induction l; simpl; lia. Qed.

Lemma zsum_0 l : zsum (fun _ => 0) l = 0.
Proof. induction l; simpl; lia. Qed.

(** A sum over some of the ids is a sum over all of them. *)
Lemma zsum_sub `{EqDecision A} g l s :
  NoDup l -> NoDup s -> (forall x, x ∈ s -> x ∈ l) ->
  zsum g s = zsum (fun x => when (bool_decide (x ∈ s)) (g x)) l.
Proof.
  intros Hl Hs Hsub.
  assert (exists r, l ≡ₚ s ++ r) as [r Hr].
  { apply submseteq_Permutation. apply NoDup_submseteq; [done|]. intros x. apply Hsub. }
  rewrite (zsum_perm _ _ _ Hr), zsum_app.
  rewrite Hr in Hl. apply NoDup_app in Hl as (_ & Hd & _).
  rewrite (zsum_ext (fun x => when (bool_decide (x ∈ s)) (g x)) g s)
    by (intros x Hx; by rewrite bool_decide_true).
  rewrite (zsum_ext (fun x => when (bool_decide (x ∈ s)) (g x)) (fun _ => 0) r), zsum_0; [lia|].
  intros x Hx. rewrite bool_decide_false; [done|]. intros Hxs. by apply (Hd x).
Qed.
End sums.

Lemma zsum_omap {A R} (w : R -> Z) (g : A -> option R) l :
  zsum w (omap g l) = zsum (fun k => default 0 (w <$> g k)) l.
Proof.
  induction l as [|k l IH]; [done|]. change (k :: l) with ([k] ++ l).
  rewrite omap_app, !zsum_app, IH. f_equal. simpl. by destruct (g k).
Qed.

Lemma List_filter_perm {A} (p : A -> bool) l l' : l ≡ₚ l' -> List.filter p l ≡ₚ List.filter p l'.
Proof.
  induction 1 as [|x l l' _ IH|x y l|]; simpl; [done| | |by etrans].
  - destruct (p x); by rewrite ?IH.
  - destruct (p x), (p y); done || apply perm_swap.
Qed.

Lemma filter_none {A} (p : A -> bool) l : (forall x, x ∈ l -> p x = false) -> List.filter p l = [].
Proof.
  induction l as [|x l IH]; intros Hp; [done|]. simpl. rewrite Hp by left. apply IH. intros y Hy. apply Hp. by right.
Qed.

Lemma filter_filter {A} (p : A -> bool) l : List.filter p (List.filter p l) = List.filter p l.
Proof. induction l as [|x l IH]; [done|]. simpl. destruct (p x) eqn:E; [|done]. simpl. by rewrite E, IH. Qed.

Lemma nodup_filter_comm {A} (p q : A -> bool) l :
  NoDup (List.filter p l) -> NoDup (List.filter p (List.filter q l)).
Proof.
  induction l as [|x l IH]; [done|]. simpl. intros Hnd.
  assert (NoDup (List.filter p l)) as Hnd' by (destruct (p x); [by apply NoDup_cons in Hnd as [_ ?]|done]).
  specialize (IH Hnd'). destruct (q x); [|done]. simpl. destruct (p x); [|done]. apply NoDup_cons in Hnd as [Hx _].
  constructor; [|done]. rewrite list_elem_of_In, !filter_In. rewrite list_elem_of_In, filter_In in Hx. tauto.
Qed.

Lemma zsum_filter {A} (p : A -> bool) (g : A -> Z) l : zsum g (List.filter p l) = zsum (fun x => when (p x) (g x)) l.
Proof. induction l as [|x l IH]; [done|]. simpl. destruct (p x); simpl; by rewrite IH. Qed.

Lemma zsum_fmap {A B} (f : A -> B) (g : B -> Z) l : zsum g (f <$> l) = zsum (fun x => g (f x)) l.
Proof. induction l as [|x l IH]; [done|]. simpl. by rewrite <- IH. Qed.
