(* ===== verification/CfBisect.v ===== *)
(** * crossfilter: identity, permute and bisect

    [src/app/assets/javascripts/crossfilter.js], lines 3-57. *)

From S2P Require Import Prelude.
From S2P Require Import Arrays.

Definition crossfilter_identity {A} (d : A) : A := d.

(** [copy[i] = array[index[i]]]; an index outside [array] gives [undefined]. *)
Definition permute {A} (undef : A) (array : list A) (index : list Z) : list A :=
  map (fun k => default undef (aget array k)) index.

Section bisect_by.
Context {A X : Type} `{JsOrd X} (f : A -> X).

Definition bisectLeft (a : list A) (x : X) (lo hi : Z) : js Z :=
  loop (S (Z.to_nat (hi - lo))) (fun '(lo, hi) =>
    if lo <? hi then
      let mid := js_ushr (lo + hi) 1 in
      d ← rd a mid;
      if f d <. x then Ret (inl (mid + 1, hi)) else Ret (inl (lo, mid))
    else Ret (inr lo)) (lo, hi).

Definition bisectRight (a : list A) (x : X) (lo hi : Z) : js Z :=
  loop (S (Z.to_nat (hi - lo))) (fun '(lo, hi) =>
    if lo <? hi then
      let mid := js_ushr (lo + hi) 1 in
      d ← rd a mid;
      if x <. f d then Ret (inl (lo, mid)) else Ret (inl (mid + 1, hi))
    else Ret (inr lo)) (lo, hi).
End bisect_by.

Section bisect_correct.
Context {A X : Type} `{JsOrdLaws X} (f : A -> X).
Implicit Types (a : list A) (x : X) (lo hi : Z).

(** The loop both searches share: [go_right] tells on which side of [mid]
    the insertion point is, and is monotone along the slice. *)
Lemma bisect_loop a (go_right : A -> bool) lo hi :
  0 <= lo <= hi -> hi <= alen a -> hi <= 2 ^ 31 ->
  (forall i j d e, lo <= i -> i <= j -> j < hi -> aget a i = Some d -> aget a j = Some e ->
     go_right e = true -> go_right d = true) ->
  wp (loop (S (Z.to_nat (hi - lo))) (fun '(lo, hi) =>
    if lo <? hi then
      let mid := js_ushr (lo + hi) 1 in
      d ← rd a mid;
      if go_right d then Ret (inl (mid + 1, hi)) else Ret (inl (lo, mid))
    else Ret (inr lo)) (lo, hi))
    (fun i => lo <= i <= hi /\ reg a lo i (fun d => go_right d = true)
              /\ reg a i hi (fun d => go_right d = false)).
Proof.
  intros H1 H2 H3 Hmono.
  apply (wp_loop (fun '(l, h) => lo <= l <= h /\ h <= hi
           /\ reg a lo l (fun d => go_right d = true)
           /\ reg a h hi (fun d => go_right d = false)) (fun '(l, h) => h - l)).
  - split_and!; [lia..| |]; apply reg_empty; lia.
  - lia.
  - intros [l h] (Hl & Hh & Rl & Rh). simpl.
    destruct (Z.ltb_spec l h) as [Hlt|Hge].
    + rewrite js_ushr_1 by lia.
      assert (l <= (l + h) / 2 < h) as Hmid.
      { split; [apply Z.div_le_lower_bound|apply Z.div_lt_upper_bound]; lia. }
      set (mid := (l + h) / 2) in *.
      apply wp_bind, wp_rd; [lia|]. intros d Hd.
      destruct (go_right d) eqn:E; simpl; split_and!; try lia; try done.
      * intros i e Hi He. destruct (decide (i < l)); [by apply (Rl i); [lia|]|].
        apply (Hmono i mid e d); done || lia.
      * intros i e Hi He. destruct (decide (h <= i)); [by apply (Rh i); [lia|]|].
        destruct (go_right e) eqn:E'; [|done].
        rewrite (Hmono mid i d e) in E; done || lia.
    + simpl. assert (h = l) as -> by lia. split_and!; done || lia.
Qed.

Lemma bisectLeft_wp a x lo hi :
  0 <= lo <= hi -> hi <= alen a -> hi <= 2 ^ 31 -> natural x -> sorted f a lo hi ->
  wp (bisectLeft f a x lo hi) (fun i => lo <= i <= hi
    /\ reg a lo i (fun d => (f d <. x) = true) /\ reg a i hi (fun d => (f d >=. x) = true)).
Proof.
  intros H1 H2 H3 Hx Hs. eapply wp_mono.
  - apply (bisect_loop a (fun d => f d <. x) lo hi H1 H2 H3).
    intros i j d e ??? Hd He Hlt. eapply jle_lt_trans; [by apply (Hs i j)|done].
  - intros i (Hi & Rl & Rh). split_and!; [lia..|done|].
    intros k d Hk Hd. apply jlt_false; [|done|by apply (Rh k)].
    by apply (sorted_natural _ _ _ _ Hs k); [lia|].
Qed.

Lemma bisectRight_wp a x lo hi :
  0 <= lo <= hi -> hi <= alen a -> hi <= 2 ^ 31 -> natural x -> sorted f a lo hi ->
  wp (bisectRight f a x lo hi) (fun i => lo <= i <= hi
    /\ reg a lo i (fun d => (f d <=. x) = true) /\ reg a i hi (fun d => (f d >. x) = true)).
Proof.
  intros H1 H2 H3 Hx Hs.
  assert (bisectRight f a x lo hi =
          loop (S (Z.to_nat (hi - lo))) (fun '(lo, hi) =>
            if lo <? hi then
              let mid := js_ushr (lo + hi) 1 in
              d ← rd a mid;
              if negb (x <. f d) then Ret (inl (mid + 1, hi)) else Ret (inl (lo, mid))
            else Ret (inr lo)) (lo, hi)) as ->.
  { unfold bisectRight. generalize (lo, hi). generalize (S (Z.to_nat (hi - lo))).
    induction n as [|n IH]; intros [l h]; [done|]. simpl.
    destruct (l <? h); [|done]. destruct (rd a _); [|done..]. simpl.
    destruct (x <. f a0); simpl; apply IH. }
  assert (reg a lo hi (fun d => natural (f d))) as Hn by by apply sorted_natural.
  eapply wp_mono.
  - apply (bisect_loop a (fun d => negb (x <. f d)) lo hi H1 H2 H3).
    intros i j d e ??? Hd He. rewrite !negb_true_iff. intros Hge.
    pose proof (Hs i j d e ltac:(lia) ltac:(lia) ltac:(lia) Hd He) as Hle.
    destruct (x <. f d) eqn:E; [|done]. by rewrite (jlt_le_trans x (f d) (f e)) in Hge.
  - intros i (Hi & Rl & Rh). split_and!; [lia..| |].
    + intros k d Hk Hd. apply jlt_false; [done|by apply (Hn k); [lia|]|].
      apply negb_true_iff. by apply (Rl k).
    + intros k d Hk Hd. apply negb_false_iff. by apply (Rh k).
Qed.
End bisect_correct.

(** ** Properties *)

(** on a sorted slice [bisectLeft] returns, and the insertion point it
    returns splits the slice as its comment says: all values before it are
    [< x], all values from it on are [>= x]. *)
Theorem bisectLeft_partitions {A X} `{JsOrdLaws X} (f : A -> X) a x lo hi :
  0 <= lo <= hi -> hi <= alen a -> hi <= 2 ^ 31 -> natural x -> sorted f a lo hi ->
  exists i, bisectLeft f a x lo hi = Ret i /\ lo <= i <= hi
    /\ (forall j d, lo <= j < i -> aget a j = Some d -> (f d <. x) = true)
    /\ (forall j d, i <= j < hi -> aget a j = Some d -> (f d >=. x) = true).
Proof. intros. by apply wp_elim, bisectLeft_wp. Qed.

Lemma bisectLeft_partitions_witness :
  exists i, bisectLeft crossfilter_identity [1; 3; 3; 7] 3 0 4 = Ret i /\ 0 <= i <= 4
    /\ (forall j d, 0 <= j < i -> aget [1; 3; 3; 7] j = Some d -> (d <. 3) = true)
    /\ (forall j d, i <= j < 4 -> aget [1; 3; 3; 7] j = Some d -> (d >=. 3) = true).
Proof.
  apply (bisectLeft_partitions crossfilter_identity [1; 3; 3; 7] 3 0 4); [done..|].
  by apply sortedb_sound.
Defined.

(** Likewise for [bisectRight], with [<= x] before the insertion point
    and [> x] from it on. *)
Theorem bisectRight_partitions {A X} `{JsOrdLaws X} (f : A -> X) a x lo hi :
  0 <= lo <= hi -> hi <= alen a -> hi <= 2 ^ 31 -> natural x -> sorted f a lo hi ->
  exists i, bisectRight f a x lo hi = Ret i /\ lo <= i <= hi
    /\ (forall j d, lo <= j < i -> aget a j = Some d -> (f d <=. x) = true)
    /\ (forall j d, i <= j < hi -> aget a j = Some d -> (f d >. x) = true).
Proof. intros. by apply wp_elim, bisectRight_wp. Qed.

Lemma bisectRight_partitions_witness :
  exists i, bisectRight crossfilter_identity [1; 3; 3; 7] 3 0 4 = Ret i /\ 0 <= i <= 4
    /\ (forall j d, 0 <= j < i -> aget [1; 3; 3; 7] j = Some d -> (d <=. 3) = true)
    /\ (forall j d, i <= j < 4 -> aget [1; 3; 3; 7] j = Some d -> (d >. 3) = true).
Proof.
  apply (bisectRight_partitions crossfilter_identity [1; 3; 3; 7] 3 0 4); [done..|].
  by apply sortedb_sound.
Defined.
