(* ===== verification/CfInsertionsort.v ===== *)
(** * crossfilter: insertion sort

    [src/app/assets/javascripts/crossfilter.js], lines 136-154. *)

From S2P Require Import Prelude.
From S2P Require Import Arrays.

Section insertionsort_by.
Context {A X : Type} `{JsOrd X} (f : A -> X).

(** The inner loop: shift the elements greater than [x] one place right. *)
Definition insertionsort_shift (lo : Z) (x : X) (a : list A) (i : Z) : js (list A * Z) :=
  loop (S (Z.to_nat (i - lo))) (fun '(a, j) =>
    if lo <? j then
      p ← rd a (j - 1);
      if f p >. x then
        a ← wr a j p;
        Ret (inl (a, j - 1))
      else Ret (inr (a, j))
    else Ret (inr (a, j))) (a, i).

Definition insertionsort (a : list A) (lo hi : Z) : js (list A) :=
  for_ (lo + 1) hi (fun i a =>
    t ← rd a i;
    let x := f t in
    '(a, j) ← insertionsort_shift lo x a i;
    wr a j t) a.
End insertionsort_by.

Section insertionsort_correct.
Context {A X : Type} `{JsOrdLaws X} (f : A -> X).
Implicit Types (a : list A) (lo hi : Z).

(** The slice is in order when position [j] is left out. *)
Definition sorted_but a lo hi j : Prop :=
  forall p q x y, lo <= p -> p <= q -> q < hi -> p <> j -> q <> j ->
    aget a p = Some x -> aget a q = Some y -> (f x <=. f y) = true.

(** Filling the place left out keeps the order when the new element fits. *)
Lemma sorted_fill a lo hi j t :
  lo <= j < hi -> 0 <= j < alen a -> natural (f t) -> sorted_but a lo hi j ->
  reg a lo j (fun y => (f y <=. f t) = true) ->
  reg a (j + 1) hi (fun y => (f t <=. f y) = true) ->
  sorted f (aupd a j t) lo hi.
Proof.
  intros Hj Hb Ht Hs Rl Rh p q x y ??? Hx Hy.
  rewrite aget_aupd in Hx, Hy by done.
  destruct (decide (j = p)), (decide (j = q)); simplify_eq; [done|..].
  - apply (Rh q); [lia|done].
  - apply (Rl p); [lia|done].
  - by apply (Hs p q).
Qed.

Lemma insertionsort_shift_wp a0 lo i t :
  0 <= lo <= i -> aget a0 i = Some t -> sorted f a0 lo i ->
  natural (f t) -> reg a0 lo i (fun y => natural (f y)) ->
  wp (insertionsort_shift f lo (f t) a0 i) (fun '(a, j) =>
    lo <= j <= i /\ frame lo (i + 1) a0 (aupd a j t) /\ alen a = alen a0
    /\ sorted f (aupd a j t) lo (i + 1)).
Proof.
  intros Hlo Ht Hs Hn Hnat. pose proof (aget_Some _ _ _ Ht) as Hb.
  apply (wp_loop (fun '(a, j) => lo <= j <= i /\ alen a = alen a0
           /\ frame lo (i + 1) a0 (aupd a j t) /\ sorted_but a lo (i + 1) j
           /\ reg a lo j (fun y => natural (f y))
           /\ reg a (j + 1) (i + 1) (fun y => (f t <. f y) = true))
         (fun '(_, j) => j - lo)).
  - split_and!; [lia..|done| | |done|].
    + rewrite aupd_id by done. apply frame_refl.
    + intros p q x y ?????. apply Hs; lia.
    + apply reg_empty. lia.
  - lia.
  - intros [a j] (Hj & Hl & Hf & Hsb & Hna & Hgt).
    assert (reg a (j + 1) (i + 1) (fun y => (f t <=. f y) = true)) as Hge.
    { eapply reg_mono; [done|]. intros y. apply jlt_le. }
    destruct (Z.ltb_spec lo j) as [Hlt|Hstop].
    2:{ simpl. split_and!; [lia..|done|done|]. apply sorted_fill; [lia|lia|done|done| |done].
        apply reg_empty. lia. }
    apply wp_bind, wp_rd; [lia|]. intros p Hp.
    destruct (f t <. f p) eqn:E.
    + apply wp_bind, wp_wr; [lia|]. simpl. split_and!; try lia.
      * by rewrite alen_aupd.
      * eapply frame_trans; [done|].
        replace (aupd (aupd a j p) (j - 1) t) with
          (aupd (aupd (aupd a j t) j p) (j - 1) t).
        { apply frame_swap; [| |lia|lia].
          - apply aget_aupd_eq. lia.
          - rewrite aget_aupd_ne by lia. done. }
        f_equal. unfold aupd. by rewrite list_insert_insert_eq.
      * intros k l x y ????? Hx Hy. rewrite aget_aupd in Hx, Hy by lia.
        destruct (decide (j = k)), (decide (j = l)); simplify_eq; try lia.
        -- eapply Hna; [|exact Hp]; lia.
        -- eapply Hsb; [..|exact Hp|exact Hy]; lia.
        -- eapply Hsb; [..|exact Hx|exact Hp]; lia.
        -- eapply Hsb; [..|exact Hx|exact Hy]; lia.
      * apply reg_aupd; [lia| |lia]. eapply reg_sub; [done|lia..].
      * replace (j - 1 + 1) with j by lia.
        apply (reg_cons _ _ _ p); [|apply aget_aupd_eq; lia|done].
        apply reg_aupd; [lia|done|lia].
    + simpl. split_and!; [lia..|done|done|]. apply sorted_fill; [lia|lia|done|done| |done].
      intros k y Hk Hy. apply (jle_trans _ (f p)).
      * apply (Hsb k (j - 1)); done || lia.
      * apply jlt_false; [done|by apply (Hna (j - 1)); [lia|]|done].
Qed.

Lemma insertionsort_wp a lo hi :
  0 <= lo <= hi -> hi <= alen a -> reg a lo hi (fun y => natural (f y)) ->
  wp (insertionsort f a lo hi) (fun a' => frame lo hi a a' /\ sorted f a' lo hi).
Proof.
  intros H1 H2 Hn. unfold insertionsort.
  destruct (decide (hi <= lo + 1)) as [Hle|Hgt].
  { rewrite for_empty by done. split; [apply frame_refl|]. by apply sorted_single. }
  eapply wp_mono.
  - apply (wp_for (fun i a' => frame lo hi a a' /\ sorted f a' lo i)); [lia| |].
    + split; [apply frame_refl|]. apply sorted_single; [lia|].
      eapply reg_sub; [done|lia..].
    + intros i b Hi [Hf Hs]. pose proof (frame_alen _ _ _ _ Hf) as Hl.
      assert (reg b lo hi (fun y => natural (f y))) as Hnb by by eapply frame_reg.
      apply wp_bind, wp_rd; [lia|]. intros t Ht. apply wp_bind.
      eapply wp_mono; [apply insertionsort_shift_wp; try done; [lia| |]|].
      * by apply (Hnb i); [lia|].
      * eapply reg_sub; [done|lia..].
      * intros [c j] (Hj & Hfc & Hlc & Hsc). apply wp_wr; [lia|]. split; [|done].
        eapply frame_trans; [done|]. eapply frame_weaken; [done|lia..].
  - done.
Qed.
End insertionsort_correct.

(** ** Properties *)

(** [insertionsort(a, lo, hi)] returns the array with [a[lo:hi]] in
    ascending order: a permutation of [a] that leaves the elements outside
    the slice where they were. *)
Theorem insertionsort_sorts {A X} `{JsOrdLaws X} (f : A -> X) a lo hi :
  0 <= lo <= hi -> hi <= alen a ->
  (forall i x, lo <= i < hi -> aget a i = Some x -> natural (f x)) ->
  exists a', insertionsort f a lo hi = Ret a' /\ a' ≡ₚ a
    /\ (forall i, i < lo \/ hi <= i -> aget a' i = aget a i) /\ sorted f a' lo hi.
Proof.
  intros H1 H2 Hn. destruct (wp_elim _ _ (insertionsort_wp f a lo hi H1 H2 Hn))
    as (a' & -> & [Hp Ho] & Hs). eauto.
Qed.

Lemma insertionsort_sorts_witness :
  exists a', insertionsort (fun x : Z => x) [9; 4; 2; 7; 0] 1 5 = Ret a'
    /\ a' ≡ₚ [9; 4; 2; 7; 0]
    /\ (forall i, i < 1 \/ 5 <= i -> aget a' i = aget [9; 4; 2; 7; 0] i)
    /\ sorted (fun x : Z => x) a' 1 5.
Proof.
  apply (insertionsort_sorts (fun x : Z => x) [9; 4; 2; 7; 0] 1 5); [done..|].
  intros. apply Z_natural.
Defined.
