(* ===== verification/CfHeap.v ===== *)
(** * crossfilter: binary heap and heap sort

    [src/app/assets/javascripts/crossfilter.js], lines 58-99.  The heap is
    the slice [a[lo:lo+n]]; inside [sift] it is indexed from 1, with the
    children of node [i] at [2i] and [2i+1]. *)

From S2P Require Import Prelude.
From S2P Require Import Arrays.

Section heap_by.
Context {A X : Type} `{JsOrd X} (f : A -> X).

Definition sift (a : list A) (i n lo : Z) : js (list A) :=
  let lo := lo - 1 in
  d ← rd a (lo + i);
  let x := f d in
  '(a, i) ← loop (S (Z.to_nat n)) (fun '(a, i) =>
    let child := js_shl i 1 in
    if child <=? n then
      child ← (if child <? n then
                 l ← rd a (lo + child);
                 r ← rd a (lo + child + 1);
                 Ret (if f l >. f r then child + 1 else child)
               else Ret child);
      c ← rd a (lo + child);
      if x <=. f c then Ret (inr (a, i))
      else
        a ← wr a (lo + i) c;
        Ret (inl (a, child))
    else Ret (inr (a, i))) (a, i);
  wr a (lo + i) d.

Definition heap (a : list A) (lo hi : Z) : js (list A) :=
  let n := hi - lo in
  let i := js_ushr n 1 + 1 in
  loop (S (Z.to_nat i)) (fun '(a, i) =>
    let i := i - 1 in
    if 0 <? i then
      a ← sift a i n lo;
      Ret (inl (a, i))
    else Ret (inr a)) (a, i).

Definition sort (a : list A) (lo hi : Z) : js (list A) :=
  let n := hi - lo in
  loop (S (Z.to_nat n)) (fun '(a, n) =>
    let n := n - 1 in
    if 0 <? n then
      t ← rd a lo;
      u ← rd a (lo + n);
      a ← wr a lo u;
      a ← wr a (lo + n) t;
      a ← sift a 1 n lo;
      Ret (inl (a, n))
    else Ret (inr a)) (a, n).
End heap_by.

Section heap_correct.
Context {A X : Type} `{JsOrdLaws X} (f : A -> X).
Implicit Types (a : list A) (lo hi i j n c : Z).

(** The edge from the parent of node [c] to [c] is in order. *)
Definition edge a lo c : Prop :=
  forall u v, aget a (lo - 1 + c / 2) = Some u -> aget a (lo - 1 + c) = Some v ->
    (f u <=. f v) = true.

(** All edges below the nodes [s], [s+1], ... are in order; with [s = 1]
    this is the heap property of the whole slice. *)
Definition heap_from a lo n s : Prop :=
  forall c, s <= c / 2 -> c <= n -> edge a lo c.

(** [a[lo+i]] is at most its children [a[lo+2i+1]] and [a[lo+2i+2]]. *)
Definition is_heap a lo hi : Prop := heap_from a lo (hi - lo) 1.

Definition sorted_desc a lo hi : Prop :=
  forall i j x y, lo <= i -> i <= j -> j < hi ->
    aget a i = Some x -> aget a j = Some y -> (f y <=. f x) = true.

Lemma half c : c = 2 * (c / 2) \/ c = 2 * (c / 2) + 1.
Proof. pose proof (Z.div_mod c 2 ltac:(lia)). pose proof (Z.mod_pos_bound c 2). lia. Qed.

Lemma edge_ext a a' lo c :
  edge a lo c -> aget a' (lo - 1 + c / 2) = aget a (lo - 1 + c / 2) ->
  aget a' (lo - 1 + c) = aget a (lo - 1 + c) -> edge a' lo c.
Proof. unfold edge. intros He -> ->. exact He. Qed.

(** ** Sifting down

    The state of the loop: the hole is at node [j], the element [d] that
    was lifted out is greater than the parent of the hole. *)
Definition sift_inv a0 lo n i d a j : Prop :=
  i <= j <= n /\ alen a = alen a0 /\ frame lo (lo + n) a0 (aupd a (lo - 1 + j) d)
  /\ (forall c, i <= c / 2 -> c <= n -> c <> j -> c / 2 <> j -> edge a lo c)
  /\ (forall c u v, c / 2 = j -> c <= n -> i <= j / 2 ->
        aget a (lo - 1 + j / 2) = Some u -> aget a (lo - 1 + c) = Some v ->
        (f u <=. f v) = true)
  /\ (forall u, i <= j / 2 -> aget a (lo - 1 + j / 2) = Some u -> (f u <=. f d) = true).

(** Writing [d] into the hole ends the sift when [d] is at most the
    children of the hole. *)
Lemma sift_done a0 lo n i d a j :
  0 <= lo -> 1 <= i -> lo + n <= alen a0 -> sift_inv a0 lo n i d a j ->
  (forall c v, c / 2 = j -> c <= n -> aget a (lo - 1 + c) = Some v -> (f d <=. f v) = true) ->
  frame lo (lo + n) a0 (aupd a (lo - 1 + j) d)
  /\ heap_from (aupd a (lo - 1 + j) d) lo n i.
Proof.
  intros Hlo Hi Hn (Hj & Hl & Hf & HE & HG & HP) Hch. split; [done|].
  intros c Hc Hcn u v. pose proof (half c).
  rewrite !aget_aupd by lia.
  destruct (decide (lo - 1 + j = lo - 1 + c / 2)), (decide (lo - 1 + j = lo - 1 + c));
    try lia.
  - intros [= <-] Hv. apply (Hch c); done || lia.
  - intros Hu [= <-]. assert (c = j) as -> by lia. by apply HP.
  - intros Hu Hv. apply (HE c); done || lia.
Qed.

(** Moving the smaller child [k] of the hole up keeps the invariant. *)
Lemma sift_move a0 lo n i d a j k (t : A) :
  0 <= lo -> 1 <= i -> lo + n <= alen a0 -> sift_inv a0 lo n i d a j ->
  k / 2 = j -> k <= n -> aget a (lo - 1 + k) = Some t -> (f t <=. f d) = true ->
  (forall k' v, k' / 2 = j -> k' <= n -> aget a (lo - 1 + k') = Some v ->
     (f t <=. f v) = true) ->
  sift_inv a0 lo n i d (aupd a (lo - 1 + j) t) k.
Proof.
  intros Hlo Hi Hn (Hj & Hl & Hf & HE & HG & HP) Hkj Hkn Hc Hcd Hmin.
  pose proof (half k).
  split_and!; [lia..|by rewrite alen_aupd| | | |].
  - eapply frame_trans; [exact Hf|].
    replace (aupd (aupd a (lo - 1 + j) t) (lo - 1 + k) d) with
      (aupd (aupd (aupd a (lo - 1 + j) d) (lo - 1 + j) t) (lo - 1 + k) d)
      by (f_equal; unfold aupd; by rewrite list_insert_insert_eq).
    apply frame_swap; [apply aget_aupd_eq; lia| |lia|lia].
    by rewrite aget_aupd_ne by lia.
  - intros e He Hen Hek Hek2 u v. pose proof (half e). rewrite !aget_aupd by lia.
    destruct (decide (lo - 1 + j = lo - 1 + e / 2)), (decide (lo - 1 + j = lo - 1 + e));
      try lia.
    + intros [= <-] Hv. apply (Hmin e); done || lia.
    + intros Hu [= <-]. assert (e = j) as -> by lia. apply (HG k); done || lia.
    + intros Hu Hv. apply (HE e); done || lia.
  - rewrite Hkj. intros e u v Hek Hen _. rewrite !aget_aupd by lia.
    pose proof (half e).
    destruct (decide _); [|lia]. destruct (decide _); [lia|].
    intros [= <-] Hv. apply (HE e); [lia|lia|lia|lia| |done]. by rewrite Hek.
  - rewrite Hkj. intros u _. rewrite aget_aupd_eq by lia. by intros [= <-].
Qed.

Lemma sift_wp a lo n i :
  0 <= lo -> 1 <= i <= n -> n < 2 ^ 30 -> lo + n <= alen a ->
  reg a lo (lo + n) (fun y => natural (f y)) -> heap_from a lo n (i + 1) ->
  wp (sift f a i n lo) (fun a' => frame lo (lo + n) a a' /\ heap_from a' lo n i).
Proof.
  intros Hlo Hi Hn32 Hn Hnat Hh. unfold sift. apply wp_bind, wp_rd; [lia|]. intros d Hd.
  assert (natural (f d)) as Hnd by (apply (Hnat (lo - 1 + i)); [lia|done]).
  apply wp_bind. eapply wp_mono.
  - apply (wp_loop (fun '(b, j) => sift_inv a lo n i d b j) (fun '(_, j) => n - j)
      (fun '(b, j) => sift_inv a lo n i d b j /\
         forall c v, c / 2 = j -> c <= n -> aget b (lo - 1 + c) = Some v ->
           (f d <=. f v) = true)).
    + split_and!; [lia..|done| | | |].
      * rewrite aupd_id by done. apply frame_refl.
      * intros c ????. apply Hh; lia.
      * intros c u v Hc. pose proof (half i). lia.
      * pose proof (half i). lia.
    + lia.
    + intros [b j] Hinv. pose proof Hinv as (Hj & Hl & Hf & _).
      rewrite js_shl_1 by lia.
      destruct (Z.leb_spec (2 * j) n) as [Hle|Hgt].
      2:{ simpl. split; [done|]. intros c v Hc. pose proof (half c). lia. }
      assert (forall c v, 2 * j <= c <= n -> aget b (lo - 1 + c) = Some v -> natural (f v)) as Hnb.
      { intros c v Hc Hv.
        assert (reg (aupd b (lo - 1 + j) d) lo (lo + n) (fun y => natural (f y))) as R
          by (eapply (frame_reg lo (lo + n) a); [lia|lia|done|done]).
        apply (R (lo - 1 + c)); [lia|]. by rewrite aget_aupd_ne by lia. }
      apply wp_bind.
      apply wp_mono with (P := fun k => (k = 2 * j \/ k = 2 * j + 1) /\ k <= n /\
        forall k' u v, k' / 2 = j -> k' <= n -> aget b (lo - 1 + k) = Some u ->
          aget b (lo - 1 + k') = Some v -> (f u <=. f v) = true).
      { destruct (Z.ltb_spec (2 * j) n) as [Hlt|Hge].
        - apply wp_bind, wp_rd; [lia|]. intros l Hgl.
          apply wp_bind, wp_rd; [lia|]. intros r Hgr.
          replace (lo - 1 + 2 * j + 1) with (lo - 1 + (2 * j + 1)) in Hgr by lia.
          destruct (f r <. f l) eqn:E; simpl; (split_and!; [lia..|]);
            intros k' u v Hk' Hk'n Hu Hv; pose proof (half k') as [E'|E'];
            rewrite E', Hk' in Hv; clear E' Hk'; simplify_eq.
          + by apply jlt_le.
          + by apply (Hnb (2 * j + 1)); [lia|].
          + by apply (Hnb (2 * j)); [lia|].
          + apply jlt_false; [by apply (Hnb (2 * j + 1)); [lia|]|by apply (Hnb (2 * j)); [lia|]|done].
        - simpl. split_and!; [lia..|]. intros k' u v Hk' Hk'n Hu Hv.
          pose proof (half k'). assert (k' = 2 * j) as -> by lia. clear Hk'. simplify_eq.
          by apply (Hnb (2 * j)); [lia|]. }
      intros k (Hk & Hkn & Hmin). apply wp_bind, wp_rd; [lia|]. intros c Hc.
      assert (k / 2 = j) as Hk2 by (pose proof (half k); lia).
      assert (natural (f c)) as Hnc by (by apply (Hnb k); [lia|]).
      destruct (f d <=. f c) eqn:E.
      * simpl. split; [done|]. intros c' v Hc' Hcn Hv.
        eapply jle_trans; [exact E|]. by apply (Hmin c').
      * apply wp_bind, wp_wr; [lia|]. simpl. split; [|lia].
        apply jle_false in E; [|done..]. apply sift_move; try done; [lia|by apply jlt_le|].
        intros k' v Hk' Hk'n Hv. by apply (Hmin k').
  - intros [b j] [Hinv Hch]. pose proof Hinv as (Hj & Hl & _). apply wp_wr; [lia|].
    apply sift_done; done || lia.
Qed.

(** ** Building the heap *)

Lemma heap_wp a lo hi :
  0 <= lo <= hi -> hi <= alen a -> hi - lo < 2 ^ 30 ->
  reg a lo hi (fun y => natural (f y)) ->
  wp (heap f a lo hi) (fun a' => frame lo hi a a' /\ is_heap a' lo hi).
Proof.
  intros H1 H2 H3 Hn. unfold heap. rewrite js_ushr_1 by lia.
  pose proof (half (hi - lo)).
  apply (wp_loop (fun '(b, i) => 1 <= i /\ i - 1 <= (hi - lo) / 2 /\ frame lo hi a b /\
           heap_from b lo (hi - lo) i) (fun '(_, i) => i)).
  - split_and!; [lia..|apply frame_refl|]. intros c Hc. pose proof (half c). lia.
  - lia.
  - intros [b i] (Hi & Hi2 & Hf & Hh). pose proof (frame_alen _ _ _ _ Hf).
    destruct (Z.ltb_spec 0 (i - 1)).
    + apply wp_bind. eapply wp_mono.
      * apply sift_wp; [lia..| |by replace (i - 1 + 1) with i by lia].
        replace (lo + (hi - lo)) with hi by lia. by eapply frame_reg.
      * intros b' [Hf' Hh']. simpl. replace (lo + (hi - lo)) with hi in Hf' by lia.
        split; [|lia]. split_and!; [lia..|by eapply frame_trans|done].
    + simpl. split; [done|]. unfold is_heap. by replace 1 with i by lia.
Qed.

(** The root of a heap is a least element. *)
Lemma heap_root a lo n u c v :
  0 <= lo -> lo + n <= alen a -> reg a lo (lo + n) (fun y => natural (f y)) ->
  heap_from a lo n 1 -> aget a lo = Some u -> 1 <= c <= n ->
  aget a (lo - 1 + c) = Some v -> (f u <=. f v) = true.
Proof.
  intros Hlo Hlen Hn Hh Hu. revert v. induction c as [c IH] using (well_founded_induction (Z.lt_wf 1)).
  intros v Hc Hv. destruct (decide (c = 1)) as [->|Hne].
  - replace (lo - 1 + 1) with lo in Hv by lia. simplify_eq. by apply (Hn lo); [lia|].
  - pose proof (half c). destruct (aget_is_Some a (lo - 1 + c / 2)) as [w Hw]; [lia|].
    eapply jle_trans; [by apply (IH (c / 2)); [lia|lia|]|].
    apply (Hh c); done || lia.
Qed.

(** ** Heap sort: descending order *)

Lemma heap_sort_wp a lo hi :
  0 <= lo <= hi -> hi <= alen a -> hi - lo < 2 ^ 30 ->
  reg a lo hi (fun y => natural (f y)) -> is_heap a lo hi ->
  wp (sort f a lo hi) (fun a' => frame lo hi a a' /\ sorted_desc a' lo hi).
Proof.
  intros H1 H2 H3 Hn Hh. unfold sort.
  apply (wp_loop (fun '(b, m) => 0 <= m <= hi - lo /\ (lo < hi -> 1 <= m) /\ frame lo hi a b
           /\ heap_from b lo m 1 /\ sorted_desc b (lo + m) hi
           /\ forall x y i j, lo <= i < lo + m -> lo + m <= j < hi -> aget b i = Some x ->
                aget b j = Some y -> (f y <=. f x) = true) (fun '(_, m) => m)).
  - split_and!; [lia..|apply frame_refl|exact Hh| |].
    + intros i j. lia.
    + lia.
  - lia.
  - intros [b m] (Hm & Hm1 & Hf & Hhb & Hs & Hc). pose proof (frame_alen _ _ _ _ Hf) as Hl.
    assert (reg b lo hi (fun y => natural (f y))) as Hnb by by eapply frame_reg.
    destruct (Z.ltb_spec 0 (m - 1)) as [Hm2|Hm2].
    + apply wp_bind, wp_rd; [lia|]. intros t Ht.
      apply wp_bind, wp_rd; [lia|]. intros u Hu.
      apply wp_bind, wp_wr; [lia|]. apply wp_bind, wp_wr; [rewrite alen_aupd; lia|].
      set (b' := aupd (aupd b lo u) (lo + (m - 1)) t).
      assert (frame lo (lo + m) b b') as Hfb by (apply frame_swap; done || lia).
      assert (forall i, lo < i < lo + (m - 1) -> aget b' i = aget b i) as Hsame.
      { intros i Hi. unfold b'. by rewrite !aget_aupd_ne by lia. }
      assert (aget b' (lo + (m - 1)) = Some t) as Hlast.
      { unfold b'. apply aget_aupd_eq. rewrite alen_aupd. lia. }
      assert (forall i, lo + m <= i -> aget b' i = aget b i) as Hout
        by (intros i Hi; apply (frame_out _ _ _ _ Hfb); lia).
      assert (reg b lo (lo + m) (fun y => (f t <=. f y) = true)) as Hmin.
      { intros i y Hi Hy. apply (heap_root b lo m t (i - lo + 1)); try done; try lia.
        - eapply reg_sub; [done|lia..].
        - by replace (lo - 1 + (i - lo + 1)) with i by lia. }
      assert (reg b' lo (lo + m) (fun y => (f t <=. f y) = true)) as Hmin'
        by (eapply (frame_reg lo (lo + m) b); [lia|lia|done|done]).
      pose proof (frame_alen _ _ _ _ Hfb) as Hlb.
      apply wp_bind. eapply wp_mono; [apply sift_wp|].
      * lia.
      * lia.
      * lia.
      * lia.
      * eapply reg_sub; [|reflexivity|].
        { eapply frame_reg_super; [..|exact Hnb]; try exact Hfb; lia. }
        lia.
      * intros c Hc1 Hcm. pose proof (half c). eapply edge_ext; [apply (Hhb c); lia|..];
          apply Hsame; lia.
      * intros b'' [Hf'' Hh'']. simpl. split; [|lia].
        assert (aget b'' (lo + (m - 1)) = Some t) as Hlast''.
        { rewrite (frame_out _ _ _ _ Hf'') by lia. done. }
        assert (forall i, lo + m <= i -> aget b'' i = aget b i) as Hout''.
        { intros i Hi. rewrite (frame_out _ _ _ _ Hf'') by lia. by apply Hout. }
        assert (reg b'' lo (lo + (m - 1)) (fun y => (f t <=. f y) = true)) as Hmin''.
        { eapply (frame_reg lo (lo + (m - 1)) b'); [lia|lia|exact Hf''|].
          eapply reg_sub; [exact Hmin'|lia..]. }
        split_and!; [lia..| |done| |].
        -- eapply frame_trans; [exact Hf|]. eapply frame_trans.
           ++ eapply frame_weaken; [exact Hfb|lia..].
           ++ eapply frame_weaken; [exact Hf''|lia..].
        -- intros i j x y Hi Hij Hj Hx Hy.
           destruct (decide (i = lo + (m - 1))) as [->|]; simplify_eq.
           ++ destruct (decide (j = lo + (m - 1))) as [->|]; simplify_eq.
              ** by apply (Hmin' (lo + (m - 1))); [lia|].
              ** rewrite Hout'' in Hy by lia. eapply Hc; [..|exact Ht|exact Hy]; lia.
           ++ rewrite Hout'' in Hx, Hy by lia. apply (Hs i j); done || lia.
        -- intros x y i j Hi Hj Hx Hy.
           destruct (decide (j = lo + (m - 1))) as [->|]; simplify_eq.
           ++ by apply (Hmin'' i).
           ++ rewrite Hout'' in Hy by lia.
              assert (reg b'' lo (lo + (m - 1)) (fun x => (f y <=. f x) = true)) as R.
              { eapply (frame_reg lo (lo + (m - 1)) b'); [lia|lia|exact Hf''|].
                eapply reg_sub; [|reflexivity|].
                - eapply (frame_reg lo (lo + m) b); [lia|lia|exact Hfb|].
                  intros i' x' Hi' Hx'. apply (Hc x' y i' j); done || lia.
                - lia. }
              by apply (R i).
    + simpl. split; [done|]. intros i j x y Hi Hij Hj Hx Hy.
      destruct (decide (i = lo)) as [->|]; [|apply (Hs i j); done || lia].
      destruct (decide (j = lo)) as [->|]; [|apply (Hc x y lo j); done || lia].
      simplify_eq. by apply (Hnb lo); [lia|].
Qed.
End heap_correct.

(** ** Properties *)

(** [heap(a, lo, hi)] returns a permutation of [a], changed inside the
    slice only, in which each [a[lo+i]] is less than or equal to its children
    [a[lo+2*i+1]] and [a[lo+2*i+2]]. *)
Theorem heap_builds {A X} `{JsOrdLaws X} (f : A -> X) a lo hi :
  0 <= lo <= hi -> hi <= alen a -> hi - lo < 2 ^ 30 ->
  (forall i x, lo <= i < hi -> aget a i = Some x -> natural (f x)) ->
  exists a', heap f a lo hi = Ret a' /\ a' ≡ₚ a
    /\ (forall i, i < lo \/ hi <= i -> aget a' i = aget a i)
    /\ (forall i c u v, 0 <= i -> c = 2 * i + 1 \/ c = 2 * i + 2 -> lo + c < hi ->
          aget a' (lo + i) = Some u -> aget a' (lo + c) = Some v -> (f u <=. f v) = true).
Proof.
  intros H1 H2 H3 Hn. destruct (wp_elim _ _ (heap_wp f a lo hi H1 H2 H3 Hn))
    as (a' & -> & [Hp Ho] & Hh). exists a'. split_and!; try done.
  intros i c u v Hi Hc Hb Hu Hv. apply (Hh (c + 1)).
  - divlia.
  - lia.
  - replace (lo - 1 + (c + 1) / 2) with (lo + i) by divlia. done.
  - by replace (lo - 1 + (c + 1)) with (lo + c) by lia.
Qed.

Lemma heap_builds_witness :
  exists a', heap (fun x : Z => x) [9; 4; 2; 7; 0] 0 5 = Ret a' /\ a' ≡ₚ [9; 4; 2; 7; 0]
    /\ (forall i, i < 0 \/ 5 <= i -> aget a' i = aget [9; 4; 2; 7; 0] i)
    /\ (forall i c u v, 0 <= i -> c = 2 * i + 1 \/ c = 2 * i + 2 -> 0 + c < 5 ->
          aget a' (0 + i) = Some u -> aget a' (0 + c) = Some v -> (u <=. v) = true).
Proof.
  apply (heap_builds (fun x : Z => x) [9; 4; 2; 7; 0] 0 5); [done..|].
  intros. apply Z_natural.
Defined.

(** [heap.sort] of a slice that is a heap, as [heap] leaves it, returns a
    permutation of [a] with the slice in descending order; so the composition
    of the two sorts any slice. *)
Theorem heap_sort_descends {A X} `{JsOrdLaws X} (f : A -> X) a lo hi :
  0 <= lo <= hi -> hi <= alen a -> hi - lo < 2 ^ 30 ->
  (forall i x, lo <= i < hi -> aget a i = Some x -> natural (f x)) ->
  exists b, (a' ← heap f a lo hi; sort f a' lo hi) = Ret b /\ b ≡ₚ a
    /\ (forall i, i < lo \/ hi <= i -> aget b i = aget a i)
    /\ (forall i j x y, lo <= i -> i <= j -> j < hi ->
          aget b i = Some x -> aget b j = Some y -> (f y <=. f x) = true).
Proof.
  intros H1 H2 H3 Hn. destruct (wp_elim _ _ (heap_wp f a lo hi H1 H2 H3 Hn))
    as (a' & -> & Hf & Hh). simpl.
  destruct (wp_elim _ _ (heap_sort_wp f a' lo hi H1 ltac:(rewrite (frame_alen _ _ _ _ Hf); done) H3
    ltac:(by eapply frame_reg) Hh)) as (b & -> & Hfb & Hs).
  destruct (frame_trans _ _ _ _ _ Hf Hfb) as [Hp Ho]. eauto.
Qed.

Lemma heap_sort_descends_witness :
  exists b, (a' ← heap (fun x : Z => x) [9; 4; 2; 7; 0] 0 5; sort (fun x : Z => x) a' 0 5) = Ret b
    /\ b ≡ₚ [9; 4; 2; 7; 0]
    /\ (forall i, i < 0 \/ 5 <= i -> aget b i = aget [9; 4; 2; 7; 0] i)
    /\ (forall i j x y, 0 <= i -> i <= j -> j < 5 ->
          aget b i = Some x -> aget b j = Some y -> (y <=. x) = true).
Proof.
  apply (heap_sort_descends (fun x : Z => x) [9; 4; 2; 7; 0] 0 5); [done..|].
  intros. apply Z_natural.
Defined.
