(* ===== verification/CfHeapselect.v ===== *)
(** * crossfilter: selection of the top k elements

    [src/app/assets/javascripts/crossfilter.js], lines 100-135. *)

From S2P Require Import Prelude.
From S2P Require Import Arrays.
From S2P Require Import CfHeap.

Section heapselect_by.
Context {A X : Type} `{JsOrd X} (f : A -> X).

(** The scan of the elements after the first [k] (the [do ... while] loop,
    entered with [lo < hi]). *)
Definition heapselect_scan (a queue : list A) (k lo hi : Z) : js (list A) :=
  q0 ← rd queue 0;
  loop (S (Z.to_nat (hi - lo))) (fun '(queue, min, lo) =>
    d ← rd a lo;
    '(queue, min) ← (if f d >. min then
                       queue ← wr queue 0 d;
                       queue ← heap f queue 0 k;
                       q0 ← rd queue 0;
                       Ret (queue, f q0)
                     else Ret (queue, min));
    let lo := lo + 1 in
    if lo <? hi then Ret (inl (queue, min, lo)) else Ret (inr queue))
    (queue, f q0, lo).

Definition heapselect (a : list A) (lo hi k : Z) : js (list A) :=
  let k := Z.min (hi - lo) k in
  if k <? 0 then Throw "RangeError: Invalid array length" else
  '(queue, lo) ← for_ 0 k (fun i '(queue, lo) =>
    x ← rd a lo;
    Ret (queue ++ [x], lo + 1)) ([], lo);
  queue ← heap f queue 0 k;
  if lo <? hi then heapselect_scan a queue k lo hi else Ret queue.
End heapselect_by.

Section heapselect_correct.
Context {A X : Type} `{JsOrdLaws X} (f : A -> X).
Implicit Types (a queue rest : list A) (lo hi k : Z).

(** [queue] holds greatest elements of [a[lo:hi]]: the rest of the slice
    is nowhere greater. *)
Definition selects a lo hi queue : Prop :=
  exists rest, queue ++ rest ≡ₚ slice a lo hi /\
    forall q r, q ∈ queue -> r ∈ rest -> (f r <=. f q) = true.

(** The first loop copies [a[lo:lo+k]]. *)
Lemma heapselect_copy a lo k :
  0 <= lo -> 0 <= k -> lo + k <= alen a ->
  wp (for_ 0 k (fun i '(queue, lo) => x ← rd a lo; Ret (queue ++ [x], lo + 1)) ([], lo))
     (fun '(queue, lo') => queue = slice a lo (lo + k) /\ lo' = lo + k).
Proof.
  intros Hlo Hk Hl. eapply wp_mono.
  - apply (wp_for (fun i '(queue, lo') => queue = slice a lo (lo + i) /\ lo' = lo + i)); [lia| |].
    + rewrite Z.add_0_r. by rewrite slice_nil.
    + intros i [q l] Hi [-> ->]. apply wp_bind, wp_rd; [lia|]. intros x Hx. simpl.
      split; [|lia]. rewrite Z.add_assoc. rewrite (slice_snoc _ _ _ x); done || lia.
  - done.
Qed.

(** Replacing the root [q0] of the queue by a greater element [d]. *)
Lemma selects_replace a lo hi queue d q0 :
  0 <= lo <= hi -> selects a lo hi queue -> aget queue 0 = Some q0 -> aget a hi = Some d ->
  (forall q, q ∈ queue -> (f q0 <=. f q) = true) -> (f q0 <. f d) = true ->
  selects a lo (hi + 1) (aupd queue 0 d).
Proof.
  intros Hlo (rest & Hp & Hr) Hq Hd Hmin Hlt. exists (q0 :: rest).
  pose proof (aupd_perm queue 0 d q0 Hq) as Hu. split.
  - rewrite (slice_snoc _ _ _ d) by done. rewrite <- Hp.
    rewrite <- Permutation_middle. change (q0 :: aupd queue 0 d ++ rest) with ((q0 :: aupd queue 0 d) ++ rest).
    rewrite Hu. solve_Permutation.
  - assert (forall q, q ∈ aupd queue 0 d -> q = d \/ q ∈ queue) as Hin.
    { intros q Hq'. assert (q ∈ q0 :: aupd queue 0 d) as Hq2 by by right.
      rewrite Hu in Hq2. by apply elem_of_cons in Hq2. }
    intros q r [->|Hq']%Hin [->|Hr']%elem_of_cons.
    + by apply jlt_le.
    + assert (q0 ∈ queue) as Hq0.
      { unfold aget in Hq. simpl in Hq. by eapply list_elem_of_lookup_2. }
      eapply jle_trans; [by apply (Hr q0 r)|by apply jlt_le].
    + by apply Hmin.
    + by apply Hr.
Qed.

Lemma selects_skip a lo hi queue d :
  0 <= lo <= hi -> selects a lo hi queue -> aget a hi = Some d ->
  (forall q, q ∈ queue -> (f d <=. f q) = true) -> selects a lo (hi + 1) queue.
Proof.
  intros Hlo (rest & Hp & Hr) Hd Hmin. exists (d :: rest). split.
  - rewrite (slice_snoc _ _ _ d) by done. rewrite <- Hp. solve_Permutation.
  - intros q r Hq [->|Hr']%elem_of_cons; [by apply Hmin|by apply Hr].
Qed.

Lemma selects_perm a lo hi queue queue' :
  queue' ≡ₚ queue -> selects a lo hi queue -> selects a lo hi queue'.
Proof.
  intros Hq (rest & Hp & Hr). exists rest. split; [by rewrite Hq|].
  intros q r. rewrite Hq. apply Hr.
Qed.

(** The elements of the queue come from the slice. *)
Lemma selects_natural a lo hi queue :
  0 <= lo <= hi -> hi <= alen a -> reg a lo hi (fun y => natural (f y)) ->
  selects a lo hi queue -> reg queue 0 (alen queue) (fun y => natural (f y)).
Proof.
  intros H1 H2 Hn (rest & Hp & _). apply reg_Forall, Forall_forall. intros x Hx.
  assert (x ∈ slice a lo hi) as Hin by (rewrite <- Hp; apply elem_of_app; by left).
  apply elem_of_slice in Hin as (i & Hi & Hg); [|done..]. by apply (Hn i).
Qed.

(** The root of the queue is its minimum. *)
Lemma queue_min queue q0 :
  reg queue 0 (alen queue) (fun y => natural (f y)) -> is_heap f queue 0 (alen queue) ->
  aget queue 0 = Some q0 -> forall q, q ∈ queue -> (f q0 <=. f q) = true.
Proof.
  intros Hn Hh Hq q [i Hi]%list_elem_of_lookup. pose proof (lookup_lt_Some _ _ _ Hi).
  apply (heap_root f queue 0 (alen queue) q0 (Z.of_nat i + 1)); try done.
  - unfold is_heap in Hh. by rewrite Z.sub_0_r in Hh.
  - unfold alen. lia.
  - unfold aget. replace (0 - 1 + (Z.of_nat i + 1)) with (Z.of_nat i) by lia.
    destruct (Z.leb_spec 0 (Z.of_nat i)); [|lia]. by rewrite Nat2Z.id.
Qed.

Lemma heapselect_scan_wp a queue lo0 lo hi :
  0 <= lo0 <= lo -> lo < hi -> hi <= alen a -> 1 <= alen queue < 2 ^ 30 ->
  reg a lo0 hi (fun y => natural (f y)) ->
  is_heap f queue 0 (alen queue) -> selects a lo0 lo queue ->
  wp (heapselect_scan f a queue (alen queue) lo hi) (fun queue' =>
    alen queue' = alen queue /\ is_heap f queue' 0 (alen queue') /\ selects a lo0 hi queue').
Proof.
  intros Hlo Hhi Hl Hk Hn Hh Hs. unfold heapselect_scan. set (k := alen queue) in *.
  apply wp_bind, wp_rd; [lia|]. intros q0 Hq0.
  apply (wp_loop (fun '(q, min, l) => lo <= l < hi /\ alen q = k /\ is_heap f q 0 k
           /\ selects a lo0 l q /\ exists q0, aget q 0 = Some q0 /\ min = f q0)
         (fun '(_, _, l) => hi - l)).
  - split_and!; [lia..|done|done|done|eauto].
  - lia.
  - intros [[q min] l] (Hl' & Hqk & Hhq & Hsq & p0 & Hp0 & ->).
    apply wp_bind, wp_rd; [lia|]. intros d Hd.
    assert (reg a lo0 l (fun y => natural (f y))) as Hnl by (eapply reg_sub; [done|lia..]).
    assert (reg q 0 (alen q) (fun y => natural (f y))) as Hnq
      by (eapply selects_natural; [| |exact Hnl|exact Hsq]; lia).
    assert (forall x, x ∈ q -> (f p0 <=. f x) = true) as Hmin
      by (apply queue_min; [done|by rewrite Hqk|done]).
    apply wp_bind. apply wp_mono with (P := fun '(q, min) => alen q = k /\ is_heap f q 0 k
      /\ selects a lo0 (l + 1) q /\ exists q0, aget q 0 = Some q0 /\ min = f q0).
    + destruct (f p0 <. f d) eqn:E.
      * apply wp_bind, wp_wr; [lia|]. apply wp_bind.
        assert (selects a lo0 (l + 1) (aupd q 0 d)) as Hs'
          by (eapply selects_replace; done || lia).
        assert (alen (aupd q 0 d) = k) as Hk' by by rewrite alen_aupd.
        eapply wp_mono; [apply heap_wp; [lia|lia|lia|]|].
        -- rewrite <- Hk'. apply (selects_natural a lo0 (l + 1)); [lia|lia| |done].
           eapply reg_sub; [exact Hn|lia..].
        -- intros q' [Hf' Hh']. pose proof (frame_alen _ _ _ _ Hf').
           apply wp_bind, wp_rd; [lia|]. intros q1 Hq1. simpl.
           split_and!; [lia|done| |eauto].
           eapply selects_perm; [exact (frame_perm _ _ _ _ Hf')|done].
      * simpl. split_and!; [done..| |eauto]. eapply selects_skip; try done; [lia|].
        intros x Hx. eapply jle_trans; [|by apply Hmin].
        apply jlt_false; [by apply (Hnq 0); [lia|]|by apply (Hn l); [lia|]|done].
    + intros [q' min'] (H1 & H2 & H3 & H4). destruct (Z.ltb_spec (l + 1) hi); simpl.
      * split; [|lia]. split_and!; [lia..|done|done|done|done].
      * assert (l + 1 = hi) as <- by lia. rewrite H1. done.
Qed.

Lemma heapselect_wp a lo hi k :
  0 <= lo <= hi -> hi <= alen a -> 1 <= k < 2 ^ 30 -> reg a lo hi (fun y => natural (f y)) ->
  wp (heapselect f a lo hi k) (fun queue => alen queue = Z.min (hi - lo) k
    /\ is_heap f queue 0 (alen queue) /\ selects a lo hi queue).
Proof.
  intros H1 H2 Hk Hn. unfold heapselect. set (k' := Z.min (hi - lo) k).
  destruct (Z.ltb_spec k' 0); [lia|]. apply wp_bind.
  eapply wp_mono; [apply heapselect_copy; lia|]. intros [q l] [-> ->].
  pose proof (alen_slice a lo (lo + k') ltac:(lia) ltac:(lia)) as Hq.
  assert (selects a lo (lo + k') (slice a lo (lo + k'))) as Hs.
  { exists []. rewrite app_nil_r. split; [done|]. by intros ?? _ ?%not_elem_of_nil. }
  apply wp_bind. eapply wp_mono; [apply heap_wp|].
  - lia.
  - lia.
  - lia.
  - apply (reg_sub _ 0 (alen (slice a lo (lo + k')))); [|lia|lia].
    eapply selects_natural; [..|exact Hs]; [lia|lia|]. eapply reg_sub; [done|lia..].
  - intros q [Hf Hh]. pose proof (frame_alen _ _ _ _ Hf).
    assert (selects a lo (lo + k') q) as Hs' by (eapply selects_perm; [apply Hf|done]).
    destruct (Z.ltb_spec (lo + k') hi).
    + assert (alen q = k') as Eq by lia. rewrite <- Eq at 1. rewrite <- Eq in Hh at 1.
      eapply wp_mono; [apply (heapselect_scan_wp a q lo); try done; lia|].
      intros q' (? & ? & ?). split_and!; [lia|done|done].
    + simpl. assert (lo + k' = hi) as E by lia. rewrite E in Hs'.
      split_and!; [lia| |done]. by replace (alen q) with k' by lia.
Qed.
End heapselect_correct.

(** ** Properties *)

(** [heapselect(a, lo, hi, k)] with [k > 0] returns [min(hi - lo, k)]
    elements of the slice, none of which is less than an element left out;
    the result has the heap property. *)
Theorem heapselect_top {A X} `{JsOrdLaws X} (f : A -> X) a lo hi k :
  0 <= lo <= hi -> hi <= alen a -> 1 <= k < 2 ^ 30 ->
  (forall i x, lo <= i < hi -> aget a i = Some x -> natural (f x)) ->
  exists queue rest, heapselect f a lo hi k = Ret queue
    /\ alen queue = Z.min (hi - lo) k /\ queue ++ rest ≡ₚ slice a lo hi
    /\ (forall q r, q ∈ queue -> r ∈ rest -> (f r <=. f q) = true)
    /\ is_heap f queue 0 (alen queue).
Proof.
  intros H1 H2 Hk Hn. destruct (wp_elim _ _ (heapselect_wp f a lo hi k H1 H2 Hk Hn))
    as (queue & -> & Hl & Hh & rest & Hp & Hr). eauto 10.
Qed.

Lemma heapselect_top_witness :
  exists queue rest, heapselect (fun x : Z => x) [9; 4; 2; 7; 0] 0 5 3 = Ret queue
    /\ alen queue = Z.min (5 - 0) 3 /\ queue ++ rest ≡ₚ slice [9; 4; 2; 7; 0] 0 5
    /\ (forall q r, q ∈ queue -> r ∈ rest -> (r <=. q) = true)
    /\ is_heap (fun x : Z => x) queue 0 (alen queue).
Proof.
  apply (heapselect_top (fun x : Z => x) [9; 4; 2; 7; 0] 0 5 3); [done..|].
  intros. apply Z_natural.
Defined.
