(* ===== verification/CfQuicksort.v ===== *)
(** * crossfilter: dual-pivot quicksort

    [src/app/assets/javascripts/crossfilter.js], lines 155-438: Yaroslavskiy's
    algorithm.  The three partitioning loops of the source differ only in
    the tests that send an element to the left or to the right part and in
    the search for an element to exchange, so they are instances of one
    [partition]. *)

From S2P Require Import Prelude.
From S2P Require Import Arrays.
From S2P Require Import CfInsertionsort.

Definition quicksort_sizeThreshold : Z := 32.

Section quicksort_by.
Context {A X : Type} `{JsOrd X} (f : A -> X).

(** [if (x1 > x2) t = e1, e1 = e2, e2 = t, t = x1, x1 = x2, x2 = t];
    each [xi] is [f(ei)] throughout. *)
Definition exchange_gt (e e' : A) : A * A := if f e >. f e' then (e', e) else (e, e').

Definition sort5 (e1 e2 e3 e4 e5 : A) : A * A * A * A * A :=
  let '(e1, e2) := exchange_gt e1 e2 in
  let '(e4, e5) := exchange_gt e4 e5 in
  let '(e1, e3) := exchange_gt e1 e3 in
  let '(e2, e3) := exchange_gt e2 e3 in
  let '(e1, e4) := exchange_gt e1 e4 in
  let '(e3, e4) := exchange_gt e3 e4 in
  let '(e2, e5) := exchange_gt e2 e5 in
  let '(e2, e3) := exchange_gt e2 e3 in
  let '(e4, e5) := exchange_gt e4 e5 in
  (e1, e2, e3, e4, e5).

(** [v <= p && v >= p]. *)
Definition same (p v : X) : bool := (v <=. p) && (v >=. p).

(** The element [ek] at [k] goes to [great]; the element that was there
    goes to [less] (triple exchange) or to [k]. *)
Definition exchange (isT : X -> bool) (a : list A) (k less great : Z) (ek : A)
    (greatValue : X) : js (list A * Z * Z) :=
  if isT greatValue then
    l ← rd a less;
    a ← wr a k l;
    g ← rd a great;
    a ← wr a less g;
    a ← wr a great ek;
    Ret (a, less + 1, great - 1)
  else
    g ← rd a great;
    a ← wr a k g;
    a ← wr a great ek;
    Ret (a, less, great - 1).

(** The search of the degenerate case: it has no bound of its own. *)
Definition seek_equal (p : X) (a : list A) (k less great : Z) (ek : A) : js (list A * Z * Z) :=
  loop (S (Z.to_nat (great - k + 2))) (fun great =>
    g ← rd a great;
    let greatValue := f g in
    if greatValue >. p then Ret (inl (great - 1))
    else
      r ← exchange (fun v => v <. p) a k less great ek greatValue;
      Ret (inr r)) great.

(** The search of the other two loops, which stops below [k]. *)
Definition seek_great (isR isT : X -> bool) (a : list A) (k less great : Z) (ek : A)
    : js (list A * Z * Z) :=
  loop (S (Z.to_nat (great - k + 1))) (fun great =>
    g ← rd a great;
    let greatValue := f g in
    if isR greatValue then
      let great := great - 1 in
      if great <? k then Ret (inr (a, less, great)) else Ret (inl great)
    else
      r ← exchange isT a k less great ek greatValue;
      Ret (inr r)) great.

Definition partition (isL isR : X -> bool)
    (seek : list A -> Z -> Z -> Z -> A -> js (list A * Z * Z))
    (a : list A) (less great : Z) : js (list A * Z * Z) :=
  loop (S (Z.to_nat (great - less + 1))) (fun '(a, k, less, great) =>
    if k <=? great then
      ek ← rd a k;
      let xk := f ek in
      if isL xk then
        a ← (if k =? less then Ret a
             else
               l ← rd a less;
               a ← wr a k l;
               wr a less ek);
        Ret (inl (a, k + 1, less + 1, great))
      else if isR xk then
        '(a, less, great) ← seek a k less great ek;
        Ret (inl (a, k + 1, less, great))
      else Ret (inl (a, k + 1, less, great))
    else Ret (inr (a, less, great))) (a, less, less, great).

(** Dutch national flag, when the pivots are equal. *)
Definition partition_equal (p : X) : list A -> Z -> Z -> js (list A * Z * Z) :=
  partition (fun v => v <. p) (fun v => v >. p) (seek_equal p).

Definition partition_pivots (p1 p2 : X) : list A -> Z -> Z -> js (list A * Z * Z) :=
  partition (fun v => v <. p1) (fun v => v >. p2)
    (seek_great (fun v => v >. p2) (fun v => v <. p1)).

(** The elements equal to a pivot are moved out of the centre. *)
Definition partition_center (p1 p2 : X) : list A -> Z -> Z -> js (list A * Z * Z) :=
  partition (same p1) (same p2) (seek_great (same p2) (fun v => v <. p1)).

(** [while (f(a[i]) == p) i += step]. *)
Definition skip_same (p : X) (step : Z) (fuel : nat) (a : list A) (i : Z) : js Z :=
  loop fuel (fun i =>
    d ← rd a i;
    if same p (f d) then Ret (inl (i + step)) else Ret (inr i)) i.

(** Five elements are sorted; the second and the fourth become the
    pivots and leave two holes, filled from the ends of the slice. *)
Definition choose_pivots (a : list A) (lo hi i1 i2 i3 i4 i5 : Z) : js (list A * A * A) :=
  e1 ← rd a i1; e2 ← rd a i2; e3 ← rd a i3; e4 ← rd a i4; e5 ← rd a i5;
  let '(e1, e2, e3, e4, e5) := sort5 e1 e2 e3 e4 e5 in
  let pivot1 := e2 in
  let pivot2 := e4 in
  a ← wr a i1 e1;
  t ← rd a lo; a ← wr a i2 t;
  a ← wr a i3 e3;
  t ← rd a (hi - 1); a ← wr a i4 t;
  a ← wr a i5 e5;
  Ret (a, pivot1, pivot2).

(** The pivots go to their final positions. *)
Definition place_pivots (a : list A) (lo hi less great : Z) (pivot1 pivot2 : A) : js (list A) :=
  t ← rd a (less - 1); a ← wr a lo t; a ← wr a (less - 1) pivot1;
  t ← rd a (great + 1); a ← wr a (hi - 1) t; wr a (great + 1) pivot2.

(** A large centre is cleared of elements equal to the pivots. *)
Definition clear_center (pivotValue1 pivotValue2 : X) (a : list A) (less great i1 i5 : Z)
    : js (list A * Z * Z) :=
  if (less <? i1) && (great >? i5) then
    less' ← skip_same pivotValue1 1 (S (S (Z.to_nat (great - less + 1)))) a less;
    great' ← skip_same pivotValue2 (-1) (S (S (Z.to_nat (great - less' + 1)))) a great;
    partition_center pivotValue1 pivotValue2 a less' great'
  else Ret (a, less, great).

Definition quicksort (sort : list A -> Z -> Z -> js (list A)) (a : list A) (lo hi : Z)
    : js (list A) :=
  let sixth := to_int32 (Z.quot (hi - lo) 6) in
  let i1 := lo + sixth in
  let i5 := hi - 1 - sixth in
  let i3 := js_sshr (lo + hi - 1) 1 in
  let i2 := i3 - sixth in
  let i4 := i3 + sixth in
  '(a, pivot1, pivot2) ← choose_pivots a lo hi i1 i2 i3 i4 i5;
  let pivotValue1 := f pivot1 in
  let pivotValue2 := f pivot2 in
  let less := lo + 1 in
  let great := hi - 2 in
  let pivotsEqual := (pivotValue1 <=. pivotValue2) && (pivotValue1 >=. pivotValue2) in
  '(a, less, great) ← (if pivotsEqual then partition_equal pivotValue1 a less great
                       else partition_pivots pivotValue1 pivotValue2 a less great);
  a ← place_pivots a lo hi less great pivot1 pivot2;
  a ← sort a lo (less - 1);
  a ← sort a (great + 2) hi;
  if pivotsEqual then Ret a
  else
    '(a, less, great) ← clear_center pivotValue1 pivotValue2 a less great i1 i5;
    sort a less (great + 1).

(** The recursion, with fuel for its depth. *)
Fixpoint sort_fuel (fuel : nat) (a : list A) (lo hi : Z) : js (list A) :=
  match fuel with
  | O => Stuck
  | S k =>
      if hi - lo <? quicksort_sizeThreshold then insertionsort f a lo hi
      else quicksort (sort_fuel k) a lo hi
  end.

Definition sort (a : list A) (lo hi : Z) : js (list A) :=
  sort_fuel (S (Z.to_nat (hi - lo))) a lo hi.
End quicksort_by.
