(* ===== verification/CfQuicksortCorrect.v ===== *)
(** * crossfilter: correctness of the dual-pivot quicksort

    The sort of [CfQuicksort] returns, permutes the slice it is given, leaves
    the rest of the array alone and puts the slice in ascending order. *)

From S2P Require Import Prelude.
From S2P Require Import Arrays.
From S2P Require Import CfInsertionsort.
From S2P Require Import CfQuicksort.

(** ** Ranks

    Finitely many comparable values are ordered like integers, which brings
    the sorting network within reach of [lia]. *)
Section rank.
Context {X : Type} `{JsOrdLaws X}.

Definition rank (l : list X) (x : X) : Z :=
  Z.of_nat (length (List.filter (fun u => u <=. x) l)).

Lemma rank_mono l x y : (x <=. y) = true -> rank l x <= rank l y.
Proof.
  intros Hxy. unfold rank. induction l as [|u l IH]; simpl; [lia|].
  destruct (u <=. x) eqn:E1, (u <=. y) eqn:E2; simpl; try lia.
  by rewrite (jle_trans u x y) in E2.
Qed.

Lemma rank_strict l x y : y ∈ l -> (x <. y) = true -> rank l x < rank l y.
Proof.
  intros Hy [Hle Hnle]%jlt_true. unfold rank.
  induction l as [|u l IH]; [by apply not_elem_of_nil in Hy|]. simpl.
  apply elem_of_cons in Hy as [->|Hy].
  - rewrite Hnle. destruct (jle_natural x u Hle) as [_ Hn]. unfold natural in Hn.
    rewrite Hn. simpl. pose proof (rank_mono l x u Hle). unfold rank in *. lia.
  - specialize (IH Hy). destruct (u <=. x) eqn:E1, (u <=. y) eqn:E2; simpl; try lia.
    by rewrite (jle_trans u x y) in E2.
Qed.

Lemma rank_le l x y :
  x ∈ l -> y ∈ l -> natural x -> natural y -> (x <=. y) = (rank l x <=? rank l y).
Proof.
  intros Hx Hy Nx Ny. destruct (x <=. y) eqn:E; symmetry.
  - apply Z.leb_le. by apply rank_mono.
  - apply Z.leb_gt. apply rank_strict; [done|]. by apply jle_false.
Qed.
End rank.

Section network.
Context {A X : Type} `{JsOrdLaws X} (f : A -> X).

Lemma exchange_gt_cases (r : X -> Z) e e' :
  (f e >. f e') = (r (f e') <? r (f e)) ->
  (exchange_gt f e e' = (e', e) /\ r (f e') < r (f e))
  \/ (exchange_gt f e e' = (e, e') /\ r (f e) <= r (f e')).
Proof. unfold exchange_gt. intros ->. destruct (Z.ltb_spec (r (f e')) (r (f e))); auto. Qed.

(** The network of nine exchanges sorts five elements. *)
Lemma sort5_spec e1 e2 e3 e4 e5 :
  natural (f e1) -> natural (f e2) -> natural (f e3) -> natural (f e4) -> natural (f e5) ->
  exists d1 d2 d3 d4 d5, sort5 f e1 e2 e3 e4 e5 = (d1, d2, d3, d4, d5)
    /\ [d1; d2; d3; d4; d5] ≡ₚ [e1; e2; e3; e4; e5]
    /\ (f d1 <=. f d2) = true /\ (f d2 <=. f d3) = true
    /\ (f d3 <=. f d4) = true /\ (f d4 <=. f d5) = true.
Proof.
  intros N1 N2 N3 N4 N5. set (l := [f e1; f e2; f e3; f e4; f e5]).
  assert (forall u v, u ∈ l -> v ∈ l -> (u <=. v) = (rank l u <=? rank l v)) as Hle.
  { intros u v Hu Hv. apply rank_le; [done..| |]; unfold l in *;
      repeat (apply elem_of_cons in Hu as [->|Hu]; [done|]);
      repeat (apply elem_of_cons in Hv as [->|Hv]; [done|]); by apply not_elem_of_nil in Hu || by apply not_elem_of_nil in Hv. }
  assert (forall u v, u ∈ l -> v ∈ l -> (u <. v) = (rank l u <? rank l v)) as Hlt.
  { intros u v Hu Hv. rewrite jlt_spec, !Hle by done. lia. }
  assert (f e1 ∈ l /\ f e2 ∈ l /\ f e3 ∈ l /\ f e4 ∈ l /\ f e5 ∈ l) as (I1 & I2 & I3 & I4 & I5)
    by (unfold l; rewrite !elem_of_cons; tauto).
  clearbody l. set (r := rank l) in *. clearbody r.
  unfold sort5.
  repeat match goal with
    | |- context [exchange_gt f ?a ?b] =>
        destruct (exchange_gt_cases r a b (Hlt (f b) (f a) ltac:(assumption) ltac:(assumption)))
          as [[-> ?]|[-> ?]]; try (exfalso; lia)
    end;
  (do 5 eexists; split; [reflexivity|]; split; [solve_Permutation|];
   rewrite !Hle by assumption; lia).
Qed.
End network.

(** ** Partitioning *)

Section partition.
Context {A X : Type} `{JsOrdLaws X} (f : A -> X).
Implicit Types (a : list A) (k less great : Z).

(** The rotation [a[k] = a[less]; a[less] = a[great]; a[great] = ek]. *)
Lemma frame_rotate lo hi a k less great x y z :
  aget a k = Some x -> aget a less = Some y -> aget a great = Some z ->
  k <> great -> less <> great -> lo <= k < hi -> lo <= less < hi -> lo <= great < hi ->
  frame lo hi a (aupd (aupd (aupd a k y) less z) great x).
Proof.
  intros Hx Hy Hz Hkg Hlg Hk Hl Hg.
  pose proof (aget_Some _ _ _ Hx). pose proof (aget_Some _ _ _ Hy).
  eapply frame_trans; [by apply (frame_swap lo hi a k less x y)|].
  replace (aupd (aupd a k y) less z) with (aupd (aupd (aupd a k y) less x) less z)
    by (unfold aupd; by rewrite list_insert_insert_eq).
  apply frame_swap; [| |lia|lia].
  - apply aget_aupd_eq. rewrite alen_aupd. lia.
  - by rewrite !aget_aupd_ne by lia.
Qed.

(** State of a partitioning loop over [a[l0 : g0+1]]: the left part
    [a[l0:less]], the middle part up to [k] and the right part after
    [great]. [sn] asks for the sentinel the degenerate case relies on. *)
Record part_inv (a0 : list A) (l0 g0 : Z) (PL PM PR : A -> Prop) (sn : Prop) a k less great : Prop := {
  pi_frame : frame l0 (g0 + 1) a0 a;
  pi_less : l0 <= less <= Z.min k (great + 1);
  pi_great : great <= g0;
  pi_left : reg a l0 less PL;
  pi_mid : reg a less (Z.min k (great + 1)) PM;
  pi_right : reg a (great + 1) (g0 + 1) PR;
  pi_sentinel : sn -> k <= great ->
    less < k \/ exists p x, k <= p <= great /\ aget a p = Some x /\ PM x
}.

Context (a0 : list A) (l0 g0 : Z) (PL PM PR : A -> Prop) (sn : Prop).
Context (Hl0 : 0 <= l0) (Hg0 : g0 + 1 <= alen a0).
#[local] Abbreviation inv := (part_inv a0 l0 g0 PL PM PR sn).

Lemma part_inv_alen a k less great : inv a k less great -> alen a = alen a0.
Proof. intros []. by eapply frame_alen. Qed.

(** An element of the left part: exchanged with the first of the middle. *)
Lemma part_step_left a k less great ek :
  inv a k less great -> k <= great -> aget a k = Some ek -> PL ek -> (sn -> ~ PM ek) ->
  wp (if k =? less then Ret a
      else l ← rd a less; a ← wr a k l; wr a less ek)
     (fun a' => inv a' (k + 1) (less + 1) great).
Proof.
  intros HI Hk Hek HL HM. pose proof (part_inv_alen _ _ _ _ HI) as Hlen.
  destruct HI as [Hf Hl Hg Rl Rm Rr Hs].
  destruct (Z.eqb_spec k less) as [->|Hne].
  - simpl. split; [done|lia|lia| | |done|].
    + by eapply reg_snoc.
    + apply reg_empty. lia.
    + intros Hsn Hk'. destruct (Hs Hsn Hk) as [|(p & x & Hp & Hx & Hpm)]; [lia|]. right.
      exists p, x. split_and!; try done; [|lia]. destruct (decide (p = less)); [|lia].
      assert (x = ek) as -> by congruence. by destruct (HM Hsn).
  - apply wp_bind, wp_rd; [lia|]. intros l Hgl. apply wp_bind, wp_wr; [lia|].
    apply wp_wr; [rewrite alen_aupd; lia|].
    assert (PM l) as Hpl by (by apply (Rm less); [lia|]).
    split; [|lia|lia| | | |].
    + eapply frame_trans; [done|]. apply frame_swap; done || lia.
    + apply (reg_snoc _ _ _ ek); [|apply aget_aupd_eq; rewrite alen_aupd; lia|done].
      apply reg_aupd; [rewrite alen_aupd; lia| |lia]. apply reg_aupd; [lia|done|lia].
    + apply reg_aupd; [rewrite alen_aupd; lia| |lia].
      intros i x Hi. rewrite aget_aupd by lia. case_decide; [by intros [= <-]|].
      apply Rm. lia.
    + apply reg_aupd; [rewrite alen_aupd; lia| |lia]. apply reg_aupd; [lia|done|lia].
    + intros _ _. left. lia.
Qed.

Lemma part_step_mid a k less great ek :
  inv a k less great -> k <= great -> aget a k = Some ek -> PM ek -> inv a (k + 1) less great.
Proof.
  intros [Hf Hl Hg Rl Rm Rr Hs] Hk Hek HM. split; [done|lia|lia|done| |done|].
  - replace (Z.min (k + 1) (great + 1)) with (k + 1) by lia. eapply reg_snoc; [|done|done].
    eapply reg_sub; [done|lia..].
  - intros _ _. left. lia.
Qed.

(** The search went below [k] without an element to exchange. *)
Lemma part_step_break a k less great ek :
  inv a k less great -> k <= great -> aget a k = Some ek -> PR ek ->
  reg a k (great + 1) PR -> inv a (k + 1) less (k - 1).
Proof.
  intros [Hf Hl Hg Rl Rm Rr Hs] Hk Hek HR Hrest. split; [done|lia|lia|done| | |].
  - eapply reg_sub; [done|lia..].
  - replace (k - 1 + 1) with k by lia. by eapply reg_app.
  - lia.
Qed.

(** The tests of the loop, on the elements [D] of the slice. *)
Context (D : A -> Prop) (HD : reg a0 l0 (g0 + 1) D) (isL isR isT : X -> bool).
Context (cL : forall x, D x -> isL (f x) = true -> PL x /\ (sn -> ~ PM x)).
Context (cR : forall x, D x -> isR (f x) = true -> PR x /\ (sn -> ~ PM x)).
Context (cM : forall x, D x -> isL (f x) = false -> isR (f x) = false -> PM x).
Context (cTL : forall x, D x -> isT (f x) = true -> PL x /\ ~ PM x).
Context (cTM : forall x, D x -> isR (f x) = false -> isT (f x) = false -> PM x).

Lemma part_inv_dom a k less great i x :
  inv a k less great -> aget a i = Some x -> l0 <= i <= g0 -> D x.
Proof.
  intros [Hf _ _ _ _ _ _] Hx Hi. apply (frame_reg l0 (g0 + 1) a0 a D) with (k := i); done || lia.
Qed.

(** An element of the right part: exchanged with the element at [g], the
    first from the right that does not belong there. *)
Lemma part_step_exchange a k less great ek g x :
  inv a k less great -> k <= great -> aget a k = Some ek -> isR (f ek) = true ->
  k - 1 <= g <= great -> reg a (g + 1) (great + 1) (fun y => isR (f y) = true) ->
  aget a g = Some x -> isR (f x) = false -> (g = k - 1 -> less < k /\ PR x) ->
  wp (exchange isT a k less g ek (f x)) (fun '(a', less', great') =>
    inv a' (k + 1) less' great' /\ great' < great).
Proof.
  intros HI Hk Hek HRk Hg Hrest Hx HxR Hlow.
  pose proof (part_inv_alen _ _ _ _ HI) as Hlen.
  assert (forall i y, less <= i <= great -> aget a i = Some y -> D y) as Hdom.
  { intros i y Hi Hy. destruct HI. by apply (part_inv_dom a k less great i); [|done|lia]. }
  assert (l0 <= less /\ less <= g) as [Hlg0 Hlg]
    by (destruct HI; destruct (decide (g = k - 1)) as [e|]; [destruct (Hlow e)|]; lia).
  assert (g <> k) as Hgk by (intros ->; congruence).
  assert (D x) as HDx by (by apply (Hdom g); [lia|]).
  destruct (cR ek) as [HR HnM]; [by apply (Hdom k); [destruct HI; lia|]|done|].
  assert (reg a (g + 1) (great + 1) (fun y => PR y /\ (sn -> ~ PM y))) as Hrest'.
  { intros i y Hi Hy. apply cR; [by apply (Hdom i); [lia|]|by apply (Hrest i)]. }
  destruct HI as [Hf Hl Hgg Rl Rm Rr Hs]. unfold exchange.
  assert (reg a (g + 1) (g0 + 1) PR) as Rg.
  { apply (reg_app _ _ (great + 1)); [|done]. eapply reg_mono; [done|]. by intros y []. }
  destruct (isT (f x)) eqn:E.
  - destruct (cTL x HDx E) as [HxL HxM].
    assert (k < g).
    { destruct (decide (g = k - 1)) as [->|]; [|lia]. destruct (Hlow eq_refl).
      destruct HxM. by apply (Rm (k - 1)); [lia|]. }
    apply wp_bind, wp_rd; [lia|]. intros l Hgl.
    apply wp_bind, wp_wr; [lia|].
    apply wp_bind. apply (wp_rd_Some _ _ x); [by rewrite aget_aupd_ne by lia|].
    apply wp_bind, wp_wr; [rewrite alen_aupd; lia|].
    apply wp_bind, wp_wr; [rewrite !alen_aupd; lia|].
    assert (forall i, aget (aupd (aupd (aupd a k l) less x) g ek) i = if decide (g = i) then Some ek
      else if decide (less = i) then Some x else if decide (k = i) then Some l else aget a i) as Ha'.
    { intros i. by rewrite !aget_aupd by (rewrite ?alen_aupd; lia). }
    split; [split|lia].
    + eapply frame_trans; [exact Hf|]. apply frame_rotate; done || lia.
    + lia.
    + lia.
    + intros i y Hi. rewrite Ha'. repeat case_decide; try lia.
      * intros [= <-]. done.
      * apply Rl. lia.
    + intros i y Hi. rewrite Ha'. repeat case_decide; try lia.
      * intros [= <-]. apply (Rm less); [lia|done].
      * apply Rm. lia.
    + intros i y Hi. rewrite Ha'. repeat case_decide; try lia.
      * by intros [= <-].
      * apply Rg. lia.
    + intros Hsn Hk'. destruct (Hs Hsn Hk) as [|(p & z & Hp & Hz & Hpm)]; [left; lia|].
      destruct (decide (less < k)); [left; lia|]. right. exists p, z.
      assert (p <> k) by (intros ->; destruct (HnM Hsn); congruence).
      assert (p <> g) by (intros ->; congruence).
      assert (p <= g) by (apply Znot_gt_le; intros ?; by apply (Hrest' p z); [lia|..]).
      split_and!; [lia..| |done]. rewrite Ha'. by repeat case_decide; try lia.
  - pose proof (cTM x HDx HxR E) as HnT.
    apply wp_bind. apply (wp_rd_Some _ _ x); [done|].
    apply wp_bind, wp_wr; [lia|]. apply wp_bind, wp_wr; [rewrite alen_aupd; lia|].
    assert (forall i, aget (aupd (aupd a k x) g ek) i = if decide (g = i) then Some ek
      else if decide (k = i) then Some x else aget a i) as Ha'.
    { intros i. by rewrite !aget_aupd by (rewrite ?alen_aupd; lia). }
    split; [split|lia].
    + eapply frame_trans; [exact Hf|]. apply frame_swap; done || lia.
    + lia.
    + lia.
    + intros i y Hi. rewrite Ha'. repeat case_decide; try lia. apply Rl. lia.
    + intros i y Hi. rewrite Ha'. repeat case_decide; try lia.
      * by intros [= <-].
      * apply Rm. lia.
    + intros i y Hi. rewrite Ha'. repeat case_decide; try lia.
      * by intros [= <-].
      * intros [= <-]. apply Hlow. lia.
      * apply Rg. lia.
    + intros _ ?. left. lia.
Qed.

(** What both searches guarantee to the loop that calls them. *)
Definition seek_spec (seek : list A -> Z -> Z -> Z -> A -> js (list A * Z * Z)) : Prop :=
  forall a k less great ek, inv a k less great -> k <= great -> aget a k = Some ek ->
    isR (f ek) = true ->
    wp (seek a k less great ek) (fun '(a', less', great') =>
      inv a' (k + 1) less' great' /\ great' < great).

Lemma seek_great_spec : seek_spec (seek_great f isR isT).
Proof.
  intros a k less great ek HI Hk Hek HRk. unfold seek_great.
  pose proof (part_inv_alen _ _ _ _ HI) as Hlen.
  assert (l0 <= less <= k /\ great <= g0) as [? ?] by (destruct HI; lia).
  apply (wp_loop (fun g => k <= g <= great /\
           reg a (g + 1) (great + 1) (fun y => isR (f y) = true)) (fun g => g - k)).
  - split; [lia|]. apply reg_empty. lia.
  - lia.
  - intros g [Hg Hrest]. apply wp_bind, wp_rd; [lia|]. intros x Hx.
    destruct (isR (f x)) eqn:E.
    + assert (reg a g (great + 1) (fun y => isR (f y) = true)) as Hrest'
        by by eapply reg_cons.
      destruct (Z.ltb_spec (g - 1) k) as [Hlt|Hge]; simpl.
      * assert (g = k) as -> by lia. split; [|lia].
        apply (part_step_break a k less great ek); try done.
        -- apply cR; [|done]. by apply (part_inv_dom a k less great k); [|done|lia].
        -- intros i y Hi Hy. apply cR; [|by apply (Hrest' i)].
           by apply (part_inv_dom a k less great i); [|done|lia].
      * split; [|lia]. split; [lia|]. by replace (g - 1 + 1) with g by lia.
    + apply wp_bind. eapply wp_mono; [apply part_step_exchange; done || lia|].
      by intros [[a' less'] great'] HI'.
Qed.

(** Without a bound, the search stops at the sentinel. *)
Lemma seek_equal_spec p :
  sn -> (forall v, isR v = (p <. v)) -> (forall v, isT v = (v <. p)) ->
  (forall x, PM x -> isR (f x) = false) -> (forall x, PM x -> PR x) ->
  seek_spec (seek_equal f p).
Proof.
  intros Hsn HR HT HMR HMP a k less great ek HI Hk Hek HRk. unfold seek_equal.
  pose proof (part_inv_alen _ _ _ _ HI) as Hlen.
  assert (l0 <= less <= k /\ great <= g0) as [? ?] by (destruct HI; lia).
  assert (exists s z, k - 1 <= s <= great /\ (s = k - 1 -> less < k) /\ aget a s = Some z /\ PM z)
    as (s & z & Hs & Hsk & Hz & Hpz).
  { destruct HI as [_ ? ? _ Rm _ Hsent]. destruct (Hsent Hsn Hk) as [Hlt|(s & z & Hs & Hz & Hpz)].
    - destruct (aget_is_Some a (k - 1)) as [z Hz]; [lia|]. exists (k - 1), z.
      split_and!; [lia..|done|]. by apply (Rm (k - 1)); [lia|].
    - exists s, z. split_and!; done || lia. }
  apply (wp_loop (fun g => s <= g <= great /\
           reg a (g + 1) (great + 1) (fun y => isR (f y) = true)) (fun g => g - s)).
  - split; [lia|]. apply reg_empty. lia.
  - lia.
  - intros g [Hg Hrest]. apply wp_bind, wp_rd; [lia|]. intros x Hx.
    rewrite <- HR. destruct (isR (f x)) eqn:E.
    + assert (s < g).
      { destruct (decide (s = g)) as [->|]; [|lia]. assert (x = z) as -> by congruence.
        by rewrite (HMR z Hpz) in E. }
      simpl. split; [|lia]. split; [lia|]. replace (g - 1 + 1) with g by lia.
      by eapply reg_cons.
    + apply wp_bind.
      assert (exchange (fun v => v <. p) a k less g ek (f x)
              = exchange isT a k less g ek (f x)) as ->
        by (unfold exchange; by rewrite HT).
      eapply wp_mono; [apply (part_step_exchange a k less great); try done; [lia|]|].
      * intros ->. assert (s = k - 1) as -> by lia. split; [auto|].
        assert (x = z) as -> by congruence. auto.
      * by intros [[a' less'] great'] HI'.
Qed.

Lemma partition_wp seek :
  seek_spec seek -> l0 <= g0 + 1 ->
  (sn -> l0 <= g0 -> exists p x, l0 <= p <= g0 /\ aget a0 p = Some x /\ PM x) ->
  wp (partition f isL isR seek a0 l0 g0) (fun '(a, less, great) =>
    frame l0 (g0 + 1) a0 a /\ l0 <= less <= great + 1 /\ great <= g0
    /\ reg a l0 less PL /\ reg a less (great + 1) PM /\ reg a (great + 1) (g0 + 1) PR).
Proof.
  intros Hseek Hle Hsent. unfold partition.
  apply (wp_loop (fun '(a, k, less, great) => inv a k less great)
           (fun '(_, k, _, great) => Z.max 0 (great - k + 1))).
  - split; [apply frame_refl|lia|lia|apply reg_empty; lia..|].
    intros Hsn Hk. right. by apply Hsent.
  - lia.
  - intros [[[a k] less] great] HI. pose proof (part_inv_alen _ _ _ _ HI) as Hlen.
    assert (l0 <= less <= Z.min k (great + 1) /\ great <= g0) as [? ?] by (destruct HI; lia).
    destruct (Z.leb_spec k great) as [Hk|Hk].
    + apply wp_bind, wp_rd; [lia|]. intros ek Hek.
      assert (D ek) as HDk by (by apply (part_inv_dom a k less great k); [|done|lia]).
      destruct (isL (f ek)) eqn:EL; [|destruct (isR (f ek)) eqn:ER].
      * apply wp_bind. eapply wp_mono; [apply part_step_left; try done; by apply cL|].
        intros a' HI'. simpl. split; [done|lia].
      * apply wp_bind. eapply wp_mono; [by apply Hseek|].
        intros [[a' less'] great'] [HI' Hlt]. simpl. split; [done|lia].
      * simpl. split; [|lia]. apply (part_step_mid a k less great ek); try done. by apply cM.
    + simpl. destruct HI as [Hf Hl Hg Rl Rm Rr _].
      replace (Z.min k (great + 1)) with (great + 1) in * by lia. done.
Qed.
End partition.

(** ** The three partitioning loops *)

Section partitions.
Context {A X : Type} `{JsOrdLaws X} (f : A -> X).
Implicit Types (a : list A) (less great : Z).

Lemma same_spec p v : same p v = true <-> (v <=. p) = true /\ (p <=. v) = true.
Proof. unfold same. by rewrite andb_true_iff. Qed.

(** Equal pivots: smaller, equal, and not smaller elements. *)
Lemma partition_equal_wp p a less great :
  0 <= less <= great + 1 -> great + 1 <= alen a -> natural p ->
  reg a less (great + 1) (fun x => natural (f x)) ->
  (exists i x, less <= i <= great /\ aget a i = Some x /\ same p (f x) = true) ->
  wp (partition_equal f p a less great) (fun '(a', less', great') =>
    frame less (great + 1) a a' /\ less <= less' <= great' + 1 /\ great' <= great
    /\ reg a' less less' (fun x => (f x <. p) = true)
    /\ reg a' less' (great' + 1) (fun x => same p (f x) = true)
    /\ reg a' (great' + 1) (great + 1) (fun x => (p <=. f x) = true)).
Proof.
  intros Hle Hlen Hp Hn Hsent. unfold partition_equal.
  assert (forall x, (f x <. p) = true -> same p (f x) = false) as HL.
  { intros x [H1 H2]%jlt_true. unfold same. by rewrite H1, H2. }
  assert (forall x, (p <. f x) = true -> same p (f x) = false) as HG.
  { intros x [H1 H2]%jlt_true. unfold same. by rewrite H2. }
  assert (forall x, natural (f x) -> (f x <. p) = false -> (p <. f x) = false ->
            same p (f x) = true) as HM.
  { intros x Hx H1 H2. apply same_spec. by split; apply jlt_false. }
  eapply wp_mono; [apply (partition_wp f a less great (fun x => (f x <. p) = true)
    (fun x => same p (f x) = true) (fun x => (p <=. f x) = true) True)
    with (D := fun x => natural (f x)); [lia|done|done|..]|].
  - intros x Hx E. split; [done|]. intros _. by rewrite HL.
  - intros x Hx ??. by apply HM.
  - apply (seek_equal_spec f a less great _ _ _ True) with (D := fun x => natural (f x))
      (isR := fun v => p <. v) (isT := fun v => v <. p); try done; try lia.
    + intros x Hx E. split; [by apply jlt_le|]. intros _. by rewrite HG.
    + intros x Hx E. split; [done|]. by rewrite HL.
    + intros x Hx ??. by apply HM.
    + intros x Hx. destruct (p <. f x) eqn:E; [|done]. by rewrite HG in Hx.
    + intros x Hx. by apply same_spec in Hx as [_ ?].
  - lia.
  - done.
  - done.
Qed.

(** Different pivots: below the first, between the two, above the second. *)
Lemma partition_pivots_wp p1 p2 a less great :
  0 <= less <= great + 1 -> great + 1 <= alen a -> natural p1 -> natural p2 ->
  reg a less (great + 1) (fun x => natural (f x)) ->
  wp (partition_pivots f p1 p2 a less great) (fun '(a', less', great') =>
    frame less (great + 1) a a' /\ less <= less' <= great' + 1 /\ great' <= great
    /\ reg a' less less' (fun x => (f x <. p1) = true)
    /\ reg a' less' (great' + 1) (fun x => (p1 <=. f x) = true /\ (f x <=. p2) = true)
    /\ reg a' (great' + 1) (great + 1) (fun x => (p2 <. f x) = true)).
Proof.
  intros Hle Hlen Hp1 Hp2 Hn. unfold partition_pivots.
  assert (forall x, natural (f x) -> (f x <. p1) = false -> (p2 <. f x) = false ->
            (p1 <=. f x) = true /\ (f x <=. p2) = true) as HM.
  { intros x Hx H1 H2. by split; apply jlt_false. }
  assert (forall x, (f x <. p1) = true ->
            ~ ((p1 <=. f x) = true /\ (f x <=. p2) = true)) as HL.
  { intros x [_ H2]%jlt_true [H3 _]. congruence. }
  eapply wp_mono; [apply (partition_wp f a less great (fun x => (f x <. p1) = true)
    (fun x => (p1 <=. f x) = true /\ (f x <=. p2) = true) (fun x => (p2 <. f x) = true) False)
    with (D := fun x => natural (f x)); [lia|done|done|..]|]; try done; try lia; try by intros x Hx E.
  apply (seek_great_spec f a less great _ _ _ False) with (D := fun x => natural (f x));
      try done; try lia; try by intros x Hx E.
    + intros x Hx E. split; [done|by apply HL].
    + intros x Hx ??. by apply HM.
Qed.

(** The centre: what is equal to a pivot goes to the ends. *)
Lemma partition_center_wp p1 p2 a less great :
  0 <= less <= great + 1 -> great + 1 <= alen a -> natural p1 ->
  reg a less (great + 1) (fun x => (p1 <=. f x) = true) ->
  wp (partition_center f p1 p2 a less great) (fun '(a', less', great') =>
    frame less (great + 1) a a' /\ less <= less' <= great' + 1 /\ great' <= great
    /\ reg a' less less' (fun x => same p1 (f x) = true)
    /\ reg a' (great' + 1) (great + 1) (fun x => same p2 (f x) = true)).
Proof.
  intros Hle Hlen Hp1 Hn. unfold partition_center.
  assert (forall x, (p1 <=. f x) = true -> (f x <. p1) = false) as HT.
  { intros x Hx. destruct (f x <. p1) eqn:E; [|done]. apply jlt_true in E as [_ ?]. congruence. }
  eapply wp_mono; [apply (partition_wp f a less great (fun x => same p1 (f x) = true)
    (fun x => True) (fun x => same p2 (f x) = true) False)
    with (D := fun x => (p1 <=. f x) = true); [lia|done|done|..]|]; try done; try lia; try by intros x Hx E.
  - apply (seek_great_spec f a less great _ _ _ False) with (D := fun x => (p1 <=. f x) = true);
      try done; try lia; try by intros x Hx E.
    intros x Hx E. by rewrite HT in E.
  - intros [[a' less'] great'] (? & ? & ? & ? & _ & ?). done.
Qed.
End partitions.

(** ** The pivots *)

Section pivots.
Context {A X : Type} `{JsOrdLaws X} (f : A -> X).
Implicit Types (a b : list A) (lo hi less great : Z).

(** Where the five elements are, for a slice of at least 32. *)
Lemma pivot_indices lo hi :
  0 <= lo -> hi <= 2 ^ 30 -> quicksort_sizeThreshold <= hi - lo ->
  let sixth := to_int32 (Z.quot (hi - lo) 6) in
  let i3 := js_sshr (lo + hi - 1) 1 in
  lo < lo + sixth < i3 - sixth /\ i3 - sixth < i3 < i3 + sixth
  /\ i3 + sixth < hi - 1 - sixth < hi - 1.
Proof.
  unfold quicksort_sizeThreshold. intros Hlo Hhi Hn.
  rewrite Z.quot_div_nonneg by lia.
  rewrite to_int32_small by divlia.
  rewrite js_sshr_1 by lia. divlia.
Qed.

(** The array with the pivots lifted out: together with the pivots it
    holds the elements of [a] and a second copy of the two ends. *)
Record lifted a b lo hi (pivot1 pivot2 : A) : Prop := {
  lf_alen : alen b = alen a;
  lf_ends : exists x y, aget b lo = Some x /\ aget b (hi - 1) = Some y
    /\ pivot1 :: pivot2 :: b ≡ₚ x :: y :: a;
  lf_out : forall i, i < lo \/ hi <= i -> aget b i = aget a i
}.

Lemma choose_pivots_wp a lo hi i1 i2 i3 i4 i5 :
  0 <= lo -> hi <= alen a -> lo < i1 < i2 -> i2 < i3 < i4 -> i4 < i5 < hi - 1 ->
  reg a lo hi (fun x => natural (f x)) ->
  wp (choose_pivots f a lo hi i1 i2 i3 i4 i5) (fun '(b, pivot1, pivot2) =>
    lifted a b lo hi pivot1 pivot2 /\ (f pivot1 <=. f pivot2) = true
    /\ reg b lo hi (fun x => natural (f x))
    /\ exists e3, aget b i3 = Some e3 /\ (f pivot1 <=. f e3) = true
                  /\ (f e3 <=. f pivot2) = true).
Proof.
  intros Hlo Hhi H12 H34 H5 Hn. unfold choose_pivots.
  apply wp_bind, wp_rd; [lia|]. intros e1 G1. apply wp_bind, wp_rd; [lia|]. intros e2 G2.
  apply wp_bind, wp_rd; [lia|]. intros e3 G3. apply wp_bind, wp_rd; [lia|]. intros e4 G4.
  apply wp_bind, wp_rd; [lia|]. intros e5 G5.
  destruct (sort5_spec f e1 e2 e3 e4 e5) as (d1 & d2 & d3 & d4 & d5 & -> & Hp & L1 & L2 & L3 & L4);
    [eapply Hn; [|done]; lia..|].
  apply wp_bind, wp_wr; [lia|]. set (b1 := aupd a i1 d1).
  assert (alen b1 = alen a) as N1 by apply alen_aupd.
  apply wp_bind, wp_rd; [lia|]. intros x Hx. apply wp_bind, wp_wr; [lia|].
  set (b2 := aupd b1 i2 x). assert (alen b2 = alen a) as N2 by (unfold b2; by rewrite alen_aupd).
  apply wp_bind, wp_wr; [lia|].
  set (b3 := aupd b2 i3 d3). assert (alen b3 = alen a) as N3 by (unfold b3; by rewrite alen_aupd).
  apply wp_bind, wp_rd; [lia|]. intros y Hy. apply wp_bind, wp_wr; [lia|].
  set (b4 := aupd b3 i4 y). assert (alen b4 = alen a) as N4 by (unfold b4; by rewrite alen_aupd).
  apply wp_bind, wp_wr; [lia|].
  set (b5 := aupd b4 i5 d5). assert (alen b5 = alen a) as N5 by (unfold b5; by rewrite alen_aupd).
  pose proof (aupd_perm a i1 d1 e1 G1) as P1. fold b1 in P1.
  pose proof (aupd_perm b1 i2 x e2 ltac:(unfold b1; by rewrite aget_aupd_ne by lia)) as P2.
  fold b2 in P2.
  pose proof (aupd_perm b2 i3 d3 e3 ltac:(unfold b2, b1; by rewrite !aget_aupd_ne by lia)) as P3.
  fold b3 in P3.
  pose proof (aupd_perm b3 i4 y e4 ltac:(unfold b3, b2, b1; by rewrite !aget_aupd_ne by lia)) as P4.
  fold b4 in P4.
  pose proof (aupd_perm b4 i5 d5 e5 ltac:(unfold b4, b3, b2, b1; by rewrite !aget_aupd_ne by lia)) as P5.
  fold b5 in P5.
  assert (forall i, i <> i1 -> i <> i2 -> i <> i3 -> i <> i4 -> i <> i5 -> aget b5 i = aget a i) as Hout.
  { intros i ?????. unfold b5, b4, b3, b2, b1. by rewrite !aget_aupd_ne by lia. }
  assert (d2 :: d4 :: b5 ≡ₚ x :: y :: a) as Hperm.
  { apply (Permutation_app_inv_l [d1; d3; d5]).
    transitivity ([d1; d2; d3; d4; d5] ++ b5); [solve_Permutation|]. rewrite Hp. simpl.
    transitivity (e1 :: e2 :: e3 :: e4 :: (e5 :: b5)); [done|]. rewrite P5.
    transitivity (d5 :: e1 :: e2 :: e3 :: (e4 :: b4)); [solve_Permutation|]. rewrite P4.
    transitivity (d5 :: y :: e1 :: e2 :: (e3 :: b3)); [solve_Permutation|]. rewrite P3.
    transitivity (d5 :: y :: d3 :: e1 :: (e2 :: b2)); [solve_Permutation|]. rewrite P2.
    transitivity (d5 :: y :: d3 :: x :: (e1 :: b1)); [solve_Permutation|]. rewrite P1.
    solve_Permutation. }
  simpl. split_and!.
  - split; [done| |].
    + exists x, y. split_and!; [| |done].
      * rewrite Hout by lia. unfold b1 in Hx. by rewrite aget_aupd_ne in Hx by lia.
      * rewrite Hout by lia. unfold b3, b2, b1 in Hy. by rewrite !aget_aupd_ne in Hy by lia.
    + intros i Hi. apply Hout; lia.
  - eapply jle_trans; done.
  - pose proof (jle_natural _ _ L1) as [? _]. pose proof (jle_natural _ _ L3) as [? _].
    pose proof (jle_natural _ _ L4) as [_ ?].
    assert (natural (f x)) by (unfold b1 in Hx; rewrite aget_aupd_ne in Hx by lia;
      apply (Hn lo); [lia|done]).
    assert (natural (f y)) by (unfold b3, b2, b1 in Hy; rewrite !aget_aupd_ne in Hy by lia;
      apply (Hn (hi - 1)); [lia|done]).
    repeat (apply reg_aupd; [lia| |done]). done.
  - exists d3. split_and!; [|done|done]. unfold b5, b4. rewrite !aget_aupd_ne by lia.
    unfold b3. apply aget_aupd_eq. lia.
Qed.

(** Putting the pivots back gives a permutation of the slice, split at
    the final positions of the pivots. *)
Lemma place_pivots_wp a b c lo hi less great pivot1 pivot2 (PL PM PR : A -> Prop) :
  0 <= lo -> hi <= alen a -> lifted a b lo hi pivot1 pivot2 ->
  frame (lo + 1) (hi - 1) b c -> lo + 1 <= less <= great + 1 -> great <= hi - 2 ->
  reg c (lo + 1) less PL -> reg c less (great + 1) PM -> reg c (great + 1) (hi - 1) PR ->
  wp (place_pivots c lo hi less great pivot1 pivot2) (fun d =>
    frame lo hi a d /\ aget d (less - 1) = Some pivot1 /\ aget d (great + 1) = Some pivot2
    /\ reg d lo (less - 1) PL /\ reg d less (great + 1) PM /\ reg d (great + 2) hi PR).
Proof.
  intros Hlo Hhi [Nb (x & y & Hx & Hy & Pab) Hout] Hf Hless Hgreat RL RM RR.
  pose proof (frame_alen _ _ _ _ Hf) as Nc.
  assert (aget c lo = Some x) as Cx by (by rewrite (frame_out _ _ _ _ Hf) by lia).
  assert (aget c (hi - 1) = Some y) as Cy by (by rewrite (frame_out _ _ _ _ Hf) by lia).
  unfold place_pivots. apply wp_bind, wp_rd; [lia|]. intros u Hu.
  apply wp_bind, wp_wr; [lia|]. set (c1 := aupd c lo u).
  assert (alen c1 = alen a) as N1 by (unfold c1; rewrite alen_aupd; lia).
  apply wp_bind, wp_wr; [lia|]. set (c2 := aupd c1 (less - 1) pivot1).
  assert (alen c2 = alen a) as N2 by (unfold c2; by rewrite alen_aupd).
  assert (aget c1 (less - 1) = Some u) as Cu.
  { unfold c1. rewrite aget_aupd by lia. by case_decide. }
  assert (forall i, i <> lo -> i <> less - 1 -> aget c2 i = aget c i) as O2.
  { intros i ??. unfold c2, c1. by rewrite !aget_aupd_ne by lia. }
  apply wp_bind, wp_rd; [lia|]. intros v Hv.
  assert (aget c (great + 1) = Some v) as Cv by (by rewrite <- O2 by lia).
  apply wp_bind, wp_wr; [lia|]. set (c3 := aupd c2 (hi - 1) v).
  assert (alen c3 = alen a) as N3 by (unfold c3; by rewrite alen_aupd).
  apply wp_wr; [lia|]. set (d := aupd c3 (great + 1) pivot2).
  assert (aget c3 (great + 1) = Some v) as Cv3.
  { unfold c3. rewrite aget_aupd by lia. by case_decide. }
  pose proof (aupd_perm c lo u x Cx) as P1. fold c1 in P1.
  pose proof (aupd_perm c1 (less - 1) pivot1 u Cu) as P2. fold c2 in P2.
  pose proof (aupd_perm c2 (hi - 1) v y ltac:(by rewrite O2 by lia)) as P3. fold c3 in P3.
  pose proof (aupd_perm c3 (great + 1) pivot2 v Cv3) as P4. fold d in P4.
  assert (forall i, i <> lo -> i <> less - 1 -> i <> hi - 1 -> i <> great + 1 ->
            aget d i = aget c i) as O4.
  { intros i ????. unfold d, c3. rewrite !aget_aupd_ne by lia. by apply O2. }
  assert (d ≡ₚ a) as Pd.
  { apply (Permutation_app_inv_l [v; y; u; x]). simpl.
    transitivity (y :: u :: x :: (v :: d)); [solve_Permutation|]. rewrite P4.
    transitivity (pivot2 :: u :: x :: (y :: c3)); [solve_Permutation|]. rewrite P3.
    transitivity (pivot2 :: v :: x :: (u :: c2)); [solve_Permutation|]. rewrite P2.
    transitivity (pivot2 :: v :: pivot1 :: (x :: c1)); [solve_Permutation|]. rewrite P1.
    rewrite (frame_perm _ _ _ _ Hf).
    transitivity (v :: u :: (pivot1 :: pivot2 :: b)); [solve_Permutation|]. rewrite Pab.
    solve_Permutation. }
  split_and!.
  - split; [done|]. intros i Hi. rewrite O4 by lia. rewrite (frame_out _ _ _ _ Hf) by lia.
    apply Hout. lia.
  - unfold d. rewrite aget_aupd_ne by lia. unfold c3. rewrite aget_aupd_ne by lia.
    unfold c2. apply aget_aupd_eq. lia.
  - apply aget_aupd_eq. lia.
  - intros i z Hi Hz. destruct (decide (i = lo)) as [->|].
    + assert (aget d lo = Some u) as Hdu.
      { unfold d, c3, c2. rewrite !aget_aupd_ne by lia. unfold c1. apply aget_aupd_eq. lia. }
      assert (z = u) as -> by congruence. by apply (RL (less - 1)); [lia|].
    + rewrite O4 in Hz by lia. by apply (RL i); [lia|].
  - intros i z Hi Hz. rewrite O4 in Hz by lia. by apply (RM i).
  - intros i z Hi Hz. destruct (decide (i = hi - 1)) as [->|].
    + assert (aget d (hi - 1) = Some v) as Hdv.
      { unfold d. rewrite aget_aupd_ne by lia. unfold c3. apply aget_aupd_eq. lia. }
      assert (z = v) as -> by congruence. by apply (RR (great + 1)); [lia|].
    + rewrite O4 in Hz by lia. by apply (RR i); [lia|].
Qed.
End pivots.

(** ** The recursion *)

Section quicksort.
Context {A X : Type} `{JsOrdLaws X} (f : A -> X).
Implicit Types (a b : list A) (lo hi less great : Z).

Lemma sorted_same p a lo hi :
  reg a lo hi (fun x => same p (f x) = true) -> sorted f a lo hi.
Proof.
  intros Hs i j x y ??? Hx Hy.
  assert (same p (f x) = true) as [Hx1 _]%same_spec by (apply (Hs i); [lia|done]).
  assert (same p (f y) = true) as [_ Hy2]%same_spec by (apply (Hs j); [lia|done]).
  by eapply jle_trans.
Qed.

(** The scans over elements equal to a pivot stop at the other one. *)
Lemma skip_up_wp p a less great q fuel :
  0 <= less <= great + 1 -> aget a (great + 1) = Some q -> same p (f q) = false ->
  great - less + 1 < Z.of_nat fuel ->
  wp (skip_same f p 1 fuel a less) (fun less' =>
    less <= less' <= great + 1 /\ reg a less less' (fun x => same p (f x) = true)).
Proof.
  intros Hl Hq Hs Hfuel. pose proof (aget_Some _ _ _ Hq).
  apply (wp_loop (fun l => less <= l <= great + 1 /\
           reg a less l (fun x => same p (f x) = true)) (fun l => great + 1 - l)).
  - split; [lia|]. apply reg_empty. lia.
  - lia.
  - intros l [Hl' R]. apply wp_bind, wp_rd; [lia|]. intros x Hx.
    destruct (same p (f x)) eqn:E; simpl; [|done].
    assert (l <> great + 1) by (intros ->; congruence).
    split; [|lia]. split; [lia|]. by eapply reg_snoc.
Qed.

Lemma skip_down_wp p a less great q fuel :
  0 <= less - 1 -> less <= great + 1 -> great < alen a ->
  aget a (less - 1) = Some q -> same p (f q) = false ->
  great - less + 1 < Z.of_nat fuel ->
  wp (skip_same f p (-1) fuel a great) (fun great' =>
    less - 1 <= great' <= great /\ reg a (great' + 1) (great + 1) (fun x => same p (f x) = true)).
Proof.
  intros H0' Hl Hlen Hq Hs Hfuel.
  apply (wp_loop (fun g => less - 1 <= g <= great /\
           reg a (g + 1) (great + 1) (fun x => same p (f x) = true)) (fun g => g - less + 1)).
  - split; [lia|]. apply reg_empty. lia.
  - lia.
  - intros g [Hg R]. apply wp_bind, wp_rd; [lia|]. intros x Hx.
    destruct (same p (f x)) eqn:E; simpl; [|done].
    assert (g <> less - 1) by (intros ->; congruence).
    split; [|lia]. split; [lia|]. replace (g + -1 + 1) with g by lia. by eapply reg_cons.
Qed.

(** The centre, cleared or not: a frame of itself with elements equal to
    the pivots at its ends. *)
Lemma clear_center_wp a less great i1 i5 pivot1 pivot2 :
  0 <= less - 1 -> less <= great + 1 ->
  aget a (less - 1) = Some pivot1 -> aget a (great + 1) = Some pivot2 ->
  (f pivot1 <. f pivot2) = true ->
  reg a less (great + 1) (fun x => (f pivot1 <=. f x) = true /\ (f x <=. f pivot2) = true) ->
  wp (clear_center f (f pivot1) (f pivot2) a less great i1 i5) (fun '(b, less', great') =>
    frame less (great + 1) a b /\ less <= less' <= great' + 1 /\ great' <= great
    /\ reg b less less' (fun x => same (f pivot1) (f x) = true)
    /\ reg b (great' + 1) (great + 1) (fun x => same (f pivot2) (f x) = true)).
Proof.
  intros H0' Hl G1 G2 Hlt R. pose proof (aget_Some _ _ _ G2).
  destruct (proj1 (jlt_true _ _) Hlt) as [Hle Hnle].
  destruct (jle_natural _ _ Hle) as [N1 N2].
  unfold clear_center. destruct ((less <? i1) && (great >? i5)).
  2:{ simpl. split_and!; [apply frame_refl|lia..| |]; apply reg_empty; lia. }
  apply wp_bind. eapply wp_mono; [apply (skip_up_wp _ _ _ great pivot2); try done; try lia|].
  { unfold same. by rewrite Hnle. }
  intros l [Hl' Rl].
  assert (exists q, aget a (l - 1) = Some q /\ same (f pivot1) (f q) = true) as (q & Gq & Sq).
  { destruct (decide (l = less)) as [->|].
    - exists pivot1. split; [done|]. apply same_spec. done.
    - destruct (aget_is_Some a (l - 1)) as [q Hq]; [lia|]. exists q. split; [done|].
      apply (Rl (l - 1)); [lia|done]. }
  apply wp_bind. eapply wp_mono; [apply (skip_down_wp _ _ l great q); try done; try lia|].
  { unfold same. destruct (f pivot2 <=. f q) eqn:E; [|by rewrite andb_false_r].
    apply same_spec in Sq as [Sq _]. by rewrite (jle_trans _ _ _ E Sq) in Hnle. }
  intros g [Hg Rg]. eapply wp_mono; [apply partition_center_wp; [lia|lia|done|]|].
  { intros i x Hi Hx. by apply (R i); [lia|]. }
  intros [[b l'] g'] (Hf & Hl'' & Hg' & R1 & R2). split_and!; [|lia..| |].
  - eapply frame_weaken; [done|lia..].
  - apply (reg_app _ _ l); [|done]. eapply frame_reg_disjoint; [done|lia|done].
  - apply (reg_app _ _ (g + 1)); [done|]. eapply frame_reg_disjoint; [done|lia|done].
Qed.

(** What a call of [sort] promises; the recursion is over the fuel. *)
Definition sorts (sort : list A -> Z -> Z -> js (list A)) (size : Z) : Prop :=
  forall a lo hi, 0 <= lo <= hi -> hi <= alen a -> hi <= 2 ^ 30 -> hi - lo < size ->
    reg a lo hi (fun x => natural (f x)) ->
    wp (sort a lo hi) (fun a' => frame lo hi a a' /\ sorted f a' lo hi).

(** A slice split at the two pivots, each part sorted, is sorted. *)
Lemma sorted_pivots a lo hi less great pivot1 pivot2 :
  lo <= less - 1 -> less <= great + 1 -> great + 2 <= hi ->
  aget a (less - 1) = Some pivot1 -> aget a (great + 1) = Some pivot2 ->
  (f pivot1 <=. f pivot2) = true ->
  sorted f a lo (less - 1) -> reg a lo (less - 1) (fun x => (f x <=. f pivot1) = true) ->
  sorted f a less (great + 1) ->
  reg a less (great + 1) (fun x => (f pivot1 <=. f x) = true /\ (f x <=. f pivot2) = true) ->
  sorted f a (great + 2) hi -> reg a (great + 2) hi (fun x => (f pivot2 <=. f x) = true) ->
  sorted f a lo hi.
Proof.
  intros Hlo Hl Hg G1 G2 Hle S1 R1 S2 R2 S3 R3.
  destruct (jle_natural _ _ Hle) as [N1 N2].
  assert (reg a (less - 1) less (fun x => same (f pivot1) (f x) = true)) as M1.
  { apply (reg_cons _ _ _ pivot1); [apply reg_empty; lia|done|by apply same_spec]. }
  assert (reg a (great + 1) (great + 2) (fun x => same (f pivot2) (f x) = true)) as M2.
  { apply (reg_cons _ _ _ pivot2); [apply reg_empty; lia|done|by apply same_spec]. }
  assert (reg a (less - 1) (great + 2) (fun x =>
            (f pivot1 <=. f x) = true /\ (f x <=. f pivot2) = true)) as Rmid.
  { apply (reg_app _ _ less); [|apply (reg_app _ _ (great + 1)); [done|]].
    - eapply reg_mono; [done|]. intros x [? ?]%same_spec. split; [done|by apply (jle_trans _ (f pivot1))].
    - eapply reg_mono; [done|]. intros x [? ?]%same_spec. split; [by apply (jle_trans _ (f pivot2))|done]. }
  assert (sorted f a (less - 1) (great + 2)) as Smid.
  { apply (sorted_join f a _ less _ (f pivot1)).
    - by apply (sorted_same (f pivot1)).
    - apply (sorted_join f a _ (great + 1) _ (f pivot2)); [done|by apply (sorted_same (f pivot2))| |].
      + eapply reg_mono; [done|]. by intros x [].
      + eapply reg_mono; [done|]. by intros x [_ ?]%same_spec.
    - eapply reg_mono; [done|]. by intros x [? _]%same_spec.
    - eapply reg_mono; [eapply reg_sub; [exact Rmid|lia..]|]. by intros x []. }
  apply (sorted_join f a _ (less - 1) _ (f pivot1)); [done| |done|].
  - apply (sorted_join f a _ (great + 2) _ (f pivot2)); [done|done| |done].
    eapply reg_mono; [done|]. by intros x [].
  - apply (reg_app _ _ (great + 2)).
    + eapply reg_mono; [done|]. by intros x [].
    + eapply reg_mono; [done|]. intros x Hx. by apply (jle_trans _ (f pivot2)).
Qed.

(** Either partitioning loop splits the slice at the pivot values. *)
Lemma partition_either_wp a less great p1 p2 :
  0 <= less <= great + 1 -> great + 1 <= alen a -> (p1 <=. p2) = true ->
  reg a less (great + 1) (fun x => natural (f x)) ->
  (exists i x, less <= i <= great /\ aget a i = Some x
     /\ (p1 <=. f x) = true /\ (f x <=. p2) = true) ->
  wp (if (p1 <=. p2) && (p1 >=. p2) then partition_equal f p1 a less great
      else partition_pivots f p1 p2 a less great) (fun '(a', less', great') =>
    frame less (great + 1) a a' /\ less <= less' <= great' + 1 /\ great' <= great
    /\ reg a' less less' (fun x => (f x <=. p1) = true)
    /\ reg a' less' (great' + 1) (fun x => (p1 <=. f x) = true /\ (f x <=. p2) = true)
    /\ reg a' (great' + 1) (great + 1) (fun x => (p2 <=. f x) = true)).
Proof.
  intros Hl Hlen Hle Hn (i & x & Hi & Hx & Hx1 & Hx2).
  destruct (jle_natural _ _ Hle) as [N1 N2].
  rewrite Hle. simpl. destruct (p2 <=. p1) eqn:E.
  - eapply wp_mono; [apply partition_equal_wp; try done|].
    { exists i, x. split_and!; [lia..|done|]. apply same_spec. split; [|done].
      by apply (jle_trans _ p2). }
    intros [[a' l'] g'] (? & ? & ? & R1 & R2 & R3). split_and!; [done|lia..| | |].
    + eapply reg_mono; [done|]. intros y. apply jlt_le.
    + eapply reg_mono; [done|]. intros y [? ?]%same_spec. split; [done|].
      by apply (jle_trans _ p1).
    + eapply reg_mono; [done|]. intros y ?. by apply (jle_trans _ p1).
  - eapply wp_mono; [by apply partition_pivots_wp|].
    intros [[a' l'] g'] (? & ? & ? & R1 & R2 & R3). split_and!; [done|lia..| |done|];
      (eapply reg_mono; [done|]); intros y; apply jlt_le.
Qed.

(** Sorting the two outer parts leaves the centre alone. *)
Lemma sort_sides_wp sort size d lo hi less great (PL PR : A -> Prop) :
  sorts sort size -> 0 <= lo -> hi <= alen d -> hi <= 2 ^ 30 -> hi - lo <= size ->
  lo <= less - 1 -> less <= great + 1 -> great + 2 <= hi ->
  reg d lo hi (fun x => natural (f x)) -> reg d lo (less - 1) PL -> reg d (great + 2) hi PR ->
  wp (sort d lo (less - 1)) (fun e1 => wp (sort e1 (great + 2) hi) (fun e =>
    frame lo hi d e /\ sorted f e lo (less - 1) /\ sorted f e (great + 2) hi
    /\ reg e lo (less - 1) PL /\ reg e (great + 2) hi PR
    /\ forall i, less - 1 <= i < great + 2 -> aget e i = aget d i)).
Proof.
  intros Hsort Hlo Hhi H30 Hsize H1 H2 H3 Hn RL RR.
  eapply wp_mono; [apply Hsort; try lia; eapply reg_sub; [done|lia..]|].
  intros e1 [F1 S1]. pose proof (frame_alen _ _ _ _ F1) as N1.
  eapply wp_mono; [apply Hsort; try lia|].
  { eapply frame_reg_disjoint; [done|lia|]. eapply reg_sub; [done|lia..]. }
  intros e [F2 S2]. split_and!; [|..|done| | |].
  - eapply frame_trans; [eapply frame_weaken; [exact F1|lia..]|eapply frame_weaken; [done|lia..]].
  - eapply sorted_ext; [done|]. intros i Hi. apply (frame_out _ _ _ _ F2). lia.
  - eapply frame_reg_disjoint; [exact F2|lia|]. eapply (frame_reg lo (less - 1) d); [lia..|done|done].
  - eapply (frame_reg (great + 2) hi e1); [lia..|done|]. eapply frame_reg_disjoint; [exact F1|lia|done].
  - intros i Hi. rewrite (frame_out _ _ _ _ F2) by lia. apply (frame_out _ _ _ _ F1). lia.
Qed.

Lemma quicksort_wp sort size a lo hi :
  sorts sort size -> 0 <= lo -> hi <= alen a -> hi <= 2 ^ 30 ->
  quicksort_sizeThreshold <= hi - lo <= size -> reg a lo hi (fun x => natural (f x)) ->
  wp (quicksort f sort a lo hi) (fun a' => frame lo hi a a' /\ sorted f a' lo hi).
Proof.
  intros Hsort Hlo Hhi H30 [H32 Hsize] Hn. unfold quicksort.
  destruct (pivot_indices lo hi Hlo H30 H32) as (I1 & I2 & I3). cbv zeta in I1, I2, I3.
  apply wp_bind. eapply wp_mono; [apply choose_pivots_wp; done || lia|].
  intros [[b pivot1] pivot2] (Hb & Hle & Hnb & e3 & G3 & L3 & L3').
  pose proof (lf_alen _ _ _ _ _ _ Hb) as Nb.
  apply wp_bind. eapply wp_mono; [apply partition_either_wp; try done; try lia|].
  { eapply reg_sub; [done|lia..]. }
  { eexists _, e3. split_and!; [..|done|done|done]; lia. }
  intros [[c less] great] (Fc & Hless & Hgreat & RL & RM & RR).
  replace (hi - 2 + 1) with (hi - 1) in * by lia.
  apply wp_bind. eapply wp_mono; [eapply place_pivots_wp; [..|exact RL|exact RM|exact RR]; done || lia|].
  intros d (Fd & G1 & G2 & RLd & RMd & RRd). pose proof (frame_alen _ _ _ _ Fd) as Nd.
  assert (reg d lo hi (fun x => natural (f x))) as Hnd by (eapply frame_reg; done || lia).
  apply wp_bind. eapply wp_mono; [eapply sort_sides_wp; [done|..|exact RLd|exact RRd]; done || lia|].
  intros e1 He. apply wp_bind. eapply wp_mono; [exact He|].
  intros e (Fe & S1 & S3 & RLe & RRe & Same). pose proof (frame_alen _ _ _ _ Fe) as Ne.
  assert (reg e less (great + 1) (fun x =>
            (f pivot1 <=. f x) = true /\ (f x <=. f pivot2) = true)) as RMe.
  { eapply reg_ext; [done|]. intros i Hi. apply Same. lia. }
  assert (aget e (less - 1) = Some pivot1) as E1 by (rewrite Same by lia; done).
  assert (aget e (great + 1) = Some pivot2) as E2 by (rewrite Same by lia; done).
  rewrite Hle. simpl. destruct (f pivot2 <=. f pivot1) eqn:Eq.
  { simpl. split; [by eapply frame_trans|].
    apply (sorted_pivots e lo hi less great pivot1 pivot2); try done; try lia.
    apply (sorted_same (f pivot1)). eapply reg_mono; [done|]. intros x [? ?].
    apply same_spec. split; [|done]. by apply (jle_trans _ (f pivot2)). }
  apply wp_bind. eapply wp_mono; [apply clear_center_wp; try done; [lia|lia|by apply jlt_true]|].
  intros [[g l'] g'] (Fg & Hl' & Hg' & R1 & R2). pose proof (frame_alen _ _ _ _ Fg) as Ng.
  assert (reg g less (great + 1) (fun x =>
            (f pivot1 <=. f x) = true /\ (f x <=. f pivot2) = true)) as RMg
    by (eapply frame_reg; [..|done|done]; lia).
  eapply wp_mono; [apply Hsort; try lia|].
  { eapply reg_mono; [eapply reg_sub; [exact RMg|lia..]|]. intros x [? _]. by eapply jle_natural. }
  intros h [Fh Sh].
  assert (frame less (great + 1) e h) as Feh.
  { eapply frame_trans; [done|]. eapply frame_weaken; [done|lia..]. }
  assert (reg h less (great + 1) (fun x =>
            (f pivot1 <=. f x) = true /\ (f x <=. f pivot2) = true)) as RMh
    by (eapply frame_reg; [..|exact Feh|done]; lia).
  split.
  { eapply frame_trans; [exact Fd|]. eapply frame_trans; [exact Fe|].
    eapply frame_weaken; [done|lia..]. }
  apply (sorted_pivots h lo hi less great pivot1 pivot2); try done; try lia.
  - rewrite (frame_out _ _ _ _ Feh) by lia. done.
  - rewrite (frame_out _ _ _ _ Feh) by lia. done.
  - eapply sorted_ext; [exact S1|]. intros i Hi. apply (frame_out _ _ _ _ Feh). lia.
  - eapply frame_reg_disjoint; [exact Feh|lia|done].
  - assert (reg h less l' (fun x => same (f pivot1) (f x) = true)) as Rl
      by (eapply frame_reg_disjoint; [exact Fh|lia|done]).
    assert (reg h (g' + 1) (great + 1) (fun x => same (f pivot2) (f x) = true)) as Rr
      by (eapply frame_reg_disjoint; [exact Fh|lia|done]).
    apply (sorted_join f h _ l' _ (f pivot1)); [by apply (sorted_same (f pivot1))| | |].
    + apply (sorted_join f h _ (g' + 1) _ (f pivot2)); [done|by apply (sorted_same (f pivot2))| |].
      * intros i x Hi Hx. apply (RMh i); [lia|done].
      * eapply reg_mono; [done|]. by intros x [_ ?]%same_spec.
    + eapply reg_mono; [done|]. by intros x [? _]%same_spec.
    + intros i x Hi Hx. apply (RMh i); [lia|done].
  - eapply sorted_ext; [exact S3|]. intros i Hi. apply (frame_out _ _ _ _ Feh). lia.
  - eapply frame_reg_disjoint; [exact Feh|lia|done].
Qed.

Lemma sort_fuel_sorts fuel : sorts (sort_fuel f fuel) (Z.of_nat fuel).
Proof.
  induction fuel as [|k IH]; intros a lo hi H1 H2 H3 H4 Hn; [lia|]. simpl.
  destruct (Z.ltb_spec (hi - lo) quicksort_sizeThreshold).
  - by apply insertionsort_wp.
  - eapply quicksort_wp; [exact IH|..]; done || lia.
Qed.

Lemma quicksort_sort_wp a lo hi :
  0 <= lo <= hi -> hi <= alen a -> hi <= 2 ^ 30 -> reg a lo hi (fun x => natural (f x)) ->
  wp (CfQuicksort.sort f a lo hi) (fun a' => frame lo hi a a' /\ sorted f a' lo hi).
Proof. intros. apply (sort_fuel_sorts (S (Z.to_nat (hi - lo)))); done || lia. Qed.
End quicksort.

(** ** Properties *)

(** C6: the dual-pivot quicksort returns on every slice of naturally ordered
    values (positions up to [2^30], the range of its index arithmetic), and
    the array it returns is a permutation of [a] that is sorted on [lo:hi] and
    untouched outside. *)
Theorem quicksort_sorts {A X} `{JsOrdLaws X} (f : A -> X) a lo hi :
  0 <= lo <= hi -> hi <= alen a -> hi <= 2 ^ 30 ->
  (forall i x, lo <= i < hi -> aget a i = Some x -> natural (f x)) ->
  exists a', CfQuicksort.sort f a lo hi = Ret a' /\ a' ≡ₚ a
    /\ (forall i, i < lo \/ hi <= i -> aget a' i = aget a i) /\ sorted f a' lo hi.
Proof.
  intros H1 H2 H3 Hn. destruct (wp_elim _ _ (quicksort_sort_wp f a lo hi H1 H2 H3 Hn))
    as (a' & -> & [Hp Ho] & Hs). eauto.
Qed.

(** Forty values, so that the first call partitions. *)
Definition quicksort_example : list Z := map (fun i => i * 17 mod 40) (seqZ 0 40).

Lemma quicksort_sorts_witness :
  exists a', CfQuicksort.sort (fun x : Z => x) quicksort_example 0 40 = Ret a'
    /\ a' ≡ₚ quicksort_example
    /\ (forall i, i < 0 \/ 40 <= i -> aget a' i = aget quicksort_example i)
    /\ sorted (fun x : Z => x) a' 0 40.
Proof.
  apply (quicksort_sorts (fun x : Z => x) quicksort_example 0 40); [done..|].
  intros. apply Z_natural.
Defined.
