(* ===== verification/CfArray.v ===== *)
(** * crossfilter: typed arrays, filter bounds and reduce functions

    [src/app/assets/javascripts/crossfilter.js], lines 439-530 and 1377-1400.
    An array of the library is either typed (a [Uint8Array], [Uint16Array] or
    [Uint32Array], which keeps [width] bits of what is stored) or an ordinary
    array of numbers; [typed] tells whether the browser has [Uint8Array]. *)

From S2P Require Import Prelude.
From S2P Require Import Arrays.
From S2P Require Import CfBisect.

Inductive akind := AUntyped | AUint (width : Z).

Record tarr := TArr { tkind : akind; tcells : list Z }.

(** The value kept when [v] is stored. *)
Definition tstore (k : akind) (v : Z) : Z :=
  match k with AUntyped => v | AUint w => v mod 2 ^ w end.

Definition trd (t : tarr) (i : Z) : js Z := rd (tcells t) i.
Definition twr (t : tarr) (i v : Z) : js tarr :=
  cells ← wr (tcells t) i (tstore (tkind t) v);
  Ret (TArr (tkind t) cells).
Definition tlen (t : tarr) : Z := alen (tcells t).

Definition zeros (n : Z) : list Z := replicate (Z.to_nat n) 0.

Section arrays.
Context (typed : bool).

Definition crossfilter_arrayUntyped (n : Z) : tarr := TArr AUntyped (zeros n).
Definition crossfilter_array8 (n : Z) : tarr :=
  if typed then TArr (AUint 8) (zeros n) else crossfilter_arrayUntyped n.
Definition crossfilter_array16 (n : Z) : tarr :=
  if typed then TArr (AUint 16) (zeros n) else crossfilter_arrayUntyped n.
Definition crossfilter_array32 (n : Z) : tarr :=
  if typed then TArr (AUint 32) (zeros n) else crossfilter_arrayUntyped n.

(** Both versions append zeros up to [length]; the typed one copies. *)
Definition crossfilter_arrayLengthenUntyped (array : tarr) (length : Z) : tarr :=
  TArr (tkind array) (tcells array ++ zeros (length - tlen array)).
Definition crossfilter_arrayLengthen (array : tarr) (length : Z) : tarr :=
  if typed then
    if length <=? tlen array then array
    else TArr (tkind array) (tcells array ++ zeros (length - tlen array))
  else crossfilter_arrayLengthenUntyped array length.

Definition crossfilter_arrayWidenUntyped (array : tarr) (width : Z) : js tarr :=
  if width >? 32 then Throw "invalid array width!" else Ret array.
Definition crossfilter_arrayWiden (array : tarr) (width : Z) : js tarr :=
  if typed then
    if (width =? 16) || (width =? 32) then
      Ret (TArr (AUint width) (map (tstore (AUint width)) (tcells array)))
    else Throw "invalid array width!"
  else crossfilter_arrayWidenUntyped array width.

(** An array of size [n], big enough to store ids up to [m]. *)
Definition crossfilter_index (n m : Z) : tarr :=
  if m <? 0x101 then crossfilter_array8 n
  else if m <? 0x10001 then crossfilter_array16 n
  else crossfilter_array32 n.

Definition crossfilter_range (n : Z) : js tarr :=
  for_ 0 n (fun i range => twr range i i) (crossfilter_index n n).
End arrays.

Definition crossfilter_capacity (w : Z) : Z :=
  if w =? 8 then 0x100 else if w =? 16 then 0x10000 else 0x100000000.

(** The functions [refilter] can hold, with the values they close over. *)
Inductive refilter_fn (X : Type) :=
| FilterAll
| FilterExact (value : X)
| FilterRange (min max : X).
Arguments FilterAll {X}.
Arguments FilterExact {X} value.
Arguments FilterRange {X} min max.

Section filters.
Context {X : Type} `{JsOrd X}.

Definition crossfilter_filterExact (value : X) (values : list X) : js (Z * Z) :=
  let n := alen values in
  l ← bisectLeft crossfilter_identity values value 0 n;
  r ← bisectRight crossfilter_identity values value 0 n;
  Ret (l, r).

Definition crossfilter_filterRange (min max : X) (values : list X) : js (Z * Z) :=
  let n := alen values in
  l ← bisectLeft crossfilter_identity values min 0 n;
  r ← bisectLeft crossfilter_identity values max 0 n;
  Ret (l, r).

Definition crossfilter_filterAll (values : list X) : js (Z * Z) := Ret (0, alen values).

Definition refilter_run (r : refilter_fn X) (values : list X) : js (Z * Z) :=
  match r with
  | FilterAll => crossfilter_filterAll values
  | FilterExact v => crossfilter_filterExact v values
  | FilterRange min max => crossfilter_filterRange min max values
  end.
End filters.

Definition crossfilter_zero : Z := 0.
Definition crossfilter_reduceIncrement {R} (p : Z) (_ : R) : Z := p + 1.
Definition crossfilter_reduceDecrement {R} (p : Z) (_ : R) : Z := p - 1.
Definition crossfilter_reduceAdd {R} (f : R -> Z) (p : Z) (v : R) : Z := p + f v.
Definition crossfilter_reduceSubtract {R} (f : R -> Z) (p : Z) (v : R) : Z := p - f v.
