(* ===== verification/CfBits.v ===== *)
(** * crossfilter: the bits of the filter array

    Each dimension owns one bit of every entry of [filters]: the bit is 1
    when the dimension leaves the record out.  This file has the facts about
    32-bit operators and typed-array stores that the proofs about filters
    use. *)

From S2P Require Import Prelude.
From S2P Require Import Arrays.
From S2P Require Import CfArray.

(** ** 32-bit operators, bit by bit *)

Lemma testbit_mod32 x b : 0 <= b < 32 -> Z.testbit (x mod 2 ^ 32) b = Z.testbit x b.
Proof. intros Hb. apply Z.mod_pow2_bits_low. lia. Qed.

Lemma to_int32_mod x : to_int32 x mod 2 ^ 32 = x mod 2 ^ 32.
Proof.
  unfold to_int32, to_uint32. destruct (Z.ltb_spec (x mod 2 ^ 32) (2 ^ 31)).
  - apply Z.mod_mod. lia.
  - replace (x mod 2 ^ 32 - 2 ^ 32) with (x mod 2 ^ 32 + (-1) * 2 ^ 32) by lia.
    rewrite Z.mod_add by lia. apply Z.mod_mod. lia.
Qed.

Lemma testbit_to_int32 x b : 0 <= b < 32 -> Z.testbit (to_int32 x) b = Z.testbit x b.
Proof.
  intros Hb. rewrite <- (testbit_mod32 (to_int32 x)) by done.
  by rewrite to_int32_mod, testbit_mod32.
Qed.

Definition int32 (x : Z) : Prop := - 2 ^ 31 <= x < 2 ^ 31.

Lemma to_int32_range x : int32 (to_int32 x).
Proof.
  unfold int32, to_int32, to_uint32. pose proof (Z.mod_pos_bound x (2 ^ 32) ltac:(lia)).
  destruct (Z.ltb_spec (x mod 2 ^ 32) (2 ^ 31)); lia.
Qed.

(** The bits from 31 on of a 32-bit integer are its sign. *)
Lemma int32_sign x b : int32 x -> 31 <= b -> Z.testbit x b = Z.testbit x 31.
Proof.
  unfold int32. intros Hx Hb.
  rewrite (Z.testbit_odd x b), (Z.testbit_odd x 31), !Z.shiftr_div_pow2 by lia.
  destruct (decide (0 <= x)).
  - rewrite !Z.div_small; [done|lia|]. split; [done|].
    apply Z.lt_le_trans with (2 ^ 31); [lia|]. apply Z.pow_le_mono_r; lia.
  - assert (forall c, 31 <= c -> x / 2 ^ c = -1) as Hdiv.
    { intros c Hc. assert (2 ^ 31 <= 2 ^ c) by (apply Z.pow_le_mono_r; lia).
      symmetry. apply (Z.div_unique x _ (-1) (x + 2 ^ c)); lia. }
    by rewrite !Hdiv by lia.
Qed.

Lemma int32_ext x y :
  int32 x -> int32 y -> (forall b, 0 <= b < 32 -> Z.testbit x b = Z.testbit y b) -> x = y.
Proof.
  intros Hx Hy He. apply Z.bits_inj'. intros b Hb.
  destruct (decide (b < 32)); [apply He; lia|].
  rewrite (int32_sign x), (int32_sign y) by (done || lia). apply He. lia.
Qed.

(** A combination of 32-bit integers bit by bit is a 32-bit integer. *)
Lemma int32_bits x :
  (forall b, 31 <= b -> Z.testbit x b = Z.testbit x 31) -> int32 x.
Proof.
  intros Hs. assert (to_int32 x = x) as <-; [|apply to_int32_range].
  apply Z.bits_inj'. intros b Hb. destruct (decide (b < 32)).
  - by rewrite testbit_to_int32.
  - rewrite (int32_sign (to_int32 x)), (Hs b) by (lia || apply to_int32_range).
    by rewrite testbit_to_int32 by lia.
Qed.

Lemma js_or_range x y : int32 (js_or x y).
Proof.
  apply int32_bits. intros b Hb. unfold js_or. rewrite !Z.lor_spec.
  by rewrite !(int32_sign (to_int32 _) b) by (done || apply to_int32_range).
Qed.

Lemma js_and_range x y : int32 (js_and x y).
Proof.
  apply int32_bits. intros b Hb. unfold js_and. rewrite !Z.land_spec.
  by rewrite !(int32_sign (to_int32 _) b) by (done || apply to_int32_range).
Qed.

Lemma js_xor_range x y : int32 (js_xor x y).
Proof.
  apply int32_bits. intros b Hb. unfold js_xor. rewrite !Z.lxor_spec.
  by rewrite !(int32_sign (to_int32 _) b) by (done || apply to_int32_range).
Qed.

Lemma js_not_range x : int32 (js_not x).
Proof. unfold js_not, int32, Z.lnot. pose proof (to_int32_range x). unfold int32 in *. lia. Qed.

#[export] Hint Resolve to_int32_range js_or_range js_and_range js_xor_range js_not_range : js_bits.

Section bits.
Context (b : Z) (Hb : 0 <= b < 32).

Lemma testbit_js_or x y : Z.testbit (js_or x y) b = Z.testbit x b || Z.testbit y b.
Proof. unfold js_or. by rewrite Z.lor_spec, !testbit_to_int32. Qed.

Lemma testbit_js_and x y : Z.testbit (js_and x y) b = Z.testbit x b && Z.testbit y b.
Proof. unfold js_and. by rewrite Z.land_spec, !testbit_to_int32. Qed.

Lemma testbit_js_xor x y : Z.testbit (js_xor x y) b = xorb (Z.testbit x b) (Z.testbit y b).
Proof. unfold js_xor. by rewrite Z.lxor_spec, !testbit_to_int32. Qed.

Lemma testbit_js_not x : Z.testbit (js_not x) b = negb (Z.testbit x b).
Proof. unfold js_not. rewrite Z.lnot_spec by lia. by rewrite testbit_to_int32. Qed.

(** The mask with bit [b] only, as the operators see it. *)
Definition bit_one : Z := to_int32 (2 ^ b).

Lemma bit_one_range : int32 bit_one.
Proof. apply to_int32_range. Qed.
End bits.

Lemma testbit_bit_one b i : 0 <= b -> 0 <= i < 32 -> Z.testbit (bit_one b) i = bool_decide (i = b).
Proof.
  intros Hb Hi. unfold bit_one. rewrite testbit_to_int32 by done.
  rewrite Z.pow2_bits_eqb by lia. destruct (Z.eqb_spec b i), (bool_decide_reflect (i = b)); lia || done.
Qed.

Lemma bit_one_nonzero b : 0 <= b < 32 -> bit_one b <> 0.
Proof.
  intros Hb H0. pose proof (testbit_bit_one b b ltac:(lia) Hb) as H.
  by rewrite H0, Z.bits_0, bool_decide_true in H.
Qed.

(** ** The lowest unset bit of the mask of dimensions *)

(** A non-zero integer is an odd one, shifted. *)
Lemma lowest_bit y : y <> 0 -> exists b q, 0 <= b /\ y = 2 ^ b * (2 * q + 1).
Proof.
  intros Hy. remember (Z.to_nat (Z.abs y)) as s eqn:Hs.
  revert y Hy Hs. induction (lt_wf s) as [s _ IH]. intros y Hy ->.
  destruct (Z.odd y) eqn:Ho.
  - exists 0, (y / 2). split; [lia|]. apply Z.odd_spec in Ho as [q ->]. divlia.
  - assert (exists h, y = 2 * h) as [h ->].
    { apply Z.even_spec. rewrite <- Z.negb_odd. by rewrite Ho. }
    destruct (IH (Z.to_nat (Z.abs h)) ltac:(lia) h ltac:(lia) eq_refl) as (b & q & Hb & Hq).
    exists (b + 1), q. split; [lia|]. rewrite Z.pow_add_r by lia. lia.
Qed.

(** [y & -y] keeps the lowest bit that is set, in all 32 positions. *)
Lemma land_neg y b q i :
  0 <= b -> y = 2 ^ b * (2 * q + 1) -> 0 <= i ->
  Z.testbit (Z.land y (- y)) i = bool_decide (i = b).
Proof.
  intros Hb -> Hi. rewrite Z.land_spec.
  replace (- (2 ^ b * (2 * q + 1))) with ((2 * Z.lnot q + 1) * 2 ^ b) by (unfold Z.lnot; lia).
  rewrite (Z.mul_comm (2 ^ b)), !Z.mul_pow2_bits by lia.
  destruct (Z.lt_trichotomy i b) as [Hlt|[->|Hgt]].
  - rewrite !Z.testbit_neg_r by lia. by rewrite bool_decide_false by lia.
  - rewrite !Z.sub_diag, !Z.testbit_odd_0. by rewrite bool_decide_true.
  - replace (i - b) with (Z.succ (i - b - 1)) by lia.
    rewrite !Z.testbit_odd_succ, Z.lnot_spec by lia.
    rewrite andb_negb_r. by rewrite bool_decide_false by lia.
Qed.

(** [~m & -~m]: nothing when all 32 bits are in use, otherwise the lowest
    bit that is not. *)
Lemma lowest_unset m :
  int32 m ->
  let one := js_and (js_not m) (- js_not m) in
  (m = -1 /\ one = 0) \/
  (exists b, 0 <= b < 32 /\ one = bit_one b /\ Z.testbit m b = false
     /\ forall i, 0 <= i < b -> Z.testbit m i = true).
Proof.
  intros Hm one. pose proof (js_not_range m) as Hy.
  assert (forall i, 0 <= i < 32 -> Z.testbit (js_not m) i = negb (Z.testbit m i)) as Hnot
    by (intros; by apply testbit_js_not).
  destruct (decide (js_not m = 0)) as [H0|Hne].
  - left. split; [|unfold one; by rewrite H0].
    apply int32_ext; [done|unfold int32; lia|]. intros b Hb.
    rewrite Z.bits_m1 by lia. specialize (Hnot b Hb). rewrite H0, Z.bits_0 in Hnot.
    by destruct (Z.testbit m b).
  - right. destruct (lowest_bit _ Hne) as (b & q & Hb & Hq).
    pose proof (fun i Hi => land_neg (js_not m) b q i Hb Hq Hi) as Hl.
    assert (b < 32) as Hb32.
    { destruct (decide (b < 32)); [done|exfalso]. apply Hne. apply int32_ext; [done|unfold int32; lia|].
      intros i Hi. rewrite Z.bits_0, Hq, Z.mul_comm, Z.mul_pow2_bits by lia.
      apply Z.testbit_neg_r. lia. }
    assert (forall i, 0 <= i < 32 -> Z.testbit (js_not m) i = true -> b <= i) as Hlow.
    { intros i Hi. rewrite Hq, Z.mul_comm, Z.mul_pow2_bits by lia.
      destruct (decide (i < b)); [|lia]. by rewrite Z.testbit_neg_r by lia. }
    exists b. split_and!; [lia..| | |].
    + apply int32_ext; [apply js_and_range|apply bit_one_range|]. intros i Hi.
      unfold one, js_and. rewrite Z.land_spec, !testbit_to_int32, <- Z.land_spec by done.
      rewrite Hl, testbit_bit_one by lia. done.
    + apply negb_true_iff. rewrite <- Hnot by lia. specialize (Hl b ltac:(lia)).
      rewrite Z.land_spec, bool_decide_true in Hl by done. by apply andb_true_iff in Hl as [? _].
    + intros i Hi. destruct (Z.testbit m i) eqn:E; [done|].
      assert (b <= i); [|lia]. apply Hlow; [lia|]. by rewrite Hnot, E by lia.
Qed.

(** ** Cells of an array *)

Definition kind_width (k : akind) : Z := match k with AUntyped => 32 | AUint w => w end.

Definition kind_ok (k : akind) : Prop :=
  match k with AUntyped => True | AUint w => w = 8 \/ w = 16 \/ w = 32 end.

(** The numbers a cell can hold: an unsigned number of the width, or what a
    bitwise operator returns. *)
Definition cell_ok (k : akind) (x : Z) : Prop :=
  match k with AUntyped => int32 x | AUint w => 0 <= x < 2 ^ w end.

Lemma kind_width_range k : kind_ok k -> 8 <= kind_width k <= 32.
Proof. destruct k; simpl; lia. Qed.

Lemma cell_ok_tstore k v : kind_ok k -> int32 v -> cell_ok k (tstore k v).
Proof. destruct k; simpl; [done|]. intros Hw _. apply Z.mod_pos_bound. lia. Qed.

(** Such a number is stored as it is; 0 is one. *)
Lemma cell_store k x : cell_ok k x -> tstore k x = x.
Proof. destruct k; simpl; [done|]. apply Z.mod_small. Qed.

Lemma cell_ok_0 k : kind_ok k -> cell_ok k 0.
Proof. destruct k as [|w]; simpl; [unfold int32; lia|]. intros Hw. split; [done|]. apply Z.pow_pos_nonneg; lia. Qed.

Lemma testbit_tstore k v b : 0 <= b < kind_width k -> Z.testbit (tstore k v) b = Z.testbit v b.
Proof. destruct k; simpl; [done|]. intros Hb. apply Z.mod_pow2_bits_low. lia. Qed.

Lemma cell_ok_high k x b :
  kind_ok k -> cell_ok k x -> kind_width k <= b < 32 -> Z.testbit x b = false.
Proof.
  destruct k as [|w]; simpl; [lia|]. intros Hw Hx Hb.
  rewrite <- (Z.mod_small x (2 ^ w)) by done. apply Z.mod_pow2_bits_high. lia.
Qed.

(** A cell is 0, and so falsy, when none of its bits is set. *)
Lemma cell_zero k x :
  kind_ok k -> cell_ok k x -> x = 0 <-> forall b, 0 <= b < kind_width k -> Z.testbit x b = false.
Proof.
  intros Hk Hx. split; [intros -> b Hb; apply Z.bits_0|]. intros Hall.
  destruct k as [|w]; simpl in *.
  - apply int32_ext; [done|unfold int32; lia|]. intros b Hb. rewrite Z.bits_0. by apply Hall.
  - apply Z.bits_inj'. intros b Hb. rewrite Z.bits_0. destruct (decide (b < w)); [apply Hall; lia|].
    rewrite <- (Z.mod_small x (2 ^ w)) by done. apply Z.mod_pow2_bits_high. lia.
Qed.
