(* ===== verification/CfCore.v ===== *)
(** * crossfilter: the crossfilter object, its dimensions and groups

    [src/app/assets/javascripts/crossfilter.js], lines 531-1376.  The source
    builds closures over the variables of [crossfilter()], [dimension()],
    [group()] and [groupAll()]; here the variables of each are the fields of
    a record, dimensions and groups are numbered, and the listener arrays
    hold which function of which object they would call.  Records have type
    [R], the values of a dimension and the keys of a group type [X], reduce
    values are numbers ([None] is [null]). *)

From S2P Require Import Prelude.
From S2P Require Import Arrays.
From S2P Require Import CfBisect.
From S2P Require Import CfHeap.
From S2P Require Import CfHeapselect.
From S2P Require Import CfQuicksort.
From S2P Require Import CfArray.

(** ** State *)

(** [filterListeners]: [crossfilter_null], [updateMany] and [updateOne] of a
    group, [update] of a [groupAll]. *)
Inductive flistener := FNull | FMany (g : nat) | FOne (g : nat) | FAll (g : nat).

(** [dataListeners]: [preAdd] and [postAdd] of a dimension, [add] of a
    [groupAll]. *)
Inductive dlistener := DPre (d : nat) | DPost (d : nat) | DAll (g : nat).

(** [removeDataListeners]: [removeData] of a dimension or of a group. *)
Inductive rlistener := RDim (d : nat) | RGroup (g : nat).

#[export] Instance flistener_eq_dec : EqDecision flistener.
Proof. solve_decision. Defined.
#[export] Instance dlistener_eq_dec : EqDecision dlistener.
Proof. solve_decision. Defined.
#[export] Instance rlistener_eq_dec : EqDecision rlistener.
Proof. solve_decision. Defined.

(** [array.indexOf(x)] followed by [if (i >= 0) array.splice(i, 1)]. *)
Fixpoint splice_one {L} `{EqDecision L} (x : L) (l : list L) : list L :=
  match l with
  | [] => []
  | y :: l' => if decide (x = y) then l' else y :: splice_one x l'
  end.

(** [array.indexOf(x)] followed by [if (i >= 0) array.splice(i)]: without a
    count, [splice] removes everything from position [i] on. *)
Fixpoint splice_rest {L} `{EqDecision L} (x : L) (l : list L) : list L :=
  match l with
  | [] => []
  | y :: l' => if decide (x = y) then [] else y :: splice_rest x l'
  end.

(** [array[array.indexOf(x)] = z]. *)
Fixpoint replace_first {L} `{EqDecision L} (x z : L) (l : list L) : list L :=
  match l with
  | [] => []
  | y :: l' => if decide (x = y) then z :: l' else y :: replace_first x z l'
  end.

Section crossfilter.
Context {R X : Type} `{JsOrd X} (undef null : X) (typed : bool).

Record dim := Dim {
  d_value : R -> X;
  d_one : Z;
  d_zero : Z;
  d_values : list X;
  d_index : tarr;
  d_newValues : list X;
  d_newIndex : tarr;
  d_refilter : refilter_fn X;
  d_refilterFunction : option (X -> Z -> bool);
  d_indexListeners : list nat;
  d_dimensionGroups : list nat;
  d_lo0 : Z;
  d_hi0 : Z
}.

Record kv := KV { kv_key : X; kv_value : option Z }.

Record reducer := Reducer {
  reduceAdd : Z -> R -> Z;
  reduceRemove : Z -> R -> Z;
  reduceInitial : Z
}.

Record grp := Grp {
  g_dim : nat;
  g_key : X -> X;
  g_groups : list kv;
  g_groupIndex : option tarr;
  g_groupWidth : Z;
  g_groupCapacity : Z;
  g_k : Z;
  g_order : Z -> Z;
  g_reduce : reducer;
  g_update : flistener;
  g_resetNeeded : bool;
  g_groupAll : bool
}.

Record gall := GAll {
  a_reduceValue : option Z;
  a_reduce : reducer;
  a_resetNeeded : bool
}.

Record cf := Cf {
  data : list R;
  n : Z;
  m : Z;
  M : Z;
  filters : tarr;
  filterListeners : list flistener;
  dataListeners : list dlistener;
  removeDataListeners : list rlistener;
  dims : list dim;
  grps : list grp;
  galls : list gall
}.

Definition new_crossfilter : cf :=
  Cf [] 0 0 8 (crossfilter_array8 typed 0) [] [] [] [] [] [].

(** Assignments to the variables of the closures. *)
Definition set_filters (c : cf) (fl : tarr) : cf :=
  Cf (data c) (n c) (m c) (M c) fl (filterListeners c) (dataListeners c)
     (removeDataListeners c) (dims c) (grps c) (galls c).
Definition set_filterListeners (c : cf) (l : list flistener) : cf :=
  Cf (data c) (n c) (m c) (M c) (filters c) l (dataListeners c)
     (removeDataListeners c) (dims c) (grps c) (galls c).
Definition set_dims (c : cf) (ds : list dim) : cf :=
  Cf (data c) (n c) (m c) (M c) (filters c) (filterListeners c) (dataListeners c)
     (removeDataListeners c) ds (grps c) (galls c).
Definition set_grps (c : cf) (gs : list grp) : cf :=
  Cf (data c) (n c) (m c) (M c) (filters c) (filterListeners c) (dataListeners c)
     (removeDataListeners c) (dims c) gs (galls c).
Definition set_galls (c : cf) (gs : list gall) : cf :=
  Cf (data c) (n c) (m c) (M c) (filters c) (filterListeners c) (dataListeners c)
     (removeDataListeners c) (dims c) (grps c) gs.

Definition the_dim (c : cf) (i : nat) : js dim :=
  match dims c !! i with Some d => Ret d | None => Stuck end.
Definition the_grp (c : cf) (i : nat) : js grp :=
  match grps c !! i with Some g => Ret g | None => Stuck end.
Definition the_gall (c : cf) (i : nat) : js gall :=
  match galls c !! i with Some g => Ret g | None => Stuck end.

Definition put_dim (c : cf) (i : nat) (d : dim) : cf := set_dims c (<[i := d]> (dims c)).
Definition put_grp (c : cf) (i : nat) (g : grp) : cf := set_grps c (<[i := g]> (grps c)).
Definition put_gall (c : cf) (i : nat) (g : gall) : cf := set_galls c (<[i := g]> (galls c)).

Definition truthy (x : Z) : bool := negb (x =? 0).

(** [filters[k] |= one], [filters[k] ^= one], [filters[k] &= zero]. *)
Definition filter_or (fl : tarr) (k one : Z) : js tarr :=
  x ← trd fl k; twr fl k (js_or x one).
Definition filter_xor (fl : tarr) (k one : Z) : js tarr :=
  x ← trd fl k; twr fl k (js_xor x one).
Definition filter_and (fl : tarr) (k zero : Z) : js tarr :=
  x ← trd fl k; twr fl k (js_and x zero).

(** [for (i = 0, n = l.length; i < n; ++i)] over the elements of a list,
    and [l.forEach]. *)
Fixpoint for_each {L S} (l : list L) (body : L -> S -> js S) (s : S) : js S :=
  match l with
  | [] => Ret s
  | x :: l' => s ← body x s; for_each l' body s
  end.

(** ** Groups: incremental updates *)

(** [g.value = f(g.value, r)]; a [null] value counts as 0 in arithmetic. *)
Definition reduce_kv (f : Z -> R -> Z) (g : kv) (r : R) : kv :=
  KV (kv_key g) (Some (f (default 0 (kv_value g)) r)).

Definition with_groups (g : grp) (gs : list kv) : grp :=
  Grp (g_dim g) (g_key g) gs (g_groupIndex g) (g_groupWidth g) (g_groupCapacity g) (g_k g)
      (g_order g) (g_reduce g) (g_update g) (g_resetNeeded g) (g_groupAll g).

Definition group_index_of (g : grp) (k : Z) : js Z :=
  match g_groupIndex g with Some t => trd t k | None => Stuck end.

Definition updateMany (c : cf) (gid : nat) (filterOne : Z) (added removed : list Z) : js cf :=
  g ← the_grp c gid;
  d ← the_dim c (g_dim g);
  if (filterOne =? d_one d) || g_resetNeeded g then Ret c else
  gs ← for_each added (fun k gs =>
    x ← trd (filters c) k;
    if truthy (js_and x (d_zero d)) then Ret gs
    else
      i ← group_index_of g k;
      e ← rd gs i;
      r ← rd (data c) k;
      wr gs i (reduce_kv (reduceAdd (g_reduce g)) e r)) (g_groups g);
  gs ← for_each removed (fun k gs =>
    x ← trd (filters c) k;
    if js_and x (d_zero d) =? filterOne then
      i ← group_index_of g k;
      e ← rd gs i;
      r ← rd (data c) k;
      wr gs i (reduce_kv (reduceRemove (g_reduce g)) e r)
    else Ret gs) gs;
  Ret (put_grp c gid (with_groups g gs)).

Definition updateOne (c : cf) (gid : nat) (filterOne : Z) (added removed : list Z) : js cf :=
  g ← the_grp c gid;
  d ← the_dim c (g_dim g);
  if (filterOne =? d_one d) || g_resetNeeded g then Ret c else
  gs ← for_each added (fun k gs =>
    x ← trd (filters c) k;
    if truthy (js_and x (d_zero d)) then Ret gs
    else
      e ← rd gs 0;
      r ← rd (data c) k;
      wr gs 0 (reduce_kv (reduceAdd (g_reduce g)) e r)) (g_groups g);
  gs ← for_each removed (fun k gs =>
    x ← trd (filters c) k;
    if js_and x (d_zero d) =? filterOne then
      e ← rd gs 0;
      r ← rd (data c) k;
      wr gs 0 (reduce_kv (reduceRemove (g_reduce g)) e r)
    else Ret gs) gs;
  Ret (put_grp c gid (with_groups g gs)).

Definition resetMany (c : cf) (g : grp) : js grp :=
  d ← the_dim c (g_dim g);
  gs ← for_ 0 (g_k g) (fun i gs =>
    e ← rd gs i;
    wr gs i (KV (kv_key e) (Some (reduceInitial (g_reduce g))))) (g_groups g);
  gs ← for_ 0 (n c) (fun j gs =>
    x ← trd (filters c) j;
    if truthy (js_and x (d_zero d)) then Ret gs
    else
      i ← group_index_of g j;
      e ← rd gs i;
      r ← rd (data c) j;
      wr gs i (reduce_kv (reduceAdd (g_reduce g)) e r)) gs;
  Ret (with_groups g gs).

Definition resetOne (c : cf) (g : grp) : js grp :=
  d ← the_dim c (g_dim g);
  e ← rd (g_groups g) 0;
  gs ← wr (g_groups g) 0 (KV (kv_key e) (Some (reduceInitial (g_reduce g))));
  gs ← for_ 0 (n c) (fun j gs =>
    x ← trd (filters c) j;
    if truthy (js_and x (d_zero d)) then Ret gs
    else
      e ← rd gs 0;
      r ← rd (data c) j;
      wr gs 0 (reduce_kv (reduceAdd (g_reduce g)) e r)) gs;
  Ret (with_groups g gs).

(** [update] and [reset] are always assigned together, so the tag of
    [update] tells which [reset] is in use. *)
Definition group_reset (c : cf) (g : grp) : js grp :=
  match g_update g with
  | FMany _ => resetMany c g
  | FOne _ => resetOne c g
  | _ => Ret g
  end.

(** ** The optimised [groupAll] of the crossfilter *)

Definition with_value (a : gall) (v : option Z) : gall :=
  GAll v (a_reduce a) (a_resetNeeded a).

Definition groupAll_add (c : cf) (aid : nat) (n0 : Z) : js cf :=
  a ← the_gall c aid;
  if a_resetNeeded a then Ret c else
  v ← for_ n0 (n c) (fun i v =>
    x ← trd (filters c) i;
    if truthy x then Ret v
    else r ← rd (data c) i; Ret (Some (reduceAdd (a_reduce a) (default 0 v) r)))
    (a_reduceValue a);
  Ret (put_gall c aid (with_value a v)).

Definition groupAll_update (c : cf) (aid : nat) (filterOne : Z) (added removed : list Z) : js cf :=
  a ← the_gall c aid;
  if a_resetNeeded a then Ret c else
  v ← for_each added (fun k v =>
    x ← trd (filters c) k;
    if truthy x then Ret v
    else r ← rd (data c) k; Ret (Some (reduceAdd (a_reduce a) (default 0 v) r)))
    (a_reduceValue a);
  v ← for_each removed (fun k v =>
    x ← trd (filters c) k;
    if x =? filterOne then
      r ← rd (data c) k; Ret (Some (reduceRemove (a_reduce a) (default 0 v) r))
    else Ret v) v;
  Ret (put_gall c aid (with_value a v)).

Definition groupAll_reset (c : cf) (a : gall) : js gall :=
  v ← for_ 0 (n c) (fun i v =>
    x ← trd (filters c) i;
    if truthy x then Ret v
    else r ← rd (data c) i; Ret (reduceAdd (a_reduce a) v r)) (reduceInitial (a_reduce a));
  Ret (with_value a (Some v)).

(** [filterListeners.forEach(function(l) { l(one, added, removed); })]. *)
Definition run_filterListener (one : Z) (added removed : list Z) (l : flistener) (c : cf) : js cf :=
  match l with
  | FNull => Ret c
  | FMany g => updateMany c g one added removed
  | FOne g => updateOne c g one added removed
  | FAll a => groupAll_update c a one added removed
  end.
Definition notify_filter (c : cf) (one : Z) (added removed : list Z) : js cf :=
  for_each (filterListeners c) (run_filterListener one added removed) c.

(** ** Groups: adding and removing records *)

(** The local variables of [add] in [group()]. *)
Record addst := AddSt {
  s_groups : list kv;
  s_k : Z;
  s_groupIndex : tarr;
  s_reIndex : tarr;
  s_width : Z;
  s_capacity : Z;
  s_i0 : Z;
  s_i1 : Z
}.

(** [groupIncrement()]: count the group and widen the index as needed. *)
Definition groupIncrement (s : addst) : js addst :=
  let k := s_k s + 1 in
  if k =? s_capacity s then
    let width := js_shl (s_width s) 1 in
    reIndex ← crossfilter_arrayWiden typed (s_reIndex s) width;
    groupIndex ← crossfilter_arrayWiden typed (s_groupIndex s) width;
    Ret (AddSt (s_groups s) k groupIndex reIndex width (crossfilter_capacity width)
               (s_i0 s) (s_i1 s))
  else Ret (AddSt (s_groups s) k (s_groupIndex s) (s_reIndex s) (s_width s) (s_capacity s)
                  (s_i0 s) (s_i1 s)).

(** The records of the added group [e] with key [x]: the inner
    [while (!(x1 > x))] of [add]; it stops at the end of the new values or
    at the first key greater than [x]. *)
Definition group_take (c : cf) (g : grp) (zero : Z) (newValues : list X) (newIndex : tarr)
    (n0 n1 : Z) (k : Z) (x : X) (groupIndex : tarr) (e : kv) (i1 : Z)
    : js (tarr * kv * Z) :=
  loop (S (Z.to_nat (n1 - i1))) (fun '(groupIndex, e, i1) =>
    v ← rd newValues i1;
    let x1 := g_key g v in
    if x1 >. x then Ret (inr (groupIndex, e, i1))
    else
      j0 ← trd newIndex i1;
      let j := j0 + n0 in
      groupIndex ← twr groupIndex j k;
      f ← trd (filters c) j;
      e ← (if truthy (js_and f zero) then Ret e
           else if g_resetNeeded g then Ret (KV (kv_key e) None)
           else r ← rd (data c) j; Ret (reduce_kv (reduceAdd (g_reduce g)) e r));
      let i1 := i1 + 1 in
      if n1 <=? i1 then Ret (inr (groupIndex, e, i1)) else Ret (inl (groupIndex, e, i1)))
    (groupIndex, e, i1).

(** One turn of [while (i1 < n1)]: take the lesser of the current old and
    new keys and add its group. *)
Definition group_merge_step (c : cf) (g : grp) (zero : Z) (newValues : list X) (newIndex : tarr)
    (n0 n1 : Z) (oldGroups : list kv) (s : addst) : js addst :=
  v ← rd newValues (s_i1 s);
  let x1 := g_key g v in
  let fresh := KV x1 (if g_resetNeeded g then None else Some (reduceInitial (g_reduce g))) in
  '(e, reIndex, i0) ←
    match aget oldGroups (s_i0 s) with
    | Some g0 =>
        if kv_key g0 <=. x1 then
          reIndex ← twr (s_reIndex s) (s_i0 s) (s_k s);
          Ret (g0, reIndex, s_i0 s + 1)
        else Ret (fresh, s_reIndex s, s_i0 s)
    | None => Ret (fresh, s_reIndex s, s_i0 s)
    end;
  '(groupIndex, e, i1) ← group_take c g zero newValues newIndex n0 n1 (s_k s) (kv_key e)
                           (s_groupIndex s) e (s_i1 s);
  groupIncrement (AddSt (s_groups s ++ [e]) (s_k s) groupIndex reIndex (s_width s)
                        (s_capacity s) i0 i1).

(** The first new key, skipping the keys that are not comparable. *)
Definition group_first (g : grp) (newValues : list X) (n1 : Z) : js Z :=
  loop (S (Z.to_nat n1)) (fun i1 =>
    if i1 <? n1 then
      v ← rd newValues i1;
      let x1 := g_key g v in
      if x1 >=. x1 then Ret (inr i1) else Ret (inl (i1 + 1))
    else Ret (inr i1)) 0.

(** The whole of [add] in [group()]. *)
Definition group_add (c : cf) (gid : nat) (newValues : list X) (newIndex : tarr) (n0 n1 : Z)
    : js cf :=
  g ← the_grp c gid;
  d ← the_dim c (g_dim g);
  let oldGroups := g_groups g in
  let k0 := g_k g in
  let reIndex := crossfilter_index typed k0 (g_groupCapacity g) in
  groupIndex ← (if k0 >? 1 then
                  match g_groupIndex g with
                  | Some t => Ret (crossfilter_arrayLengthen typed t (n c))
                  | None => Stuck
                  end
                else Ret (crossfilter_index typed (n c) (g_groupCapacity g)));
  i1 ← group_first g newValues n1;
  s ← loop (S (Z.to_nat (n1 + k0))) (fun s =>
        if s_i1 s <? n1 then
          s ← group_merge_step c g (d_zero d) newValues newIndex n0 n1 oldGroups s;
          Ret (inl s)
        else Ret (inr s))
        (AddSt [] 0 groupIndex reIndex (g_groupWidth g) (g_groupCapacity g) 0 i1);
  s ← loop (S (Z.to_nat k0)) (fun s =>
        if s_i0 s <? k0 then
          reIndex ← twr (s_reIndex s) (s_i0 s) (s_k s);
          e ← rd oldGroups (s_i0 s);
          s ← groupIncrement (AddSt (s_groups s ++ [e]) (s_k s) (s_groupIndex s) reIndex
                                    (s_width s) (s_capacity s) (s_i0 s + 1) (s_i1 s));
          Ret (inl s)
        else Ret (inr s)) s;
  groupIndex ← (if s_k s >? s_i0 s then
                  for_ 0 n0 (fun i t =>
                    x ← trd t i;
                    y ← trd (s_reIndex s) x;
                    twr t i y) (s_groupIndex s)
                else Ret (s_groupIndex s));
  let k := s_k s in
  let '(groups, k, groupIndex, update) :=
    if k >? 1 then (s_groups s, k, Some groupIndex, FMany gid)
    else
      let '(groups, k) :=
        if (k =? 0) && g_groupAll g then
          ([KV null (if g_resetNeeded g then None else Some (reduceInitial (g_reduce g)))], 1)
        else (s_groups s, k) in
      if k =? 1 then (groups, k, None, FOne gid) else (groups, k, None, FNull) in
  let g' := Grp (g_dim g) (g_key g) groups groupIndex (s_width s) (s_capacity s) k
                (g_order g) (g_reduce g) update (g_resetNeeded g) (g_groupAll g) in
  Ret (put_grp (set_filterListeners c (replace_first (g_update g) update (filterListeners c)))
               gid g').

Definition with_cardinality (g : grp) (groups : list kv) (groupIndex : option tarr) (k : Z)
    (update : flistener) : grp :=
  Grp (g_dim g) (g_key g) groups groupIndex (g_groupWidth g) (g_groupCapacity g) k
      (g_order g) (g_reduce g) update (g_resetNeeded g) (g_groupAll g).

(** [removeData] of [group()]. *)
Definition group_removeData (c : cf) (gid : nat) : js cf :=
  g ← the_grp c gid;
  if g_k g >? 1 then
    groupIndex ← (match g_groupIndex g with Some t => Ret t | None => Stuck end);
    let oldK := g_k g in
    '(groupIndex, seenGroups, j) ← for_ 0 (n c) (fun i '(groupIndex, seenGroups, j) =>
      x ← trd (filters c) i;
      if truthy x then
        y ← trd groupIndex i;
        groupIndex ← twr groupIndex j y;
        seenGroups ← twr seenGroups y 1;
        Ret (groupIndex, seenGroups, j + 1)
      else Ret (groupIndex, seenGroups, j)) (groupIndex, crossfilter_index typed oldK oldK, 0);
    '(groups, seenGroups, k) ← for_ 0 oldK (fun i '(groups, seenGroups, k) =>
      x ← trd seenGroups i;
      if truthy x then
        seenGroups ← twr seenGroups i k;
        e ← rd (g_groups g) i;
        Ret (groups ++ [e], seenGroups, k + 1)
      else Ret (groups, seenGroups, k)) ([], seenGroups, 0);
    groupIndex ← (if k >? 1 then
                    t ← for_ 0 j (fun i t =>
                      x ← trd t i;
                      y ← trd seenGroups x;
                      twr t i y) groupIndex;
                    Ret (Some t)
                  else Ret None);
    let update := if k >? 1 then FMany gid else if k =? 1 then FOne gid else FNull in
    Ret (put_grp (set_filterListeners c (replace_first (g_update g) update (filterListeners c)))
                 gid (with_cardinality g groups groupIndex k update))
  else if g_k g =? 1 then
    if g_groupAll g then Ret c
    else
      some ← for_ 0 (n c) (fun i (some : bool) =>
        x ← trd (filters c) i;
        Ret (some || truthy x)) false;
      if (some : bool) then Ret c
      else
        Ret (put_grp (set_filterListeners c (replace_first (g_update g) FNull (filterListeners c)))
                     gid (with_cardinality g [] (g_groupIndex g) 0 FNull))
  else Ret c.

(** ** Groups: public methods *)

Definition with_reset (g : grp) (resetNeeded : bool) : grp :=
  Grp (g_dim g) (g_key g) (g_groups g) (g_groupIndex g) (g_groupWidth g) (g_groupCapacity g)
      (g_k g) (g_order g) (g_reduce g) (g_update g) resetNeeded (g_groupAll g).

(** [all()]: the groups, recomputed first when a reset is pending. *)
Definition group_all (c : cf) (gid : nat) : js (cf * list kv) :=
  g ← the_grp c gid;
  if g_resetNeeded g then
    g ← group_reset c g;
    Ret (put_grp c gid (with_reset g false), g_groups g)
  else Ret (c, g_groups g).

(** [valueOf(d)] of [order]. *)
Definition group_valueOf (g : grp) (e : kv) : Z := g_order g (default 0 (kv_value e)).

Definition group_top (c : cf) (gid : nat) (k : Z) : js (cf * list kv) :=
  '(c, groups) ← group_all c gid;
  g ← the_grp c gid;
  top ← heapselect (group_valueOf g) groups 0 (alen groups) k;
  top ← CfHeap.sort (group_valueOf g) top 0 (alen top);
  Ret (c, top).

Definition group_reduce (c : cf) (gid : nat) (r : reducer) : js cf :=
  g ← the_grp c gid;
  Ret (put_grp c gid (Grp (g_dim g) (g_key g) (g_groups g) (g_groupIndex g) (g_groupWidth g)
    (g_groupCapacity g) (g_k g) (g_order g) r (g_update g) true (g_groupAll g))).

Definition count_reducer : reducer :=
  Reducer crossfilter_reduceIncrement crossfilter_reduceDecrement crossfilter_zero.
Definition sum_reducer (value : R -> Z) : reducer :=
  Reducer (crossfilter_reduceAdd value) (crossfilter_reduceSubtract value) crossfilter_zero.

Definition group_reduceCount (c : cf) (gid : nat) : js cf := group_reduce c gid count_reducer.
Definition group_reduceSum (c : cf) (gid : nat) (value : R -> Z) : js cf :=
  group_reduce c gid (sum_reducer value).

Definition group_order (c : cf) (gid : nat) (value : Z -> Z) : js cf :=
  g ← the_grp c gid;
  Ret (put_grp c gid (Grp (g_dim g) (g_key g) (g_groups g) (g_groupIndex g) (g_groupWidth g)
    (g_groupCapacity g) (g_k g) value (g_reduce g) (g_update g) (g_resetNeeded g) (g_groupAll g))).
Definition group_orderNatural (c : cf) (gid : nat) : js cf := group_order c gid crossfilter_identity.

Definition group_size (c : cf) (gid : nat) : js Z := g ← the_grp c gid; Ret (g_k g).

Definition with_indexListeners (d : dim) (l : list nat) : dim :=
  Dim (d_value d) (d_one d) (d_zero d) (d_values d) (d_index d) (d_newValues d) (d_newIndex d)
      (d_refilter d) (d_refilterFunction d) l (d_dimensionGroups d) (d_lo0 d) (d_hi0 d).

Definition set_removeDataListeners (c : cf) (l : list rlistener) : cf :=
  Cf (data c) (n c) (m c) (M c) (filters c) (filterListeners c) (dataListeners c) l
     (dims c) (grps c) (galls c).
Definition set_dataListeners (c : cf) (l : list dlistener) : cf :=
  Cf (data c) (n c) (m c) (M c) (filters c) (filterListeners c) l (removeDataListeners c)
     (dims c) (grps c) (galls c).

(** [dispose] of [group()]. *)
Definition group_dispose (c : cf) (gid : nat) : js cf :=
  g ← the_grp c gid;
  d ← the_dim c (g_dim g);
  let c := set_filterListeners c (splice_one (g_update g) (filterListeners c)) in
  let c := put_dim c (g_dim g) (with_indexListeners d (splice_one gid (d_indexListeners d))) in
  Ret (set_removeDataListeners c (splice_one (RGroup gid) (removeDataListeners c))).

(** ** Dimensions *)

Definition with_bounds (d : dim) (lo0 hi0 : Z) : dim :=
  Dim (d_value d) (d_one d) (d_zero d) (d_values d) (d_index d) (d_newValues d) (d_newIndex d)
      (d_refilter d) (d_refilterFunction d) (d_indexListeners d) (d_dimensionGroups d) lo0 hi0.
Definition with_refilter (d : dim) (r : refilter_fn X) (f : option (X -> Z -> bool)) : dim :=
  Dim (d_value d) (d_one d) (d_zero d) (d_values d) (d_index d) (d_newValues d) (d_newIndex d)
      r f (d_indexListeners d) (d_dimensionGroups d) (d_lo0 d) (d_hi0 d).
Definition with_sorted (d : dim) (values : list X) (index : tarr) (newValues : list X)
    (newIndex : tarr) (lo0 hi0 : Z) : dim :=
  Dim (d_value d) (d_one d) (d_zero d) values index newValues newIndex
      (d_refilter d) (d_refilterFunction d) (d_indexListeners d) (d_dimensionGroups d) lo0 hi0.

(** Merging the old and the new sorted values and ids: the three [for]
    loops of [preAdd]. The result is written from position 0 on. *)
Definition merge_sorted (oldValues : list X) (oldIndex : tarr) (newValues : list X)
    (newIndex : tarr) (n0 n1 : Z) (kind : akind) : js (list X * list Z) :=
  '(values, index, i0, i1) ← loop (S (Z.to_nat (n0 + n1))) (fun '(values, index, i0, i1) =>
    if (i0 <? n0) && (i1 <? n1) then
      o ← rd oldValues i0;
      w ← rd newValues i1;
      if o <. w then
        k ← trd oldIndex i0;
        Ret (inl (values ++ [o], index ++ [tstore kind k], i0 + 1, i1))
      else
        k ← trd newIndex i1;
        Ret (inl (values ++ [w], index ++ [tstore kind (k + n0)], i0, i1 + 1))
    else Ret (inr (values, index, i0, i1))) ([], [], 0, 0);
  '(values, index) ← for_ i0 n0 (fun i0 '(values, index) =>
    o ← rd oldValues i0;
    k ← trd oldIndex i0;
    Ret (values ++ [o], index ++ [tstore kind k])) (values, index);
  for_ i1 n1 (fun i1 '(values, index) =>
    w ← rd newValues i1;
    k ← trd newIndex i1;
    Ret (values ++ [w], index ++ [tstore kind (k + n0)])) (values, index).

(** Which of the new records the current filter leaves out. *)
Definition mark_new (fl : tarr) (d : dim) (newValues : list X) (newIndex : tarr)
    (n0 n1 lo1 hi1 : Z) : js tarr :=
  match d_refilterFunction d with
  | Some f =>
      for_ 0 n1 (fun i fl =>
        v ← rd newValues i;
        if f v i then Ret fl else k ← trd newIndex i; filter_or fl (k + n0) (d_one d)) fl
  | None =>
      fl ← for_ 0 lo1 (fun i fl => k ← trd newIndex i; filter_or fl (k + n0) (d_one d)) fl;
      for_ hi1 n1 (fun i fl => k ← trd newIndex i; filter_or fl (k + n0) (d_one d)) fl
  end.

Definition preAdd (c : cf) (did : nat) (newData : list R) (n0 n1 : Z) : js cf :=
  d ← the_dim c did;
  let newValues := map (d_value d) newData in
  range ← crossfilter_range typed n1;
  sorted ← CfQuicksort.sort (fun i => default undef (aget newValues i)) (tcells range) 0 n1;
  let newIndex := TArr (tkind range) sorted in
  let newValues := permute undef newValues sorted in
  '(lo1, hi1) ← refilter_run (d_refilter d) newValues;
  fl ← mark_new (filters c) d newValues newIndex n0 n1 lo1 hi1;
  let c := set_filters c fl in
  if n0 =? 0 then
    Ret (put_dim c did (with_sorted d newValues newIndex newValues newIndex lo1 hi1))
  else
    let kind := tkind (crossfilter_index typed (n c) (n c)) in
    '(values, index) ← merge_sorted (d_values d) (d_index d) newValues newIndex n0 n1 kind;
    '(lo0, hi0) ← refilter_run (d_refilter d) values;
    Ret (put_dim c did (with_sorted d values (TArr kind index) newValues newIndex lo0 hi0)).

(** [newValues = newIndex = null] only frees memory. *)
Definition postAdd (c : cf) (did : nat) (n0 n1 : Z) : js cf :=
  d ← the_dim c did;
  c ← for_each (d_indexListeners d) (fun g c =>
    group_add c g (d_newValues d) (d_newIndex d) n0 n1) c;
  d ← the_dim c did;
  Ret (put_dim c did (with_sorted d (d_values d) (d_index d) [] (crossfilter_array8 typed 0)
                                  (d_lo0 d) (d_hi0 d))).

(** [removeData] of [dimension()]. *)
Definition dim_removeData (c : cf) (did : nat) (reIndex : tarr) : js cf :=
  d ← the_dim c did;
  '(values, index, j) ← for_ 0 (n c) (fun i '(values, index, j) =>
    k ← trd index i;
    x ← trd (filters c) k;
    if truthy x then
      values ← (if i =? j then Ret values else v ← rd values i; wr values j v);
      k' ← trd reIndex k;
      index ← twr index j k';
      Ret (values, index, j + 1)
    else Ret (values, index, j)) (d_values d, d_index d, 0);
  let values := take (Z.to_nat j) values in
  index ← for_ j (n c) (fun j index => twr index j 0) index;
  '(lo0, hi0) ← refilter_run (d_refilter d) values;
  Ret (put_dim c did (with_sorted d values index (d_newValues d) (d_newIndex d) lo0 hi0)).

(** A run of ids that change sides: [filters[k = index[i]] ^= one] for
    [i] from [i] to [j]. *)
Definition toggle_run (index : tarr) (one i j : Z) (fl : tarr) (ids : list Z) : js (tarr * list Z) :=
  for_ i j (fun i '(fl, ids) =>
    k ← trd index i;
    fl ← filter_xor fl k one;
    Ret (fl, ids ++ [k])) (fl, ids).

(** The scan of [filterIndexFunction]: the bits that do not agree with [f]
    are changed, and their ids recorded. *)
Definition filter_scan (d : dim) (n : Z) (f : X -> Z -> bool) (fl : tarr)
    : js (tarr * list Z * list Z) :=
  for_ 0 n (fun i '(fl, added, removed) =>
    k ← trd (d_index d) i;
    y ← trd fl k;
    v ← rd (d_values d) i;
    let x := f v i in
    if xorb (negb (truthy (js_and y (d_one d)))) x then
      if x then fl ← filter_and fl k (d_zero d); Ret (fl, added ++ [k], removed)
      else fl ← filter_or fl k (d_one d); Ret (fl, added, removed ++ [k])
    else Ret (fl, added, removed)) (fl, [], []).

Definition filterIndexFunction (c : cf) (did : nat) (f : X -> Z -> bool) : js cf :=
  d ← the_dim c did;
  '(fl, added, removed) ← filter_scan d (n c) f (filters c);
  notify_filter (set_filters c fl) (d_one d) added removed.

(** The incremental updates based on the previous [lo] and [hi] index. *)
Definition shift_lo (index : tarr) (one lo0 hi0 lo1 hi1 : Z) (fl : tarr) (added removed : list Z)
    : js (tarr * list Z * list Z) :=
  if lo1 <? lo0 then
    '(fl, added) ← toggle_run index one lo1 (Z.min lo0 hi1) fl added;
    Ret (fl, added, removed)
  else if lo1 >? lo0 then
    '(fl, removed) ← toggle_run index one lo0 (Z.min lo1 hi0) fl removed;
    Ret (fl, added, removed)
  else Ret (fl, added, removed).
Definition shift_hi (index : tarr) (one lo0 hi0 lo1 hi1 : Z) (fl : tarr) (added removed : list Z)
    : js (tarr * list Z * list Z) :=
  if hi1 >? hi0 then
    '(fl, added) ← toggle_run index one (Z.max lo1 hi0) hi1 fl added;
    Ret (fl, added, removed)
  else if hi1 <? hi0 then
    '(fl, removed) ← toggle_run index one (Z.max lo0 hi1) hi0 fl removed;
    Ret (fl, added, removed)
  else Ret (fl, added, removed).

Definition filterIndexBounds (c : cf) (did : nat) (lo1 hi1 : Z) : js cf :=
  d ← the_dim c did;
  match d_refilterFunction d with
  | Some _ =>
      let c := put_dim c did (with_refilter d (d_refilter d) None) in
      c ← filterIndexFunction c did (fun _ i => (lo1 <=? i) && (i <? hi1));
      d ← the_dim c did;
      Ret (put_dim c did (with_bounds d lo1 hi1))
  | None =>
      let lo0 := d_lo0 d in
      let hi0 := d_hi0 d in
      let one := d_one d in
      '(fl, added, removed) ← shift_lo (d_index d) one lo0 hi0 lo1 hi1 (filters c) [] [];
      '(fl, added, removed) ← shift_hi (d_index d) one lo0 hi0 lo1 hi1 fl added removed;
      notify_filter (put_dim (set_filters c fl) did (with_bounds d lo1 hi1)) one added removed
  end.

(** The three filters given by bounds: [refilter] is assigned, then run. *)
Definition filter_by (c : cf) (did : nat) (r : refilter_fn X) : js cf :=
  d ← the_dim c did;
  let c := put_dim c did (with_refilter d r (d_refilterFunction d)) in
  '(lo1, hi1) ← refilter_run r (d_values d);
  filterIndexBounds c did lo1 hi1.
Definition filterExact (c : cf) (did : nat) (value : X) : js cf := filter_by c did (FilterExact value).
Definition filterRange (c : cf) (did : nat) (min max : X) : js cf :=
  filter_by c did (FilterRange min max).
Definition filterAll (c : cf) (did : nat) : js cf := filter_by c did FilterAll.

Definition filterFunction (c : cf) (did : nat) (f : X -> Z -> bool) : js cf :=
  d ← the_dim c did;
  let c := put_dim c did (with_refilter d FilterAll (Some f)) in
  c ← filterIndexFunction c did f;
  d ← the_dim c did;
  Ret (put_dim c did (with_bounds d 0 (n c))).

(** The argument of [filter]: [null], an array, a function, or a value. *)
Inductive filter_arg :=
| ArgNull
| ArgArray (min max : X)
| ArgFunction (f : X -> Z -> bool)
| ArgValue (v : X).

Definition filter (c : cf) (did : nat) (range : filter_arg) : js cf :=
  match range with
  | ArgNull => filterAll c did
  | ArgArray min max => filterRange c did min max
  | ArgFunction f => filterFunction c did f
  | ArgValue v => filterExact c did v
  end.

(** [top(k)] and [bottom(k)]: selected records in the order of the dimension. *)
Definition top (c : cf) (did : nat) (k : Z) : js (list R) :=
  d ← the_dim c did;
  loop (S (Z.to_nat (d_hi0 d - d_lo0 d))) (fun '(array, i, k) =>
    let i := i - 1 in
    if (i >=? d_lo0 d) && (k >? 0) then
      j ← trd (d_index d) i;
      x ← trd (filters c) j;
      if truthy x then Ret (inl (array, i, k))
      else r ← rd (data c) j; Ret (inl (array ++ [r], i, k - 1))
    else Ret (inr array)) ([], d_hi0 d, k).

Definition bottom (c : cf) (did : nat) (k : Z) : js (list R) :=
  d ← the_dim c did;
  loop (S (Z.to_nat (d_hi0 d - d_lo0 d))) (fun '(array, i, k) =>
    if (i <? d_hi0 d) && (k >? 0) then
      j ← trd (d_index d) i;
      x ← trd (filters c) j;
      if truthy x then Ret (inl (array, i + 1, k))
      else r ← rd (data c) j; Ret (inl (array ++ [r], i + 1, k - 1))
    else Ret (inr array)) ([], d_lo0 d, k).

(** [group(key)] of a dimension; [groupAll] is [key === crossfilter_null].
    Returns the number of the new group. *)
Definition group_with (c : cf) (did : nat) (key : X -> X) (groupAll : bool) : js (cf * nat) :=
  d ← the_dim c did;
  let gid := length (grps c) in
  let g := Grp did key [] None 8 (crossfilter_capacity 8) 0 crossfilter_identity count_reducer
               FNull true groupAll in
  let d' := Dim (d_value d) (d_one d) (d_zero d) (d_values d) (d_index d) (d_newValues d)
                (d_newIndex d) (d_refilter d) (d_refilterFunction d)
                (d_indexListeners d ++ [gid]) (d_dimensionGroups d ++ [gid])
                (d_lo0 d) (d_hi0 d) in
  let c := put_dim (set_grps c (grps c ++ [g])) did d' in
  let c := set_filterListeners c (filterListeners c ++ [FNull]) in
  let c := set_removeDataListeners c (removeDataListeners c ++ [RGroup gid]) in
  c ← group_add c gid (d_values d) (d_index d) 0 (n c);
  c ← group_reduceCount c gid;
  c ← group_orderNatural c gid;
  Ret (c, gid).
Definition group (c : cf) (did : nat) (key : X -> X) : js (cf * nat) := group_with c did key false.
Definition dim_groupAll (c : cf) (did : nat) : js (cf * nat) :=
  group_with c did (fun _ => null) true.
(** [value()] of the group [groupAll()] of a dimension returns. *)
Definition dim_groupAll_value (c : cf) (gid : nat) : js (cf * option Z) :=
  '(c, groups) ← group_all c gid;
  e ← rd groups 0;
  Ret (c, kv_value e).

(** [dispose()] of a dimension. *)
Definition dim_dispose (c : cf) (did : nat) : js cf :=
  d ← the_dim c did;
  c ← for_each (d_dimensionGroups d) (fun g c => group_dispose c g) c;
  let c := set_dataListeners c (splice_one (DPost did) (splice_one (DPre did) (dataListeners c))) in
  let c := set_removeDataListeners c (splice_one (RDim did) (removeDataListeners c)) in
  let c := Cf (data c) (n c) (js_and (m c) (d_zero d)) (M c) (filters c) (filterListeners c)
              (dataListeners c) (removeDataListeners c) (dims c) (grps c) (galls c) in
  filterAll c did.

(** ** The crossfilter *)

Definition run_dataListener (newData : list R) (n0 n1 : Z) (l : dlistener) (c : cf) : js cf :=
  match l with
  | DPre d => preAdd c d newData n0 n1
  | DPost d => postAdd c d n0 n1
  | DAll a => groupAll_add c a n0
  end.

Definition add (c : cf) (newData : list R) : js cf :=
  let n0 := n c in
  let n1 := alen newData in
  if n1 =? 0 then Ret c
  else
    let c := Cf (data c ++ newData) (n0 + n1) (m c) (M c)
                (crossfilter_arrayLengthen typed (filters c) (n0 + n1))
                (filterListeners c) (dataListeners c) (removeDataListeners c)
                (dims c) (grps c) (galls c) in
    for_each (dataListeners c) (run_dataListener newData n0 n1) c.

Definition run_removeDataListener (newIndex : tarr) (l : rlistener) (c : cf) : js cf :=
  match l with
  | RDim d => dim_removeData c d newIndex
  | RGroup g => group_removeData c g
  end.

(** [removeData()] of the crossfilter: drops the selected records. *)
Definition removeData (c : cf) : js cf :=
  '(newIndex, removed, _) ← for_ 0 (n c) (fun i '(newIndex, removed, j) =>
    x ← trd (filters c) i;
    if truthy x then newIndex ← twr newIndex i j; Ret (newIndex, removed, j + 1)
    else Ret (newIndex, removed ++ [i], j)) (crossfilter_index typed (n c) (n c), [], 0);
  c ← notify_filter c 0 [] removed;
  c ← for_each (removeDataListeners c) (run_removeDataListener newIndex) c;
  '(fl, dat, j) ← for_ 0 (n c) (fun i '(fl, dat, j) =>
    k ← trd fl i;
    if truthy k then
      '(fl, dat) ← (if i =? j then Ret (fl, dat)
                    else
                      fl ← twr fl j k;
                      r ← rd dat i;
                      dat ← wr dat j r;
                      Ret (fl, dat));
      Ret (fl, dat, j + 1)
    else Ret (fl, dat, j)) (filters c, data c, 0);
  fl ← for_ j (n c) (fun i fl => twr fl i 0) fl;
  Ret (Cf (take (Z.to_nat j) dat) j (m c) (M c) fl (filterListeners c) (dataListeners c)
          (removeDataListeners c) (dims c) (grps c) (galls c)).

(** [dimension(value)]: returns the number of the new dimension. *)
Definition dimension (c : cf) (value : R -> X) : js (cf * nat) :=
  let one := js_and (js_not (m c)) (- js_not (m c)) in
  let zero := js_not one in
  let did := length (dims c) in
  let d := Dim value one zero [] (crossfilter_array8 typed 0) [] (crossfilter_array8 typed 0)
               FilterAll None [] [] 0 0 in
  let m' := js_or (m c) one in
  let M := M c in
  '(fl, M') ← (if (if 32 <=? M then one =? 0 else truthy (js_and m' (- js_shl 1 M))) then
                 let M' := js_shl M 1 in
                 fl ← crossfilter_arrayWiden typed (filters c) M';
                 Ret (fl, M')
               else Ret (filters c, M));
  let c := Cf (data c) (n c) m' M' fl (filterListeners c)
              (DPre did :: dataListeners c ++ [DPost did])
              (removeDataListeners c ++ [RDim did]) (dims c ++ [d]) (grps c) (galls c) in
  c ← preAdd c did (data c) 0 (n c);
  c ← postAdd c did 0 (n c);
  Ret (c, did).

(** [groupAll()] of the crossfilter, its methods, and [size()]. *)
Definition groupAll (c : cf) : js (cf * nat) :=
  let aid := length (galls c) in
  let c := set_galls c (galls c ++ [GAll None count_reducer true]) in
  let c := set_filterListeners c (filterListeners c ++ [FAll aid]) in
  let c := set_dataListeners c (dataListeners c ++ [DAll aid]) in
  c ← groupAll_add c aid 0;
  Ret (c, aid).

Definition groupAll_reduce (c : cf) (aid : nat) (r : reducer) : js cf :=
  a ← the_gall c aid;
  Ret (put_gall c aid (GAll (a_reduceValue a) r true)).
Definition groupAll_reduceCount (c : cf) (aid : nat) : js cf := groupAll_reduce c aid count_reducer.
Definition groupAll_reduceSum (c : cf) (aid : nat) (value : R -> Z) : js cf :=
  groupAll_reduce c aid (sum_reducer value).

Definition groupAll_value (c : cf) (aid : nat) : js (cf * option Z) :=
  a ← the_gall c aid;
  if a_resetNeeded a then
    a ← groupAll_reset c a;
    let a := GAll (a_reduceValue a) (a_reduce a) false in
    Ret (put_gall c aid a, a_reduceValue a)
  else Ret (c, a_reduceValue a).

(** [splice(i)] has no count: listeners registered later go too. *)
Definition groupAll_dispose (c : cf) (aid : nat) : cf :=
  let c := set_filterListeners c (splice_rest (FAll aid) (filterListeners c)) in
  set_dataListeners c (splice_rest (DAll aid) (dataListeners c)).

Definition size (c : cf) : Z := n c.

(** [crossfilter(data)]: an empty crossfilter, then [add]. *)
Definition crossfilter (records : list R) : js cf := add new_crossfilter records.
End crossfilter.
