(* ===== verification/CfInv.v ===== *)
(** * crossfilter: the invariant, and the interface to listeners

    What holds of a crossfilter between calls.  [passes] is what the current
    filter of a dimension says of a value; [dim_ok] relates the sorted values,
    the index and the bounds of a dimension to the records and the filter
    bits; [cf_ok] is the invariant of the whole object.  [filter_change] is
    what a dimension promises when it notifies [filterListeners]: which bit
    changed, and for which records; [FilterListeners] is what it relies on in
    return. *)

From S2P Require Import Prelude.
From S2P Require Import Arrays.
From S2P Require Import CfBisect.
From S2P Require Import CfArray.
From S2P Require Import CfBits.
From S2P Require Import CfCore.

Section inv.
Context {R X : Type} `{JsOrdLaws X} (typed : bool).
Abbreviation cf := (@CfCore.cf R X).
Abbreviation dim := (@CfCore.dim R X).
Implicit Types (c : cf) (d : dim) (fl : tarr).

(** ** Filters *)

(** What the filter in use says of a value. *)
Definition refilter_passes (r : refilter_fn X) (x : X) : bool :=
  match r with
  | FilterAll => true
  | FilterExact v => (v <=. x) && (x <=. v)
  | FilterRange min max => (min <=. x) && (x <. max)
  end.

Definition passes d (x : X) : bool :=
  match d_refilterFunction d with
  | Some f => f x 0
  | None => refilter_passes (d_refilter d) x
  end.

(** Filters that are used as meant: the bounds are comparable values, a
    range is not upside down. *)
Definition refilter_ok (r : refilter_fn X) : Prop :=
  match r with
  | FilterAll => True
  | FilterExact v => natural v
  | FilterRange min max => (min <=. max) = true
  end.

(** A filter function looks at the value only (its second argument is a
    rank, which changes when records are added). *)
Definition value_only (f : X -> Z -> bool) : Prop := forall x i, f x i = f x 0.

(** ** Dimensions *)

(** The dimension's [values] and [index]: the ids of all records, in the
    order of their values. *)
Record ranked (dat : list R) (n : Z) (value : R -> X) (values : list X) (index : list Z) : Prop :=
  Ranked {
    rk_values : alen values = n;
    rk_index : slice index 0 n ≡ₚ seqZ 0 n;
    rk_at : forall i k, 0 <= i < n -> aget index i = Some k ->
              exists r, aget dat k = Some r /\ aget values i = Some (value r);
    rk_sorted : sorted crossfilter_identity values 0 n
  }.

Record dim_ok c d : Prop := DimOk {
  dk_zero : d_zero d = js_not (d_one d);
  dk_ranked : ranked (data c) (n c) (d_value d) (d_values d) (tcells (d_index d));
  dk_refilter : refilter_ok (d_refilter d);
  dk_bounds : refilter_run (d_refilter d) (d_values d) = Ret (d_lo0 d, d_hi0 d);
  dk_function : match d_refilterFunction d with
                | Some f => value_only f /\ d_refilter d = FilterAll
                | None => True
                end;
  dk_bit : exists b, 0 <= b < kind_width (tkind (filters c)) /\ d_one d = bit_one b
    /\ Z.testbit (m c) b = true
    /\ forall k r x, 0 <= k < n c -> aget (data c) k = Some r ->
         aget (tcells (filters c)) k = Some x ->
         Z.testbit x b = negb (passes d (d_value d r));
  dk_fits : forall x, 0 <= x < n c -> tstore (tkind (d_index d)) x = x
}.

(** A dimension that has not been disposed of. *)
Definition live c did d : Prop := dims c !! did = Some d /\ DPre did ∈ dataListeners c.

(** ** The crossfilter *)

(** Records and filter cells, whatever the dimensions. *)
Record base_ok c : Prop := BaseOk {
  bk_n : n c = alen (data c);
  bk_small : n c <= 2 ^ 30;
  bk_m : int32 (m c);
  bk_mask : forall i, M c <= i < 32 -> Z.testbit (m c) i = false;
  bk_len : n c <= tlen (filters c);
  bk_width : M c = 8 \/ M c = 16 \/ M c = 32;
  bk_kind : tkind (filters c) = if typed then AUint (M c) else AUntyped;
  bk_cells : forall k x, aget (tcells (filters c)) k = Some x -> cell_ok (tkind (filters c)) x;
  bk_tail : forall k x, n c <= k -> aget (tcells (filters c)) k = Some x -> x = 0
}.

Record cf_ok c : Prop := CfOk {
  ck_base : base_ok c;
  ck_unused : forall b k x, 0 <= b < 32 -> Z.testbit (m c) b = false ->
                aget (tcells (filters c)) k = Some x -> Z.testbit x b = false;
  ck_owned : forall b, 0 <= b < 32 -> Z.testbit (m c) b = true ->
               exists did d, live c did d /\ d_one d = bit_one b;
  ck_unique : forall did did' d d', live c did d -> live c did' d' ->
                d_one d = d_one d' -> did = did';
  ck_dims : forall did d, live c did d -> dim_ok c d;
  ck_listed : forall did, DPre did ∈ dataListeners c \/ DPost did ∈ dataListeners c ->
                is_Some (dims c !! did);
  ck_order : exists ds rest, dataListeners c = (DPre <$> ds) ++ rest /\ forall did, DPre did ∉ rest;
  ck_nodup : NoDup (dataListeners c)
}.

Lemma bk_kind_ok c : base_ok c -> kind_ok (tkind (filters c)).
Proof. intros Hc. rewrite (bk_kind _ Hc). pose proof (bk_width _ Hc). by destruct typed. Qed.

Lemma bk_nonneg c : base_ok c -> 0 <= n c.
Proof. intros Hc. rewrite (bk_n _ Hc). apply alen_nonneg. Qed.

(** ** The interface to listeners *)

(** [fl'] is [fl] with bit [b] cleared for the records [added] and set for
    the records [removed]. *)
Record filter_change (n b : Z) fl fl' (added removed : list Z) : Prop := FilterChange {
  fc_kind : tkind fl' = tkind fl;
  fc_len : tlen fl' = tlen fl;
  fc_tail : forall k, n <= k -> aget (tcells fl') k = aget (tcells fl) k;
  fc_cells : forall k x, aget (tcells fl') k = Some x -> cell_ok (tkind fl') x;
  fc_other : forall k x x' i, aget (tcells fl) k = Some x -> aget (tcells fl') k = Some x' ->
    0 <= i < kind_width (tkind fl) -> i <> b -> Z.testbit x' i = Z.testbit x i;
  fc_added : forall k, k ∈ added <-> 0 <= k < n /\ exists x x', aget (tcells fl) k = Some x
    /\ aget (tcells fl') k = Some x' /\ Z.testbit x b = true /\ Z.testbit x' b = false;
  fc_removed : forall k, k ∈ removed <-> 0 <= k < n /\ exists x x', aget (tcells fl) k = Some x
    /\ aget (tcells fl') k = Some x' /\ Z.testbit x b = false /\ Z.testbit x' b = true;
  fc_added_nodup : NoDup added;
  fc_removed_nodup : NoDup removed
}.

(** What listeners may change: the state of groups, nothing else. *)
Record same_core c c' : Prop := SameCore {
  sc_data : data c' = data c;
  sc_n : n c' = n c;
  sc_m : m c' = m c;
  sc_M : M c' = M c;
  sc_filters : filters c' = filters c;
  sc_dataListeners : dataListeners c' = dataListeners c;
  sc_removeDataListeners : removeDataListeners c' = removeDataListeners c;
  sc_dims : dims c' = dims c
}.

#[export] Instance same_core_preorder : PreOrder same_core.
Proof. split; [by split|]. intros c1 c2 c3 [] []. by split; etrans. Qed.

(** The invariant only looks at the core. *)
Lemma cf_ok_core c c' : same_core c c' -> cf_ok c -> cf_ok c'.
Proof.
  intros [Ed En Em EM Ef El _ Es] [Hbase ? Howned Hunique Hdims ? ? ?].
  assert (forall did d, live c' did d <-> live c did d) as Hlive
    by (intros; unfold live; by rewrite Es, El).
  assert (forall d, dim_ok c d -> dim_ok c' d) as Hdim.
  { intros d []. split; by rewrite ?Ed, ?En, ?Em, ?Ef. }
  split; [destruct Hbase; split|..]; rewrite ?Ed, ?En, ?Em, ?EM, ?Ef, ?Es, ?El; try done.
  - intros b Hb Hbit. destruct (Howned b Hb Hbit) as (did & d & ? & ?).
    exists did, d. by rewrite Hlive.
  - intros did did' d d'. rewrite !Hlive. apply Hunique.
  - intros did d. rewrite Hlive. eauto.
Qed.

(** Nor at what [postAdd] frees. *)
Lemma cf_ok_dims c c' :
  data c' = data c -> n c' = n c -> m c' = m c -> M c' = M c -> filters c' = filters c ->
  dataListeners c' = dataListeners c -> length (dims c') = length (dims c) ->
  (forall did d, dims c !! did = Some d -> exists d', dims c' !! did = Some d' /\ d_value d' = d_value d /\
     d_one d' = d_one d /\ d_zero d' = d_zero d /\ d_values d' = d_values d /\ d_index d' = d_index d /\
     d_refilter d' = d_refilter d /\ d_refilterFunction d' = d_refilterFunction d /\
     d_lo0 d' = d_lo0 d /\ d_hi0 d' = d_hi0 d) ->
  cf_ok c -> cf_ok c'.
Proof.
  intros Ed En Em EM Ef Edl El Hfwd [Hb Hu Ho Hun Hdi Hli Hor Hno].
  assert (forall did d', dims c' !! did = Some d' -> is_Some (dims c !! did)) as Hback.
  { intros did d' Hd. apply lookup_lt_Some in Hd. apply lookup_lt_is_Some. by rewrite <- El. }
  split; rewrite ?Em, ?Edl, ?Ef; try done.
  - destruct Hb. split; by rewrite ?Ed, ?En, ?Em, ?EM, ?Ef.
  - intros b Hb' Hm. destruct (Ho b Hb' Hm) as (did & d & [Hd Hl] & E).
    destruct (Hfwd did d Hd) as (d' & Hd' & _ & Eo & _). exists did, d'. split; [by split; rewrite ?Edl|congruence].
  - intros e e' de de' [He Hle] [He' Hle'] E. rewrite Edl in Hle, Hle'.
    destruct (Hback e de He) as [d1 Hd1], (Hback e' de' He') as [d2 Hd2].
    destruct (Hfwd e d1 Hd1) as (? & ? & _ & Eo1 & _), (Hfwd e' d2 Hd2) as (? & ? & _ & Eo2 & _).
    eapply Hun; [by split|by split|congruence].
  - intros did d' [Hd' Hl]. rewrite Edl in Hl. destruct (Hback did d' Hd') as [d Hd].
    destruct (Hfwd did d Hd) as (d2 & Hd2 & Ev & Eo & Ez & Evs & Ei & Er & Erf & Elo & Ehi).
    rewrite Hd' in Hd2. injection Hd2 as <-. destruct (Hdi did d (conj Hd Hl)).
    split; rewrite ?Ev, ?Eo, ?Ez, ?Er, ?Erf, ?Evs, ?Ei, ?Elo, ?Ehi, ?Ed, ?En, ?Em, ?Ef; try done.
    unfold passes. by rewrite Er, Erf.
  - intros did Hl. apply Hli in Hl. rewrite lookup_lt_is_Some in *. by rewrite El.
Qed.

End inv.

#[export] Hint Resolve ck_base bk_kind_ok bk_nonneg : cf.

(** What a crossfilter asks of its filter listeners: an invariant [LI] of the
    groups such that notifying them of a change returns, leaves the core of
    the crossfilter alone, and re-establishes the invariant for the new
    filters.  [LI] does not depend on the filter of a dimension, only on its
    bit and its accessor. *)
Class FilterListeners {R X : Type} `{JsOrdLaws X} (typed : bool) (LI : @cf R X -> Prop) : Prop := {
  fl_notify : forall (c : @cf R X) fl' (b : Z) added removed,
    base_ok typed c -> LI c -> 0 <= b < kind_width (tkind (filters c)) ->
    Z.testbit (m c) b = true ->
    filter_change (n c) b (filters c) fl' added removed ->
    wp (notify_filter (set_filters c fl') (bit_one b) added removed) (fun c' =>
      same_core (set_filters c fl') c' /\ LI c');
  fl_dims : forall (c : @cf R X) did d d',
    LI c -> dims c !! did = Some d ->
    d_one d' = d_one d -> d_zero d' = d_zero d -> d_value d' = d_value d ->
    d_indexListeners d' = d_indexListeners d -> d_dimensionGroups d' = d_dimensionGroups d -> LI (put_dim c did d')
}.
