(* ===== verification/CfFilter.v ===== *)
(** * crossfilter: filtering a dimension

    Correctness of [filterExact], [filterRange], [filterAll],
    [filterFunction] and [filter]: both the incremental update of
    [filterIndexBounds] and the scan of [filterIndexFunction] change exactly
    the bits that have to change, tell the listeners which, and preserve the
    invariant. *)

From S2P Require Import Prelude.
From S2P Require Import Arrays.
From S2P Require Import CfBisect.
From S2P Require Import CfArray.
From S2P Require Import CfBits.
From S2P Require Import CfCore.
From S2P Require Import CfInv.

(** ** Changing one bit of one cell *)

Section change.
Implicit Types (fl : tarr) (A D : list Z) (b k n x v : Z).

Lemma filter_change_refl n b fl :
  (forall k x, aget (tcells fl) k = Some x -> cell_ok (tkind fl) x) -> filter_change n b fl fl [] [].
Proof.
  intros Hc. split; try done; try apply NoDup_nil_2.
  - intros k x x' i Hx Hx'. by simplify_eq.
  - intros k. split; [by intros ?%elem_of_nil|]. intros (? & x & x' & ? & ? & ? & ?). simplify_eq. congruence.
  - intros k. split; [by intros ?%elem_of_nil|]. intros (? & x & x' & ? & ? & ? & ?). simplify_eq. congruence.
Qed.

(** [v] is the cell [x] with bit [b] set to [v]'s. *)
Definition bit_changed (kd : akind) b x v : Prop :=
  cell_ok kd v /\ forall i, 0 <= i < kind_width kd -> i <> b -> Z.testbit v i = Z.testbit x i.

Section step.
Context n b fl fl' A D (Hfc : filter_change n b fl fl' A D).
Context k x v (Hk : 0 <= k < n) (HA : k ∉ A) (HD : k ∉ D).
Context (Hx : aget (tcells fl') k = Some x) (Hv : bit_changed (tkind fl') b x v).

Let fl2 := TArr (tkind fl') (aupd (tcells fl') k v).

Lemma step_get j : aget (tcells fl2) j = if decide (k = j) then Some v else aget (tcells fl') j.
Proof. simpl. pose proof (aget_Some _ _ _ Hx). by rewrite aget_aupd by lia. Qed.

(** The cell was not changed yet. *)
Lemma step_old : exists x0, aget (tcells fl) k = Some x0 /\ Z.testbit x0 b = Z.testbit x b
  /\ forall i, 0 <= i < kind_width (tkind fl) -> i <> b -> Z.testbit v i = Z.testbit x0 i.
Proof.
  destruct Hfc. destruct (aget_is_Some (tcells fl) k) as [x0 Hx0].
  { pose proof (aget_Some _ _ _ Hx). unfold tlen in *. lia. }
  exists x0. split_and!; [done| |].
  - destruct (Z.testbit x0 b) eqn:E0, (Z.testbit x b) eqn:E1; try done; exfalso.
    + apply HA, fc_added. eauto 10.
    + apply HD, fc_removed. eauto 10.
  - intros i Hi Hne. rewrite (proj2 Hv) by (by rewrite ?fc_kind). by eapply fc_other.
Qed.

Lemma step_common :
  tlen fl2 = tlen fl
  /\ (forall j, n <= j -> aget (tcells fl2) j = aget (tcells fl) j)
  /\ (forall j y, aget (tcells fl2) j = Some y -> cell_ok (tkind fl2) y)
  /\ (forall j y y' i, aget (tcells fl) j = Some y -> aget (tcells fl2) j = Some y' ->
        0 <= i < kind_width (tkind fl) -> i <> b -> Z.testbit y' i = Z.testbit y i).
Proof.
  destruct step_old as (x0 & Hx0 & _ & Hoth). destruct Hfc. split_and!.
  - unfold tlen. simpl. rewrite alen_aupd. done.
  - intros j Hj. rewrite step_get. case_decide; [lia|by apply fc_tail].
  - intros j y. rewrite step_get. case_decide; [|apply fc_cells].
    intros [= <-]. apply Hv.
  - intros j y y' i Hy. rewrite step_get. case_decide; [|by apply fc_other].
    intros [= <-] Hi Hne. subst j. rewrite Hx0 in Hy. injection Hy as <-. by apply Hoth.
Qed.

(** The set of changed cells gains [k] when the bit goes from [u] to [negb u]. *)
Lemma step_set S u :
  (forall j, j ∈ S <-> 0 <= j < n /\ exists y y', aget (tcells fl) j = Some y
     /\ aget (tcells fl') j = Some y' /\ Z.testbit y b = u /\ Z.testbit y' b = negb u) ->
  Z.testbit v b = negb (Z.testbit x b) ->
  let S' := if bool_decide (Z.testbit x b = u) then S ++ [k] else S in
  forall j, j ∈ S' <-> 0 <= j < n /\ exists y y', aget (tcells fl) j = Some y
     /\ aget (tcells fl2) j = Some y' /\ Z.testbit y b = u /\ Z.testbit y' b = negb u.
Proof.
  intros HS Hvb S' j. destruct step_old as (x0 & Hx0 & Hb0 & _).
  assert (j ∈ S' <-> j ∈ S \/ (j = k /\ Z.testbit x b = u)) as ->.
  { unfold S'. case_bool_decide; [rewrite elem_of_app, list_elem_of_singleton|]; naive_solver. }
  rewrite HS. destruct (decide (j = k)) as [->|Hne].
  - rewrite step_get, decide_True by done. split.
    + intros [(Hj & y & y' & Hy & Hy' & Hu & Hu')|[_ Hu]].
      * exfalso. simplify_eq. rewrite Hb0 in Hu'. by destruct (Z.testbit x b).
      * split; [done|]. exists x0, v. rewrite Hvb, Hb0, Hu. done.
    + intros (Hj & y & y' & Hy & Hy' & Hu & Hu'). simplify_eq. right. done.
  - rewrite step_get, decide_False by done. naive_solver.
Qed.

Lemma filter_change_add :
  Z.testbit x b = true -> Z.testbit v b = false -> filter_change n b fl fl2 (A ++ [k]) D.
Proof.
  intros Hxb Hvb. destruct step_common as (?&?&?&?).
  pose proof (step_set A true (fc_added _ _ _ _ _ _ Hfc) ltac:(by rewrite Hxb)) as SA.
  pose proof (step_set D false (fc_removed _ _ _ _ _ _ Hfc) ltac:(by rewrite Hxb)) as SD.
  rewrite Hxb in SA, SD. simpl in SA, SD.
  split; try done; [apply (fc_kind _ _ _ _ _ _ Hfc)| |apply (fc_removed_nodup _ _ _ _ _ _ Hfc)].
  apply NoDup_app. split_and!; [apply (fc_added_nodup _ _ _ _ _ _ Hfc)| |apply NoDup_singleton].
  intros j Hj ->%list_elem_of_singleton. done.
Qed.

Lemma filter_change_remove :
  Z.testbit x b = false -> Z.testbit v b = true -> filter_change n b fl fl2 A (D ++ [k]).
Proof.
  intros Hxb Hvb. destruct step_common as (?&?&?&?).
  pose proof (step_set A true (fc_added _ _ _ _ _ _ Hfc) ltac:(by rewrite Hxb)) as SA.
  pose proof (step_set D false (fc_removed _ _ _ _ _ _ Hfc) ltac:(by rewrite Hxb)) as SD.
  rewrite Hxb in SA, SD. simpl in SA, SD.
  split; try done; [apply (fc_kind _ _ _ _ _ _ Hfc)|apply (fc_added_nodup _ _ _ _ _ _ Hfc)|].
  apply NoDup_app. split_and!; [apply (fc_removed_nodup _ _ _ _ _ _ Hfc)| |apply NoDup_singleton].
  intros j Hj ->%list_elem_of_singleton. done.
Qed.
End step.

(** The bit of a cell after the change. *)
Lemma filter_change_bit n b fl fl' A D k x x' :
  filter_change n b fl fl' A D -> 0 <= k < n ->
  aget (tcells fl) k = Some x -> aget (tcells fl') k = Some x' ->
  Z.testbit x' b = if bool_decide (k ∈ A) then false
                   else if bool_decide (k ∈ D) then true else Z.testbit x b.
Proof.
  intros [] Hk Hx Hx'. case_bool_decide as HA.
  - apply fc_added in HA as (_ & y & y' & ? & ? & ? & ?). congruence.
  - case_bool_decide as HD.
    + apply fc_removed in HD as (_ & y & y' & ? & ? & ? & ?). congruence.
    + destruct (Z.testbit x b) eqn:E0, (Z.testbit x' b) eqn:E1; try done; exfalso.
      * apply HA, fc_added. eauto 10.
      * apply HD, fc_removed. eauto 10.
Qed.

(** ** The three assignments to a filter *)

Section assign.
Context (kd : akind) (b : Z) (Hkd : kind_ok kd) (Hb : 0 <= b < kind_width kd).

Lemma or_changed x : bit_changed kd b x (tstore kd (js_or x (bit_one b)))
  /\ Z.testbit (tstore kd (js_or x (bit_one b))) b = true.
Proof.
  pose proof (kind_width_range _ Hkd). split; [split|].
  - apply cell_ok_tstore; auto with js_bits.
  - intros i Hi Hne. rewrite testbit_tstore, testbit_js_or, testbit_bit_one by lia.
    rewrite bool_decide_false by done. apply orb_false_r.
  - rewrite testbit_tstore, testbit_js_or, testbit_bit_one by lia.
    rewrite bool_decide_true by done. apply orb_true_r.
Qed.

Lemma and_changed x : bit_changed kd b x (tstore kd (js_and x (js_not (bit_one b))))
  /\ Z.testbit (tstore kd (js_and x (js_not (bit_one b)))) b = false.
Proof.
  pose proof (kind_width_range _ Hkd). split; [split|].
  - apply cell_ok_tstore; auto with js_bits.
  - intros i Hi Hne. rewrite testbit_tstore, testbit_js_and, testbit_js_not, testbit_bit_one by lia.
    rewrite bool_decide_false by done. apply andb_true_r.
  - rewrite testbit_tstore, testbit_js_and, testbit_js_not, testbit_bit_one by lia.
    rewrite bool_decide_true by done. apply andb_false_r.
Qed.

Lemma xor_changed x : bit_changed kd b x (tstore kd (js_xor x (bit_one b)))
  /\ Z.testbit (tstore kd (js_xor x (bit_one b))) b = negb (Z.testbit x b).
Proof.
  pose proof (kind_width_range _ Hkd). split; [split|].
  - apply cell_ok_tstore; auto with js_bits.
  - intros i Hi Hne. rewrite testbit_tstore, testbit_js_xor, testbit_bit_one by lia.
    rewrite bool_decide_false by done. apply xorb_false_r.
  - rewrite testbit_tstore, testbit_js_xor, testbit_bit_one by lia.
    rewrite bool_decide_true by done. apply xorb_true_r.
Qed.

(** [filters[k] & one] is falsy when the bit is 0. *)
Lemma and_one_truthy x : truthy (js_and x (bit_one b)) = Z.testbit x b.
Proof.
  pose proof (kind_width_range _ Hkd). unfold truthy. destruct (Z.testbit x b) eqn:E.
  - apply negb_true_iff, Z.eqb_neq. intros H0.
    assert (Z.testbit (js_and x (bit_one b)) b = true) as Ht.
    { rewrite testbit_js_and, testbit_bit_one, E by lia. by rewrite bool_decide_true. }
    by rewrite H0, Z.bits_0 in Ht.
  - apply negb_false_iff, Z.eqb_eq, int32_ext; [auto with js_bits|unfold int32; lia|].
    intros i Hi. rewrite testbit_js_and, testbit_bit_one, Z.bits_0 by lia.
    case_bool_decide; [subst; by rewrite E|apply andb_false_r].
Qed.
End assign.

(** One assignment that flips bit [b] of cell [k], not changed before. *)
Lemma assign_wp n b fl fl1 A D k x (op : Z -> Z) :
  n <= tlen fl -> filter_change n b fl fl1 A D -> 0 <= k < n -> k ∉ A -> k ∉ D ->
  aget (tcells fl) k = Some x ->
  (forall y, Z.testbit y b = Z.testbit x b -> bit_changed (tkind fl) b y (tstore (tkind fl) (op y))
     /\ Z.testbit (tstore (tkind fl) (op y)) b = negb (Z.testbit x b)) ->
  wp (y ← trd fl1 k; twr fl1 k (op y)) (fun fl2 =>
    if Z.testbit x b then filter_change n b fl fl2 (A ++ [k]) D
    else filter_change n b fl fl2 A (D ++ [k])).
Proof.
  intros Hlen Hf Hk HA HD Hx Hop. pose proof (fc_len _ _ _ _ _ _ Hf).
  destruct (aget_is_Some (tcells fl1) k) as [y Hy]; [unfold tlen in *; lia|].
  pose proof (filter_change_bit _ _ _ _ _ _ _ _ _ Hf Hk Hx Hy) as Hyb.
  rewrite !bool_decide_false in Hyb by done.
  destruct (Hop y Hyb) as [Hch Hbit]. rewrite <- (fc_kind _ _ _ _ _ _ Hf) in Hch, Hbit.
  apply wp_bind. unfold trd. rewrite (rd_Some _ _ _ Hy). simpl. unfold twr.
  apply wp_bind, wp_wr; [by eapply aget_Some|]. simpl.
  destruct (Z.testbit x b) eqn:E.
  - eapply filter_change_add; try done.
  - eapply filter_change_remove; try done.
Qed.
End change.

(** ** Runs of the index *)

Section runs.
Context (n b : Z) (index : tarr) (Hidx : slice (tcells index) 0 n ≡ₚ seqZ 0 n).
Implicit Types (fl : tarr) (A D : list Z) (i j k p : Z).

Lemma index_len : 0 <= n -> n <= tlen index.
Proof.
  intros Hn. apply Permutation_length in Hidx. rewrite length_seqZ in Hidx.
  unfold slice in Hidx. rewrite length_take, length_drop in Hidx. unfold tlen, alen. lia.
Qed.

Lemma index_at p : 0 <= p < n -> exists k, aget (tcells index) p = Some k /\ 0 <= k < n.
Proof.
  intros Hp. pose proof (index_len ltac:(lia)). unfold tlen in *.
  destruct (aget_is_Some (tcells index) p) as [k Hk]; [lia|]. exists k. split; [done|].
  assert (k ∈ slice (tcells index) 0 n) as Hin by (apply elem_of_slice; eauto with lia).
  rewrite Hidx in Hin. apply elem_of_seqZ in Hin. lia.
Qed.

Lemma index_inj p q k :
  0 <= p < n -> 0 <= q < n -> aget (tcells index) p = Some k -> aget (tcells index) q = Some k -> p = q.
Proof.
  intros Hp Hq Hk Hk'. assert (NoDup (slice (tcells index) 0 n)) as Hnd
    by (rewrite Hidx; apply NoDup_seqZ).
  pose proof (index_len ltac:(lia)). unfold tlen in *.
  assert (forall r, 0 <= r < n -> aget (tcells index) r = Some k ->
            slice (tcells index) 0 n !! Z.to_nat r = Some k) as Hs.
  { intros r Hr Hrk. rewrite slice_lookup by lia. by rewrite Z.add_0_l. }
  apply Z2Nat.inj; [lia..|]. eapply NoDup_lookup; [done|by apply Hs..].
Qed.

Lemma elem_of_run i j k :
  0 <= i -> j <= n -> 0 <= n ->
  k ∈ slice (tcells index) i j <-> exists p, i <= p < j /\ aget (tcells index) p = Some k.
Proof.
  intros Hi Hj Hn. pose proof (index_len Hn). unfold tlen in *.
  destruct (decide (i <= j)); [apply elem_of_slice; lia|].
  split; [|intros (p & ? & _); lia]. unfold slice.
  replace (Z.to_nat j - Z.to_nat i)%nat with O by lia. by intros ?%elem_of_nil.
Qed.

(** Membership of a rank's id in a run is membership of the rank. *)
Lemma rank_in_run i j p k :
  0 <= i -> j <= n -> 0 <= p < n -> aget (tcells index) p = Some k ->
  k ∈ slice (tcells index) i j <-> i <= p < j.
Proof.
  intros Hi Hj Hp Hk. rewrite elem_of_run by lia. split; [|eauto].
  intros (q & Hq & Hqk). assert (p = q) as -> by (eapply index_inj; done || lia). done.
Qed.

(** A run of ids whose bit is [u]: they are added ([u = 1]) or removed. *)
Lemma toggle_run_wp (u : bool) fl fl1 A D i j :
  kind_ok (tkind fl) -> 0 <= b < kind_width (tkind fl) ->
  0 <= i <= j -> j <= n -> n <= tlen fl -> filter_change n b fl fl1 A D ->
  (forall p k, i <= p < j -> aget (tcells index) p = Some k -> (k ∉ A) /\ (k ∉ D)
     /\ exists x, aget (tcells fl) k = Some x /\ Z.testbit x b = u) ->
  let run := slice (tcells index) i in
  wp (toggle_run index (bit_one b) i j fl1 (if u then A else D)) (fun '(fl2, ids) =>
    ids = (if u then A else D) ++ run j
    /\ filter_change n b fl fl2 (if u then A ++ run j else A) (if u then D else D ++ run j)).
Proof.
  intros Hkd Hb Hij Hj Hlen Hfc Hrun run. unfold toggle_run.
  apply (wp_for (fun p '(fl2, ids) => ids = (if u then A else D) ++ run p
    /\ filter_change n b fl fl2 (if u then A ++ run p else A) (if u then D else D ++ run p))); [lia| |].
  { unfold run. rewrite slice_nil, !app_nil_r. by destruct u. }
  intros p [fl2 ids] Hp [-> Hf]. destruct (index_at p) as (k & Hk & Hkn); [lia|].
  destruct (Hrun p k Hp Hk) as (HA & HD & x & Hx & Hxb).
  assert (k ∉ run p) as Hr by (unfold run; rewrite (rank_in_run i p p k) by (done || lia); lia).
  assert (run (p + 1) = run p ++ [k]) as Hsnoc by (apply slice_snoc; done || lia).
  apply wp_bind. unfold trd. rewrite (rd_Some _ _ _ Hk). simpl. apply wp_bind.
  eapply wp_mono.
  - eapply (assign_wp n b fl fl2 _ _ k x (fun y => js_xor y (bit_one b))); try done.
    + destruct u; [rewrite not_elem_of_app|]; done.
    + destruct u; [|rewrite not_elem_of_app]; done.
    + intros y <-. by apply xor_changed.
  - intros fl3. rewrite Hxb, Hsnoc. by destruct u; rewrite !app_assoc.
Qed.
End runs.

(** ** From filters to bounds *)

Section bounds.
Context {X : Type} `{JsOrdLaws X}.
Implicit Types (values : list X) (r : refilter_fn X).

Definition in_range (lo hi p : Z) : bool := (lo <=? p) && (p <? hi).

Lemma in_range_true lo hi p : in_range lo hi p = true <-> lo <= p < hi.
Proof. unfold in_range. rewrite andb_true_iff, Z.leb_le, Z.ltb_lt. lia. Qed.

(** The bounds [lo] and [hi] enclose the ranks of the values that pass. *)
Definition bounds_ok r values (lo hi : Z) : Prop :=
  0 <= lo <= hi /\ hi <= alen values /\
  forall p x, aget values p = Some x -> refilter_passes r x = in_range lo hi p.

Lemma bisect_split values (lo hi : Z) (P Q : X -> bool) r :
  0 <= lo <= alen values -> 0 <= hi <= alen values ->
  reg values 0 lo (fun x => P x = false) -> reg values lo (alen values) (fun x => P x = true) ->
  reg values 0 hi (fun x => Q x = true) -> reg values hi (alen values) (fun x => Q x = false) ->
  (forall x, refilter_passes r x = P x && Q x) -> lo <= hi -> bounds_ok r values lo hi.
Proof.
  intros Hlo Hhi P1 P2 Q1 Q2 Hr Hle. split_and!; [lia..|]. intros p x Hx.
  pose proof (aget_Some _ _ _ Hx). rewrite Hr. unfold in_range. f_equal.
  - destruct (Z.leb_spec lo p); [apply (P2 p); done || lia|apply (P1 p); done || lia].
  - destruct (Z.ltb_spec p hi); [apply (Q1 p); done || lia|apply (Q2 p); done || lia].
Qed.

Lemma refilter_run_wp r values :
  refilter_ok r -> alen values <= 2 ^ 31 -> sorted crossfilter_identity values 0 (alen values) ->
  wp (refilter_run r values) (fun '(lo, hi) => bounds_ok r values lo hi).
Proof.
  intros Hr Hlen Hs. pose proof (alen_nonneg values).
  pose proof (sorted_natural _ _ _ _ Hs) as Hnat. destruct r as [|v|min max]; simpl.
  - split_and!; [lia..|]. intros p x Hx. symmetry. apply in_range_true. by eapply aget_Some.
  - apply wp_bind. eapply wp_mono; [apply bisectLeft_wp; done || lia|]. intros lo (Hlo & L1 & L2).
    apply wp_bind. eapply wp_mono; [apply bisectRight_wp; done || lia|]. intros hi (Hhi & R1 & R2).
    apply (bisect_split values lo hi (fun x => v <=. x) (fun x => x <=. v)); try done || lia.
    + intros p x Hp Hx. apply jle_false; [done|apply (Hnat p); done || lia|apply (L1 p); done || lia].
    + intros p x Hp Hx. apply jle_false; [apply (Hnat p); done || lia|done|apply (R2 p); done || lia].
    + destruct (decide (lo <= hi)); [done|]. destruct (aget_is_Some values hi) as [x Hx]; [lia|].
      pose proof (L1 hi x ltac:(lia) Hx) as Hl. pose proof (R2 hi x ltac:(lia) Hx) as Hg.
      simpl in *. pose proof (jlt_le_trans _ _ _ Hl (jlt_le _ _ Hg)) as Hc.
      by rewrite jlt_irrefl in Hc.
  - destruct (jle_natural _ _ Hr) as [Hn1 Hn2].
    apply wp_bind. eapply wp_mono; [apply bisectLeft_wp; done || lia|]. intros lo (Hlo & L1 & L2).
    apply wp_bind. eapply wp_mono; [apply bisectLeft_wp; done || lia|]. intros hi (Hhi & R1 & R2).
    apply (bisect_split values lo hi (fun x => min <=. x) (fun x => x <. max)); try done || lia.
    + intros p x Hp Hx. apply jle_false; [done|apply (Hnat p); done || lia|apply (L1 p); done || lia].
    + intros p x Hp Hx. apply jlt_false; [apply (Hnat p); done || lia|done|apply (R2 p); done || lia].
    + destruct (decide (lo <= hi)); [done|]. destruct (aget_is_Some values hi) as [x Hx]; [lia|].
      pose proof (L1 hi x ltac:(lia) Hx) as Hl. pose proof (R2 hi x ltac:(lia) Hx) as Hg.
      simpl in *. pose proof (jlt_le_trans _ _ _ Hl Hr) as Hc.
      pose proof (jlt_le_trans _ _ _ Hc Hg) as Hd. by rewrite jlt_irrefl in Hd.
Qed.
End bounds.

(** ** The incremental update *)

Section shift.
Context (n b : Z) (index fl : tarr) (lo hi lo' hi' : Z).
Context (Hidx : slice (tcells index) 0 n ≡ₚ seqZ 0 n).
Context (Hkd : kind_ok (tkind fl)) (Hb : 0 <= b < kind_width (tkind fl)) (Hlen : n <= tlen fl).
Context (Hcells : forall k x, aget (tcells fl) k = Some x -> cell_ok (tkind fl) x).
Context (Hold : 0 <= lo <= hi /\ hi <= n) (Hnew : 0 <= lo' <= hi' /\ hi' <= n).
Context (Hbits : forall p k, 0 <= p < n -> aget (tcells index) p = Some k ->
  exists x, aget (tcells fl) k = Some x /\ Z.testbit x b = negb (in_range lo hi p)).

(** Which ranks are in the two lists after the first and the second step. *)
Definition lo_moved fl1 (A D : list Z) : Prop :=
  filter_change n b fl fl1 A D /\
  forall p k, 0 <= p < n -> aget (tcells index) p = Some k ->
    (k ∈ A <-> lo' <= p < Z.min lo hi') /\ (k ∈ D <-> lo <= p < Z.min lo' hi).

Definition all_moved fl2 (A D : list Z) : Prop :=
  filter_change n b fl fl2 A D /\
  forall p k, 0 <= p < n -> aget (tcells index) p = Some k ->
    (k ∈ A <-> lo' <= p < hi' /\ ~ lo <= p < hi) /\ (k ∈ D <-> lo <= p < hi /\ ~ lo' <= p < hi').

Lemma range_bit p k (u : bool) :
  0 <= p < n -> aget (tcells index) p = Some k -> (u = false <-> lo <= p < hi) ->
  exists x, aget (tcells fl) k = Some x /\ Z.testbit x b = u.
Proof.
  intros Hp Hk Hu. destruct (Hbits p k Hp Hk) as (x & Hx & Hxb). exists x. split; [done|].
  rewrite Hxb, <- in_range_true in *. destruct (in_range lo hi p), u; simpl; naive_solver.
Qed.

Lemma shift_lo_wp :
  wp (shift_lo index (bit_one b) lo hi lo' hi' fl [] []) (fun '(fl1, A, D) => lo_moved fl1 A D).
Proof.
  pose proof (filter_change_refl n b fl Hcells) as Hrefl.
  unfold shift_lo. destruct (Z.ltb_spec lo' lo); [|destruct (Z.gtb_spec lo' lo)]; [apply wp_bind..|].
  - eapply wp_mono; [apply (toggle_run_wp n b index Hidx true fl fl [] []); try done || lia|].
    + intros p k Hp Hk. split_and!; [apply not_elem_of_nil..|]. apply (range_bit p); done || lia.
    + intros [fl1 A] [-> Hfc]. split; [done|]. intros p k Hp Hk. simpl.
      rewrite (rank_in_run n index Hidx _ _ p) by (done || lia). rewrite elem_of_nil. lia.
  - eapply wp_mono; [apply (toggle_run_wp n b index Hidx false fl fl [] []); try done || lia|].
    + intros p k Hp Hk. split_and!; [apply not_elem_of_nil..|]. apply (range_bit p); done || lia.
    + intros [fl1 D] [-> Hfc]. split; [done|]. intros p k Hp Hk. simpl.
      rewrite (rank_in_run n index Hidx _ _ p) by (done || lia). rewrite elem_of_nil. lia.
  - split; [done|]. intros p k Hp Hk. rewrite !elem_of_nil. lia.
Qed.

Lemma shift_hi_wp fl1 A D :
  lo_moved fl1 A D ->
  wp (shift_hi index (bit_one b) lo hi lo' hi' fl1 A D) (fun '(fl2, A', D') => all_moved fl2 A' D').
Proof.
  intros [Hfc Hm]. unfold shift_hi.
  destruct (Z.gtb_spec hi' hi); [|destruct (Z.ltb_spec hi' hi)]; [apply wp_bind..|].
  - eapply wp_mono; [apply (toggle_run_wp n b index Hidx true fl fl1 A D); try done || lia|].
    + intros p k Hp Hk. destruct (Hm p k) as [-> ->]; [lia|done|].
      split_and!; [lia..|]. apply (range_bit p); done || lia.
    + intros [fl2 A'] [-> Hfc2]. split; [done|]. intros p k Hp Hk.
      destruct (Hm p k) as [HA HD]; [lia|done|]. rewrite elem_of_app, HA, HD.
      rewrite (rank_in_run n index Hidx _ _ p) by (done || lia). lia.
  - eapply wp_mono; [apply (toggle_run_wp n b index Hidx false fl fl1 A D); try done || lia|].
    + intros p k Hp Hk. destruct (Hm p k) as [-> ->]; [lia|done|].
      split_and!; [lia..|]. apply (range_bit p); done || lia.
    + intros [fl2 D'] [-> Hfc2]. split; [done|]. intros p k Hp Hk.
      destruct (Hm p k) as [HA HD]; [lia|done|]. rewrite elem_of_app, HA, HD.
      rewrite (rank_in_run n index Hidx _ _ p) by (done || lia). lia.
  - split; [done|]. intros p k Hp Hk. destruct (Hm p k) as [-> ->]; [lia|done|]. lia.
Qed.

(** The bits after both steps are those of the new bounds. *)
Lemma all_moved_bits fl2 A D p k x :
  all_moved fl2 A D -> 0 <= p < n -> aget (tcells index) p = Some k ->
  aget (tcells fl2) k = Some x -> Z.testbit x b = negb (in_range lo' hi' p).
Proof.
  intros [Hfc Hm] Hp Hk Hx. destruct (Hm p k Hp Hk) as [HA HD].
  destruct (Hbits p k Hp Hk) as (x0 & Hx0 & Hb0).
  destruct (index_at n index Hidx p Hp) as (k' & Hk' & Hkn). rewrite Hk in Hk'. injection Hk' as <-.
  rewrite (filter_change_bit _ _ _ _ _ _ _ _ _ Hfc Hkn Hx0 Hx), Hb0.
  rewrite (bool_decide_ext _ _ HA), (bool_decide_ext _ _ HD). unfold in_range.
  destruct (Z.leb_spec lo p), (Z.ltb_spec p hi), (Z.leb_spec lo' p), (Z.ltb_spec p hi'); simpl;
    repeat case_bool_decide; done || lia.
Qed.
End shift.

(** ** Dimensions *)

Section dimension.
Context {R X : Type} `{JsOrdLaws X} (typed : bool) (LI : @cf R X -> Prop).
Context `{!FilterListeners typed LI}.
Abbreviation cf := (@CfCore.cf R X).
Abbreviation dim := (@CfCore.dim R X).
Implicit Types (c : cf) (d : dim) (fl : tarr) (f : X -> Z -> bool).

Lemma rank_value dat n value values index p :
  ranked (R := R) dat n value values index -> 0 <= p < n -> exists v, aget values p = Some v.
Proof. intros Hr Hp. apply aget_is_Some. rewrite (rk_values _ _ _ _ _ Hr). done. Qed.

(** ** The scan *)

Section scan.
Context d (n b : Z) f fl (dat : list R).
Context (Hrk : ranked dat n (d_value d) (d_values d) (tcells (d_index d))).
Context (Hkd : kind_ok (tkind fl)) (Hb : 0 <= b < kind_width (tkind fl)) (Hlen : n <= tlen fl).
Context (Hone : d_one d = bit_one b) (Hzero : d_zero d = js_not (bit_one b)).

(** The lists after the first [i] ranks. *)
Definition scanned (i : Z) (A D : list Z) : Prop :=
  forall p k v x, 0 <= p < n -> aget (tcells (d_index d)) p = Some k ->
    aget (d_values d) p = Some v -> aget (tcells fl) k = Some x ->
    (k ∈ A <-> p < i /\ Z.testbit x b = true /\ f v p = true)
    /\ (k ∈ D <-> p < i /\ Z.testbit x b = false /\ f v p = false).

Lemma scanned_step i k v x A D :
  0 <= i < n -> aget (tcells (d_index d)) i = Some k -> aget (d_values d) i = Some v ->
  aget (tcells fl) k = Some x -> scanned i A D ->
  scanned (i + 1) (if Z.testbit x b && f v i then A ++ [k] else A)
                  (if negb (Z.testbit x b) && negb (f v i) then D ++ [k] else D).
Proof.
  intros Hi Hk Hv Hx Hs p k0 v0 x0 Hp Hk0 Hv0 Hx0.
  destruct (Hs p k0 v0 x0 Hp Hk0 Hv0 Hx0) as [HA HD].
  destruct (decide (p = i)) as [->|Hne].
  - rewrite Hk in Hk0. rewrite Hv in Hv0. injection Hk0 as <-. injection Hv0 as <-.
    rewrite Hx in Hx0. injection Hx0 as <-.
    destruct (Z.testbit x b), (f v i); simpl;
      rewrite ?elem_of_app, ?list_elem_of_singleton, HA, HD; lia || naive_solver lia.
  - assert (k0 <> k) by (intros ->; apply Hne; eapply (index_inj n (d_index d)); try done; apply Hrk).
    destruct (Z.testbit x b), (f v i); simpl;
      rewrite ?elem_of_app, ?list_elem_of_singleton, HA, HD; naive_solver lia.
Qed.

Lemma filter_scan_wp :
  0 <= n -> (forall k x, aget (tcells fl) k = Some x -> cell_ok (tkind fl) x) ->
  wp (filter_scan d n f fl) (fun '(fl', A, D) => filter_change n b fl fl' A D /\ scanned n A D).
Proof.
  intros Hn Hcells. pose proof (rk_index _ _ _ _ _ Hrk) as Hidx. unfold filter_scan.
  apply (wp_for (fun i '(fl', A, D) => filter_change n b fl fl' A D /\ scanned i A D)); [done| |].
  { split; [by apply filter_change_refl|]. intros p k v x Hp _ _ _. rewrite !elem_of_nil. lia. }
  intros i [[fl1 A] D] Hi (Hfc & Hs).
  destruct (index_at n _ Hidx i Hi) as (k & Hk & Hkn).
  destruct (aget_is_Some (tcells fl) k) as [x Hx]; [unfold tlen in *; lia|].
  destruct (aget_is_Some (tcells fl1) k) as [y Hy].
  { pose proof (fc_len _ _ _ _ _ _ Hfc). unfold tlen in *. lia. }
  destruct (rank_value _ _ _ _ _ i Hrk Hi) as [v Hv].
  destruct (Hs i k v x Hi Hk Hv Hx) as [HA HD].
  assert (k ∉ A) as HkA by (rewrite HA; lia). assert (k ∉ D) as HkD by (rewrite HD; lia).
  pose proof (filter_change_bit _ _ _ _ _ _ _ _ _ Hfc Hkn Hx Hy) as Hyb.
  rewrite !bool_decide_false in Hyb by done.
  pose proof (scanned_step i k v x A D Hi Hk Hv Hx Hs) as Hs'.
  unfold trd at 1 2. rewrite (rd_Some _ _ _ Hk). simpl. rewrite (rd_Some _ _ _ Hy). simpl.
  rewrite (rd_Some _ _ _ Hv), Hone, Hzero. simpl.
  rewrite and_one_truthy with (kd := tkind fl), Hyb by done.
  destruct (Z.testbit x b) eqn:Exb, (f v i) eqn:Ef; simpl in *; try done; apply wp_bind.
  - eapply wp_mono; [eapply (assign_wp n b fl fl1 A D k x (fun y => js_and y (js_not (bit_one b))));
      try done|].
    + intros z _. rewrite Exb. by apply and_changed.
    + intros fl2. by rewrite Exb.
  - eapply wp_mono; [eapply (assign_wp n b fl fl1 A D k x (fun y => js_or y (bit_one b))); try done|].
    + intros z _. rewrite Exb. by apply or_changed.
    + intros fl2. by rewrite Exb.
Qed.

Lemma scanned_bits fl' A D p k v x :
  filter_change n b fl fl' A D -> scanned n A D -> 0 <= p < n ->
  aget (tcells (d_index d)) p = Some k -> aget (d_values d) p = Some v ->
  aget (tcells fl') k = Some x -> Z.testbit x b = negb (f v p).
Proof.
  intros Hfc Hs Hp Hk Hv Hx.
  destruct (index_at n _ (rk_index _ _ _ _ _ Hrk) p Hp) as (k' & Hk' & Hkn).
  rewrite Hk in Hk'. injection Hk' as <-.
  destruct (aget_is_Some (tcells fl) k) as [x0 Hx0]; [unfold tlen in *; lia|].
  destruct (Hs p k v x0 Hp Hk Hv Hx0) as [HA HD].
  rewrite (filter_change_bit _ _ _ _ _ _ _ _ _ Hfc Hkn Hx0 Hx).
  rewrite (bool_decide_ext _ _ HA), (bool_decide_ext _ _ HD).
  destruct (Z.testbit x0 b), (f v p); repeat case_bool_decide; simpl in *; done || intuition lia.
Qed.
End scan.
End dimension.
