(* ===== verification/CfSelect.v ===== *)
(** * crossfilter: the filter methods and the selection

    The public filter methods preserve the invariant of [CfInv] and make a
    dimension select what they are asked to; a record is selected when every
    dimension lets it pass; [top] and [bottom] return selected records in the
    order of the dimension. *)

From S2P Require Import Prelude.
From S2P Require Import Arrays.
From S2P Require Import CfBisect.
From S2P Require Import CfArray.
From S2P Require Import CfBits.
From S2P Require Import CfCore.
From S2P Require Import CfInv.
From S2P Require Import CfFilter.

Section select.
Context {R X : Type} `{JsOrdLaws X} (typed : bool).
Abbreviation cf := (@CfCore.cf R X).
Abbreviation dim := (@CfCore.dim R X).
Implicit Types (c : cf) (d : dim) (fl : tarr) (f : X -> Z -> bool) (r : refilter_fn X).

(** ** Looking up and replacing a dimension *)

Lemma the_dim_ret c did d : dims c !! did = Some d -> the_dim c did = Ret d.
Proof. unfold the_dim. by intros ->. Qed.

Lemma put_dim_lookup c did d d' : dims c !! did = Some d -> dims (put_dim c did d') !! did = Some d'.
Proof. intros Hd. simpl. apply list_lookup_insert_eq. by eapply lookup_lt_Some. Qed.

Lemma put_dim_put c did d d' : put_dim (put_dim c did d) did d' = put_dim c did d'.
Proof. unfold put_dim, set_dims. simpl. by rewrite list_insert_insert_eq. Qed.

Lemma put_dim_filters c fl did d d' :
  put_dim (set_filters (put_dim c did d) fl) did d' = set_filters (put_dim c did d') fl.
Proof. unfold put_dim, set_dims, set_filters. simpl. by rewrite list_insert_insert_eq. Qed.

Lemma live_put c did d d' did' d'' :
  live c did d -> live (put_dim c did d') did' d'' ->
  (did' = did /\ d'' = d') \/ (did' <> did /\ live c did' d'').
Proof.
  intros [Hd _] [Hd' Hl]. simpl in *. destruct (decide (did' = did)) as [->|Hne].
  - left. rewrite list_lookup_insert_eq in Hd' by (by eapply lookup_lt_Some). by simplify_eq.
  - right. rewrite list_lookup_insert_ne in Hd' by done. done.
Qed.

Lemma live_put_same c did d d' : live c did d -> live (put_dim c did d') did d'.
Proof. intros [Hd Hl]. split; [by eapply put_dim_lookup|done]. Qed.

Lemma live_put_other c did d' did' d'' :
  did' <> did -> live c did' d'' -> live (put_dim c did d') did' d''.
Proof. intros Hne [Hd Hl]. split; [|done]. simpl. by rewrite list_lookup_insert_ne. Qed.

(** Every record has a rank. *)
Lemma rank_of dat (n : Z) value (values : list X) index k :
  ranked (R := R) dat n value values index -> 0 <= k < n ->
  exists p, 0 <= p < n /\ aget index p = Some k.
Proof.
  intros Hr Hk. assert (n <= alen index).
  { apply (index_len n (TArr AUntyped index)); [apply Hr|lia]. }
  assert (k ∈ slice index 0 n) as Hin.
  { rewrite (rk_index _ _ _ _ _ Hr). apply elem_of_seqZ. lia. }
  apply elem_of_slice in Hin as (p & Hp & Hpk); [eauto|lia|lia].
Qed.

(** ** Preservation of the invariant *)

(** What a filter method may change in its dimension. *)
Record same_dim d d' : Prop := SameDim {
  sd_value : d_value d' = d_value d;
  sd_one : d_one d' = d_one d;
  sd_zero : d_zero d' = d_zero d;
  sd_values : d_values d' = d_values d;
  sd_index : d_index d' = d_index d
}.

Lemma bit_one_inj b b' : 0 <= b < 32 -> 0 <= b' < 32 -> bit_one b = bit_one b' -> b = b'.
Proof.
  intros Hb Hb' He. pose proof (testbit_bit_one b b ltac:(lia) Hb) as Ht.
  rewrite He, testbit_bit_one in Ht by lia. rewrite (bool_decide_true (b = b)) in Ht by done.
  by apply bool_decide_eq_true in Ht.
Qed.

Section filtered.
Context c (Hc : cf_ok typed c) (did : nat) d d' (b : Z) fl' (A D : list Z).
Context (Hl : live c did d) (Hsd : same_dim d d').
Context (Hb : 0 <= b < kind_width (tkind (filters c))) (Hone : d_one d = bit_one b).
Context (Hm : Z.testbit (m c) b = true).
Context (Hfc : filter_change (n c) b (filters c) fl' A D).

Let c' := put_dim (set_filters c fl') did d'.

Lemma filtered_base : base_ok typed c'.
Proof.
  destruct Hfc. destruct (ck_base _ _ Hc). split; simpl; try done; rewrite ?fc_kind; try done.
  - by rewrite fc_len.
  - intros k x Hk. rewrite fc_tail by done. by apply bk_tail.
Qed.

(** A cell of the new filters was a cell of the old ones. *)
Lemma filtered_cell k x' :
  aget (tcells fl') k = Some x' -> exists x, aget (tcells (filters c)) k = Some x
    /\ forall i, 0 <= i < kind_width (tkind (filters c)) -> i <> b -> Z.testbit x' i = Z.testbit x i.
Proof.
  destruct Hfc. intros Hx'. destruct (aget_is_Some (tcells (filters c)) k) as [x Hx].
  { apply aget_Some in Hx'. unfold tlen in *. lia. }
  exists x. split; [done|]. intros. by eapply fc_other.
Qed.

Lemma filtered_dim_other did2 d2 : did2 <> did -> live c did2 d2 -> dim_ok c' d2.
Proof.
  intros Hne Hl2. destruct (ck_dims _ _ Hc _ _ Hl2) as [? ? ? ? ? (b2 & Hb2 & Hone2 & Hm2 & Hbits) ?].
  pose proof (kind_width_range _ (bk_kind_ok _ _ (ck_base _ _ Hc))).
  assert (b2 <> b).
  { intros ->. apply Hne. eapply (ck_unique _ _ Hc); [done..|]. congruence. }
  split; try done. exists b2. simpl. rewrite (fc_kind _ _ _ _ _ _ Hfc). split_and!; try done; try lia.
  intros k r x' Hk Hr Hx'. destruct (filtered_cell k x' Hx') as (x & Hx & Hoth).
  rewrite Hoth by done. by eapply Hbits.
Qed.

Lemma filtered_ok :
  refilter_ok (d_refilter d') -> refilter_run (d_refilter d') (d_values d) = Ret (d_lo0 d', d_hi0 d') ->
  match d_refilterFunction d' with Some f => value_only f /\ d_refilter d' = FilterAll | None => True end ->
  (forall p k v x, 0 <= p < n c -> aget (tcells (d_index d)) p = Some k ->
     aget (d_values d) p = Some v -> aget (tcells fl') k = Some x ->
     Z.testbit x b = negb (passes d' v)) ->
  cf_ok typed c'.
Proof.
  intros Hr Hrun Hfn Hbits. destruct Hsd as [Ev Eo Ez Evs Ei].
  pose proof (kind_width_range _ (bk_kind_ok _ _ (ck_base _ _ Hc))) as Hw.
  assert (Hl' : live (set_filters c fl') did d) by exact Hl.
  split.
  - apply filtered_base.
  - intros i k x' Hi Hmi Hx'. destruct (filtered_cell k x' Hx') as (x & Hx & Hoth).
    destruct (decide (i < kind_width (tkind (filters c)))).
    + rewrite Hoth; [by apply (ck_unused _ _ Hc i k x)|lia|]. intros ->. simpl in Hmi. congruence.
    + apply (cell_ok_high (tkind fl')); [..|by apply (fc_cells _ _ _ _ _ _ Hfc k)|];
        rewrite (fc_kind _ _ _ _ _ _ Hfc); [by eapply bk_kind_ok, ck_base|lia].
  - intros i Hi Hmi. destruct (ck_owned _ _ Hc i Hi Hmi) as (did2 & d2 & Hl2 & Ho2).
    destruct (decide (did2 = did)) as [->|Hne].
    + exists did, d'. split; [by eapply live_put_same|]. rewrite Eo.
      assert (d2 = d) by (destruct Hl, Hl2; congruence). congruence.
    + exists did2, d2. split; [by apply live_put_other|done].
  - intros e e' de de' He He'.
    destruct (live_put _ _ _ _ _ _ Hl' He) as [[-> ->]|[Hne Hle]],
      (live_put _ _ _ _ _ _ Hl' He') as [[-> ->]|[Hne' Hle']]; rewrite ?Eo; try done; intros Heq;
      by eapply (ck_unique _ _ Hc).
  - intros e de He. destruct (live_put _ _ _ _ _ _ Hl' He) as [[-> ->]|[Hne Hle]];
      [|by eapply filtered_dim_other].
    destruct (ck_dims _ _ Hc _ _ Hl) as [Hz Hrk ? ? ? ?].
    split; rewrite ?Ev, ?Eo, ?Ez, ?Evs, ?Ei; try done. exists b. simpl.
    rewrite (fc_kind _ _ _ _ _ _ Hfc). split_and!; try done; try lia.
    intros k r x Hk Hrec Hx. destruct (rank_of _ _ _ _ _ k Hrk Hk) as (p & Hp & Hpk).
    destruct (rk_at _ _ _ _ _ Hrk p k Hp Hpk) as (r' & Hr' & Hv). rewrite Hrec in Hr'.
    injection Hr' as <-. by eapply Hbits.
  - intros e He. simpl in *. apply (ck_listed _ _ Hc) in He. 
    rewrite lookup_lt_is_Some in *. by rewrite length_insert.
  - apply (ck_order _ _ Hc).
  - apply (ck_nodup _ _ Hc).
Qed.
End filtered.

(** ** The filter methods *)

Section methods.
Context (LI : cf -> Prop) `{!FilterListeners typed LI}.

(** [filterIndexFunction]: the bits become those of [f], the listeners know. *)
Lemma filterIndexFunction_wp c did d b f :
  base_ok typed c -> LI c -> dims c !! did = Some d ->
  0 <= b < kind_width (tkind (filters c)) -> Z.testbit (m c) b = true ->
  d_one d = bit_one b -> d_zero d = js_not (bit_one b) ->
  ranked (data c) (n c) (d_value d) (d_values d) (tcells (d_index d)) ->
  wp (filterIndexFunction c did f) (fun c' => LI c' /\ exists fl' A D,
    same_core (set_filters c fl') c' /\ filter_change (n c) b (filters c) fl' A D /\
    forall p k v x, 0 <= p < n c -> aget (tcells (d_index d)) p = Some k ->
      aget (d_values d) p = Some v -> aget (tcells fl') k = Some x ->
      Z.testbit x b = negb (f v p)).
Proof.
  intros Hbase HLI Hd Hb Hm Hone Hzero Hrk. unfold filterIndexFunction.
  rewrite (the_dim_ret _ _ _ Hd). simpl. apply wp_bind.
  pose proof (bk_kind_ok _ _ Hbase) as Hkd. pose proof (bk_len _ _ Hbase) as Hlen.
  eapply wp_mono.
  - apply (filter_scan_wp d (n c) b f (filters c) (data c)); try done.
    + by apply bk_nonneg in Hbase.
    + apply (bk_cells _ _ Hbase).
  - intros [[fl' A] D] [Hfc Hs]. rewrite Hone.
    eapply wp_mono; [by apply fl_notify|]. intros c' [Hcore HLI']. split; [done|].
    exists fl', A, D. split_and!; [done..|]. intros. by eapply scanned_bits.
Qed.

(** A method of dimension [did] gave it a new filter and changed nothing
    else a client can see. *)
Definition refiltered c did d r (g : option (X -> Z -> bool)) c' : Prop :=
  data c' = data c /\ n c' = n c /\ m c' = m c /\ dataListeners c' = dataListeners c /\
  exists d', dims c' = <[did := d']> (dims c) /\ same_dim d d'
    /\ d_refilter d' = r /\ d_refilterFunction d' = g.

Lemma refiltered_intro c did d d' fl' c' :
  same_core (put_dim (set_filters c fl') did d') c' -> same_dim d d' ->
  refiltered c did d (d_refilter d') (d_refilterFunction d') c'.
Proof. intros [] Hsd. repeat split; try done. by exists d'. Qed.

(** The core of a state that differs from [c] in filters and one dimension. *)
Lemma same_core_put c fl' did d1 d2 c' :
  same_core (set_filters (put_dim c did d1) fl') c' ->
  same_core (put_dim (set_filters c fl') did d2) (put_dim c' did d2).
Proof. intros []. split; simpl in *; try done. by rewrite sc_dims, list_insert_insert_eq. Qed.

Section filter_by.
Context c (Hc : cf_ok typed c) (HLI : LI c) (did : nat) d (Hl : live c did d).
Context r (Hr : refilter_ok r) (lo1 hi1 : Z).
Context (Hrun : refilter_run r (d_values d) = Ret (lo1, hi1)) (Hbo : bounds_ok r (d_values d) lo1 hi1).

Let d' := with_bounds (with_refilter d r None) lo1 hi1.

(** The bounds select the values that pass. *)
Lemma new_bits b fl' :
  (forall p k v x, 0 <= p < n c -> aget (tcells (d_index d)) p = Some k ->
     aget (d_values d) p = Some v -> aget (tcells fl') k = Some x ->
     Z.testbit x b = negb (in_range lo1 hi1 p)) ->
  forall p k v x, 0 <= p < n c -> aget (tcells (d_index d)) p = Some k ->
     aget (d_values d) p = Some v -> aget (tcells fl') k = Some x ->
     Z.testbit x b = negb (passes d' v).
Proof.
  intros Hbits p k v x Hp Hk Hv Hx. rewrite (Hbits p k v x) by done.
  unfold passes. simpl. by rewrite (proj2 (proj2 Hbo) p v Hv).
Qed.

(** After a filter function: every record is looked at again. *)
Lemma filter_by_function f :
  d_refilterFunction d = Some f ->
  wp (filterIndexBounds (put_dim c did (with_refilter d r (d_refilterFunction d))) did lo1 hi1)
     (fun c' => cf_ok typed c' /\ LI c' /\ refiltered c did d r None c').
Proof.
  intros Hf. destruct (ck_dims _ _ Hc _ _ Hl) as [Hz Hrk _ _ _ (b & Hb & Hone & Hm & _)].
  destruct Hl as [Hd Hpre]. unfold filterIndexBounds.
  rewrite (the_dim_ret _ _ _ (put_dim_lookup c did d _ Hd)). simpl. rewrite Hf, put_dim_put.
  set (d1 := with_refilter (with_refilter d r (Some f)) r None).
  assert (dims (put_dim c did d1) !! did = Some d1) as Hd1 by by eapply put_dim_lookup.
  assert (LI (put_dim c did d1)) as HLI1 by by eapply fl_dims.
  apply wp_bind. eapply wp_mono.
  - apply (filterIndexFunction_wp (put_dim c did d1) did d1 b); try done.
    + by destruct (ck_base _ _ Hc).
    + change (d_zero d = js_not (bit_one b)). by rewrite Hz, Hone.
  - intros c2 (HLI2 & fl' & A & D & Hcore & Hfc & Hbits).
    assert (dims c2 !! did = Some d1) as Hd2 by (rewrite (sc_dims _ _ Hcore); exact Hd1).
    rewrite (the_dim_ret _ _ _ Hd2). simpl. change (with_bounds d1 lo1 hi1) with d'.
    pose proof (same_core_put c fl' did d1 d' c2 Hcore) as Hcore'. split_and!.
    + eapply cf_ok_core; [exact Hcore'|]. eapply (filtered_ok c Hc did d d' b fl' A D); try done.
      by apply new_bits.
    + by eapply fl_dims.
    + by apply (refiltered_intro _ _ _ d' fl').
Qed.

(** After a filter given by bounds: only the difference is looked at. *)
Lemma filter_by_bounds :
  d_refilterFunction d = None ->
  wp (filterIndexBounds (put_dim c did (with_refilter d r (d_refilterFunction d))) did lo1 hi1)
     (fun c' => cf_ok typed c' /\ LI c' /\ refiltered c did d r None c').
Proof.
  intros Hf. destruct (ck_dims _ _ Hc _ _ Hl) as [Hz Hrk Hro Hrun0 _ (b & Hb & Hone & Hm & Hbits0)].
  pose proof (ck_base _ _ Hc) as Hbase. destruct Hl as [Hd Hpre]. unfold filterIndexBounds.
  rewrite (the_dim_ret _ _ _ (put_dim_lookup c did d _ Hd)). simpl. rewrite Hf, Hone.
  pose proof (bk_small _ _ Hbase) as Hsmall. pose proof (rk_values _ _ _ _ _ Hrk) as Hlv.
  pose proof (rk_sorted _ _ _ _ _ Hrk) as Hsort.
  assert (bounds_ok (d_refilter d) (d_values d) (d_lo0 d) (d_hi0 d)) as (Ho1 & Ho2 & Ho3).
  { pose proof (refilter_run_wp (d_refilter d) (d_values d) Hro) as Hw. rewrite Hlv, Hrun0 in Hw.
    apply Hw; [lia|done]. }
  destruct Hbo as (Hn1 & Hn2 & Hn3). rewrite Hlv in Ho2, Hn2.
  assert (forall p k, 0 <= p < n c -> aget (tcells (d_index d)) p = Some k ->
    exists x, aget (tcells (filters c)) k = Some x /\
      Z.testbit x b = negb (in_range (d_lo0 d) (d_hi0 d) p)) as Hbits.
  { intros p k Hp Hk. destruct (rk_at _ _ _ _ _ Hrk p k Hp Hk) as (rec & Hrec & Hv).
    assert (0 <= k < n c) as Hkn by (rewrite (bk_n _ _ Hbase); by eapply aget_Some).
    destruct (aget_is_Some (tcells (filters c)) k) as [x Hx].
    { pose proof (bk_len _ _ Hbase). unfold tlen in *. lia. }
    exists x. split; [done|]. rewrite (Hbits0 k rec x Hkn Hrec Hx). unfold passes.
    rewrite Hf. by rewrite (Ho3 p _ Hv). }
  pose proof (rk_index _ _ _ _ _ Hrk) as Hidx. pose proof (bk_kind_ok _ _ Hbase) as Hkd.
  pose proof (bk_len _ _ Hbase) as Hlen. pose proof (bk_cells _ _ Hbase) as Hcells.
  apply wp_bind. eapply wp_mono; [by apply (shift_lo_wp (n c))|]. intros [[fl1 A1] D1] Hlo.
  apply wp_bind. eapply wp_mono; [by apply (shift_hi_wp (n c) b _ (filters c))|].
  intros [[fl' A] D] Hhi. rewrite put_dim_filters.
  change (with_bounds (with_refilter d r None) lo1 hi1) with d'.
  assert (filter_change (n c) b (filters c) fl' A D) as Hfc by apply Hhi.
  eapply wp_mono.
  - apply (fl_notify (put_dim c did d') fl' b A D); try done.
    + by destruct Hbase.
    + by eapply fl_dims.
  - intros c2 [Hcore HLI2].
    change (set_filters (put_dim c did d') fl') with (put_dim (set_filters c fl') did d') in Hcore.
    split_and!; [|done|by apply (refiltered_intro _ _ _ d' fl')].
    eapply cf_ok_core; [exact Hcore|]. eapply (filtered_ok c Hc did d d' b fl' A D); try done.
    apply new_bits. intros. by eapply (all_moved_bits (n c) b (d_index d) (filters c)).
Qed.
End filter_by.

(** The filters given by bounds. *)
Lemma filter_by_wp c did d r :
  cf_ok typed c -> LI c -> live c did d -> refilter_ok r ->
  wp (filter_by c did r) (fun c' => cf_ok typed c' /\ LI c' /\ refiltered c did d r None c').
Proof.
  intros Hc HLI Hl Hr. pose proof (ck_dims _ _ Hc _ _ Hl) as Hdk.
  pose proof (dk_ranked _ _ Hdk) as Hrk. pose proof (bk_small _ _ (ck_base _ _ Hc)).
  unfold filter_by. rewrite (the_dim_ret _ _ _ (proj1 Hl)). simpl.
  assert (wp (refilter_run r (d_values d)) (fun '(lo, hi) => bounds_ok r (d_values d) lo hi)) as Hw.
  { apply refilter_run_wp; rewrite ?(rk_values _ _ _ _ _ Hrk); [done|lia|apply Hrk]. }
  apply wp_elim in Hw as ([lo1 hi1] & Hrun & Hbo). rewrite Hrun. simpl.
  assert (is_Some (d_refilterFunction d) \/ d_refilterFunction d = None) as [[f Hf]|Hf]
    by (destruct (d_refilterFunction d); eauto).
  - by eapply filter_by_function.
  - by apply filter_by_bounds.
Qed.
Lemma filterFunction_wp c did d f :
  cf_ok typed c -> LI c -> live c did d -> value_only f ->
  wp (filterFunction c did f) (fun c' =>
    cf_ok typed c' /\ LI c' /\ refiltered c did d FilterAll (Some f) c').
Proof.
  intros Hc HLI Hl Hf. destruct (ck_dims _ _ Hc _ _ Hl) as [Hz Hrk _ _ _ (b & Hb & Hone & Hm & _)].
  pose proof (rk_values _ _ _ _ _ Hrk) as Hlv.
  unfold filterFunction. rewrite (the_dim_ret _ _ _ (proj1 Hl)). simpl.
  set (d1 := with_refilter d FilterAll (Some f)).
  assert (dims (put_dim c did d1) !! did = Some d1) as Hd1 by (eapply put_dim_lookup, Hl).
  apply wp_bind. eapply wp_mono.
  - apply (filterIndexFunction_wp (put_dim c did d1) did d1 b); try done.
    + by destruct (ck_base _ _ Hc).
    + eapply fl_dims; [done|apply Hl|done..].
    + change (d_zero d = js_not (bit_one b)). by rewrite Hz, Hone.
  - intros c2 (HLI2 & fl' & A & D & Hcore & Hfc & Hbits).
    assert (dims c2 !! did = Some d1) as Hd2 by (rewrite (sc_dims _ _ Hcore); exact Hd1).
    rewrite (the_dim_ret _ _ _ Hd2). simpl. set (d' := with_bounds d1 0 (n c2)).
    pose proof (same_core_put c fl' did d1 d' c2 Hcore) as Hcore'. split_and!.
    + eapply cf_ok_core; [exact Hcore'|]. eapply (filtered_ok c Hc did d d' b fl' A D); try done.
      * simpl. unfold crossfilter_filterAll. by rewrite Hlv, (sc_n _ _ Hcore).
      * intros p k v x Hp Hk Hv Hx. rewrite (Hbits p k v x) by done. unfold passes. simpl. by rewrite Hf.
    + by eapply fl_dims.
    + by apply (refiltered_intro _ _ _ d' fl').
Qed.

(** What the argument of [filter] asks for. *)
Definition arg_filter (a : @filter_arg X) : refilter_fn X * option (X -> Z -> bool) :=
  match a with
  | ArgNull => (FilterAll, None)
  | ArgArray min max => (FilterRange min max, None)
  | ArgFunction f => (FilterAll, Some f)
  | ArgValue v => (FilterExact v, None)
  end.

Definition arg_ok (a : @filter_arg X) : Prop :=
  match a with
  | ArgFunction f => value_only f
  | _ => refilter_ok (arg_filter a).1
  end.

Lemma filter_wp c did d a :
  cf_ok typed c -> LI c -> live c did d -> arg_ok a ->
  wp (filter c did a) (fun c' => cf_ok typed c' /\ LI c'
    /\ refiltered c did d (arg_filter a).1 (arg_filter a).2 c').
Proof.
  intros Hc HLI Hl Ha. destruct a; simpl; [by apply filter_by_wp..|by apply filterFunction_wp|].
  by apply filter_by_wp.
Qed.
End methods.

(** ** The selection *)

(** A record is selected when every dimension in use lets it pass. *)
Lemma selected_spec c k rec x :
  cf_ok typed c -> aget (data c) k = Some rec -> aget (tcells (filters c)) k = Some x ->
  x = 0 <-> forall did d, live c did d -> passes d (d_value d rec) = true.
Proof.
  intros Hc Hrec Hx. pose proof (ck_base _ _ Hc) as Hbase. pose proof (bk_kind_ok _ _ Hbase) as Hkd.
  pose proof (kind_width_range _ Hkd). pose proof (aget_Some _ _ _ Hrec) as Hk.
  rewrite <- (bk_n _ _ Hbase) in Hk. rewrite (cell_zero _ _ Hkd (bk_cells _ _ Hbase k x Hx)). split.
  - intros Hall did d Hl. destruct (ck_dims _ _ Hc _ _ Hl) as [_ _ _ _ _ (b & Hb & _ & _ & Hbits) _].
    apply negb_false_iff. rewrite <- (Hbits k rec x) by done. by apply Hall.
  - intros Hall b Hb. destruct (Z.testbit (m c) b) eqn:Hm.
    + destruct (ck_owned _ _ Hc b ltac:(lia) Hm) as (did & d & Hl & Hone).
      destruct (ck_dims _ _ Hc _ _ Hl) as [_ _ _ _ _ (b' & Hb' & Hone' & _ & Hbits)].
      assert (b = b') as -> by (apply bit_one_inj; [lia..|congruence]).
      rewrite (Hbits k rec x) by done. apply negb_false_iff. by eapply Hall.
    + apply (ck_unused _ _ Hc b k x); done || lia.
Qed.
End select.
