(* ===== verification/CfTop.v ===== *)
(** * crossfilter: [top] and [bottom] of a dimension

    Both walk the index between the bounds of the filter and collect selected
    records; they return the first records of the whole selection, in the
    order of the dimension. *)

From stdpp Require Import sorting.
From S2P Require Import Prelude.
From S2P Require Import Arrays.
From S2P Require Import CfBisect.
From S2P Require Import CfArray.
From S2P Require Import CfBits.
From S2P Require Import CfCore.
From S2P Require Import CfInv.
From S2P Require Import CfFilter.
From S2P Require Import CfSelect.

(** ** Sorted lists *)

Section sorted_lists.
Context {A B : Type}.

Lemma StronglySorted_omap (P : A -> A -> Prop) (Q : B -> B -> Prop) (g : A -> option B) l :
  StronglySorted P l ->
  (forall x y a b, P x y -> g x = Some a -> g y = Some b -> Q a b) ->
  StronglySorted Q (omap g l).
Proof.
  intros Hs Hg. induction Hs as [|x l Hl IH Hx]; simpl; [constructor|].
  destruct (g x) as [a|] eqn:E; [|done]. constructor; [done|].
  apply Forall_forall. intros b (y & Hy & Eb)%list_elem_of_omap.
  rewrite Forall_forall in Hx. eauto.
Qed.

Lemma StronglySorted_reverse (P : A -> A -> Prop) l :
  StronglySorted P l -> StronglySorted (fun x y => P y x) (reverse l).
Proof.
  induction 1 as [|x l Hl IH Hx]; [constructor|]. rewrite reverse_cons.
  apply StronglySorted_app_2; [|done|repeat constructor].
  intros y z Hy ->%list_elem_of_singleton. rewrite elem_of_reverse in Hy.
  rewrite Forall_forall in Hx. by apply Hx.
Qed.

Lemma StronglySorted_lookup (P : A -> A -> Prop) l :
  (forall i j x y, (i < j)%nat -> l !! i = Some x -> l !! j = Some y -> P x y) -> StronglySorted P l.
Proof.
  induction l as [|x l IH]; intros Hl; constructor.
  - apply IH. intros i j y z Hij Hy Hz. apply (Hl (S i) (S j)); done || lia.
  - apply Forall_forall. intros y [j Hj]%list_elem_of_lookup. apply (Hl O (S j)); done || lia.
Qed.

Lemma StronglySorted_at (P : A -> A -> Prop) l i j x y :
  StronglySorted P l -> (i < j)%nat -> l !! i = Some x -> l !! j = Some y -> P x y.
Proof.
  intros Hs. revert i j. induction Hs as [|z l Hl IH Hz]; intros i j Hij Hx Hy; [done|].
  destruct j as [|j]; [lia|]. destruct i as [|i]; simpl in *.
  - injection Hx as ->. rewrite Forall_forall in Hz. apply Hz. by eapply list_elem_of_lookup_2.
  - apply (IH i j); done || lia.
Qed.
End sorted_lists.

(** Picking the elements that pass a test, by position or by value. *)
Lemma omap_seqZ_filter {A} (p : A -> bool) (test : Z -> bool) (l : list A) :
  (forall k r, aget l k = Some r -> test k = p r) ->
  omap (fun k => if test k then aget l k else None) (seqZ 0 (alen l)) = List.filter p l.
Proof.
  induction l as [|r l IH] using rev_ind; intros Ht; [done|].
  assert (alen (l ++ [r]) = alen l + 1) as -> by (unfold alen; rewrite length_app; simpl; lia).
  rewrite seqZ_app by (pose proof (alen_nonneg l); lia). rewrite omap_app, List.filter_app.
  assert (forall k, 0 <= k < alen l -> aget (l ++ [r]) k = aget l k) as Hl.
  { intros k Hk. unfold aget, alen in *. destruct (0 <=? k); [|done]. apply lookup_app_l. lia. }
  assert (aget (l ++ [r]) (alen l) = Some r) as Hr.
  { unfold aget, alen. destruct (Z.leb_spec 0 (Z.of_nat (length l))); [|lia].
    rewrite Nat2Z.id. by apply list_lookup_middle. }
  f_equal.
  - rewrite <- IH.
    + apply list_omap_ext, Forall_Forall2_diag, Forall_forall. intros k Hk%elem_of_seqZ.
      by rewrite Hl by lia.
    + intros k x Hx. apply Ht. rewrite Hl; [done|by eapply aget_Some].
  - assert (seqZ (0 + alen l) 1 = [alen l]) as -> by by rewrite seqZ_cons.
    cbn [omap list_omap]. rewrite Hr, (Ht (alen l) r) by done. simpl. by destruct (p r).
Qed.

Section top.
Context {R X : Type} `{JsOrdLaws X} (typed : bool).
Abbreviation cf := (@CfCore.cf R X).
Abbreviation dim := (@CfCore.dim R X).
Implicit Types (c : cf) (d : dim).

(** ** The selection, as clients see it *)

Definition live_dims c : list dim :=
  omap (fun l => match l with DPre did => dims c !! did | _ => None end) (dataListeners c).

Definition selectedb c (r : R) : bool :=
  forallb (fun d => passes d (d_value d r)) (live_dims c).

(** The records every filter lets pass. *)
Definition selection c : list R := List.filter (selectedb c) (data c).

Lemma live_dims_spec c d : d ∈ live_dims c <-> exists did, live c did d.
Proof.
  unfold live_dims, live. rewrite list_elem_of_omap. split.
  - intros ([did| |] & Hl & Hd); [|done..]. eauto.
  - intros (did & Hd & Hl). by exists (DPre did).
Qed.

Lemma selectedb_spec c r :
  selectedb c r = true <-> forall did d, live c did d -> passes d (d_value d r) = true.
Proof.
  unfold selectedb. rewrite forallb_forall. split.
  - intros Hall did d Hl. apply Hall, list_elem_of_In, live_dims_spec. eauto.
  - intros Hall d Hd%list_elem_of_In%live_dims_spec. destruct Hd as [did Hl]. eauto.
Qed.

(** The filter cell of a record tells whether it is selected. *)
Lemma cell_selected c k rec x :
  cf_ok typed c -> aget (data c) k = Some rec -> aget (tcells (filters c)) k = Some x ->
  truthy x = negb (selectedb c rec).
Proof.
  intros Hc Hrec Hx. pose proof (selected_spec typed c k rec x Hc Hrec Hx) as Hs.
  rewrite <- selectedb_spec in Hs. unfold truthy. f_equal.
  destruct (Z.eqb_spec x 0), (selectedb c rec); naive_solver.
Qed.

(** ** The records of a list of ids *)

Definition pick c (ids : list Z) : list R :=
  omap (fun k => if default false (selectedb c <$> aget (data c) k) then aget (data c) k else None) ids.

Lemma pick_app c ids ids' : pick c (ids ++ ids') = pick c ids ++ pick c ids'.
Proof. apply omap_app. Qed.

Lemma pick_perm c ids ids' : ids ≡ₚ ids' -> pick c ids ≡ₚ pick c ids'.
Proof.
  induction 1 as [|k l l' _ IH|k k' l|]; unfold pick in *; simpl in *; [done|..].
  - by case_match; rewrite IH.
  - repeat case_match; try done. by apply perm_swap.
  - by etrans.
Qed.

Lemma pick_all c : n c = alen (data c) -> pick c (seqZ 0 (n c)) = selection c.
Proof. intros ->. apply omap_seqZ_filter. by intros k r ->. Qed.

(** A prefix of a permutation of the selection. *)
Lemma first_k c (l : list R) (P : R -> R -> Prop) k :
  0 <= k -> l ≡ₚ selection c -> StronglySorted P l ->
  let l1 := take (Z.to_nat k) l in
  alen l1 = Z.min k (alen (selection c)) /\
  exists rest, l1 ++ rest ≡ₚ selection c /\ StronglySorted P (l1 ++ rest).
Proof.
  intros Hk Hp Hs l1. split.
  - unfold l1, alen. rewrite length_take, (Permutation_length Hp). lia.
  - exists (drop (Z.to_nat k) l). unfold l1. by rewrite take_drop.
Qed.

Section walk.
Context c (Hc : cf_ok typed c) did d (Hl : live c did d).

Lemma dim_bounds : bounds_ok (d_refilter d) (d_values d) (d_lo0 d) (d_hi0 d).
Proof.
  destruct (ck_dims _ _ Hc _ _ Hl) as [_ Hrk Hro Hrun _ _].
  pose proof (refilter_run_wp (d_refilter d) (d_values d) Hro) as Hw.
  rewrite Hrun, (rk_values _ _ _ _ _ Hrk) in Hw.
  pose proof (bk_small _ _ (ck_base _ _ Hc)). apply Hw; [lia|apply Hrk].
Qed.

(** What a turn of either loop reads. *)
Lemma walk_read p :
  0 <= p < n c -> exists k x rec, aget (tcells (d_index d)) p = Some k
    /\ aget (tcells (filters c)) k = Some x /\ aget (data c) k = Some rec
    /\ aget (d_values d) p = Some (d_value d rec)
    /\ truthy x = negb (selectedb c rec) /\ pick c [k] = if selectedb c rec then [rec] else [].
Proof.
  intros Hp. destruct (ck_dims _ _ Hc _ _ Hl) as [_ Hrk _ _ _ _].
  pose proof (ck_base _ _ Hc) as Hbase.
  destruct (index_at _ _ (rk_index _ _ _ _ _ Hrk) p Hp) as (k & Hk & Hkn).
  destruct (rk_at _ _ _ _ _ Hrk p k Hp Hk) as (rec & Hrec & Hv).
  destruct (aget_is_Some (tcells (filters c)) k) as [x Hx].
  { pose proof (bk_len _ _ Hbase). unfold tlen in *. lia. }
  exists k, x, rec. split_and!; try done; [by eapply cell_selected|].
  unfold pick. simpl. rewrite Hrec. simpl. by destruct (selectedb c rec).
Qed.

(** Ranks outside the bounds are not selected. *)
Lemma walk_outside i j :
  0 <= i -> j <= n c -> (forall p, i <= p < j -> in_range (d_lo0 d) (d_hi0 d) p = false) ->
  pick c (slice (tcells (d_index d)) i j) = [].
Proof.
  intros Hi Hj Hout. destruct (ck_dims _ _ Hc _ _ Hl) as [_ Hrk _ _ Hfn _].
  destruct (pick c _) as [|r l] eqn:E; [done|exfalso].
  assert (r ∈ pick c (slice (tcells (d_index d)) i j)) as Hr by (rewrite E; left).
  unfold pick in Hr. apply list_elem_of_omap in Hr as (k & Hk & Hr).
  pose proof (bk_nonneg _ _ (ck_base _ _ Hc)) as Hnn.
  apply (elem_of_run (n c) _ (rk_index _ _ _ _ _ Hrk)) in Hk as (p & Hp & Hpk); [|done..].
  destruct (walk_read p ltac:(lia)) as (k' & x & rec & Hk' & _ & Hrec & Hv & _).
  rewrite Hpk in Hk'. injection Hk' as <-. rewrite Hrec in Hr. simpl in Hr.
  destruct (selectedb c rec) eqn:Es; [|done]. rewrite selectedb_spec in Es.
  specialize (Es did d Hl). destruct dim_bounds as (_ & _ & Hb).
  specialize (Hb p _ Hv). rewrite (Hout p Hp) in Hb. unfold passes in Es.
  destruct (d_refilterFunction d) as [f|]; [|congruence]. destruct Hfn as [_ Hall].
  by rewrite Hall in Hb.
Qed.

Let lo := d_lo0 d.
Let hi := d_hi0 d.
Let run := slice (tcells (d_index d)) lo hi.

Lemma walk_all : pick c run = pick c (slice (tcells (d_index d)) 0 (n c)).
Proof.
  destruct dim_bounds as (H1 & H2 & _). destruct (ck_dims _ _ Hc _ _ Hl) as [_ Hrk _ _ _ _].
  rewrite (rk_values _ _ _ _ _ Hrk) in H2. fold lo hi in H1, H2.
  rewrite (slice_app _ 0 lo), (slice_app _ lo hi) by lia.
  rewrite !pick_app. rewrite (walk_outside 0 lo), (walk_outside hi (n c)); try lia.
  - by rewrite app_nil_r.
  - intros p Hp. unfold in_range. destruct (Z.ltb_spec p (d_hi0 d)); [unfold hi in *; lia|].
    apply andb_false_r.
  - intros p Hp. unfold in_range. destruct (Z.leb_spec (d_lo0 d) p); [unfold lo in *; lia|done].
Qed.

Lemma walk_perm : pick c run ≡ₚ selection c.
Proof.
  rewrite walk_all, <- (pick_all c (bk_n _ _ (ck_base _ _ Hc))). apply pick_perm.
  by destruct (ck_dims _ _ Hc _ _ Hl) as [_ Hrk _ _ _ _], Hrk.
Qed.

Lemma walk_sorted : StronglySorted (fun r r' => (d_value d r <=. d_value d r') = true) (pick c run).
Proof.
  destruct (ck_dims _ _ Hc _ _ Hl) as [_ Hrk _ _ _ _]. rewrite walk_all. unfold pick.
  pose proof (bk_nonneg _ _ (ck_base _ _ Hc)) as Hnn.
  eapply (StronglySorted_omap (fun k k' => forall r r', aget (data c) k = Some r ->
    aget (data c) k' = Some r' -> (d_value d r <=. d_value d r') = true)).
  - apply StronglySorted_lookup. intros i j k k' Hij Hi Hj r r' Hr Hr'.
    pose proof (lookup_lt_Some _ _ _ Hj) as Hlt.
    rewrite (Permutation_length (rk_index _ _ _ _ _ Hrk)), length_seqZ in Hlt.
    rewrite <- (Nat2Z.id i), slice_lookup, Z.add_0_l in Hi by lia.
    rewrite <- (Nat2Z.id j), slice_lookup, Z.add_0_l in Hj by lia.
    destruct (rk_at _ _ _ _ _ Hrk (Z.of_nat i) k ltac:(lia) Hi) as (s & Hs & Hv).
    destruct (rk_at _ _ _ _ _ Hrk (Z.of_nat j) k' ltac:(lia) Hj) as (s' & Hs' & Hv').
    rewrite Hr in Hs. injection Hs as <-. rewrite Hr' in Hs'. injection Hs' as <-.
    apply (rk_sorted _ _ _ _ _ Hrk (Z.of_nat i) (Z.of_nat j)); done || lia.
  - intros k k' r r' HP Hr Hr'. apply HP; by repeat case_match.
Qed.
(** ** The loops *)

Lemma slice_first (a : list Z) i j k :
  0 <= i < j -> aget a i = Some k -> slice a i j = k :: slice a (i + 1) j.
Proof.
  intros Hi Hk. rewrite (slice_app a i (i + 1)) by lia.
  rewrite (slice_snoc a i i k), slice_nil by (done || lia). done.
Qed.

Lemma take_all_or_enough (l l' : list R) (k k' : Z) :
  alen l + k' = k -> 0 <= k' -> k' = 0 \/ l' = [] -> take (Z.to_nat k) (l ++ l') = l.
Proof.
  intros Hk Hk0 [->| ->]; unfold alen in Hk.
  - rewrite take_app_length'; [done|lia].
  - rewrite app_nil_r. apply take_ge. lia.
Qed.

Lemma bottom_wp k :
  0 <= k -> wp (bottom c did k) (fun l => l = take (Z.to_nat k) (pick c run)).
Proof.
  intros Hk. unfold bottom. rewrite (the_dim_ret _ _ _ (proj1 Hl)). cbn [mbind js_bind].
  destruct dim_bounds as (H1 & H2 & _). destruct (ck_dims _ _ Hc _ _ Hl) as [_ Hrk _ _ _ _].
  rewrite (rk_values _ _ _ _ _ Hrk) in H2. fold lo hi in H1, H2 |- *.
  apply (wp_loop (fun '(array, i, k') => lo <= i <= hi /\ 0 <= k' /\ alen array + k' = k
           /\ array = pick c (slice (tcells (d_index d)) lo i)) (fun '(_, i, _) => hi - i)).
  - split_and!; [lia..|done|]. by rewrite slice_nil.
  - lia.
  - intros [[array i] k'] (Hi & Hk' & Hlen & ->). assert (pick c run
      = pick c (slice (tcells (d_index d)) lo i) ++ pick c (slice (tcells (d_index d)) i hi)) as Hsp
      by (rewrite <- pick_app, <- slice_app by lia; done).
    destruct (Z.ltb_spec i hi), (Z.gtb_spec k' 0); simpl.
    + destruct (walk_read i ltac:(lia)) as (j & x & rec & Hj & Hx & Hrec & _ & Ht & Hpick).
      unfold trd. rewrite (rd_Some _ _ _ Hj). simpl. rewrite (rd_Some _ _ _ Hx). simpl.
      assert (pick c (slice (tcells (d_index d)) lo (i + 1)) = pick c (slice (tcells (d_index d)) lo i)
        ++ if selectedb c rec then [rec] else []) as Hsn
        by (rewrite (slice_snoc _ lo i j), pick_app, Hpick by (done || lia); done).
      rewrite Ht. destruct (selectedb c rec); simpl.
      * rewrite (rd_Some _ _ _ Hrec). simpl. rewrite Hsn. unfold alen in *. rewrite length_app. simpl.
        split_and!; done || lia.
      * rewrite Hsn, app_nil_r. split_and!; done || lia.
    + rewrite Hsp. symmetry. eapply take_all_or_enough; [done..|lia].
    + assert (i = hi) as -> by lia. rewrite Hsp. symmetry.
      eapply take_all_or_enough; [done..|]. right. by rewrite slice_nil.
    + rewrite Hsp. symmetry. eapply take_all_or_enough; [done..|lia].
Qed.

Lemma pick_reverse ids : pick c (reverse ids) = reverse (pick c ids).
Proof.
  induction ids as [|k l IH]; [done|]. rewrite reverse_cons, pick_app, IH.
  change (k :: l) with ([k] ++ l). rewrite pick_app, reverse_app. f_equal.
  unfold pick. simpl. by case_match.
Qed.

Lemma top_wp k :
  0 <= k -> wp (top c did k) (fun l => l = take (Z.to_nat k) (reverse (pick c run))).
Proof.
  intros Hk. unfold top. rewrite (the_dim_ret _ _ _ (proj1 Hl)). cbn [mbind js_bind].
  destruct dim_bounds as (H1 & H2 & _). destruct (ck_dims _ _ Hc _ _ Hl) as [_ Hrk _ _ _ _].
  rewrite (rk_values _ _ _ _ _ Hrk) in H2. fold lo hi in H1, H2 |- *.
  apply (wp_loop (fun '(array, i, k') => lo <= i <= hi /\ 0 <= k' /\ alen array + k' = k
           /\ array = reverse (pick c (slice (tcells (d_index d)) i hi))) (fun '(_, i, _) => i - lo)).
  - split_and!; [lia..|done|]. by rewrite slice_nil.
  - lia.
  - intros [[array i] k'] (Hi & Hk' & Hlen & ->). assert (reverse (pick c run)
      = reverse (pick c (slice (tcells (d_index d)) i hi))
        ++ reverse (pick c (slice (tcells (d_index d)) lo i))) as Hsp
      by (rewrite <- reverse_app, <- pick_app, <- slice_app by lia; done).
    destruct (Z.geb_spec (i - 1) lo), (Z.gtb_spec k' 0); simpl.
    + destruct (walk_read (i - 1) ltac:(lia)) as (j & x & rec & Hj & Hx & Hrec & _ & Ht & Hpick).
      unfold trd. rewrite (rd_Some _ _ _ Hj). simpl. rewrite (rd_Some _ _ _ Hx). simpl.
      assert (reverse (pick c (slice (tcells (d_index d)) (i - 1) hi))
        = reverse (pick c (slice (tcells (d_index d)) i hi))
          ++ if selectedb c rec then [rec] else []) as Hsn.
      { rewrite (slice_first _ (i - 1) hi j) by (done || lia). replace (i - 1 + 1) with i by lia.
        change (j :: slice (tcells (d_index d)) i hi) with ([j] ++ slice (tcells (d_index d)) i hi).
        rewrite pick_app, Hpick, reverse_app. by destruct (selectedb c rec). }
      rewrite Ht. destruct (selectedb c rec); simpl.
      * rewrite (rd_Some _ _ _ Hrec). simpl. rewrite Hsn. unfold alen in *. rewrite length_app. simpl.
        split_and!; done || lia.
      * rewrite Hsn, app_nil_r. split_and!; done || lia.
    + rewrite Hsp. symmetry. eapply take_all_or_enough; [done..|lia].
    + assert (i = lo) as -> by lia. rewrite Hsp. symmetry.
      eapply take_all_or_enough; [done..|]. right. by rewrite slice_nil.
    + rewrite Hsp. symmetry. eapply take_all_or_enough; [done..|lia].
Qed.

(** ** In terms of the selection *)

Lemma bottom_selection k :
  0 <= k -> exists l rest, bottom c did k = Ret l /\ alen l = Z.min k (alen (selection c)) /\
    l ++ rest ≡ₚ selection c /\ StronglySorted (fun r r' => (d_value d r <=. d_value d r') = true) (l ++ rest).
Proof.
  intros Hk. destruct (wp_elim _ _ (bottom_wp k Hk)) as (l & E & ->).
  destruct (first_k c _ _ k Hk walk_perm walk_sorted) as (Hlen & rest & Hp & Hs). eauto 10.
Qed.

Lemma top_selection k :
  0 <= k -> exists l rest, top c did k = Ret l /\ alen l = Z.min k (alen (selection c)) /\
    l ++ rest ≡ₚ selection c /\ StronglySorted (fun r r' => (d_value d r' <=. d_value d r) = true) (l ++ rest).
Proof.
  intros Hk. destruct (wp_elim _ _ (top_wp k Hk)) as (l & E & ->).
  destruct (first_k c (reverse (pick c run)) _ k Hk ltac:(rewrite reverse_Permutation; apply walk_perm)
    (StronglySorted_reverse _ _ walk_sorted)) as (Hlen & rest & Hp & Hs). eauto 10.
Qed.
End walk.
End top.
