(* ===== verification/CfMerge.v ===== *)
(** * crossfilter: index arrays and the merge of [preAdd]

    [crossfilter_index] picks an element width wide enough for the ids it
    will hold, so ids never lose bits; the merge of the old and the new
    sorted values gives the sorted values of all records. *)

From S2P Require Import Prelude.
From S2P Require Import Arrays.
From S2P Require Import CfBisect.
From S2P Require Import CfArray.
From S2P Require Import CfBits.
From S2P Require Import CfCore.
From S2P Require Import CfInv.
From S2P Require Import CfFilter.

Section index.
Context (typed : bool).

(** Ids below [m] keep their value in an array made for [m]. *)
Lemma index_fits s m k :
  0 <= k < m -> m <= 2 ^ 32 -> tstore (tkind (crossfilter_index typed s m)) k = k.
Proof.
  intros Hk Hm. unfold crossfilter_index, crossfilter_array8, crossfilter_array16, crossfilter_array32.
  destruct typed; [|by repeat case_match].
  destruct (Z.ltb_spec m 0x101); [apply Z.mod_small; lia|].
  destruct (Z.ltb_spec m 0x10001); apply Z.mod_small; lia.
Qed.

Lemma index_cells s m : tcells (crossfilter_index typed s m) = zeros s.
Proof.
  unfold crossfilter_index, crossfilter_array8, crossfilter_array16, crossfilter_array32.
  destruct typed; by repeat case_match.
Qed.

Lemma alen_zeros n : alen (zeros n) = Z.max 0 n.
Proof. unfold alen, zeros. rewrite length_replicate. lia. Qed.

Lemma aget_zeros n k x : aget (zeros n) k = Some x -> x = 0.
Proof. unfold aget, zeros. destruct (0 <=? k); [|done]. by intros [-> _]%lookup_replicate. Qed.

Lemma lengthen_cells fl len :
  tkind (crossfilter_arrayLengthen typed fl len) = tkind fl
  /\ tcells (crossfilter_arrayLengthen typed fl len) = tcells fl ++ zeros (len - tlen fl).
Proof.
  unfold crossfilter_arrayLengthen, crossfilter_arrayLengthenUntyped. destruct typed; [|done].
  destruct (Z.leb_spec len (tlen fl)); [|done]. split; [done|].
  unfold zeros. replace (Z.to_nat (len - tlen fl)) with O by lia. by rewrite app_nil_r.
Qed.

(** An array that is lengthened keeps its cells; the others are 0. *)
Lemma lengthened fl len (fl' := crossfilter_arrayLengthen typed fl len) :
  tkind fl' = tkind fl /\ len <= tlen fl' /\
  (forall k, k < tlen fl -> aget (tcells fl') k = aget (tcells fl) k) /\
  (forall k x, aget (tcells fl') k = Some x -> aget (tcells fl) k = Some x \/ tlen fl <= k /\ x = 0).
Proof.
  destruct (lengthen_cells fl len) as [Hk Hc]. fold fl' in Hk, Hc. unfold tlen. split; [done|]. split.
  { rewrite Hc, alen_app, alen_zeros. unfold tlen. lia. }
  split; [intros k Hlt; rewrite Hc; by apply aget_app_l|]. intros k x. rewrite Hc.
  destruct (decide (k < alen (tcells fl))) as [Hlt|Hge]; [rewrite aget_app_l by done; by left|].
  pose proof (alen_nonneg (tcells fl)). replace k with (k - alen (tcells fl) + alen (tcells fl)) at 1 by lia.
  rewrite aget_app_r by lia. intros ->%aget_zeros. right. split; [lia|done].
Qed.

Lemma zeros_cons n : 0 < n -> zeros n = 0 :: zeros (n - 1).
Proof.
  intros Hn. unfold zeros. replace (Z.to_nat n) with (S (Z.to_nat (n - 1))) by lia. done.
Qed.

Lemma alen_seqZ n : 0 <= n -> alen (seqZ 0 n) = n.
Proof. intros Hn. unfold alen. rewrite length_seqZ. lia. Qed.

Lemma aupd_middle {A} (l1 l2 : list A) x y i :
  alen l1 = i -> aupd (l1 ++ x :: l2) i y = l1 ++ y :: l2.
Proof.
  intros <-. unfold aupd, alen. rewrite Nat2Z.id.
  rewrite insert_app_r_alt by done. by rewrite Nat.sub_diag.
Qed.

Lemma crossfilter_range_wp n :
  0 <= n <= 2 ^ 32 ->
  wp (crossfilter_range typed n) (fun t =>
    tkind t = tkind (crossfilter_index typed n n) /\ tcells t = seqZ 0 n).
Proof.
  intros Hn. unfold crossfilter_range. set (kd := tkind (crossfilter_index typed n n)).
  eapply wp_mono.
  - apply (wp_for (fun i t => tkind t = kd /\ tcells t = seqZ 0 i ++ zeros (n - i))); [lia| |].
    + split; [done|]. rewrite index_cells. simpl. by rewrite Z.sub_0_r.
    + intros i t Hi [Hk Hc]. unfold twr. apply wp_bind, wp_wr.
      { rewrite Hc. unfold alen, zeros. rewrite length_app, length_seqZ, length_replicate. lia. }
      split; [done|]. simpl. rewrite Hc, Hk, (zeros_cons (n - i)) by lia.
      rewrite aupd_middle by (apply alen_seqZ; lia). unfold kd. rewrite index_fits by lia.
      rewrite seqZ_app by lia. rewrite <- app_assoc. f_equal.
      assert (seqZ (0 + i) 1 = [i]) as -> by by rewrite seqZ_cons by lia.
      simpl. do 2 f_equal. lia.
  - intros t [Hk Hc]. split; [done|]. rewrite Hc, Z.sub_diag. apply app_nil_r.
Qed.
End index.

(** ** The merge *)

Section merge.
Context {R X : Type} `{JsOrdLaws X} (dat : list R) (value : R -> X).
Context (oldValues newValues : list X) (oldIndex newIndex : tarr) (n0 n1 : Z) (kd : akind).
Context (Hn0 : 0 <= n0) (Hn1 : 0 <= n1).
Context (Hold : ranked dat n0 value oldValues (tcells oldIndex)).
Context (Hnv : alen newValues = n1) (Hni : tcells newIndex ≡ₚ seqZ 0 n1).
Context (Hnew : forall i k, aget (tcells newIndex) i = Some k ->
  exists r, aget dat (k + n0) = Some r /\ aget newValues i = Some (value r)).
Context (Hns : sorted crossfilter_identity newValues 0 n1).
Context (Hkd : forall k, 0 <= k < n0 + n1 -> tstore kd k = k).

(** The first [i0] old and the first [i1] new records, merged. *)
Record merged (i0 i1 : Z) (values : list X) (index : list Z) : Prop := Merged {
  mg_values : alen values = i0 + i1;
  mg_index : alen index = i0 + i1;
  mg_ids : index ≡ₚ slice (tcells oldIndex) 0 i0 ++ map (fun k => k + n0) (slice (tcells newIndex) 0 i1);
  mg_at : forall p k, aget index p = Some k ->
            exists r, aget dat k = Some r /\ aget values p = Some (value r);
  mg_sorted : sorted crossfilter_identity values 0 (i0 + i1);
  mg_old : forall p x q y, aget values p = Some x -> i0 <= q < n0 -> aget oldValues q = Some y ->
             (x <=. y) = true;
  mg_new : forall p x q y, aget values p = Some x -> i1 <= q < n1 -> aget newValues q = Some y ->
             (x <=. y) = true
}.

Lemma newIndex_len : alen (tcells newIndex) = n1.
Proof. unfold alen. rewrite (Permutation_length Hni), length_seqZ. lia. Qed.

Lemma newIndex_at i : 0 <= i < n1 -> exists k, aget (tcells newIndex) i = Some k /\ 0 <= k < n1.
Proof.
  intros Hi. destruct (aget_is_Some (tcells newIndex) i) as [k Hk]; [by rewrite newIndex_len|].
  exists k. split; [done|]. assert (k ∈ tcells newIndex) as Hin.
  { unfold aget in Hk. destruct (0 <=? i); [|done]. by eapply list_elem_of_lookup_2. }
  rewrite Hni in Hin. apply elem_of_seqZ in Hin. lia.
Qed.

Lemma sorted_snoc (values : list X) x m :
  alen values = m -> natural x -> sorted crossfilter_identity values 0 m ->
  (forall p y, aget values p = Some y -> (y <=. x) = true) ->
  sorted crossfilter_identity (values ++ [x]) 0 (m + 1).
Proof.
  intros Hl Hx Hs Hle i j u v Hi Hij Hj Hu Hv. rewrite !aget_snoc in *.
  unfold crossfilter_identity in *.
  destruct (decide (i = alen values)), (decide (j = alen values)); simplify_eq; try lia; try done.
  - by eapply Hle.
  - by eapply (Hs i j); [lia..| |].
Qed.

(** Appending one record, next in both orders. *)
Lemma merged_snoc i0 i1 i0' i1' values index k r :
  merged i0 i1 values index -> aget dat k = Some r -> natural (value r) ->
  i0' + i1' = i0 + i1 + 1 -> i0 <= i0' -> i1 <= i1' ->
  slice (tcells oldIndex) 0 i0' ++ map (fun k => k + n0) (slice (tcells newIndex) 0 i1')
    ≡ₚ k :: slice (tcells oldIndex) 0 i0 ++ map (fun k => k + n0) (slice (tcells newIndex) 0 i1) ->
  (forall p x, aget values p = Some x -> (x <=. value r) = true) ->
  (forall q y, i0' <= q < n0 -> aget oldValues q = Some y -> (value r <=. y) = true) ->
  (forall q y, i1' <= q < n1 -> aget newValues q = Some y -> (value r <=. y) = true) ->
  merged i0' i1' (values ++ [value r]) (index ++ [k]).
Proof.
  intros [Hv Hi Hids Hat Hs Ho Hn] Hr Hnat Hsum H0' H1' Hperm Hle Hlo Hln.
  assert (forall {A} (l : list A) x, alen (l ++ [x]) = alen l + 1) as Hlen
    by (intros; unfold alen; rewrite length_app; simpl; lia).
  split; rewrite ?Hlen; try lia.
  - rewrite Hperm, <- Hids. solve_Permutation.
  - intros p j. rewrite !aget_snoc, Hv, Hi. case_decide; [intros [= <-]; eauto|apply Hat].
  - rewrite Hsum. by apply sorted_snoc.
  - intros p x q y. rewrite aget_snoc. case_decide; [intros [= <-]; apply Hlo|]. intros Hx Hq. eapply Ho; [done|lia].
  - intros p x q y. rewrite aget_snoc. case_decide; [intros [= <-]; apply Hln|]. intros Hx Hq. eapply Hn; [done|lia].
Qed.

Lemma merged_old i0 i1 values index k o :
  merged i0 i1 values index -> 0 <= i0 < n0 -> aget (tcells oldIndex) i0 = Some k ->
  aget oldValues i0 = Some o ->
  (forall q y, i1 <= q < n1 -> aget newValues q = Some y -> (o <=. y) = true) ->
  merged (i0 + 1) i1 (values ++ [o]) (index ++ [tstore kd k]).
Proof.
  intros Hm Hi Hk Ho Hle. destruct (rk_at _ _ _ _ _ Hold i0 k Hi Hk) as (r & Hr & Hv).
  rewrite Ho in Hv. injection Hv as ->.
  destruct (index_at n0 _ (rk_index _ _ _ _ _ Hold) i0 Hi) as (k' & Hk' & Hkn).
  rewrite Hk in Hk'. injection Hk' as <-. rewrite Hkd by lia.
  pose proof (rk_sorted _ _ _ _ _ Hold) as Hs.
  eapply merged_snoc; try done; try lia.
  - by apply (sorted_natural _ _ _ _ Hs i0).
  - rewrite (slice_snoc _ 0 i0 k) by (done || lia). solve_Permutation.
  - intros p x Hx. apply (mg_old _ _ _ _ Hm p x i0); done || lia.
  - intros q y Hq Hy. exact (Hs i0 q _ _ ltac:(lia) ltac:(lia) ltac:(lia) Ho Hy).
Qed.

Lemma merged_new i0 i1 values index k w :
  merged i0 i1 values index -> 0 <= i1 < n1 -> aget (tcells newIndex) i1 = Some k ->
  aget newValues i1 = Some w ->
  (forall q y, i0 <= q < n0 -> aget oldValues q = Some y -> (w <=. y) = true) ->
  merged i0 (i1 + 1) (values ++ [w]) (index ++ [tstore kd (k + n0)]).
Proof.
  intros Hm Hi Hk Hw Hle. destruct (Hnew i1 k Hk) as (r & Hr & Hv).
  rewrite Hw in Hv. injection Hv as ->. destruct (newIndex_at i1 Hi) as (k' & Hk' & Hkn).
  rewrite Hk in Hk'. injection Hk' as <-. rewrite Hkd by lia.
  eapply merged_snoc; try done; try lia.
  - by apply (sorted_natural _ _ _ _ Hns i1).
  - rewrite (slice_snoc _ 0 i1 k) by (done || lia). rewrite map_app. simpl. solve_Permutation.
  - intros p x Hx. apply (mg_new _ _ _ _ Hm p x i1); done || lia.
  - intros q y Hq Hy. exact (Hns i1 q _ _ ltac:(lia) ltac:(lia) ltac:(lia) Hw Hy).
Qed.

Lemma merged_start : merged 0 0 [] [].
Proof.
  assert (forall A i, aget (@nil A) i = None) as Hnil by (intros; unfold aget; by case_match).
  split; try done.
  - intros p k. by rewrite Hnil.
  - intros p q x y. lia.
  - intros p x q y. by rewrite Hnil.
  - intros p x q y. by rewrite Hnil.
Qed.

(** The end of the merge: all records, ranked. *)
Lemma merged_ranked values index : merged n0 n1 values index -> ranked dat (n0 + n1) value values index.
Proof.
  intros [Hv Hi Hids Hat Hs _ _]. split; [done| | |done].
  - assert (slice index 0 (n0 + n1) = index) as ->.
    { unfold slice, alen in *. simpl. apply take_ge. lia. }
    rewrite Hids, (rk_index _ _ _ _ _ Hold).
    assert (slice (tcells newIndex) 0 n1 = tcells newIndex) as ->.
    { pose proof newIndex_len. unfold slice, alen in *. simpl. apply take_ge. lia. }
    rewrite Hni, seqZ_app by lia. f_equiv.
    replace (seqZ (0 + n0) n1) with (map (fun k => k + n0) (seqZ 0 n1)); [done|].
    rewrite Z.add_comm, <- fmap_add_seqZ. apply map_ext. intros k. lia.
  - intros p k Hp Hk. by apply Hat.
Qed.

Lemma merge_sorted_wp :
  wp (merge_sorted oldValues oldIndex newValues newIndex n0 n1 kd) (fun '(values, index) =>
    merged n0 n1 values index).
Proof.
  pose proof (rk_values _ _ _ _ _ Hold) as Hov. pose proof (rk_sorted _ _ _ _ _ Hold) as Hos.
  assert (forall i, 0 <= i < n0 -> exists k o, aget (tcells oldIndex) i = Some k
    /\ aget oldValues i = Some o) as Hgo.
  { intros i Hi. destruct (index_at n0 _ (rk_index _ _ _ _ _ Hold) i Hi) as (k & Hk & _).
    destruct (aget_is_Some oldValues i) as [o Ho]; [lia|]. eauto. }
  assert (forall i, 0 <= i < n1 -> exists k w, aget (tcells newIndex) i = Some k
    /\ aget newValues i = Some w) as Hgn.
  { intros i Hi. destruct (newIndex_at i Hi) as (k & Hk & _).
    destruct (aget_is_Some newValues i) as [w Hw]; [lia|]. eauto. }
  unfold merge_sorted. apply wp_bind. eapply wp_mono.
  - apply (wp_loop (fun '(values, index, i0, i1) => 0 <= i0 <= n0 /\ 0 <= i1 <= n1 /\
      merged i0 i1 values index) (fun '(_, _, i0, i1) => n0 + n1 - i0 - i1)
      (fun '(values, index, i0, i1) => 0 <= i0 <= n0 /\ 0 <= i1 <= n1 /\ (i0 = n0 \/ i1 = n1) /\
        merged i0 i1 values index)).
    + split_and!; [lia..|apply merged_start].
    + lia.
    + intros [[[values index] i0] i1] (Hi0 & Hi1 & Hm).
      destruct (Z.ltb_spec i0 n0), (Z.ltb_spec i1 n1); simpl; [|split_and!; done || lia..].
      destruct (Hgo i0 ltac:(lia)) as (k & o & Hk & Ho). destruct (Hgn i1 ltac:(lia)) as (k' & w & Hk' & Hw).
      rewrite (rd_Some _ _ _ Ho). simpl. rewrite (rd_Some _ _ _ Hw). simpl. unfold trd.
      destruct (o <. w) eqn:E.
      * rewrite (rd_Some _ _ _ Hk). simpl. split_and!; try lia. apply merged_old; try done; try lia.
        intros q y Hq Hy. eapply jle_trans; [by apply jlt_le|].
        exact (Hns i1 q _ _ ltac:(lia) ltac:(lia) ltac:(lia) Hw Hy).
      * rewrite (rd_Some _ _ _ Hk'). simpl. split_and!; try lia. apply merged_new; try done; try lia.
        intros q y Hq Hy. apply (jle_trans _ o).
        -- apply jlt_false; [..|done]; [apply (sorted_natural _ _ _ _ Hos i0)
             |apply (sorted_natural _ _ _ _ Hns i1)]; done || lia.
        -- exact (Hos i0 q _ _ ltac:(lia) ltac:(lia) ltac:(lia) Ho Hy).
  - intros [[[values index] i0] i1] (Hi0 & Hi1 & Hend & Hm). apply wp_bind. eapply wp_mono.
    + apply (wp_for (fun i '(values, index) => merged i i1 values index /\ (i < n0 -> i1 = n1))); [lia| |].
      * split; [done|lia].
      * intros i [vs ix] Hi [Hmi Hx]. destruct (Hgo i ltac:(lia)) as (k & o & Hk & Ho).
        rewrite (rd_Some _ _ _ Ho). simpl. unfold trd. rewrite (rd_Some _ _ _ Hk). simpl.
        split; [|lia]. apply merged_old; try done; lia.
    + intros [vs ix] [Hm' _].
      apply (wp_for (fun i '(values, index) => merged n0 i values index)); [lia|done|].
      intros i [vs' ix'] Hi Hmi. destruct (Hgn i ltac:(lia)) as (k & w & Hk & Hw).
      rewrite (rd_Some _ _ _ Hw). simpl. unfold trd. rewrite (rd_Some _ _ _ Hk). simpl.
      apply merged_new; try done; lia.
Qed.
End merge.
