(* ===== verification/CfGroups.v ===== *)
(** * crossfilter: incremental reduce values

    A group keeps a reduce value per key, [groupAll] one value; when a filter
    changes they are told which records came in and which went out.  For
    reduce functions that add and subtract a weight per record (counts and
    sums do) the incremental update gives the value a recomputation from
    scratch would give.  [GroupListeners] discharges the interface
    [FilterListeners] for all listeners the library registers. *)

From stdpp Require Import sorting.
From S2P Require Import Prelude.
From S2P Require Import Arrays.
From S2P Require Import Sums.
From S2P Require Import CfBisect.
From S2P Require Import CfArray.
From S2P Require Import CfBits.
From S2P Require Import CfCore.
From S2P Require Import CfInv.
From S2P Require Import CfTop.

(** ** Sums over selected records *)

(** Bits in [mask] decide: [-1] looks at every dimension, [zero] of a
    dimension at all others. *)
Definition unmasked (fl : tarr) (mask k : Z) : bool :=
  match aget (tcells fl) k with Some x => js_and x mask =? 0 | None => false end.

Definition amount {R} (dat : list R) (w : R -> Z) (k : Z) : Z := default 0 (w <$> aget dat k).

(** The sum of [g] over the ids no masked filter leaves out. *)
Definition total (g : Z -> Z) (fl : tarr) (mask : Z) (ids : list Z) : Z :=
  zsum (fun k => when (unmasked fl mask k) (g k)) ids.

(** The sum of [g] over the ids that only the filter of bit [b] leaves out. *)
Definition only_by (b : Z) (fl : tarr) (mask k : Z) : bool :=
  match aget (tcells fl) k with Some x => js_and x mask =? bit_one b | None => false end.
Definition lost (g : Z -> Z) (b : Z) (fl : tarr) (mask : Z) (ids : list Z) : Z :=
  zsum (fun k => when (only_by b fl mask k) (g k)) ids.

Lemma total_snoc g fl mask l k x :
  aget (tcells fl) k = Some x ->
  total g fl mask (l ++ [k]) = total g fl mask l + when (js_and x mask =? 0) (g k).
Proof. intros Hx. unfold total. rewrite zsum_snoc. unfold unmasked at 2. by rewrite Hx. Qed.

Lemma lost_snoc g b fl mask l k x :
  aget (tcells fl) k = Some x ->
  lost g b fl mask (l ++ [k]) = lost g b fl mask l + when (js_and x mask =? bit_one b) (g k).
Proof. intros Hx. unfold lost. rewrite zsum_snoc. unfold only_by at 2. by rewrite Hx. Qed.

Lemma amount_Some {R} (dat : list R) w k r : aget dat k = Some r -> amount dat w k = w r.
Proof. unfold amount. by intros ->. Qed.

Section masks.
Implicit Types (x y mask b i : Z).

Lemma and_zero_bits x mask :
  js_and x mask = 0 <-> forall i, 0 <= i < 32 -> Z.testbit x i && Z.testbit mask i = false.
Proof.
  split.
  - intros Hz i Hi. by rewrite <- testbit_js_and, Hz, Z.bits_0.
  - intros Hall. apply int32_ext; [auto with js_bits|unfold int32; lia|].
    intros i Hi. by rewrite testbit_js_and, Z.bits_0, Hall.
Qed.

Lemma and_one_bits x mask b :
  0 <= b < 32 -> js_and x mask = bit_one b <->
  forall i, 0 <= i < 32 -> Z.testbit x i && Z.testbit mask i = bool_decide (i = b).
Proof.
  intros Hb. split.
  - intros Hz i Hi. by rewrite <- testbit_js_and, Hz, testbit_bit_one by lia.
  - intros Hall. apply int32_ext; [auto with js_bits|apply bit_one_range|].
    intros i Hi. by rewrite testbit_js_and, testbit_bit_one, Hall by lia.
Qed.

(** A cell is falsy when it is 0 under the full mask. *)
Lemma truthy_full kd x :
  kind_ok kd -> cell_ok kd x -> truthy x = negb (js_and x (-1) =? 0).
Proof.
  intros Hkd Hx. unfold truthy. f_equal.
  assert (x = 0 <-> js_and x (-1) = 0) as Hz.
  { rewrite and_zero_bits, (cell_zero kd) by done. pose proof (kind_width_range _ Hkd). split.
    - intros Hall i Hi. destruct (decide (i < kind_width kd)).
      + by rewrite Hall by lia.
      + by rewrite (cell_ok_high kd) by (done || lia).
    - intros Hall i Hi. specialize (Hall i ltac:(lia)). by rewrite Z.bits_m1, andb_true_r in Hall by lia. }
  destruct (Z.eqb_spec x 0), (Z.eqb_spec (js_and x (-1)) 0); naive_solver.
Qed.

Section change.
Context (n b : Z) (fl fl' : tarr) (A D : list Z) (Hfc : filter_change n b fl fl' A D).
Context (Hkd : kind_ok (tkind fl)) (Hb : 0 <= b < kind_width (tkind fl)) (Hn : n <= tlen fl).
Context (Hcells : forall k x, aget (tcells fl) k = Some x -> cell_ok (tkind fl) x).

Lemma change_cells k :
  0 <= k < n -> exists x x', aget (tcells fl) k = Some x /\ aget (tcells fl') k = Some x'
    /\ forall i, 0 <= i < 32 -> i <> b -> Z.testbit x' i = Z.testbit x i.
Proof.
  intros Hk. destruct Hfc. unfold tlen in *.
  destruct (aget_is_Some (tcells fl) k) as [x Hx]; [lia|].
  destruct (aget_is_Some (tcells fl') k) as [x' Hx']; [lia|].
  exists x, x'. split_and!; [done..|]. intros i Hi Hne.
  destruct (decide (i < kind_width (tkind fl))); [eapply fc_other; done || lia|].
  rewrite (cell_ok_high (tkind fl) x i); [|done|by eapply Hcells|lia].
  apply (cell_ok_high (tkind fl')); [by rewrite fc_kind|by eapply fc_cells|rewrite fc_kind; lia].
Qed.

(** The dimension's own filter does not count. *)
Lemma unmasked_own k mask :
  0 <= k < n -> Z.testbit mask b = false -> unmasked fl' mask k = unmasked fl mask k.
Proof.
  intros Hk Hm. destruct (change_cells k Hk) as (x & x' & Hx & Hx' & Hoth).
  unfold unmasked. rewrite Hx, Hx'. apply eq_bool_prop_intro. rewrite !Is_true_true, !Z.eqb_eq, !and_zero_bits.
  split; intros Hall i Hi; specialize (Hall i Hi); destruct (decide (i = b)) as [->|];
    rewrite ?Hm, ?andb_false_r; try done; [by rewrite <- Hoth|by rewrite Hoth].
Qed.

(** A record's share of the sum before and after the change. *)
Lemma unmasked_change k mask v :
  0 <= k < n -> Z.testbit mask b = true ->
  when (unmasked fl' mask k) v =
    when (unmasked fl mask k) v
    + (when (bool_decide (k ∈ A)) (when (unmasked fl' mask k) v)
       - when (bool_decide (k ∈ D)) (when (only_by b fl' mask k) v)).
Proof.
  intros Hk Hm. destruct (change_cells k Hk) as (x & x' & Hx & Hx' & Hoth).
  pose proof (kind_width_range _ Hkd).
  assert (k ∈ A <-> Z.testbit x b = true /\ Z.testbit x' b = false) as HA.
  { rewrite (fc_added _ _ _ _ _ _ Hfc). naive_solver congruence. }
  assert (k ∈ D <-> Z.testbit x b = false /\ Z.testbit x' b = true) as HD.
  { rewrite (fc_removed _ _ _ _ _ _ Hfc). naive_solver congruence. }
  rewrite (bool_decide_ext _ _ HA), (bool_decide_ext _ _ HD). unfold unmasked, only_by. rewrite Hx, Hx'.
  assert (Z.testbit x b = true -> js_and x mask <> 0) as Hx1.
  { rewrite and_zero_bits. intros E Hall. specialize (Hall b ltac:(lia)). by rewrite E, Hm in Hall. }
  assert (Z.testbit x' b = true -> js_and x' mask <> 0) as Hx2.
  { rewrite and_zero_bits. intros E Hall. specialize (Hall b ltac:(lia)). by rewrite E, Hm in Hall. }
  assert (Z.testbit x b = Z.testbit x' b -> js_and x' mask = js_and x mask) as Hsame.
  { intros E. apply int32_ext; [auto with js_bits..|]. intros i Hi. rewrite !testbit_js_and by done.
    destruct (decide (i = b)) as [->|]; [by rewrite E|by rewrite Hoth]. }
  assert (Z.testbit x b = false -> Z.testbit x' b = true ->
          js_and x' mask = bit_one b <-> js_and x mask = 0) as Hrem.
  { intros E E'. rewrite and_one_bits, and_zero_bits by lia. split; intros Hall i Hi;
      specialize (Hall i Hi); destruct (decide (i = b)) as [->|].
    - by rewrite E.
    - by rewrite Hoth, bool_decide_false in Hall.
    - by rewrite E', Hm, bool_decide_true.
    - by rewrite Hoth, bool_decide_false. }
  destruct (Z.testbit x b), (Z.testbit x' b); unfold when; repeat case_bool_decide; try intuition congruence.
  - rewrite Hsame by done. lia.
  - destruct (Z.eqb_spec (js_and x mask) 0); [naive_solver|]. lia.
  - destruct (Z.eqb_spec (js_and x' mask) 0); [naive_solver|].
    destruct (Z.eqb_spec (js_and x mask) 0), (Z.eqb_spec (js_and x' mask) (bit_one b)); naive_solver lia.
  - rewrite Hsame by done. lia.
Qed.
(** The incremental update of a sum. *)
Lemma total_change (g : Z -> Z) mask :
  Z.testbit mask b = true ->
  total g fl' mask (seqZ 0 n) =
    total g fl mask (seqZ 0 n) + (total g fl' mask A - lost g b fl' mask D).
Proof.
  intros Hm. unfold total, lost.
  rewrite (zsum_sub _ (seqZ 0 n) A); [|apply NoDup_seqZ|by apply Hfc|].
  2: { intros k Hk%(fc_added _ _ _ _ _ _ Hfc). apply elem_of_seqZ. lia. }
  rewrite (zsum_sub _ (seqZ 0 n) D); [|apply NoDup_seqZ|by apply Hfc|].
  2: { intros k Hk%(fc_removed _ _ _ _ _ _ Hfc). apply elem_of_seqZ. lia. }
  unfold Z.sub. rewrite <- zsum_opp, <- !zsum_add. apply zsum_ext. intros k Hk%elem_of_seqZ.
  by rewrite (unmasked_change k mask) at 1 by (done || lia).
Qed.

Lemma total_own (g : Z -> Z) mask :
  Z.testbit mask b = false -> total g fl' mask (seqZ 0 n) = total g fl mask (seqZ 0 n).
Proof.
  intros Hm. apply zsum_ext. intros k Hk%elem_of_seqZ. by rewrite unmasked_own by (done || lia).
Qed.
End change.
End masks.

(** ** Loops over ids *)

Section loops.
Context {S : Type}.

Lemma wp_for_each {L} (Inv : list L -> S -> Prop) (l : list L) (body : L -> S -> js S) s :
  Inv [] s ->
  (forall l1 x l2 s, l = l1 ++ x :: l2 -> Inv l1 s -> wp (body x s) (Inv (l1 ++ [x]))) ->
  wp (for_each l body s) (Inv l).
Proof.
  intros H0 Hb. assert (forall l2 l1 s, l = l1 ++ l2 -> Inv l1 s -> wp (for_each l2 body s) (Inv l)) as Hgen.
  { induction l2 as [|x l2 IH]; intros l1 s1 -> Hi; simpl; [by rewrite app_nil_r in *|].
    apply wp_bind. eapply wp_mono; [by eapply Hb|]. intros s2 Hi2.
    eapply IH; [|done]. by rewrite <- app_assoc. }
  by apply (Hgen l []).
Qed.
End loops.

Section groups.
Context {R X : Type} `{JsOrdLaws X} (typed : bool).
Abbreviation cf := (@CfCore.cf R X).
Abbreviation grp := (@CfCore.grp R X).
Abbreviation kv := (@CfCore.kv X).
Abbreviation reducer := (@CfCore.reducer R).
Implicit Types (c : cf) (g : grp) (gs : list kv) (w : R -> Z) (red : reducer) (fl : tarr).

(** ** Reduce functions *)

(** Adding and removing a record adds and subtracts its weight. *)
Definition lawful red w : Prop :=
  forall v r, reduceAdd red v r = v + w r /\ reduceRemove red v r = v - w r.

Lemma count_lawful : lawful count_reducer (fun _ => 1).
Proof. by intros v r. Qed.

Lemma sum_lawful (value : R -> Z) : lawful (sum_reducer value) value.
Proof. by intros v r. Qed.

Lemma foldl_lawful red w v l :
  lawful red w -> foldl (reduceAdd red) v l = v + zsum w l.
Proof.
  intros Hw. revert v. induction l as [|r l IH]; intros v; simpl; [lia|].
  rewrite IH, (proj1 (Hw v r)). lia.
Qed.

(** ** [groupAll] of the crossfilter *)

Definition gall_ok c fl (a : @gall R) : Prop :=
  exists w, lawful (a_reduce a) w /\
    (a_resetNeeded a = false -> a_reduceValue a =
      Some (reduceInitial (a_reduce a) + total (amount (data c) w) fl (-1) (seqZ 0 (n c)))).

(** [filters[k] === filterOne], where the cell is unsigned and the mask
    signed: for the last bit of a typed array it never holds. *)
Lemma eq_one_full kd x b :
  kind_ok kd -> cell_ok kd x -> 0 <= b < 32 -> kd = AUntyped \/ b < 31 ->
  (x =? bit_one b) = (js_and x (-1) =? bit_one b).
Proof.
  intros Hkd Hx Hb Hk. assert (js_and x (-1) = to_int32 x) as ->.
  { unfold js_and. change (to_int32 (-1)) with (-1). by rewrite Z.land_m1_r. }
  destruct kd as [|wd]; simpl in *.
  - by rewrite to_int32_small.
  - destruct Hk as [|Hb31]; [done|]. unfold bit_one.
    assert (2 ^ b < 2 ^ 31) by (apply Z.pow_lt_mono_r; lia).
    assert (0 < 2 ^ b) by (apply Z.pow_pos_nonneg; lia).
    assert (2 ^ wd <= 2 ^ 32) by (apply Z.pow_le_mono_r; lia).
    rewrite (to_int32_small (2 ^ b)) by lia.
    unfold to_int32. rewrite to_uint32_small by lia.
    destruct (Z.ltb_spec x (2 ^ 31)); [done|].
    destruct (Z.eqb_spec x (2 ^ b)), (Z.eqb_spec (x - 2 ^ 32) (2 ^ b)); lia || done.
Qed.

(** ** Groups of a dimension *)

(** [gs] has the given keys, and [h i] as the value of group [i]. *)
Definition gs_vals (keys : list X) gs (h : Z -> Z) : Prop :=
  kv_key <$> gs = keys /\ forall i e, aget gs i = Some e -> kv_value e = Some (h i).

Lemma gs_vals_ext keys gs h h' :
  gs_vals keys gs h -> (forall i, 0 <= i < alen gs -> h i = h' i) -> gs_vals keys gs h'.
Proof.
  intros [Hk Hv] He. split; [done|]. intros i e Hi. rewrite <- He by (by eapply aget_Some). by apply Hv.
Qed.

Lemma gs_vals_alen keys gs h : gs_vals keys gs h -> alen gs = alen keys.
Proof. intros [<- _]. unfold alen. by rewrite length_fmap. Qed.

Lemma gs_vals_step keys gs h i e (f : Z -> R -> Z) (r : R) dv :
  gs_vals keys gs h -> aget gs i = Some e -> (forall v, f v r = v + dv) ->
  gs_vals keys (aupd gs i (reduce_kv f e r)) (fun j => h j + when (i =? j) dv).
Proof.
  intros [Hk Hv] Hi Hf. pose proof (aget_Some _ _ _ Hi) as Hb. split.
  - rewrite <- Hk. unfold aupd, aget in *. destruct (Z.leb_spec 0 i); [|lia].
    rewrite list_fmap_insert. apply list_insert_id. by rewrite list_lookup_fmap, Hi.
  - intros j e'. rewrite aget_aupd by lia. case_decide as Hij.
    + intros [= <-]. simpl. rewrite Hf, (Hv i e Hi). simpl. subst j. by rewrite Z.eqb_refl.
    + intros He'. rewrite (Hv j e' He'). destruct (Z.eqb_spec i j); [done|]. simpl. f_equal. lia.
Qed.

(** The group a record is in. *)
Definition groupof g (k : Z) : Z :=
  match g_groupIndex g with Some t => default 0 (aget (tcells t) k) | None => 0 end.

(** What record [k] adds to the value of group [i]. *)
Definition share c g w (i k : Z) : Z := when (groupof g k =? i) (amount (data c) w k).

(** [update], [groupIndex] and the cardinality fit together. *)
Definition index_ok c (gid : nat) g : Prop :=
  match g_update g with
  | FMany gid' => gid' = gid /\ 1 < g_k g /\ exists t, g_groupIndex g = Some t /\
      forall k, 0 <= k < n c -> exists i, aget (tcells t) k = Some i /\ 0 <= i < g_k g
  | FOne gid' => gid' = gid /\ g_k g = 1 /\ g_groupIndex g = None
  | FNull => g_k g = 0
  | FAll _ => False
  end.

(** Two keys that are neither less nor greater. *)
Definition same_key (x y : X) : Prop := (x <=. y) = true /\ (y <=. x) = true.
Definition same_keyb (x y : X) : bool := (x <=. y) && (y <=. x).

(** The groups are those of the keys of the records, in ascending order. *)
Record keyed c g : Prop := Keyed {
  ky_sorted : StronglySorted (fun x y => (x <. y) = true) (kv_key <$> g_groups g);
  ky_group : forall k r d, aget (data c) k = Some r -> dims c !! g_dim g = Some d ->
    exists e, aget (g_groups g) (groupof g k) = Some e /\ same_key (kv_key e) (g_key g (d_value d r));
  ky_used : forall i, 0 <= i < alen (g_groups g) -> exists k, 0 <= k < n c /\ groupof g k = i
}.

(** Values do not matter to it, nor the rest of the state. *)
Lemma keyed_ext c c' g gs :
  data c' = data c -> n c' = n c ->
  (forall d', dims c' !! g_dim g = Some d' -> exists d, dims c !! g_dim g = Some d /\ d_value d' = d_value d) ->
  kv_key <$> gs = kv_key <$> g_groups g -> keyed c g -> keyed c' (with_groups g gs).
Proof.
  intros Ed En Edim Ek [Hs Hg Hu].
  assert (alen gs = alen (g_groups g)) as Hl.
  { apply (f_equal length) in Ek. rewrite !length_fmap in Ek. unfold alen. by rewrite Ek. }
  split; simpl; [by rewrite Ek| |by rewrite Hl, En].
  rewrite Ed. intros k r d' Hr Hd'. destruct (Edim d' Hd') as (d & Hd & ->).
  destruct (Hg k r d Hr Hd) as (e & He & Hsk). change (groupof (with_groups g gs) k) with (groupof g k).
  pose proof (aget_Some _ _ _ He). destruct (aget_is_Some gs (groupof g k)) as [e' He']; [lia|].
  exists e'. split; [done|]. assert (kv_key e' = kv_key e) as ->; [|done].
  unfold aget in He, He'. destruct (0 <=? groupof g k); [|done].
  apply (f_equal (fun l => l !! Z.to_nat (groupof g k))) in Ek. rewrite !list_lookup_fmap, He, He' in Ek. by injection Ek.
Qed.

Lemma keyed_same c c' g :
  data c' = data c -> n c' = n c ->
  (forall d', dims c' !! g_dim g = Some d' -> exists d, dims c !! g_dim g = Some d /\ d_value d' = d_value d) ->
  keyed c g -> keyed c' g.
Proof.
  intros Ed En Edim Hk. pose proof (keyed_ext c c' g (g_groups g) Ed En Edim eq_refl Hk) as Hk'. by destruct g.
Qed.

(** The keys ascend. *)
Lemma keyed_lt c g i j e e' :
  keyed c g -> 0 <= i < j -> aget (g_groups g) i = Some e -> aget (g_groups g) j = Some e' -> (kv_key e <. kv_key e') = true.
Proof.
  intros [Hs _ _] Hij Hu Hv. unfold aget in Hu, Hv. destruct (Z.leb_spec 0 i), (Z.leb_spec 0 j); [|lia..].
  apply (StronglySorted_at _ _ (Z.to_nat i) (Z.to_nat j) _ _ Hs); [lia|..]; by rewrite list_lookup_fmap, ?Hu, ?Hv.
Qed.

(** No two groups have the same key. *)
Lemma keyed_unique c g i j e e' x :
  keyed c g -> aget (g_groups g) i = Some e -> aget (g_groups g) j = Some e' ->
  same_key (kv_key e) x -> same_key (kv_key e') x -> i = j.
Proof.
  intros Hky Hi Hj [H1 H2] [H1' H2']. pose proof (aget_Some _ _ _ Hi). pose proof (aget_Some _ _ _ Hj).
  destruct (Z.lt_trichotomy i j) as [Hij|[|Hji]]; [|done|].
  - destruct (proj1 (jlt_true _ _) (keyed_lt c g i j e e' Hky ltac:(lia) Hi Hj)) as [_ Hlt]. rewrite (jle_trans _ x _) in Hlt; done.
  - destruct (proj1 (jlt_true _ _) (keyed_lt c g j i e' e Hky ltac:(lia) Hj Hi)) as [_ Hlt]. rewrite (jle_trans _ x _) in Hlt; done.
Qed.

Record grp_ok c fl (gid : nat) g : Prop := GrpOk {
  gk_index : index_ok c gid g;
  gk_keyed : keyed c g;
  gk_k : g_k g = alen (g_groups g);
  gk_dim : exists d b0 w, dims c !! g_dim g = Some d /\ 0 <= b0 < 32 /\ d_one d = bit_one b0
    /\ d_zero d = js_not (bit_one b0) /\ lawful (g_reduce g) w
    /\ (g_resetNeeded g = false ->
        gs_vals (kv_key <$> g_groups g) (g_groups g) (fun i =>
          reduceInitial (g_reduce g) + total (share c g w i) fl (d_zero d) (seqZ 0 (n c))))
}.

(** The update of the group a record is in. *)
Lemma reduce_step c keys gs h i k (r : R) (f : Z -> R -> Z) dv :
  gs_vals keys gs h -> 0 <= i < alen gs -> aget (data c) k = Some r ->
  (forall v, f v r = v + dv) ->
  wp (e ← rd gs i; r ← rd (data c) k; wr gs i (reduce_kv f e r))
     (fun gs' => gs_vals keys gs' (fun j => h j + when (i =? j) dv)).
Proof.
  intros Hg Hi Hr Hf. apply wp_bind, wp_rd; [done|]. intros e He. simpl.
  rewrite (rd_Some _ _ _ Hr). simpl. apply wp_wr; [done|]. by eapply gs_vals_step.
Qed.

Section notified.
Context c fl (b : Z) (A D : list Z).
Let fl' := filters c.
Context (Hbase : base_ok typed c) (Hfc : filter_change (n c) b fl fl' A D).
Context (Hb : 0 <= b < kind_width (tkind fl')).
Context (Hcells : forall k x, aget (tcells fl) k = Some x -> cell_ok (tkind fl) x).

Lemma notified_total (g : Z -> Z) mask :
  Z.testbit mask b = true ->
  total g fl mask (seqZ 0 (n c)) + total g fl' mask A - lost g b fl' mask D
  = total g fl' mask (seqZ 0 (n c)).
Proof.
  intros Hm. pose proof (bk_len _ _ Hbase) as Hlen. fold fl' in Hlen.
  rewrite (fc_len _ _ _ _ _ _ Hfc) in Hlen. pose proof (bk_kind_ok _ _ Hbase) as Hkd. fold fl' in Hkd.
  rewrite (fc_kind _ _ _ _ _ _ Hfc) in Hkd, Hb.
  rewrite (total_change (n c) b fl fl' A D Hfc Hkd Hb Hlen Hcells) by done. lia.
Qed.

(** A listener reads the cell and the record of an id it is given. *)
Lemma notified_read k :
  k ∈ A \/ k ∈ D -> exists x r, aget (tcells fl') k = Some x /\ aget (data c) k = Some r
    /\ cell_ok (tkind fl') x.
Proof.
  intros Hin. assert (0 <= k < n c) as Hk.
  { destruct Hin as [Hin|Hin]; [apply (fc_added _ _ _ _ _ _ Hfc) in Hin
      |apply (fc_removed _ _ _ _ _ _ Hfc) in Hin]; by destruct Hin. }
  destruct (aget_is_Some (tcells fl') k) as [x Hx].
  { pose proof (bk_len _ _ Hbase). unfold tlen, fl' in *. lia. }
  destruct (aget_is_Some (data c) k) as [r Hr]; [by rewrite <- (bk_n _ _ Hbase)|].
  exists x, r. split_and!; [done..|]. by eapply (bk_cells _ _ Hbase).
Qed.

Lemma groupAll_update_wp aid a :
  galls c !! aid = Some a -> gall_ok c fl a -> tkind fl' = AUntyped \/ b < 31 ->
  wp (groupAll_update c aid (bit_one b) A D) (fun c' => exists a',
    c' = put_gall c aid a' /\ gall_ok c fl' a').
Proof.
  intros Ha (w & Hw & Hv) Hlast. unfold groupAll_update, the_gall. rewrite Ha. simpl.
  pose proof (bk_kind_ok _ _ Hbase) as Hkd. fold fl' in Hkd. pose proof (kind_width_range _ Hkd).
  destruct (a_resetNeeded a) eqn:Hreset.
  { exists a. split; [unfold put_gall, set_galls; rewrite list_insert_id by done; by destruct c|].
    exists w. split; [done|]. by rewrite Hreset. }
  specialize (Hv eq_refl). rewrite Hv. set (v0 := reduceInitial (a_reduce a) + _).
  set (amt := amount (data c) w). apply wp_bind. eapply wp_mono.
  - apply (wp_for_each (fun l v => v = Some (v0 + total amt fl' (-1) l)) A).
    + by rewrite Z.add_0_r.
    + intros l1 k l2 v HE ->. destruct (notified_read k) as (x & r & Hx & Hr & Hcx); [left; rewrite HE; apply elem_of_app; right; left|].
      unfold trd. fold fl'. rewrite (rd_Some _ _ _ Hx). simpl. rewrite (truthy_full _ _ Hkd Hcx).
      rewrite (total_snoc _ _ _ _ _ _ Hx). rewrite (amount_Some _ _ _ _ Hr : amt k = w r).
      destruct (Z.eqb_spec (js_and x (-1)) 0); simpl.
      * rewrite (rd_Some _ _ _ Hr). simpl. rewrite (proj1 (Hw _ _)). f_equal. lia.
      * f_equal. lia.
  - intros v ->. apply wp_bind. eapply wp_mono.
    + apply (wp_for_each (fun l v => v = Some (v0 + total amt fl' (-1) A - lost amt b fl' (-1) l)) D).
      * unfold lost. simpl. f_equal. lia.
      * intros l1 k l2 v HE ->. destruct (notified_read k) as (x & r & Hx & Hr & Hcx); [right; rewrite HE; apply elem_of_app; right; left|].
        unfold trd. fold fl'. rewrite (rd_Some _ _ _ Hx). simpl.
        rewrite (eq_one_full _ _ _ Hkd Hcx) by (done || lia).
        rewrite (lost_snoc _ _ _ _ _ _ _ Hx). rewrite (amount_Some _ _ _ _ Hr : amt k = w r).
        destruct (Z.eqb_spec (js_and x (-1)) (bit_one b)); simpl.
        -- rewrite (rd_Some _ _ _ Hr). simpl. rewrite (proj2 (Hw _ _)). f_equal. lia.
        -- f_equal. lia.
    + intros v ->. simpl. eexists. split; [done|]. exists w. split; [done|]. intros _. simpl.
      f_equal. unfold v0. pose proof (notified_total amt (-1) ltac:(apply Z.bits_m1; lia)) as Ht.
      unfold amt in *. lia.
Qed.
(** The loops of [updateMany] and [updateOne], for the group of each id. *)
Section update.
Context g w (keys : list X) (h : Z -> Z) (mask : Z) (idx : Z -> js Z).
Context (Hw : lawful (g_reduce g) w) (Hm : Z.testbit mask b = true) (HA : alen keys = g_k g).
Context (Hidx : forall k, 0 <= k < n c -> idx k = Ret (groupof g k) /\ 0 <= groupof g k < g_k g).

Lemma update_added gs :
  gs_vals keys gs h ->
  wp (for_each A (fun k gs =>
        x ← trd fl' k;
        if truthy (js_and x mask) then Ret gs
        else
          i ← idx k;
          e ← rd gs i;
          r ← rd (data c) k;
          wr gs i (reduce_kv (reduceAdd (g_reduce g)) e r)) gs)
     (fun gs' => gs_vals keys gs' (fun i => h i + total (share c g w i) fl' mask A)).
Proof.
  intros Hg. apply (wp_for_each (fun l gs => gs_vals keys gs
    (fun i => h i + total (share c g w i) fl' mask l)) A).
  { eapply gs_vals_ext; [done|]. intros i _. unfold total. simpl. lia. }
  intros l1 k l2 gs' HE Hg'.
  assert (k ∈ A) as HkA by (rewrite HE; apply elem_of_app; right; left).
  destruct (notified_read k) as (x & r & Hx & Hr & _); [by left|].
  destruct (Hidx k) as [Hi Hb']; [rewrite (bk_n _ _ Hbase); by eapply aget_Some|].
  unfold trd. rewrite (rd_Some _ _ _ Hx). simpl. unfold truthy.
  destruct (Z.eqb_spec (js_and x mask) 0) as [E|E]; simpl.
  - rewrite Hi. simpl. eapply wp_mono.
    + eapply (reduce_step c keys gs' _ (groupof g k) k r _ (w r)); try done.
      * rewrite (gs_vals_alen _ _ _ Hg'). lia.
      * intros v. apply Hw.
    + intros gs2 Hg2. eapply gs_vals_ext; [exact Hg2|]. intros i _. simpl.
      rewrite (total_snoc _ _ _ _ _ _ Hx), E. unfold share at 3. rewrite (amount_Some _ _ _ _ Hr).
      simpl. lia.
  - eapply gs_vals_ext; [done|]. intros i _. rewrite (total_snoc _ _ _ _ _ _ Hx).
    destruct (Z.eqb_spec (js_and x mask) 0); [done|]. simpl. lia.
Qed.

Lemma update_removed gs :
  gs_vals keys gs h ->
  wp (for_each D (fun k gs =>
        x ← trd fl' k;
        if js_and x mask =? bit_one b then
          i ← idx k;
          e ← rd gs i;
          r ← rd (data c) k;
          wr gs i (reduce_kv (reduceRemove (g_reduce g)) e r)
        else Ret gs) gs)
     (fun gs' => gs_vals keys gs' (fun i => h i - lost (share c g w i) b fl' mask D)).
Proof.
  intros Hg. apply (wp_for_each (fun l gs => gs_vals keys gs
    (fun i => h i - lost (share c g w i) b fl' mask l)) D).
  { eapply gs_vals_ext; [done|]. intros i _. unfold lost. simpl. lia. }
  intros l1 k l2 gs' HE Hg'.
  assert (k ∈ D) as HkD by (rewrite HE; apply elem_of_app; right; left).
  destruct (notified_read k) as (x & r & Hx & Hr & _); [by right|].
  destruct (Hidx k) as [Hi Hb']; [rewrite (bk_n _ _ Hbase); by eapply aget_Some|].
  unfold trd. rewrite (rd_Some _ _ _ Hx). simpl.
  destruct (Z.eqb_spec (js_and x mask) (bit_one b)) as [E|E].
  - rewrite Hi. simpl. eapply wp_mono.
    + eapply (reduce_step c keys gs' _ (groupof g k) k r _ (- w r)); try done.
      * rewrite (gs_vals_alen _ _ _ Hg'). lia.
      * intros v. rewrite (proj2 (Hw v r)). lia.
    + intros gs2 Hg2. eapply gs_vals_ext; [exact Hg2|]. intros i _. simpl.
      rewrite (lost_snoc _ _ _ _ _ _ _ Hx), E, Z.eqb_refl. unfold share at 3.
      rewrite (amount_Some _ _ _ _ Hr). unfold when. destruct (groupof g k =? i); lia.
  - eapply gs_vals_ext; [done|]. intros i _. rewrite (lost_snoc _ _ _ _ _ _ _ Hx).
    destruct (Z.eqb_spec (js_and x mask) (bit_one b)); [done|]. simpl. lia.
Qed.
End update.
(** A group that has nothing to update. *)
Lemma group_unchanged gid g :
  grps c !! gid = Some g -> grp_ok c fl gid g ->
  (forall d, dims c !! g_dim g = Some d -> d_one d = bit_one b \/ g_resetNeeded g = true) ->
  exists g', c = put_grp c gid g' /\ grp_ok c fl' gid g' /\ g_update g' = g_update g.
Proof.
  intros Hg [Hi Hky Hk (d & b0 & w & Hd & Hb0 & Hone & Hzero & Hw & Hv)] Hown. exists g. split; [|split; [split|done]].
  - unfold put_grp, set_grps. rewrite list_insert_id by done. by destruct c.
  - done.
  - done.
  - done.
  - exists d, b0, w. split_and!; try done; try lia. intros Hr.
    destruct (Hown d Hd) as [Hob|]; [|congruence]. eapply gs_vals_ext; [by apply Hv|].
    intros i _. pose proof (bk_len _ _ Hbase) as Hlen. change (filters c) with fl' in Hlen.
    rewrite (fc_len _ _ _ _ _ _ Hfc) in Hlen. pose proof (bk_kind_ok _ _ Hbase) as Hkd.
    change (filters c) with fl' in Hkd. pose proof (kind_width_range _ Hkd).
    rewrite (fc_kind _ _ _ _ _ _ Hfc) in Hkd.
    rewrite (total_own (n c) b fl fl' A D Hfc Hkd Hlen Hcells); [done|].
    rewrite Hzero, <- Hone, Hob, testbit_js_not, testbit_bit_one by lia.
    by rewrite bool_decide_true.
Qed.

(** The two loops give the values for the new filters. *)
Lemma group_updated gid g d b0 w gs :
  index_ok c gid g -> keyed c g -> g_k g = alen (g_groups g) -> dims c !! g_dim g = Some d ->
  0 <= b0 < 32 -> d_one d = bit_one b0 -> d_zero d = js_not (bit_one b0) -> lawful (g_reduce g) w ->
  Z.testbit (d_zero d) b = true ->
  gs_vals (kv_key <$> g_groups g) gs (fun i =>
    reduceInitial (g_reduce g) + total (share c g w i) fl (d_zero d) (seqZ 0 (n c))
    + total (share c g w i) fl' (d_zero d) A - lost (share c g w i) b fl' (d_zero d) D) ->
  grp_ok c fl' gid (with_groups g gs).
Proof.
  intros Hi Hky Hk Hd Hb0 Hone Hzero Hw Hbit Hg. pose proof (gs_vals_alen _ _ _ Hg) as Hl.
  assert (alen gs = alen (g_groups g)) as Hl'.
  { rewrite Hl. unfold alen. by rewrite length_fmap. }
  split; [done|by apply (keyed_ext c); eauto; apply Hg|simpl; by rewrite Hl'|]. exists d, b0, w. split_and!; try done; try lia.
  intros _. simpl. destruct Hg as [Hkeys Hv]. rewrite Hkeys. split; [done|].
  intros i e He. rewrite (Hv i e He). f_equal.
  pose proof (notified_total (share c g w i) (d_zero d) Hbit) as Ht. fold fl' in Ht.
  change (share c (with_groups g gs) w i) with (share c g w i). lia.
Qed.

Lemma mask_other b0 : 0 <= b0 < 32 -> bit_one b <> bit_one b0 -> Z.testbit (js_not (bit_one b0)) b = true.
Proof.
  intros Hb0 Hne. pose proof (kind_width_range _ (bk_kind_ok _ _ Hbase)). unfold fl' in Hb.
  rewrite testbit_js_not, testbit_bit_one by lia. rewrite bool_decide_false; [done|congruence].
Qed.

Lemma update_group_wp gid g :
  grps c !! gid = Some g -> grp_ok c fl gid g ->
  wp (run_filterListener (bit_one b) A D (g_update g) c) (fun c' => exists g',
    c' = put_grp c gid g' /\ grp_ok c fl' gid g' /\ g_update g' = g_update g).
Proof.
  intros Hg Hok. pose proof Hok as [Hi Hky Hk (d & b0 & w & Hd & Hb0 & Hone & Hzero & Hw & Hv)].
  assert ((bit_one b =? d_one d) || g_resetNeeded g = true -> wp (Ret c) (fun c' => exists g',
    c' = put_grp c gid g' /\ grp_ok c fl' gid g' /\ g_update g' = g_update g)) as Hskip.
  { intros Hs. apply (group_unchanged gid g Hg Hok). intros d' Hd'. rewrite Hd in Hd'. injection Hd' as <-.
    apply orb_true_iff in Hs as [Hs%Z.eqb_eq|]; [left; congruence|by right]. }
  assert (alen (kv_key <$> g_groups g) = g_k g) as Hak by (unfold alen in *; by rewrite length_fmap).
  unfold index_ok in Hi. destruct (g_update g) as [|gid'|gid'|aid] eqn:Hu; simpl.
  - exists g. split; [|split; [split; [unfold index_ok; by rewrite Hu|done|done|]|done]].
    + unfold put_grp, set_grps. rewrite list_insert_id by done. by destruct c.
    + exists d, b0, w. split_and!; try done; try lia. intros Hr. split; [done|].
      intros i e He%aget_Some. lia.
  - destruct Hi as (-> & Hk1 & t & Ht & Hti). unfold updateMany, the_grp. rewrite Hg. simpl.
    unfold the_dim. rewrite Hd. simpl. destruct (_ || _) eqn:Hs; [by apply Hskip|].
    apply orb_false_iff in Hs as [Hne%Z.eqb_neq Hr]. rewrite Hone in Hne.
    assert (Z.testbit (d_zero d) b = true) as Hbit by (rewrite Hzero; by apply mask_other).
    assert (forall k, 0 <= k < n c -> group_index_of g k = Ret (groupof g k)
      /\ 0 <= groupof g k < g_k g) as Hidx.
    { intros k Hkn. unfold group_index_of, groupof, trd. rewrite Ht.
      destruct (Hti k Hkn) as (i & Hti' & Hib). rewrite Hti'. simpl. by rewrite (rd_Some _ _ _ Hti'). }
    apply wp_bind. eapply wp_mono; [eapply (update_added g w _ _ _ _ Hw Hak Hidx); by apply Hv|].
    intros gs Hgs. apply wp_bind.
    eapply wp_mono; [eapply (update_removed g w _ _ _ _ Hw Hak Hidx); exact Hgs|].
    intros gs' Hgs'. exists (with_groups g gs'). split_and!; [done| |done].
    eapply group_updated; try done. unfold index_ok. rewrite Hu. eauto.
  - destruct Hi as (-> & Hk1 & Hnone). unfold updateOne, the_grp. rewrite Hg. simpl.
    unfold the_dim. rewrite Hd. simpl. destruct (_ || _) eqn:Hs; [by apply Hskip|].
    apply orb_false_iff in Hs as [Hne%Z.eqb_neq Hr]. rewrite Hone in Hne.
    assert (Z.testbit (d_zero d) b = true) as Hbit by (rewrite Hzero; by apply mask_other).
    assert (forall k, 0 <= k < n c -> @Ret Z 0 = Ret (groupof g k)
      /\ 0 <= groupof g k < g_k g) as Hidx by (intros k Hkn; unfold groupof; rewrite Hnone; split; [done|lia]).
    apply wp_bind. eapply wp_mono; [eapply (update_added g w _ _ _ (fun _ => Ret 0) Hw Hak Hidx); by apply Hv|].
    intros gs Hgs. apply wp_bind.
    eapply wp_mono; [eapply (update_removed g w _ _ _ (fun _ => Ret 0) Hw Hak Hidx); exact Hgs|].
    intros gs' Hgs'. exists (with_groups g gs'). split_and!; [done| |done].
    eapply group_updated; try done. unfold index_ok. rewrite Hu. eauto.
  - done.
Qed.
End notified.

(** ** All listeners *)

(** Every registered listener is consistent with the filters [fl]. *)
Definition listener_ok c fl (l : flistener) : Prop :=
  match l with
  | FNull => True
  | FMany gid | FOne gid => exists g, grps c !! gid = Some g /\ g_update g = l /\ grp_ok c fl gid g
  | FAll aid => exists a, galls c !! aid = Some a /\ gall_ok c fl a
  end.

Definition not_null (l : flistener) : bool := bool_decide (l <> FNull).

(** The invariant of the groups: every registered listener is consistent,
    none is registered twice, and [groupAll] of a crossfilter with typed
    arrays does not meet the sign of the last bit. *)
Record groups_ok c : Prop := GroupsOk {
  gs_listeners : forall l, l ∈ filterListeners c -> listener_ok c (filters c) l;
  gs_nodup : NoDup (List.filter not_null (filterListeners c));
  gs_last : (exists aid, FAll aid ∈ filterListeners c) ->
    typed = false \/ Z.testbit (m c) 31 = false;
  gs_data : forall aid, FAll aid ∈ filterListeners c -> DAll aid ∈ dataListeners c;
  gs_galls : forall aid, DAll aid ∈ dataListeners c -> (aid < length (galls c))%nat
}.

(** The consistency of a group depends on the bit and the accessor of its
    dimension only. *)
Lemma grp_ok_dims c c' fl gid g :
  data c' = data c -> n c' = n c ->
  (forall did d, dims c !! did = Some d -> exists d', dims c' !! did = Some d'
     /\ d_value d' = d_value d /\ d_one d' = d_one d /\ d_zero d' = d_zero d) ->
  grp_ok c fl gid g -> grp_ok c' fl gid g.
Proof.
  intros Ed En Es [Hi Hky Hk (d & b0 & w & Hd & Hb0 & Ho & Hz & Hw & Hv)]. destruct (Es _ _ Hd) as (d' & Hd' & Ev & Eo & Ez).
  split; [|apply (keyed_same c); try done|done|].
  - revert Hi. unfold index_ok. by rewrite En.
  - intros d2 Hd2. rewrite Hd' in Hd2. injection Hd2 as <-. eauto.
  - exists d', b0, w. rewrite Eo, Ez. split_and!; try done; try lia. unfold share in *. by rewrite Ed, En.
Qed.

(** Listeners do not see the rest of the state. *)
Lemma listener_ok_ext c c' fl l :
  data c' = data c -> n c' = n c -> dims c' = dims c ->
  (forall gid, l = FMany gid \/ l = FOne gid -> grps c' !! gid = grps c !! gid) ->
  (forall aid, l = FAll aid -> galls c' !! aid = galls c !! aid) ->
  listener_ok c fl l -> listener_ok c' fl l.
Proof.
  intros Ed En Es Eg Ea. destruct l as [|gid|gid|aid]; simpl; [done| | |].
  1, 2: intros (g & Hg & Hu & [Hi Hky Hk (d & b0 & w & ? & ? & ? & ? & ? & Hv)]); exists g;
    rewrite Eg by auto; split_and!; [done..|]; split;
    [|by apply (keyed_same c); try done; rewrite Es; eauto|done|];
    [revert Hi; unfold index_ok; by rewrite En|];
    exists d, b0, w; rewrite Es; split_and!; try done; try lia;
    unfold share in *; by rewrite Ed, En.
  intros (a & Ha & w & Hw & Hv). exists a. rewrite Ea by done. split; [done|].
  exists w. by rewrite Ed, En.
Qed.

(** Listeners of different groups do not disturb each other. *)
Lemma listener_ok_put_grp c fl gid g l :
  l <> FMany gid -> l <> FOne gid -> listener_ok c fl l -> listener_ok (put_grp c gid g) fl l.
Proof.
  intros H1 H2. apply listener_ok_ext; try done. intros gid' Hl. simpl.
  apply list_lookup_insert_ne. intros ->. naive_solver.
Qed.

Lemma listener_ok_put_gall c fl aid a l :
  l <> FAll aid -> listener_ok c fl l -> listener_ok (put_gall c aid a) fl l.
Proof.
  intros H1. apply listener_ok_ext; try done. intros aid' ->. simpl.
  apply list_lookup_insert_ne. intros ->. done.
Qed.

(** [l] has been told: it is consistent with [fl1] now, where it was with
    [fl0], and other listeners are as they were. *)
Definition told c fl0 fl1 (l : flistener) c' : Prop :=
  same_core c c' /\ filterListeners c' = filterListeners c /\ length (galls c') = length (galls c) /\
  listener_ok c' fl1 l /\
  forall fl2 l', l' <> l -> listener_ok c fl0 l' \/ listener_ok c fl1 l' -> listener_ok c fl2 l' -> listener_ok c' fl2 l'.

Lemma told_grp c gid g g' fl0 fl1 l :
  l = FMany gid \/ l = FOne gid -> grps c !! gid = Some g -> g_update g = l -> grp_ok c fl1 gid g' ->
  g_update g' = g_update g -> told c fl0 fl1 l (put_grp c gid g').
Proof.
  intros Hl Hg Hu Hok Hu'. split_and!; try done.
  - assert (grp_ok (put_grp c gid g') fl1 gid g') as Hok' by (destruct Hok as [? Hky ? ?]; split; try done; by apply (keyed_same c); eauto).
    destruct Hl as [-> | ->]; exists g'; simpl; rewrite list_lookup_insert_eq by (by eapply lookup_lt_Some); split_and!; congruence || done.
  - intros fl2 l' Hne Hany. apply listener_ok_put_grp; intros ->;
      destruct Hany as [(g2 & Hg2 & Hu2 & _)|(g2 & Hg2 & Hu2 & _)]; congruence.
Qed.

Lemma told_gall c aid a a' fl0 fl1 :
  galls c !! aid = Some a -> gall_ok c fl1 a' -> told c fl0 fl1 (FAll aid) (put_gall c aid a').
Proof.
  intros Ha Hok. split_and!; [done|done|apply length_insert| |].
  - exists a'. simpl. by rewrite list_lookup_insert_eq by (by eapply lookup_lt_Some).
  - intros fl2 l' Hne _. by apply listener_ok_put_gall.
Qed.

(** One listener, told of the change. *)
Lemma run_listener_wp c fl b A D l :
  base_ok typed c -> filter_change (n c) b fl (filters c) A D ->
  0 <= b < kind_width (tkind (filters c)) ->
  (forall k x, aget (tcells fl) k = Some x -> cell_ok (tkind fl) x) ->
  (forall aid, l = FAll aid -> tkind (filters c) = AUntyped \/ b < 31) ->
  listener_ok c fl l ->
  wp (run_filterListener (bit_one b) A D l c) (told c fl (filters c) l).
Proof.
  intros Hbase Hfc Hb Hcells Hlast Hl. destruct l as [|gid|gid|aid].
  - by split_and!.
  - destruct Hl as (g & Hg & Hu & Hok). rewrite <- Hu at 1.
    eapply wp_mono; [by eapply (update_group_wp c fl)|].
    intros c' (g' & -> & Hok' & Hu'). apply (told_grp c gid g); auto.
  - destruct Hl as (g & Hg & Hu & Hok). rewrite <- Hu at 1.
    eapply wp_mono; [by eapply (update_group_wp c fl)|].
    intros c' (g' & -> & Hok' & Hu'). apply (told_grp c gid g); auto.
  - destruct Hl as (a & Ha & Hok). eapply wp_mono; [eapply (groupAll_update_wp c fl); eauto|].
    intros c' (a' & -> & Hok'). by apply (told_gall c aid a).
Qed.

Lemma nodup_head l1 x l2 :
  NoDup (List.filter not_null (l1 ++ x :: l2)) -> x <> FNull -> x ∉ l1.
Proof.
  rewrite List.filter_app. intros (_ & Hd & _)%NoDup_app Hx Hin. apply (Hd x).
  - apply list_elem_of_In, filter_In. split; [by apply list_elem_of_In|]. by apply bool_decide_eq_true.
  - simpl. unfold not_null at 1. rewrite bool_decide_true by done. left.
Qed.

(** All listeners in turn. *)
Lemma notify_each c fl0 fl1 one A D :
  NoDup (List.filter not_null (filterListeners c)) -> (forall l, l ∈ filterListeners c -> listener_ok c fl0 l) ->
  (forall l c', l ∈ filterListeners c -> same_core c c' -> listener_ok c' fl0 l ->
     wp (run_filterListener one A D l c') (told c' fl0 fl1 l)) ->
  wp (notify_filter c one A D) (fun c' =>
    same_core c c' /\ filterListeners c' = filterListeners c /\ length (galls c') = length (galls c) /\
    forall l, l ∈ filterListeners c -> listener_ok c' fl1 l).
Proof.
  intros Hnd Hok Hrun. unfold notify_filter. eapply wp_mono.
  - apply (wp_for_each (fun l1 c' => same_core c c' /\ filterListeners c' = filterListeners c /\
      length (galls c') = length (galls c) /\ forall l, l ∈ filterListeners c -> listener_ok c' (if bool_decide (l ∈ l1) then fl1 else fl0) l)).
    + split_and!; [done..|]. intros l Hl. rewrite bool_decide_false by apply not_elem_of_nil. by apply Hok.
    + intros l1 x l2 c' HE (Hcore & Hfls & Hlen & Hall).
      assert (x ∈ filterListeners c) as Hx by (rewrite HE; apply elem_of_app; right; left).
      assert (listener_ok c' fl0 x) as Hxok.
      { destruct (decide (x = FNull)) as [->|Hne]; [done|]. specialize (Hall x Hx). rewrite bool_decide_false in Hall; [done|].
        rewrite HE in Hnd. by eapply nodup_head. }
      eapply wp_mono; [by apply Hrun|]. intros c2 (Hcore2 & Hfls2 & Hlen2 & Hx2 & Hoth).
      split_and!; [by etrans|congruence|congruence|]. intros l Hl. destruct (decide (l = x)) as [->|Hne].
      { rewrite bool_decide_true; [done|]. apply elem_of_app. right. left. }
      specialize (Hall l Hl). assert (bool_decide (l ∈ l1 ++ [x]) = bool_decide (l ∈ l1)) as ->.
      { apply bool_decide_ext. rewrite elem_of_app, list_elem_of_singleton. naive_solver. }
      apply Hoth; [done| |done]. case_bool_decide; auto.
  - intros c' (Hcore & Hfls & Hlen & Hall). split_and!; [done..|]. intros l Hl. specialize (Hall l Hl).
    by rewrite bool_decide_true in Hall.
Qed.

Lemma notify_wp c fl' b A D :
  base_ok typed c -> groups_ok c -> 0 <= b < kind_width (tkind (filters c)) ->
  Z.testbit (m c) b = true -> filter_change (n c) b (filters c) fl' A D ->
  wp (notify_filter (set_filters c fl') (bit_one b) A D) (fun c' =>
    same_core (set_filters c fl') c' /\ filterListeners c' = filterListeners c /\ groups_ok c').
Proof.
  intros Hbase [Hok Hnd Hlast Hdata Hgalls] Hb Hm Hfc. set (c0 := set_filters c fl').
  assert (base_ok typed c0) as Hbase0.
  { destruct Hfc, Hbase. split; simpl; try done; rewrite ?fc_kind, ?fc_len; try done.
    intros k x Hk. rewrite fc_tail by done. by apply bk_tail. }
  assert (forall aid, FAll aid ∈ filterListeners c -> tkind fl' = AUntyped \/ b < 31) as Hlast'.
  { intros aid Ha. pose proof (kind_width_range _ (bk_kind_ok _ _ Hbase)).
    pose proof (bk_kind _ _ Hbase0) as Hk0. simpl in Hk0.
    destruct (Hlast ltac:(by exists aid)) as [Ht|H31]; [left; by rewrite Hk0, Ht|right].
    destruct (decide (b = 31)) as [->|]; [congruence|lia]. }
  eapply wp_mono.
  - apply (notify_each c0 (filters c) fl'); [done| |].
    + intros l Hl. apply (listener_ok_ext c); try done. by apply Hok.
    + intros l c' Hl Hcore Hxok. pose proof Hcore as [Ed En Em EM Ef _ _ Es]. simpl in *.
      rewrite <- Ef. apply run_listener_wp; rewrite ?En, ?Ef; try done.
      * destruct Hbase0. split; rewrite ?Ed, ?En, ?Em, ?EM, ?Ef; done.
      * by rewrite (fc_kind _ _ _ _ _ _ Hfc).
      * by apply (bk_cells _ _ Hbase).
      * intros aid ->. by eapply Hlast'.
  - intros c' (Hcore & Hfls & Hlen & Hall). simpl in *. split; [done|]. split; [done|]. split.
    + intros l. rewrite Hfls, (sc_filters _ _ Hcore). apply Hall.
    + by rewrite Hfls.
    + rewrite Hfls, (sc_m _ _ Hcore). done.
    + rewrite Hfls, (sc_dataListeners _ _ Hcore). done.
    + rewrite (sc_dataListeners _ _ Hcore), Hlen. done.
Qed.

Lemma keyed_put_dim c did d d' g :
  dims c !! did = Some d -> d_value d' = d_value d -> keyed c g -> keyed (put_dim c did d') g.
Proof.
  intros Hd Hv. apply keyed_same; [done..|]. intros d2. simpl. destruct (decide (g_dim g = did)) as [->|Hne].
  - rewrite list_lookup_insert_eq by (by eapply lookup_lt_Some). intros [= <-]. eauto.
  - rewrite list_lookup_insert_ne by done. eauto.
Qed.

(** The groups look at a dimension's bit and accessor only. *)
Lemma listener_ok_put_dim c did d d' fl l :
  dims c !! did = Some d -> d_one d' = d_one d -> d_zero d' = d_zero d -> d_value d' = d_value d ->
  listener_ok c fl l -> listener_ok (put_dim c did d') fl l.
Proof.
  intros Hd Ho Hz Hv. destruct l as [|gid|gid|aid]; simpl; [done| | |done].
  all: intros (g & Hg & Hu & [Hi Hky Hk (d0 & b0 & w & Hd0 & ? & ? & ? & ? & Hvals)]);
    exists g; split_and!; [done..|]; split; [done|by eapply keyed_put_dim|done|];
    destruct (decide (g_dim g = did)) as [He|Hne]; [exists d', b0, w|exists d0, b0, w]; simpl;
    [rewrite He in *; rewrite list_lookup_insert_eq by (by eapply lookup_lt_Some)|by rewrite list_lookup_insert_ne];
    rewrite Hd in Hd0; injection Hd0 as <-; by rewrite Ho, Hz.
Qed.

Lemma groups_ok_put_dim c did d d' :
  groups_ok c -> dims c !! did = Some d -> d_one d' = d_one d -> d_zero d' = d_zero d -> d_value d' = d_value d ->
  groups_ok (put_dim c did d').
Proof.
  intros [Hok Hnd Hlast Hdata Hgalls] Hd Ho Hz Hv. split; [|done..]. intros l Hl. simpl.
  eapply listener_ok_put_dim; eauto.
Qed.

#[export] Instance GroupListeners : FilterListeners typed groups_ok.
Proof.
  split.
  - intros. eapply wp_mono; [by apply notify_wp|]. by intros c' (? & _ & ?).
  - intros c did d d' Hgo Hd Ho Hz Hv _ _. by eapply groups_ok_put_dim.
Qed.
End groups.
