(* ===== verification/CfShape.v ===== *)
(** * crossfilter: what notifying listeners leaves alone

    The listeners of a filter change the values of groups only: neither which
    listeners there are nor the reduce functions.  This is a second instance of
    the interface [FilterListeners]: the groups are consistent, and of a given
    shape. *)

From S2P Require Import Prelude.
From S2P Require Import Arrays.
From S2P Require Import CfBits.
From S2P Require Import CfCore.
From S2P Require Import CfInv.
From S2P Require Import CfGroups.

Lemma bind_Ret {A B} (a : js A) (k : A -> js B) y :
  a ≫= k = Ret y -> exists x, a = Ret x /\ k x = Ret y.
Proof. destruct a; simpl; [eauto|done..]. Qed.

(** Takes an equation [... = Ret y] apart, one bound call after the other. *)
Ltac ret_inv E :=
  let a := fresh "a" in let Ea := fresh "E" in
  apply bind_Ret in E as (a & Ea & E).

Lemma for_each_ret {L S} (P : S -> Prop) (body : L -> S -> js S) l s s' :
  for_each l body s = Ret s' -> P s -> (forall x s s', body x s = Ret s' -> P s -> P s') -> P s'.
Proof.
  intros E Hs Hstep. revert s E Hs. induction l as [|x l IH]; intros s E Hs; simpl in E; [by injection E as <-|].
  ret_inv E. eauto.
Qed.

Section shape.
Context {R X : Type} `{JsOrdLaws X} (typed : bool).
Abbreviation cf := (@CfCore.cf R X).
Implicit Types c : cf.

Definition shape c : list flistener * list (@reducer R) := (filterListeners c, a_reduce <$> galls c).

Lemma shape_put_gall c aid a a' :
  galls c !! aid = Some a -> a_reduce a' = a_reduce a -> shape (put_gall c aid a') = shape c.
Proof.
  intros Ha Hr. unfold shape. simpl. rewrite list_fmap_insert, Hr, list_insert_id; [done|].
  by rewrite list_lookup_fmap, Ha.
Qed.

Lemma the_gall_inv c aid a : the_gall c aid = Ret a -> galls c !! aid = Some a.
Proof. unfold the_gall. destruct (galls c !! aid); [|done]. by intros [= ->]. Qed.

Lemma run_filterListener_shape one added removed l c c' :
  run_filterListener one added removed l c = Ret c' -> shape c' = shape c.
Proof.
  destruct l as [|gid|gid|aid]; simpl; [by intros [= <-]|unfold updateMany|unfold updateOne|unfold groupAll_update];
    intros E; ret_inv E.
  1, 2: ret_inv E; destruct (_ || _); [by injection E as <-|]; do 2 ret_inv E; by injection E as <-.
  destruct (a_resetNeeded a); [by injection E as <-|]. do 2 ret_inv E. injection E as <-.
  by eapply shape_put_gall; [apply the_gall_inv|].
Qed.

Lemma notify_filter_shape c one added removed c' :
  notify_filter c one added removed = Ret c' -> shape c' = shape c.
Proof.
  intros E. apply (for_each_ret (fun c' => shape c' = shape c) _ _ _ _ E eq_refl).
  intros l c1 c2 E12 E1. by rewrite (run_filterListener_shape _ _ _ _ _ _ E12).
Qed.

Lemma groupAll_value_shape c aid c' v : groupAll_value c aid = Ret (c', v) -> shape c' = shape c.
Proof.
  unfold groupAll_value. intros E. ret_inv E. destruct (a_resetNeeded a); [|by injection E as <- _].
  ret_inv E. injection E as <- _. eapply shape_put_gall; [by apply the_gall_inv|].
  unfold groupAll_reset in E1. ret_inv E1. by injection E1 as <-.
Qed.

#[export] Instance ShapedListeners sh : FilterListeners typed (fun c => groups_ok typed c /\ shape c = sh).
Proof.
  split.
  - intros c fl' b added removed Hb [Hg Hs] Hbit Hm Hch.
    destruct (wp_elim _ _ (fl_notify c fl' b added removed Hb Hg Hbit Hm Hch)) as (c' & E & Hc & Hg').
    rewrite E. simpl. split_and!; [done..|]. by rewrite (notify_filter_shape _ _ _ _ _ E).
  - intros c did d d' [Hg Hs] Hd Ho Hz Hv Hi Hgr. split; [|done]. by apply (fl_dims c did d d').
Qed.
End shape.
