(* ===== verification/CfAdd.v ===== *)
(** * crossfilter: adding records

    [preAdd] of a dimension sorts the new values, marks the new records its
    filter leaves out, and merges them into the values and the index; [add]
    does this for every dimension, [dimension] for a new one.  Both preserve
    the invariant of [CfInv]. *)

From S2P Require Import Prelude.
From S2P Require Import Arrays.
From S2P Require Import Sums.
From S2P Require Import CfBisect.
From S2P Require Import CfQuicksort.
From S2P Require Import CfQuicksortCorrect.
From S2P Require Import CfArray.
From S2P Require Import CfBits.
From S2P Require Import CfCore.
From S2P Require Import CfInv.
From S2P Require Import CfFilter.
From S2P Require Import CfSelect.
From S2P Require Import CfMerge.
From S2P Require Import CfGroups.

Section marks.
Context {R X : Type} `{JsOrdLaws X} (d : @dim R X) (b n0 n1 : Z) (fl newIndex : tarr) (newValues : list X).
Context (Hn0 : 0 <= n0) (Hn1 : 0 <= n1).
Context (Hkd : kind_ok (tkind fl)) (Hb : 0 <= b < kind_width (tkind fl)) (Hlen : n0 + n1 <= tlen fl).
Context (Hcells : forall k x, aget (tcells fl) k = Some x -> cell_ok (tkind fl) x).
Context (Hclear : forall k x, n0 <= k -> aget (tcells fl) k = Some x -> Z.testbit x b = false).
Context (Hnv : alen newValues = n1) (Hni : tcells newIndex ≡ₚ seqZ 0 n1).
Context (Hone : d_one d = bit_one b).

(** Exactly the new records with rank in [P] have been marked. *)
Definition marked (P : Z -> Prop) (fl' : tarr) : Prop :=
  exists D, filter_change (n0 + n1) b fl fl' [] D /\
    forall k', k' ∈ D <-> exists i k, 0 <= i < n1 /\ P i /\ aget (tcells newIndex) i = Some k /\ k' = k + n0.

Lemma marked_ext (P Q : Z -> Prop) fl' :
  (forall i, 0 <= i < n1 -> P i <-> Q i) -> marked P fl' -> marked Q fl'.
Proof.
  intros He (D & Hfc & HD). exists D. split; [done|]. intros k'. rewrite HD.
  split; intros (i & k & Hi & HP & Hk & E); exists i, k; (split; [done|]; split; [by apply He|done]).
Qed.

Lemma newIndex_inj i j k :
  aget (tcells newIndex) i = Some k -> aget (tcells newIndex) j = Some k -> i = j.
Proof.
  intros Hi Hj. assert (NoDup (tcells newIndex)) as Hnd by (rewrite Hni; apply NoDup_seqZ).
  unfold aget in *. destruct (Z.leb_spec 0 i), (Z.leb_spec 0 j); try done.
  apply Z2Nat.inj; [done..|]. by eapply NoDup_lookup.
Qed.

Lemma mark_step P i fl' :
  0 <= i < n1 -> marked P fl' -> ~ P i ->
  wp (k ← trd newIndex i; filter_or fl' (k + n0) (d_one d)) (marked (fun j => P j \/ j = i)).
Proof.
  intros Hi (D & Hfc & HD) HP. destruct (newIndex_at newIndex n1 Hn1 Hni i Hi) as (k & Hk & Hkn).
  unfold trd. rewrite (rd_Some _ _ _ Hk). simpl. rewrite Hone.
  destruct (aget_is_Some (tcells fl) (k + n0)) as [x Hx]; [unfold tlen in *; lia|].
  assert (Z.testbit x b = false) as Hxb by (apply (Hclear (k + n0)); [lia|done]).
  eapply wp_mono.
  - eapply (assign_wp (n0 + n1) b fl fl' [] D (k + n0) x (fun y => js_or y (bit_one b))); try done; try lia.
    + apply not_elem_of_nil.
    + rewrite HD. intros (j & k2 & Hj & HPj & Hk2 & E). assert (k2 = k) as -> by lia.
      assert (j = i) as -> by by eapply newIndex_inj. done.
    + intros y Hy. rewrite Hxb. by apply or_changed.
  - intros fl2. rewrite Hxb. intros Hfc2. exists (D ++ [k + n0]). split; [done|].
    intros k'. rewrite elem_of_app, list_elem_of_singleton, HD. split.
    + intros [(j & k2 & ? & ? & ? & ?)| ->]; [exists j, k2|exists i, k]; split_and!; auto; lia.
    + intros (j & k2 & Hj & [HPj| ->] & Hk2 & ->); [left; eauto 10|right]. congruence.
Qed.

Lemma mark_new_wp lo1 hi1 :
  bounds_ok (d_refilter d) newValues lo1 hi1 ->
  match d_refilterFunction d with Some f => value_only f | None => True end ->
  wp (mark_new fl d newValues newIndex n0 n1 lo1 hi1)
     (marked (fun i => exists v, aget newValues i = Some v /\ passes d v = false)).
Proof.
  intros (Hb1 & Hb2 & Hpass) Hf. rewrite Hnv in Hb2.
  assert (marked (fun _ => False) fl) as Hstart.
  { exists []. split; [by apply filter_change_refl|]. intros k'. rewrite elem_of_nil. naive_solver. }
  unfold mark_new, passes. destruct (d_refilterFunction d) as [f|].
  - eapply wp_mono.
    + apply (wp_for (fun i => marked (fun j => j < i /\ exists v, aget newValues j = Some v /\ f v 0 = false)));
        [done| |].
      * eapply marked_ext; [|done]. intros i Hi. split; [done|lia].
      * intros i fl' Hi Hm. destruct (aget_is_Some newValues i) as [v Hv]; [lia|].
        rewrite (rd_Some _ _ _ Hv). simpl. rewrite Hf. destruct (f v 0) eqn:Ev.
        -- eapply marked_ext; [|exact Hm]. intros j Hj. split; [naive_solver lia|].
           intros [Hji (u & Hu & Eu)]. split; [|eauto]. destruct (decide (j = i)); [congruence|lia].
        -- eapply wp_mono; [apply mark_step; [done|exact Hm|intros [? _]; lia]|]. intros fl2. apply marked_ext.
           intros j Hj. split; [intros [[Hji HP]| ->]; split; eauto; lia|].
           intros [Hji HP]. destruct (decide (j = i)); [by right|left]. split; [lia|done].
    + intros fl' Hm. eapply marked_ext; [|exact Hm]. naive_solver lia.
  - apply wp_bind. eapply wp_mono.
    + apply (wp_for (fun i => marked (fun j => j < i))); [lia|eapply marked_ext; [|done]; naive_solver lia|].
      intros i fl' Hi Hm. eapply wp_mono; [apply mark_step; [lia|exact Hm|cbn; lia]|].
      intros fl2. apply marked_ext. intros; cbn; lia.
    + intros fl1 Hm1. eapply wp_mono.
      * apply (wp_for (fun i => marked (fun j => j < lo1 \/ hi1 <= j < i))); [lia| |].
        -- eapply marked_ext; [|exact Hm1]. intros; cbn; lia.
        -- intros i fl' Hi Hm. eapply wp_mono; [apply mark_step; [lia|exact Hm|cbn; lia]|].
           intros fl2. apply marked_ext. intros; cbn; lia.
      * intros fl2. apply marked_ext. intros i Hi.
        destruct (aget_is_Some newValues i) as [v Hv]; [lia|]. rewrite Hv. specialize (Hpass i v Hv).
        pose proof (in_range_true lo1 hi1 i) as Hr. rewrite <- Hpass in Hr. split.
        -- intros Hout. exists v. split; [done|]. destruct (refilter_passes _ v); [|done]. lia.
        -- intros (u & [= <-] & Hu). rewrite Hu in Hr. destruct (decide (lo1 <= i < hi1)) as [Hin|]; [|lia].
           apply Hr in Hin. done.
Qed.
End marks.

Section add.
Context {R X : Type} `{JsOrdLaws X} (undef null : X) (typed : bool).
Abbreviation cf := (@CfCore.cf R X).
Abbreviation dim := (@CfCore.dim R X).
Implicit Types (c : cf) (d : dim) (fl : tarr) (newData : list R).

(** [dim_ok] for the first [u] records; the bit is clear for the others. *)
Record dim_upto c (u : Z) d : Prop := DimUpto {
  du_zero : d_zero d = js_not (d_one d);
  du_ranked : ranked (data c) u (d_value d) (d_values d) (tcells (d_index d));
  du_refilter : refilter_ok (d_refilter d);
  du_bounds : refilter_run (d_refilter d) (d_values d) = Ret (d_lo0 d, d_hi0 d);
  du_function : match d_refilterFunction d with
                | Some f => value_only f /\ d_refilter d = FilterAll
                | None => True
                end;
  du_bit : exists b, 0 <= b < kind_width (tkind (filters c)) /\ d_one d = bit_one b
    /\ Z.testbit (m c) b = true
    /\ (forall k r x, 0 <= k < u -> aget (data c) k = Some r -> aget (tcells (filters c)) k = Some x ->
          Z.testbit x b = negb (passes d (d_value d r)))
    /\ (forall k x, u <= k -> aget (tcells (filters c)) k = Some x -> Z.testbit x b = false);
  du_fits : forall x, 0 <= x < u -> tstore (tkind (d_index d)) x = x
}.

Lemma dim_upto_ok c d : dim_upto c (n c) d -> dim_ok c d.
Proof.
  intros [? ? ? ? ? (b & ? & ? & ? & Hbits & _) ?]. split; try done. by exists b.
Qed.

Lemma dim_ok_upto c d : base_ok typed c -> dim_ok c d -> dim_upto c (n c) d.
Proof.
  intros Hbase [? ? ? ? ? (b & ? & ? & ? & Hbits) ?]. split; try done. exists b. split_and!; try done; try lia.
  intros k x Hk Hx. by rewrite (bk_tail _ _ Hbase k x Hk Hx), Z.bits_0.
Qed.

(** What adding records leaves alone in a dimension. *)
Record added_dim d d' : Prop := AddedDim {
  ad_value : d_value d' = d_value d;
  ad_one : d_one d' = d_one d;
  ad_zero : d_zero d' = d_zero d;
  ad_refilter : d_refilter d' = d_refilter d;
  ad_refilterFunction : d_refilterFunction d' = d_refilterFunction d;
  ad_indexListeners : d_indexListeners d' = d_indexListeners d;
  ad_dimensionGroups : d_dimensionGroups d' = d_dimensionGroups d
}.

(** The sorted values of the [n1] records after the first [n0]. *)
Record new_values c d (newValues : list X) (newIndex : tarr) (n0 n1 : Z) : Prop := NewValues {
  nv_len : alen newValues = n1;
  nv_perm : slice (tcells newIndex) 0 n1 ≡ₚ seqZ 0 n1;
  nv_sorted : sorted crossfilter_identity newValues 0 n1;
  nv_at : forall j p, 0 <= j < n1 -> aget (tcells newIndex) j = Some p ->
    exists r, aget (data c) (p + n0) = Some r /\ aget newValues j = Some (d_value d r)
}.

Lemma new_values_ext c c' d d' newValues newIndex n0 n1 :
  data c' = data c -> d_value d' = d_value d ->
  new_values c d newValues newIndex n0 n1 -> new_values c' d' newValues newIndex n0 n1.
Proof. intros Ed Ev []. split; try done. by rewrite Ed, Ev. Qed.

Section preAdd.
Context c (did : nat) d newData (n0 n1 : Z).
Context (Hd : dims c !! did = Some d) (Hn0 : 0 <= n0) (Hn : n c = n0 + n1).
Context (Hsmall : n c <= 2 ^ 30) (Hlen : n c <= tlen (filters c)) (Hnd : alen newData = n1).
Context (Hdat : forall k, 0 <= k -> aget (data c) (k + n0) = aget newData k).
Context (Hkd : kind_ok (tkind (filters c))).
Context (Hcells : forall k x, aget (tcells (filters c)) k = Some x -> cell_ok (tkind (filters c)) x).
Context (Hup : dim_upto c n0 d).
Context (Hnat : forall r, r ∈ newData -> natural (d_value d r)).

Let newValue (i : Z) : X := default undef (aget (map (d_value d) newData) i).

Lemma n1_nonneg : 0 <= n1.
Proof. rewrite <- Hnd. apply alen_nonneg. Qed.

Lemma newValue_at k : 0 <= k < n1 -> exists r, aget newData k = Some r /\ newValue k = d_value d r
  /\ natural (d_value d r).
Proof.
  intros Hk. destruct (aget_is_Some newData k) as [r Hr]; [lia|]. exists r. split; [done|]. split.
  - unfold newValue, aget in *. destruct (0 <=? k); [|done].
    change (map (d_value d) newData) with (d_value d <$> newData).
    by rewrite list_lookup_fmap, Hr.
  - apply Hnat. unfold aget in Hr. destruct (0 <=? k); [|done]. by eapply list_elem_of_lookup_2.
Qed.

(** The sorted ids of the new records, and their values. *)
Definition new_sorted (cells : list Z) : Prop :=
  cells ≡ₚ seqZ 0 n1 /\ sorted newValue cells 0 n1.

Lemma new_sorted_wp :
  wp (CfQuicksort.sort newValue (seqZ 0 n1) 0 n1) new_sorted.
Proof.
  pose proof n1_nonneg. eapply wp_mono.
  - apply quicksort_sort_wp; rewrite ?alen_seqZ by lia; try lia.
    intros i k Hi Hk. assert (k = i) as ->.
    { unfold aget in Hk. destruct (Z.leb_spec 0 i); [|lia]. rewrite lookup_seqZ in Hk. lia. }
    by destruct (newValue_at i Hi) as (r & _ & -> & ?).
  - intros cells [[Hp _] Hs]. by split.
Qed.

Section new.
Context (cells : list Z) (Hns : new_sorted cells).
Let newValues := permute undef (map (d_value d) newData) cells.

Lemma newValues_at i : aget newValues i = newValue <$> aget cells i.
Proof.
  unfold newValues, permute, aget. destruct (0 <=? i); [|done].
  change (map ?f cells) with (f <$> cells). apply list_lookup_fmap.
Qed.

Lemma newValues_len : alen newValues = n1.
Proof.
  pose proof n1_nonneg. unfold newValues, permute, alen.
  rewrite length_map, (Permutation_length (proj1 Hns)), length_seqZ. lia.
Qed.

Lemma newValues_record i k :
  aget cells i = Some k -> exists r, aget (data c) (k + n0) = Some r /\ aget newValues i = Some (d_value d r)
    /\ 0 <= k < n1.
Proof.
  intros Hk. assert (k ∈ cells) as Hin.
  { unfold aget in Hk. destruct (0 <=? i); [|done]. by eapply list_elem_of_lookup_2. }
  rewrite (proj1 Hns) in Hin. apply elem_of_seqZ in Hin.
  destruct (newValue_at k ltac:(lia)) as (r & Hr & Hv & _). exists r.
  rewrite Hdat by lia. rewrite newValues_at, Hk. simpl. rewrite Hv. split_and!; done || lia.
Qed.

Lemma newValues_sorted : sorted crossfilter_identity newValues 0 n1.
Proof.
  intros i j x y Hi Hij Hj. rewrite !newValues_at.
  destruct (aget cells i) as [k|] eqn:Ek; [|done]. destruct (aget cells j) as [k'|] eqn:Ek'; [|done].
  intros [= <-] [= <-]. exact (proj2 Hns i j k k' Hi Hij Hj Ek Ek').
Qed.

Lemma newValues_new t : tcells t = cells -> new_values c d newValues t n0 n1.
Proof.
  intros E. split; rewrite ?E; [apply newValues_len| |apply newValues_sorted|].
  - destruct Hns as [Hp _]. rewrite slice_all; [done|]. pose proof n1_nonneg. unfold alen.
    rewrite (Permutation_length Hp), length_seqZ. lia.
  - intros i k _ Hk. destruct (newValues_record i k Hk) as (r & ? & ? & _). eauto.
Qed.

Lemma newValues_ranked t : tcells t = cells -> n0 = 0 -> ranked (data c) n1 (d_value d) newValues cells.
Proof.
  intros Et E. destruct (newValues_new t Et) as [Hl Hp Hs Hat]. rewrite Et, E in *. split; try done.
  intros i k Hi Hk. destruct (Hat i k Hi Hk) as (r & Hr & Hv). rewrite Z.add_0_r in Hr. eauto.
Qed.

(** The bits after marking are those of the filter, for all records. *)
Lemma marked_bits b kind fl' D :
  (forall k r x, 0 <= k < n0 -> aget (data c) k = Some r -> aget (tcells (filters c)) k = Some x ->
     Z.testbit x b = negb (passes d (d_value d r))) ->
  (forall k x, n0 <= k -> aget (tcells (filters c)) k = Some x -> Z.testbit x b = false) ->
  filter_change (n0 + n1) b (filters c) fl' [] D ->
  (forall k', k' ∈ D <-> exists i k, 0 <= i < n1 /\
     (exists v, aget newValues i = Some v /\ passes d v = false) /\
     aget (tcells (TArr kind cells)) i = Some k /\ k' = k + n0) ->
  (forall k r x, 0 <= k < n c -> aget (data c) k = Some r -> aget (tcells fl') k = Some x ->
     Z.testbit x b = negb (passes d (d_value d r))) /\
  (forall k x, n c <= k -> aget (tcells fl') k = Some x -> Z.testbit x b = false).
Proof.
  intros Hold Hclear Hfc HD. pose proof n1_nonneg. split.
  - intros k r x Hk Hr Hx. destruct (aget_is_Some (tcells (filters c)) k) as [x0 Hx0].
    { unfold tlen in *. lia. }
    rewrite (filter_change_bit _ _ _ _ _ _ k _ _ Hfc ltac:(lia) Hx0 Hx).
    rewrite (bool_decide_false (k ∈ [])) by apply not_elem_of_nil.
    destruct (decide (k < n0)).
    + rewrite bool_decide_false; [by apply (Hold k); [lia|..]|]. rewrite HD.
      intros (i & k1 & _ & _ & Hk1 & ->). destruct (newValues_record i k1 Hk1) as (_ & _ & _ & ?). lia.
    + assert (k - n0 ∈ cells) as [i Hi]%list_elem_of_lookup
        by (rewrite (proj1 Hns); apply elem_of_seqZ; lia).
      assert (aget cells (Z.of_nat i) = Some (k - n0)) as Hi'.
      { unfold aget. destruct (Z.leb_spec 0 (Z.of_nat i)); [by rewrite Nat2Z.id|lia]. }
      destruct (newValues_record _ _ Hi') as (r' & Hr' & Hv' & _).
      replace (k - n0 + n0) with k in Hr' by lia. rewrite Hr in Hr'. injection Hr' as <-.
      rewrite (Hclear k x0) by (done || lia).
      assert (k ∈ D <-> passes d (d_value d r) = false) as HkD.
      { rewrite HD. split.
        - intros (j & k1 & Hj & (v & Hv & Hp) & Hk1 & E). assert (k1 = k - n0) as -> by lia.
          assert (j = Z.of_nat i) as -> by (eapply (newIndex_inj n1 (TArr kind cells) (proj1 Hns)); done).
          congruence.
        - intros Hp. exists (Z.of_nat i), (k - n0). apply lookup_lt_Some in Hi.
          rewrite (Permutation_length (proj1 Hns)), length_seqZ in Hi. split_and!; eauto with lia. }
      rewrite (bool_decide_ext _ _ HkD). destruct (passes d (d_value d r)); by repeat case_bool_decide.
  - intros k x Hk Hx. rewrite (fc_tail _ _ _ _ _ _ Hfc) in Hx by lia. apply (Hclear k); [lia|done].
Qed.
End new.

Lemma preAdd_wp :
  wp (preAdd undef typed c did newData n0 n1) (fun c' => exists fl' b D d',
    c' = put_dim (set_filters c fl') did d' /\
    0 <= b < kind_width (tkind (filters c)) /\ d_one d = bit_one b /\
    filter_change (n c) b (filters c) fl' [] D /\ (forall k, k ∈ D -> n0 <= k) /\
    added_dim d d' /\ dim_upto c' (n c) d' /\ new_values c d (d_newValues d') (d_newIndex d') n0 n1).
Proof.
  destruct Hup as [Hz Hrk Hro Hrun Hfn (b & Hb & Hone & Hm & Hbits & Hclear) _].
  pose proof n1_nonneg as Hn1. unfold preAdd. rewrite (the_dim_ret _ _ _ Hd). simpl.
  apply wp_bind. eapply wp_mono; [apply crossfilter_range_wp; lia|]. intros range [Hrkd ->].
  apply wp_bind. eapply wp_mono; [apply new_sorted_wp|]. intros cells Hns.
  set (newValues := permute undef (map (d_value d) newData) cells).
  pose proof (newValues_len cells Hns) as Hnv. pose proof (newValues_sorted cells Hns) as Hsort.
  assert (wp (refilter_run (d_refilter d) newValues) (fun '(lo, hi) =>
    bounds_ok (d_refilter d) newValues lo hi)) as Hw.
  { apply refilter_run_wp; [done|..]; unfold newValues; rewrite Hnv; [lia|done]. }
  apply wp_elim in Hw as ([lo1 hi1] & Hrun1 & Hbo). rewrite Hrun1. simpl.
  apply wp_bind. eapply wp_mono.
  { apply (mark_new_wp d b n0 n1 (filters c)); try done; try lia; [apply Hns|].
    destruct (d_refilterFunction d); [apply Hfn|done]. }
  intros fl' (D & Hfc & HD).
  destruct (marked_bits cells Hns b (tkind range) fl' D Hbits Hclear Hfc HD) as [Hbits' Hclear'].
  assert (forall d', added_dim d d' ->
    refilter_run (d_refilter d) (d_values d') = Ret (d_lo0 d', d_hi0 d') ->
    ranked (data c) (n c) (d_value d) (d_values d') (tcells (d_index d')) ->
    d_newValues d' = newValues -> tcells (d_newIndex d') = cells ->
    tkind (d_index d') = tkind (crossfilter_index typed (n c) (n c)) ->
    exists fl'' b' D' d'', put_dim (set_filters c fl') did d' = put_dim (set_filters c fl'') did d''
    /\ 0 <= b' < kind_width (tkind (filters c)) /\ d_one d = bit_one b' /\ filter_change (n c) b' (filters c) fl'' [] D'
    /\ (forall k, k ∈ D' -> n0 <= k) /\ added_dim d d'' /\ dim_upto (put_dim (set_filters c fl') did d') (n c) d''
    /\ new_values c d (d_newValues d'') (d_newIndex d'') n0 n1) as Hdone.
  { intros d' Had Hr Hrk' Hnewv Hnewi Hkind. exists fl', b, D, d'. rewrite <- Hn in Hfc. split_and!; try done; try lia.
    { intros k (i & k1 & _ & _ & Hk1 & ->)%HD. destruct (newValues_record cells Hns i k1 Hk1) as (_ & _ & _ & ?). lia. }
    2: { rewrite Hnewv. by apply newValues_new. }
    destruct Had as [Ev Eo Ez Er Ef _ _]. split; rewrite ?Ev, ?Eo, ?Ez, ?Er, ?Ef; try done.
    - exists b. simpl. rewrite (fc_kind _ _ _ _ _ _ Hfc). unfold passes. rewrite Er, Ef.
      split_and!; try done; lia.
    - intros x Hx. rewrite Hkind. apply index_fits; lia. }
  destruct (Z.eqb_spec n0 0) as [E|Hne].
  - apply Hdone; try done; simpl; replace (n c) with n1 by lia; [|done]. by apply (newValues_ranked cells Hns (TArr (tkind range) cells)).
  - apply wp_bind. eapply wp_mono.
    + apply (merge_sorted_wp (data c) (d_value d)); try done.
      * apply Hns.
      * intros i k Hk. destruct (newValues_record cells Hns i k Hk) as (r & ? & ? & _). eauto.
      * intros k Hk. simpl. apply index_fits; simpl; lia.
    + intros [values index] Hmg. simpl.
      assert (ranked (data c) (n0 + n1) (d_value d) values index) as Hrk'
        by (eapply merged_ranked; [..|exact Hmg]; try done; apply Hns).
      rewrite <- Hn in Hrk'.
      assert (wp (refilter_run (d_refilter d) values) (fun _ => True)) as Hw.
      { eapply wp_mono; [apply refilter_run_wp; rewrite ?(rk_values _ _ _ _ _ Hrk'); [done|lia|apply Hrk']|].
        by intros []. }
      apply wp_elim in Hw as ([lo0 hi0] & Hrun0 & _). rewrite Hrun0. simpl. by apply Hdone.
Qed.
End preAdd.
End add.
