(* ===== verification/CfDimension.v ===== *)
(** * crossfilter: creating dimensions

    [dimension] takes the lowest bit no other dimension uses, widens the
    filter array when that bit does not fit, and incorporates the existing
    records. *)

From S2P Require Import Prelude.
From S2P Require Import Arrays.
From S2P Require Import Sums.
From S2P Require Import CfBisect.
From S2P Require Import CfArray.
From S2P Require Import CfBits.
From S2P Require Import CfCore.
From S2P Require Import CfInv.
From S2P Require Import CfFilter.
From S2P Require Import CfSelect.
From S2P Require Import CfMerge.
From S2P Require Import CfGroups.
From S2P Require Import CfAdd.

(** ** Widening *)

Lemma cell_ext kd x y :
  kind_ok kd -> cell_ok kd x -> cell_ok kd y ->
  (forall i, 0 <= i < kind_width kd -> Z.testbit x i = Z.testbit y i) -> x = y.
Proof.
  intros Hk Hx Hy He. destruct kd as [|w]; simpl in *; [by apply int32_ext|].
  apply Z.bits_inj'. intros i Hi. destruct (decide (i < w)); [apply He; lia|].
  rewrite <- (Z.mod_small x (2 ^ w)), <- (Z.mod_small y (2 ^ w)) by done.
  by rewrite !Z.mod_pow2_bits_high by lia.
Qed.

(** Wider cells hold the same numbers. *)
Lemma widen_cells w w' l :
  0 <= w <= w' -> (forall k x, aget l k = Some x -> cell_ok (AUint w) x) ->
  map (tstore (AUint w')) l = l.
Proof.
  intros Hw Hl. rewrite <- (map_id l) at 2. apply map_ext_in. intros x Hx.
  apply list_elem_of_In, list_elem_of_lookup in Hx as [i Hi].
  assert (0 <= x < 2 ^ w) as Hx.
  { apply (Hl (Z.of_nat i)). unfold aget. destruct (Z.leb_spec 0 (Z.of_nat i)); [by rewrite Nat2Z.id|lia]. }
  assert (2 ^ w <= 2 ^ w') by (apply Z.pow_le_mono_r; lia). apply Z.mod_small. lia.
Qed.

Lemma filter_change_nil n b fl fl' :
  kind_ok (tkind fl) -> (forall k x, aget (tcells fl) k = Some x -> cell_ok (tkind fl) x) ->
  filter_change n b fl fl' [] [] -> tcells fl' = tcells fl.
Proof.
  intros Hkd Hcells Hfc. pose proof (fc_len _ _ _ _ _ _ Hfc) as Hl. unfold tlen in Hl.
  apply aget_ext; [done|]. intros k Hk. destruct (decide (n <= k)); [by apply Hfc|].
  destruct (aget_is_Some (tcells fl) k) as [x Hx]; [lia|].
  destruct (aget_is_Some (tcells fl') k) as [x' Hx']; [lia|]. rewrite Hx, Hx'. f_equal.
  apply (cell_ext (tkind fl)); [done| |by eapply Hcells|].
  { rewrite <- (fc_kind _ _ _ _ _ _ Hfc). by eapply (fc_cells _ _ _ _ _ _ Hfc). }
  intros i Hi. destruct (decide (i = b)) as [->|Hne].
  - rewrite (filter_change_bit _ _ _ _ _ _ k x x' Hfc) by (done || lia).
    by rewrite !bool_decide_false by apply not_elem_of_nil.
  - by eapply (fc_other _ _ _ _ _ _ Hfc k).
Qed.

(** The mask of dimensions in use, with one more. *)
Lemma mask_bits m b i :
  0 <= b < 32 -> 0 <= i < 32 ->
  Z.testbit (js_or m (bit_one b)) i = Z.testbit m i || bool_decide (i = b).
Proof. intros Hb Hi. by rewrite testbit_js_or, testbit_bit_one by lia. Qed.

(** [-(1 << M)] has the bits from [M] on. *)
Lemma high_mask M i : M = 8 \/ M = 16 -> 0 <= i < 32 -> Z.testbit (- js_shl 1 M) i = (M <=? i).
Proof.
  intros HM Hi. assert (- js_shl 1 M = Z.lnot (Z.ones M)) as -> by (by destruct HM as [-> | ->]).
  rewrite Z.lnot_spec, Z.testbit_ones by lia.
  destruct (Z.leb_spec 0 i); [simpl|lia]. destruct (Z.ltb_spec i M), (Z.leb_spec M i); lia || done.
Qed.

(** The test that decides on widening: does the new bit fit in [M]? *)
Lemma widen_test m M b :
  M = 8 \/ M = 16 \/ M = 32 -> 0 <= b < 32 ->
  (forall i, M <= i < 32 -> Z.testbit m i = false) ->
  (if 32 <=? M then bit_one b =? 0 else truthy (js_and (js_or m (bit_one b)) (- js_shl 1 M))) = (M <=? b).
Proof.
  intros HM Hb Hmask. pose proof (bit_one_nonzero b Hb) as Hnz.
  destruct (Z.leb_spec 32 M) as [H32|Hlt].
  { destruct (Z.eqb_spec (bit_one b) 0); [done|]. destruct (Z.leb_spec M b); [lia|done]. }
  assert (HM' : M = 8 \/ M = 16) by lia. unfold truthy.
  destruct (Z.leb_spec M b) as [Hle|Hgt].
  - apply negb_true_iff, Z.eqb_neq. rewrite and_zero_bits. intros Hall. specialize (Hall b Hb).
    rewrite mask_bits, high_mask in Hall by done. rewrite bool_decide_true, orb_true_r in Hall by done.
    destruct (Z.leb_spec M b); [done|lia].
  - apply negb_false_iff, Z.eqb_eq, and_zero_bits. intros i Hi.
    rewrite mask_bits, high_mask by done. destruct (Z.leb_spec M i); [|apply andb_false_r].
    rewrite Hmask, bool_decide_false by lia. done.
Qed.

Section dimension.
Context {R X : Type} `{JsOrdLaws X} (undef null : X) (typed : bool).
Abbreviation cf := (@CfCore.cf R X).
Abbreviation dim := (@CfCore.dim R X).
Implicit Types (c : cf) (d : dim) (fl : tarr).

(** The filter array and the number of bits [dimension] continues with. *)
Definition widened c fl (M' : Z) : Prop :=
  tcells fl = tcells (filters c) /\ tkind fl = (if typed then AUint M' else AUntyped) /\
  (M' = 8 \/ M' = 16 \/ M' = 32) /\ M c <= M'.

Lemma widen_wp c b :
  base_ok typed c -> 0 <= b < 32 -> (forall i, 0 <= i < b -> Z.testbit (m c) i = true) ->
  wp (if M c <=? b then
        fl ← crossfilter_arrayWiden typed (filters c) (js_shl (M c) 1);
        Ret (fl, js_shl (M c) 1)
      else Ret (filters c, M c)) (fun '(fl, M') => widened c fl M' /\ b < M').
Proof.
  intros Hbase Hb Hlow. destruct Hbase. destruct (Z.leb_spec (M c) b) as [Hle|Hgt].
  - assert (b = M c) as Eb.
    { destruct (decide (b = M c)); [done|]. specialize (Hlow (M c) ltac:(lia)).
      rewrite bk_mask in Hlow by lia. done. }
    assert (js_shl (M c) 1 = 2 * M c) as -> by (destruct bk_width as [->|[->| ->]]; done).
    assert (2 * M c = 16 \/ 2 * M c = 32) as HM by lia.
    unfold crossfilter_arrayWiden, crossfilter_arrayWidenUntyped, widened. destruct typed.
    + assert (map (tstore (AUint (2 * M c))) (tcells (filters c)) = tcells (filters c)) as Hmap.
      { apply (widen_cells (M c)); [lia..|]. intros k x Hx. specialize (bk_cells k x Hx).
        by rewrite bk_kind in bk_cells. }
      destruct (Z.eqb_spec (2 * M c) 16), (Z.eqb_spec (2 * M c) 32); try lia; simpl; split_and!; done || lia.
    + destruct (Z.gtb_spec (2 * M c) 32); [lia|]. simpl. split_and!; done || lia.
  - split_and!; done || lia.
Qed.

(** ** The state with the new dimension *)

Section extended.
Context c (Hc : cf_ok typed c) (b : Z) (Hb : 0 <= b < 32) (Hfree : Z.testbit (m c) b = false).
Context c' d.
Context (Ed : data c' = data c) (En : n c' = n c) (Em : m c' = js_or (m c) (bit_one b)).
Context (Hw : widened c (filters c') (M c')) (HbM : b < M c').
Context (El : dataListeners c' = DPre (length (dims c)) :: dataListeners c ++ [DPost (length (dims c))]).
Context (Es : dims c' = dims c ++ [d]).

Let did := length (dims c).

Lemma listed_lt did' : DPre did' ∈ dataListeners c \/ DPost did' ∈ dataListeners c -> (did' < did)%nat.
Proof. intros Hl. by apply lookup_lt_is_Some, (ck_listed _ _ Hc). Qed.

Lemma live_extended did' d' : live c' did' d' <-> (did' = did /\ d' = d) \/ live c did' d'.
Proof.
  unfold live. rewrite Es, El. split.
  - intros [Hd' Hl]. destruct (decide (did' = did)) as [->|Hne].
    + left. unfold did in Hd'. rewrite list_lookup_middle in Hd' by done. by simplify_eq.
    + right. rewrite elem_of_cons, elem_of_app, list_elem_of_singleton in Hl.
      destruct Hl as [[= E]|[Hl|]]; [done| |done]. split; [|done].
      rewrite lookup_app_l in Hd'; [done|]. by apply listed_lt; left.
  - intros [[-> ->]|[Hd' Hl]].
    + split; [by apply list_lookup_middle|left].
    + split; [by apply lookup_app_l_Some|]. right. apply elem_of_app. by left.
Qed.

Lemma extended_width : kind_width (tkind (filters c)) <= kind_width (tkind (filters c')).
Proof.
  destruct Hw as (_ & -> & _ & Hle). rewrite (bk_kind _ _ (ck_base _ _ Hc)). by destruct typed.
Qed.

Lemma extended_base : base_ok typed c'.
Proof.
  destruct Hw as (Hcells & Hkind & HM & Hle). destruct (ck_base _ _ Hc).
  split; rewrite ?Ed, ?En, ?Em; try done.
  - apply js_or_range.
  - intros i Hi. rewrite mask_bits by lia. rewrite bk_mask, bool_decide_false by lia. done.
  - unfold tlen. by rewrite Hcells.
  - intros k x. rewrite Hcells, Hkind. intros Hx. specialize (bk_cells k x Hx). rewrite bk_kind in bk_cells.
    destruct typed; [|done]. simpl in *. assert (2 ^ M c <= 2 ^ M c') by (apply Z.pow_le_mono_r; lia). lia.
  - by rewrite Hcells.
Qed.

Lemma extended_dim d' : dim_ok c d' -> dim_ok c' d'.
Proof.
  intros [? ? ? ? ? (b' & Hb' & Hone & Hm & Hbits)]. pose proof extended_width.
  pose proof (kind_width_range _ (bk_kind_ok _ _ (ck_base _ _ Hc))).
  split; rewrite ?Ed, ?En; try done. exists b'. rewrite (proj1 Hw). split_and!; try done; try lia.
  rewrite Em, mask_bits, Hm by lia. done.
Qed.

Lemma extended_ok : d_one d = bit_one b -> dim_ok c' d -> cf_ok typed c'.
Proof.
  intros Hone Hd. split.
  - apply extended_base.
  - intros i k x Hi. rewrite Em, mask_bits, (proj1 Hw) by lia. intros [Hmi Hne]%orb_false_iff Hx.
    by apply (ck_unused _ _ Hc i k x).
  - intros i Hi. rewrite Em, mask_bits by lia. intros [Hmi|Hi']%orb_true_iff.
    + destruct (ck_owned _ _ Hc i Hi Hmi) as (did' & d' & Hl & Ho). exists did', d'.
      rewrite live_extended. auto.
    + apply bool_decide_eq_true in Hi' as ->. exists did, d. rewrite live_extended. auto.
  - assert (forall did' d', live c did' d' -> d_one d' <> bit_one b) as Hneq.
    { intros did' d' Hl Ho. destruct (ck_dims _ _ Hc _ _ Hl) as [_ _ _ _ _ (b' & Hb' & Ho' & Hm' & _)].
      pose proof (kind_width_range _ (bk_kind_ok _ _ (ck_base _ _ Hc))).
      assert (b = b') as -> by (apply bit_one_inj; [lia..|congruence]). congruence. }
    intros e e' de de'. rewrite !live_extended.
    intros [[-> ->]|He] [[-> ->]|He'] E; [done| | |by eapply (ck_unique _ _ Hc)].
    + exfalso. eapply Hneq; [exact He'|congruence].
    + exfalso. eapply Hneq; [exact He|congruence].
  - intros e de. rewrite live_extended. intros [[-> ->]|He]; [done|].
    eapply extended_dim, (ck_dims _ _ Hc _ _ He).
  - intros e He. rewrite El in He. rewrite Es, lookup_lt_is_Some, length_app. simpl. fold did in He |- *.
    assert ((DPre e ∈ dataListeners c \/ DPost e ∈ dataListeners c) \/ e = did) as [Hl| ->].
    { rewrite !elem_of_cons, !elem_of_app, !list_elem_of_singleton in He. naive_solver. }
    + apply listed_lt in Hl. lia.
    + lia.
  - destruct (ck_order _ _ Hc) as (ds & rest & E & Hr).
    exists (did :: ds), (rest ++ [DPost did]). rewrite El, E. split; [simpl; by rewrite <- app_assoc|].
    intros e. rewrite elem_of_app, list_elem_of_singleton. intros [He|]; [by apply (Hr e)|done].
  - rewrite El. fold did. apply NoDup_cons. split.
    + rewrite elem_of_app, list_elem_of_singleton. intros [Hl|]; [|done].
      pose proof (listed_lt did (or_introl Hl)). lia.
    + apply NoDup_app. split_and!; [apply (ck_nodup _ _ Hc)| |apply NoDup_singleton].
      intros e He ->%list_elem_of_singleton. pose proof (listed_lt did (or_intror He)). lia.
Qed.
End extended.

(** ** [dimension] *)

(** The new dimension lets every record pass; nothing else changes but the
    mask and the width of the filters. *)
Definition dimension_added c (value : R -> X) c' (did : nat) : Prop :=
  did = length (dims c) /\ data c' = data c /\ n c' = n c /\
  tcells (filters c') = tcells (filters c) /\
  filterListeners c' = filterListeners c /\ grps c' = grps c /\ galls c' = galls c /\
  (exists b, 0 <= b < 32 /\ Z.testbit (m c) b = false /\ m c' = js_or (m c) (bit_one b)
     /\ forall i, 0 <= i < b -> Z.testbit (m c) i = true) /\
  dataListeners c' = DPre did :: dataListeners c ++ [DPost did] /\
  removeDataListeners c' = removeDataListeners c ++ [RDim did] /\
  exists d, dims c' = dims c ++ [d] /\ d_value d = value
    /\ d_refilter d = FilterAll /\ d_refilterFunction d = None /\ d_indexListeners d = [] /\ d_dimensionGroups d = [].

(** A dimension before any record is incorporated. *)
Lemma fresh_upto c one value :
  (exists b, 0 <= b < kind_width (tkind (filters c)) /\ one = bit_one b /\ Z.testbit (m c) b = true
     /\ forall k x, aget (tcells (filters c)) k = Some x -> Z.testbit x b = false) ->
  dim_upto c 0 (Dim value one (js_not one) [] (crossfilter_array8 typed 0) []
                    (crossfilter_array8 typed 0) FilterAll None [] [] 0 0).
Proof.
  intros (b & Hb & -> & Hm & Hclear). split; try done.
  - split; simpl; [done| |lia|intros i j; lia]. unfold crossfilter_array8. by destruct typed.
  - exists b. simpl. split_and!; try done; try lia. intros k x _. apply Hclear.
  - intros x Hx. lia.
Qed.

(** A dimension that lets everything pass marks no record. *)
Lemma fresh_unmarked c fl' did b d0 d' D :
  filter_change (n c) b (filters c) fl' [] D -> 0 <= b < 32 -> d_one d0 = bit_one b -> added_dim d0 d' ->
  d_refilter d0 = FilterAll -> d_refilterFunction d0 = None -> base_ok typed c ->
  dim_upto (put_dim (set_filters c fl') did d') (n c) d' -> D = [].
Proof.
  intros Hfc Hb Hone [_ Eo _ Er Ef _ _] Hall Hnone Hbase Hup.
  destruct Hup as [_ _ _ _ _ (b' & Hb' & Ho' & _ & Hbits & _)]. simpl in *.
  rewrite (fc_kind _ _ _ _ _ _ Hfc) in Hb'. pose proof (kind_width_range _ (bk_kind_ok _ _ Hbase)).
  assert (b = b') as -> by (apply bit_one_inj; [lia..|congruence]).
  destruct D as [|k D]; [done|]. exfalso.
  assert (k ∈ k :: D) as Hk by left. rewrite (fc_removed _ _ _ _ _ _ Hfc) in Hk.
  destruct Hk as (Hkn & x & x' & _ & Hx' & _ & Hbit).
  destruct (aget_is_Some (data c) k) as [r Hr]; [by rewrite <- (bk_n _ _ Hbase)|].
  rewrite (Hbits k r x' Hkn Hr Hx') in Hbit. unfold passes in Hbit. by rewrite Ef, Er, Hnone, Hall in Hbit.
Qed.

Lemma dimension_wp c value :
  cf_ok typed c -> m c <> -1 -> (forall r, r ∈ data c -> natural (value r)) ->
  wp (dimension undef null typed c value) (fun '(c', did) =>
    cf_ok typed c' /\ dimension_added c value c' did).
Proof.
  intros Hc Hm Hnat. pose proof (ck_base _ _ Hc) as Hbase.
  destruct (lowest_unset (m c) (bk_m _ _ Hbase)) as [[? _]|(b & Hb & Hone & Hfree & Hlow)]; [done|].
  unfold dimension. rewrite Hone.
  rewrite (widen_test (m c) (M c) b (bk_width _ _ Hbase) Hb (bk_mask _ _ Hbase)).
  apply wp_bind. eapply wp_mono; [by apply widen_wp|]. intros [fl M'] [Hw HbM].
  set (did := length (dims c)). set (d0 := Dim value _ _ _ _ _ _ _ _ _ _ _ _). set (c1 := Cf _ _ _ _ _ _ _ _ _ _ _).
  assert (base_ok typed c1) as Hbase1 by by eapply (extended_base c Hc b Hb c1).
  assert (tcells (filters c1) = tcells (filters c)) as Hcells by apply Hw.
  assert (dims c1 !! did = Some d0) as Hd0 by by apply list_lookup_middle.
  assert (b < kind_width (tkind (filters c1))) as Hbw
    by (rewrite (bk_kind _ _ Hbase1); simpl; destruct typed; simpl; lia).
  apply wp_bind. eapply wp_mono.
  { apply (preAdd_wp undef typed c1 did d0 (data c) 0 (n c)); try done.
    - apply Hbase1.
    - apply Hbase1.
    - symmetry. apply Hbase.
    - intros k Hk. simpl. by rewrite Z.add_0_r.
    - by eapply bk_kind_ok.
    - apply Hbase1.
    - apply fresh_upto. exists b. split_and!; [lia..|done| |].
      + simpl. rewrite mask_bits, (bool_decide_true (b = b)) by lia. apply orb_true_r.
      + intros k x. rewrite Hcells. by apply (ck_unused _ _ Hc). }
  intros c2 (fl' & b' & D & d2 & -> & Hbr & Hb' & Hfc & _ & Had & Hup & _).
  unfold postAdd. rewrite (the_dim_ret _ _ _ (put_dim_lookup (set_filters c1 fl') did d0 d2 Hd0)).
  simpl. rewrite (ad_indexListeners _ _ Had). simpl.
  rewrite (the_dim_ret _ _ _ (put_dim_lookup (set_filters c1 fl') did d0 d2 Hd0)). simpl.
  rewrite put_dim_put. set (d3 := with_sorted _ _ _ _ _ _ _). set (c3 := put_dim (set_filters c1 fl') did d3).
  assert (b' = b) as ->.
  { pose proof (kind_width_range _ (bk_kind_ok _ _ Hbase1)). apply bit_one_inj; done || lia. }
  assert (tcells fl' = tcells (filters c)) as Hcells'.
  { rewrite <- Hcells. eapply filter_change_nil; [by eapply bk_kind_ok|apply Hbase1|].
    by rewrite (fresh_unmarked c1 fl' did b d0 d2 D Hfc Hb Hb' Had eq_refl eq_refl Hbase1 Hup) in Hfc. }
  assert (dims c3 = dims c ++ [d3]) as Es.
  { simpl. unfold did. rewrite insert_app_r_alt, Nat.sub_diag by done. done. }
  split.
  - eapply (extended_ok c Hc b Hb Hfree c3 d3); try done.
    + destruct Hw as (_ & Hk & ? & ?). split_and!; try done. simpl. by rewrite (fc_kind _ _ _ _ _ _ Hfc).
    + apply (ad_one _ _ Had).
    + by destruct (dim_upto_ok _ _ Hup).
  - split_and!; try done; [by exists b|]. exists d3. split_and!; try done; apply Had.
Qed.
End dimension.
