(* ===== verification/CfGroupTake.v ===== *)
(** * crossfilter: the records of one group

    [add] of a group gives each new record a group by writing the number of the
    group in [groupIndex]: the inner loop takes the new records of one key, and
    [groupIncrement] widens the arrays of numbers when the number of groups
    outgrows their cells. *)

From stdpp Require Import sorting.
From S2P Require Import Prelude.
From S2P Require Import Arrays.
From S2P Require Import Sums.
From S2P Require Import CfBisect.
From S2P Require Import CfArray.
From S2P Require Import CfBits.
From S2P Require Import CfCore.
From S2P Require Import CfInv.
From S2P Require Import CfFilter.
From S2P Require Import CfSelect.
From S2P Require Import CfTop.
From S2P Require Import CfMerge.
From S2P Require Import CfGroups.
From S2P Require Import CfAdd.
From S2P Require Import CfDimension.

(** ** Positions in an index *)

Section index.
Context (ids : list Z) (n1 : Z) (Hperm : slice ids 0 n1 ≡ₚ seqZ 0 n1).

Lemma position j : 0 <= j < n1 -> exists p, aget ids j = Some p /\ 0 <= p < n1.
Proof.
  intros Hj. assert (alen (slice ids 0 n1) = n1) as Hl.
  { unfold alen. rewrite (Permutation_length Hperm), length_seqZ. lia. }
  destruct (aget_is_Some (slice ids 0 n1) j) as [p Hp]; [lia|].
  exists p. assert (p ∈ seqZ 0 n1) as Hin.
  { rewrite <- Hperm. unfold aget in Hp. destruct (0 <=? j); [|done]. by eapply list_elem_of_lookup_2. }
  apply elem_of_seqZ in Hin. split; [|lia]. rewrite <- Hp.
  pose proof (slice_lookup ids 0 n1 j ltac:(lia) ltac:(lia)) as Hs. rewrite Z.add_0_l in Hs.
  rewrite <- Hs. unfold aget. by destruct (Z.leb_spec 0 j); [|lia].
Qed.

Lemma position_inj j j' p :
  0 <= j < n1 -> 0 <= j' < n1 -> aget ids j = Some p -> aget ids j' = Some p -> j = j'.
Proof.
  intros Hj Hj' Hp Hp'. assert (NoDup (slice ids 0 n1)) as Hnd by (rewrite Hperm; apply NoDup_seqZ).
  assert (forall i, 0 <= i < n1 -> aget ids i = Some p -> slice ids 0 n1 !! Z.to_nat i = Some p) as Hs.
  { intros i Hi E. by rewrite slice_lookup by lia. }
  apply Z2Nat.inj; [lia..|]. by eapply NoDup_lookup; [exact Hnd|apply Hs|apply Hs].
Qed.

Lemma position_of k : 0 <= k < n1 -> exists j, 0 <= j < n1 /\ aget ids j = Some k.
Proof.
  intros Hk. assert (k ∈ slice ids 0 n1) as [j Hj]%list_elem_of_lookup by (rewrite Hperm; apply elem_of_seqZ; lia).
  pose proof (lookup_lt_Some _ _ _ Hj) as Hlt. rewrite (Permutation_length Hperm), length_seqZ in Hlt.
  exists (Z.of_nat j). split; [lia|].
  pose proof (slice_lookup ids 0 n1 (Z.of_nat j) ltac:(lia) ltac:(lia)) as Hs.
  by rewrite Nat2Z.id, Z.add_0_l, Hj in Hs.
Qed.
End index.

Section merge.
Context {R X : Type} `{JsOrdLaws X} (null : X) (typed : bool).
Abbreviation cf := (@CfCore.cf R X).
Abbreviation dim := (@CfCore.dim R X).
Abbreviation grp := (@CfCore.grp R X).
Abbreviation kv := (@CfCore.kv X).
Abbreviation addst := (@CfCore.addst X).
Implicit Types (c : cf) (d : dim) (g : grp) (e : kv) (t : tarr) (s : addst).

(** ** The records of one group *)

Section take.
Context c g (zero : Z) (newValues : list X) (newIndex : tarr) (n0 n1 : Z).
Context (Hlen : alen newValues = n1).
Context (Hperm : slice (tcells newIndex) 0 n1 ≡ₚ seqZ 0 n1) (Hn0 : 0 <= n0).
Context (Hfl : n0 + n1 <= tlen (filters c)) (Hdata : n0 + n1 <= alen (data c)).

(** The ids of the new records at the positions from [i] to [j]. *)
Definition ids (i j : Z) : list Z := (fun p => p + n0) <$> slice (tcells newIndex) i j.

Lemma ids_snoc i j p : 0 <= i <= j -> aget (tcells newIndex) j = Some p -> ids i (j + 1) = ids i j ++ [p + n0].
Proof. intros Hi Hp. unfold ids. by rewrite (slice_snoc _ i j p), fmap_app by done. Qed.

Lemma ids_nil i : ids i i = [].
Proof. unfold ids. by rewrite slice_nil. Qed.

Lemma ids_app i j k : 0 <= i <= j -> j <= k -> ids i k = ids i j ++ ids j k.
Proof. intros Hi Hk. unfold ids. by rewrite (slice_app _ i j k), fmap_app by lia. Qed.

Lemma elem_of_ids i j q :
  0 <= i <= j -> j <= n1 -> q ∈ ids i j -> exists l p, i <= l < j /\ aget (tcells newIndex) l = Some p /\ q = p + n0.
Proof.
  intros Hi Hj (p & -> & Hp)%list_elem_of_fmap. apply elem_of_slice in Hp as (l & Hl & Hp); [by exists l, p|done|].
  destruct (decide (j = 0)) as [->|]; [apply alen_nonneg|].
  destruct (position _ _ Hperm (j - 1) ltac:(lia)) as (p' & Hp'%aget_Some & _). lia.
Qed.

(** The keys of the records from [i] to [i1] go with [x], and their cells
    hold [k]; other cells are as in [t0]. *)
Record taken (k : Z) (x : X) (t0 : tarr) (i i1 : Z) t : Prop := Taken {
  tk_kind : tkind t = tkind t0;
  tk_len : tlen t = tlen t0;
  tk_key : forall j v, i <= j < i1 -> aget newValues j = Some v -> (x <. g_key g v) = false;
  tk_in : forall j p, i <= j < i1 -> aget (tcells newIndex) j = Some p ->
            aget (tcells t) (p + n0) = Some (tstore (tkind t0) k);
  tk_out : forall q, (forall j p, i <= j < i1 -> aget (tcells newIndex) j = Some p -> q <> p + n0) ->
             aget (tcells t) q = aget (tcells t0) q;
  tk_cell : forall q, aget (tcells t) q = aget (tcells t0) q \/ aget (tcells t) q = Some (tstore (tkind t0) k)
}.

Lemma taken_none k x t i : taken k x t i i t.
Proof. split; try done; intros; try lia. by left. Qed.

Lemma taken_snoc k x t0 i i1 t p v :
  i <= i1 < n1 -> 0 <= i -> n0 + n1 <= tlen t0 -> taken k x t0 i i1 t -> aget (tcells newIndex) i1 = Some p ->
  aget newValues i1 = Some v -> (x <. g_key g v) = false ->
  taken k x t0 i (i1 + 1) (TArr (tkind t) (aupd (tcells t) (p + n0) (tstore (tkind t) k))).
Proof.
  intros Hi Hi0 Ht [Hk Hl Hkey Hin Hout Hcell] Hp Hv Hxv. destruct (position _ _ Hperm i1 ltac:(lia)) as (p' & Hp' & Hpb).
  assert (p' = p) as -> by congruence. unfold tlen in *. split; simpl; [done| | | | |].
  - unfold tlen in *. simpl. by rewrite alen_aupd.
  - intros j v' Hj Hv'. destruct (decide (j = i1)) as [->|]; [|apply (Hkey j); [lia|done]].
    rewrite Hv in Hv'. by injection Hv' as <-.
  - intros j q Hj Hq. destruct (decide (j = i1)) as [->|].
    + assert (q = p) as -> by congruence. rewrite aget_aupd_eq by lia. by rewrite Hk.
    + rewrite aget_aupd_ne; [apply (Hin j); [lia|done]|lia|]. intros E. assert (q = p) as -> by lia.
      assert (j = i1) by (apply (position_inj _ _ Hperm j i1 p); done || lia). lia.
  - intros q Hq. rewrite aget_aupd_ne; [|lia|].
    + apply Hout. intros j p'' Hj. apply Hq. lia.
    + intros E. by apply (Hq i1 p); [lia|done|].
  - intros q. rewrite aget_aupd by lia. case_decide; [right; by rewrite Hk|apply Hcell].
Qed.

(** The value of a group with the records at these positions added. *)
Definition with_ids (w : R -> Z) (v : Z) (i j : Z) : Z := v + total (amount (data c) w) (filters c) zero (ids i j).

Lemma group_take_wp k x t e i w v :
  0 <= i < n1 -> n0 + n1 <= tlen t ->
  (g_resetNeeded g = false -> lawful (g_reduce g) w /\ kv_value e = Some v) ->
  wp (group_take c g zero newValues newIndex n0 n1 k x t e i) (fun '(t', e', i1) =>
    i <= i1 <= n1 /\ kv_key e' = kv_key e /\ taken k x t i i1 t' /\
    (forall u, aget newValues i = Some u -> (x <. g_key g u) = false -> i < i1) /\
    (forall u, aget newValues i1 = Some u -> i1 < n1 -> (x <. g_key g u) = true) /\
    (g_resetNeeded g = false -> kv_value e' = Some (with_ids w v i i1))).
Proof.
  intros Hi Ht Hval. unfold group_take.
  apply (wp_loop (fun '(t', e', i1) => i <= i1 < n1 /\ kv_key e' = kv_key e /\ taken k x t i i1 t' /\
      (g_resetNeeded g = false -> kv_value e' = Some (with_ids w v i i1))) (fun '(_, _, i1) => n1 - i1)).
  { split_and!; [lia..|done|apply taken_none|]. intros Hr. unfold with_ids. rewrite ids_nil. unfold total. simpl.
    rewrite Z.add_0_r. by apply Hval. }
  { lia. }
  intros [[t' e'] i1] (Hi1 & He & Htk & Hv'). destruct (aget_is_Some newValues i1) as [u Hu]; [lia|].
  rewrite (rd_Some _ _ _ Hu). simpl. destruct (x <. g_key g u) eqn:Hxu.
  { simpl. split_and!; [lia..|done|done| | |done].
    - intros u0 Hu0 Hxu0. destruct (decide (i1 = i)) as [->|]; [congruence|lia].
    - intros u' Hu'. rewrite Hu in Hu'. by injection Hu' as <-. }
  destruct (position _ _ Hperm i1 ltac:(lia)) as (p & Hp & Hpb). unfold trd, twr. rewrite (rd_Some _ _ _ Hp). simpl.
  pose proof (tk_len _ _ _ _ _ _ Htk) as Hl. unfold tlen in *. apply wp_bind, wp_bind, wp_wr; [lia|]. simpl.
  destruct (aget_is_Some (tcells (filters c)) (p + n0)) as [f Hf]; [lia|]. rewrite (rd_Some _ _ _ Hf). simpl.
  destruct (aget_is_Some (data c) (p + n0)) as [r Hr]; [lia|].
  pose proof (taken_snoc k x t i i1 t' p u Hi1 ltac:(lia) Ht Htk Hp Hu Hxu) as Htk'.
  set (t2 := TArr _ _) in *. apply wp_bind. eapply (wp_mono _ (fun e2 => kv_key e2 = kv_key e /\
    (g_resetNeeded g = false -> kv_value e2 = Some (with_ids w v i (i1 + 1))))).
  - unfold with_ids. rewrite (ids_snoc i i1 p) by (done || lia). rewrite (total_snoc _ _ _ _ _ _ Hf). unfold truthy.
    destruct (Z.eqb_spec (js_and f zero) 0) as [E|E]; cbn [negb].
    + destruct (g_resetNeeded g) eqn:Hreset; [by apply wp_Ret|]. rewrite (rd_Some _ _ _ Hr). apply wp_Ret.
      split; [done|]. intros _. simpl. destruct (Hval eq_refl) as [Hw _]. rewrite (Hv' eq_refl). simpl.
      rewrite (proj1 (Hw _ _)), (amount_Some _ _ _ _ Hr). f_equal. unfold with_ids. lia.
    + apply wp_Ret. split; [done|]. intros Hreset. rewrite (Hv' Hreset). f_equal. unfold with_ids. simpl. lia.
  - intros e2 [He2 Hv2]. destruct (Z.leb_spec n1 (i1 + 1)); simpl; split_and!; try done; try lia; intros u' Hu'%aget_Some; lia.
Qed.
End take.

(** ** Width of the index of groups *)

(** An array of numbers of groups with cells of [w] bits. *)
Record fits (w : Z) t : Prop := Fits {
  ft_kind : tkind t = if typed then AUint w else AUntyped;
  ft_cells : forall q x, aget (tcells t) q = Some x -> 0 <= x < 2 ^ w
}.

Definition width_range (w : Z) : Prop := w = 8 \/ w = 16 \/ w = 32.

(** The cells hold the numbers of the groups so far, and of one more. *)
Record width_ok s : Prop := WidthOk {
  wo_width : width_range (s_width s);
  wo_capacity : s_capacity s = 2 ^ s_width s;
  wo_k : 0 <= s_k s < s_capacity s;
  wo_groupIndex : fits (s_width s) (s_groupIndex s);
  wo_reIndex : fits (s_width s) (s_reIndex s)
}.

Lemma fits_store w t k : fits w t -> 0 <= k < 2 ^ w -> tstore (tkind t) k = k.
Proof. intros [-> _] Hk. destruct typed; [|done]. by apply Z.mod_small. Qed.

Lemma fits_aupd w t i k : 0 <= i -> fits w t -> 0 <= k < 2 ^ w -> fits w (TArr (tkind t) (aupd (tcells t) i (tstore (tkind t) k))).
Proof.
  intros Hi Ht Hk. rewrite (fits_store w t k Ht Hk). destruct Ht as [Hkd Hc]. split; [done|]. simpl. intros q x Hx.
  pose proof (aget_Some _ _ _ Hx) as Hq. rewrite alen_aupd in Hq. destruct (decide (q = i)) as [->|].
  - rewrite aget_aupd_eq in Hx by done. by injection Hx as <-.
  - rewrite aget_aupd_ne in Hx by done. by eapply Hc.
Qed.

Lemma widen_fits t w w' :
  0 <= w <= w' -> w' = 16 \/ w' = 32 -> fits w t ->
  exists t', crossfilter_arrayWiden typed t w' = Ret t' /\ tcells t' = tcells t /\ fits w' t'.
Proof.
  intros Hw Hw' [Hkd Hcells]. assert (2 ^ w <= 2 ^ w') by (apply Z.pow_le_mono_r; lia).
  assert (forall q x, aget (tcells t) q = Some x -> 0 <= x < 2 ^ w') as Hc' by (intros q x Hx%Hcells; lia).
  unfold crossfilter_arrayWiden, crossfilter_arrayWidenUntyped. destruct typed eqn:Ety.
  - assert ((w' =? 16) || (w' =? 32) = true) as -> by (destruct Hw' as [-> | ->]; done).
    eexists. split; [done|]. assert (map (tstore (AUint w')) (tcells t) = tcells t) as E by by apply (widen_cells w).
    simpl. rewrite E. split; [done|]. by split; rewrite ?Ety.
  - assert ((w' >? 32) = false) as -> by (destruct Hw' as [-> | ->]; done). exists t. split; [done|]. split; [done|].
    by split; rewrite ?Ety.
Qed.

Lemma capacity_width w : width_range w -> crossfilter_capacity w = 2 ^ w.
Proof. by intros [->|[->| ->]]. Qed.

Lemma index_fits_capacity n w : width_range w -> fits w (crossfilter_index typed n (2 ^ w)).
Proof.
  intros Hw. split.
  - unfold crossfilter_index, crossfilter_array8, crossfilter_array16, crossfilter_array32, crossfilter_arrayUntyped.
    destruct Hw as [->|[->| ->]]; by destruct typed.
  - rewrite index_cells. intros q x. unfold aget. destruct (0 <=? q); [|intros [=]].
    intros [-> _]%lookup_replicate. split; [lia|]. by destruct Hw as [->|[->| ->]].
Qed.

Lemma groupIncrement_wp s :
  width_ok s -> s_k s < 2 ^ 30 ->
  wp (groupIncrement typed s) (fun s' =>
    width_ok s' /\ s_k s' = s_k s + 1 /\ s_groups s' = s_groups s /\ s_i0 s' = s_i0 s /\ s_i1 s' = s_i1 s /\
    tcells (s_groupIndex s') = tcells (s_groupIndex s) /\ tcells (s_reIndex s') = tcells (s_reIndex s)).
Proof.
  intros [Hw Hc Hk Hg Hre] Hsmall. unfold groupIncrement.
  destruct (Z.eqb_spec (s_k s + 1) (s_capacity s)) as [E|E].
  2: { simpl. split_and!; try done. split; simpl; try done. lia. }
  assert (s_width s = 8 \/ s_width s = 16) as Hw'.
  { destruct Hw as [|[|Hw]]; [auto..|]. rewrite Hc, Hw in E. lia. }
  rewrite js_shl_1 by (destruct Hw' as [-> | ->]; lia).
  destruct (widen_fits (s_reIndex s) (s_width s) (2 * s_width s)) as (r & -> & Hr & Hrf); [lia|lia|done|]. simpl.
  destruct (widen_fits (s_groupIndex s) (s_width s) (2 * s_width s)) as (t & -> & Ht & Htf); [lia|lia|done|].
  assert (width_range (2 * s_width s)) as Hw2 by (unfold width_range; lia).
  simpl. split_and!; try done. assert (2 ^ s_width s < 2 ^ (2 * s_width s)) by (apply Z.pow_lt_mono_r; lia).
  split; simpl; [done|by apply capacity_width| |done|done]. rewrite capacity_width by done. lia.
Qed.
End merge.

Arguments fits_store {typed} w t k.
Arguments fits_aupd {typed} w t i k.
