(* ===== verification/CfGroupAdd.v ===== *)
(** * crossfilter: adding records to the groups of a dimension

    [add] of a group merges the sorted new values with the groups there are,
    opens a group at each new key, records in [reIndex] where the old groups
    have gone, and in [groupIndex] which group each record is in.  The key
    function has to keep the order of the values.  Creating a group is the case
    without old groups, where all records are new. *)

From stdpp Require Import sorting.
From S2P Require Import Prelude.
From S2P Require Import Arrays.
From S2P Require Import Sums.
From S2P Require Import CfBisect.
From S2P Require Import CfArray.
From S2P Require Import CfBits.
From S2P Require Import CfCore.
From S2P Require Import CfInv.
From S2P Require Import CfFilter.
From S2P Require Import CfSelect.
From S2P Require Import CfTop.
From S2P Require Import CfMerge.
From S2P Require Import CfGroups.
From S2P Require Import CfAdd.
From S2P Require Import CfDimension.
From S2P Require Import CfGroupTake.

Section merge.
Context {R X : Type} `{JsOrdLaws X} (null : X) (typed : bool).
Abbreviation cf := (@CfCore.cf R X).
Abbreviation dim := (@CfCore.dim R X).
Abbreviation grp := (@CfCore.grp R X).
Abbreviation kv := (@CfCore.kv X).
Abbreviation addst := (@CfCore.addst X).
Abbreviation fits := (CfGroupTake.fits typed).
Abbreviation width_ok := (CfGroupTake.width_ok typed).
Implicit Types (c : cf) (d : dim) (g : grp) (e : kv) (t : tarr) (s : addst).

(** The part of a reduce value that comes from the records among [l] with key [x]. *)
Definition key_amount c g d (w : R -> Z) (x : X) (k : Z) : Z :=
  match aget (data c) k with Some r => when (same_keyb x (g_key g (d_value d r))) (w r) | None => 0 end.
Definition key_sum c g d w (x : X) (l : list Z) : Z := total (key_amount c g d w x) (filters c) (d_zero d) l.

(** The width, the capacity and the index of a group fit together. *)
Definition sized (g : grp) : Prop :=
  width_range (g_groupWidth g) /\ g_groupCapacity g = 2 ^ g_groupWidth g /\ 0 <= g_k g < g_groupCapacity g /\
  forall t, g_groupIndex g = Some t -> fits (g_groupWidth g) t.

(** It looks at the records and the filter entries among [l] only. *)
Lemma key_sum_ext c c' g d d' w x l :
  d_value d' = d_value d -> d_zero d' = d_zero d ->
  (forall k, k ∈ l -> aget (data c') k = aget (data c) k /\ aget (tcells (filters c')) k = aget (tcells (filters c)) k) ->
  key_sum c' g d' w x l = key_sum c g d w x l.
Proof.
  intros Ev Ez Hl. unfold key_sum, total. apply zsum_ext. intros k Hk. destruct (Hl k Hk) as [Hd Hf].
  unfold unmasked, key_amount. by rewrite Ez, Hf, Hd, Ev.
Qed.

(** There are no more groups than records. *)
Lemma keyed_few c g : keyed c g -> 0 <= n c -> alen (g_groups g) <= n c.
Proof.
  intros Hky Hn. assert (seqZ 0 (alen (g_groups g)) ⊆+ (groupof g <$> seqZ 0 (n c))) as Hsub.
  { apply NoDup_submseteq; [apply NoDup_seqZ|]. intros i Hi%elem_of_seqZ.
    destruct (ky_used _ _ Hky i ltac:(lia)) as (k & Hk & <-). apply list_elem_of_fmap_2, elem_of_seqZ. lia. }
  apply submseteq_length in Hsub. rewrite length_fmap, !length_seqZ in Hsub. pose proof (alen_nonneg (g_groups g)). lia.
Qed.

(** The groups of the first [n0] records. *)
Record standing c g d w (n0 : Z) : Prop := Standing {
  st_mono : forall x y, (x <=. y) = true -> (g_key g x <=. g_key g y) = true;
  st_sized : sized g;
  st_all : g_groupAll g = false;
  st_k : g_k g = alen (g_groups g);
  st_few : g_k g <= n0;
  st_sorted : StronglySorted (fun x y => (x <. y) = true) (kv_key <$> g_groups g);
  st_group : forall k, 0 <= k < n0 -> exists r e, aget (data c) k = Some r /\
    aget (g_groups g) (groupof g k) = Some e /\ same_key (kv_key e) (g_key g (d_value d r));
  st_used : forall i, 0 <= i < g_k g -> exists k, 0 <= k < n0 /\ groupof g k = i;
  st_index : 1 < g_k g -> exists t, g_groupIndex g = Some t /\
    forall k, 0 <= k < n0 -> exists i, aget (tcells t) k = Some i;
  st_vals : g_resetNeeded g = false -> lawful (g_reduce g) w /\ forall e, e ∈ g_groups g ->
    kv_value e = Some (reduceInitial (g_reduce g) + key_sum c g d w (kv_key e) (seqZ 0 n0))
}.

Section adding.
Context c g d (w : R -> Z) (newValues : list X) (newIndex : tarr) (n0 n1 : Z).
Abbreviation og := (g_groups g).
Abbreviation kx := (fun r => g_key g (d_value d r)).
Abbreviation new_ids := (ids newIndex n0).
Abbreviation vsum := (key_sum c g d w).
Context (Hn0 : 0 <= n0) (Hfl : n0 + n1 <= tlen (filters c)) (Hdata : alen (data c) = n0 + n1) (Hsmall : n0 + n1 <= 2 ^ 30).
Context (Hnv : new_values c d newValues newIndex n0 n1) (Hst : standing c g d w n0).
Let Hlen := nv_len _ _ _ _ _ _ Hnv.
Let Hperm := nv_perm _ _ _ _ _ _ Hnv.
Let Hsorted := nv_sorted _ _ _ _ _ _ Hnv.
Let Hat := nv_at _ _ _ _ _ _ Hnv.
Let Hmono := st_mono _ _ _ _ _ Hst.
Let Hk0 := st_k _ _ _ _ _ Hst.
Let Hfew := st_few _ _ _ _ _ Hst.
Let Hos := st_sorted _ _ _ _ _ Hst.
Let Hog := st_group _ _ _ _ _ Hst.
Let Hou := st_used _ _ _ _ _ Hst.
Let Hov := st_vals _ _ _ _ _ Hst.

(** *** Keys *)

Lemma value_natural j v : aget newValues j = Some v -> natural v.
Proof.
  intros Hv. pose proof (aget_Some _ _ _ Hv). eapply (sorted_natural _ _ _ _ Hsorted j); [lia|exact Hv].
Qed.
Lemma key_natural j v : aget newValues j = Some v -> natural (g_key g v).
Proof. intros Hv. apply Hmono. by eapply value_natural. Qed.
Lemma key_le j j' v v' :
  j <= j' -> aget newValues j = Some v -> aget newValues j' = Some v' -> (g_key g v <=. g_key g v') = true.
Proof.
  intros Hj Hv Hv'. pose proof (aget_Some _ _ _ Hv). pose proof (aget_Some _ _ _ Hv').
  apply Hmono. by apply (Hsorted j j' v v'); try lia.
Qed.

Lemma old_natural i e : aget og i = Some e -> natural (kv_key e).
Proof.
  intros He. pose proof (aget_Some _ _ _ He). destruct (Hou i ltac:(lia)) as (k & Hk & E).
  destruct (Hog k Hk) as (r & e' & _ & He' & [Ha Hb]). rewrite E, He in He'. injection He' as <-.
  unfold natural. by eapply jle_trans.
Qed.

Lemma old_lt i j e e' : i < j -> aget og i = Some e -> aget og j = Some e' -> (kv_key e <. kv_key e') = true.
Proof.
  intros Hij He He'. pose proof (aget_Some _ _ _ He). pose proof (aget_Some _ _ _ He'). unfold aget in *.
  destruct (Z.leb_spec 0 i), (Z.leb_spec 0 j); try lia.
  apply (StronglySorted_at _ _ (Z.to_nat i) (Z.to_nat j) _ _ Hos); [lia|..]; by rewrite list_lookup_fmap, ?He, ?He'.
Qed.

Lemma lt_not_same x y z : (x <. y) = true -> same_key y z -> same_keyb x z = false.
Proof.
  intros [_ Hlt]%jlt_true [Hyz Hzy]. unfold same_keyb. apply andb_false_iff. right.
  destruct (z <=. x) eqn:E; [|done]. by rewrite (jle_trans y z x) in Hlt.
Qed.
Lemma gt_not_same x y z : (y <. x) = true -> same_key y z -> same_keyb x z = false.
Proof.
  intros [_ Hlt]%jlt_true [Hyz Hzy]. unfold same_keyb. apply andb_false_iff. left.
  destruct (x <=. z) eqn:E; [|done]. by rewrite (jle_trans x z y) in Hlt.
Qed.

(** *** Sums *)

Lemma vsum_app x l l' : vsum x (l ++ l') = vsum x l + vsum x l'.
Proof. apply zsum_app. Qed.

Lemma vsum_none x l :
  (forall k r, k ∈ l -> aget (data c) k = Some r -> same_keyb x (kx r) = false) -> vsum x l = 0.
Proof.
  intros Hn. unfold key_sum, total. rewrite <- (zsum_0 l). apply zsum_ext. intros k Hk. unfold key_amount.
  destruct (aget (data c) k) as [r|] eqn:Hr; [rewrite (Hn k r Hk Hr)|]; by destruct (unmasked _ _ _).
Qed.

Lemma vsum_all x l :
  (forall k, k ∈ l -> exists r, aget (data c) k = Some r /\ same_key x (kx r)) ->
  vsum x l = total (amount (data c) w) (filters c) (d_zero d) l.
Proof.
  intros Hall. unfold key_sum, total. apply zsum_ext. intros k Hk. f_equal.
  destruct (Hall k Hk) as (r & Hr & Ha & Hb). unfold key_amount, amount, same_keyb. by rewrite Hr, Ha, Hb.
Qed.

(** The key of a record among the new ones. *)
Lemma new_record i j k :
  0 <= i <= j -> j <= n1 -> k ∈ new_ids i j ->
  exists l p r v, i <= l < j /\ aget (tcells newIndex) l = Some p /\ k = p + n0 /\ aget (data c) k = Some r
    /\ aget newValues l = Some v /\ v = d_value d r.
Proof.
  intros Hi Hj Hk. destruct (elem_of_ids newIndex n0 n1 Hperm i j k Hi Hj Hk) as (l & p & Hl & Hp & ->).
  destruct (Hat l p ltac:(lia) Hp) as (r & Hr & Hv). eauto 12.
Qed.

(** *** The state of the merge *)

Section run.
Context (t0 : tarr) (Ht0 : n0 + n1 <= tlen t0).

(** Groups of the first [s_i0] old groups and the first [s_i1] new values, in
    ascending order, all below what is to come. *)
Record merged s : Prop := Merged {
  md_width : width_ok s;
  md_i0 : 0 <= s_i0 s <= g_k g;
  md_i1 : 0 <= s_i1 s <= n1;
  md_k : s_k s = alen (s_groups s);
  md_few : s_i0 s <= s_k s <= s_i0 s + s_i1 s;
  md_len : tlen (s_groupIndex s) = tlen t0;
  md_relen : g_k g <= tlen (s_reIndex s);
  md_old : forall p, 0 <= p < n0 -> aget (tcells (s_groupIndex s)) p = aget (tcells t0) p;
  md_re : forall i, 0 <= i < s_i0 s -> exists r e e0, aget (tcells (s_reIndex s)) i = Some r /\
    aget (s_groups s) r = Some e /\ aget og i = Some e0 /\ kv_key e = kv_key e0 /\ i <= r <= i + (s_k s - s_i0 s);
  md_new : forall j p v, 0 <= j < s_i1 s -> aget (tcells newIndex) j = Some p -> aget newValues j = Some v ->
    exists i e, aget (tcells (s_groupIndex s)) (p + n0) = Some i /\ aget (s_groups s) i = Some e /\
      same_key (kv_key e) (g_key g v);
  md_used : forall i, 0 <= i < s_k s ->
    (exists j p, 0 <= j < s_i1 s /\ aget (tcells newIndex) j = Some p /\ aget (tcells (s_groupIndex s)) (p + n0) = Some i)
    \/ exists i', 0 <= i' < s_i0 s /\ aget (tcells (s_reIndex s)) i' = Some i;
  md_above_new : forall j v e, s_i1 s <= j < n1 -> aget newValues j = Some v -> e ∈ s_groups s ->
    (kv_key e <. g_key g v) = true;
  md_above_old : forall i e0 e, s_i0 s <= i -> aget og i = Some e0 -> e ∈ s_groups s -> (kv_key e <. kv_key e0) = true;
  md_sorted : StronglySorted (fun x y => (x <. y) = true) (kv_key <$> s_groups s);
  md_vals : g_resetNeeded g = false -> forall e, e ∈ s_groups s ->
    kv_value e = Some (reduceInitial (g_reduce g) + vsum (kv_key e) (seqZ 0 n0 ++ new_ids 0 (s_i1 s)))
}.

(** A new or an old group [e] goes to the end, with the new records that have
    its key. *)
Record pushed s e t reIndex i0 i1 : Prop := Pushed {
  ps_i1 : s_i1 s <= i1 <= n1;
  ps_taken : taken g newValues newIndex n0 (s_k s) (kv_key e) (s_groupIndex s) (s_i1 s) i1 t;
  ps_new : forall v, i1 < n1 -> aget newValues i1 = Some v -> (kv_key e <. g_key g v) = true;
  ps_old : forall i e0, i0 <= i -> aget og i = Some e0 -> (kv_key e <. kv_key e0) = true;
  ps_above : forall e', e' ∈ s_groups s -> (kv_key e' <. kv_key e) = true;
  ps_same : forall j v, s_i1 s <= j < i1 -> aget newValues j = Some v -> same_key (kv_key e) (g_key g v);
  ps_re : (i0 = s_i0 s /\ reIndex = s_reIndex s /\ s_i1 s < i1) \/
    (i0 = s_i0 s + 1 /\ reIndex = TArr (tkind (s_reIndex s)) (aupd (tcells (s_reIndex s)) (s_i0 s)
       (tstore (tkind (s_reIndex s)) (s_k s))) /\ exists e0, aget og (s_i0 s) = Some e0 /\ kv_key e = kv_key e0);
  ps_val : g_resetNeeded g = false ->
    kv_value e = Some (reduceInitial (g_reduce g) + vsum (kv_key e) (seqZ 0 n0 ++ new_ids 0 i1))
}.

(** *** One more group *)

Section push.
Context s e t reIndex (i0 i1 : Z) (Hs : merged s) (Hp : pushed s e t reIndex i0 i1).

Lemma push_i0 : s_i0 s <= i0 <= g_k g.
Proof.
  pose proof (md_i0 _ Hs). destruct (ps_re _ _ _ _ _ _ Hp) as [(-> & _)|(-> & _ & e0 & He0%aget_Some & _)]; lia.
Qed.

Lemma push_fits : 0 <= s_k s < 2 ^ s_width s.
Proof. destruct (md_width _ Hs) as [_ <- Hk _ _]. done. Qed.

Lemma push_width : width_ok (AddSt (s_groups s ++ [e]) (s_k s) t reIndex (s_width s) (s_capacity s) i0 i1).
Proof.
  pose proof push_fits as Hk. destruct (md_width _ Hs) as [Hw Hc Hk' Hg Hre]. destruct (ps_taken _ _ _ _ _ _ Hp) as [Hkd _ _ _ _ Hcell].
  pose proof (fits_store _ _ _ Hg Hk) as Est. split; simpl; try done.
  - destruct Hg as [Hgk Hgc]. split; [by rewrite Hkd|]. intros q x Hx.
    destruct (Hcell q) as [E|E]; rewrite E in Hx; [by eapply Hgc|]. injection Hx as <-. by rewrite Est.
  - destruct (ps_re _ _ _ _ _ _ Hp) as [(_ & -> & _)|(_ & -> & _)]; [done|]. apply fits_aupd; [apply Hs|done|done].
Qed.

(** Cells of records that were there are not touched. *)
Lemma push_cell_old p : 0 <= p < n0 -> aget (tcells t) p = aget (tcells (s_groupIndex s)) p.
Proof.
  intros Hp0. apply (tk_out _ _ _ _ _ _ _ _ _ _ (ps_taken _ _ _ _ _ _ Hp)). intros j q Hj Hq.
  pose proof (ps_i1 _ _ _ _ _ _ Hp). pose proof (md_i1 _ Hs).
  destruct (position _ _ Hperm j ltac:(lia)) as (q' & Hq' & ?). assert (q' = q) by congruence. lia.
Qed.
Lemma push_cell_before j p :
  0 <= j < s_i1 s -> aget (tcells newIndex) j = Some p -> aget (tcells t) (p + n0) = aget (tcells (s_groupIndex s)) (p + n0).
Proof.
  intros Hj Hjp. pose proof (ps_i1 _ _ _ _ _ _ Hp). apply (tk_out _ _ _ _ _ _ _ _ _ _ (ps_taken _ _ _ _ _ _ Hp)).
  intros j' p' Hj' Hp'. destruct (decide (p = p')) as [<-|]; [|lia].
  assert (j = j') by (apply (position_inj _ _ Hperm j j' p); done || lia). lia.
Qed.
Lemma push_cell_new j p :
  s_i1 s <= j < i1 -> aget (tcells newIndex) j = Some p -> aget (tcells t) (p + n0) = Some (s_k s).
Proof.
  intros Hj Hjp. rewrite (tk_in _ _ _ _ _ _ _ _ _ _ (ps_taken _ _ _ _ _ _ Hp) j p Hj Hjp).
  destruct (md_width _ Hs) as [_ _ _ Hg _]. by rewrite (fits_store _ _ _ Hg push_fits).
Qed.

Lemma push_re_before i : 0 <= i < s_i0 s -> aget (tcells reIndex) i = aget (tcells (s_reIndex s)) i.
Proof.
  intros Hi. destruct (ps_re _ _ _ _ _ _ Hp) as [(_ & -> & _)|(_ & -> & _)]; [done|]. simpl.
  rewrite aget_aupd_ne by lia. done.
Qed.
Lemma push_re_new :
  i0 = s_i0 s + 1 -> aget (tcells reIndex) (s_i0 s) = Some (s_k s) /\ exists e0, aget og (s_i0 s) = Some e0 /\ kv_key e = kv_key e0.
Proof.
  intros E. destruct (ps_re _ _ _ _ _ _ Hp) as [(E' & _)|(_ & -> & e0 & He0 & Hke)]; [lia|]. simpl.
  pose proof (aget_Some _ _ _ He0). pose proof (md_i0 _ Hs). pose proof (md_relen _ Hs). unfold tlen in *.
  rewrite aget_aupd_eq by lia. destruct (md_width _ Hs) as [_ _ _ _ Hre]. rewrite (fits_store _ _ _ Hre push_fits). eauto.
Qed.
Lemma push_relen : tlen reIndex = tlen (s_reIndex s).
Proof.
  destruct (ps_re _ _ _ _ _ _ Hp) as [(_ & -> & _)|(_ & -> & _)]; [done|]. unfold tlen. simpl. by rewrite alen_aupd.
Qed.

Lemma push_at i e' : aget (s_groups s) i = Some e' -> aget (s_groups s ++ [e]) i = Some e'.
Proof. intros He. pose proof (aget_Some _ _ _ He). rewrite aget_snoc, decide_False by lia. done. Qed.
Lemma push_end : aget (s_groups s ++ [e]) (s_k s) = Some e.
Proof. by rewrite (md_k _ Hs), aget_snoc, decide_True. Qed.

Lemma push_vals e' :
  g_resetNeeded g = false -> e' ∈ s_groups s ++ [e] ->
  kv_value e' = Some (reduceInitial (g_reduce g) + vsum (kv_key e') (seqZ 0 n0 ++ new_ids 0 i1)).
Proof.
  intros Hr [He'| ->%list_elem_of_singleton]%elem_of_app; [|by apply (ps_val _ _ _ _ _ _ Hp)].
  pose proof (ps_i1 _ _ _ _ _ _ Hp). pose proof (md_i1 _ Hs). rewrite (md_vals _ Hs Hr e' He').
  do 2 f_equal. rewrite (ids_app newIndex n0 0 (s_i1 s) i1), app_assoc, (vsum_app _ (_ ++ _)) by lia.
  rewrite (vsum_none (kv_key e') (new_ids (s_i1 s) i1)); [lia|]. intros k r Hk Hrec.
  destruct (new_record (s_i1 s) i1 k) as (l & p & r' & v & Hl & _ & _ & Hr' & Hv & ->); [lia..|done|].
  rewrite Hrec in Hr'. injection Hr' as <-. eapply lt_not_same; [by apply (ps_above _ _ _ _ _ _ Hp)|].
  by apply (ps_same _ _ _ _ _ _ Hp l).
Qed.

Lemma merged_push :
  wp (groupIncrement typed (AddSt (s_groups s ++ [e]) (s_k s) t reIndex (s_width s) (s_capacity s) i0 i1))
     (fun s' => merged s' /\ s_i0 s' = i0 /\ s_i1 s' = i1).
Proof.
  pose proof push_i0 as Hi0. pose proof (ps_i1 _ _ _ _ _ _ Hp) as Hi1. pose proof (md_few _ Hs) as Hfew'.
  pose proof (md_i1 _ Hs) as Hi1'. pose proof (md_i0 _ Hs) as Hi0'.
  assert (i0 = s_i0 s /\ s_i1 s < i1 \/ i0 = s_i0 s + 1) as Hcase by (destruct (ps_re _ _ _ _ _ _ Hp) as [(? & _ & ?)|(? & _)]; auto).
  eapply wp_mono; [apply (groupIncrement_wp _ _ push_width); simpl; lia|].
  intros s' (Hw' & Ek & Eg & Ei0 & Ei1 & Et & Er). simpl in *. split; [|done].
  split; rewrite ?Ei1, ?Ei0, ?Eg, ?Ek; try done; try lia.
  - rewrite (md_k _ Hs). unfold alen. rewrite length_app. simpl. lia.
  - pose proof (tk_len _ _ _ _ _ _ _ _ _ _ (ps_taken _ _ _ _ _ _ Hp)) as Hl. pose proof (md_len _ Hs). unfold tlen in *. rewrite Et. lia.
  - pose proof push_relen. pose proof (md_relen _ Hs). unfold tlen in *. rewrite Er. lia.
  - intros p Hpb. rewrite Et, push_cell_old by done. by apply (md_old _ Hs).
  - intros i Hi. rewrite Er. destruct (decide (i < s_i0 s)) as [Hlt|].
    + destruct (md_re _ Hs i ltac:(lia)) as (r & e1 & e0 & Hr & He1 & He0 & Hk & Hb). exists r, e1, e0.
      split_and!; [by rewrite push_re_before by lia|by apply push_at|done|done|lia|lia].
    + assert (i = s_i0 s) as -> by lia. destruct push_re_new as (Hr & e0 & He0 & Hk); [lia|].
      exists (s_k s), e, e0. split_and!; [done|apply push_end|done|done|lia|lia].
  - intros j p v Hj Hjp Hv. rewrite Et. destruct (decide (j < s_i1 s)) as [Hlt|].
    + destruct (md_new _ Hs j p v ltac:(lia) Hjp Hv) as (i & e0 & Hc & He0 & Hsk). exists i, e0.
      split_and!; [by rewrite (push_cell_before j) by (done || lia)|by apply push_at|done].
    + exists (s_k s), e. split_and!; [by apply (push_cell_new j); [lia|]|apply push_end|].
      by apply (ps_same _ _ _ _ _ _ Hp j); [lia|].
  - intros i Hi. rewrite Et, Er. destruct (decide (i = s_k s)) as [->|].
    + destruct Hcase as [[_ Hlt]|E]; [left|right].
      * destruct (position _ _ Hperm (s_i1 s) ltac:(lia)) as (p & Hjp & _). exists (s_i1 s), p.
        split_and!; [lia..|done|]. by apply (push_cell_new (s_i1 s)); [lia|].
      * exists (s_i0 s). split; [lia|]. by apply push_re_new.
    + destruct (md_used _ Hs i ltac:(lia)) as [(j & p & Hj & Hjp & Hc)|(i' & Hi' & Hc)]; [left|right].
      * exists j, p. split_and!; [lia..|done|by rewrite (push_cell_before j) by (done || lia)].
      * exists i'. split; [lia|]. by rewrite push_re_before by lia.
  - intros j v e0 Hj Hv [He0| ->%list_elem_of_singleton]%elem_of_app; [by apply (md_above_new _ Hs j v e0); [lia|..]|].
    destruct (aget_is_Some newValues i1) as [u Hu]; [lia|]. eapply jlt_le_trans; [by apply (ps_new _ _ _ _ _ _ Hp u); [lia|]|].
    by eapply (key_le i1 j); [lia|..].
  - intros i e0 e1 Hi He0 [He1| ->%list_elem_of_singleton]%elem_of_app; [by eapply (md_above_old _ Hs i); [lia|..]|].
    by apply (ps_old _ _ _ _ _ _ Hp i).
  - rewrite fmap_app. apply StronglySorted_app. split_and!; [|apply Hs|simpl; repeat constructor].
    intros x y (e0 & -> & He0)%list_elem_of_fmap ->%list_elem_of_singleton. by apply (ps_above _ _ _ _ _ _ Hp).
  - intros Hr e' He'. by apply push_vals.
Qed.
End push.

(** *** The turns of the loops *)

(** The keys of the new records that have been placed are below what comes. *)
Lemma placed_below s x :
  merged s -> (forall e, e ∈ s_groups s -> (kv_key e <. x) = true) -> vsum x (new_ids 0 (s_i1 s)) = 0.
Proof.
  intros Hs Hbelow. pose proof (md_i1 _ Hs). apply vsum_none. intros k r Hk Hr.
  destruct (new_record 0 (s_i1 s) k) as (l & p & r' & v & Hl & Hlp & -> & Hr' & Hv & ->); [lia..|done|].
  rewrite Hr in Hr'. injection Hr' as <-. destruct (md_new _ Hs l p _ Hl Hlp Hv) as (i & e & _ & He & Hsk).
  eapply gt_not_same; [by eapply Hbelow, aget_elem|done].
Qed.

(** What is the sum over the records a group has taken. *)
Lemma taken_sum x i i1 :
  0 <= i <= i1 -> i1 <= n1 -> (forall j v, i <= j < i1 -> aget newValues j = Some v -> same_key x (g_key g v)) ->
  vsum x (new_ids i i1) = total (amount (data c) w) (filters c) (d_zero d) (new_ids i i1).
Proof.
  intros Hi Hi1 Hsame. apply vsum_all. intros q Hq.
  destruct (new_record i i1 q) as (l & p & r & v & Hl & _ & _ & Hr & Hv & ->); [done..|]. exists r. split; [done|].
  by apply (Hsame l).
Qed.

Lemma pushed_old s (o : kv) e t i1 :
  merged s -> aget og (s_i0 s) = Some o -> kv_key e = kv_key o -> s_i1 s <= i1 <= n1 ->
  taken g newValues newIndex n0 (s_k s) (kv_key e) (s_groupIndex s) (s_i1 s) i1 t ->
  (forall v, i1 < n1 -> aget newValues i1 = Some v -> (kv_key e <. g_key g v) = true) ->
  (forall v, s_i1 s < i1 -> aget newValues (s_i1 s) = Some v -> (kv_key o <=. g_key g v) = true) ->
  (g_resetNeeded g = false -> kv_value e = Some (with_ids c (d_zero d) newIndex n0 w
     (reduceInitial (g_reduce g) + vsum (kv_key o) (seqZ 0 n0)) (s_i1 s) i1)) ->
  pushed s e t (TArr (tkind (s_reIndex s)) (aupd (tcells (s_reIndex s)) (s_i0 s) (tstore (tkind (s_reIndex s)) (s_k s))))
    (s_i0 s + 1) i1.
Proof.
  intros Hs Ho Hke Hi1 Htk Hnext Hfirst Hval. pose proof (md_i1 _ Hs).
  assert (forall j v, s_i1 s <= j < i1 -> aget newValues j = Some v -> same_key (kv_key e) (g_key g v)) as Hsame.
  { intros j v Hj Hv. destruct (aget_is_Some newValues (s_i1 s)) as [u Hu]; [lia|]. rewrite Hke. split.
    - eapply jle_trans; [by apply (Hfirst u); [lia|]|]. by eapply (key_le (s_i1 s) j); [lia|..].
    - apply jlt_false; [by eapply old_natural|by eapply key_natural|]. rewrite <- Hke.
      by apply (tk_key _ _ _ _ _ _ _ _ _ _ Htk j). }
  split; try done.
  - intros i e0 Hi He0. rewrite Hke. by apply (old_lt (s_i0 s) i); [lia|..].
  - intros e' He'. rewrite Hke. by apply (md_above_old _ Hs (s_i0 s) o e').
  - right. eauto.
  - intros Hr. rewrite (Hval Hr). f_equal. unfold with_ids. rewrite vsum_app, (ids_app newIndex n0 0 (s_i1 s) i1), vsum_app by lia.
    rewrite <- (taken_sum (kv_key e) (s_i1 s) i1) by (done || lia).
    rewrite (placed_below s (kv_key e) Hs), Hke; [lia|]. intros e' He'. rewrite Hke. by apply (md_above_old _ Hs (s_i0 s) o e').
Qed.

(** A key that none of the old groups has. *)
Lemma fresh_key s v :
  merged s -> aget newValues (s_i1 s) = Some v ->
  (forall o : kv, aget og (s_i0 s) = Some o -> (g_key g v <. kv_key o) = true) ->
  (forall i e0, s_i0 s <= i -> aget og i = Some e0 -> (g_key g v <. kv_key e0) = true) /\ vsum (g_key g v) (seqZ 0 n0) = 0.
Proof.
  intros Hs Hv Hold. pose proof (aget_Some _ _ _ Hv). pose proof (md_i0 _ Hs).
  assert (forall i e0, s_i0 s <= i -> aget og i = Some e0 -> (g_key g v <. kv_key e0) = true) as Hab.
  { intros i e0 Hi He0. pose proof (aget_Some _ _ _ He0). destruct (aget_is_Some og (s_i0 s)) as [o Ho]; [lia|].
    destruct (decide (i = s_i0 s)) as [->|]; [by apply Hold|].
    eapply jlt_le_trans; [by apply Hold|]. apply jlt_le. by apply (old_lt (s_i0 s) i); [lia|..]. }
  split; [done|]. apply vsum_none. intros k r Hk%elem_of_seqZ Hr. destruct (Hog k ltac:(lia)) as (r' & e0 & Hr' & He0 & Hsk).
  rewrite Hr in Hr'. injection Hr' as <-. pose proof (aget_Some _ _ _ He0) as Hib.
  destruct (decide (s_i0 s <= groupof g k)) as [Hge|Hlt].
  - eapply lt_not_same; [by apply (Hab (groupof g k))|done].
  - destruct (md_re _ Hs (groupof g k) ltac:(lia)) as (q & e & e0' & _ & He & He0' & Hke & _).
    rewrite He0 in He0'. injection He0' as <-. eapply gt_not_same; [|exact Hsk]. rewrite <- Hke.
    apply (md_above_new _ Hs (s_i1 s) v e); [lia|done|by eapply aget_elem].
Qed.

Lemma pushed_new s v e t i1 :
  merged s -> aget newValues (s_i1 s) = Some v -> kv_key e = g_key g v -> s_i1 s < i1 <= n1 ->
  (forall o : kv, aget og (s_i0 s) = Some o -> (g_key g v <. kv_key o) = true) ->
  taken g newValues newIndex n0 (s_k s) (kv_key e) (s_groupIndex s) (s_i1 s) i1 t ->
  (forall u, i1 < n1 -> aget newValues i1 = Some u -> (kv_key e <. g_key g u) = true) ->
  (g_resetNeeded g = false -> kv_value e = Some (with_ids c (d_zero d) newIndex n0 w (reduceInitial (g_reduce g)) (s_i1 s) i1)) ->
  pushed s e t (s_reIndex s) (s_i0 s) i1.
Proof.
  intros Hs Hv Hke Hi1 Hold Htk Hnext Hval. pose proof (md_i1 _ Hs). destruct (fresh_key s v Hs Hv Hold) as [Hab Hz].
  assert (forall j u, s_i1 s <= j < i1 -> aget newValues j = Some u -> same_key (kv_key e) (g_key g u)) as Hsame.
  { intros j u Hj Hu. rewrite Hke. split; [by eapply (key_le (s_i1 s) j); [lia|..]|].
    apply jlt_false; [by eapply key_natural..|]. rewrite <- Hke. by apply (tk_key _ _ _ _ _ _ _ _ _ _ Htk j). }
  assert (forall e', e' ∈ s_groups s -> (kv_key e' <. kv_key e) = true) as Habove.
  { intros e' He'. rewrite Hke. by apply (md_above_new _ Hs (s_i1 s) v e'); [lia|..]. }
  split; try done; [lia| | |].
  - intros i e0 Hi He0. rewrite Hke. by apply (Hab i).
  - left. split_and!; [done..|lia].
  - intros Hr. rewrite (Hval Hr). f_equal. unfold with_ids. rewrite vsum_app, (ids_app newIndex n0 0 (s_i1 s) i1), vsum_app by lia.
    rewrite <- (taken_sum (kv_key e) (s_i1 s) i1) by (done || lia).
    rewrite (placed_below s (kv_key e) Hs Habove), Hke, Hz. lia.
Qed.

Lemma group_merge_step_wp s :
  merged s -> s_i1 s < n1 ->
  wp (group_merge_step typed c g (d_zero d) newValues newIndex n0 n1 og s) (fun s' =>
    merged s' /\ s_i0 s <= s_i0 s' /\ s_i1 s <= s_i1 s' /\ s_i0 s + s_i1 s < s_i0 s' + s_i1 s').
Proof.
  intros Hs Hi. pose proof (md_i1 _ Hs). pose proof (md_len _ Hs) as Hl. pose proof (md_relen _ Hs).
  destruct (aget_is_Some newValues (s_i1 s)) as [v Hv]; [lia|].
  unfold group_merge_step. rewrite (rd_Some _ _ _ Hv). cbn [mbind js_bind].
  set (fresh := KV (g_key g v) _).
  assert (forall e reIndex i0 v0, (g_resetNeeded g = false -> lawful (g_reduce g) w /\ kv_value e = Some v0) ->
    (forall t e' i1, s_i1 s <= i1 <= n1 -> kv_key e' = kv_key e ->
       taken g newValues newIndex n0 (s_k s) (kv_key e) (s_groupIndex s) (s_i1 s) i1 t ->
       (forall u, aget newValues (s_i1 s) = Some u -> (kv_key e <. g_key g u) = false -> s_i1 s < i1) ->
       (forall u, aget newValues i1 = Some u -> i1 < n1 -> (kv_key e <. g_key g u) = true) ->
       (g_resetNeeded g = false -> kv_value e' = Some (with_ids c (d_zero d) newIndex n0 w v0 (s_i1 s) i1)) ->
       pushed s e' t reIndex i0 i1 /\ s_i0 s <= i0 /\ s_i0 s + s_i1 s < i0 + i1) ->
    wp ('(groupIndex, e, i1) ← group_take c g (d_zero d) newValues newIndex n0 n1 (s_k s) (kv_key e) (s_groupIndex s) e (s_i1 s);
        groupIncrement typed (AddSt (s_groups s ++ [e]) (s_k s) groupIndex reIndex (s_width s) (s_capacity s) i0 i1))
       (fun s' => merged s' /\ s_i0 s <= s_i0 s' /\ s_i1 s <= s_i1 s' /\ s_i0 s + s_i1 s < s_i0 s' + s_i1 s')) as Hgo.
  { intros e reIndex i0 v0 Hval Hpush. apply wp_bind. eapply wp_mono.
    { apply (group_take_wp c g (d_zero d) newValues newIndex n0 n1 Hlen Hperm Hn0 Hfl ltac:(lia) (s_k s) (kv_key e)
        (s_groupIndex s) e (s_i1 s) w v0); [lia|lia|done]. }
    intros [[t e'] i1] (Hi1 & Hke & Htk & Hfirst & Hnext & Hv'). destruct (Hpush t e' i1) as (Hp & Hi0 & Hlt); try done.
    eapply wp_mono; [by apply (merged_push s e' t reIndex i0 i1)|]. intros s' (Hs' & -> & ->). split_and!; done || lia. }
  assert ((forall o, aget og (s_i0 s) = Some o -> (g_key g v <. kv_key o) = true) ->
    wp ('(groupIndex, e, i1) ← group_take c g (d_zero d) newValues newIndex n0 n1 (s_k s) (kv_key fresh) (s_groupIndex s) fresh (s_i1 s);
        groupIncrement typed (AddSt (s_groups s ++ [e]) (s_k s) groupIndex (s_reIndex s) (s_width s) (s_capacity s) (s_i0 s) i1))
       (fun s' => merged s' /\ s_i0 s <= s_i0 s' /\ s_i1 s <= s_i1 s' /\ s_i0 s + s_i1 s < s_i0 s' + s_i1 s')) as Hfresh.
  { intros Hold. apply (Hgo fresh _ _ (reduceInitial (g_reduce g))).
    - intros Hr. split; [by apply Hov|]. simpl. by rewrite Hr.
    - intros t e' i1 Hi1 Hke Htk Hfirst Hnext Hval. specialize (Hfirst v Hv (jlt_irrefl _)).
      split; [|lia]. apply (pushed_new s v); try done; [lia|by rewrite Hke|by rewrite Hke; auto]. }
  destruct (aget og (s_i0 s)) as [o|] eqn:Ho.
  - destruct (kv_key o <=. g_key g v) eqn:Hle.
    + unfold twr. pose proof (aget_Some _ _ _ Ho). unfold tlen in *. apply wp_bind, wp_bind, wp_bind, wp_wr; [pose proof (md_i0 _ Hs); lia|].
      apply wp_Ret. apply wp_Ret. cbn [mbind js_bind].
      eapply (Hgo o).
      * intros Hr. destruct (Hov Hr) as [Hw Hvals]. split; [done|]. by apply Hvals, (aget_elem _ (s_i0 s)).
      * intros t e' i1 Hi1 Hke Htk _ Hnext Hval. split; [|lia]. apply (pushed_old s o); try done; rewrite ?Hke; auto.
        intros u _ Hu. rewrite Hv in Hu. by injection Hu as <-.
    + apply wp_bind, wp_Ret, Hfresh. intros o' [= <-].
      apply jle_false; [by eapply old_natural|by eapply key_natural|done].
  - by apply wp_bind, wp_Ret, Hfresh.
Qed.

Lemma group_first_wp : wp (group_first g newValues n1) (fun i1 => i1 = 0).
Proof.
  pose proof (alen_nonneg newValues) as Hn. rewrite Hlen in Hn. unfold group_first. simpl.
  destruct (Z.ltb_spec 0 n1); [|simpl; lia]. destruct (aget_is_Some newValues 0) as [v Hv]; [lia|].
  rewrite (rd_Some _ _ _ Hv). simpl. pose proof (key_natural 0 v Hv) as Hnat. unfold natural in Hnat. by rewrite Hnat.
Qed.

Lemma group_merged_start wd reIndex :
  width_range wd -> fits wd t0 -> fits wd reIndex -> g_k g <= tlen reIndex -> merged (AddSt [] 0 t0 reIndex wd (2 ^ wd) 0 0).
Proof.
  intros Hw Ht Hr Hl. pose proof (alen_nonneg newValues). pose proof (alen_nonneg og). split; simpl; try done; try lia.
  - split; simpl; try done. split; [done|]. by destruct Hw as [->|[->| ->]].
  - intros j v e _ _ []%elem_of_nil.
  - intros i e0 e _ _ []%elem_of_nil.
  - constructor.
  - intros _ e []%elem_of_nil.
Qed.

Lemma merge_new s :
  merged s ->
  wp (loop (S (Z.to_nat (n1 + g_k g))) (fun s =>
        if s_i1 s <? n1 then
          s ← group_merge_step typed c g (d_zero d) newValues newIndex n0 n1 og s;
          Ret (inl s)
        else Ret (inr s)) s)
     (fun s' => merged s' /\ s_i1 s' = n1).
Proof.
  intros Hs. apply (wp_loop merged (fun s => n1 + g_k g - s_i0 s - s_i1 s)); [done|pose proof (md_i1 _ Hs); pose proof (md_i0 _ Hs); lia|].
  intros s1 Hs1. pose proof (md_i1 _ Hs1). destruct (Z.ltb_spec (s_i1 s1) n1); [|simpl; split; [done|lia]].
  apply wp_bind. eapply wp_mono; [by apply group_merge_step_wp|]. intros s2 (Hs2 & Ha & Hb & Hlt). simpl.
  pose proof (md_i1 _ Hs2). pose proof (md_i0 _ Hs2). split; [done|lia].
Qed.

(** The old groups that are left. *)
Lemma merge_old s :
  merged s -> s_i1 s = n1 ->
  wp (loop (S (Z.to_nat (g_k g))) (fun s =>
        if s_i0 s <? g_k g then
          reIndex ← twr (s_reIndex s) (s_i0 s) (s_k s);
          e ← rd og (s_i0 s);
          s ← groupIncrement typed (AddSt (s_groups s ++ [e]) (s_k s) (s_groupIndex s) reIndex
                                    (s_width s) (s_capacity s) (s_i0 s + 1) (s_i1 s));
          Ret (inl s)
        else Ret (inr s)) s)
     (fun s' => merged s' /\ s_i1 s' = n1 /\ s_i0 s' = g_k g).
Proof.
  intros Hs E. apply (wp_loop (fun s => merged s /\ s_i1 s = n1) (fun s => g_k g - s_i0 s)); [done|pose proof (md_i0 _ Hs); lia|].
  intros s1 [Hs1 E1]. pose proof (md_i0 _ Hs1). destruct (Z.ltb_spec (s_i0 s1) (g_k g)); [|simpl; split_and!; done || lia].
  pose proof (md_relen _ Hs1) as Hl. unfold tlen in Hl. unfold twr. apply wp_bind, wp_bind, wp_wr; [lia|]. apply wp_Ret.
  apply wp_bind, wp_rd; [lia|]. intros o Ho. apply wp_bind. eapply wp_mono.
  - apply (merged_push s1 o (s_groupIndex s1) _ (s_i0 s1 + 1) (s_i1 s1) Hs1). apply (pushed_old s1 o); try done; try lia.
    + apply taken_none.
    + intros Hr. unfold with_ids. rewrite ids_nil. unfold total. simpl. rewrite Z.add_0_r.
      by apply (proj2 (Hov Hr)), (aget_elem _ (s_i0 s1)).
  - intros s2 (Hs2 & Ea & Eb). simpl. split; [split; [done|congruence]|]. pose proof (md_i0 _ Hs2). lia.
Qed.

(** *** The groups of all records *)

(** The records that were there follow their groups. *)
Lemma reindexed s :
  merged s -> s_i0 s = g_k g -> (forall p, 0 <= p < n0 -> aget (tcells t0) p = Some (groupof g p)) ->
  wp (if s_k s >? s_i0 s then
        for_ 0 n0 (fun i t => x ← trd t i; y ← trd (s_reIndex s) x; twr t i y) (s_groupIndex s)
      else Ret (s_groupIndex s))
     (fun t => fits (s_width s) t /\ tlen t = tlen t0 /\
        (forall p, 0 <= p < n0 -> exists r, aget (tcells t) p = Some r /\ aget (tcells (s_reIndex s)) (groupof g p) = Some r) /\
        (forall q, n0 <= q -> aget (tcells t) q = aget (tcells (s_groupIndex s)) q)).
Proof.
  intros Hs Hi0 Hof. destruct (md_width _ Hs) as [Hw Hc Hk Hg Hre]. pose proof (md_len _ Hs) as Hl. pose proof (alen_nonneg newValues).
  assert (forall p, 0 <= p < n0 -> exists r, aget (tcells (s_reIndex s)) (groupof g p) = Some r /\
    groupof g p <= r <= groupof g p + (s_k s - s_i0 s) /\ 0 <= r < s_k s) as Hr.
  { intros p Hp. destruct (Hog p Hp) as (r0 & o & _ & Ho%aget_Some & _).
    destruct (md_re _ Hs (groupof g p)) as (r & e & o' & Hr & He & _ & _ & Hb); [lia|]. exists r.
    split; [done|]. split; [done|]. rewrite (md_k _ Hs). by eapply aget_Some. }
  destruct (Z.gtb_spec (s_k s) (s_i0 s)) as [Hgt|Hle].
  - eapply wp_mono.
    + apply (wp_for (fun i t => fits (s_width s) t /\ tlen t = tlen t0 /\
        (forall p, 0 <= p < i -> exists r, aget (tcells t) p = Some r /\ aget (tcells (s_reIndex s)) (groupof g p) = Some r) /\
        (forall q, i <= q -> aget (tcells t) q = aget (tcells (s_groupIndex s)) q))); [done| |].
      * split_and!; try done. intros p Hp. lia.
      * intros i t Hi (Hft & Hlt & Hdone & Hrest). destruct (Hr i ltac:(lia)) as (r & Hri & _ & Hrb).
        unfold trd, twr. rewrite (rd_Some _ _ (groupof g i)); [|by rewrite Hrest, (md_old _ Hs) by lia; apply Hof].
        cbn [mbind js_bind]. rewrite (rd_Some _ _ _ Hri). cbn [mbind js_bind]. unfold tlen in *. apply wp_bind, wp_wr; [lia|].
        apply wp_Ret. split; [apply fits_aupd; [lia|done|lia]|]. split; [simpl; by rewrite alen_aupd|].
        assert (tstore (tkind t) r = r) as -> by (apply (fits_store _ _ _ Hft); lia). simpl. split.
        -- intros p Hp. destruct (decide (p = i)) as [->|]; [exists r; by rewrite aget_aupd_eq by lia|].
           rewrite aget_aupd_ne by lia. apply Hdone. lia.
        -- intros q Hq. rewrite aget_aupd_ne by lia. apply Hrest. lia.
    + by intros t (? & ? & ? & ?).
  - apply wp_Ret. split_and!; try done. intros p Hp. destruct (Hr p Hp) as (r & Hrp & Hb & _).
    pose proof (md_few _ Hs). exists r. split; [|done]. rewrite (md_old _ Hs), Hof by done. f_equal. lia.
Qed.

Section final.
Context s t (Hs : merged s) (Hi0 : s_i0 s = g_k g) (Hi1 : s_i1 s = n1).
Context (Hold : forall p, 0 <= p < n0 -> exists r, aget (tcells t) p = Some r /\ aget (tcells (s_reIndex s)) (groupof g p) = Some r).
Context (Hnew : forall q, n0 <= q -> aget (tcells t) q = aget (tcells (s_groupIndex s)) q).

(** The group of each record, in the new numbering. *)
Lemma final_group k r :
  0 <= k < n0 + n1 -> aget (data c) k = Some r ->
  exists i e, aget (tcells t) k = Some i /\ aget (s_groups s) i = Some e /\ same_key (kv_key e) (kx r).
Proof.
  intros Hk Hr. destruct (decide (k < n0)) as [Hlt|].
  - destruct (Hold k ltac:(lia)) as (i & Hi & Hre). destruct (Hog k ltac:(lia)) as (r' & o & Hr' & Ho & Hsk).
    rewrite Hr in Hr'. injection Hr' as <-. pose proof (aget_Some _ _ _ Ho).
    destruct (md_re _ Hs (groupof g k)) as (i' & e & o' & Hi' & He & Ho' & Hke & _); [lia|].
    rewrite Ho in Ho'. injection Ho' as <-. exists i, e. assert (i' = i) as -> by congruence.
    split; [done|]. split; [done|]. by rewrite Hke.
  - destruct (position_of _ _ Hperm (k - n0) ltac:(lia)) as (j & Hj & Hjp). destruct (Hat j _ Hj Hjp) as (r' & Hr' & Hv).
    replace (k - n0 + n0) with k in Hr' by lia. rewrite Hr in Hr'. injection Hr' as <-.
    destruct (md_new _ Hs j (k - n0) (d_value d r)) as (i & e & Hc & He & Hsk); [lia|done|done|].
    exists i, e. rewrite Hnew by lia. replace (k - n0 + n0) with k in Hc by lia. done.
Qed.

Lemma final_used i : 0 <= i < s_k s -> exists k, 0 <= k < n0 + n1 /\ aget (tcells t) k = Some i.
Proof.
  intros Hi. destruct (md_used _ Hs i Hi) as [(j & p & Hj & Hjp & Hc)|(i' & Hi' & Hre)].
  - destruct (position _ _ Hperm j ltac:(lia)) as (p' & Hp' & Hb). assert (p' = p) as -> by congruence.
    exists (p + n0). split; [lia|]. by rewrite Hnew by lia.
  - destruct (Hou i' ltac:(lia)) as (k & Hk & E). destruct (Hold k Hk) as (r & Hr & Hre'). exists k. split; [pose proof (alen_nonneg newValues); lia|].
    rewrite E in Hre'. congruence.
Qed.

Lemma final_keyed g' :
  dims c !! g_dim g = Some d -> n c = n0 + n1 -> g_dim g' = g_dim g -> g_key g' = g_key g -> g_groups g' = s_groups s ->
  (forall k i, 0 <= k < n0 + n1 -> aget (tcells t) k = Some i -> 0 <= i < s_k s -> groupof g' k = i) -> keyed c g'.
Proof.
  intros Hd Hn Ed Ek Eg Hof. split; rewrite ?Eg, ?Ek, ?Ed; [apply Hs| |].
  - intros k r d' Hr Hd'. rewrite Hd in Hd'. injection Hd' as <-. pose proof (aget_Some _ _ _ Hr) as Hk. rewrite Hdata in Hk.
    destruct (final_group k r Hk Hr) as (i & e & Hi & He & Hsk). exists e. rewrite (Hof k i Hk Hi); [done|].
    rewrite (md_k _ Hs). by eapply aget_Some.
  - intros i Hi. rewrite <- (md_k _ Hs) in Hi. destruct (final_used i Hi) as (k & Hk & E). exists k. rewrite Hn.
    split; [done|]. by apply Hof.
Qed.

End final.
End run.

(** All ids, in the order of the merge. *)
Lemma all_ids : seqZ 0 n0 ++ new_ids 0 n1 ≡ₚ seqZ 0 (n0 + n1).
Proof.
  pose proof (alen_nonneg newValues). rewrite (seqZ_app 0 n0 n1) by lia. apply Permutation_app_head. unfold ids. rewrite Hperm.
  rewrite Z.add_0_l. assert ((fun p => p + n0) <$> seqZ 0 n1 = seqZ n0 n1) as ->; [|done].
  unfold seqZ. rewrite <- list_fmap_compose. apply list_fmap_ext. intros _ x _. simpl. lia.
Qed.

(** The sum of the shares of a group is the sum over the records of its key. *)
Lemma total_vsum g' i e :
  keyed c g' -> g_key g' = g_key g -> dims c !! g_dim g' = Some d -> n c = alen (data c) -> aget (g_groups g') i = Some e ->
  total (share c g' w i) (filters c) (d_zero d) (seqZ 0 (n c)) = vsum (kv_key e) (seqZ 0 (n c)).
Proof.
  intros Hky Ekey Hd Hn He. unfold key_sum, total. apply zsum_ext. intros k Hk%elem_of_seqZ. f_equal.
  destruct (aget_is_Some (data c) k) as [r Hr]; [lia|]. unfold share, key_amount, amount. rewrite Hr. simpl.
  destruct (ky_group _ _ Hky k r d Hr Hd) as (e' & He' & Hsk). rewrite Ekey in Hsk.
  destruct (Z.eqb_spec (groupof g' k) i) as [E|Hne]; simpl.
  - rewrite E, He in He'. injection He' as <-. unfold same_keyb. by destruct Hsk as [-> ->].
  - destruct (same_keyb (kv_key e) _) eqn:Eb; [|done]. exfalso. apply Hne. apply andb_true_iff in Eb.
    by apply (keyed_unique c g' (groupof g' k) i e' e (g_key g (d_value d r)) Hky).
Qed.

(** ** The whole of [add] *)

Context (gid : nat) (Hgid : grps c !! gid = Some g) (Hd : dims c !! g_dim g = Some d) (Hn : n c = n0 + n1).

(** The index of groups that the merge begins with. *)
Lemma start_index :
  wp (if g_k g >? 1 then
        match g_groupIndex g with
        | Some t => Ret (crossfilter_arrayLengthen typed t (n c))
        | None => Stuck
        end
      else Ret (crossfilter_index typed (n c) (g_groupCapacity g)))
     (fun t => fits (g_groupWidth g) t /\ n0 + n1 <= tlen t /\
        forall k, 0 <= k < n0 -> aget (tcells t) k = Some (groupof g k)).
Proof.
  destruct (st_sized _ _ _ _ _ Hst) as (Hw & Hc & Hk & Hf). pose proof (alen_nonneg newValues).
  destruct (Z.gtb_spec (g_k g) 1) as [Hlt|Hle].
  - destruct (st_index _ _ _ _ _ Hst Hlt) as (t & Ht & Hcells). specialize (Hf t Ht). rewrite Ht. apply wp_Ret.
    destruct (lengthened typed t (n c)) as (Ek & El & Epre & Ecell). split_and!; [|lia|].
    + destruct Hf as [Hfk Hfc]. split; [by rewrite Ek|]. intros q x [Hx|[_ ->]]%Ecell; [by eapply Hfc|lia].
    + intros k Hk'. destruct (Hcells k Hk') as [i Hi]. unfold groupof. rewrite Ht, Hi. rewrite Epre; [done|].
      by eapply aget_Some.
  - apply wp_Ret. rewrite Hc. split; [by apply index_fits_capacity|]. pose proof (alen_zeros (n c)) as Hz.
    unfold tlen. rewrite index_cells. split; [lia|]. intros k Hk'.
    assert (groupof g k = 0) as -> by (destruct (Hog k Hk') as (r & e & _ & He%aget_Some & _); lia).
    unfold aget, zeros. destruct (Z.leb_spec 0 k); [|lia]. apply lookup_replicate. split; [done|lia].
Qed.

(** What [add] makes of the group. *)
Record added_group g' : Prop := AddedGroup {
  ag_dim : g_dim g' = g_dim g;
  ag_key : g_key g' = g_key g;
  ag_reduce : g_reduce g' = g_reduce g;
  ag_order : g_order g' = g_order g;
  ag_reset : g_resetNeeded g' = g_resetNeeded g;
  ag_all : g_groupAll g' = false;
  ag_sized : sized g';
  ag_index : index_ok c gid g';
  ag_keyed : keyed c g';
  ag_k : g_k g' = alen (g_groups g');
  ag_vals : g_resetNeeded g = false -> gs_vals (kv_key <$> g_groups g') (g_groups g') (fun i =>
    reduceInitial (g_reduce g) + total (share c g' w i) (filters c) (d_zero d) (seqZ 0 (n c)))
}.

Lemma group_add_wp :
  wp (group_add null typed c gid newValues newIndex n0 n1) (fun c' => exists g', added_group g' /\
    c' = put_grp (set_filterListeners c (replace_first (g_update g) (g_update g') (filterListeners c))) gid g').
Proof.
  destruct (st_sized _ _ _ _ _ Hst) as (Hw & Hc & Hk & Hf). unfold group_add, the_grp. rewrite Hgid. cbn [mbind js_bind].
  rewrite (the_dim_ret _ _ _ Hd). cbn [mbind js_bind]. apply wp_bind. eapply wp_mono; [apply start_index|].
  intros t0 (Ht0 & Hl0 & Hof). apply wp_bind. eapply wp_mono; [apply group_first_wp|]. intros i1 ->.
  rewrite Hc. apply wp_bind. eapply wp_mono.
  { apply (merge_new t0 Hl0), group_merged_start; [done..|by apply index_fits_capacity|]. unfold tlen. rewrite index_cells, alen_zeros. lia. }
  intros s1 [Hs1 E1]. apply wp_bind. eapply wp_mono; [by apply (merge_old t0 s1)|]. intros s (Hs & Ei1 & Ei0).
  apply wp_bind. eapply wp_mono; [by apply (reindexed t0 Hl0 s)|]. intros t (Hft & Hlt & Hold & Hnew).
  pose proof (md_k _ _ Hs) as Hks. pose proof (alen_nonneg (s_groups s)).
  assert (forall k, 0 <= k < n0 + n1 -> exists i, aget (tcells t) k = Some i /\ 0 <= i < s_k s) as Hcells.
  { intros k Hkb. destruct (aget_is_Some (data c) k) as [r Hr]; [lia|].
    destruct (final_group t0 s t Hs Ei0 Ei1 Hold Hnew k r Hkb Hr) as (i & e & Hi & He%aget_Some & _).
    exists i. split; [done|lia]. }
  assert (forall g' cap upd, g' = Grp (g_dim g) (g_key g) (s_groups s) (if s_k s >? 1 then Some t else None) (s_width s) cap (s_k s)
    (g_order g) (g_reduce g) upd (g_resetNeeded g) false -> cap = s_capacity s -> index_ok c gid g' -> added_group g') as Hdone.
  { intros g' cap upd -> -> Hi. destruct (md_width _ _ Hs) as [Hw' Hc' Hk' _ _].
    match goal with |- added_group ?g2 => set (g' := g2) in * end.
    assert (keyed c g') as Hky.
    { eapply (final_keyed t0 s t); try done. intros k i Hkb Hi' Hib. unfold groupof, g'. simpl.
      destruct (Z.gtb_spec (s_k s) 1); [by rewrite Hi'|simpl; lia]. }
    split; try done.
    - do 2 (split; [done|]). split; [simpl; lia|]. intros t'. simpl. destruct (_ >? _); [|done]. by intros [= <-].
    - intros Hr. split; [done|]. intros i e He. simpl in He.
      rewrite (total_vsum g' i e), (md_vals _ _ Hs Hr e) by (done || lia || by eapply aget_elem). rewrite Ei1, Hn.
      do 2 f_equal. unfold key_sum, total. by rewrite all_ids. }
  rewrite (st_all _ _ _ _ _ Hst), andb_false_r.
  revert Hdone. destruct (Z.gtb_spec (s_k s) 1) as [Hk1|Hk1]; [|destruct (Z.eqb_spec (s_k s) 1) as [E|E]];
    intros Hdone; apply wp_Ret; (eexists; split; [eapply Hdone; [reflexivity|done|]|reflexivity]); unfold index_ok; simpl.
  - split_and!; [done|lia|]. exists t. rewrite Hn. done.
  - done.
  - lia.
Qed.
End adding.
End merge.
