(* ===== verification/CfLinks.v ===== *)
(** * crossfilter: which groups are told of new records

    The groups that [postAdd] tells of new records are those in the
    [indexListeners] of the dimensions in use.  Each has one place in
    [filterListeners]: its [update], or the function that does nothing as long
    as it has no records.  [add] relies on it when it looks for the place of a
    group by the [update] the group has had so far. *)

From S2P Require Import Prelude.
From S2P Require Import Arrays.
From S2P Require Import Sums.
From S2P Require Import CfArray.
From S2P Require Import CfBits.
From S2P Require Import CfCore.
From S2P Require Import CfInv.
From S2P Require Import CfGroups.
From S2P Require Import CfShape.
From S2P Require Import CfGroupAdd.

Section links.
Context {R X : Type} `{JsOrdLaws X} (typed : bool).
Abbreviation cf := (@CfCore.cf R X).
Abbreviation dim := (@CfCore.dim R X).
Abbreviation grp := (@CfCore.grp R X).
Implicit Types (c : cf) (d : dim) (g : grp) (ds : list dim) (dl : list dlistener).

(** The groups that are told by the listeners [dl]. *)
Definition registered_by ds dl : list nat :=
  flat_map (fun l => match l with
                     | DPost did => match ds !! did with Some d => d_indexListeners d | None => [] end
                     | _ => []
                     end) dl.
Definition registered c : list nat := registered_by (dims c) (dataListeners c).

Definition update_of (gs : list grp) (gid : nat) : flistener :=
  match gs !! gid with Some g => g_update g | None => FNull end.
Definition is_all (l : flistener) : bool := match l with FAll _ => true | _ => false end.

(** What the group registered as [gid] with dimension [did] is like. *)
Record linked (n : Z) (did gid : nat) g : Prop := Linked {
  ln_dim : g_dim g = did;
  ln_key : forall x y, (x <=. y) = true -> (g_key g x <=. g_key g y) = true;
  ln_sized : sized typed g;
  ln_all : g_groupAll g = false;
  ln_lawful : exists w, lawful (g_reduce g) w;
  ln_update : g_update g = FNull \/ g_update g = FMany gid \/ g_update g = FOne gid;
  ln_null : g_update g = FNull -> g_groups g = [] /\ g_k g = 0 /\ n = 0
}.

(** What also a group is like that has been disposed of. *)
Definition made (gs : list grp) (did gid : nat) : Prop :=
  exists g, gs !! gid = Some g /\ g_dim g = did /\ (g_update g = FNull \/ g_update g = FMany gid \/ g_update g = FOne gid).

Record links c : Prop := Links {
  lk_posts : forall did, DPre did ∈ dataListeners c <-> DPost did ∈ dataListeners c;
  lk_nodup : NoDup (registered c);
  lk_own : forall did d gid, DPost did ∈ dataListeners c -> dims c !! did = Some d -> gid ∈ d_indexListeners d ->
    gid ∈ d_dimensionGroups d;
  lk_made : forall did d gid, DPost did ∈ dataListeners c -> dims c !! did = Some d -> gid ∈ d_dimensionGroups d ->
    made (grps c) did gid;
  lk_groups : forall did d gid, DPost did ∈ dataListeners c -> dims c !! did = Some d -> gid ∈ d_indexListeners d ->
    exists g, grps c !! gid = Some g /\ linked (n c) did gid g;
  lk_listeners : filterListeners c ≡ₚ (update_of (grps c) <$> registered c) ++ List.filter is_all (filterListeners c);
  lk_removes : NoDup (removeDataListeners c);
  lk_rdims : forall did, RDim did ∈ removeDataListeners c <-> DPre did ∈ dataListeners c;
  lk_rgroups : forall gid, RGroup gid ∈ removeDataListeners c <-> gid ∈ registered c
}.

Lemma elem_of_registered ds dl gid :
  gid ∈ registered_by ds dl <-> exists did d, DPost did ∈ dl /\ ds !! did = Some d /\ gid ∈ d_indexListeners d.
Proof.
  unfold registered_by. rewrite list_elem_of_In, in_flat_map. split.
  - intros ([did|did|aid] & Hl & Hin); [done| |done]. destruct (ds !! did) as [d|] eqn:Hd; [|done].
    exists did, d. by rewrite !list_elem_of_In.
  - intros (did & d & Hl & Hd & Hin). exists (DPost did). rewrite Hd. by rewrite !list_elem_of_In in *.
Qed.

Lemma registered_lt c gid : links c -> gid ∈ registered c -> (gid < length (grps c))%nat.
Proof.
  intros Hl (did & d & Hdl & Hd & Hin)%elem_of_registered. destruct (lk_groups _ Hl did d gid Hdl Hd Hin) as (g & Hg & _).
  by eapply lookup_lt_Some.
Qed.

Lemma registered_by_app ds dl dl' : registered_by ds (dl ++ dl') = registered_by ds dl ++ registered_by ds dl'.
Proof. apply flat_map_app. Qed.

Lemma registered_by_pre ds (l : list nat) : registered_by ds (DPre <$> l) = [].
Proof. by induction l. Qed.

Lemma registered_by_ext ds ds' dl :
  (forall did, DPost did ∈ dl -> d_indexListeners <$> ds' !! did = d_indexListeners <$> ds !! did) ->
  registered_by ds' dl = registered_by ds dl.
Proof.
  induction dl as [|l dl IH]; intros He; [done|]. unfold registered_by in *. simpl. rewrite IH by (intros; apply He; by right).
  f_equal. destruct l as [did|did|aid]; [done| |done]. specialize (He did ltac:(left)).
  destruct (ds' !! did), (ds !! did); naive_solver.
Qed.

Lemma update_of_ext (gs gs' : list grp) (l : list nat) :
  (forall gid, gid ∈ l -> gs' !! gid = gs !! gid) -> update_of gs' <$> l = update_of gs <$> l.
Proof.
  intros He. apply list_fmap_ext. intros i gid Hi. unfold update_of. rewrite He; [done|]. by eapply list_elem_of_lookup_2.
Qed.

(** It depends on these parts of the state only. *)
Definition told_groups d : list nat * list nat := (d_indexListeners d, d_dimensionGroups d).

Lemma links_ext c c' :
  n c' = n c -> dataListeners c' = dataListeners c -> removeDataListeners c' = removeDataListeners c ->
  grps c' = grps c -> filterListeners c' = filterListeners c ->
  (forall did, told_groups <$> dims c' !! did = told_groups <$> dims c !! did) -> links c -> links c'.
Proof.
  intros En Edl Erl Eg Efl Ed [Hp Hnd Hown Hmade Hg Hl Hr Hrd Hrg].
  assert (forall did d', dims c' !! did = Some d' -> exists d, dims c !! did = Some d /\
    d_indexListeners d = d_indexListeners d' /\ d_dimensionGroups d = d_dimensionGroups d') as Hback.
  { intros did d' Hd'. specialize (Ed did). rewrite Hd' in Ed. destruct (dims c !! did) as [d|]; [|done].
    injection Ed as E1 E2. exists d. by rewrite E1, E2. }
  assert (registered c' = registered c) as Er.
  { unfold registered. rewrite Edl. apply registered_by_ext. intros did _. specialize (Ed did).
    destruct (dims c' !! did), (dims c !! did); [|done..]. injection Ed as E1 _. simpl. by rewrite E1. }
  split; rewrite ?Edl, ?Erl, ?Er, ?Eg, ?Efl, ?En; try done.
  - intros did d' gid Hdl Hd' Hin. destruct (Hback did d' Hd') as (d & Hd & E1 & E2). rewrite <- E1 in Hin. rewrite <- E2. eauto.
  - intros did d' gid Hdl Hd' Hin. destruct (Hback did d' Hd') as (d & Hd & E1 & E2). rewrite <- E2 in Hin. eauto.
  - intros did d' gid Hdl Hd' Hin. destruct (Hback did d' Hd') as (d & Hd & E1 & E2). rewrite <- E1 in Hin. eauto.
Qed.

(** A group is replaced by one that is registered in the same way. *)
Lemma links_put_grp c gid g g' :
  links c -> grps c !! gid = Some g -> g_update g' = g_update g -> g_dim g' = g_dim g ->
  (forall did, linked (n c) did gid g -> linked (n c) did gid g') -> links (put_grp c gid g').
Proof.
  intros [Hp Hnd Hown Hmade Hg Hl Hr Hrd Hrg] Hgid Hu Hdim Hlk. split; try done.
  - intros did d gid' Hdl Hd Hin. destruct (Hmade did d gid' Hdl Hd Hin) as (g2 & Hg2 & Hd2 & Hu2). unfold made. simpl.
    destruct (decide (gid' = gid)) as [->|Hne]; [|exists g2; by rewrite list_lookup_insert_ne].
    exists g'. rewrite list_lookup_insert_eq by (by eapply lookup_lt_Some). rewrite Hgid in Hg2. injection Hg2 as <-. by rewrite Hu, Hdim.
  - intros did d gid' Hdl Hd Hin. destruct (Hg did d gid' Hdl Hd Hin) as (g2 & Hg2 & Hlk2). simpl.
    destruct (decide (gid' = gid)) as [->|Hne]; [|exists g2; by rewrite list_lookup_insert_ne].
    exists g'. rewrite list_lookup_insert_eq by (by eapply lookup_lt_Some). split; [done|].
    rewrite Hgid in Hg2. injection Hg2 as <-. by apply Hlk.
  - simpl. change (registered (put_grp c gid g')) with (registered c). rewrite Hl at 1. apply Permutation_app_tail.
    erewrite (list_fmap_ext (update_of (<[gid:=g']> (grps c)))); [done|]. intros i gid' _. unfold update_of.
    destruct (decide (gid' = gid)) as [->|Hne]; [|by rewrite list_lookup_insert_ne].
    rewrite list_lookup_insert_eq by (by eapply lookup_lt_Some). by rewrite Hgid.
Qed.

(** New values of its groups do not matter. *)
Lemma linked_with_groups n did gid g gs b :
  length gs = length (g_groups g) -> linked n did gid g -> linked n did gid (with_reset (with_groups g gs) b).
Proof.
  intros Hl [? ? ? ? ? ? Hn]. split; try done. intros Hu. destruct (Hn Hu) as (E & ? & ?). rewrite E in Hl.
  by destruct gs.
Qed.

Lemma wr_length {A} (a : list A) i x a' : wr a i x = Ret a' -> length a' = length a.
Proof. unfold wr. case_match; [|done]. intros [= <-]. pose proof (alen_aupd a i x). unfold alen in *. lia. Qed.

(** A registered group that has a listener is consistent. *)
Lemma registered_group c gid :
  links c -> gid ∈ registered c -> exists did d g, DPost did ∈ dataListeners c /\ dims c !! did = Some d /\
    gid ∈ d_indexListeners d /\ grps c !! gid = Some g /\ linked (n c) did gid g.
Proof.
  intros Hl (did & d & Hdl & Hd & Hin)%elem_of_registered. destruct (lk_groups _ Hl did d gid Hdl Hd Hin) as (g & Hg & Hlk).
  eauto 8.
Qed.

Lemma registered_ok c gid g :
  groups_ok typed c -> links c -> gid ∈ registered c -> grps c !! gid = Some g ->
  g_update g = FNull \/ grp_ok c (filters c) gid g.
Proof.
  intros Hgo Hl Hin Hg. destruct (registered_group c gid Hl Hin) as (did & d & g' & _ & _ & _ & Hg' & Hlk).
  rewrite Hg in Hg'. injection Hg' as <-.
  assert (g_update g ∈ filterListeners c) as Hu.
  { rewrite (lk_listeners _ Hl). apply elem_of_app. left. apply list_elem_of_fmap. exists gid. unfold update_of. by rewrite Hg. }
  destruct (ln_update _ _ _ _ Hlk) as [|[E|E]]; [by left|right..]; rewrite E in Hu;
    destruct (gs_listeners _ _ Hgo _ Hu) as (g2 & Hg2 & _ & Hok); rewrite Hg in Hg2; by injection Hg2 as <-.
Qed.

Lemma replace_first_perm {L} `{EqDecision L} (x z : L) l : x ∈ l -> x :: replace_first x z l ≡ₚ z :: l.
Proof.
  induction l as [|y l IH]; simpl; [by intros []%elem_of_nil|]. case_decide as E; [subst; intros _; apply perm_swap|].
  intros [->|Hl]%elem_of_cons; [done|]. rewrite perm_swap, (IH Hl). apply perm_swap.
Qed.

Lemma replace_first_same {L} `{EqDecision L} (x : L) l : replace_first x x l = l.
Proof. induction l as [|y l IH]; simpl; [done|]. case_decide; by subst; rewrite ?IH. Qed.

(** A group gets another listener in the place of the one it has. *)
Lemma update_replaced (gs : list grp) gid g' (reg : list nat) (fls alls : list flistener) :
  NoDup reg -> gid ∈ reg -> (gid < length gs)%nat -> fls ≡ₚ (update_of gs <$> reg) ++ alls ->
  replace_first (update_of gs gid) (g_update g') fls ≡ₚ (update_of (<[gid := g']> gs) <$> reg) ++ alls.
Proof.
  intros Hnd (r1 & r2 & ->)%list_elem_of_split Hlt Hfls. apply (Permutation_cons_inv (a := update_of gs gid)).
  assert (forall l : list nat, gid ∉ l -> update_of (<[gid := g']> gs) <$> l = update_of gs <$> l) as Hsame.
  { intros l Hl. apply update_of_ext. intros e He. apply list_lookup_insert_ne. by intros ->. }
  apply NoDup_app in Hnd as (_ & Hd & [Hr2 _]%NoDup_cons).
  rewrite replace_first_perm.
  - rewrite Hfls, !fmap_app, !fmap_cons, !Hsame; [|done|intros Hr1; apply (Hd _ Hr1); left].
    replace (update_of (<[gid:=g']> gs) gid) with (g_update g') by (unfold update_of; by rewrite list_lookup_insert_eq).
    rewrite <- !app_assoc, <- !app_comm_cons, <- !Permutation_middle. apply perm_swap.
  - rewrite Hfls, fmap_app, fmap_cons. apply elem_of_app. left. apply elem_of_app. right. left.
Qed.

Lemma not_null_spec (l : flistener) : not_null l = true <-> l <> FNull.
Proof. apply bool_decide_eq_true. Qed.

(** No listener is registered twice. *)
Lemma updates_nodup (gs : list grp) (reg : list nat) :
  NoDup reg -> (forall gid, gid ∈ reg -> update_of gs gid = FNull \/ update_of gs gid = FMany gid \/ update_of gs gid = FOne gid) ->
  NoDup (List.filter not_null (update_of gs <$> reg)).
Proof.
  induction reg as [|gid reg IH]; intros Hnd Hu; [constructor|]. apply NoDup_cons in Hnd as [Hni Hnd]. simpl.
  specialize (IH Hnd (fun gid' Hin => Hu gid' ltac:(by right))). destruct (not_null _) eqn:En; [|done]. constructor; [|done].
  intros Hin. apply list_elem_of_In, filter_In in Hin as [Hin _]. apply list_elem_of_In, list_elem_of_fmap in Hin as (gid' & E & Hin).
  apply not_null_spec in En. destruct (Hu gid ltac:(left)) as [|[E1|E1]], (Hu gid' ltac:(by right)) as [E2|[E2|E2]]; congruence.
Qed.

(** All groups and [groupAll]s are consistent with new records, and are
    listed as before. *)
Section relinked.
Context c c' (Hlk : links c) (Hgo : groups_ok typed c).
Context (Hlisted : forall did, DPost did ∈ dataListeners c -> is_Some (dims c !! did)).
Context (Em : m c' = m c) (Edl : dataListeners c' = dataListeners c) (Erl : removeDataListeners c' = removeDataListeners c).
Context (Egl : length (galls c') = length (galls c)).
Context (Hdims : forall did d, DPost did ∈ dataListeners c -> dims c !! did = Some d ->
  exists d', dims c' !! did = Some d' /\ d_indexListeners d' = d_indexListeners d /\ d_dimensionGroups d' = d_dimensionGroups d).
Context (Hgrps : forall gid did d, DPost did ∈ dataListeners c -> dims c !! did = Some d -> gid ∈ d_indexListeners d ->
  exists g', grps c' !! gid = Some g' /\ grp_ok c' (filters c') gid g' /\ linked (n c') did gid g').
Context (Hmade : forall gid did d, DPost did ∈ dataListeners c -> dims c !! did = Some d -> gid ∈ d_dimensionGroups d ->
  gid ∉ registered c -> made (grps c') did gid).
Context (Hgalls : forall aid, FAll aid ∈ filterListeners c -> exists a, galls c' !! aid = Some a /\ gall_ok c' (filters c') a).
Context (Hfls : filterListeners c' ≡ₚ (update_of (grps c') <$> registered c) ++ List.filter is_all (filterListeners c)).

Lemma relinked_group gid : gid ∈ registered c ->
  exists did g', grps c' !! gid = Some g' /\ grp_ok c' (filters c') gid g' /\ linked (n c') did gid g'.
Proof. intros (did & d & Hdl & Hd & Hin)%elem_of_registered. destruct (Hgrps gid did d Hdl Hd Hin) as (g' & ?). eauto. Qed.

Lemma relinked_update gid : gid ∈ registered c ->
  update_of (grps c') gid = FNull \/ update_of (grps c') gid = FMany gid \/ update_of (grps c') gid = FOne gid.
Proof. intros (did & g' & Hg' & _ & Hl)%relinked_group. unfold update_of. rewrite Hg'. apply Hl. Qed.

Lemma relinked_all aid : FAll aid ∈ filterListeners c' <-> FAll aid ∈ filterListeners c.
Proof.
  rewrite Hfls, elem_of_app, (list_elem_of_In (List.filter _ _)), filter_In, <- list_elem_of_In. split.
  - intros [(gid & E & Hin)%list_elem_of_fmap|[? _]]; [|done]. destruct (relinked_update gid Hin) as [|[|]]; congruence.
  - intros Hin. by right.
Qed.

Lemma relinked_groups_ok : groups_ok typed c'.
Proof.
  destruct Hgo as [Hok Hnd Hlast Hdata Hlen]. split; rewrite ?Em, ?Edl, ?Egl; try done.
  - intros l. rewrite Hfls. intros [(gid & -> & Hin)%list_elem_of_fmap|Hl]%elem_of_app.
    + destruct (relinked_group gid Hin) as (did & g' & Hg' & Hok' & Hl). unfold update_of. rewrite Hg'.
      destruct (ln_update _ _ _ _ Hl) as [E|[E|E]]; rewrite E; [done|exists g'..]; by rewrite E.
    + apply list_elem_of_In, filter_In in Hl as [Hl Ha]. apply list_elem_of_In in Hl. destruct l as [| | |aid]; try done. by apply Hgalls.
  - rewrite (List_filter_perm _ _ _ Hfls), List.filter_app. apply NoDup_app. split_and!.
    + apply updates_nodup; [apply Hlk|apply relinked_update].
    + intros l Hl1 Hl2. apply list_elem_of_In, filter_In in Hl1 as [(gid & -> & Hin)%list_elem_of_In%list_elem_of_fmap _].
      apply list_elem_of_In, filter_In in Hl2 as [[_ Ha]%filter_In _]. destruct (relinked_update gid Hin) as [E|[E|E]]; by rewrite E in Ha.
    + by apply nodup_filter_comm.
  - intros [aid Ha]. apply Hlast. exists aid. by apply relinked_all.
  - intros aid Ha. by apply Hdata, relinked_all.
Qed.

Lemma relinked_links : links c'.
Proof.
  assert (registered c' = registered c) as Er.
  { unfold registered. rewrite Edl. apply registered_by_ext. intros did Hdl. destruct (Hlisted did Hdl) as [d Hd].
    destruct (Hdims did d Hdl Hd) as (d' & Hd' & E & _). rewrite Hd, Hd'. simpl. by rewrite E. }
  split; rewrite ?Er, ?Edl, ?Erl; try apply Hlk.
  - intros did d' gid Hdl Hd' Hin. destruct (Hlisted did Hdl) as [d Hd]. destruct (Hdims did d Hdl Hd) as (d2 & Hd2 & E & Eg).
    rewrite Hd' in Hd2. injection Hd2 as <-. rewrite E in Hin. rewrite Eg. by apply (lk_own _ Hlk did d).
  - intros did d' gid Hdl Hd' Hin. destruct (Hlisted did Hdl) as [d Hd]. destruct (Hdims did d Hdl Hd) as (d2 & Hd2 & E & Eg).
    rewrite Hd' in Hd2. injection Hd2 as <-. rewrite Eg in Hin. destruct (decide (gid ∈ registered c)) as [Hreg|]; [|by eapply Hmade].
    destruct (relinked_group gid Hreg) as (did' & g' & Hg' & _ & Hl). exists g'. split_and!; [done| |apply Hl].
    destruct (lk_made _ Hlk did d gid Hdl Hd Hin) as (g & Hg & Egd & _). rewrite (ln_dim _ _ _ _ Hl).
    apply elem_of_registered in Hreg as (e & de & Hdle & Hde & Hine). destruct (Hgrps gid e de Hdle Hde Hine) as (g2 & Hg2 & _ & Hl2).
    rewrite Hg' in Hg2. injection Hg2 as <-. destruct (lk_groups _ Hlk e de gid Hdle Hde Hine) as (g3 & Hg3 & Hl3).
    rewrite Hg in Hg3. injection Hg3 as <-. rewrite <- Egd, (ln_dim _ _ _ _ Hl3), <- (ln_dim _ _ _ _ Hl2). by rewrite (ln_dim _ _ _ _ Hl).
  - intros did d' gid Hdl Hd' Hin. destruct (Hlisted did Hdl) as [d Hd]. destruct (Hdims did d Hdl Hd) as (d2 & Hd2 & E & _).
    rewrite Hd' in Hd2. injection Hd2 as <-. rewrite E in Hin. destruct (Hgrps gid did d Hdl Hd Hin) as (g' & ? & _ & ?). eauto.
  - rewrite Hfls at 1. apply Permutation_app_head. rewrite (List_filter_perm _ _ _ Hfls), List.filter_app.
    rewrite (filter_none _ (update_of _ <$> _)), filter_filter; [done|].
    intros l (gid & -> & Hin)%list_elem_of_fmap. destruct (relinked_update gid Hin) as [E|[E|E]]; by rewrite E.
Qed.
End relinked.

(** [reduce] and [order] of a group. *)
Lemma group_reduce_links c gid red w c' : lawful red w -> group_reduce c gid red = Ret c' -> links c -> links c'.
Proof.
  intros Hw E Hl. unfold group_reduce, the_grp in E. destruct (grps c !! gid) as [g|] eqn:Hg; [|done]. injection E as <-.
  apply (links_put_grp c gid g); [done..|]. intros did []. split; try done. by exists w.
Qed.

Lemma group_order_links c gid value c' : group_order c gid value = Ret c' -> links c -> links c'.
Proof.
  intros E Hl. unfold group_order, the_grp in E. destruct (grps c !! gid) as [g|] eqn:Hg; [|done]. injection E as <-.
  apply (links_put_grp c gid g); [done..|]. by intros did [].
Qed.

(** The methods of [groupAll]. *)
Lemma groupAll_value_links c aid c' v : groupAll_value c aid = Ret (c', v) -> links c -> links c'.
Proof.
  unfold groupAll_value. intros E. ret_inv E. destruct (a_resetNeeded a); [|by injection E as <- _].
  ret_inv E. injection E as <- _. by apply links_ext.
Qed.

Lemma groupAll_reduce_links c aid red c' : groupAll_reduce c aid red = Ret c' -> links c -> links c'.
Proof. unfold groupAll_reduce. intros E. ret_inv E. injection E as <-. by apply links_ext. Qed.

(** A new [groupAll] is computed when its value is asked for. *)
Lemma groupAll_ret c :
  groupAll c = Ret (Cf (data c) (n c) (m c) (M c) (filters c) (filterListeners c ++ [FAll (length (galls c))])
    (dataListeners c ++ [DAll (length (galls c))]) (removeDataListeners c) (dims c) (grps c)
    (galls c ++ [GAll None count_reducer true]), length (galls c)).
Proof. unfold groupAll, groupAll_add, the_gall. simpl. by rewrite list_lookup_middle. Qed.

Lemma groupAll_links c c' aid : groupAll c = Ret (c', aid) -> links c -> links c'.
Proof.
  rewrite groupAll_ret. intros [= <- _] [Hp Hnd Hown Hmade Hg Hl Hr Hrd Hrg]. set (c' := Cf _ _ _ _ _ _ _ _ _ _ _).
  assert (forall did, DPost did ∈ dataListeners c' <-> DPost did ∈ dataListeners c) as Hpost.
  { intros did. simpl. rewrite elem_of_app, list_elem_of_singleton. naive_solver. }
  assert (registered c' = registered c) as Er.
  { unfold registered. simpl. rewrite registered_by_app. apply app_nil_r. }
  split; rewrite ?Er; try done.
  - intros did. rewrite Hpost, <- Hp. simpl. rewrite elem_of_app, list_elem_of_singleton. naive_solver.
  - intros did d gid Hdl%Hpost. by apply (Hown did d).
  - intros did d gid Hdl%Hpost. by apply (Hmade did d).
  - intros did d gid Hdl%Hpost. by apply Hg.
  - simpl. rewrite List.filter_app, app_assoc. simpl. by apply Permutation_app_tail.
  - intros did. simpl. rewrite Hrd, elem_of_app, list_elem_of_singleton. naive_solver.
Qed.

(** A new dimension has no groups. *)
Lemma dimension_links c c' did d :
  cf_ok typed c -> links c -> did = length (dims c) -> n c' = n c -> grps c' = grps c -> filterListeners c' = filterListeners c ->
  dataListeners c' = DPre did :: dataListeners c ++ [DPost did] ->
  removeDataListeners c' = removeDataListeners c ++ [RDim did] -> dims c' = dims c ++ [d] -> d_indexListeners d = [] -> d_dimensionGroups d = [] -> links c'.
Proof.
  intros Hc [Hp Hnd Hown Hmade Hg Hl Hr Hrd Hrg] -> En Eg Efl Edl Erl Ed Hni Hng.
  assert (forall e, DPost e ∈ dataListeners c -> dims c' !! e = dims c !! e) as Hold.
  { intros e He. rewrite Ed. apply lookup_app_l. apply lookup_lt_is_Some, (ck_listed _ _ Hc). by right. }
  assert (registered c' = registered c) as Er.
  { unfold registered. rewrite Edl. change (DPre ?x :: ?l) with ([DPre x] ++ l). rewrite !registered_by_app.
    assert (registered_by (dims c') [DPost (length (dims c))] = []) as ->.
    { unfold registered_by. simpl. by rewrite Ed, list_lookup_middle, Hni. }
    change (registered_by (dims c') [DPre (length (dims c))]) with (@nil nat). rewrite app_nil_r, app_nil_l. apply registered_by_ext. intros e He. by rewrite Hold. }
  split; rewrite ?Er, ?Eg, ?Efl, ?En, ?Erl; try done.
  - intros e. rewrite Edl, !elem_of_cons, !elem_of_app, !list_elem_of_singleton. specialize (Hp e). naive_solver.
  - intros e de gid. rewrite Edl, elem_of_cons, elem_of_app, list_elem_of_singleton.
    intros [|[He|[= ->]]]; [done|rewrite Hold by done; by apply Hown|].
    rewrite Ed, list_lookup_middle by done. intros [= <-]. rewrite Hni. by intros []%elem_of_nil.
  - intros e de gid. rewrite Edl, elem_of_cons, elem_of_app, list_elem_of_singleton.
    intros [|[He|[= ->]]]; [done|rewrite Hold by done; by apply Hmade|].
    rewrite Ed, list_lookup_middle by done. intros [= <-]. rewrite Hng. by intros []%elem_of_nil.
  - intros e de gid. rewrite Edl, elem_of_cons, elem_of_app, list_elem_of_singleton.
    intros [|[He|[= ->]]]; [done|rewrite Hold by done; by apply Hg|].
    rewrite Ed, list_lookup_middle by done. intros [= <-]. rewrite Hni. by intros []%elem_of_nil.
  - apply NoDup_app. split_and!; [done| |apply NoDup_singleton]. intros l Hl' ->%list_elem_of_singleton.
    apply Hrd in Hl'. assert (is_Some (dims c !! length (dims c))) as E%lookup_lt_is_Some by (apply (ck_listed _ _ Hc); by left). lia.
  - intros e. rewrite Edl, elem_of_app, list_elem_of_singleton, elem_of_cons, elem_of_app, list_elem_of_singleton, Hrd. naive_solver.
  - intros e. rewrite elem_of_app, list_elem_of_singleton, Hrg. naive_solver.
Qed.

(** The loops of [update] write into the values there are. *)
Ltac same_length E :=
  repeat first [progress cbn [mbind js_bind] in E | ret_inv E
    | match type of E with (if ?b then _ else _) = _ => destruct b end];
  first [by injection E as <- | by apply wr_length in E].

Lemma update_length c g added removed (idx : Z -> js Z) (x0 y0 : Z -> bool) (gs gs1 gs2 : list (@CfCore.kv X)) :
  for_each added (fun k gs =>
    x ← trd (filters c) k;
    if x0 x then Ret gs
    else
      i ← idx k;
      e ← rd gs i;
      r ← rd (data c) k;
      wr gs i (reduce_kv (reduceAdd (g_reduce g)) e r)) gs = Ret gs1 ->
  for_each removed (fun k gs =>
    x ← trd (filters c) k;
    if y0 x then
      i ← idx k;
      e ← rd gs i;
      r ← rd (data c) k;
      wr gs i (reduce_kv (reduceRemove (g_reduce g)) e r)
    else Ret gs) gs1 = Ret gs2 -> length gs2 = length gs.
Proof.
  intros E1 E2. transitivity (length gs1).
  - apply (for_each_ret (fun gs2 => length gs2 = length gs1) _ _ _ _ E2 eq_refl). intros k s s' E <-. same_length E.
  - apply (for_each_ret (fun gs1 => length gs1 = length gs) _ _ _ _ E1 eq_refl). intros k s s' E <-. same_length E.
Qed.

Lemma run_filterListener_links one added removed l c c' :
  run_filterListener one added removed l c = Ret c' -> links c -> links c'.
Proof.
  intros E Hl. destruct l as [|gid|gid|aid]; simpl in E; [by injection E as <-|unfold updateMany in E|unfold updateOne in E|].
  1, 2: unfold the_grp in E; destruct (grps c !! gid) as [g|] eqn:Hg; [|done]; cbn [mbind js_bind] in E; ret_inv E;
    destruct (_ || _); [by injection E as <-|]; ret_inv E; ret_inv E; injection E as <-;
    apply (links_put_grp c gid g); try done; intros did Hlk; apply (linked_with_groups _ _ _ _ _ (g_resetNeeded g)); [|done].
  - by apply (update_length c g added removed (group_index_of g)
      (fun x => truthy (js_and x (d_zero a))) (fun x => js_and x (d_zero a) =? one) (g_groups g) a0).
  - by apply (update_length c g added removed (fun _ => Ret 0)
      (fun x => truthy (js_and x (d_zero a))) (fun x => js_and x (d_zero a) =? one) (g_groups g) a0).
  - unfold groupAll_update in E. ret_inv E. destruct (a_resetNeeded a); [by injection E as <-|]. do 2 ret_inv E.
    injection E as <-. by apply (links_ext c).
Qed.

#[export] Instance LinkedListeners : FilterListeners typed (fun c => groups_ok typed c /\ links c).
Proof.
  split.
  - intros c fl' b added removed Hb [Hg Hl] Hbit Hm Hch.
    destruct (wp_elim _ _ (fl_notify c fl' b added removed Hb Hg Hbit Hm Hch)) as (c' & E & Hc & Hg').
    rewrite E. simpl. split_and!; [done..|].
    apply (for_each_ret links _ _ _ _ E); [by apply (links_ext c)|]. intros l s s'. apply run_filterListener_links.
  - intros c did d d' [Hg Hl] Hd Ho Hz Hv Hi Hgs. split; [by apply (fl_dims c did d d')|].
    apply (links_ext c); try done. intros e. simpl. destruct (decide (e = did)) as [->|]; [|by rewrite list_lookup_insert_ne].
    rewrite list_lookup_insert_eq by (by eapply lookup_lt_Some). rewrite Hd. simpl. unfold told_groups. by rewrite Hi, Hgs.
Qed.
End links.
