(* ===== verification/CfGroupUse.v ===== *)
(** * crossfilter: reading the groups of a dimension

    [all()] and [top(k)] of a group compute the values when a reset is
    pending.  The value of a group is the reduction of the records with its key
    that the filters of all other dimensions let pass. *)

From stdpp Require Import sorting.
From S2P Require Import Prelude.
From S2P Require Import Arrays.
From S2P Require Import Sums.
From S2P Require Import CfBisect.
From S2P Require Import CfArray.
From S2P Require Import CfBits.
From S2P Require Import CfCore.
From S2P Require Import CfInv.
From S2P Require Import CfFilter.
From S2P Require Import CfSelect.
From S2P Require Import CfTop.
From S2P Require Import CfHeap.
From S2P Require Import CfHeapselect.
From S2P Require Import CfGroups.
From S2P Require Import CfAdd.
From S2P Require Import CfShape.
From S2P Require Import CfGroupTake.
From S2P Require Import CfGroupAdd.
From S2P Require Import CfLinks.

Section use.
Context {R X : Type} `{JsOrdLaws X} (null : X) (typed : bool).
Abbreviation cf := (@CfCore.cf R X).
Abbreviation dim := (@CfCore.dim R X).
Abbreviation grp := (@CfCore.grp R X).
Abbreviation kv := (@CfCore.kv X).
Implicit Types (c : cf) (d : dim) (g : grp).

(** ** What the other filters let pass *)

Definition live_but c (did : nat) : list dim :=
  omap (fun l => match l with DPre e => if decide (e = did) then None else dims c !! e | _ => None end) (dataListeners c).
Definition selected_but c (did : nat) (r : R) : bool := forallb (fun d => passes d (d_value d r)) (live_but c did).

Lemma selected_but_spec c did r :
  selected_but c did r = true <-> forall e d, live c e d -> e <> did -> passes d (d_value d r) = true.
Proof.
  unfold selected_but, live_but. rewrite forallb_forall. setoid_rewrite <- list_elem_of_In.
  setoid_rewrite list_elem_of_omap. split.
  - intros Hall e d [Hd Hl] Hne. apply Hall. exists (DPre e). by rewrite decide_False.
  - intros Hall d ([e| |] & Hl & Hd); [|done..]. case_decide; [done|]. by apply (Hall e).
Qed.

Lemma unmasked_others c did d k r :
  cf_ok typed c -> live c did d -> aget (data c) k = Some r ->
  unmasked (filters c) (d_zero d) k = selected_but c did r.
Proof.
  intros Hc Hl Hr. pose proof (ck_base _ _ Hc) as Hbase. pose proof (bk_kind_ok _ _ Hbase) as Hkd.
  pose proof (kind_width_range _ Hkd). pose proof (aget_Some _ _ _ Hr) as Hk. rewrite <- (bk_n _ _ Hbase) in Hk.
  destruct (aget_is_Some (tcells (filters c)) k) as [x Hx].
  { pose proof (bk_len _ _ Hbase). unfold tlen in *. lia. }
  destruct (ck_dims _ _ Hc _ _ Hl) as [Hz _ _ _ _ (b0 & Hb0 & Hone & _ & _)].
  unfold unmasked. rewrite Hx. apply eq_true_iff_eq. rewrite Z.eqb_eq, selected_but_spec, and_zero_bits, Hz, Hone. split.
  - intros Hall e de Hle Hne. destruct (ck_dims _ _ Hc _ _ Hle) as [_ _ _ _ _ (b & Hb & Ho & _ & Hbits) _].
    specialize (Hall b ltac:(lia)). rewrite (Hbits k r x Hk Hr Hx), testbit_js_not, testbit_bit_one in Hall by lia.
    destruct (decide (b = b0)) as [->|Hbb].
    { exfalso. apply Hne. apply (ck_unique _ _ Hc e did de d); congruence. }
    rewrite bool_decide_false, andb_true_r in Hall by done. by apply negb_false_iff.
  - intros Hall b Hb. rewrite testbit_js_not, testbit_bit_one by lia. destruct (decide (b = b0)) as [->|Hbb].
    { by rewrite bool_decide_true, andb_false_r. }
    rewrite bool_decide_false, andb_true_r by done.
    destruct (decide (b < kind_width (tkind (filters c)))) as [Hlt|].
    2: { apply (cell_ok_high (tkind (filters c))); [done|by eapply (bk_cells _ _ Hbase)|lia]. }
    destruct (Z.testbit (m c) b) eqn:Hm; [|apply (ck_unused _ _ Hc b k x); done || lia].
    destruct (ck_owned _ _ Hc b ltac:(lia) Hm) as (e & de & Hle & Ho).
    destruct (ck_dims _ _ Hc _ _ Hle) as [_ _ _ _ _ (b' & Hb' & Ho' & _ & Hbits)].
    assert (b = b') as -> by (apply bit_one_inj; [lia..|congruence]).
    rewrite (Hbits k r x) by done. apply negb_false_iff, (Hall e); [done|]. intros ->.
    destruct Hle as [Hd1 _], Hl as [Hd2 _]. assert (de = d) as -> by congruence.
    apply Hbb, bit_one_inj; [lia..|congruence].
Qed.

(** ** Computing the values *)

Section reset.
Context c g (w : R -> Z) (mask : Z) (idx : Z -> js Z).
Context (Hbase : base_ok typed c) (Hw : lawful (g_reduce g) w) (Hk : g_k g = alen (g_groups g)).
Context (Hidx : forall k, 0 <= k < n c -> idx k = Ret (groupof g k) /\ 0 <= groupof g k < g_k g).
Abbreviation keys := (kv_key <$> g_groups g).

(** Every value is set to the initial one. *)
Lemma reset_start :
  wp (for_ 0 (g_k g) (fun i gs =>
        e ← rd gs i;
        wr gs i (KV (kv_key e) (Some (reduceInitial (g_reduce g))))) (g_groups g))
     (fun gs => gs_vals keys gs (fun _ => reduceInitial (g_reduce g))).
Proof.
  pose proof (alen_nonneg (g_groups g)). eapply wp_mono.
  - apply (wp_for (fun i gs => kv_key <$> gs = keys /\
      forall j e, aget gs j = Some e -> j < i -> kv_value e = Some (reduceInitial (g_reduce g)))); [lia| |].
    + split; [done|]. intros j e Hj%aget_Some. lia.
    + intros i gs Hi [Hkeys Hv]. assert (alen gs = alen (g_groups g)) as Hl.
      { apply (f_equal length) in Hkeys. rewrite !length_fmap in Hkeys. unfold alen. by rewrite Hkeys. }
      apply wp_bind, wp_rd; [lia|]. intros e He. apply wp_wr; [lia|]. split.
      * rewrite <- Hkeys. unfold aupd, aget in *. destruct (Z.leb_spec 0 i); [|lia].
        rewrite list_fmap_insert. apply list_insert_id. by rewrite list_lookup_fmap, He.
      * intros j e' Hj Hlt. rewrite aget_aupd in Hj by lia. case_decide; [by injection Hj as <-|]. apply (Hv j); [done|lia].
  - intros gs [Hkeys Hv]. split; [done|]. intros i e Hi. apply (Hv i e Hi). apply aget_Some in Hi.
    apply (f_equal length) in Hkeys. rewrite !length_fmap in Hkeys. unfold alen in *. lia.
Qed.

(** Then every record that the other filters let pass is added. *)
Lemma reset_records gs :
  gs_vals keys gs (fun _ => reduceInitial (g_reduce g)) ->
  wp (for_ 0 (n c) (fun j gs =>
        x ← trd (filters c) j;
        if truthy (js_and x mask) then Ret gs
        else
          i ← idx j;
          e ← rd gs i;
          r ← rd (data c) j;
          wr gs i (reduce_kv (reduceAdd (g_reduce g)) e r)) gs)
     (fun gs' => gs_vals keys gs' (fun i =>
        reduceInitial (g_reduce g) + total (share c g w i) (filters c) mask (seqZ 0 (n c)))).
Proof.
  intros Hgs. apply (wp_for (fun j gs => gs_vals keys gs (fun i =>
    reduceInitial (g_reduce g) + total (share c g w i) (filters c) mask (seqZ 0 j)))); [by eapply bk_nonneg| |].
  { eapply gs_vals_ext; [done|]. intros i _. unfold total. simpl. lia. }
  intros j gs' Hj Hg'. destruct (aget_is_Some (tcells (filters c)) j) as [x Hx].
  { pose proof (bk_len _ _ Hbase). unfold tlen in *. lia. }
  destruct (aget_is_Some (data c) j) as [r Hr]; [by rewrite <- (bk_n _ _ Hbase)|].
  destruct (Hidx j Hj) as [Hi Hib]. unfold trd. rewrite (rd_Some _ _ _ Hx). simpl. unfold truthy.
  assert (seqZ 0 (j + 1) = seqZ 0 j ++ [j]) as -> by by rewrite seqZ_app by lia.
  destruct (Z.eqb_spec (js_and x mask) 0) as [E|E]; cbn [negb].
  - rewrite Hi. simpl. eapply wp_mono.
    + eapply (reduce_step c keys gs' _ (groupof g j) j r _ (w r)); try done.
      * rewrite (gs_vals_alen _ _ _ Hg'). unfold alen in *. rewrite length_fmap. lia.
      * intros v. apply Hw.
    + intros gs2 Hg2. eapply gs_vals_ext; [exact Hg2|]. intros i _. simpl.
      rewrite (total_snoc _ _ _ _ _ _ Hx), E. unfold share at 3. rewrite (amount_Some _ _ _ _ Hr). simpl. lia.
  - simpl. eapply gs_vals_ext; [done|]. intros i _. rewrite (total_snoc _ _ _ _ _ _ Hx).
    destruct (Z.eqb_spec (js_and x mask) 0); [done|]. simpl. lia.
Qed.
End reset.

Lemma group_reset_wp c gid g d w :
  base_ok typed c -> grp_ok c (filters c) gid g -> dims c !! g_dim g = Some d -> lawful (g_reduce g) w ->
  wp (group_reset c g) (fun g' => exists gs, g' = with_groups g gs /\
    gs_vals (kv_key <$> g_groups g) gs (fun i =>
      reduceInitial (g_reduce g) + total (share c g w i) (filters c) (d_zero d) (seqZ 0 (n c)))).
Proof.
  intros Hbase [Hi Hky Hk _] Hd Hw. unfold index_ok in Hi. unfold group_reset.
  destruct (g_update g) as [|gid'|gid'|aid] eqn:Hu; [..|done].
  - apply wp_Ret. exists (g_groups g). split; [by destruct g|]. split; [done|]. intros i e He%aget_Some. lia.
  - destruct Hi as (-> & Hk1 & t & Ht & Hti). unfold resetMany. rewrite (the_dim_ret _ _ _ Hd). cbn [mbind js_bind].
    apply wp_bind. eapply wp_mono; [by apply reset_start|]. intros gs Hgs. apply wp_bind. eapply wp_mono.
    + apply (reset_records c g w (d_zero d) (group_index_of g)); try done. intros k Hkn.
      unfold group_index_of, groupof, trd. rewrite Ht. destruct (Hti k Hkn) as (i & Hti' & Hib). rewrite Hti'. simpl.
      by rewrite (rd_Some _ _ _ Hti').
    + intros gs' Hgs'. apply wp_Ret. by exists gs'.
  - destruct Hi as (-> & Hk1 & Hnone). unfold resetOne. rewrite (the_dim_ret _ _ _ Hd). cbn [mbind js_bind].
    pose proof (reset_start g Hk) as Hstart. rewrite Hk1 in Hstart. unfold for_ in Hstart.
    change (Z.to_nat (1 - 0)) with 1%nat in Hstart. cbn [for_n mbind js_bind] in Hstart.
    destruct (rd (g_groups g) 0) as [e| |]; cbn [mbind js_bind] in Hstart |- *; [|done..].
    destruct (wr (g_groups g) 0 _) as [gs| |]; cbn [mbind js_bind] in Hstart |- *; [|done..].
    apply wp_bind. eapply wp_mono.
    + apply (reset_records c g w (d_zero d) (fun _ => Ret 0)); try done. intros k Hkn. unfold groupof.
      rewrite Hnone. split; [done|lia].
    + intros gs' Hgs'. apply wp_Ret. by exists gs'.
Qed.

(** ** [all()] *)

(** Group [gid] has a listener, as every group of a crossfilter with records
    that has not been disposed of. *)
Definition listed c (gid : nat) g : Prop :=
  grps c !! gid = Some g /\ (FMany gid ∈ filterListeners c \/ FOne gid ∈ filterListeners c).

Lemma listed_ok c gid g :
  groups_ok typed c -> listed c gid g ->
  grp_ok c (filters c) gid g /\ g_update g ∈ filterListeners c /\ (g_update g = FMany gid \/ g_update g = FOne gid).
Proof.
  intros Hg (Hgid & Hl). destruct Hl as [Hl|Hl]; pose proof (gs_listeners _ _ Hg _ Hl) as (g' & Hg' & Hu' & Hok);
    rewrite Hgid in Hg'; injection Hg' as <-; rewrite Hu'; auto.
Qed.

(** Replacing a group by a consistent one with the same listener. *)
Lemma put_grp_ok c gid g g' :
  groups_ok typed c -> listed c gid g -> grp_ok c (filters c) gid g' -> g_update g' = g_update g ->
  groups_ok typed (put_grp c gid g') /\ listed (put_grp c gid g') gid g'.
Proof.
  intros Hgo Hlist Hok Hu. destruct (listed_ok c gid g Hgo Hlist) as (_ & Hin & Hug).
  destruct Hlist as [Hg Hl]. destruct Hgo as [Hok0 Hnd Hlast Hdata Hgalls].
  assert (grps (put_grp c gid g') !! gid = Some g') as Hg'.
  { simpl. rewrite list_lookup_insert_eq; [done|by eapply lookup_lt_Some]. }
  split; [|by split]. split; simpl; try done. intros l Hl'.
  assert (grp_ok (put_grp c gid g') (filters c) gid g') as Hok'.
  { destruct Hok as [? Hky ? ?]. split; try done. by apply (keyed_same c); eauto. }
  destruct (decide (l = g_update g)) as [->|Hne].
  - rewrite <- Hu in *. destruct Hug as [E|E]; rewrite E; exists g'; by rewrite E.
  - apply listener_ok_put_grp; [intros ->|intros ->|by apply Hok0]; specialize (Hok0 _ Hl');
      destruct Hok0 as (g2 & Hg2 & Hu2 & _); rewrite Hg in Hg2; injection Hg2 as <-; congruence.
Qed.

(** What [all()] leaves as it was, and what it returns. *)
Definition group_read c (gid : nat) g c' (gs : list kv) : Prop :=
  exists d w, dims c !! g_dim g = Some d /\ lawful (g_reduce g) w /\
    c' = put_grp c gid (with_reset (with_groups g gs) false) /\
    gs_vals (kv_key <$> g_groups g) gs (fun i =>
      reduceInitial (g_reduce g) + total (share c g w i) (filters c) (d_zero d) (seqZ 0 (n c))).

Lemma group_all_wp c gid g :
  base_ok typed c -> groups_ok typed c -> listed c gid g ->
  wp (group_all c gid) (fun '(c', gs) =>
    groups_ok typed c' /\ (exists g', listed c' gid g') /\ group_read c gid g c' gs).
Proof.
  intros Hbase Hgo Hlist. destruct (listed_ok c gid g Hgo Hlist) as (Hok & _ & _).
  pose proof Hok as [Hi Hky Hk (d & b0 & w & Hd & Hb0 & Hone & Hzero & Hw & Hv)].
  assert (forall gs, gs_vals (kv_key <$> g_groups g) gs (fun i =>
      reduceInitial (g_reduce g) + total (share c g w i) (filters c) (d_zero d) (seqZ 0 (n c))) ->
    let c' := put_grp c gid (with_reset (with_groups g gs) false) in
    groups_ok typed c' /\ (exists g', listed c' gid g') /\ group_read c gid g c' gs) as Hdone.
  { intros gs Hgs c'. pose proof (gs_vals_alen _ _ _ Hgs) as Hl. destruct Hgs as [Hkeys Hvals].
    destruct (put_grp_ok c gid g (with_reset (with_groups g gs) false) Hgo Hlist) as [H1' H2']; [|done|].
    - split; [done| |simpl; rewrite Hl; unfold alen; by rewrite length_fmap|].
      { destruct (keyed_ext c c g gs eq_refl eq_refl (fun d' Hd' => ex_intro _ d' (conj Hd' eq_refl)) Hkeys Hky). by split. }
      exists d, b0, w. split_and!; done || lia.
    - split; [done|]. split; [eauto|]. by exists d, w. }
  unfold group_all, the_grp. rewrite (proj1 Hlist). cbn [mbind js_bind]. destruct (g_resetNeeded g) eqn:Hr.
  - apply wp_bind. eapply wp_mono; [by eapply group_reset_wp|]. intros g' (gs & -> & Hgs). apply wp_Ret. by apply Hdone.
  - apply wp_Ret. specialize (Hdone (g_groups g) (Hv eq_refl)). cbn zeta in Hdone.
    assert (put_grp c gid (with_reset (with_groups g (g_groups g)) false) = c) as E; [|by rewrite E in Hdone].
    unfold put_grp, set_grps. rewrite list_insert_id; [by destruct c|]. rewrite (proj1 Hlist). f_equal.
    destruct g. simpl in *. by rewrite Hr.
Qed.

(** ** The value of a group *)

(** The records of group [e], as far as the other filters let them pass. *)
Definition group_records c g d e : list R :=
  List.filter (fun r => selected_but c (g_dim g) r && same_keyb (kv_key e) (g_key g (d_value d r))) (data c).

Lemma share_total c g d w i e :
  cf_ok typed c -> live c (g_dim g) d -> keyed c g -> aget (g_groups g) i = Some e ->
  total (share c g w i) (filters c) (d_zero d) (seqZ 0 (n c)) = zsum w (group_records c g d e).
Proof.
  intros Hc Hl Hky He. pose proof (ck_base _ _ Hc) as Hbase. unfold group_records.
  set (p := fun r => selected_but c (g_dim g) r && same_keyb (kv_key e) (g_key g (d_value d r))).
  rewrite <- (omap_seqZ_filter p (fun k => default false (p <$> aget (data c) k))) by (intros k r ->; done).
  rewrite <- (bk_n _ _ Hbase), zsum_omap. apply zsum_ext. intros k Hk%elem_of_seqZ.
  destruct (aget_is_Some (data c) k) as [r Hr]; [rewrite <- (bk_n _ _ Hbase); lia|].
  rewrite (unmasked_others c _ d k r Hc Hl Hr). unfold share, amount. rewrite Hr. simpl. unfold p, same_keyb.
  destruct (ky_group _ _ Hky k r d Hr (proj1 Hl)) as (e' & He' & Hsk).
  destruct (selected_but c (g_dim g) r); [|done]. simpl.
  destruct (Z.eqb_spec (groupof g k) i) as [E|Hne]; simpl.
  - rewrite E, He in He'. injection He' as <-. destruct Hsk as [-> ->]. done.
  - destruct ((kv_key e <=. _) && _) eqn:Eb; [|done]. exfalso. apply Hne. apply andb_true_iff in Eb.
    by apply (keyed_unique c g (groupof g k) i e' e (g_key g (d_value d r)) Hky).
Qed.

Lemma group_read_values c gid g d c' gs :
  cf_ok typed c -> live c (g_dim g) d -> keyed c g -> group_read c gid g c' gs ->
  StronglySorted (fun x y => (x <. y) = true) (kv_key <$> gs) /\
  (forall r, r ∈ data c -> exists e, e ∈ gs /\ same_key (kv_key e) (g_key g (d_value d r))) /\
  (forall e, e ∈ gs -> (exists r, r ∈ data c /\ same_key (kv_key e) (g_key g (d_value d r))) /\
     kv_value e = Some (foldl (reduceAdd (g_reduce g)) (reduceInitial (g_reduce g)) (group_records c g d e))).
Proof.
  intros Hc Hl Hky (d' & w & Hd & Hw & -> & Hkeys & Hv). rewrite (proj1 Hl) in Hd. injection Hd as <-.
  pose proof (keyed_ext c c g gs eq_refl eq_refl (fun d' Hd' => ex_intro _ d' (conj Hd' eq_refl)) Hkeys Hky) as Hky'.
  set (g' := with_groups g gs) in *. pose proof Hky' as [Hs Hg Hu]. simpl in *.
  split_and!; [done| |].
  - intros r [k Hr]%elem_of_aget. destruct (Hg k r d Hr (proj1 Hl)) as (e & He & Hsk). exists e. split; [by eapply aget_elem|done].
  - intros e [i He]%elem_of_aget. split.
    + destruct (Hu i) as (k & Hk & E); [by eapply aget_Some|].
      destruct (aget_is_Some (data c) k) as [r Hr]; [by rewrite <- (bk_n _ _ (ck_base _ _ Hc))|].
      destruct (Hg k r d Hr (proj1 Hl)) as (e' & He' & Hsk). rewrite E, He in He'. injection He' as <-.
      exists r. split; [by eapply aget_elem|done].
    + rewrite (Hv i e He), (foldl_lawful _ w) by done. do 2 f_equal.
      by apply (share_total c g' d w i e).
Qed.

(** ** Creating a group *)

Lemma cf_ok_replace c c' did d d' :
  cf_ok typed c -> live c did d -> data c' = data c -> n c' = n c -> m c' = m c -> M c' = M c ->
  filters c' = filters c -> dataListeners c' = dataListeners c -> dims c' = <[did := d']> (dims c) ->
  dim_ok c d' -> d_one d' = d_one d -> cf_ok typed c'.
Proof.
  intros [Hbase Hu Ho Hun Hdi Hli Hor Hno] Hl Ed En Em EM Ef El Es Hd' Hone.
  assert (forall e de, live c' e de <-> (e = did /\ de = d') \/ (e <> did /\ live c e de)) as Hlive.
  { intros e de. unfold live. rewrite Es, El. destruct (decide (e = did)) as [->|Hne].
    - rewrite list_lookup_insert_eq by (by eapply lookup_lt_Some, Hl). destruct Hl. naive_solver.
    - rewrite list_lookup_insert_ne by done. naive_solver. }
  assert (forall de, dim_ok c de -> dim_ok c' de) as Hdim.
  { intros de []. split; by rewrite ?Ed, ?En, ?Em, ?Ef. }
  split; rewrite ?Em, ?Ef, ?El; try done.
  - destruct Hbase. split; by rewrite ?Ed, ?En, ?Em, ?EM, ?Ef.
  - intros b Hb Hm. destruct (Ho b Hb Hm) as (e & de & Hle & Hoe). destruct (decide (e = did)) as [->|Hne].
    + exists did, d'. split; [apply Hlive; by left|]. rewrite Hone. destruct Hle as [Hle _], Hl as [Hl' _]. congruence.
    + exists e, de. split; [apply Hlive; by right|done].
  - intros e e' de de' [[-> ->]|[Hne He]]%Hlive [[-> ->]|[Hne' He']]%Hlive E; [done| | |by eapply Hun].
    + rewrite Hone in E. by apply (Hun did e' d de').
    + rewrite Hone in E. by apply (Hun e did de d).
  - intros e de [[-> ->]|[_ He]]%Hlive; [by apply Hdim|]. by eapply Hdim, Hdi.
  - intros e He. rewrite Es. specialize (Hli e He). destruct (decide (e = did)) as [->|Hne].
    + rewrite list_lookup_insert_eq by (by eapply lookup_lt_Some, Hl). eauto.
    + by rewrite list_lookup_insert_ne.
Qed.

Lemma replaced_in (u l : flistener) ls : u <> FNull -> u = l \/ u ∈ ls -> u ∈ replace_first FNull l (ls ++ [FNull]).
Proof.
  intros Hn Hu. assert (u ∈ FNull :: replace_first FNull l (ls ++ [FNull])) as [E|]%elem_of_cons; [|done..].
  rewrite (replace_first_perm FNull l); [|apply elem_of_app; right; left].
  destruct Hu as [->|Hu]; [by left|right]. apply elem_of_app. by left.
Qed.

(** A listener takes the place of one that does nothing. *)
Lemma groups_ok_listener c c' gid g u :
  groups_ok typed c -> data c' = data c -> n c' = n c -> m c' = m c -> filters c' = filters c -> dims c' = dims c ->
  galls c' = galls c -> dataListeners c' = dataListeners c -> gid = length (grps c) -> grps c' = grps c ++ [g] ->
  filterListeners c' = replace_first FNull u (filterListeners c ++ [FNull]) ->
  g_update g = u -> (u <> FNull -> u = FMany gid \/ u = FOne gid) -> grp_ok c' (filters c) gid g -> groups_ok typed c'.
Proof.
  intros [Hok Hnd Hlast Hdata Hgalls] Ed En Em Ef Es Ega Edl -> Eg Efl Hu Hshape Hgok.
  assert (forall l, l ∈ filterListeners c' -> l = FNull \/ l = u \/ l ∈ filterListeners c) as Hin.
  { intros l Hl. assert (l ∈ u :: filterListeners c ++ [FNull]) as Hl'.
    { rewrite <- (replace_first_perm FNull u); [by right; rewrite <- Efl|]. apply elem_of_app. right. left. }
    apply elem_of_cons in Hl' as [->|[Hl'| ->%list_elem_of_singleton]%elem_of_app]; auto. }
  assert (forall gid', FMany gid' ∈ filterListeners c \/ FOne gid' ∈ filterListeners c -> (gid' < length (grps c))%nat) as Hlt.
  { intros gid' [Hl|Hl]; specialize (Hok _ Hl); destruct Hok as (g' & Hg' & _); by eapply lookup_lt_Some. }
  assert (u <> FNull -> u ∉ filterListeners c) as Hfresh.
  { intros Hn Hl. destruct (Hshape Hn) as [-> | ->]; [specialize (Hlt _ (or_introl Hl))|specialize (Hlt _ (or_intror Hl))]; lia. }
  split; rewrite ?Ef, ?Em, ?Edl, ?Ega; try done.
  - intros l Hl. destruct (decide (l = FNull)) as [->|Hn]; [done|]. destruct (Hin l Hl) as [|[->|Hl']]; [done| |].
    + destruct (Hshape Hn) as [-> | ->]; exists g; rewrite Eg, list_lookup_middle by done; done.
    + apply (listener_ok_ext c); try done; [|by intros; rewrite Ega|by apply Hok].
      intros gid' Hgid. rewrite Eg. apply lookup_app_l, Hlt. destruct Hgid as [-> | ->]; auto.
  - assert (List.filter not_null (filterListeners c') ≡ₚ List.filter not_null (u :: filterListeners c)) as ->.
    { transitivity (List.filter not_null (FNull :: filterListeners c')); [done|]. rewrite Efl.
      transitivity (List.filter not_null (u :: filterListeners c ++ [FNull])).
      - apply List_filter_perm, replace_first_perm. apply elem_of_app. right. left.
      - rewrite app_comm_cons, List.filter_app. simpl. by rewrite app_nil_r. }
    simpl. destruct (not_null u) eqn:E; [|done]. apply bool_decide_eq_true in E. constructor; [|done].
    intros Hl. apply list_elem_of_In, filter_In in Hl as [Hl _]. by apply Hfresh, list_elem_of_In.
  - intros [aid Ha]. apply Hlast. exists aid. destruct (Hin _ Ha) as [|[E|]]; [done| |done].
    destruct (Hshape ltac:(by rewrite <- E)); congruence.
  - intros aid Ha. apply Hdata. destruct (Hin _ Ha) as [|[E|]]; [done| |done].
    destruct (Hshape ltac:(by rewrite <- E)); congruence.
Qed.

(** A group without records. *)
Lemma standing_empty c g d w :
  (forall x y, (x <=. y) = true -> (g_key g x <=. g_key g y) = true) -> sized typed g -> g_groupAll g = false ->
  g_groups g = [] -> g_k g = 0 -> (g_resetNeeded g = false -> lawful (g_reduce g) w) -> standing typed c g d w 0.
Proof.
  intros Hm Hs Ha Eg Ek Hw. split; rewrite ?Eg, ?Ek; try done; try lia; [constructor|].
  intros Hr. split; [by apply Hw|]. intros e []%elem_of_nil.
Qed.

(** All records of a crossfilter, as new records. *)
Lemma ranked_new c d :
  n c = alen (data c) -> ranked (data c) (n c) (d_value d) (d_values d) (tcells (d_index d)) ->
  new_values c d (d_values d) (d_index d) 0 (n c).
Proof.
  intros Hn [Hvl Hperm Hat Hsorted]. split; try done. intros j p Hj Hp. destruct (Hat j p Hj Hp) as (r & Hr & Hv).
  exists r. by rewrite Z.add_0_r.
Qed.

(** A group has a listener as soon as there are records. *)
Lemma grp_update c gid g d :
  index_ok c gid g -> keyed c g -> g_k g = alen (g_groups g) -> dims c !! g_dim g = Some d -> n c = alen (data c) ->
  (g_update g = FNull \/ g_update g = FMany gid \/ g_update g = FOne gid) /\
  (g_update g = FNull -> g_groups g = [] /\ g_k g = 0 /\ n c = 0).
Proof.
  intros Hi Hky Hk Hd Hn. unfold index_ok in Hi. split.
  - destruct (g_update g); [by left|destruct Hi as (-> & _); auto..|done].
  - intros E. rewrite E in Hi. rewrite Hi in Hk. split_and!; [|done|].
    + destruct (g_groups g); [done|]. unfold alen in Hk. simpl in Hk. lia.
    + pose proof (alen_nonneg (data c)). destruct (decide (n c = 0)) as [|Hne]; [done|].
      destruct (aget_is_Some (data c) 0) as [r Hr]; [lia|].
      destruct (ky_group _ _ Hky 0 r d Hr Hd) as (e & He%aget_Some & _). lia.
Qed.

(** What [group(key)] adds to the state: dimension [did] has one more group to
    tell of new records, and the new group has those of its records. *)
Record group_added c (did : nat) d (key : X -> X) c' (gid : nat) : Prop := GroupAdded {
  ga_gid : gid = length (grps c);
  ga_data : data c' = data c;
  ga_n : n c' = n c;
  ga_dataListeners : dataListeners c' = dataListeners c;
  ga_removes : removeDataListeners c' = removeDataListeners c ++ [RGroup gid];
  ga_m : m c' = m c;
  ga_galls : galls c' = galls c;
  ga_dims : exists d', dims c' = <[did := d']> (dims c) /\ same_dim d d' /\ d_refilter d' = d_refilter d
    /\ d_refilterFunction d' = d_refilterFunction d /\ d_indexListeners d' = d_indexListeners d ++ [gid]
    /\ d_dimensionGroups d' = d_dimensionGroups d ++ [gid];
  ga_group : exists g, grps c' = grps c ++ [g] /\ g_dim g = did /\ g_key g = key /\ g_reduce g = count_reducer
    /\ linked typed (n c) did gid g
    /\ filterListeners c' = replace_first FNull (g_update g) (filterListeners c ++ [FNull])
}.

Lemma group_added_listed c did d key c' gid :
  group_added c did d key c' gid -> 0 < n c ->
  (exists g, grps c' = grps c ++ [g] /\ g_dim g = did /\ g_key g = key /\ g_reduce g = count_reducer /\ listed c' gid g) /\
  forall l, l ∈ filterListeners c -> l ∈ filterListeners c' \/ l = FNull.
Proof.
  intros [-> _ _ _ _ _ _ _ (g & Eg & Ed & Ek & Er & Hlk & Efl)] Hn.
  assert (g_update g <> FNull) as Hne by (intros E; destruct (ln_null _ _ _ _ _ Hlk E) as (_ & _ & ?); lia). split.
  - exists g. split_and!; try done. split; [rewrite Eg; by apply list_lookup_middle|]. rewrite Efl.
    pose proof (replaced_in (g_update g) (g_update g) (filterListeners c) Hne (or_introl eq_refl)) as Hin.
    destruct (ln_update _ _ _ _ _ Hlk) as [|[E|E]]; [done|rewrite E in *; by left|rewrite E in *; by right].
  - intros l Hl. destruct (decide (l = FNull)) as [->|Hl']; [by right|left]. rewrite Efl.
    by apply (replaced_in l); [|right].
Qed.

Lemma group_wp c did d (key : X -> X) :
  cf_ok typed c -> groups_ok typed c -> live c did d ->
  (forall x y, (x <=. y) = true -> (key x <=. key y) = true) ->
  wp (group null typed c did key) (fun '(c', gid) =>
    cf_ok typed c' /\ groups_ok typed c' /\ group_added c did d key c' gid).
Proof.
  intros Hc Hgo Hl Hmono. pose proof (ck_dims _ _ Hc _ _ Hl) as Hdo. unfold group, group_with.
  rewrite (the_dim_ret _ _ _ (proj1 Hl)). cbn [mbind js_bind]. set (gid := length (grps c)).
  set (g0 := Grp _ _ _ _ _ _ _ _ _ _ _ _). set (d' := Dim _ _ _ _ _ _ _ _ _ _ _ _ _). set (c1 := set_removeDataListeners _ _).
  assert (dim_ok c d') as Hdo' by (destruct Hdo; by split).
  assert (cf_ok typed c1) as Hc1 by (by eapply (cf_ok_replace c c1 did d d')).
  assert (dims c1 !! did = Some d') as Hd1 by (simpl; apply list_lookup_insert_eq; by eapply lookup_lt_Some, Hl).
  pose proof (ck_base _ _ Hc1) as Hb1. apply wp_bind. eapply wp_mono.
  { apply (group_add_wp null typed c1 g0 d' (fun _ => 1) (d_values d') (d_index d') 0 (n c)); try done; try apply Hb1.
    - symmetry. apply Hb1.
    - apply (ranked_new c1 d'); [apply Hb1|apply Hdo].
    - apply standing_empty; try done. split_and!; try done. by left.
    - by apply list_lookup_middle. }
  intros c2 (g' & [Ed Ek Ere Eo Er Ea Hsz Hi Hky Hkk _] & ->). set (c2 := put_grp _ gid g').
  assert (grps c2 = grps c ++ [g']) as Eg.
  { simpl. unfold gid. by rewrite insert_app_r_alt, Nat.sub_diag by done. }
  unfold group_reduceCount, group_reduce, the_grp. rewrite Eg, list_lookup_middle by done. cbn [mbind js_bind].
  set (g2 := Grp _ _ _ _ _ _ _ _ _ _ _ _). unfold group_orderNatural, group_order, the_grp.
  assert (grps (put_grp c2 gid g2) = grps c ++ [g2]) as Eg2.
  { unfold put_grp, set_grps. cbn [grps]. rewrite Eg. unfold gid. by rewrite insert_app_r_alt, Nat.sub_diag by done. }
  rewrite Eg2, list_lookup_middle by done. cbn [mbind js_bind]. set (g3 := Grp _ _ _ _ _ _ _ _ _ _ _ _). apply wp_Ret.
  set (c3 := put_grp (put_grp c2 gid g2) gid g3).
  assert (grps c3 = grps c ++ [g3]) as Eg3.
  { unfold c3, put_grp at 1, set_grps. cbn [grps]. rewrite Eg2. unfold gid. by rewrite insert_app_r_alt, Nat.sub_diag by done. }
  assert (cf_ok typed c3) as Hc3 by (by eapply (cf_ok_replace c c3 did d d')).
  simpl in Ed, Ek. assert (keyed c3 g3) as Hky3 by (apply (keyed_same c1 c3 g3); try done; [by eauto|]; by destruct Hky).
  assert (dims c3 !! g_dim g3 = Some d') as Hd3 by (simpl; by rewrite Ed).
  destruct (grp_update c3 gid g3 d' Hi Hky3 Hkk Hd3 ltac:(apply Hb1)) as [Hshape Hnull].
  assert (grp_ok c3 (filters c) gid g3) as Hg3.
  { split; [exact Hi|done|exact Hkk|]. destruct (dk_bit _ _ Hdo') as (b & Hb & Hone & _).
    pose proof (kind_width_range _ (bk_kind_ok _ _ (ck_base _ _ Hc))).
    exists d', b, (fun _ => 1). simpl. rewrite Ed. split_and!; try done; try lia.
    rewrite <- Hone. apply (dk_zero _ _ Hdo'). }
  split_and!; [done| |].
  - eapply (groups_ok_listener (put_dim c did d') c3 gid g3 (g_update g')); try done; [|by destruct Hshape].
    by apply (groups_ok_put_dim typed c did d d' Hgo (proj1 Hl)).
  - split; try done; [by exists d'|]. exists g3. split_and!; try done. split; try done.
    + intros x y. simpl. rewrite Ek. apply Hmono.
    + by exists (fun _ => 1).
Qed.

(** The new group is told of new records, last of those of its dimension. *)
Lemma registered_by_insert ds did d d' gid dl :
  ds !! did = Some d -> d_indexListeners d' ≡ₚ gid :: d_indexListeners d -> NoDup dl -> DPost did ∈ dl ->
  registered_by (<[did := d']> ds) dl ≡ₚ gid :: registered_by ds dl.
Proof.
  intros Hd Hi Hnd (l1 & l2 & ->)%list_elem_of_split. apply NoDup_app in Hnd as (_ & Hdis & [Hl2 _]%NoDup_cons).
  assert (forall l, DPost did ∉ l -> registered_by (<[did := d']> ds) l = registered_by ds l) as Hsame.
  { intros l Hl. apply registered_by_ext. intros e He. by rewrite list_lookup_insert_ne by (intros ->; done). }
  change (DPost did :: l2) with ([DPost did] ++ l2). rewrite !registered_by_app.
  rewrite (Hsame l1), (Hsame l2); [|done|intros Hl1; apply (Hdis _ Hl1); left].
  assert (registered_by (<[did := d']> ds) [DPost did] ≡ₚ gid :: registered_by ds [DPost did]) as ->.
  { unfold registered_by. simpl. rewrite list_lookup_insert_eq by (by eapply lookup_lt_Some). by rewrite Hd, !app_nil_r, Hi. }
  symmetry. apply Permutation_middle.
Qed.

Lemma group_links c did d key c' gid :
  cf_ok typed c -> links typed c -> live c did d -> group_added c did d key c' gid -> links typed c'.
Proof.
  intros Hc Hlk Hl [-> _ En Edl Erl _ _ (d' & Es & _ & _ & _ & Ei & Ego) (g & Eg & _ & _ & _ & Hg & Efl)].
  pose proof Hlk as [Hp Hnd Hown Hmade Hgs Hls Hr Hrd Hrg]. set (gid := length (grps c)) in *.
  assert (registered c' ≡ₚ gid :: registered c) as Er.
  { unfold registered. rewrite Es, Edl. apply (registered_by_insert _ did d d'); [apply Hl| |apply (ck_nodup _ _ Hc)|apply Hp, Hl].
    rewrite Ei. symmetry. apply Permutation_cons_append. }
  assert (gid ∉ registered c) as Hfresh by (intros Hin%(registered_lt typed); [unfold gid in Hin; lia|done]).
  assert (forall e, e ∈ registered c -> grps c' !! e = grps c !! e) as Hold.
  { intros e He. rewrite Eg. apply lookup_app_l. by apply (registered_lt typed). }
  assert (grps c' !! gid = Some g) as Hgid by (rewrite Eg; by apply list_lookup_middle).
  split; rewrite ?Edl, ?En, ?Erl; try done.
  - rewrite Er. by constructor.
  - intros e de e' Hdl. rewrite Es. destruct (decide (e = did)) as [->|Hne].
    + rewrite list_lookup_insert_eq by (by eapply lookup_lt_Some, Hl). intros [= <-]. rewrite Ei, Ego, !elem_of_app.
      intros [Hin|]; [left|by right]. by apply (Hown did d); [|apply Hl|].
    + rewrite list_lookup_insert_ne by done. by apply Hown.
  - assert (forall e e', made (grps c) e e' -> made (grps c') e e') as Hsame.
    { intros e e' (g2 & Hg2 & ?). exists g2. split; [|done]. rewrite Eg. by apply lookup_app_l_Some. }
    intros e de e' Hdl. rewrite Es. destruct (decide (e = did)) as [->|Hne].
    + rewrite list_lookup_insert_eq by (by eapply lookup_lt_Some, Hl). intros [= <-]. rewrite Ego, elem_of_app, list_elem_of_singleton.
      intros [Hin| ->]; [apply Hsame, (Hmade did d); [done|apply Hl|done]|]. exists g. split; [done|]. by split; apply Hg.
    + rewrite list_lookup_insert_ne by done. intros Hde Hin. by eapply Hsame, Hmade.
  - intros e de e' Hdl. rewrite Es. destruct (decide (e = did)) as [->|Hne].
    + rewrite list_lookup_insert_eq by (by eapply lookup_lt_Some, Hl). intros [= <-]. rewrite Ei, elem_of_app, list_elem_of_singleton.
      intros [Hin| ->]; [|by exists g]. rewrite Hold by (apply elem_of_registered; exists did, d; split; [done|split; [apply Hl|done]]).
      apply (Hgs did d); [done|apply Hl|done].
    + rewrite list_lookup_insert_ne by done. intros Hde Hin. rewrite Hold by (apply elem_of_registered; eauto).
      by apply (Hgs e de).
  - assert (filterListeners c' ≡ₚ g_update g :: filterListeners c) as Efl'.
    { apply (Permutation_cons_inv (a := FNull)). rewrite Efl, replace_first_perm by (apply elem_of_app; right; left).
      rewrite perm_swap. apply perm_skip. symmetry. apply Permutation_cons_append. }
    rewrite Er, fmap_cons, (update_of_ext (grps c) (grps c')) by done. rewrite Efl' at 1.
    replace (update_of (grps c') gid) with (g_update g) by (unfold update_of; by rewrite Hgid).
    rewrite (List_filter_perm is_all _ _ Efl'). simpl.
    assert (is_all (g_update g) = false) as -> by (destruct (ln_update _ _ _ _ _ Hg) as [E|[E|E]]; by rewrite E).
    by apply perm_skip.
  - apply NoDup_app. split_and!; [done| |apply NoDup_singleton]. intros l Hl' ->%list_elem_of_singleton. by apply Hfresh, Hrg.
  - intros e. rewrite elem_of_app, list_elem_of_singleton, Hrd. naive_solver.
  - intros e. rewrite Er, elem_of_app, list_elem_of_singleton, elem_of_cons, Hrg. naive_solver.
Qed.

Lemma group_read_links c gid g c' gs : grps c !! gid = Some g -> group_read c gid g c' gs -> links typed c -> links typed c'.
Proof.
  intros Hg (d & w & _ & _ & -> & Hv) Hl. apply (links_put_grp typed c gid g); [done..|]. intros did.
  apply linked_with_groups. destruct Hv as [Hk _]. apply (f_equal length) in Hk. by rewrite !length_fmap in Hk.
Qed.

(** ** The other methods of a group *)

Lemma with_group_ok c gid g g' :
  groups_ok typed c -> listed c gid g ->
  g_dim g' = g_dim g -> g_key g' = g_key g -> g_groups g' = g_groups g -> g_groupIndex g' = g_groupIndex g ->
  g_k g' = g_k g -> g_update g' = g_update g -> (exists w, lawful (g_reduce g') w) ->
  g_resetNeeded g' = true \/ (g_reduce g' = g_reduce g /\ g_resetNeeded g' = g_resetNeeded g) ->
  groups_ok typed (put_grp c gid g') /\ listed (put_grp c gid g') gid g'.
Proof.
  intros Hgo Hl Ed Ek Eg Ei Ekk Eu [w' Hw'] Hr. destruct (listed_ok c gid g Hgo Hl) as (Hok & _ & _).
  apply (put_grp_ok c gid g); [done..| |done]. destruct Hok as [Hi [Hs Hgr Hus] Hkk (d & b0 & w & Hd & Hb0 & Ho & Hz & Hw & Hv)].
  assert (forall k, groupof g' k = groupof g k) as Hof by (intros k; unfold groupof; by rewrite Ei).
  split.
  - unfold index_ok in *. by rewrite Eu, Ekk, Ei.
  - split; rewrite ?Eg, ?Ek, ?Ed; [done| |].
    + intros k r d' Hrec Hd'. rewrite Hof. by apply (Hgr k r d').
    + intros i Hib. destruct (Hus i Hib) as (k & Hk & E). exists k. by rewrite Hof.
  - by rewrite Ekk, Eg.
  - rewrite Ed, Eg. destruct Hr as [Hr|[Ere Hr]].
    + exists d, b0, w'. split_and!; try done; try lia. by rewrite Hr.
    + exists d, b0, w. rewrite Ere, Hr. split_and!; try done; try lia. intros Hr'. specialize (Hv Hr').
      unfold share in *. eapply gs_vals_ext; [exact Hv|]. intros i _. simpl. f_equal. unfold total.
      apply zsum_ext. intros k _. by rewrite Hof.
Qed.

Lemma group_reduce_wp c gid g red w :
  groups_ok typed c -> listed c gid g -> lawful red w ->
  wp (group_reduce c gid red) (fun c' =>
    groups_ok typed c' /\ same_core c c' /\ filterListeners c' = filterListeners c /\ exists g', listed c' gid g').
Proof.
  intros Hgo Hl Hw. unfold group_reduce, the_grp. rewrite (proj1 Hl). apply wp_bind, wp_Ret, wp_Ret.
  set (g' := Grp _ _ _ _ _ _ _ _ _ _ _ _).
  destruct (with_group_ok c gid g g' Hgo Hl) as [? ?]; try done; [by exists w|by left|]. split_and!; eauto. done.
Qed.

Lemma group_order_wp c gid g (value : Z -> Z) :
  groups_ok typed c -> listed c gid g ->
  wp (group_order c gid value) (fun c' =>
    groups_ok typed c' /\ same_core c c' /\ filterListeners c' = filterListeners c /\
    exists g', listed c' gid g' /\ g_order g' = value).
Proof.
  intros Hgo Hl. unfold group_order, the_grp. rewrite (proj1 Hl). apply wp_bind, wp_Ret, wp_Ret.
  set (g' := Grp _ _ _ _ _ _ _ _ _ _ _ _).
  destruct (with_group_ok c gid g g' Hgo Hl) as [? ?]; try done; [|by right|].
  { destruct (listed_ok c gid g Hgo Hl) as (Hok & _). destruct Hok as [_ _ _ (d & b0 & w & ?)]. exists w. naive_solver. }
  split_and!; eauto. done.
Qed.

(** [top(k)]: the groups of greatest value, in descending order. *)
Lemma group_top_wp c gid g k :
  base_ok typed c -> groups_ok typed c -> listed c gid g -> 1 <= k < 2 ^ 30 ->
  wp (group_top c gid k) (fun '(c', top) =>
    groups_ok typed c' /\ (exists g', listed c' gid g') /\ exists gs rest, group_read c gid g c' gs /\
      group_all c gid = Ret (c', gs) /\ top ++ rest ≡ₚ gs /\ alen top = Z.min (alen gs) k /\
      StronglySorted (fun e e' => group_valueOf g e' <= group_valueOf g e) top /\
      forall e e', e ∈ top -> e' ∈ rest -> group_valueOf g e' <= group_valueOf g e).
Proof.
  intros Hbase Hgo Hl Hk. unfold group_top.
  destruct (wp_elim _ _ (group_all_wp c gid g Hbase Hgo Hl)) as ([c' gs] & -> & Hgo' & Hl' & Hread).
  cbn [mbind js_bind]. pose proof Hread as (d & w & _ & _ & Ec' & _).
  assert (the_grp c' gid = Ret (with_reset (with_groups g gs) false)) as ->.
  { unfold the_grp. rewrite Ec'. simpl. rewrite list_lookup_insert_eq; [done|]. by eapply lookup_lt_Some, Hl. }
  cbn [mbind js_bind]. set (f := group_valueOf (with_reset (with_groups g gs) false)).
  pose proof (alen_nonneg gs). apply wp_bind. eapply wp_mono; [apply (heapselect_wp f); [lia..|]|].
  { intros i x _ _. apply Z_natural. }
  intros top (Hlen & Hheap & rest & Hperm & Hrest). apply wp_bind. eapply wp_mono.
  { apply (heap_sort_wp f top 0 (alen top)); try lia; [|done]. intros i x _ _. apply Z_natural. }
  intros top' [Hf Hs]. apply wp_Ret. split; [done|]. split; [done|]. exists gs, rest.
  pose proof (frame_alen _ _ _ _ Hf) as Hl2. destruct Hf as [Hp _]. split; [done|].
  assert (slice gs 0 (alen gs) = gs) as Hsl.
  { by apply slice_all. }
  split_and!.
  - done.
  - by rewrite Hp, Hperm, Hsl.
  - lia.
  - apply StronglySorted_lookup. intros i j x y Hij Hx Hy. apply Z.leb_le.
    apply (Hs (Z.of_nat i) (Z.of_nat j) x y); try lia.
    + apply lookup_lt_Some in Hy. unfold alen in *. lia.
    + unfold aget. destruct (Z.leb_spec 0 (Z.of_nat i)); [by rewrite Nat2Z.id|lia].
    + unfold aget. destruct (Z.leb_spec 0 (Z.of_nat j)); [by rewrite Nat2Z.id|lia].
  - intros e e' He He'. apply Z.leb_le. apply (Hrest e e'); [by rewrite <- Hp|done].
Qed.
End use.
