(* ===== verification/CfPreAdd.v ===== *)
(** * crossfilter: new records in the dimensions

    The first half of [add]: the arrays are lengthened, and the [preAdd] of
    every dimension sorts the new records in and marks those that its filter
    does not let pass. *)

From S2P Require Import Prelude.
From S2P Require Import Arrays.
From S2P Require Import Sums.
From S2P Require Import CfBisect.
From S2P Require Import CfArray.
From S2P Require Import CfBits.
From S2P Require Import CfCore.
From S2P Require Import CfInv.
From S2P Require Import CfFilter.
From S2P Require Import CfSelect.
From S2P Require Import CfTop.
From S2P Require Import CfMerge.
From S2P Require Import CfGroups.
From S2P Require Import CfAdd.
From S2P Require Import CfDimension.

Section records.
Context {R X : Type} `{JsOrdLaws X} (undef null : X) (typed : bool).
Abbreviation cf := (@CfCore.cf R X).
Abbreviation dim := (@CfCore.dim R X).
Implicit Types (c : cf) (d : dim) (fl : tarr).

Section add.
Context c (Hc : cf_ok typed c) (newData : list R).
Let n0 := n c.
Let n1 := alen newData.
Context (Hsmall : n0 + n1 <= 2 ^ 30).
Context (Hnat : forall did d r, live c did d -> r ∈ newData -> natural (d_value d r)).

(** The state while the [preAdd]s run; those of the dimensions [done] have. *)
Record pre_inv (done : list nat) c' : Prop := PreInv {
  pi_data : data c' = data c ++ newData;
  pi_n : n c' = n0 + n1;
  pi_m : m c' = m c;
  pi_M : M c' = M c;
  pi_dataListeners : dataListeners c' = dataListeners c;
  pi_removes : removeDataListeners c' = removeDataListeners c;
  pi_filterListeners : filterListeners c' = filterListeners c;
  pi_grps : grps c' = grps c;
  pi_galls : galls c' = galls c;
  pi_kind : tkind (filters c') = tkind (filters c);
  pi_len : n c' <= tlen (filters c');
  pi_cells : forall k x, aget (tcells (filters c')) k = Some x -> cell_ok (tkind (filters c)) x;
  pi_old : forall k, k < n0 -> aget (tcells (filters c')) k = aget (tcells (filters c)) k;
  pi_tail : forall k x, n c' <= k -> aget (tcells (filters c')) k = Some x -> x = 0;
  pi_unused : forall b k x, 0 <= b < 32 -> Z.testbit (m c) b = false ->
                aget (tcells (filters c')) k = Some x -> Z.testbit x b = false;
  pi_length : length (dims c') = length (dims c);
  pi_dims : forall did d, dims c !! did = Some d ->
              exists d', dims c' !! did = Some d' /\ added_dim d d';
  pi_upto : forall did d', dims c' !! did = Some d' -> DPre did ∈ dataListeners c ->
              dim_upto c' (if bool_decide (did ∈ done) then n c' else n0) d';
  pi_fresh : forall did d', did ∈ done -> dims c' !! did = Some d' ->
              new_values c' d' (d_newValues d') (d_newIndex d') n0 n1
}.

Lemma n0_n1_nonneg : 0 <= n0 /\ 0 <= n1.
Proof. split; [by apply (bk_nonneg typed), ck_base|apply alen_nonneg]. Qed.

(** After the arrays have been lengthened. *)
Lemma pre_start :
  pre_inv [] (Cf (data c ++ newData) (n0 + n1) (m c) (M c)
                 (crossfilter_arrayLengthen typed (filters c) (n0 + n1)) (filterListeners c)
                 (dataListeners c) (removeDataListeners c) (dims c) (grps c) (galls c)).
Proof.
  destruct (lengthened typed (filters c) (n0 + n1)) as (Hk & Hfl & Hpre & Hcell). pose proof n0_n1_nonneg as [Hn0 Hn1].
  pose proof (ck_base _ _ Hc) as Hbase. pose proof (bk_len _ _ Hbase) as Hlen.
  set (fl := crossfilter_arrayLengthen typed (filters c) (n0 + n1)) in *.
  assert (forall k, k < n0 -> aget (tcells fl) k = aget (tcells (filters c)) k) as Hold.
  { intros k Hk0. apply Hpre. lia. }
  assert (forall k x, n0 <= k -> aget (tcells fl) k = Some x -> x = 0) as Htail.
  { intros k x Hk0 Hx. destruct (Hcell k x Hx) as [Hx'|[_ ->]]; [|done]. by eapply (bk_tail _ _ Hbase). }
  split; cbn -[bool_decide]; try done.
  - intros k x Hx. destruct (Hcell k x Hx) as [Hx'|[_ ->]]; [by eapply (bk_cells _ _ Hbase)|].
    pose proof (bk_kind_ok _ _ Hbase) as Hkd. destruct (tkind (filters c)) as [|w]; simpl in *; [done|].
    split; [done|]. by apply Z.pow_pos_nonneg; lia.
  - intros k x Hk0. apply Htail. lia.
  - intros b k x Hb Hm Hx. destruct (Hcell k x Hx) as [Hx'|[_ ->]]; [by eapply (ck_unused _ _ Hc)|apply Z.bits_0].
  - intros did d Hd. exists d. by split.
  - intros did d Hd Hl. rewrite bool_decide_false by apply not_elem_of_nil.
    destruct (ck_dims _ _ Hc did d (conj Hd Hl)) as [? [? ? Hat ?] ? ? ? (b & Hb & ? & ? & Hbits) ?].
    split; simpl; try done.
    + split; try done. intros i k Hi Hki. destruct (Hat i k Hi Hki) as (r & Hr & Hv). exists r.
      split; [|done]. rewrite aget_app_l; [done|]. apply aget_Some in Hr. lia.
    + exists b. rewrite Hk. split_and!; try done; try lia.
      * intros k r x Hkn. rewrite aget_app_l by (rewrite <- (bk_n _ _ Hbase); fold n0; lia).
        rewrite Hold by lia. by apply Hbits.
      * intros k x Hkn Hx. by rewrite (Htail k x Hkn Hx), Z.bits_0.
  - intros did d []%elem_of_nil.
Qed.

(** Cells of old records keep their value when only new ones are marked. *)
Lemma marked_old c' fl' b D k :
  kind_ok (tkind (filters c')) ->
  (forall k x, aget (tcells (filters c')) k = Some x -> cell_ok (tkind (filters c')) x) ->
  filter_change (n c') b (filters c') fl' [] D -> (forall k, k ∈ D -> n0 <= k) -> k < n0 -> n0 <= n c' ->
  aget (tcells fl') k = aget (tcells (filters c')) k.
Proof.
  intros Hkd Hcells Hfc HD Hk Hn. pose proof (fc_len _ _ _ _ _ _ Hfc) as Hl. unfold tlen in Hl.
  destruct (aget (tcells (filters c')) k) as [x|] eqn:Hx.
  - pose proof (aget_Some _ _ _ Hx) as Hkb. destruct (aget_is_Some (tcells fl') k) as [x' Hx']; [lia|].
    rewrite Hx'. f_equal. apply (cell_ext (tkind (filters c'))); [done| |by eapply Hcells|].
    { rewrite <- (fc_kind _ _ _ _ _ _ Hfc). by eapply (fc_cells _ _ _ _ _ _ Hfc). }
    intros i Hi. destruct (decide (i = b)) as [->|Hne]; [|by eapply (fc_other _ _ _ _ _ _ Hfc k)].
    rewrite (filter_change_bit _ _ _ _ _ _ k x x' Hfc) by (done || lia).
    rewrite !bool_decide_false; [done|intros ?%HD; lia|apply not_elem_of_nil].
  - unfold aget, alen in *. destruct (Z.leb_spec 0 k); [|done].
    rewrite lookup_ge_None in Hx |- *. lia.
Qed.

(** Marking records for one dimension does not concern another. *)
Lemma upto_other c' fl' b D did d' u e de :
  filter_change (n c') b (filters c') fl' [] D -> dim_upto c' u de -> 0 <= b < 32 ->
  kind_ok (tkind (filters c')) -> d_one de <> bit_one b -> e <> did ->
  dim_upto (put_dim (set_filters c' fl') did d') u de.
Proof.
  intros Hfc [? ? ? ? ? (b' & Hb' & Ho' & ? & Hbits & Hclear)] Hb Hkd Hne _.
  assert (b' <> b) by congruence. pose proof (fc_len _ _ _ _ _ _ Hfc) as Hl. unfold tlen in Hl.
  assert (forall k x', aget (tcells fl') k = Some x' -> exists x, aget (tcells (filters c')) k = Some x
    /\ Z.testbit x' b' = Z.testbit x b') as Hcell.
  { intros k x' Hx'. destruct (aget_is_Some (tcells (filters c')) k) as [x Hx].
    { apply aget_Some in Hx'. lia. }
    exists x. split; [done|]. by eapply (fc_other _ _ _ _ _ _ Hfc k). }
  split; try done. exists b'. simpl. rewrite (fc_kind _ _ _ _ _ _ Hfc). split_and!; try done; try lia.
  - intros k r x' Hk Hr Hx'. destruct (Hcell k x' Hx') as (x & Hx & ->). by eapply Hbits.
  - intros k x' Hk Hx'. destruct (Hcell k x' Hx') as (x & Hx & ->). by eapply Hclear.
Qed.

Lemma pre_step done c' did :
  pre_inv done c' -> DPre did ∈ dataListeners c -> did ∉ done ->
  wp (preAdd undef typed c' did newData n0 n1) (pre_inv (done ++ [did])).
Proof.
  intros Hpi Hl Hnd. pose proof n0_n1_nonneg as [Hn0 Hn1]. pose proof (ck_base _ _ Hc) as Hbase.
  destruct (ck_listed _ _ Hc did ltac:(by left)) as [d Hd].
  destruct (pi_dims _ _ Hpi did d Hd) as (d' & Hd' & Had).
  pose proof (bk_kind_ok _ _ Hbase) as Hkd. rewrite <- (pi_kind _ _ Hpi) in Hkd.
  pose proof (kind_width_range _ Hkd) as Hkw.
  pose proof (pi_upto _ _ Hpi did d' Hd' Hl) as Hup. rewrite bool_decide_false in Hup by done.
  eapply wp_mono.
  { apply (preAdd_wp undef typed c' did d' newData n0 n1); try done.
    - apply (pi_n _ _ Hpi).
    - by rewrite (pi_n _ _ Hpi).
    - apply (pi_len _ _ Hpi).
    - intros k Hk. rewrite (pi_data _ _ Hpi). unfold n0. rewrite (bk_n _ _ Hbase). by apply aget_app_r.
    - intros k x Hx. rewrite (pi_kind _ _ Hpi). by eapply (pi_cells _ _ Hpi).
    - intros r Hr. rewrite (ad_value _ _ Had). by eapply Hnat. }
  intros c2 (fl' & b & D & d2 & -> & Hb & Hone & Hfc & HD & Had2 & Hup2 & Hnv2).
  pose proof (pi_n _ _ Hpi) as Hn. destruct Hpi as [Ed En Em EM Edl Erl Efl Eg Ega Ek Elen Ecells Eold Etail Eun El Edims Eupto Efresh].
  assert (forall k x, aget (tcells (filters c')) k = Some x -> cell_ok (tkind (filters c')) x) as Hcells'
    by (rewrite Ek; done).
  split; cbn -[bool_decide]; try done.
  - by rewrite (fc_kind _ _ _ _ _ _ Hfc).
  - by rewrite (fc_len _ _ _ _ _ _ Hfc).
  - intros k x Hx. rewrite <- Ek, <- (fc_kind _ _ _ _ _ _ Hfc). by eapply (fc_cells _ _ _ _ _ _ Hfc).
  - intros k Hk. rewrite (marked_old c' fl' b D k); try done; [by apply Eold|lia].
  - intros k x Hk. rewrite (fc_tail _ _ _ _ _ _ Hfc) by done. by apply Etail.
  - intros i k x' Hi Hm Hx'. destruct (decide (i < kind_width (tkind (filters c')))).
    + destruct (aget_is_Some (tcells (filters c')) k) as [x Hx].
      { apply aget_Some in Hx'. pose proof (fc_len _ _ _ _ _ _ Hfc). unfold tlen in *. lia. }
      rewrite (fc_other _ _ _ _ _ _ Hfc k x x' i); [by apply (Eun i k x)|done..|lia|].
      intros ->. destruct (du_bit _ _ _ Hup) as (b' & Hb' & Ho' & Hm' & _).
      assert (b = b') as -> by (apply bit_one_inj; [lia..|congruence]). congruence.
    + apply (cell_ok_high (tkind fl')); [..|by eapply (fc_cells _ _ _ _ _ _ Hfc)|];
        rewrite (fc_kind _ _ _ _ _ _ Hfc); done || lia.
  - by rewrite length_insert.
  - intros e de He. destruct (decide (e = did)) as [->|Hne].
    + exists d2. rewrite list_lookup_insert_eq by (by eapply lookup_lt_Some). split; [done|].
      rewrite Hd in He. injection He as <-. destruct Had, Had2. split; congruence.
    + rewrite list_lookup_insert_ne by done. by apply Edims.
  - intros e de He Hle. destruct (decide (e = did)) as [->|Hne].
    + rewrite list_lookup_insert_eq in He by (by eapply lookup_lt_Some). injection He as <-.
      rewrite bool_decide_true; [done|]. apply elem_of_app. right. left.
    + rewrite list_lookup_insert_ne in He by done.
      assert (bool_decide (e ∈ done ++ [did]) = bool_decide (e ∈ done)) as ->.
      { apply bool_decide_ext. rewrite elem_of_app, list_elem_of_singleton. naive_solver. }
      apply (upto_other c' fl' b D did d2 _ e de); try done; [by apply Eupto|lia|].
      intros Ho. apply Hne. destruct (ck_listed _ _ Hc e ltac:(by left)) as [de0 Hde0].
      destruct (Edims e de0 Hde0) as (de' & Hde' & Hade). rewrite He in Hde'. injection Hde' as <-.
      apply (ck_unique _ _ Hc e did de0 d); [done..|].
      rewrite <- (ad_one _ _ Hade), <- (ad_one _ _ Had). congruence.
  - intros e de Hin He. destruct (decide (e = did)) as [->|Hne].
    + rewrite list_lookup_insert_eq in He by (by eapply lookup_lt_Some). injection He as <-.
      by apply (new_values_ext c' _ d'); [|apply (ad_value _ _ Had2)|].
    + rewrite list_lookup_insert_ne in He by done. apply (new_values_ext c' _ de); [done..|]. apply (Efresh e); [|done].
      apply elem_of_app in Hin as [|E%list_elem_of_singleton]; [done|congruence].
Qed.

Lemma pre_end done c' :
  pre_inv done c' -> (forall did, DPre did ∈ dataListeners c -> did ∈ done) -> cf_ok typed c'.
Proof.
  intros [Ed En Em EM Edl Erl Efl Eg Ega Ek Elen Ecells Eold Etail Eun El Edims Eupto] Hall.
  pose proof (ck_base _ _ Hc) as Hbase. pose proof n0_n1_nonneg as [Hn0 Hn1].
  assert (forall e de', live c' e de' -> exists de, live c e de /\ added_dim de de') as Hlive.
  { intros e de' [He Hl]. rewrite Edl in Hl. destruct (ck_listed _ _ Hc e ltac:(by left)) as [de Hde].
    destruct (Edims e de Hde) as (de2 & Hde2 & Had). rewrite He in Hde2. injection Hde2 as <-.
    by exists de. }
  split; rewrite ?Em, ?Edl.
  - destruct Hbase. split; rewrite ?Em, ?EM, ?Ek, ?En; try done.
    + rewrite Ed. unfold n1, n0, alen in *. rewrite length_app. lia.
    + by rewrite <- En.
    + intros k x Hk. apply Etail. lia.
  - done.
  - intros b Hb Hm. destruct (ck_owned _ _ Hc b Hb Hm) as (did & d & [Hd Hl] & Ho).
    destruct (Edims did d Hd) as (d' & Hd' & Had). exists did, d'.
    split; [by split; rewrite ?Edl|]. by rewrite (ad_one _ _ Had).
  - intros e e' de de' He He' Eo. destruct (Hlive _ _ He) as (d1 & Hl1 & Ha1).
    destruct (Hlive _ _ He') as (d2 & Hl2 & Ha2). eapply (ck_unique _ _ Hc); [done..|].
    by rewrite <- (ad_one _ _ Ha1), <- (ad_one _ _ Ha2).
  - intros did d' [Hd' Hl]. apply dim_upto_ok. rewrite Edl in Hl. specialize (Eupto did d' Hd' Hl).
    by rewrite bool_decide_true in Eupto by auto.
  - intros did Hl. apply (ck_listed _ _ Hc) in Hl. rewrite lookup_lt_is_Some in *. by rewrite El.
  - apply (ck_order _ _ Hc).
  - apply (ck_nodup _ _ Hc).
Qed.

(** All [preAdd]s, in the order they are registered. *)
Lemma pre_all ds c' :
  NoDup ds -> (forall did, did ∈ ds -> DPre did ∈ dataListeners c) ->
  pre_inv [] c' ->
  wp (for_each (DPre <$> ds) (run_dataListener undef null typed newData n0 n1) c') (pre_inv ds).
Proof.
  intros Hnd Hl Hpi.
  assert (forall rest done c', ds = done ++ rest -> pre_inv done c' ->
    wp (for_each (DPre <$> rest) (run_dataListener undef null typed newData n0 n1) c') (pre_inv ds)) as Hgen.
  { induction rest as [|did rest IH]; intros done c2 E Hp; simpl.
    - by rewrite app_nil_r in E; subst.
    - apply wp_bind. eapply wp_mono.
      + apply (pre_step done c2 did Hp); [apply Hl; rewrite E; apply elem_of_app; right; left|].
        rewrite E in Hnd. apply NoDup_app in Hnd as (_ & Hd & _). intros Hin. apply (Hd did Hin). left.
      + intros c3 Hp3. eapply IH; [|exact Hp3]. by rewrite <- app_assoc. }
  by apply (Hgen ds []).
Qed.
End add.
End records.
