(* ===== verification/CfRecords.v ===== *)
(** * crossfilter: [add]

    The second half of [add]: the groups of the dimensions and the [groupAll]s
    take in the new records, one listener after the other.  Afterwards the
    whole state is consistent again. *)

From S2P Require Import Prelude.
From S2P Require Import Arrays.
From S2P Require Import Sums.
From S2P Require Import CfBisect.
From S2P Require Import CfArray.
From S2P Require Import CfBits.
From S2P Require Import CfCore.
From S2P Require Import CfInv.
From S2P Require Import CfFilter.
From S2P Require Import CfSelect.
From S2P Require Import CfTop.
From S2P Require Import CfMerge.
From S2P Require Import CfGroups.
From S2P Require Import CfAdd.
From S2P Require Import CfDimension.
From S2P Require Import CfGroupTake.
From S2P Require Import CfGroupAdd.
From S2P Require Import CfLinks.
From S2P Require Import CfGroupUse.
From S2P Require Import CfPreAdd.

Section records.
Context {R X : Type} `{JsOrdLaws X} (undef null : X) (typed : bool).
Abbreviation cf := (@CfCore.cf R X).
Abbreviation dim := (@CfCore.dim R X).
Abbreviation grp := (@CfCore.grp R X).
Implicit Types (c : cf) (d : dim) (g : grp) (fl : tarr).

Section post.
Context c (Hc : cf_ok typed c) (newData : list R).
Let n0 := n c.
Let n1 := alen newData.
Context (Hsmall : n0 + n1 <= 2 ^ 30) (Hgo : groups_ok typed c) (Hlk : links typed c).
Context ds cp (Hpi : pre_inv c newData ds cp) (Hall : forall did, DPre did ∈ dataListeners c -> did ∈ ds).

(** The state at a listener.  The core is that of [cp]; each [groupAll] is up
    to date if its [add] has run, and so are the groups [done]. *)
Record post_inv (l1 : list dlistener) (done : list nat) c' : Prop := PostInv {
  po_data : data c' = data cp;
  po_n : n c' = n cp;
  po_m : m c' = m cp;
  po_M : M c' = M cp;
  po_filters : filters c' = filters cp;
  po_dataListeners : dataListeners c' = dataListeners cp;
  po_removes : removeDataListeners c' = removeDataListeners cp;
  po_galls : length (galls c') = length (galls c);
  po_length : length (dims c') = length (dims cp);
  po_dims : forall did d', dims c' !! did = Some d' -> exists d, dims cp !! did = Some d
    /\ added_dim d d' /\ same_dim d d' /\ d_lo0 d' = d_lo0 d /\ d_hi0 d' = d_hi0 d /\ (DPost did ∉ l1 -> d' = d);
  po_all : forall aid, FAll aid ∈ filterListeners c -> exists a, galls c' !! aid = Some a /\
    if bool_decide (DAll aid ∈ l1) then gall_ok cp (filters cp) a else gall_ok c (filters c) a;
  po_grps : forall gid g, gid ∈ registered c -> grps c !! gid = Some g -> exists g', grps c' !! gid = Some g' /\
    if bool_decide (gid ∈ done) then grp_ok cp (filters cp) gid g' /\ linked typed (n cp) (g_dim g) gid g' else g' = g;
  po_others : forall gid, gid ∉ registered c -> grps c' !! gid = grps c !! gid;
  po_listeners : filterListeners c' ≡ₚ (update_of (grps c') <$> registered c) ++ List.filter is_all (filterListeners c)
}.

Lemma post_start : post_inv [] [] cp.
Proof.
  destruct Hgo as [Hok _ _ _ _]. split; try done.
  - apply (f_equal length (pi_galls _ _ _ _ Hpi)).
  - intros did d' Hd'. by exists d'.
  - intros aid Ha. rewrite bool_decide_false by apply not_elem_of_nil.
    rewrite (pi_galls _ _ _ _ Hpi). by apply (Hok (FAll aid)).
  - intros gid g _ Hg. rewrite bool_decide_false by apply not_elem_of_nil. rewrite (pi_grps _ _ _ _ Hpi). eauto.
  - intros gid _. by rewrite (pi_grps _ _ _ _ Hpi).
  - rewrite (pi_grps _ _ _ _ Hpi), (pi_filterListeners _ _ _ _ Hpi). apply Hlk.
Qed.

(** The value of a [groupAll] with the new records counted in. *)
Lemma gall_extended a w :
  lawful (a_reduce a) w ->
  total (amount (data c) w) (filters c) (-1) (seqZ 0 n0)
  + total (amount (data cp) w) (filters cp) (-1) (seqZ n0 n1)
  = total (amount (data cp) w) (filters cp) (-1) (seqZ 0 (n cp)).
Proof.
  intros _. destruct (n0_n1_nonneg typed c Hc newData). rewrite (pi_n _ _ _ _ Hpi), seqZ_app by lia. unfold total.
  rewrite zsum_app, Z.add_0_l. f_equal. apply zsum_ext. intros k Hk%elem_of_seqZ.
  unfold unmasked, amount. rewrite (pi_old _ _ _ _ Hpi) by lia. rewrite (pi_data _ _ _ _ Hpi).
  by rewrite aget_app_l by (rewrite <- (bk_n _ _ (ck_base _ _ Hc)); fold n0; lia).
Qed.

Lemma groupAll_add_wp l1 done c' aid :
  post_inv l1 done c' -> DAll aid ∈ dataListeners c -> DAll aid ∉ l1 ->
  wp (groupAll_add c' aid n0) (post_inv (l1 ++ [DAll aid]) done).
Proof.
  intros Hpo Hl Hnew. pose proof (pre_end typed c Hc newData Hsmall ds cp Hpi Hall) as Hcp. pose proof (ck_base _ _ Hcp) as Hbase.
  pose proof (bk_kind_ok _ _ Hbase) as Hkd. destruct (n0_n1_nonneg typed c Hc newData) as [Hn0 Hn1].
  destruct Hpo as [Ed En Em EM Ef Edl Erl Ega El Edims Eall Egs Eot Els].
  assert (exists a, galls c' !! aid = Some a) as [a Ha].
  { apply lookup_lt_is_Some. rewrite Ega. by apply (gs_galls _ _ Hgo). }
  unfold groupAll_add, the_gall. rewrite Ha. simpl.
  assert (forall a', (FAll aid ∈ filterListeners c -> gall_ok cp (filters cp) a') ->
    post_inv (l1 ++ [DAll aid]) done (put_gall c' aid a')) as Hdone.
  { intros a' Ha'. split; cbn -[bool_decide]; try done; [by rewrite length_insert| |].
    { intros did d' Hd'. destruct (Edims did d' Hd') as (d & ? & ? & ? & ? & ? & Hid). exists d. split_and!; try done.
      intros Hni. apply Hid. intros Hin. apply Hni, elem_of_app. by left. }
    intros aid' Hf. destruct (decide (aid' = aid)) as [->|Hne].
    - exists a'. rewrite list_lookup_insert_eq by (by eapply lookup_lt_Some). split; [done|].
      rewrite bool_decide_true; [by apply Ha'|]. apply elem_of_app. right. left.
    - rewrite list_lookup_insert_ne by done. destruct (Eall aid' Hf) as (a2 & Ha2 & Hok2).
      exists a2. split; [done|].
      assert (bool_decide (DAll aid' ∈ l1 ++ [DAll aid]) = bool_decide (DAll aid' ∈ l1)) as ->; [|done].
      apply bool_decide_ext. rewrite elem_of_app, list_elem_of_singleton. naive_solver. }
  assert (FAll aid ∈ filterListeners c -> gall_ok c (filters c) a) as Hold.
  { intros Hf. destruct (Eall aid Hf) as (a2 & Ha2 & Hok2). rewrite Ha in Ha2. injection Ha2 as <-.
    by rewrite bool_decide_false in Hok2. }
  assert (put_gall c' aid a = c') as Hsame.
  { unfold put_gall, set_galls. rewrite list_insert_id by done. by destruct c'. }
  destruct (a_resetNeeded a) eqn:Hr.
  { simpl. rewrite <- Hsame. apply Hdone. intros Hf. destruct (Hold Hf) as (w & Hw & _).
    exists w. split; [done|]. by rewrite Hr. }
  rewrite Ef, Ed, En. eapply wp_bind, wp_mono.
  - apply (wp_for (fun i v => forall w, lawful (a_reduce a) w -> forall v0, a_reduceValue a = Some v0 ->
      v = Some (v0 + total (amount (data cp) w) (filters cp) (-1) (seqZ n0 (i - n0))))).
    + rewrite (pi_n _ _ _ _ Hpi). lia.
    + intros w Hw v0 ->. rewrite Z.sub_diag. unfold total. simpl. f_equal. lia.
    + intros i v Hi HI. rewrite (pi_n _ _ _ _ Hpi) in Hi.
      destruct (aget_is_Some (tcells (filters cp)) i) as [x Hx].
      { pose proof (bk_len _ _ Hbase) as Hlen. rewrite (pi_n _ _ _ _ Hpi) in Hlen. unfold tlen in *. lia. }
      destruct (aget_is_Some (data cp) i) as [r Hrec].
      { rewrite <- (bk_n _ _ Hbase), (pi_n _ _ _ _ Hpi). lia. }
      unfold trd. rewrite (rd_Some _ _ _ Hx). simpl.
      rewrite (truthy_full _ _ Hkd (bk_cells _ _ Hbase i x Hx)).
      assert (seqZ n0 (i + 1 - n0) = seqZ n0 (i - n0) ++ [i]) as Hseq.
      { replace (i + 1 - n0) with (i - n0 + 1) by lia. rewrite seqZ_app by lia. f_equal.
        replace (n0 + (i - n0)) with i by lia. by rewrite seqZ_cons by lia. }
      destruct (Z.eqb_spec (js_and x (-1)) 0) as [E|E]; simpl.
      * rewrite (rd_Some _ _ _ Hrec). simpl. intros w Hw v0 Hv0. rewrite (HI w Hw v0 Hv0). simpl.
        rewrite (proj1 (Hw _ _)), Hseq, (total_snoc _ _ _ _ _ _ Hx), E, (amount_Some _ _ _ _ Hrec).
        f_equal. simpl. lia.
      * intros w Hw v0 Hv0. rewrite (HI w Hw v0 Hv0), Hseq, (total_snoc _ _ _ _ _ _ Hx).
        destruct (Z.eqb_spec (js_and x (-1)) 0); [done|]. f_equal. simpl. lia.
  - intros v HI. apply Hdone. intros Hf. destruct (Hold Hf) as (w & Hw & Hv). exists w. split; [done|].
    intros _. simpl. rewrite (HI w Hw _ (Hv Hr)). f_equal. rewrite <- (gall_extended a w Hw).
    rewrite (pi_n _ _ _ _ Hpi). fold n0 n1. replace (n0 + n1 - n0) with n1 by lia. lia.
Qed.

(** ** The groups of a dimension *)

(** The groups of the old records, seen in a state with the new ones. *)
Lemma standing_old c' gid g d :
  gid ∈ registered c -> grps c !! gid = Some g -> dims c !! g_dim g = Some d ->
  data c' = data c ++ newData -> (forall k, k < n0 -> aget (tcells (filters c')) k = aget (tcells (filters c)) k) ->
  exists w, lawful (g_reduce g) w /\
    forall d', d_value d' = d_value d -> d_zero d' = d_zero d -> standing typed c' g d' w n0.
Proof.
  intros Hin Hg Hd Ed Ef. destruct (registered_group typed c gid Hlk Hin) as (did & _ & g2 & _ & _ & _ & Hg2 & Hl).
  rewrite Hg in Hg2. injection Hg2 as <-. destruct (registered_ok typed c gid g Hgo Hlk Hin Hg) as [Hu|[Hi Hky Hk Hval]].
  - destruct (ln_lawful _ _ _ _ _ Hl) as [w Hw]. exists w. split; [done|]. intros d' _ _.
    destruct (ln_null _ _ _ _ _ Hl Hu) as (? & ? & En). fold n0 in En. rewrite En. destruct Hl. by apply standing_empty.
  - destruct Hval as (d0 & b0 & w & Hd0 & _ & _ & _ & Hw & Hv). rewrite Hd in Hd0. injection Hd0 as <-. exists w. split; [done|].
    intros d' Ev Ez. pose proof (ck_base _ _ Hc) as Hb. pose proof (bk_n _ _ Hb) as Hn. fold n0 in Hn.
    assert (forall k, k < n0 -> aget (data c') k = aget (data c) k) as Edat by (intros k Hk'; rewrite Ed; apply aget_app_l; lia).
    destruct Hl as [_ Hm Hs Ha _ _ _]. pose proof Hky as [Hks Hkg Hku]. split; try done.
    + rewrite Hk. apply keyed_few; [done|]. by apply (bk_nonneg typed).
    + intros k Hk'. destruct (aget_is_Some (data c) k) as [r Hr]; [lia|]. destruct (Hkg k r d Hr Hd) as (e & He & Hsk).
      exists r, e. by rewrite Edat, Ev by lia.
    + by rewrite Hk.
    + intros Hk1. unfold index_ok in Hi. destruct (g_update g); [lia| |lia|done]. destruct Hi as (_ & _ & t & Ht & Hti).
      exists t. split; [done|]. intros k Hk'. destruct (Hti k Hk') as (i & ? & _). eauto.
    + intros Hr. split; [done|]. intros e [i He]%elem_of_aget. rewrite (proj2 (Hv Hr) i e He), (total_vsum c g d w g i e) by done.
      do 2 f_equal. symmetry. apply key_sum_ext; [done..|]. intros k Hk'%elem_of_seqZ. rewrite Edat, Ef by lia. done.
Qed.

(** The dimension of a registered group, before and after [preAdd]. *)
Lemma registered_dim gid g did d :
  DPost did ∈ dataListeners c -> dims c !! did = Some d -> gid ∈ d_indexListeners d -> grps c !! gid = Some g ->
  g_dim g = did /\ linked typed n0 did gid g /\ exists dp, live cp did dp /\ added_dim d dp
    /\ new_values cp dp (d_newValues dp) (d_newIndex dp) n0 n1.
Proof.
  intros Hdl Hd Hin Hg. destruct (lk_groups _ _ Hlk did d gid Hdl Hd Hin) as (g2 & Hg2 & Hl).
  rewrite Hg in Hg2. injection Hg2 as <-. split; [apply Hl|]. split; [done|].
  destruct (pi_dims _ _ _ _ Hpi did d Hd) as (dp & Hdp & Had). apply (lk_posts _ _ Hlk) in Hdl. exists dp. split_and!; [|done|].
  - split; [done|]. by rewrite (pi_dataListeners _ _ _ _ Hpi).
  - apply (pi_fresh _ _ _ _ Hpi did dp); [by apply Hall|done].
Qed.

Lemma group_joins_wp l1 done c' did d gid :
  post_inv l1 done c' -> DPost did ∈ dataListeners c -> DPost did ∉ l1 -> dims c' !! did = Some d ->
  gid ∈ d_indexListeners d -> gid ∉ done ->
  wp (group_add null typed c' gid (d_newValues d) (d_newIndex d) n0 n1) (fun c2 =>
    post_inv l1 (done ++ [gid]) c2 /\ dims c2 = dims c').
Proof.
  intros Hpo Hdl Hl1 Hd Hin Hnd. pose proof (pre_end typed c Hc newData Hsmall ds cp Hpi Hall) as Hcp.
  pose proof (ck_base _ _ Hcp) as Hb. destruct (n0_n1_nonneg typed c Hc newData) as [Hn0 Hn1]. fold n0 n1 in Hn0, Hn1.
  pose proof Hpo as [Ed En Em EM Ef Edl Erl Ega El Edims Eall Egs Eot Els].
  destruct (Edims did d Hd) as (dp & Hdp & _ & _ & _ & _ & Hsame). rewrite Hsame in * by done. clear Hsame.
  destruct (ck_listed _ _ Hc did ltac:(by right)) as [d0 Hd0].
  destruct (pi_dims _ _ _ _ Hpi did d0 Hd0) as (dp2 & Hdp2 & Had). rewrite Hdp in Hdp2. injection Hdp2 as <-.
  rewrite (ad_indexListeners _ _ Had) in Hin.
  assert (gid ∈ registered c) as Hreg by (apply elem_of_registered; eauto).
  destruct (lk_groups _ _ Hlk did d0 gid Hdl Hd0 Hin) as (g & Hg & _).
  destruct (registered_dim gid g did d0 Hdl Hd0 Hin Hg) as (Egd & Hlg & dp2 & Hlive & _ & Hnv).
  destruct Hlive as [Hdp2 Hpre]. rewrite Hdp in Hdp2. injection Hdp2 as <-.
  destruct (Egs gid g Hreg Hg) as (g2 & Hg2 & E). rewrite bool_decide_false in E by done. subst g2.
  pose proof (pi_n _ _ _ _ Hpi) as En'. fold n0 n1 in En'.
  assert (data c' = data c ++ newData) as Edat by (rewrite Ed; apply Hpi).
  destruct (standing_old c' gid g d0 Hreg Hg ltac:(by rewrite Egd) Edat) as (w & Hw & Hst).
  { rewrite Ef. apply Hpi. }
  specialize (Hst dp (ad_value _ _ Had) (ad_zero _ _ Had)). eapply wp_mono.
  { apply (group_add_wp null typed c' g dp w _ _ n0 n1); try done.
    - rewrite Ef, <- En'. apply Hb.
    - rewrite Ed, <- En'. symmetry. apply Hb.
    - by apply (new_values_ext cp _ dp).
    - by rewrite Egd.
    - by rewrite En. }
  intros c2 (g' & Hag & ->). pose proof Hag as [Agd Agk Agr Ago Ags Aga Asz Ai Aky Akk Av].
  assert (dims cp !! g_dim g' = Some dp) as Hdg by (by rewrite Agd, Egd).
  assert (index_ok cp gid g') as Ai' by (revert Ai; unfold index_ok; by rewrite En).
  assert (keyed cp g') as Aky'.
  { apply (keyed_same c'); [done..| |done]. intros d2 Hd2. rewrite Hdg in Hd2. injection Hd2 as <-.
    exists dp. by rewrite Agd, Egd. }
  destruct (grp_update cp gid g' dp Ai' Aky' Akk Hdg (bk_n _ _ Hb)) as [Hshape Hnull].
  split; [|done]. split; simpl; try done.
  - intros gid' g0 Hin' Hg0. destruct (decide (gid' = gid)) as [->|Hne].
    + rewrite Hg in Hg0. injection Hg0 as <-. exists g'. rewrite list_lookup_insert_eq by (by eapply lookup_lt_Some).
      split; [done|]. rewrite bool_decide_true by (apply elem_of_app; right; left). split; [split; try done|].
      * destruct (dk_bit _ _ (ck_dims _ _ Hcp did dp (conj Hdp Hpre))) as (b & Hbb & Hone & _).
        pose proof (kind_width_range _ (bk_kind_ok _ _ Hb)). exists dp, b, w. rewrite Agr, Ags.
        split_and!; try done; try lia; [rewrite <- Hone; apply (dk_zero _ _ (ck_dims _ _ Hcp did dp (conj Hdp Hpre)))|].
        intros Hr. specialize (Av Hr). unfold share in *. by rewrite Ed, Ef, En in Av.
      * split; try done; [rewrite Agk; apply Hlg|]. rewrite Agr. by exists w.
    + rewrite list_lookup_insert_ne by done. destruct (Egs gid' g0 Hin' Hg0) as (g2 & ? & ?). exists g2. split; [done|].
      assert (bool_decide (gid' ∈ done ++ [gid]) = bool_decide (gid' ∈ done)) as ->; [|done].
      apply bool_decide_ext. rewrite elem_of_app, list_elem_of_singleton. naive_solver.
  - intros gid' Hn. rewrite list_lookup_insert_ne by (by intros ->). by apply Eot.
  - replace (g_update g) with (update_of (grps c') gid) by (unfold update_of; by rewrite Hg2).
    apply update_replaced; [apply Hlk|done| |done]. by eapply lookup_lt_Some.
Qed.

Lemma postAdd_wp l1 done c' did d :
  post_inv l1 done c' -> DPost did ∈ dataListeners c -> DPost did ∉ l1 -> dims c !! did = Some d ->
  NoDup (done ++ d_indexListeners d) ->
  wp (postAdd null typed c' did n0 n1) (post_inv (l1 ++ [DPost did]) (done ++ d_indexListeners d)).
Proof.
  intros Hpo Hl Hl1 Hd0 Hnd. destruct (pi_dims _ _ _ _ Hpi did d Hd0) as (dp & Hdp & Had).
  assert (exists d', dims c' !! did = Some d') as [d' Hd'].
  { apply lookup_lt_is_Some. rewrite (po_length _ _ _ Hpo). by eapply lookup_lt_Some. }
  destruct (po_dims _ _ _ Hpo did d' Hd') as (dp' & Hdp' & _ & _ & _ & _ & Hsame). rewrite Hsame in * by done.
  rewrite Hdp in Hdp'. injection Hdp' as <-. clear Hsame d'.
  unfold postAdd. rewrite (the_dim_ret _ _ _ Hd'). cbn [mbind js_bind]. rewrite (ad_indexListeners _ _ Had).
  apply wp_bind. eapply wp_mono.
  - apply (wp_for_each (fun gs1 c2 => post_inv l1 (done ++ gs1) c2 /\ dims c2 = dims c')).
    + by rewrite app_nil_r.
    + intros gs1 gid gs2 c2 E [Hpo2 Ed2]. rewrite app_assoc. eapply wp_mono.
      * apply (group_joins_wp l1 (done ++ gs1) c2 did dp gid); try done; [by rewrite Ed2| |].
        -- rewrite (ad_indexListeners _ _ Had), E. apply elem_of_app. right. left.
        -- rewrite E, app_assoc in Hnd. apply NoDup_app in Hnd as (_ & Hdis & _). intros Hin. apply (Hdis gid Hin). left.
      * intros c3 [? ->]. done.
  - intros c2 [[Ed En Em EM Ef Edl Erl Ega El Edims Eall Egs Eot Els] Ed2]. rewrite (the_dim_ret c2 did dp) by (by rewrite Ed2).
    apply wp_Ret. split; cbn -[bool_decide]; try done.
    + by rewrite length_insert.
    + intros e de He. destruct (decide (e = did)) as [->|Hne].
      * rewrite list_lookup_insert_eq in He by (rewrite Ed2; by eapply lookup_lt_Some). injection He as <-.
        exists dp. split_and!; try done. intros Hni. exfalso. apply Hni, elem_of_app. right. left.
      * rewrite list_lookup_insert_ne in He by done. destruct (Edims e de He) as (d2 & ? & ? & ? & ? & ? & Hid).
        exists d2. split_and!; try done. intros Hni. apply Hid. intros Hin. apply Hni, elem_of_app. by left.
    + intros aid Hf. destruct (Eall aid Hf) as (a & Ha & Hok). exists a. split; [done|].
      assert (bool_decide (DAll aid ∈ l1 ++ [DPost did]) = bool_decide (DAll aid ∈ l1)) as ->; [|done].
      apply bool_decide_ext. rewrite elem_of_app, list_elem_of_singleton. naive_solver.
Qed.

(** ** All listeners *)

Lemma post_all rest :
  NoDup rest -> NoDup (registered_by (dims c) rest) ->
  (forall l, l ∈ rest -> l ∈ dataListeners c /\ forall did, l <> DPre did) ->
  wp (for_each rest (run_dataListener undef null typed newData n0 n1) cp) (post_inv rest (registered_by (dims c) rest)).
Proof.
  intros Hnd Hndr Hin. apply (wp_for_each (fun l1 => post_inv l1 (registered_by (dims c) l1))); [apply post_start|].
  intros l1 l l2 c' E Hpo. destruct (Hin l) as [Hl Hnp]; [rewrite E; apply elem_of_app; right; left|].
  assert (l ∉ l1) as Hl1.
  { rewrite E in Hnd. apply NoDup_app in Hnd as (_ & Hd & _). intros Hl1. apply (Hd _ Hl1). left. }
  rewrite registered_by_app. destruct l as [did|did|aid]; cbn [run_dataListener].
  - by destruct (Hnp did).
  - destruct (ck_listed _ _ Hc did ltac:(by right)) as [d Hd].
    assert (registered_by (dims c) [DPost did] = d_indexListeners d) as Er by (unfold registered_by; simpl; by rewrite Hd, app_nil_r).
    rewrite Er. apply postAdd_wp; try done. change (DPost did :: l2) with ([DPost did] ++ l2) in E. rewrite E, registered_by_app, registered_by_app, Er, app_assoc in Hndr.
    by apply NoDup_app in Hndr as (? & _).
  - change (registered_by (dims c) [DAll aid]) with (@nil nat). rewrite app_nil_r. by apply groupAll_add_wp.
Qed.

Lemma post_end l1 c' :
  post_inv l1 (registered c) c' -> (forall aid, DAll aid ∈ dataListeners c -> DAll aid ∈ l1) ->
  cf_ok typed c' /\ groups_ok typed c' /\ links typed c' /\ data c' = data c ++ newData /\
  dataListeners c' = dataListeners c /\
  (forall did d, live c did d -> exists d', live c' did d' /\ added_dim d d').
Proof.
  intros Hpo Hl1. pose proof (pre_end typed c Hc newData Hsmall ds cp Hpi Hall) as Hcp.
  pose proof Hpo as [Ed En Em EM Ef Edl Erl Ega El Edims Eall Egs Eot Els].
  assert (forall did d, dims cp !! did = Some d -> exists d', dims c' !! did = Some d' /\ added_dim d d') as Hfwd.
  { intros did d Hd. destruct (dims c' !! did) as [d'|] eqn:Hd'.
    - exists d'. split; [done|]. destruct (Edims did d' Hd') as (d2 & Hd2 & ? & _). by simplify_eq.
    - apply lookup_ge_None in Hd'. apply lookup_lt_Some in Hd. lia. }
  assert (forall did d, dims c !! did = Some d -> exists d', dims c' !! did = Some d' /\ added_dim d d') as Hfwd0.
  { intros did d Hd. destruct (pi_dims _ _ _ _ Hpi did d Hd) as (dp & Hdp & Ha1). destruct (Hfwd did dp Hdp) as (d' & Hd' & Ha2).
    exists d'. split; [done|]. destruct Ha1, Ha2. split; congruence. }
  assert (dataListeners c' = dataListeners c) as Edl' by (by rewrite Edl, (pi_dataListeners _ _ _ _ Hpi)).
  assert (removeDataListeners c' = removeDataListeners c) as Erl' by (by rewrite Erl, (pi_removes _ _ _ _ Hpi)).
  assert (forall gid did d, DPost did ∈ dataListeners c -> dims c !! did = Some d -> gid ∈ d_indexListeners d ->
    exists g', grps c' !! gid = Some g' /\ grp_ok c' (filters c') gid g' /\ linked typed (n c') did gid g') as Hgrp.
  { intros gid did d Hdl Hd Hin. assert (gid ∈ registered c) as Hreg by (apply elem_of_registered; eauto).
    destruct (lk_groups _ _ Hlk did d gid Hdl Hd Hin) as (g & Hg & Hl). destruct (Egs gid g Hreg Hg) as (g' & Hg' & E).
    rewrite bool_decide_true in E by done. rewrite (ln_dim _ _ _ _ _ Hl) in E. destruct E as [Hok' Hl']. exists g'. rewrite Ef, En.
    split_and!; [done| |done]. apply (grp_ok_dims cp c'); try done. intros e de He. destruct (Hfwd e de He) as (de' & ? & []). eauto 8. }
  assert (forall aid, FAll aid ∈ filterListeners c -> exists a, galls c' !! aid = Some a /\ gall_ok c' (filters c') a) as Hga.
  { intros aid Ha. destruct (Eall aid Ha) as (a & Haa & Hga). rewrite bool_decide_true in Hga by (by apply Hl1, Hgo).
    exists a. split; [done|]. destruct Hga as (w & Hw & Hv). exists w. by rewrite Ed, En, Ef. }
  assert (forall did, DPost did ∈ dataListeners c -> is_Some (dims c !! did)) as Hli by (intros; apply (ck_listed _ _ Hc); by right).
  assert (m c' = m c) as Em' by (by rewrite Em, (pi_m _ _ _ _ Hpi)).
  split_and!; try done.
  - apply (cf_ok_dims typed cp); try done.
    intros did d Hd. destruct (Hfwd did d Hd) as (d' & Hd' & Had). destruct (Edims did d' Hd') as (d2 & Hd2 & _ & Hsd & ? & ? & _).
    rewrite Hd in Hd2. injection Hd2 as <-. exists d'. destruct Had, Hsd. by split_and!.
  - by apply (relinked_groups_ok typed c).
  - apply (relinked_links typed c); try done.
    + intros did d _ Hd. destruct (Hfwd0 did d Hd) as (d' & ? & []). eauto.
    + intros gid did d Hdl Hd Hin Hn. unfold made. rewrite Eot by done. by apply (lk_made _ _ Hlk did d).
  - by rewrite Ed, (pi_data _ _ _ _ Hpi).
  - intros did d [Hd Hl]. destruct (Hfwd0 did d Hd) as (d' & Hd' & Had). exists d'. split; [|done]. split; [done|]. by rewrite Edl'.
Qed.
End post.

Lemma for_each_app {L S} (l1 l2 : list L) (body : L -> S -> js S) s :
  for_each (l1 ++ l2) body s = s ← for_each l1 body s; for_each l2 body s.
Proof. revert s. induction l1 as [|x l1 IH]; intros s; simpl; [done|]. destruct (body x s); simpl; auto. Qed.

Lemma add_wp c newData :
  cf_ok typed c -> groups_ok typed c -> links typed c -> n c + alen newData <= 2 ^ 30 ->
  (forall did d r, live c did d -> r ∈ newData -> natural (d_value d r)) ->
  wp (add undef null typed c newData) (fun c' =>
    (cf_ok typed c' /\ groups_ok typed c' /\ links typed c') /\ data c' = data c ++ newData /\
    dataListeners c' = dataListeners c /\
    (forall did d, live c did d -> exists d', live c' did d' /\ added_dim d d')).
Proof.
  intros Hc Hgo Hlk Hsmall Hnat. unfold add. destruct (Z.eqb_spec (alen newData) 0) as [E|E].
  { destruct newData; [|unfold alen in E; simpl in E; lia]. rewrite app_nil_r. split_and!; try done.
    intros did d Hl. exists d. by split. }
  destruct (ck_order _ _ Hc) as (ds & rest & Hdl & Hrest).
  pose proof (ck_nodup _ _ Hc) as Hnd. rewrite Hdl in Hnd. apply NoDup_app in Hnd as (Hnd1 & Hdis & Hnd2).
  simpl. rewrite Hdl at 1. rewrite for_each_app. apply wp_bind.
  assert (forall did, DPre did ∈ dataListeners c <-> did ∈ ds) as Hds.
  { intros did. rewrite Hdl, elem_of_app. split.
    - intros [(d & [= <-] & Hd)%list_elem_of_fmap|Hd]; [done|]. by destruct (Hrest did).
    - intros Hd. left. by apply list_elem_of_fmap_2. }
  assert (registered c = registered_by (dims c) rest) as Er.
  { unfold registered. rewrite Hdl, registered_by_app. by rewrite (registered_by_pre (dims c) ds). }
  eapply wp_mono.
  - apply (pre_all undef null typed c Hc newData Hsmall Hnat ds); [by eapply NoDup_fmap_1|by intros ? ?%Hds|].
    by apply pre_start.
  - intros cp Hpi. eapply wp_mono.
    + apply (post_all c Hc newData Hsmall Hgo Hlk ds cp Hpi); try done; [by intros ? ?%Hds|rewrite <- Er; apply Hlk|].
      intros l Hl. split; [rewrite Hdl; apply elem_of_app; by right|]. intros did ->. by apply (Hrest did).
    + intros c' Hpo. rewrite <- Er in Hpo.
      destruct (post_end c Hc newData Hsmall Hgo Hlk ds cp Hpi ltac:(by intros ? ?%Hds) rest c' Hpo)
        as (? & ? & ? & ? & ? & ?); [|done].
      intros aid. rewrite Hdl, elem_of_app. intros [(d & [=] & _)%list_elem_of_fmap|]; done.
Qed.
End records.
