(* ===== verification/CfRank.v ===== *)
(** * crossfilter: moving the records that are kept to the front

    [removeData] closes the gaps that the removed records leave, in [data],
    [filters], the indexes of the dimensions and of the groups: a record that
    is kept moves to the place its rank among those kept says. *)

From S2P Require Import Prelude.
From S2P Require Import Arrays.
From S2P Require Import Sums.

Section rank.
Context (keep : Z -> bool).

(** The ids below [k] that are kept, and how many they are. *)
Definition kept (k : Z) : list Z := List.filter keep (seqZ 0 k).
Definition rank (k : Z) : Z := alen (kept k).

Lemma kept_succ k : 0 <= k -> kept (k + 1) = kept k ++ (if keep k then [k] else []).
Proof.
  intros Hk. unfold kept. rewrite seqZ_app, List.filter_app by lia. by f_equal.
Qed.

Lemma rank_0 : rank 0 = 0.
Proof. done. Qed.

Lemma rank_succ k : 0 <= k -> rank (k + 1) = rank k + (if keep k then 1 else 0).
Proof. intros Hk. unfold rank. rewrite kept_succ, alen_app by done. f_equal. by destruct (keep k). Qed.

Lemma rank_monotone i j : 0 <= i <= j -> rank i <= rank j.
Proof.
  intros [Hi Hj]. revert Hi. pattern j. apply (Zlt_lower_bound_ind _ i); [|done]. clear j Hj. intros j IH Hij Hi.
  destruct (decide (i = j)) as [->|]; [lia|]. specialize (IH (j - 1) ltac:(lia) Hi).
  replace j with (j - 1 + 1) by lia. rewrite rank_succ by lia. destruct (keep _); lia.
Qed.

Lemma rank_lt i j : 0 <= i < j -> keep i = true -> rank i < rank j.
Proof.
  intros Hi Hk. pose proof (rank_monotone (i + 1) j ltac:(lia)) as Hm. rewrite rank_succ, Hk in Hm by lia. lia.
Qed.

Lemma rank_bounds k : 0 <= k -> 0 <= rank k <= k.
Proof.
  intros Hk. split; [apply alen_nonneg|]. pattern k. apply (Zlt_lower_bound_ind _ 0); [|done]. clear k Hk. intros k IH Hk.
  destruct (decide (k = 0)) as [->|]; [done|]. specialize (IH (k - 1) ltac:(lia)).
  replace k with (k - 1 + 1) by lia. rewrite rank_succ by lia. destruct (keep _); lia.
Qed.

Lemma rank_inj i j : 0 <= i -> 0 <= j -> keep i = true -> keep j = true -> rank i = rank j -> i = j.
Proof.
  intros Hi Hj Hki Hkj E. destruct (Z.lt_trichotomy i j) as [Hlt|[|Hlt]]; [|done|].
  - pose proof (rank_lt i j ltac:(lia) Hki). lia.
  - pose proof (rank_lt j i ltac:(lia) Hkj). lia.
Qed.

(** The ranks of those kept are the numbers up to their count. *)
Lemma rank_kept n : 0 <= n -> rank <$> kept n = seqZ 0 (rank n).
Proof.
  intros Hn. pattern n. apply (Zlt_lower_bound_ind _ 0); [|done]. clear n Hn. intros n IH Hn.
  destruct (decide (n = 0)) as [->|]; [done|]. specialize (IH (n - 1) ltac:(lia)).
  replace n with (n - 1 + 1) by lia. rewrite kept_succ, rank_succ, fmap_app, IH by lia.
  pose proof (rank_bounds (n - 1) ltac:(lia)). destruct (keep (n - 1)); simpl; [|by rewrite app_nil_r, Z.add_0_r].
  by rewrite seqZ_app, Z.add_0_l by lia.
Qed.

Lemma rank_surj n p : 0 <= n -> 0 <= p < rank n -> exists k, 0 <= k < n /\ keep k = true /\ rank k = p.
Proof.
  intros Hn Hp. assert (p ∈ rank <$> kept n) as (k & -> & Hk)%list_elem_of_fmap by (rewrite rank_kept by done; apply elem_of_seqZ; lia).
  apply list_elem_of_In, filter_In in Hk as [Hk Hkk]. apply list_elem_of_In, elem_of_seqZ in Hk. exists k. split_and!; done || lia.
Qed.

(** A sum over the records kept, before and after. *)
Lemma zsum_rank (g h : Z -> Z) n :
  0 <= n -> (forall k, 0 <= k < n -> keep k = true -> g k = h (rank k)) ->
  zsum (fun k => when (keep k) (g k)) (seqZ 0 n) = zsum h (seqZ 0 (rank n)).
Proof.
  intros Hn Hg. rewrite <- rank_kept by done. rewrite zsum_fmap, <- zsum_filter. unfold kept. apply zsum_ext.
  intros k Hk. apply list_elem_of_In, filter_In in Hk as [Hk Hkk]. apply list_elem_of_In, elem_of_seqZ in Hk. apply Hg; [lia|done].
Qed.

(** ** Closing the gaps of an array in place *)

Section compact.
Context {A : Type} (f : A -> A) (a : list A).

(** The first [i] cells have been looked at. *)
Record compacting (i : Z) (a' : list A) : Prop := Compacting {
  cp_len : alen a' = alen a;
  cp_done : forall k, 0 <= k < i -> keep k = true -> aget a' (rank k) = f <$> aget a k;
  cp_rest : forall q, i <= q -> aget a' q = aget a q
}.

Lemma compacting_start : compacting 0 a.
Proof. split; [done| |done]. intros k Hk. lia. Qed.

Lemma compacting_skip i a' : compacting i a' -> keep i = false -> compacting (i + 1) a'.
Proof.
  intros [Hl Hd Hr] Hk. split; [done| |intros; apply Hr; lia]. intros k Hki Hkk. apply Hd; [|done].
  destruct (decide (k = i)) as [->|]; [congruence|lia].
Qed.

Lemma compacting_step i a' x :
  compacting i a' -> 0 <= i < alen a -> keep i = true -> aget a i = Some x -> compacting (i + 1) (aupd a' (rank i) (f x)).
Proof.
  intros [Hl Hd Hr] Hi Hk Hx. pose proof (rank_bounds i ltac:(lia)). split; [by rewrite alen_aupd| |].
  - intros k Hki Hkk. destruct (decide (k = i)) as [->|]; [rewrite aget_aupd_eq by lia; by rewrite Hx|].
    rewrite aget_aupd_ne; [apply Hd; [lia|done]|lia|]. intros E. pose proof (rank_lt k i ltac:(lia) Hkk). lia.
  - intros q Hq. rewrite aget_aupd_ne by lia. apply Hr. lia.
Qed.

(** The cell is in its place already. *)
Lemma compacting_same i a' : (forall x, f x = x) -> compacting i a' -> 0 <= i -> rank i = i -> compacting (i + 1) a'.
Proof.
  intros Hf [Hl Hd Hr] Hi E. split; [done| |intros; apply Hr; lia]. intros k Hki Hkk.
  destruct (decide (k = i)) as [->|]; [|apply Hd; [lia|done]]. rewrite E, Hr by lia. destruct (aget a i); simpl; [by rewrite Hf|done].
Qed.

(** What is at the front in the end. *)
Lemma compacted n a' p :
  0 <= n -> compacting n a' -> 0 <= p < rank n -> exists k, 0 <= k < n /\ keep k = true /\ rank k = p /\ aget a' p = f <$> aget a k.
Proof.
  intros Hn Hc Hp. destruct (rank_surj n p Hn Hp) as (k & Hk & Hkk & <-). exists k. split_and!; try done; try lia.
  by apply (cp_done _ _ Hc).
Qed.
End compact.

(** Those kept are at the places of their ranks. *)
Lemma kept_lookup n i k : 0 <= n -> kept n !! i = Some k -> 0 <= k < n /\ keep k = true /\ rank k = Z.of_nat i.
Proof.
  intros Hn Hk. pose proof (list_elem_of_lookup_2 _ _ _ Hk) as [Hin Hkk]%list_elem_of_In%filter_In.
  apply list_elem_of_In, elem_of_seqZ in Hin. split; [lia|]. split; [done|].
  pose proof (lookup_lt_Some _ _ _ Hk) as Hlt. pose proof (f_equal (fun l => l !! i) (rank_kept n Hn)) as E. simpl in E.
  rewrite list_lookup_fmap, Hk, lookup_seqZ_lt in E by (unfold rank, alen; lia). injection E as ->. lia.
Qed.

Lemma kept_slice {A} (f : A -> A) (a a' : list A) n :
  0 <= n <= alen a -> compacting f a n a' -> Some <$> slice a' 0 (rank n) = (fun k => f <$> aget a k) <$> kept n.
Proof.
  intros [Hn Hl] Hc. pose proof (rank_bounds n Hn) as Hr. pose proof (cp_len _ _ _ _ Hc) as Hl'.
  apply list_eq. intros i. rewrite !list_lookup_fmap. destruct (kept n !! i) as [k|] eqn:Hk; simpl.
  - pose proof (lookup_lt_Some _ _ _ Hk) as Hlt. destruct (kept_lookup n i k Hn Hk) as (Hkn & Hkk & Erk).
    pose proof (slice_lookup a' 0 (rank n) (Z.of_nat i) ltac:(lia) ltac:(unfold rank, alen; lia)) as E.
    rewrite Nat2Z.id, Z.add_0_l in E. rewrite E, <- Erk, (cp_done _ _ _ _ Hc) by done.
    destruct (aget_is_Some a k) as [x ->]; [lia|done].
  - apply lookup_ge_None in Hk. pose proof (alen_slice a' 0 (rank n) ltac:(lia) ltac:(lia)) as El.
    assert (slice a' 0 (rank n) !! i = None) as ->; [|done]. apply lookup_ge_None. unfold rank, alen in *. lia.
Qed.
End rank.

Lemma kept_ext p q n : (forall k, 0 <= k < n -> p k = q k) -> kept p n = kept q n.
Proof.
  intros He. unfold kept. assert (forall l, (forall k, k ∈ l -> p k = q k) -> List.filter p l = List.filter q l) as Hl.
  { induction l as [|k l IH]; intros Hk; [done|]. simpl. rewrite (Hk k) by left. rewrite IH; [done|]. intros k' ?. apply Hk. by right. }
  apply Hl. intros k Hk%elem_of_seqZ. apply He. lia.
Qed.

(** Keeping an index is keeping what is stored there. *)
Section stored.
Context {A : Type} (p : A -> bool) (a : list A).
Definition stored (i : Z) : bool := match aget a i with Some x => p x | None => false end.

Lemma slice_aget n : 0 <= n <= alen a -> Some <$> slice a 0 n = aget a <$> seqZ 0 n.
Proof.
  intros Hn. apply list_eq. intros i. rewrite !list_lookup_fmap. destruct (decide (Z.of_nat i < n)) as [Hi|Hi].
  - rewrite lookup_seqZ_lt by lia. pose proof (slice_lookup a 0 n (Z.of_nat i) ltac:(lia) ltac:(lia)) as E.
    rewrite Nat2Z.id in E. simpl. rewrite E. destruct (aget_is_Some a (0 + Z.of_nat i)) as [x ->]; [lia|done].
  - rewrite lookup_seqZ_ge by lia. pose proof (alen_slice a 0 n ltac:(lia) ltac:(lia)) as El.
    assert (slice a 0 n !! i = None) as ->; [|done]. apply lookup_ge_None. unfold alen in *. lia.
Qed.

Lemma filter_stored ids l : Some <$> l = aget a <$> ids -> Some <$> List.filter p l = aget a <$> List.filter stored ids.
Proof.
  revert l. induction ids as [|i ids IH]; intros [|x l] E; try done. rewrite !fmap_cons in E. injection E as Ex El.
  specialize (IH l El). simpl. unfold stored at 1. rewrite <- Ex. destruct (p x); [|done]. rewrite !fmap_cons. by f_equal.
Qed.

Lemma kept_stored n : 0 <= n <= alen a -> Some <$> List.filter p (slice a 0 n) = aget a <$> kept stored n.
Proof. intros Hn. apply filter_stored. by apply slice_aget. Qed.

Lemma rank_stored n : 0 <= n <= alen a -> rank stored n = alen (List.filter p (slice a 0 n)).
Proof. intros Hn. pose proof (f_equal length (kept_stored n Hn)) as E. rewrite !length_fmap in E. unfold rank, alen. lia. Qed.

Lemma compacted_filter (f : A -> A) a' n :
  0 <= n <= alen a -> compacting stored f a n a' -> slice a' 0 (rank stored n) = f <$> List.filter p (slice a 0 n).
Proof.
  intros Hn Hc. apply (inj (fmap Some)).
  rewrite (kept_slice stored f a a' n Hn Hc). transitivity (fmap f <$> (aget a <$> kept stored n)); [by rewrite <- list_fmap_compose|].
  by rewrite <- (kept_stored n Hn), <- !list_fmap_compose.
Qed.
End stored.
