(* ===== verification/CfRemove.v ===== *)
(** * crossfilter: removing records from the values of groups

    The first half of [remove]: the selected records get no new place, the
    others the place of their rank; every listener subtracts the removed
    records from the values it keeps. *)

From S2P Require Import Prelude.
From S2P Require Import Arrays.
From S2P Require Import Sums.
From S2P Require Import CfArray.
From S2P Require Import CfBits.
From S2P Require Import CfCore.
From S2P Require Import CfInv.
From S2P Require Import CfMerge.
From S2P Require Import CfGroups.
From S2P Require Import CfShape.
From S2P Require Import CfGroupAdd.
From S2P Require Import CfLinks.
From S2P Require Import CfRank.

(** Which records are kept: those that some filter leaves out. *)
Definition keep (fl : tarr) (k : Z) : bool :=
  match aget (tcells fl) k with Some x => truthy x | None => false end.

(** The removed ids among the first [n]. *)
Definition dropped (fl : tarr) (n : Z) : list Z := List.filter (fun k => negb (keep fl k)) (seqZ 0 n).

Lemma elem_of_dropped fl n k : k ∈ dropped fl n <-> 0 <= k < n /\ keep fl k = false.
Proof.
  unfold dropped. rewrite list_elem_of_In, filter_In, <- list_elem_of_In, elem_of_seqZ, negb_true_iff.
  split; intros [? ?]; split; done || lia.
Qed.

(** The filters with all bits of the removed records set, so that no mask lets
    them pass. *)
Definition masked (fl : tarr) (n : Z) : tarr :=
  TArr (tkind fl) ((fun k => match aget (tcells fl) k with Some x => if truthy x then x else -1 | None => 0 end) <$> seqZ 0 n).

Lemma unmasked_masked fl n mask k :
  0 <= k < n -> n <= tlen fl -> (exists b, 0 <= b < 32 /\ Z.testbit mask b = true) ->
  unmasked (masked fl n) mask k = keep fl k && unmasked fl mask k.
Proof.
  intros Hk Hn (b & Hb & Hm). unfold tlen in Hn. destruct (aget_is_Some (tcells fl) k) as [x Hx]; [lia|].
  unfold unmasked, keep. rewrite Hx.
  assert (aget (tcells (masked fl n)) k = Some (if truthy x then x else -1)) as ->.
  { unfold aget at 1. destruct (Z.leb_spec 0 k); [|lia]. simpl. rewrite list_lookup_fmap, lookup_seqZ_lt by lia. simpl.
    replace (0 + Z.of_nat (Z.to_nat k)) with k by lia. by rewrite Hx. }
  destruct (truthy x); [done|]. apply Z.eqb_neq. rewrite and_zero_bits. intros Hall. specialize (Hall b Hb).
  by rewrite Z.bits_m1, Hm in Hall by lia.
Qed.

(** Sums without the removed records. *)
Lemma total_masked fl n mask g :
  n <= tlen fl -> (exists b, 0 <= b < 32 /\ Z.testbit mask b = true) ->
  total g (masked fl n) mask (seqZ 0 n) = total g fl mask (seqZ 0 n) - total g fl mask (dropped fl n).
Proof.
  intros Hn Hm. unfold total, dropped. rewrite zsum_filter.
  assert (forall a b c, a + c = b -> a = b - c) as Hmove by lia. apply Hmove. rewrite <- zsum_add. apply zsum_ext.
  intros k Hk%elem_of_seqZ. rewrite unmasked_masked by (done || lia). by destruct (keep fl k), (unmasked fl mask k); simpl; lia.
Qed.

Lemma total_masked_rank fl n mask g h fl' :
  0 <= n -> n <= tlen fl -> (exists b, 0 <= b < 32 /\ Z.testbit mask b = true) ->
  (forall k, 0 <= k < n -> keep fl k = true -> unmasked fl' mask (rank (keep fl) k) = unmasked fl mask k
     /\ h (rank (keep fl) k) = g k) ->
  total g (masked fl n) mask (seqZ 0 n) = total h fl' mask (seqZ 0 (rank (keep fl) n)).
Proof.
  intros Hn0 Hn Hm Hk. unfold total. rewrite <- (zsum_rank (keep fl) (fun k => when (unmasked fl mask k) (g k))).
  - apply zsum_ext. intros k Hk'%elem_of_seqZ. rewrite unmasked_masked by (done || lia). by destruct (keep fl k).
  - done.
  - intros k Hk' Hkk. by destruct (Hk k Hk' Hkk) as [-> ->].
Qed.

Section remove.
Context {R X : Type} `{JsOrdLaws X} (typed : bool).
Abbreviation cf := (@CfCore.cf R X).
Abbreviation dim := (@CfCore.dim R X).
Abbreviation grp := (@CfCore.grp R X).
Implicit Types (c : cf) (d : dim) (g : grp) (fl : tarr).

(** ** The new places *)

Definition places c (newIndex : tarr) : Prop :=
  forall k, 0 <= k < n c -> keep (filters c) k = true -> aget (tcells newIndex) k = Some (rank (keep (filters c)) k).

Lemma places_wp c :
  base_ok typed c ->
  wp (for_ 0 (n c) (fun i '(newIndex, removed, j) =>
        x ← trd (filters c) i;
        if truthy x then newIndex ← twr newIndex i j; Ret (newIndex, removed, j + 1)
        else Ret (newIndex, removed ++ [i], j)) (crossfilter_index typed (n c) (n c), [], 0))
     (fun '(newIndex, removed, j) => places c newIndex /\ removed = dropped (filters c) (n c)).
Proof.
  intros Hb. pose proof (bk_small _ _ Hb). pose proof (bk_nonneg _ _ Hb) as Hn. set (r := rank (keep (filters c))).
  set (kd := tkind (crossfilter_index typed (n c) (n c))). eapply wp_mono.
  - apply (wp_for (fun i '(newIndex, removed, j) => j = r i /\ removed = dropped (filters c) i /\ tkind newIndex = kd /\
      alen (tcells newIndex) = n c /\
      forall k, 0 <= k < i -> keep (filters c) k = true -> aget (tcells newIndex) k = Some (r k))); [done| |].
    + split_and!; try done; [rewrite index_cells, alen_zeros; lia|]. intros k Hk. lia.
    + intros i [[newIndex removed] j] Hi (-> & -> & Hkd & Hl & Hdone).
      destruct (aget_is_Some (tcells (filters c)) i) as [x Hx].
      { pose proof (bk_len _ _ Hb). unfold tlen in *. lia. }
      unfold trd. rewrite (rd_Some _ _ _ Hx). cbn [mbind js_bind].
      assert (keep (filters c) i = truthy x) as Hk by (unfold keep; by rewrite Hx).
      assert (dropped (filters c) (i + 1) = dropped (filters c) i ++ (if truthy x then [] else [i])) as Hd.
      { unfold dropped. rewrite seqZ_app, List.filter_app by lia. f_equal. rewrite Z.add_0_l, seqZ_cons by lia. simpl.
        rewrite Hk. by destruct (truthy x). }
      assert (r (i + 1) = r i + (if truthy x then 1 else 0)) as Hr by (unfold r; by rewrite rank_succ, Hk by lia).
      destruct (truthy x).
      * unfold twr. apply wp_bind, wp_bind, wp_wr; [lia|]. apply wp_Ret, wp_Ret. pose proof (rank_bounds (keep (filters c)) i ltac:(lia)).
        assert (tstore (tkind newIndex) (r i) = r i) as -> by (rewrite Hkd; apply index_fits; unfold r; lia).
        rewrite Hd, app_nil_r, Hr. split_and!; try done; [simpl; by rewrite alen_aupd|]. intros k Hk' Hkk. simpl.
        destruct (decide (k = i)) as [->|]; [by rewrite aget_aupd_eq by lia|]. rewrite aget_aupd_ne by lia. apply Hdone; [lia|done].
      * apply wp_Ret. rewrite Hd, Hr, Z.add_0_r. split_and!; try done. intros k Hk' Hkk. apply Hdone; [|done].
        destruct (decide (k = i)) as [->|]; [congruence|lia].
  - intros [[newIndex removed] j] (_ & -> & _ & _ & Hdone). done.
Qed.

(** ** The values of groups *)

Section values.
Context c (Hbase : base_ok typed c).
Abbreviation fl := (filters c).
Let fl' := masked fl (n c).
Let D := dropped fl (n c).

Lemma dropped_read k : k ∈ D -> 0 <= k < n c /\ exists x r, aget (tcells fl) k = Some x /\ aget (data c) k = Some r.
Proof.
  intros [Hk _]%elem_of_dropped. split; [done|]. destruct (aget_is_Some (tcells fl) k) as [x Hx].
  { pose proof (bk_len _ _ Hbase). unfold tlen in *. lia. }
  destruct (aget_is_Some (data c) k) as [r Hr]; [by rewrite <- (bk_n _ _ Hbase)|]. eauto.
Qed.

Lemma groupAll_dropped_wp aid a :
  galls c !! aid = Some a -> gall_ok c fl a ->
  wp (groupAll_update c aid 0 [] D) (fun c' => exists a', c' = put_gall c aid a' /\ gall_ok c fl' a').
Proof.
  intros Ha (w & Hw & Hv). unfold groupAll_update, the_gall. rewrite Ha. simpl.
  destruct (a_resetNeeded a) eqn:Hreset.
  { exists a. split; [unfold put_gall, set_galls; rewrite list_insert_id by done; by destruct c|].
    exists w. split; [done|]. by rewrite Hreset. }
  specialize (Hv eq_refl). rewrite Hv. set (v0 := reduceInitial (a_reduce a) + _). set (amt := amount (data c) w).
  apply wp_bind. eapply wp_mono.
  - apply (wp_for_each (fun l v => v = Some (v0 - total amt fl (-1) l)) D); [unfold total; simpl; f_equal; lia|].
    intros l1 k l2 v HE ->. assert (k ∈ D) as Hk by (rewrite HE; apply elem_of_app; right; left).
    destruct (dropped_read k Hk) as (_ & x & r & Hx & Hr). apply elem_of_dropped in Hk as [_ Hk]. unfold keep in Hk. rewrite Hx in Hk.
    unfold truthy in Hk. apply negb_false_iff, Z.eqb_eq in Hk as ->.
    unfold trd. rewrite (rd_Some _ _ _ Hx). simpl. rewrite (rd_Some _ _ _ Hr). simpl.
    rewrite (proj2 (Hw _ _)), (total_snoc _ _ _ _ _ _ Hx). rewrite (amount_Some _ _ _ _ Hr : amt k = w r). simpl. f_equal. lia.
  - intros v ->. eexists. split; [done|]. exists w. split; [done|]. intros _. simpl. f_equal. unfold v0, fl'.
    rewrite total_masked; [fold amt D; lia|apply (bk_len _ _ Hbase)|]. exists 0. by split; [lia|].
Qed.

(** The loop over the removed records in [updateMany] and [updateOne]. *)
Lemma update_dropped g w (keys : list X) (h : Z -> Z) mask (idx : Z -> js Z) gs :
  lawful (g_reduce g) w -> alen keys = g_k g ->
  (forall k, 0 <= k < n c -> idx k = Ret (groupof g k) /\ 0 <= groupof g k < g_k g) ->
  gs_vals keys gs h ->
  wp (for_each D (fun k gs =>
        x ← trd fl k;
        if js_and x mask =? 0 then
          i ← idx k;
          e ← rd gs i;
          r ← rd (data c) k;
          wr gs i (reduce_kv (reduceRemove (g_reduce g)) e r)
        else Ret gs) gs)
     (fun gs' => gs_vals keys gs' (fun i => h i - total (share c g w i) fl mask D)).
Proof.
  intros Hw HA Hidx Hg. apply (wp_for_each (fun l gs => gs_vals keys gs (fun i => h i - total (share c g w i) fl mask l)) D).
  { eapply gs_vals_ext; [done|]. intros i _. unfold total. simpl. lia. }
  intros l1 k l2 gs' HE Hg'. destruct (dropped_read k) as (Hk & x & r & Hx & Hr); [rewrite HE; apply elem_of_app; right; left|].
  destruct (Hidx k Hk) as [Hi Hb']. unfold trd. rewrite (rd_Some _ _ _ Hx). simpl.
  destruct (Z.eqb_spec (js_and x mask) 0) as [E|E].
  - rewrite Hi. simpl. eapply wp_mono.
    + eapply (reduce_step c keys gs' _ (groupof g k) k r _ (- w r)); try done.
      * rewrite (gs_vals_alen _ _ _ Hg'). lia.
      * intros v. rewrite (proj2 (Hw v r)). lia.
    + intros gs2 Hg2. eapply gs_vals_ext; [exact Hg2|]. intros i _. simpl.
      rewrite (total_snoc _ _ _ _ _ _ Hx), E, Z.eqb_refl. unfold share at 3.
      rewrite (amount_Some _ _ _ _ Hr). unfold when. destruct (groupof g k =? i); lia.
  - eapply gs_vals_ext; [done|]. intros i _. rewrite (total_snoc _ _ _ _ _ _ Hx).
    destruct (Z.eqb_spec (js_and x mask) 0); [done|]. simpl. lia.
Qed.

Lemma mask_bit b0 : 0 <= b0 < 32 -> exists b, 0 <= b < 32 /\ Z.testbit (js_not (bit_one b0)) b = true.
Proof.
  intros Hb. exists (if b0 =? 0 then 1 else 0). assert (0 <= (if b0 =? 0 then 1 else 0) < 32) as Hr by (case_match; lia).
  split; [done|]. rewrite testbit_js_not, testbit_bit_one by lia. rewrite bool_decide_false; [done|]. destruct (Z.eqb_spec b0 0); lia.
Qed.

Lemma group_dropped gid g d b0 w gs :
  index_ok c gid g -> keyed c g -> g_k g = alen (g_groups g) -> dims c !! g_dim g = Some d ->
  0 <= b0 < 32 -> d_one d = bit_one b0 -> d_zero d = js_not (bit_one b0) -> lawful (g_reduce g) w ->
  gs_vals (kv_key <$> g_groups g) gs (fun i =>
    reduceInitial (g_reduce g) + total (share c g w i) fl (d_zero d) (seqZ 0 (n c)) - total (share c g w i) fl (d_zero d) D) ->
  grp_ok c fl' gid (with_groups g gs).
Proof.
  intros Hi Hky Hk Hd Hb0 Hone Hzero Hw Hg. pose proof (gs_vals_alen _ _ _ Hg) as Hl.
  assert (alen gs = alen (g_groups g)) as Hl' by (rewrite Hl; unfold alen; by rewrite length_fmap).
  split; [done|by apply (keyed_ext c); eauto; apply Hg|simpl; by rewrite Hl'|]. exists d, b0, w. split_and!; try done; try lia.
  intros _. simpl. destruct Hg as [Hkeys Hv]. rewrite Hkeys. split; [done|]. intros i e He. rewrite (Hv i e He). f_equal.
  change (share c (with_groups g gs) w i) with (share c g w i). unfold fl'.
  rewrite total_masked; [fold D; lia|apply (bk_len _ _ Hbase)|]. rewrite Hzero. by apply mask_bit.
Qed.

Lemma update_dropped_wp gid g :
  grps c !! gid = Some g -> grp_ok c fl gid g ->
  wp (run_filterListener 0 [] D (g_update g) c) (fun c' => exists g',
    c' = put_grp c gid g' /\ grp_ok c fl' gid g' /\ g_update g' = g_update g).
Proof.
  intros Hg Hok. pose proof Hok as [Hi Hky Hk (d & b0 & w & Hd & Hb0 & Hone & Hzero & Hw & Hv)].
  assert (c = put_grp c gid g) as Esame by (unfold put_grp, set_grps; rewrite list_insert_id by done; by destruct c).
  assert (d_one d <> 0) as Hnz.
  { rewrite Hone. intros E. pose proof (testbit_bit_one b0 b0 ltac:(lia) ltac:(lia)) as Hb. rewrite E, Z.bits_0, bool_decide_true in Hb; done. }
  assert (g_resetNeeded g = true -> wp (Ret c) (fun c' => exists g',
    c' = put_grp c gid g' /\ grp_ok c fl' gid g' /\ g_update g' = g_update g)) as Hskip.
  { intros Hr. exists g. split_and!; [done| |done]. split; try done. exists d, b0, w. split_and!; try done; try lia. by rewrite Hr. }
  assert (alen (kv_key <$> g_groups g) = g_k g) as Hak by (unfold alen in *; by rewrite length_fmap).
  assert ((0 =? d_one d) = false) as Hne by (apply Z.eqb_neq; lia).
  unfold index_ok in Hi. destruct (g_update g) as [|gid'|gid'|aid] eqn:Hu; cbn [run_filterListener].
  - exists g. split; [done|]. split; [split; [unfold index_ok; by rewrite Hu|done|done|]|done].
    exists d, b0, w. split_and!; try done; try lia. intros Hr. split; [done|]. intros i e He%aget_Some. lia.
  - destruct Hi as (-> & Hk1 & t & Ht & Hti). unfold updateMany, the_grp, the_dim. rewrite Hg. cbn [mbind js_bind]. rewrite Hd. cbn [mbind js_bind].
    rewrite Hne. cbn [orb]. destruct (g_resetNeeded g) eqn:Hr; [by apply Hskip|].
    cbn [for_each mbind js_bind]. apply wp_bind. eapply wp_mono; [eapply (update_dropped g w _ _ (d_zero d) (group_index_of g)); try done; [|by apply Hv]|].
    { intros k Hkn. unfold group_index_of, groupof, trd. rewrite Ht.
      destruct (Hti k Hkn) as (i & Hti' & Hib). rewrite Hti'. simpl. by rewrite (rd_Some _ _ _ Hti'). }
    intros gs Hgs. exists (with_groups g gs). split_and!; [done| |done]. eapply group_dropped; try done.
    unfold index_ok. rewrite Hu. eauto.
  - destruct Hi as (-> & Hk1 & Hnone). unfold updateOne, the_grp, the_dim. rewrite Hg. cbn [mbind js_bind]. rewrite Hd. cbn [mbind js_bind].
    rewrite Hne. cbn [orb]. destruct (g_resetNeeded g) eqn:Hr; [by apply Hskip|].
    cbn [for_each mbind js_bind]. apply wp_bind. eapply wp_mono; [eapply (update_dropped g w _ _ (d_zero d) (fun _ => Ret 0)); try done; [|by apply Hv]|].
    { intros k Hkn. unfold groupof. rewrite Hnone. split; [done|lia]. }
    intros gs Hgs. exists (with_groups g gs). split_and!; [done| |done]. eapply group_dropped; try done.
    unfold index_ok. rewrite Hu. eauto.
  - done.
Qed.
End values.

(** Every listener has subtracted the removed records. *)
Lemma notify_dropped_wp c :
  base_ok typed c -> groups_ok typed c -> links typed c ->
  wp (notify_filter c 0 [] (dropped (filters c) (n c))) (fun c' =>
    same_core c c' /\ filterListeners c' = filterListeners c /\ length (galls c') = length (galls c) /\ links typed c' /\
    forall l, l ∈ filterListeners c -> listener_ok c' (masked (filters c) (n c)) l).
Proof.
  intros Hb [Hok Hnd _ _ _] Hl.
  assert (wp (notify_filter c 0 [] (dropped (filters c) (n c))) (fun c' =>
    same_core c c' /\ filterListeners c' = filterListeners c /\ length (galls c') = length (galls c) /\
    forall l, l ∈ filterListeners c -> listener_ok c' (masked (filters c) (n c)) l)) as Hw.
  { apply (notify_each c (filters c)); [done|done|]. intros l c' Hl' Hcore Hlok.
    assert (base_ok typed c') as Hb'.
    { destruct Hcore as [Ed En Em EM Ef _ _ _], Hb. split; rewrite ?Ed, ?En, ?Em, ?EM, ?Ef; done. }
    destruct Hcore as [_ En _ _ Ef _ _ _]. rewrite <- Ef, <- En in *. destruct l as [|gid|gid|aid].
    - by split_and!.
    - destruct Hlok as (g & Hg & Hu & Hgok). rewrite <- Hu at 1. eapply wp_mono; [by apply update_dropped_wp|].
      intros c2 (g' & -> & Hok' & Hu'). apply (told_grp c' gid g); auto.
    - destruct Hlok as (g & Hg & Hu & Hgok). rewrite <- Hu at 1. eapply wp_mono; [by apply update_dropped_wp|].
      intros c2 (g' & -> & Hok' & Hu'). apply (told_grp c' gid g); auto.
    - destruct Hlok as (a & Ha & Haok). eapply wp_mono; [by eapply groupAll_dropped_wp|].
      intros c2 (a' & -> & Hok'). by apply (told_gall c' aid a). }
  destruct (wp_elim _ _ Hw) as (c' & E & ? & ? & ? & ?). rewrite E. simpl. split_and!; try done.
  apply (for_each_ret (links typed) _ _ _ _ E Hl). intros l s s'. apply run_filterListener_links.
Qed.
End remove.
