(* ===== verification/CfRegroup.v ===== *)
(** * crossfilter: closing the gaps in a group and in a dimension

    The [removeData] of a group keeps the groups that still have records and
    numbers them anew; that of a dimension closes the gaps in its sorted values
    and ids.  [shrunk] says what the state is going to be when the records
    themselves have moved. *)

From stdpp Require Import sorting.
From S2P Require Import Prelude.
From S2P Require Import Arrays.
From S2P Require Import Sums.
From S2P Require Import CfBisect.
From S2P Require Import CfArray.
From S2P Require Import CfBits.
From S2P Require Import CfCore.
From S2P Require Import CfInv.
From S2P Require Import CfFilter.
From S2P Require Import CfTop.
From S2P Require Import CfMerge.
From S2P Require Import CfGroups.
From S2P Require Import CfAdd.
From S2P Require Import CfGroupTake.
From S2P Require Import CfGroupAdd.
From S2P Require Import CfLinks.
From S2P Require Import CfGroupUse.
From S2P Require Import CfRank.
From S2P Require Import CfRemove.

Section regroup.
Context {R X : Type} `{JsOrdLaws X} (typed : bool).
Abbreviation cf := (@CfCore.cf R X).
Abbreviation dim := (@CfCore.dim R X).
Abbreviation grp := (@CfCore.grp R X).
Abbreviation kv := (@CfCore.kv X).
Implicit Types (c ct : cf) (d : dim) (g : grp) (fl : tarr).

(** [ct] has the records of [c] that are kept, each at its rank. *)
Record shrunk c ct : Prop := Shrunk {
  sh_n : n ct = rank (keep (filters c)) (n c);
  sh_len : alen (data ct) = n ct;
  sh_data : forall k, 0 <= k < n c -> keep (filters c) k = true ->
    aget (data ct) (rank (keep (filters c)) k) = aget (data c) k;
  sh_cells : forall k, 0 <= k < n c -> keep (filters c) k = true ->
    aget (tcells (filters ct)) (rank (keep (filters c)) k) = aget (tcells (filters c)) k;
  sh_dims : forall did d, dims c !! did = Some d -> exists d', dims ct !! did = Some d'
     /\ d_value d' = d_value d /\ d_one d' = d_one d /\ d_zero d' = d_zero d
}.

Section group.
Context c ct (Hbase : base_ok typed c) (Hsh : shrunk c ct).
Abbreviation kp := (keep (filters c)).
Abbreviation rk := (rank (keep (filters c))).

Lemma shrunk_at p : 0 <= p < n ct -> exists k, 0 <= k < n c /\ kp k = true /\ rk k = p.
Proof. intros Hp. rewrite (sh_n _ _ Hsh) in Hp. apply rank_surj; [by eapply bk_nonneg|done]. Qed.

Lemma rank_kept_lt k : 0 <= k < n c -> kp k = true -> 0 <= rk k < n ct.
Proof.
  intros Hk Hkk. rewrite (sh_n _ _ Hsh). pose proof (rank_bounds kp k ltac:(lia)). pose proof (rank_lt kp k (n c) Hk Hkk). lia.
Qed.

(** The groups [g'] are those of [g] that have records still, group [i] as
    number [gr i]. *)
Record regrouped g g' (gr : Z -> Z) : Prop := Regrouped {
  rg_dim : g_dim g' = g_dim g;
  rg_key : g_key g' = g_key g;
  rg_reduce : g_reduce g' = g_reduce g;
  rg_reset : g_resetNeeded g' = g_resetNeeded g;
  rg_k : g_k g' = alen (g_groups g');
  rg_at : forall k, 0 <= k < n c -> kp k = true -> groupof g' (rk k) = gr (groupof g k) /\
    aget (g_groups g') (gr (groupof g k)) = aget (g_groups g) (groupof g k);
  rg_inj : forall k k', 0 <= k < n c -> kp k = true -> 0 <= k' < n c -> kp k' = true ->
    gr (groupof g k) = gr (groupof g k') -> groupof g k = groupof g k';
  rg_used : forall i, 0 <= i < alen (g_groups g') -> exists k, 0 <= k < n c /\ kp k = true /\ gr (groupof g k) = i;
  rg_sorted : StronglySorted (fun x y => (x <. y) = true) (kv_key <$> g_groups g')
}.

Lemma regrouped_keyed g g' gr :
  keyed c g -> (exists d, dims c !! g_dim g = Some d) -> regrouped g g' gr -> keyed ct g'.
Proof.
  intros [Hs Hg Hu] [d Hd] [Ed Ek _ _ _ Hat _ Hused Hsorted]. destruct (sh_dims _ _ Hsh _ _ Hd) as (d' & Hd' & Ev & _).
  split; [done| |].
  - intros p r d2 Hr Hd2. rewrite Ed, Hd' in Hd2. injection Hd2 as <-. pose proof (aget_Some _ _ _ Hr) as Hp.
    rewrite (sh_len _ _ Hsh) in Hp. destruct (shrunk_at p Hp) as (k & Hk & Hkk & <-).
    rewrite (sh_data _ _ Hsh k Hk Hkk) in Hr. destruct (Hg k r d Hr Hd) as (e & He & Hsk). destruct (Hat k Hk Hkk) as [-> Heq].
    exists e. rewrite Heq, Ek, Ev. done.
  - intros i Hi. destruct (Hused i Hi) as (k & Hk & Hkk & E). exists (rk k). split; [by apply rank_kept_lt|].
    by destruct (Hat k Hk Hkk) as [-> _].
Qed.

Lemma regrouped_ok gid g g' gr :
  grp_ok c (masked (filters c) (n c)) gid g -> regrouped g g' gr -> index_ok ct gid g' -> grp_ok ct (filters ct) gid g'.
Proof.
  intros [_ Hky _ (d & b0 & w & Hd & Hb0 & Hone & Hz & Hw & Hv)] Hrg Hi.
  pose proof (regrouped_keyed g g' gr Hky ltac:(eauto) Hrg) as Hky'. destruct Hrg as [Ed Ek Er Ers Hk Hat Hinj Hused Hsorted].
  destruct (sh_dims _ _ Hsh _ _ Hd) as (d' & Hd' & Ev & Eo & Ez). split; [done..|].
  exists d', b0, w. rewrite Ed, Er, Ers, Eo, Ez. split_and!; try done; try lia. intros Hr. split; [done|]. intros i e He.
  destruct (Hused i) as (k0 & Hk0 & Hkk0 & <-); [by eapply aget_Some|]. destruct (Hat k0 Hk0 Hkk0) as [_ Heq]. rewrite Heq in He.
  rewrite (proj2 (Hv Hr) _ _ He). do 2 f_equal. rewrite (sh_n _ _ Hsh). apply total_masked_rank.
  - by eapply bk_nonneg.
  - apply Hbase.
  - rewrite Hz. by apply mask_bit.
  - intros k Hk' Hkk. split; [unfold unmasked; by rewrite (sh_cells _ _ Hsh)|]. unfold share, amount.
    rewrite (sh_data _ _ Hsh) by done. f_equal. destruct (Hat k Hk' Hkk) as [-> _].
    destruct (Z.eqb_spec (gr (groupof g k)) (gr (groupof g k0))) as [E|E], (Z.eqb_spec (groupof g k) (groupof g k0)) as [E'|E']; try done.
    + exfalso. apply E'. by apply Hinj.
    + exfalso. apply E. by rewrite E'.
Qed.

(** ** [removeData] of a group *)

Section loops.
Context g.

(** The groups of the records kept among the first [i]. *)
Definition seen (i y : Z) : bool := existsb (fun k => kp k && (groupof g k =? y)) (seqZ 0 i).

Lemma seen_spec i y : seen i y = true <-> exists k, 0 <= k < i /\ kp k = true /\ groupof g k = y.
Proof.
  unfold seen. rewrite existsb_exists. split.
  - intros (k & Hk%list_elem_of_In%elem_of_seqZ & [Hkk Hy%Z.eqb_eq]%andb_true_iff). exists k. split_and!; done || lia.
  - intros (k & Hk & Hkk & Hy). exists k. split; [apply list_elem_of_In, elem_of_seqZ; lia|]. by rewrite Hkk, Hy, Z.eqb_refl.
Qed.

Lemma seen_succ i y : 0 <= i -> seen (i + 1) y = seen i y || (kp i && (groupof g i =? y)).
Proof. intros Hi. unfold seen. rewrite seqZ_app, existsb_app by lia. f_equal. simpl. by rewrite orb_false_r. Qed.

Context (t : tarr) (wd : Z).
Context (Ht : g_groupIndex g = Some t) (Hfits : fits typed wd t) (Hw : width_range wd) (Hk0 : 0 <= g_k g < 2 ^ wd).
Context (Hcells : forall k, 0 <= k < n c -> exists i, aget (tcells t) k = Some i /\ 0 <= i < g_k g).

Definition seen_cells (i : Z) (seenGroups : tarr) : Prop :=
  tkind seenGroups = tkind (crossfilter_index typed (g_k g) (g_k g)) /\ alen (tcells seenGroups) = g_k g /\
  forall y, 0 <= y < g_k g -> aget (tcells seenGroups) y = Some (if seen i y then 1 else 0).

Lemma mark_seen_wp :
  wp (for_ 0 (n c) (fun i '(groupIndex, seenGroups, j) =>
        x ← trd (filters c) i;
        if truthy x then
          y ← trd groupIndex i;
          groupIndex ← twr groupIndex j y;
          seenGroups ← twr seenGroups y 1;
          Ret (groupIndex, seenGroups, j + 1)
        else Ret (groupIndex, seenGroups, j)) (t, crossfilter_index typed (g_k g) (g_k g), 0))
     (fun '(groupIndex, seenGroups, j) => j = rk (n c) /\ fits typed wd groupIndex /\
        compacting kp (fun x => x) (tcells t) (n c) (tcells groupIndex) /\ seen_cells (n c) seenGroups).
Proof.
  pose proof (bk_nonneg _ _ Hbase) as Hn. eapply wp_mono.
  - apply (wp_for (fun i '(groupIndex, seenGroups, j) => j = rk i /\ fits typed wd groupIndex /\
      compacting kp (fun x => x) (tcells t) i (tcells groupIndex) /\ seen_cells i seenGroups)); [done| |].
    + split_and!; [done|done|apply compacting_start|]. split; [done|]. rewrite index_cells, alen_zeros. split; [lia|].
      intros y Hy. destruct (aget_is_Some (zeros (g_k g)) y) as [x Hx]; [rewrite alen_zeros; lia|].
      rewrite Hx. by apply aget_zeros in Hx as ->.
    + intros i [[groupIndex seenGroups] j] Hi (-> & Hf & Hc & Hs & Hsl & Hsc).
      destruct (aget_is_Some (tcells (filters c)) i) as [x Hx].
      { pose proof (bk_len _ _ Hbase). unfold tlen in *. lia. }
      unfold trd. rewrite (rd_Some _ _ _ Hx). cbn [mbind js_bind].
      assert (kp i = truthy x) as Hk by (unfold keep; by rewrite Hx). rewrite <- Hk. rewrite rank_succ by lia.
      destruct (kp i) eqn:Hki.
      * destruct (Hcells i Hi) as (y & Hy & Hyb). pose proof (aget_Some _ _ _ Hy) as Hil. pose proof (rank_bounds kp i ltac:(lia)).
        assert (groupof g i = y) as Hgi by (unfold groupof; by rewrite Ht, Hy).
        assert (tstore (tkind groupIndex) y = y) as Est by (apply (fits_store wd _ _ Hf); lia).
        rewrite (rd_Some _ _ y) by (by rewrite (cp_rest _ _ _ _ _ Hc) by lia). cbn [mbind js_bind].
        unfold twr. apply wp_bind, wp_bind, wp_wr; [rewrite (cp_len _ _ _ _ _ Hc); lia|]. apply wp_Ret.
        apply wp_bind, wp_bind, wp_wr; [lia|]. apply wp_Ret, wp_Ret. split_and!; [done| | |].
        -- apply fits_aupd; [lia|done|lia].
        -- simpl. rewrite Est. by apply (compacting_step kp (fun x => x)).
        -- split; [done|]. simpl. rewrite alen_aupd. split; [done|]. intros y' Hy'. rewrite seen_succ, Hki, Hgi by lia. cbn [andb].
           assert (tstore (tkind seenGroups) 1 = 1) as E1.
           { rewrite Hs. unfold crossfilter_index, crossfilter_array8, crossfilter_array16, crossfilter_array32, crossfilter_arrayUntyped.
             by destruct typed; repeat case_match. }
           rewrite aget_aupd, E1 by lia. case_decide as E.
           ++ rewrite E, Z.eqb_refl, orb_true_r. done.
           ++ rewrite Hsc by done. destruct (Z.eqb_spec y y'); [congruence|]. by rewrite orb_false_r.
      * apply wp_Ret. rewrite Z.add_0_r. split_and!; [done|done|by apply compacting_skip|]. split; [done|]. split; [done|].
        intros y Hy. rewrite Hsc, seen_succ, Hki, orb_false_r by (done || lia). done.
  - by intros [[groupIndex seenGroups] j] (? & ? & ? & ?).
Qed.

(** The groups that stay, and their new numbers. *)
Abbreviation sk := (seen (n c)).
Abbreviation gr := (rank (seen (n c))).

Lemma keep_groups_wp seenGroups :
  g_k g = alen (g_groups g) -> g_k g <= 2 ^ 32 -> seen_cells (n c) seenGroups ->
  wp (for_ 0 (g_k g) (fun i '(groups, seenGroups, k) =>
        x ← trd seenGroups i;
        if truthy x then
          seenGroups ← twr seenGroups i k;
          e ← rd (g_groups g) i;
          Ret (groups ++ [e], seenGroups, k + 1)
        else Ret (groups, seenGroups, k)) ([], seenGroups, 0))
     (fun '(groups, seenGroups, k) => k = gr (g_k g) /\ alen groups = k /\
        (forall y, 0 <= y < g_k g -> sk y = true -> aget groups (gr y) = aget (g_groups g) y) /\
        alen (tcells seenGroups) = g_k g /\
        forall y, 0 <= y < g_k g -> sk y = true -> aget (tcells seenGroups) y = Some (gr y)).
Proof.
  intros Hkk Hbig (Hs & Hsl & Hsc). eapply wp_mono.
  - apply (wp_for (fun i '(groups, seenGroups', k) => k = gr i /\ alen groups = k /\
      (forall y, 0 <= y < i -> sk y = true -> aget groups (gr y) = aget (g_groups g) y) /\
      tkind seenGroups' = tkind seenGroups /\ alen (tcells seenGroups') = g_k g /\
      (forall y, 0 <= y < i -> sk y = true -> aget (tcells seenGroups') y = Some (gr y)) /\
      (forall y, i <= y -> aget (tcells seenGroups') y = aget (tcells seenGroups) y))); [lia| |].
    + split_and!; try done; intros y Hy; lia.
    + intros i [[groups s'] k] Hi (-> & Hl & Hg & Hkd & Hsl' & Hdone & Hrest). pose proof (rank_bounds sk i ltac:(lia)).
      unfold trd. rewrite (rd_Some _ _ _ (eq_trans (Hrest i ltac:(lia)) (Hsc i Hi))). cbn [mbind js_bind].
      rewrite rank_succ by lia. destruct (sk i) eqn:Hsi; cbn [truthy negb Z.eqb].
      * unfold twr. apply wp_bind, wp_bind, wp_wr; [lia|]. apply wp_Ret. apply wp_bind, wp_rd; [lia|]. intros e He. apply wp_Ret.
        assert (tstore (tkind s') (gr i) = gr i) as -> by (rewrite Hkd, Hs; apply index_fits; lia). simpl. split_and!; try done.
        -- rewrite alen_app, Hl. done.
        -- intros y Hy Hsy. rewrite aget_snoc, Hl. case_decide as E.
           ++ assert (y = i) as -> by (apply (rank_inj sk); done || lia). done.
           ++ apply Hg; [|done]. destruct (decide (y = i)) as [->|]; [done|lia].
        -- by rewrite alen_aupd.
        -- intros y Hy Hsy. destruct (decide (y = i)) as [->|]; [by rewrite aget_aupd_eq by lia|].
           rewrite aget_aupd_ne by lia. apply Hdone; [lia|done].
        -- intros y Hy. rewrite aget_aupd_ne by lia. apply Hrest. lia.
      * apply wp_Ret. rewrite Z.add_0_r. split_and!; try done; [|intros y Hy Hsy|intros y Hy; apply Hrest; lia].
        -- intros y Hy Hsy. apply Hg; [|done]. destruct (decide (y = i)) as [->|]; [congruence|lia].
        -- apply Hdone; [|done]. destruct (decide (y = i)) as [->|]; [congruence|lia].
  - by intros [[groups s'] k] (? & ? & ? & _ & ? & ? & _).
Qed.

Lemma renumber_wp groupIndex seenGroups :
  fits typed wd groupIndex -> compacting kp (fun x => x) (tcells t) (n c) (tcells groupIndex) -> alen (tcells seenGroups) = g_k g ->
  (forall y, 0 <= y < g_k g -> sk y = true -> aget (tcells seenGroups) y = Some (gr y)) ->
  wp (for_ 0 (rk (n c)) (fun i t => x ← trd t i; y ← trd seenGroups x; twr t i y) groupIndex)
     (fun t' => fits typed wd t' /\ forall k, 0 <= k < n c -> kp k = true -> aget (tcells t') (rk k) = Some (gr (groupof g k))).
Proof.
  intros Hf Hc Hsl Hs. pose proof (bk_nonneg _ _ Hbase) as Hn. pose proof (rank_bounds kp (n c) Hn) as Hr. eapply wp_mono.
  - apply (wp_for (fun i t' => fits typed wd t' /\ alen (tcells t') = alen (tcells t) /\
      (forall k, 0 <= k < n c -> kp k = true -> rk k < i -> aget (tcells t') (rk k) = Some (gr (groupof g k))) /\
      (forall q, i <= q -> aget (tcells t') q = aget (tcells groupIndex) q))); [lia| |].
    + split_and!; [done|by apply (cp_len _ _ _ _ _ Hc)| |done]. intros k Hk Hkk Hlt. pose proof (rank_bounds kp k ltac:(lia)). lia.
    + intros i t' Hi (Hf' & Hl & Hdone & Hrest).
      destruct (compacted kp (fun x => x) (tcells t) (n c) (tcells groupIndex) i Hn Hc Hi) as (k & Hk & Hkk & Eik & Ecell).
      destruct (Hcells k Hk) as (y & Hy & Hyb). rewrite Hy in Ecell. simpl in Ecell.
      assert (groupof g k = y) as Hgk by (unfold groupof; by rewrite Ht, Hy).
      assert (sk y = true) as Hsy by (apply seen_spec; by exists k). pose proof (aget_Some _ _ _ Ecell) as Hib.
      rewrite (cp_len _ _ _ _ _ Hc) in Hib. pose proof (rank_bounds sk y ltac:(lia)).
      unfold trd. rewrite (rd_Some _ _ y) by (by rewrite Hrest by lia). cbn [mbind js_bind].
      rewrite (rd_Some _ _ _ (Hs y Hyb Hsy)). cbn [mbind js_bind]. unfold twr. apply wp_bind, wp_wr; [lia|]. apply wp_Ret.
      split; [apply fits_aupd; [lia|done|lia]|]. simpl. rewrite alen_aupd. split; [done|].
      assert (tstore (tkind t') (gr y) = gr y) as -> by (apply (fits_store wd _ _ Hf'); lia). split.
      * intros k' Hk' Hkk' Hlt. destruct (decide (rk k' = i)) as [E|Hne].
        -- rewrite E, aget_aupd_eq by lia. assert (k' = k) as -> by (apply (rank_inj kp); try done; lia). by rewrite Hgk.
        -- rewrite aget_aupd_ne by lia. apply Hdone; done || lia.
      * intros q Hq. rewrite aget_aupd_ne by lia. apply Hrest. lia.
  - intros t' (Hf' & _ & Hdone & _). split; [done|]. intros k Hk Hkk. apply Hdone; [done..|]. by apply rank_lt.
Qed.
End loops.

(** What [removeData] makes of a group. *)
Definition shrunk_group (did gid : nat) g c' : Prop := exists g',
  c' = put_grp (set_filterListeners c (replace_first (g_update g) (g_update g') (filterListeners c))) gid g' /\
  grp_ok ct (filters ct) gid g' /\ linked typed (n ct) did gid g'.

Lemma shrunk_linked did gid g g' :
  linked typed (n c) did gid g -> g_dim g' = g_dim g -> g_key g' = g_key g -> g_reduce g' = g_reduce g ->
  g_groupAll g' = g_groupAll g -> sized typed g' -> grp_ok ct (filters ct) gid g' -> linked typed (n ct) did gid g'.
Proof.
  intros [? Hk Hs Ha Hl _ _] Ed Ek Er Ea Hsz [Hi Hky Hgk (d & b0 & w & Hd & _)].
  destruct (grp_update ct gid g' d Hi Hky Hgk Hd) as [Hu Hn]; [by rewrite (sh_len _ _ Hsh)|].
  split; try done; [congruence|by rewrite Ek|congruence|by rewrite Er].
Qed.

(** Nothing changes when the only group has records still, or there are none. *)
Lemma shrunk_same did gid g :
  grps c !! gid = Some g -> grp_ok c (masked (filters c) (n c)) gid g -> linked typed (n c) did gid g -> g_k g <= 1 ->
  g_k g = 0 \/ (exists k, 0 <= k < n c /\ kp k = true) -> shrunk_group did gid g c.
Proof.
  intros Hg Hok Hl Hk1 Hsome. pose proof Hok as [Hi Hky Hgk (d & b0 & w & Hd & _)].
  assert (grp_ok ct (filters ct) gid g) as Hok'.
  { assert (forall k, 0 <= k < n c -> groupof g k = 0) as Hof.
    { intros k Hk. destruct (aget_is_Some (data c) k) as [r Hr]; [by rewrite <- (bk_n _ _ Hbase)|].
      destruct (ky_group _ _ Hky k r d Hr Hd) as (e & He%aget_Some & _). lia. }
    assert (g_groupIndex g = None \/ n ct = 0) as Hnone.
    { unfold index_ok in Hi. destruct (g_update g) as [| | |] eqn:Eu; [|lia|left; apply Hi|done].
      right. destruct (ln_null _ _ _ _ _ Hl Eu) as (_ & _ & E). rewrite (sh_n _ _ Hsh), E. done. }
    apply (regrouped_ok gid g g (fun i => i)); [done|split; try done|].
    - intros k Hk Hkk. split; [|done]. rewrite (Hof k) by done. destruct Hnone as [E|E]; [unfold groupof; by rewrite E|].
      pose proof (rank_kept_lt k Hk Hkk). lia.
    - intros i Hib. destruct Hsome as [|(k & Hk & Hkk)]; [lia|]. exists k. rewrite (Hof k) by done. split_and!; done || lia.
    - apply Hky.
    - unfold index_ok in *. destruct (g_update g); [done|lia|done|done]. }
  exists g. split; [|split; [done|by eapply (shrunk_linked did gid g g); try done; apply Hl]].
  rewrite replace_first_same. unfold put_grp, set_grps, set_filterListeners. simpl. rewrite list_insert_id by done. by destruct c.
Qed.

Lemma group_removeData_wp did gid g :
  grps c !! gid = Some g -> grp_ok c (masked (filters c) (n c)) gid g -> linked typed (n c) did gid g ->
  wp (group_removeData typed c gid) (shrunk_group did gid g).
Proof.
  intros Hg Hok Hl. pose proof Hok as [Hi Hky Hgk (d & b0 & w & Hd & _)]. unfold group_removeData, the_grp. rewrite Hg.
  cbn [mbind js_bind]. pose proof (alen_nonneg (g_groups g)). pose proof (bk_nonneg _ _ Hbase) as Hn.
  destruct (ln_sized _ _ _ _ _ Hl) as (Hw & Hcap & Hkb & Hf). rewrite Hcap in Hkb.
  destruct (Z.gtb_spec (g_k g) 1) as [Hk1|Hk1].
  - unfold index_ok in Hi. destruct (g_update g) as [|gid'|gid'|] eqn:Eu; [lia| |lia|done].
    destruct Hi as (-> & _ & t & Ht & Hcells). rewrite Ht. specialize (Hf t Ht). cbn [mbind js_bind].
    apply wp_bind. eapply wp_mono; [by apply (mark_seen_wp g t (g_groupWidth g))|].
    intros [[groupIndex seenGroups] j] (-> & Hf1 & Hc1 & Hs1). apply wp_bind. eapply wp_mono.
    { apply (keep_groups_wp g (g_groupWidth g)); [done|done| |done]. destruct Hw as [E|[E|E]]; rewrite E in Hkb; lia. }
    intros [[groups s2] k2] (-> & Hl2 & Hat2 & Hsl2 & Hs2). pose proof (rank_bounds (seen g (n c)) (g_k g) ltac:(lia)) as Hrb.
    assert (forall k, 0 <= k < n c -> kp k = true -> 0 <= groupof g k < g_k g /\ seen g (n c) (groupof g k) = true) as Hseen.
    { intros k Hk Hkk. destruct (Hcells k Hk) as (y & Hy & Hyb). split; [unfold groupof; by rewrite Ht, Hy|].
      apply seen_spec. by exists k. }
    apply wp_bind. eapply (wp_mono _ (fun o => match o with
      | Some t' => 1 < rank (seen g (n c)) (g_k g) /\ fits typed (g_groupWidth g) t' /\
          forall k, 0 <= k < n c -> kp k = true -> aget (tcells t') (rk k) = Some (rank (seen g (n c)) (groupof g k))
      | None => rank (seen g (n c)) (g_k g) <= 1
      end)).
    { destruct (Z.gtb_spec (rank (seen g (n c)) (g_k g)) 1); [|apply wp_Ret; lia]. apply wp_bind. eapply wp_mono.
      - apply (renumber_wp g t (g_groupWidth g)); done || lia.
      - intros t' [? ?]. apply wp_Ret. split_and!; done. }
    intros o Ho. apply wp_Ret. set (g' := with_cardinality _ _ _ _ _).
    assert (regrouped g g' (rank (seen g (n c)))) as Hrg.
    { split; try done.
      - intros k Hk Hkk. destruct (Hseen k Hk Hkk) as [Hb Hs]. split; [|by apply Hat2]. unfold groupof at 1. simpl.
        destruct o as [t'|]; [destruct Ho as (_ & _ & Ho); by rewrite Ho|].
        pose proof (rank_lt (seen g (n c)) _ _ Hb Hs). pose proof (rank_bounds (seen g (n c)) (groupof g k) ltac:(lia)). lia.
      - intros k k' Hk Hkk Hk' Hkk' E. destruct (Hseen k Hk Hkk) as [Hb Hs], (Hseen k' Hk' Hkk') as [Hb' Hs'].
        apply (rank_inj (seen g (n c))); try done; lia.
      - intros i Hib. simpl in Hib. rewrite Hl2 in Hib. destruct (rank_surj (seen g (n c)) (g_k g) i ltac:(lia) Hib) as (y & Hy & Hys & <-).
        apply seen_spec in Hys as (k & Hk & Hkk & <-). by exists k.
      - simpl. apply StronglySorted_lookup. intros i j x y Hij Hx Hy. rewrite list_lookup_fmap in Hx, Hy.
        destruct (groups !! i) as [e|] eqn:Ee; [|done]. destruct (groups !! j) as [e'|] eqn:Ee'; [|done].
        injection Hx as <-. injection Hy as <-. pose proof (lookup_lt_Some _ _ _ Ee') as Hjl. unfold alen in Hl2.
        destruct (rank_surj (seen g (n c)) (g_k g) (Z.of_nat i) ltac:(lia) ltac:(lia)) as (a & Ha & Has & Ea).
        destruct (rank_surj (seen g (n c)) (g_k g) (Z.of_nat j) ltac:(lia) ltac:(lia)) as (b & Hb & Hbs & Eb).
        pose proof (Hat2 a Ha Has) as Hata. pose proof (Hat2 b Hb Hbs) as Hatb. rewrite Ea in Hata. rewrite Eb in Hatb.
        rewrite aget_nat, Ee in Hata. rewrite aget_nat, Ee' in Hatb. symmetry in Hata, Hatb.
        assert (a < b) as Hab by (destruct (decide (b <= a)); [|lia]; pose proof (rank_monotone (seen g (n c)) b a ltac:(lia)); lia).
        apply (keyed_lt c g a b e e'); done || lia. }
    assert (grp_ok ct (filters ct) gid g') as Hok'.
    { apply (regrouped_ok gid g g' (rank (seen g (n c))) Hok Hrg). unfold index_ok. simpl.
      destruct (Z.gtb_spec (rank (seen g (n c)) (g_k g)) 1); [|destruct (Z.eqb_spec (rank (seen g (n c)) (g_k g)) 1)]; [| |lia].
      - destruct o as [t'|]; [|lia]. destruct Ho as (_ & _ & Ho). split_and!; [done|lia|]. exists t'. split; [done|].
        intros p Hp. destruct (shrunk_at p Hp) as (k & Hk & Hkk & <-). destruct (Hseen k Hk Hkk) as [Hb Hs].
        exists (rank (seen g (n c)) (groupof g k)). split; [by apply Ho|]. split; [apply rank_bounds; lia|by apply rank_lt].
      - split_and!; [done..|]. destruct o; [lia|done]. }
    exists g'. split; [by rewrite Eu|]. split; [done|]. apply (shrunk_linked did gid g g'); try done. split_and!; try done; simpl; try lia.
    intros t' E. destruct o; [|done]. injection E as <-. by destruct Ho as (_ & ? & _).
  - destruct (Z.eqb_spec (g_k g) 1) as [E1|Hne]; [|apply wp_Ret, shrunk_same; try done; left; lia].
    rewrite (ln_all _ _ _ _ _ Hl). apply wp_bind. eapply wp_mono.
    { apply (wp_for (fun i (b : bool) => b = existsb kp (seqZ 0 i))); [done|done|]. intros i b Hib ->.
      destruct (aget_is_Some (tcells (filters c)) i) as [x Hx]; [pose proof (bk_len _ _ Hbase); unfold tlen in *; lia|].
      unfold trd. rewrite (rd_Some _ _ _ Hx). cbn [mbind js_bind]. apply wp_Ret. rewrite seqZ_app, existsb_app by lia. f_equal.
      rewrite Z.add_0_l, seqZ_cons by lia. cbn [existsb seqZ]. unfold keep. rewrite Hx. by rewrite orb_false_r. }
    intros b ->. destruct (existsb kp (seqZ 0 (n c))) eqn:Es.
    + apply wp_Ret, shrunk_same; try done. right. apply existsb_exists in Es as (k & Hk%list_elem_of_In%elem_of_seqZ & Hkk).
      exists k. split; [lia|done].
    + apply wp_Ret. set (g' := with_cardinality _ _ _ _ _).
      assert (forall k, 0 <= k < n c -> kp k = true -> False) as Hnone.
      { intros k Hk Hkk. assert (existsb kp (seqZ 0 (n c)) = true) as E; [|congruence]. apply existsb_exists. exists k.
        split; [apply list_elem_of_In, elem_of_seqZ; lia|done]. }
      assert (grp_ok ct (filters ct) gid g') as Hok'.
      { apply (regrouped_ok gid g g' (fun i => i) Hok); [|done]. split; try done.
        - intros k Hk Hkk. by destruct (Hnone k).
        - intros i Hib. unfold alen in Hib. simpl in Hib. lia.
        - constructor. }
      exists g'. split; [done|]. split; [done|]. apply (shrunk_linked did gid g g'); try done. split_and!; try done; simpl; lia.
Qed.
End group.
End regroup.
