(* ===== verification/CfShrink.v ===== *)
(** * crossfilter: closing the gaps among the records and in a dimension

    What [removeData] of a dimension makes of its sorted values and ids, and
    the loops at the end of [remove] that move the records and the filter
    cells.  [closed] is the state with the records in their new places. *)

From S2P Require Import Prelude.
From S2P Require Import Arrays.
From S2P Require Import Sums.
From S2P Require Import CfBisect.
From S2P Require Import CfArray.
From S2P Require Import CfBits.
From S2P Require Import CfCore.
From S2P Require Import CfInv.
From S2P Require Import CfFilter.
From S2P Require Import CfSelect.
From S2P Require Import CfTop.
From S2P Require Import CfMerge.
From S2P Require Import CfGroups.
From S2P Require Import CfShape.
From S2P Require Import CfAdd.
From S2P Require Import CfRank.
From S2P Require Import CfRemove.
From S2P Require Import CfRegroup.

(** ** Clearing the end of an array *)

Lemma clear_wp (t : tarr) lo hi :
  0 <= lo <= hi -> hi <= tlen t ->
  wp (for_ lo hi (fun i t => twr t i 0) t) (fun t' => tkind t' = tkind t /\ tlen t' = tlen t /\
    (forall k, k < lo \/ hi <= k -> aget (tcells t') k = aget (tcells t) k) /\
    (forall k x, lo <= k < hi -> aget (tcells t') k = Some x -> x = 0)).
Proof.
  intros Hlo Hhi. eapply wp_mono.
  - apply (wp_for (fun i t' => tkind t' = tkind t /\ tlen t' = tlen t /\
      (forall k, k < lo \/ i <= k -> aget (tcells t') k = aget (tcells t) k) /\
      (forall k x, lo <= k < i -> aget (tcells t') k = Some x -> x = 0))); [lia| |].
    + split_and!; try done. lia.
    + intros i t' Hi (Hkd & Hl & Hout & Hin). unfold twr. apply wp_bind, wp_wr; [unfold tlen in *; lia|]. apply wp_Ret.
      assert (tstore (tkind t') 0 = 0) as -> by (by destruct (tkind t')).
      unfold tlen in *. simpl. rewrite alen_aupd. split_and!; try done.
      * intros k Hk. rewrite aget_aupd_ne by lia. apply Hout. lia.
      * intros k x Hk. destruct (decide (k = i)) as [->|]; [rewrite aget_aupd_eq by lia; congruence|].
        rewrite aget_aupd_ne by lia. apply Hin. lia.
  - done.
Qed.

Section shrink.
Context {R X : Type} `{JsOrdLaws X} (typed : bool).
Abbreviation cf := (@CfCore.cf R X).
Abbreviation dim := (@CfCore.dim R X).
Implicit Types (c ct : cf) (d : dim) (fl : tarr) (dat : list R).

Section closing.
Context c (Hbase : base_ok typed c).
Abbreviation kp := (keep (filters c)).
Abbreviation rk := (rank (keep (filters c))).

Lemma keep_cell k : 0 <= k < n c -> exists x, aget (tcells (filters c)) k = Some x /\ kp k = truthy x.
Proof.
  intros Hk. destruct (aget_is_Some (tcells (filters c)) k) as [x Hx]; [pose proof (bk_len _ _ Hbase); unfold tlen in *; lia|].
  exists x. split; [done|]. unfold keep. by rewrite Hx.
Qed.

(** ** The records and the filters *)

Lemma compact_data_wp :
  wp (for_ 0 (n c) (fun i '(fl, dat, j) =>
        k ← trd fl i;
        if truthy k then
          '(fl, dat) ← (if i =? j then Ret (fl, dat)
                        else
                          fl ← twr fl j k;
                          r ← rd dat i;
                          dat ← wr dat j r;
                          Ret (fl, dat));
          Ret (fl, dat, j + 1)
        else Ret (fl, dat, j)) (filters c, data c, 0))
     (fun '(fl, dat, j) => j = rk (n c) /\ tkind fl = tkind (filters c) /\
        compacting kp id (tcells (filters c)) (n c) (tcells fl) /\ compacting kp id (data c) (n c) dat).
Proof.
  pose proof (bk_nonneg _ _ Hbase) as Hn. pose proof (bk_len _ _ Hbase) as Hlen. unfold tlen in Hlen. eapply wp_mono.
  - apply (wp_for (fun i '(fl, dat, j) => j = rk i /\ tkind fl = tkind (filters c) /\
      compacting kp id (tcells (filters c)) i (tcells fl) /\ compacting kp id (data c) i dat)); [done| |].
    + split_and!; [done|done|apply compacting_start|apply compacting_start].
    + intros i [[fl dat] j] Hi (-> & Hkd & Hf & Hd). destruct (keep_cell i Hi) as (x & Hx & Hk).
      unfold trd. rewrite (rd_Some _ _ x) by (by rewrite (cp_rest _ _ _ _ _ Hf) by lia). cbn [mbind js_bind].
      rewrite <- Hk, rank_succ by lia. pose proof (rank_bounds kp i ltac:(lia)). destruct (kp i) eqn:Hki.
      * destruct (Z.eqb_spec i (rk i)) as [E|Hne].
        -- simpl. split_and!; try done; apply compacting_same; done || lia.
        -- destruct (aget_is_Some (data c) i) as [r Hr]; [by rewrite <- (bk_n _ _ Hbase)|].
           unfold twr. apply wp_bind, wp_bind, wp_bind, wp_wr; [rewrite (cp_len _ _ _ _ _ Hf); lia|]. apply wp_Ret.
           apply wp_bind. rewrite (rd_Some _ _ r) by (by rewrite (cp_rest _ _ _ _ _ Hd) by lia). apply wp_Ret.
           apply wp_bind, wp_wr; [rewrite (cp_len _ _ _ _ _ Hd), <- (bk_n _ _ Hbase); lia|]. apply wp_Ret, wp_Ret.
           assert (tstore (tkind fl) x = x) as ->.
           { rewrite Hkd. apply cell_store. by eapply (bk_cells _ _ Hbase). }
           simpl. split_and!; try done; [by apply (compacting_step kp id); try done; lia|].
           apply (compacting_step kp id); try done. by rewrite <- (bk_n _ _ Hbase).
      * apply wp_Ret. rewrite Z.add_0_r. split_and!; try done; by apply compacting_skip.
  - by intros [[fl dat] j].
Qed.

(** The state with the records [dat] and the filters [fl]. *)
Definition closed fl dat : cf :=
  Cf (take (Z.to_nat (rk (n c))) dat) (rk (n c)) (m c) (M c) fl (filterListeners c) (dataListeners c)
     (removeDataListeners c) (dims c) (grps c) (galls c).

Record gaps_closed fl dat : Prop := GapsClosed {
  gc_kind : tkind fl = tkind (filters c);
  gc_len : tlen fl = tlen (filters c);
  gc_cells : forall k, 0 <= k < n c -> kp k = true -> aget (tcells fl) (rk k) = aget (tcells (filters c)) k;
  gc_tail : forall q x, rk (n c) <= q -> aget (tcells fl) q = Some x -> x = 0;
  gc_data : compacting kp id (data c) (n c) dat
}.

Lemma clear_cells_wp fl dat :
  tkind fl = tkind (filters c) -> compacting kp id (tcells (filters c)) (n c) (tcells fl) -> compacting kp id (data c) (n c) dat ->
  wp (for_ (rk (n c)) (n c) (fun i fl => twr fl i 0) fl) (fun fl' => gaps_closed fl' dat).
Proof.
  intros Hkd Hf Hd. pose proof (bk_nonneg _ _ Hbase) as Hn. pose proof (rank_bounds kp (n c) Hn).
  pose proof (bk_len _ _ Hbase) as Hlen. pose proof (cp_len _ _ _ _ _ Hf) as Hl. unfold tlen in *.
  eapply wp_mono; [apply clear_wp; unfold tlen; lia|]. unfold tlen. intros fl' (Hkd' & Hl' & Hout & Hin). split; try done.
  - congruence.
  - unfold tlen. congruence.
  - intros k Hk Hkk. rewrite Hout by (left; by apply rank_lt). rewrite (cp_done _ _ _ _ _ Hf) by done. by destruct (aget _ k).
  - intros q x Hq Hx. destruct (decide (q < n c)) as [Hlt|Hge]; [by apply (Hin q x)|]. rewrite Hout in Hx by lia.
    rewrite (cp_rest _ _ _ _ _ Hf) in Hx by lia. eapply (bk_tail _ _ Hbase q); [lia|done].
Qed.

Section result.
Context fl dat (Hgc : gaps_closed fl dat).
Abbreviation ct := (closed fl dat).

Lemma closed_data : Some <$> data ct = aget (data c) <$> kept kp (n c).
Proof.
  pose proof (bk_n _ _ Hbase) as En. pose proof (bk_nonneg _ _ Hbase) as Hn.
  assert (data ct = slice dat 0 (rk (n c))) as ->.
  { unfold slice. simpl. by rewrite drop_0, Nat.sub_0_r. }
  rewrite (kept_slice kp id (data c) dat) by (apply Hgc || lia). apply list_fmap_ext. intros i k _. by destruct (aget _ k).
Qed.

Lemma closed_shrunk : shrunk c ct.
Proof.
  pose proof (bk_n _ _ Hbase) as En. pose proof (bk_nonneg _ _ Hbase) as Hn. pose proof (rank_bounds kp (n c) Hn).
  split; simpl; try done.
  - pose proof (cp_len _ _ _ _ _ (gc_data _ _ Hgc)) as Hl. unfold alen in *. rewrite length_take. lia.
  - intros k Hk Hkk. pose proof (rank_lt kp k (n c) Hk Hkk). pose proof (rank_bounds kp k ltac:(lia)).
    unfold aget at 1. destruct (Z.leb_spec 0 (rk k)); [|lia]. rewrite lookup_take_lt by lia.
    pose proof (cp_done _ _ _ _ _ (gc_data _ _ Hgc) k Hk Hkk) as E. unfold aget at 1 in E.
    destruct (Z.leb_spec 0 (rk k)); [|lia]. rewrite E. by destruct (aget _ k).
  - apply Hgc.
  - intros did d Hd. by exists d.
Qed.

(** Each cell is one there was, or 0. *)
Lemma closed_cells q x :
  aget (tcells fl) q = Some x -> x = 0 \/ exists k, aget (tcells (filters c)) k = Some x.
Proof.
  intros Hx. destruct (decide (q < rk (n c))) as [Hlt|Hge]; [|left; apply (gc_tail _ _ Hgc q); done || lia].
  destruct (rank_surj kp (n c) q) as (k & Hk & Hkk & <-); [by eapply bk_nonneg|apply aget_Some in Hx; lia|].
  right. exists k. by rewrite <- (gc_cells _ _ Hgc).
Qed.

Lemma closed_base : base_ok typed ct.
Proof.
  pose proof (bk_nonneg _ _ Hbase) as Hn. pose proof (rank_bounds kp (n c) Hn). pose proof (bk_kind_ok _ _ Hbase) as Hkd.
  destruct Hbase as [En Hs Hm Hmask Hl Hw Hk Hc Ht]. split; simpl; try done.
  - symmetry. apply closed_shrunk.
  - lia.
  - rewrite (gc_len _ _ Hgc). lia.
  - by rewrite (gc_kind _ _ Hgc).
  - intros q x Hx. rewrite (gc_kind _ _ Hgc). destruct (closed_cells q x Hx) as [->|[k Hk']]; [|by eapply Hc].
    by apply cell_ok_0.
  - intros q x Hq. by apply (gc_tail _ _ Hgc).
Qed.
End result.
End closing.

(** ** A dimension *)

(** [d'] is [d] with the removed records gone. *)
Record shrunk_dim ct d d' : Prop := ShrunkDim {
  sd_same : added_dim d d';
  sd_ranked : ranked (data ct) (n ct) (d_value d) (d_values d') (tcells (d_index d'));
  sd_bounds : refilter_run (d_refilter d) (d_values d') = Ret (d_lo0 d', d_hi0 d');
  sd_fits : forall x, 0 <= x < n ct -> tstore (tkind (d_index d')) x = x
}.

Section dimension.
Context c ct (Hbase : base_ok typed c) (Hsh : shrunk c ct).
Abbreviation kp := (keep (filters c)).
Abbreviation rk := (rank (keep (filters c))).
Context d (Hdim : dim_ok c d).
Abbreviation index := (tcells (d_index d)).
(** Which ranks of the dimension are kept. *)
Abbreviation kr := (stored (keep (filters c)) (tcells (d_index d))).
Abbreviation rr := (rank (stored (keep (filters c)) (tcells (d_index d)))).

Lemma index_length : n c <= alen index.
Proof.
  pose proof (Permutation_length (rk_index _ _ _ _ _ (dk_ranked _ _ Hdim))) as E. rewrite length_seqZ in E.
  unfold slice in E. rewrite length_take, length_drop in E. unfold alen. lia.
Qed.

Lemma index_id_at i : 0 <= i < n c -> exists k, aget index i = Some k /\ 0 <= k < n c.
Proof.
  intros Hi. pose proof index_length as Hl. destruct (aget_is_Some index i) as [k Hk]; [lia|]. exists k. split; [done|].
  assert (k ∈ seqZ 0 (n c)) as Hin%elem_of_seqZ; [|lia]. rewrite <- (rk_index _ _ _ _ _ (dk_ranked _ _ Hdim)).
  apply elem_of_slice; [lia..|eauto].
Qed.

Lemma rank_index : rr (n c) = rk (n c).
Proof.
  pose proof (bk_nonneg _ _ Hbase) as Hn. pose proof index_length. rewrite rank_stored by lia. unfold rank, kept, alen.
  by rewrite (List_filter_perm _ _ _ (rk_index _ _ _ _ _ (dk_ranked _ _ Hdim))).
Qed.

Lemma compact_dim_wp newIndex :
  places c newIndex ->
  wp (for_ 0 (n c) (fun i '(values, index, j) =>
        k ← trd index i;
        x ← trd (filters c) k;
        if truthy x then
          values ← (if i =? j then Ret values else v ← rd values i; wr values j v);
          k' ← trd newIndex k;
          index ← twr index j k';
          Ret (values, index, j + 1)
        else Ret (values, index, j)) (d_values d, d_index d, 0))
     (fun '(values, t, j) => j = rr (n c) /\ tkind t = tkind (d_index d) /\
        compacting kr id (d_values d) (n c) values /\ compacting kr rk index (n c) (tcells t)).
Proof.
  intros Hpl. pose proof (bk_nonneg _ _ Hbase) as Hn. pose proof index_length as Hil.
  pose proof (rk_values _ _ _ _ _ (dk_ranked _ _ Hdim)) as Hvl. eapply wp_mono.
  - apply (wp_for (fun i '(values, t, j) => j = rr i /\ tkind t = tkind (d_index d) /\
      compacting kr id (d_values d) i values /\ compacting kr rk index i (tcells t))); [done| |].
    + split_and!; [done|done|apply compacting_start..].
    + intros i [[values t] j] Hi (-> & Hkd & Hv & Hx). destruct (index_id_at i Hi) as (k & Hk & Hkb).
      destruct (keep_cell c Hbase k Hkb) as (x & Hfx & Hkk). unfold trd.
      rewrite (rd_Some _ _ k) by (by rewrite (cp_rest _ _ _ _ _ Hx) by lia). cbn [mbind js_bind].
      rewrite (rd_Some _ _ _ Hfx). cbn [mbind js_bind]. rewrite <- Hkk, rank_succ by lia.
      assert (kr i = kp k) as Ekr by (unfold stored; by rewrite Hk). rewrite Ekr in *.
      pose proof (rank_bounds kr i ltac:(lia)) as Hrb. destruct (kp k) eqn:Hkp.
      * apply wp_bind. eapply (wp_mono _ (fun values' => compacting kr id (d_values d) (i + 1) values')).
        { destruct (Z.eqb_spec i (rr i)) as [E|Hne]; [apply wp_Ret, compacting_same; done || lia|].
          destruct (aget_is_Some (d_values d) i) as [v Hdv]; [lia|].
          rewrite (rd_Some _ _ v) by (by rewrite (cp_rest _ _ _ _ _ Hv) by lia). cbn [mbind js_bind].
          apply wp_wr; [rewrite (cp_len _ _ _ _ _ Hv); lia|]. apply (compacting_step kr id); done || lia. }
        intros values' Hv'. rewrite (rd_Some _ _ _ (Hpl k Hkb Hkp)). cbn [mbind js_bind].
        unfold twr. apply wp_bind, wp_bind, wp_wr; [rewrite (cp_len _ _ _ _ _ Hx); lia|]. apply wp_Ret, wp_Ret. simpl.
        pose proof (rank_bounds kp k ltac:(lia)).
        assert (tstore (tkind t) (rk k) = rk k) as -> by (rewrite Hkd; apply (dk_fits _ _ Hdim); lia).
        split_and!; try done. by apply compacting_step; [|lia|..].
      * apply wp_Ret. rewrite Z.add_0_r. split_and!; try done; by apply compacting_skip.
  - by intros [[values t] j].
Qed.

(** The values and ids that are left are those of the records that are. *)
Lemma compacted_ranked values t' :
  compacting kr id (d_values d) (n c) values -> n ct <= alen (tcells t') ->
  (exists t, compacting kr rk index (n c) (tcells t) /\ forall q, q < n ct -> aget (tcells t') q = aget (tcells t) q) ->
  ranked (data ct) (n ct) (d_value d) (take (Z.to_nat (n ct)) values) (tcells t').
Proof.
  intros Hv Hl' (t & Hx & Hsame). pose proof (bk_nonneg _ _ Hbase) as Hn. pose proof index_length as Hil.
  pose proof (dk_ranked _ _ Hdim) as [Hvl Hperm Hat Hsorted]. pose proof (sh_n _ _ Hsh) as En. pose proof rank_index as Er.
  pose proof (rank_bounds kp (n c) Hn) as Hb. pose proof (cp_len _ _ _ _ _ Hv) as Hl. pose proof (cp_len _ _ _ _ _ Hx) as Hxl.
  assert (forall p, 0 <= p < n ct -> exists i, 0 <= i < n c /\ kr i = true /\ rr i = p /\
    aget (take (Z.to_nat (n ct)) values) p = aget (d_values d) i /\ aget (tcells t') p = rk <$> aget index i) as Hfrom.
  { intros p Hp. destruct (rank_surj kr (n c) p Hn ltac:(lia)) as (i & Hi & Hki & Ei). exists i. split_and!; try done; try lia.
    - rewrite <- Ei. pose proof (cp_done _ _ _ _ _ Hv i Hi Hki) as E. unfold aget in E |- *. destruct (Z.leb_spec 0 (rr i)); [|lia].
      rewrite lookup_take_lt by lia. rewrite E. destruct (Z.leb_spec 0 i); [|lia]. by destruct (d_values d !! Z.to_nat i).
    - rewrite Hsame by lia. rewrite <- Ei. by apply (cp_done _ _ _ _ _ Hx). }
  split.
  - unfold alen in *. rewrite length_take. lia.
  - assert (slice (tcells t') 0 (n ct) = slice (tcells t) 0 (rr (n c))) as ->.
    { apply (inj (fmap Some)). rewrite !slice_aget by lia. rewrite Er, <- En. apply list_fmap_ext.
      intros i q Hq. apply Hsame. apply list_elem_of_lookup_2, elem_of_seqZ in Hq. lia. }
    rewrite (compacted_filter kp index rk (tcells t) (n c)) by (done || lia).
    rewrite (List_filter_perm _ _ _ Hperm). fold (kept kp (n c)). by rewrite rank_kept, En.
  - intros p k' Hp Hk'. destruct (Hfrom p Hp) as (i & Hi & Hki & _ & Evp & Exp). rewrite Hk' in Exp.
    destruct (index_id_at i Hi) as (k & Hk & Hkb). rewrite Hk in Exp. injection Exp as ->.
    unfold stored in Hki. rewrite Hk in Hki. destruct (Hat i k Hi Hk) as (r & Hr & Hvr). exists r.
    by rewrite (sh_data _ _ Hsh), Evp.
  - intros p q x y Hp0 Hpq Hq Hx' Hy. destruct (Hfrom p ltac:(lia)) as (i & Hi & Hki & Ei & Evi & _), (Hfrom q ltac:(lia)) as (j & Hj & Hkj & Ej & Evj & _).
    rewrite Evi in Hx'. rewrite Evj in Hy. apply (Hsorted i j); try done; try lia.
    destruct (decide (i <= j)); [done|]. pose proof (rank_lt kr j i ltac:(lia) Hkj). lia.
Qed.

Lemma dim_removeData_wp did newIndex :
  dims c !! did = Some d -> places c newIndex ->
  wp (dim_removeData c did newIndex) (fun c' => exists d', c' = put_dim c did d' /\ shrunk_dim ct d d').
Proof.
  intros Hd Hpl. unfold dim_removeData. rewrite (the_dim_ret _ _ _ Hd). cbn [mbind js_bind].
  pose proof (bk_nonneg _ _ Hbase) as Hn. pose proof index_length as Hil. pose proof (rank_bounds kp (n c) Hn) as Hb.
  pose proof (sh_n _ _ Hsh) as En. pose proof rank_index as Er.
  apply wp_bind. eapply wp_mono; [by apply compact_dim_wp|]. intros [[values t] j] (-> & Hkd & Hv & Hx).
  pose proof (cp_len _ _ _ _ _ Hx) as Hxl. rewrite Er, <- En. apply wp_bind.
  eapply wp_mono; [apply clear_wp; unfold tlen; lia|]. unfold tlen. intros t' (Hkd' & Hl' & Hout & _).
  assert (ranked (data ct) (n ct) (d_value d) (take (Z.to_nat (n ct)) values) (tcells t')) as Hrk.
  { apply compacted_ranked; [done|lia|]. exists t. split; [done|]. intros q Hq. apply Hout. by left. }
  assert (wp (refilter_run (d_refilter d) (take (Z.to_nat (n ct)) values)) (fun _ => True)) as Hw.
  { pose proof (bk_small _ _ Hbase). eapply wp_mono; [|by intros [] _]. apply refilter_run_wp; rewrite ?(rk_values _ _ _ _ _ Hrk); [|lia|].
    - apply (dk_refilter _ _ Hdim).
    - apply Hrk. }
  apply wp_elim in Hw as ([lo hi] & E & _). rewrite E. apply wp_Ret. eexists. split; [done|]. split; simpl; try done.
  intros x Hx'. rewrite Hkd', Hkd. apply (dk_fits _ _ Hdim). lia.
Qed.
End dimension.
End shrink.
