(* ===== verification/CfRemoval.v ===== *)
(** * crossfilter: [remove]

    The selected records go.  First the values that groups and [groupAll]s
    keep lose them; then each dimension and each group closes the gaps, in the
    order of [removeDataListeners]; at last the records and their filters
    move.  Afterwards the whole state is consistent again. *)

From S2P Require Import Prelude.
From S2P Require Import Arrays.
From S2P Require Import Sums.
From S2P Require Import CfBisect.
From S2P Require Import CfArray.
From S2P Require Import CfBits.
From S2P Require Import CfCore.
From S2P Require Import CfInv.
From S2P Require Import CfFilter.
From S2P Require Import CfSelect.
From S2P Require Import CfTop.
From S2P Require Import CfMerge.
From S2P Require Import CfGroups.
From S2P Require Import CfShape.
From S2P Require Import CfAdd.
From S2P Require Import CfLinks.
From S2P Require Import CfRank.
From S2P Require Import CfRemove.
From S2P Require Import CfRegroup.
From S2P Require Import CfShrink.

Section removal.
Context {R X : Type} `{JsOrdLaws X} (typed : bool).
Abbreviation cf := (@CfCore.cf R X).
Abbreviation dim := (@CfCore.dim R X).
Abbreviation grp := (@CfCore.grp R X).
Implicit Types (c : cf) (d : dim) (g : grp) (fl : tarr).

Section stages.
Context c (Hc : cf_ok typed c) (Hgo : groups_ok typed c) (Hlk : links typed c).
Context fl dat (Hgc : gaps_closed c fl dat).
Abbreviation ct := (closed c fl dat).
(** The state when the listeners have been told. *)
Context c1 (Hcore : same_core c c1) (Hl1 : filterListeners c1 = filterListeners c).
Context (Hg1 : length (galls c1) = length (galls c)) (Hlk1 : links typed c1).
Context (Hok1 : forall l, l ∈ filterListeners c -> listener_ok c1 (masked (filters c) (n c)) l).
Context newIndex (Hplaces : places c newIndex).

(** The dimensions and groups in [l1] have closed their gaps. *)
Record removing (l1 : list rlistener) c' : Prop := Removing {
  re_data : data c' = data c;
  re_n : n c' = n c;
  re_m : m c' = m c;
  re_M : M c' = M c;
  re_filters : filters c' = filters c;
  re_dataListeners : dataListeners c' = dataListeners c;
  re_removes : removeDataListeners c' = removeDataListeners c;
  re_galls : galls c' = galls c1;
  re_length : length (dims c') = length (dims c);
  re_dims : forall did d, dims c !! did = Some d -> exists d', dims c' !! did = Some d' /\
    if bool_decide (RDim did ∈ l1) then shrunk_dim ct d d' else d' = d;
  re_grps : forall gid g, gid ∈ registered c -> grps c1 !! gid = Some g -> exists g', grps c' !! gid = Some g' /\
    if bool_decide (RGroup gid ∈ l1) then grp_ok ct (filters ct) gid g' /\ linked typed (n ct) (g_dim g) gid g' else g' = g;
  re_others : forall gid, gid ∉ registered c -> grps c' !! gid = grps c1 !! gid;
  re_listeners : filterListeners c' ≡ₚ (update_of (grps c') <$> registered c) ++ List.filter is_all (filterListeners c)
}.

Lemma registered_told : registered c1 = registered c.
Proof. unfold registered. by rewrite (sc_dims _ _ Hcore), (sc_dataListeners _ _ Hcore). Qed.

Lemma removing_start : removing [] c1.
Proof.
  pose proof Hcore as [Ed En Em EM Ef Edl Erl Es]. split; try done.
  - by rewrite Es.
  - intros did d Hd. rewrite bool_decide_false by apply not_elem_of_nil. rewrite Es. eauto.
  - intros gid g _ Hg. rewrite bool_decide_false by apply not_elem_of_nil. eauto.
  - pose proof (lk_listeners _ _ Hlk1) as E. rewrite registered_told in E. by rewrite <- Hl1.
Qed.

Lemma removing_base l1 c' : removing l1 c' -> base_ok typed c'.
Proof. intros [Ed En Em EM Ef _ _ _ _ _ _ _ _]. destruct (ck_base _ _ Hc). split; by rewrite ?Ed, ?En, ?Em, ?EM, ?Ef. Qed.

Lemma removing_shrunk l1 c' : removing l1 c' -> shrunk c' ct.
Proof.
  intros Hre. destruct (closed_shrunk typed c (ck_base _ _ Hc) fl dat Hgc) as [? ? ? ? _].
  pose proof Hre as [Ed En _ _ Ef _ _ _ El Edims _ _ _]. split; rewrite ?Ed, ?En, ?Ef; try done.
  intros did d' Hd'. destruct (lookup_lt_is_Some_2 (dims c) did) as [d Hd]; [rewrite <- El; by eapply lookup_lt_Some|].
  exists d. split; [done|]. destruct (Edims did d Hd) as (d2 & Hd2 & E). rewrite Hd' in Hd2. injection Hd2 as <-.
  case_bool_decide; [destruct E as [[] _ _ _]; by split_and!|by subst].
Qed.

(** The other listeners are where they were. *)
Lemma still_in (l x : rlistener) l1 : x <> l -> bool_decide (x ∈ l1 ++ [l]) = bool_decide (x ∈ l1).
Proof. intros Hne. apply bool_decide_ext. rewrite elem_of_app, list_elem_of_singleton. naive_solver. Qed.

Lemma removing_dim l1 c' did :
  removing l1 c' -> RDim did ∈ removeDataListeners c -> RDim did ∉ l1 ->
  wp (dim_removeData c' did newIndex) (removing (l1 ++ [RDim did])).
Proof.
  intros Hre Hin Hni. pose proof (removing_base _ _ Hre) as Hb. pose proof (removing_shrunk _ _ Hre) as Hsh.
  pose proof Hre as [Ed En Em EM Ef Edl Erl Ega El Edims Egs Eot Els].
  assert (DPre did ∈ dataListeners c) as Hpre by (by apply (lk_rdims _ _ Hlk)).
  destruct (ck_listed _ _ Hc did ltac:(by left)) as [d Hd]. pose proof (ck_dims _ _ Hc did d (conj Hd Hpre)) as Hdo.
  destruct (Edims did d Hd) as (d' & Hd' & E). rewrite bool_decide_false in E by done. subst d'.
  assert (dim_ok c' d) as Hdo' by (destruct Hdo; split; by rewrite ?Ed, ?En, ?Em, ?Ef).
  eapply wp_mono.
  { apply (dim_removeData_wp typed c' ct Hb Hsh d Hdo'); [done|]. unfold places. by rewrite Ef, En. }
  intros c2 (d' & -> & Hsd). split; cbn -[bool_decide]; try done; [by rewrite length_insert| |].
  - intros e de He. destruct (decide (e = did)) as [->|Hne].
    + rewrite Hd in He. injection He as <-. exists d'. rewrite list_lookup_insert_eq by (by eapply lookup_lt_Some).
      rewrite bool_decide_true by (apply elem_of_app; right; left). done.
    + rewrite list_lookup_insert_ne by done. rewrite still_in by congruence. auto.
  - intros gid g Hr Hg. rewrite still_in by done. auto.
Qed.

(** A group without a listener has no records. *)
Lemma null_ok c' did gid g d :
  base_ok typed c' -> dims c' !! did = Some d -> (exists b, 0 <= b < 32 /\ d_one d = bit_one b /\ d_zero d = js_not (bit_one b)) ->
  linked typed (n c') did gid g -> g_update g = FNull -> grp_ok c' (masked (filters c') (n c')) gid g.
Proof.
  intros Hb Hd (b & Hbb & Ho & Hz) Hl Hu. destruct (ln_null _ _ _ _ _ Hl Hu) as (Eg & Ek & En).
  destruct (ln_lawful _ _ _ _ _ Hl) as (w & Hw). pose proof (ln_dim _ _ _ _ _ Hl) as Egd. split.
  - unfold index_ok. by rewrite Hu.
  - split; rewrite Eg; [constructor| |]; unfold alen; simpl; [|lia].
    intros k r d' Hr%aget_Some _. rewrite <- (bk_n _ _ Hb), En in Hr. lia.
  - by rewrite Ek, Eg.
  - exists d, b, w. rewrite Egd. split_and!; try done; try lia. intros _. rewrite Eg. split; [done|].
    intros i e He%aget_Some. unfold alen in He. simpl in He. lia.
Qed.

Lemma removing_group l1 c' gid :
  removing l1 c' -> RGroup gid ∈ removeDataListeners c -> RGroup gid ∉ l1 ->
  wp (group_removeData typed c' gid) (removing (l1 ++ [RGroup gid])).
Proof.
  intros Hre Hin Hni. pose proof (removing_base _ _ Hre) as Hb. pose proof (removing_shrunk _ _ Hre) as Hsh.
  pose proof Hre as [Ed En Em EM Ef Edl Erl Ega El Edims Egs Eot Els].
  assert (gid ∈ registered c) as Hreg by (by apply (lk_rgroups _ _ Hlk)).
  destruct (registered_group typed c1 gid Hlk1) as (did & d & g & Hdl & Hd & Hid & Hg & Hl); [by rewrite registered_told|].
  rewrite (sc_dims _ _ Hcore) in Hd. rewrite (sc_dataListeners _ _ Hcore) in Hdl. rewrite (sc_n _ _ Hcore) in Hl.
  pose proof (ln_dim _ _ _ _ _ Hl) as Egd.
  destruct (Egs gid g Hreg Hg) as (g' & Hg' & E). rewrite bool_decide_false in E by done. subst g'.
  assert (dim_ok c d) as Hdo by (apply (ck_dims _ _ Hc did); split; [done|by apply (lk_posts _ _ Hlk)]).
  destruct (Edims did d Hd) as (d' & Hd' & Esd).
  assert (d_value d' = d_value d /\ d_one d' = d_one d /\ d_zero d' = d_zero d) as (_ & Eo & Ez).
  { case_bool_decide; [destruct Esd as [[] _ _ _]; by split_and!|by subst]. }
  assert (grp_ok c' (masked (filters c') (n c')) gid g) as Hok.
  { destruct (decide (g_update g = FNull)) as [Hu|Hne].
    - apply (null_ok c' did gid g d'); try done; [|by rewrite En]. destruct (dk_bit _ _ Hdo) as (b & Hbb & Hone & _). exists b.
      pose proof (kind_width_range _ (bk_kind_ok _ _ (ck_base _ _ Hc))). rewrite Eo, Ez, <- Hone.
      split_and!; try done; try lia. apply (dk_zero _ _ Hdo).
    - apply (grp_ok_dims c1 c'); [by rewrite Ed, (sc_data _ _ Hcore)|by rewrite En, (sc_n _ _ Hcore)| |].
      + intros e de He. rewrite (sc_dims _ _ Hcore) in He. destruct (Edims e de He) as (de' & Hde' & Esd2). exists de'. split; [done|].
        case_bool_decide; [destruct Esd2 as [[] _ _ _]; by split_and!|by subst].
      + rewrite Ef, En. assert (g_update g ∈ filterListeners c) as Hu.
        { rewrite <- Hl1, (lk_listeners _ _ Hlk1). apply elem_of_app. left. apply list_elem_of_fmap. exists gid. unfold update_of.
          by rewrite registered_told, Hg. }
        specialize (Hok1 _ Hu). destruct (ln_update _ _ _ _ _ Hl) as [|[E|E]]; [done|..]; rewrite E in Hok1;
          destruct Hok1 as (g2 & Hg2 & _ & Hok2); rewrite Hg in Hg2; by injection Hg2 as <-. }
  eapply wp_mono.
  { apply (group_removeData_wp typed c' ct Hb Hsh did gid g); try done. by rewrite En. }
  intros c2 (g' & -> & Hok' & Hl'). split; cbn -[bool_decide closed]; try done.
  - intros e de He. rewrite still_in by done. auto.
  - intros gid' g0 Hr Hg0. destruct (decide (gid' = gid)) as [->|Hne].
    + rewrite Hg in Hg0. injection Hg0 as <-. exists g'. rewrite list_lookup_insert_eq by (by eapply lookup_lt_Some).
      split; [done|]. rewrite bool_decide_true by (apply elem_of_app; right; left). by rewrite Egd.
    + rewrite list_lookup_insert_ne by done. rewrite still_in by congruence. auto.
  - intros gid' Hn. rewrite list_lookup_insert_ne by (by intros ->). by apply Eot.
  - replace (g_update g) with (update_of (grps c') gid) by (unfold update_of; by rewrite Hg').
    apply update_replaced; [apply Hlk|done| |done]. by eapply lookup_lt_Some.
Qed.

Lemma removing_all :
  wp (for_each (removeDataListeners c1) (run_removeDataListener typed newIndex) c1) (removing (removeDataListeners c)).
Proof.
  rewrite (sc_removeDataListeners _ _ Hcore). pose proof (lk_removes _ _ Hlk) as Hnd.
  apply (wp_for_each removing); [apply removing_start|]. intros l1 l l2 c' E Hre.
  assert (l ∈ removeDataListeners c) as Hin by (rewrite E; apply elem_of_app; right; left).
  assert (l ∉ l1) as Hni.
  { rewrite E in Hnd. apply NoDup_app in Hnd as (_ & Hd & _). intros Hl. apply (Hd _ Hl). left. }
  destruct l as [did|gid]; [by apply removing_dim|by apply removing_group].
Qed.

(** ** The state that remains *)

Section remains.
Context c2 (Hre : removing (removeDataListeners c) c2).
Definition remains : cf :=
  Cf (data ct) (n ct) (m c2) (M c2) fl (filterListeners c2) (dataListeners c2)
     (removeDataListeners c2) (dims c2) (grps c2) (galls c2).

Lemma remains_dims did d :
  dims c !! did = Some d -> exists d', dims c2 !! did = Some d' /\ added_dim d d' /\ (DPre did ∈ dataListeners c -> shrunk_dim ct d d').
Proof.
  intros Hd. destruct (re_dims _ _ Hre did d Hd) as (d' & Hd' & E). exists d'. split; [done|].
  case_bool_decide as Hin; [destruct E; by split_and!|]. subst. split; [by split|].
  intros Hpre. exfalso. by apply Hin, (lk_rdims _ _ Hlk).
Qed.

Lemma remains_live did d' : live remains did d' -> exists d, live c did d /\ shrunk_dim ct d d'.
Proof.
  intros [Hd' Hl]. simpl in *. rewrite (re_dataListeners _ _ Hre) in Hl.
  destruct (ck_listed _ _ Hc did ltac:(by left)) as [d Hd]. destruct (remains_dims did d Hd) as (d2 & Hd2 & _ & Hsd).
  rewrite Hd' in Hd2. injection Hd2 as <-. exists d. split; [by split|by apply Hsd].
Qed.

Lemma remains_dim_ok did d d' : live c did d -> shrunk_dim ct d d' -> dim_ok remains d'.
Proof.
  intros Hl [[Ev Eo Ez Er Erf _ _] Hrk Hb Hf]. pose proof (ck_base _ _ Hc) as Hbase.
  pose proof (closed_shrunk typed c Hbase fl dat Hgc) as Hsh.
  destruct (ck_dims _ _ Hc did d Hl) as [? _ ? _ ? (b & Hbb & Hone & Hm & Hbits) _].
  split; rewrite ?Ev, ?Eo, ?Ez, ?Er, ?Erf; try done. exists b. cbn [filters m remains]. rewrite (gc_kind _ _ _ Hgc), (re_m _ _ Hre).
  split_and!; try done; try lia. intros p r x Hp Hr Hx.
  destruct (shrunk_at typed c ct Hbase Hsh p Hp) as (k & Hk & Hkk & <-).
  change (data remains) with (data ct) in Hr. rewrite (sh_data _ _ Hsh k Hk Hkk) in Hr. rewrite (gc_cells _ _ _ Hgc k Hk Hkk) in Hx.
  rewrite (Hbits k r x Hk Hr Hx). unfold passes. by rewrite Er, Erf.
Qed.

Lemma remains_ok : cf_ok typed remains.
Proof.
  pose proof (closed_base typed c (ck_base _ _ Hc) fl dat Hgc) as Hb.
  assert (forall did d, live c did d -> exists d', live remains did d' /\ d_one d' = d_one d) as Hfwd.
  { intros did d [Hd Hl]. destruct (remains_dims did d Hd) as (d' & Hd' & [] & _). exists d'. split; [|done]. split; [done|].
    simpl. by rewrite (re_dataListeners _ _ Hre). }
  pose proof Hre as [_ _ Em EM _ Edl _ _ El _ _ _ _]. destruct Hc as [_ Hu Ho Hun Hdi Hli Hor Hno].
  split; cbn [data n m M filters filterListeners dataListeners dims remains]; rewrite ?Em, ?Edl; try done.
  - destruct Hb. split; simpl in *; rewrite ?Em, ?EM; done.
  - intros b k x Hb' Hm Hx. destruct (closed_cells typed c (ck_base _ _ Hc) fl dat Hgc k x Hx) as [->|[k' Hk']]; [apply Z.bits_0|eauto].
  - intros b Hb' Hm. destruct (Ho b Hb' Hm) as (did & d & Hl & E). destruct (Hfwd did d Hl) as (d' & Hl' & E'). exists did, d'.
    split; [done|congruence].
  - intros e e' de de' (d & Hl & [[_ E _ _ _ _ _] _ _ _])%remains_live (d' & Hl' & [[_ E' _ _ _ _ _] _ _ _])%remains_live Heq.
    eapply Hun; [done..|congruence].
  - intros did d' (d & Hl & Hsd)%remains_live. by eapply remains_dim_ok.
  - intros did Hl. apply Hli in Hl. rewrite lookup_lt_is_Some in *. by rewrite El.
Qed.

Lemma remains_group gid did d :
  DPost did ∈ dataListeners c -> dims c !! did = Some d -> gid ∈ d_indexListeners d ->
  exists g', grps remains !! gid = Some g' /\ grp_ok remains (filters remains) gid g' /\ linked typed (n remains) did gid g'.
Proof.
  intros Hdl Hd Hin. assert (gid ∈ registered c) as Hreg by (apply elem_of_registered; eauto).
  assert (exists g, grps c1 !! gid = Some g /\ linked typed (n c1) did gid g) as (g & Hg & Hl).
  { apply (lk_groups _ _ Hlk1 did d gid); rewrite ?(sc_dataListeners _ _ Hcore), ?(sc_dims _ _ Hcore); done. }
  destruct (re_grps _ _ Hre gid g Hreg Hg) as (g' & Hg' & E). exists g'. split; [done|].
  rewrite bool_decide_true in E by (by apply (lk_rgroups _ _ Hlk)). rewrite (ln_dim _ _ _ _ _ Hl) in E. destruct E as [Hok Hl']. split; [|done].
  apply (grp_ok_dims ct remains); [done..| |done]. intros e de He. destruct (remains_dims e de He) as (de' & ? & [] & _). eauto 8.
Qed.

Lemma remains_gall aid :
  FAll aid ∈ filterListeners c -> exists a, galls remains !! aid = Some a /\ gall_ok remains (filters remains) a.
Proof.
  intros Ha. destruct (Hok1 _ Ha) as (a & Haa & w & Hw & Hv). exists a. cbn [galls remains]. rewrite (re_galls _ _ Hre).
  split; [done|]. exists w. split; [done|]. intros Hr. rewrite (Hv Hr). do 2 f_equal.
  pose proof (ck_base _ _ Hc) as Hbase. pose proof (closed_shrunk typed c Hbase fl dat Hgc) as Hsh.
  rewrite (sc_data _ _ Hcore), (sc_n _ _ Hcore). cbn [filters remains]. change (data remains) with (data ct). change (n remains) with (rank (keep (filters c)) (n c)).
  apply total_masked_rank.
  - by eapply bk_nonneg.
  - apply Hbase.
  - exists 0. by split.
  - intros k Hk Hkk. unfold unmasked, amount. by rewrite (gc_cells _ _ _ Hgc), (sh_data _ _ Hsh).
Qed.

Lemma remains_state : groups_ok typed remains /\ links typed remains.
Proof.
  assert (forall did, DPost did ∈ dataListeners c -> is_Some (dims c !! did)) as Hli by (intros; apply (ck_listed _ _ Hc); by right).
  pose proof Hre as [_ _ Em _ _ Edl Erl Ega _ _ _ Eot Els].
  assert (length (galls remains) = length (galls c)) as El by (simpl; by rewrite Ega).
  split; [apply (relinked_groups_ok typed c); try done|apply (relinked_links typed c); try done].
  - apply remains_group.
  - apply remains_gall.
  - intros did d _ Hd. destruct (remains_dims did d Hd) as (d' & ? & [] & _). eauto.
  - apply remains_group.
  - intros gid did d Hdl Hd Hin Hn. unfold made. cbn [grps remains]. rewrite Eot by done.
    apply (lk_made _ _ Hlk1 did d); [by rewrite (sc_dataListeners _ _ Hcore)|by rewrite (sc_dims _ _ Hcore)|done].
Qed.

(** The records that remain are those that were not selected. *)
Lemma remains_data : data remains = List.filter (fun r => negb (selectedb c r)) (data c).
Proof.
  pose proof (ck_base _ _ Hc) as Hbase. pose proof (bk_n _ _ Hbase) as En. pose proof (bk_nonneg _ _ Hbase) as Hn.
  apply (inj (fmap Some)). change (data remains) with (data ct). rewrite (closed_data typed c Hbase fl dat Hgc).
  rewrite <- (slice_all (data c) (n c)) at 2 by done. rewrite kept_stored by lia. f_equal. apply kept_ext.
  intros k Hk. destruct (keep_cell typed c Hbase k Hk) as (x & Hx & ->).
  destruct (aget_is_Some (data c) k) as [r Hr]; [by rewrite <- En|]. unfold stored. rewrite Hr. by apply (cell_selected typed c k).
Qed.

Lemma remains_selection : selection remains = [].
Proof.
  apply filter_none. intros r Hr. change (data remains) with (data ct) in Hr. apply elem_of_aget in Hr as [p Hp].
  pose proof (ck_base _ _ Hc) as Hbase. pose proof (closed_shrunk typed c Hbase fl dat Hgc) as Hsh.
  pose proof (aget_Some _ _ _ Hp) as Hpb. rewrite (sh_len _ _ Hsh) in Hpb.
  destruct (shrunk_at typed c ct Hbase Hsh p Hpb) as (k & Hk & Hkk & <-). destruct (keep_cell typed c Hbase k Hk) as (x & Hx & E).
  rewrite Hkk in E. rewrite <- (gc_cells _ _ _ Hgc k Hk Hkk) in Hx. pose proof (cell_selected typed remains _ r x remains_ok Hp Hx) as Hs.
  rewrite <- E in Hs. by destruct (selectedb remains r).
Qed.
End remains.
End stages.

(** ** All stages *)

(** What [remove] does to a crossfilter. *)
Record removed c c' : Prop := Removed {
  rm_data : data c' = List.filter (fun r => negb (selectedb c r)) (data c);
  rm_selection : selection c' = [];
  rm_dataListeners : dataListeners c' = dataListeners c;
  rm_dims : forall did d, live c did d -> exists d', live c' did d' /\ added_dim d d'
}.

Lemma removeData_wp c :
  cf_ok typed c -> groups_ok typed c -> links typed c ->
  wp (removeData typed c) (fun c' => (cf_ok typed c' /\ groups_ok typed c' /\ links typed c') /\ removed c c').
Proof.
  intros Hc Hgo Hlk. pose proof (ck_base _ _ Hc) as Hbase. unfold removeData.
  destruct (wp_elim _ _ (compact_data_wp typed c Hbase)) as ([[fl1 dat] j] & E1 & -> & Hkd & Hf & Hd).
  destruct (wp_elim _ _ (clear_cells_wp typed c Hbase fl1 dat Hkd Hf Hd)) as (fl & E2 & Hgc).
  apply wp_bind. eapply wp_mono; [by apply (places_wp typed)|]. intros [[newIndex ids] j] [Hpl ->].
  apply wp_bind. eapply wp_mono; [by apply (notify_dropped_wp typed)|]. intros c1 (Hcore & Hl1 & Hg1 & Hlk1 & Hok1).
  apply wp_bind. eapply wp_mono; [by apply (removing_all c Hc Hlk fl dat Hgc c1)|]. intros c2 Hre.
  pose proof Hre as [Ed En _ _ Ef Edl _ _ _ _ _ _ _]. rewrite Ed, En, Ef, E1. cbn [mbind js_bind]. rewrite E2. apply wp_Ret.
  change (Cf _ _ _ _ _ _ _ _ _ _ _) with (remains c fl dat c2).
  split; [split; [by eapply remains_ok|by eapply remains_state]|split].
  - by eapply remains_data.
  - by eapply remains_selection.
  - done.
  - intros did d [Hd' Hl]. destruct (remains_dims c Hlk fl dat c1 c2 Hre did d Hd') as (d' & Hd2 & Had & _). exists d'. split; [|done]. split; [done|].
    simpl. by rewrite Edl.
Qed.
End removal.
