(* ===== verification/CfDispose.v ===== *)
(** * crossfilter: [dispose] of a group and of a dimension

    A group that is disposed of is no longer told of anything.  A dimension
    that is disposed of takes its groups with it, gives its bit back and clears
    it in the filters.  A group may be disposed of twice, and its dimension
    after it, as long as there are records: with none, all groups have the same
    listener, and one loses the other's. *)

From S2P Require Import Prelude.
From S2P Require Import Arrays.
From S2P Require Import Sums.
From S2P Require Import CfBisect.
From S2P Require Import CfArray.
From S2P Require Import CfBits.
From S2P Require Import CfCore.
From S2P Require Import CfInv.
From S2P Require Import CfFilter.
From S2P Require Import CfSelect.
From S2P Require Import CfMerge.
From S2P Require Import CfGroups.
From S2P Require Import CfLinks.
From S2P Require Import CfGroupUse.

(** ** [splice] of one element *)

Section splice.
Context {L : Type} `{EqDecision L}.
Implicit Types (x y : L) (l : list L).

Lemma splice_one_perm x l : x ∈ l -> l ≡ₚ x :: splice_one x l.
Proof.
  induction l as [|y l IH]; simpl; [by intros []%elem_of_nil|]. case_decide as E; [by subst|].
  intros [->|Hl]%elem_of_cons; [done|]. rewrite (IH Hl) at 1. apply perm_swap.
Qed.

Lemma splice_one_none x l : x ∉ l -> splice_one x l = l.
Proof.
  induction l as [|y l IH]; simpl; [done|]. intros [Hne Hl]%not_elem_of_cons. rewrite decide_False by done. by rewrite IH.
Qed.

Lemma splice_one_sub x y l : y ∈ splice_one x l -> y ∈ l.
Proof.
  destruct (decide (x ∈ l)) as [Hx|Hx]; [|by rewrite splice_one_none]. intros Hy. rewrite (splice_one_perm x l Hx). by right.
Qed.

Lemma splice_one_other x y l : y <> x -> y ∈ splice_one x l <-> y ∈ l.
Proof.
  intros Hne. destruct (decide (x ∈ l)) as [Hx|Hx]; [|by rewrite splice_one_none].
  rewrite (splice_one_perm x l Hx) at 2. rewrite elem_of_cons. naive_solver.
Qed.

Lemma splice_one_nodup x l : NoDup l -> NoDup (splice_one x l) /\ x ∉ splice_one x l.
Proof.
  intros Hnd. destruct (decide (x ∈ l)) as [Hx|Hx]; [|by rewrite splice_one_none].
  rewrite (splice_one_perm x l Hx) in Hnd. apply NoDup_cons in Hnd. tauto.
Qed.

Lemma elem_of_splice_one x y l : NoDup l -> y ∈ splice_one x l <-> y ∈ l /\ y <> x.
Proof.
  intros Hnd. destruct (decide (y = x)) as [->|Hne]; [|rewrite splice_one_other by done; naive_solver].
  destruct (splice_one_nodup x l Hnd). naive_solver.
Qed.

Lemma splice_one_filter (p : L -> bool) x l : NoDup (List.filter p l) -> NoDup (List.filter p (splice_one x l)).
Proof.
  intros Hnd. destruct (decide (x ∈ l)) as [Hx|Hx]; [|by rewrite splice_one_none].
  rewrite (List_filter_perm _ _ _ (splice_one_perm x l Hx)) in Hnd. simpl in Hnd. destruct (p x); [by apply NoDup_cons in Hnd as [_ ?]|done].
Qed.

Lemma splice_one_app_l x l1 l2 : x ∈ l1 -> splice_one x (l1 ++ l2) = splice_one x l1 ++ l2.
Proof.
  induction l1 as [|y l1 IH]; simpl; [by intros []%elem_of_nil|]. case_decide as E; [done|].
  intros [->|Hl]%elem_of_cons; [done|]. simpl. by rewrite IH.
Qed.

Lemma splice_one_app_r x l1 l2 : x ∉ l1 -> splice_one x (l1 ++ l2) = l1 ++ splice_one x l2.
Proof.
  induction l1 as [|y l1 IH]; simpl; [done|]. intros [Hne Hl]%not_elem_of_cons. rewrite decide_False by done. by rewrite IH.
Qed.
End splice.

Lemma splice_one_fmap {L K} `{EqDecision L, EqDecision K} (f : L -> K) `{!Inj (=) (=) f} x l :
  splice_one (f x) (f <$> l) = f <$> splice_one x l.
Proof.
  induction l as [|y l IH]; [done|]. rewrite fmap_cons. simpl. destruct (decide (x = y)) as [->|Hne].
  - by rewrite decide_True.
  - rewrite decide_False by (by intros E%(inj f)). by rewrite IH.
Qed.

#[export] Instance DPre_inj : Inj (=) (=) DPre.
Proof. by intros ? ? [= ->]. Qed.

Section dispose.
Context {R X : Type} `{JsOrdLaws X} (typed : bool).
Abbreviation cf := (@CfCore.cf R X).
Abbreviation dim := (@CfCore.dim R X).
Abbreviation grp := (@CfCore.grp R X).
Implicit Types (c : cf) (d : dim) (g : grp) (fl : tarr).

Definition consistent c : Prop := cf_ok typed c /\ groups_ok typed c /\ links typed c.

(** ** A group *)

(** The state without group [gid] of dimension [did]. *)
Definition without_group c (did : nat) d (gid : nat) (u : flistener) : cf :=
  set_removeDataListeners
    (put_dim (set_filterListeners c (splice_one u (filterListeners c))) did
             (with_indexListeners d (splice_one gid (d_indexListeners d))))
    (splice_one (RGroup gid) (removeDataListeners c)).

Section group.
Context c (Hc : cf_ok typed c) (Hgo : groups_ok typed c) (Hlk : links typed c).
Context did d (Hl : live c did d) (gid : nat).

Lemma live_post : DPost did ∈ dataListeners c.
Proof. apply (lk_posts _ _ Hlk), Hl. Qed.

Lemma live_nodup : NoDup (d_indexListeners d).
Proof.
  pose proof (lk_nodup _ _ Hlk) as Hnd. destruct (list_elem_of_split _ _ live_post) as (l1 & l2 & E).
  unfold registered in Hnd. rewrite E in Hnd. change (DPost did :: l2) with ([DPost did] ++ l2) in Hnd.
  rewrite !registered_by_app in Hnd. apply NoDup_app in Hnd as (_ & _ & [Hnd _]%NoDup_app).
  unfold registered_by in Hnd. simpl in Hnd. by rewrite (proj1 Hl), app_nil_r in Hnd.
Qed.

(** It depends on nothing else that a group is told of new records. *)
Lemma dims_regrouped il e de :
  dims c !! e = Some de -> exists de', <[did := with_indexListeners d il]> (dims c) !! e = Some de' /\
    (e <> did -> de' = de) /\ d_value de' = d_value de /\ d_one de' = d_one de /\ d_zero de' = d_zero de /\ d_values de' = d_values de /\
    d_index de' = d_index de /\ d_refilter de' = d_refilter de /\ d_refilterFunction de' = d_refilterFunction de /\
    d_lo0 de' = d_lo0 de /\ d_hi0 de' = d_hi0 de.
Proof.
  intros He. destruct (decide (e = did)) as [->|Hne].
  - rewrite (proj1 Hl) in He. injection He as <-. exists (with_indexListeners d il).
    rewrite list_lookup_insert_eq by (eapply lookup_lt_Some, Hl). by split_and!.
  - exists de. rewrite list_lookup_insert_ne by done. by split_and!.
Qed.

Lemma without_group_ok u : cf_ok typed (without_group c did d gid u).
Proof.
  apply (cf_ok_dims typed c); try done; [apply length_insert|]. intros e de He.
  destruct (dims_regrouped (splice_one gid (d_indexListeners d)) e de He) as (de' & ? & _ & ?). exists de'. by split.
Qed.

Lemma without_group_groups u : groups_ok typed (without_group c did d gid u).
Proof.
  destruct Hgo as [Hok Hnd Hlast Hdata Hlen]. split; simpl; try done.
  - intros l Hin%splice_one_sub. apply (listener_ok_ext (put_dim c did (with_indexListeners d (splice_one gid (d_indexListeners d))))); try done.
    apply (listener_ok_put_dim c did d); try done; [apply Hl|by apply Hok].
  - by apply splice_one_filter.
  - intros [aid Ha%splice_one_sub]. eauto.
  - intros aid Ha%splice_one_sub. auto.
Qed.

(** A group that has not been disposed of. *)
Section first.
Context (Hin : gid ∈ d_indexListeners d).

Lemma group_here : exists g, grps c !! gid = Some g /\ linked typed (n c) did gid g.
Proof. by apply (lk_groups _ _ Hlk did d); [apply live_post|apply Hl|]. Qed.

Lemma without_group_registered u : registered c ≡ₚ gid :: registered (without_group c did d gid u).
Proof.
  unfold registered. simpl. set (d' := with_indexListeners d _).
  assert (dims c = <[did := d]> (<[did := d']> (dims c))) as E by (rewrite list_insert_insert_eq, list_insert_id; [done|apply Hl]).
  rewrite E at 1. apply (registered_by_insert _ did d').
  - apply list_lookup_insert_eq. eapply lookup_lt_Some, Hl.
  - by apply splice_one_perm.
  - apply Hc.
  - apply live_post.
Qed.

Lemma without_group_links : links typed (without_group c did d gid (update_of (grps c) gid)).
Proof.
  pose proof (without_group_registered (update_of (grps c) gid)) as Er. destruct group_here as (g & Hg & Hlg).
  set (c' := without_group _ _ _ _ _) in *.
  assert (forall e de, dims c' !! e = Some de -> exists d0, dims c !! e = Some d0 /\ d_dimensionGroups de = d_dimensionGroups d0 /\
    forall x, x ∈ d_indexListeners de -> x ∈ d_indexListeners d0) as Hback.
  { intros e de. simpl. destruct (decide (e = did)) as [->|Hne].
    - rewrite list_lookup_insert_eq by (eapply lookup_lt_Some, Hl). intros [= <-]. exists d. split_and!; [apply Hl|done|].
      simpl. intros x. apply splice_one_sub.
    - rewrite list_lookup_insert_ne by done. eauto. }
  pose proof Hlk as [Hp Hnd Hown Hmade Hgs Hls Hr Hrd Hrg].
  assert (gid ∈ registered c) as Hreg by (rewrite Er; left).
  rewrite Er in Hnd. apply NoDup_cons in Hnd as [Hfresh Hnd].
  assert (is_all (update_of (grps c) gid) = false) as Hna.
  { unfold update_of. rewrite Hg. destruct (ln_update _ _ _ _ _ Hlg) as [E|[E|E]]; by rewrite E. }
  split; try done.
  - intros e de x Hdl Hde Hx. destruct (Hback e de Hde) as (d0 & Hd0 & -> & Hsub). by apply (Hown e d0); [..|apply Hsub].
  - intros e de x Hdl Hde Hx. destruct (Hback e de Hde) as (d0 & Hd0 & E & _). rewrite E in Hx. by apply (Hmade e d0).
  - intros e de x Hdl Hde Hx. destruct (Hback e de Hde) as (d0 & Hd0 & _ & Hsub). by apply (Hgs e d0); [..|apply Hsub].
  - change (filterListeners c') with (splice_one (update_of (grps c) gid) (filterListeners c)). change (grps c') with (grps c).
    assert (update_of (grps c) gid ∈ filterListeners c) as Hu.
    { rewrite Hls. apply elem_of_app. left. by apply list_elem_of_fmap_2. }
    pose proof (splice_one_perm _ _ Hu) as Es. apply (Permutation_cons_inv (a := update_of (grps c) gid)). rewrite <- Es. rewrite Hls at 1.
    rewrite Er, fmap_cons, <- app_comm_cons. apply perm_skip, Permutation_app_head.
    rewrite (List_filter_perm _ _ _ Es). simpl. by rewrite Hna.
  - by apply splice_one_nodup.
  - intros e. simpl. by rewrite splice_one_other.
  - intros e. simpl. rewrite elem_of_splice_one by done. rewrite Hrg, Er, elem_of_cons. split.
    + intros [[->|?] ?]; done.
    + intros Hx. split; [by right|]. intros [= ->]. done.
Qed.

Lemma group_dispose_first : group_dispose c gid = Ret (without_group c did d gid (update_of (grps c) gid)).
Proof.
  destruct group_here as (g & Hg & Hlg). unfold group_dispose, the_grp, update_of. rewrite Hg. cbn [mbind js_bind].
  rewrite (ln_dim _ _ _ _ _ Hlg). by rewrite (the_dim_ret _ _ _ (proj1 Hl)).
Qed.
End first.

(** A group that has been disposed of: nothing is left to remove. *)
Lemma group_dispose_again :
  0 < n c -> gid ∈ d_dimensionGroups d -> gid ∉ d_indexListeners d -> group_dispose c gid = Ret c.
Proof.
  intros Hn Hin Hni. destruct (lk_made _ _ Hlk did d gid live_post (proj1 Hl) Hin) as (g & Hg & Hgd & Hu).
  assert (gid ∉ registered c) as Hnr.
  { intros (e & de & Hdl & Hde & Hine)%elem_of_registered. destruct (lk_groups _ _ Hlk e de gid Hdl Hde Hine) as (g2 & Hg2 & Hl2).
    rewrite Hg in Hg2. injection Hg2 as <-. pose proof (ln_dim _ _ _ _ _ Hl2) as E. rewrite Hgd in E. subst e.
    rewrite (proj1 Hl) in Hde. injection Hde as <-. done. }
  assert (g_update g ∉ filterListeners c) as Hnl.
  { rewrite (lk_listeners _ _ Hlk), elem_of_app. intros [(e & E & He)%list_elem_of_fmap|Ha].
    - destruct (registered_group typed c e Hlk He) as (? & ? & g2 & _ & _ & _ & Hg2 & Hl2). unfold update_of in E. rewrite Hg2 in E.
      destruct (ln_update _ _ _ _ _ Hl2) as [E2|E2]; [destruct (ln_null _ _ _ _ _ Hl2 E2) as (_ & _ & ?); lia|].
      destruct Hu as [|[|]], E2 as [|]; try congruence; assert (gid = e) by congruence; by subst.
    - apply list_elem_of_In, filter_In in Ha as [_ Ha]. destruct Hu as [E|[E|E]]; by rewrite E in Ha. }
  unfold group_dispose, the_grp. rewrite Hg. cbn [mbind js_bind]. rewrite Hgd, (the_dim_ret _ _ _ (proj1 Hl)). cbn [mbind js_bind].
  rewrite !splice_one_none by (done || by rewrite (lk_rgroups _ _ Hlk)).
  unfold put_dim. simpl. replace (with_indexListeners d (d_indexListeners d)) with d by (by destruct d).
  rewrite list_insert_id by apply Hl. by destruct c.
Qed.
End group.

(** [dispose] of a group, for the first time or again. *)
Lemma group_dispose_wp c did d gid :
  consistent c -> live c did d -> gid ∈ d_dimensionGroups d -> 0 < n c \/ gid ∈ d_indexListeners d ->
  wp (group_dispose c gid) (fun c' => consistent c' /\ (c' = c \/ exists u, c' = without_group c did d gid u) /\
    exists d', live c' did d' /\ d' = with_indexListeners d (d_indexListeners d') /\
      forall x, x ∈ d_indexListeners d' <-> x ∈ d_indexListeners d /\ x <> gid).
Proof.
  intros (Hc & Hgo & Hlk) Hl Hin Hor. destruct (decide (gid ∈ d_indexListeners d)) as [Hyes|Hno].
  - rewrite (group_dispose_first c Hlk did d Hl gid Hyes). simpl. split; [|split; [eauto|]].
    + split; [by apply without_group_ok|split; [by apply without_group_groups|by apply without_group_links]].
    + exists (with_indexListeners d (splice_one gid (d_indexListeners d))). split_and!; [|done|].
      * split; [|apply Hl]. simpl. apply list_lookup_insert_eq. eapply lookup_lt_Some, Hl.
      * simpl. intros x. apply elem_of_splice_one. by eapply live_nodup.
  - destruct Hor as [Hn|]; [|done]. rewrite (group_dispose_again c Hc Hgo Hlk did d Hl gid Hn Hin Hno). simpl. split_and!; try done; [by left|].
    exists d. split_and!; [done|by destruct d|]. naive_solver.
Qed.

(** ** The groups of a dimension *)

(** The state with fewer groups for dimension [did]. *)
Record fewer_groups c did d c' : Prop := FewerGroups {
  fg_data : data c' = data c;
  fg_n : n c' = n c;
  fg_m : m c' = m c;
  fg_dataListeners : dataListeners c' = dataListeners c;
  fg_removes : forall e, RDim e ∈ removeDataListeners c' <-> RDim e ∈ removeDataListeners c;
  fg_dims : exists il, dims c' = <[did := with_indexListeners d il]> (dims c)
}.

Lemma dispose_groups_wp c did d :
  consistent c -> live c did d -> 0 < n c \/ d_dimensionGroups d = d_indexListeners d ->
  wp (for_each (d_dimensionGroups d) (fun gid c => group_dispose c gid) c) (fun c' =>
    consistent c' /\ fewer_groups c did d c' /\ exists d', live c' did d' /\ d_indexListeners d' = []).
Proof.
  intros Hco Hl Hor. pose proof Hco as (Hc & _ & Hlk).
  pose proof (live_nodup c Hlk did d Hl) as Hnd.
  eapply wp_mono.
  - apply (wp_for_each (fun gs c' => consistent c' /\ fewer_groups c did d c' /\
      exists d', live c' did d' /\ d' = with_indexListeners d (d_indexListeners d') /\
        forall x, x ∈ d_indexListeners d' <-> x ∈ d_indexListeners d /\ x ∉ gs)).
    + split; [done|]. split.
      * split; try done. exists (d_indexListeners d). replace (with_indexListeners d (d_indexListeners d)) with d by (by destruct d).
        symmetry. apply list_insert_id, Hl.
      * exists d. split_and!; [done|by destruct d|]. intros x. split; [|tauto]. intros Hx. split; [done|apply not_elem_of_nil].
    + intros gs1 gid gs2 c1 E (Hco1 & Hfg & d1 & Hl1 & Ed1 & Hil). pose proof Hfg as [Edat En Em Edl Erl (il & Es)].
      assert (gid ∈ d_dimensionGroups d) as Hin by (rewrite E; apply elem_of_app; right; left).
      eapply wp_mono; [apply (group_dispose_wp c1 did d1 gid Hco1 Hl1)|].
      * by rewrite Ed1.
      * rewrite En. destruct Hor as [|Eq]; [by left|right]. apply Hil. rewrite Eq in Hin. split; [done|].
        rewrite <- Eq, E in Hnd. apply NoDup_app in Hnd as (_ & Hd & _). intros Hg. apply (Hd _ Hg). left.
      * intros c2 (Hco2 & Hc2 & d2 & Hl2 & Ed2 & Hil2). split; [done|]. split.
        -- destruct Hc2 as [->|(u & ->)]; [done|]. split; try done; simpl.
           ++ intros e. rewrite <- Erl. by apply splice_one_other.
           ++ exists (splice_one gid (d_indexListeners d1)). rewrite Es, list_insert_insert_eq. by rewrite Ed1.
        -- exists d2. split; [done|]. split; [by rewrite Ed2, Ed1|]. intros x. rewrite Hil2, Hil, elem_of_app, list_elem_of_singleton. tauto.
  - intros c' (Hco' & Hfg & d' & Hl' & _ & Hil). split_and!; try done. exists d'. split; [done|].
    destruct (d_indexListeners d') as [|x l] eqn:Ex; [done|]. exfalso. destruct (proj1 (Hil x) ltac:(left)) as [Hx Hni].
    apply Hni. apply (lk_own _ _ Hlk did d); [by eapply live_post|apply Hl|done].
Qed.

(** ** What filters do not look at *)

(** The mask and two listener arrays are replaced. *)
Definition with_lists c (m' : Z) (dl : list dlistener) (rl : list rlistener) : cf :=
  Cf (data c) (n c) m' (M c) (filters c) (filterListeners c) dl rl (dims c) (grps c) (galls c).

Section lists.
Context (m' : Z) (dl : list dlistener) (rl : list rlistener).
Abbreviation W c := (with_lists c m' dl rl).
Abbreviation mapW r := (c' ← r; Ret (W c')).

Lemma run_filterListener_lists one added removed l c :
  run_filterListener one added removed l (W c) = mapW (run_filterListener one added removed l c).
Proof.
  destruct l as [|gid|gid|aid]; simpl; [done|unfold updateMany|unfold updateOne|unfold groupAll_update].
  1, 2: change (the_grp (W c) gid) with (the_grp c gid); destruct (the_grp c gid) as [g| |]; [|done..]; cbn [mbind js_bind];
    change (the_dim (W c) (g_dim g)) with (the_dim c (g_dim g)); destruct (the_dim c (g_dim g)) as [d| |]; [|done..]; cbn [mbind js_bind];
    destruct (_ || _); [done|]; cbn [filters data with_lists];
    destruct (for_each added _ _) as [gs| |]; [|done..]; cbn [mbind js_bind]; by destruct (for_each removed _ _).
  change (the_gall (W c) aid) with (the_gall c aid). destruct (the_gall c aid) as [a| |]; [|done..]. cbn [mbind js_bind].
  destruct (a_resetNeeded a); [done|]. cbn [filters data with_lists].
  destruct (for_each added _ _) as [v| |]; [|done..]. cbn [mbind js_bind]. by destruct (for_each removed _ _).
Qed.

Lemma notify_filter_lists one added removed c :
  notify_filter (W c) one added removed = mapW (notify_filter c one added removed).
Proof.
  unfold notify_filter. cbn [filterListeners with_lists]. generalize (filterListeners c). intros l. revert c.
  induction l as [|x l IH]; intros c; [done|]. cbn [for_each]. rewrite run_filterListener_lists.
  destruct (run_filterListener one added removed x c); [|done..]. apply IH.
Qed.

Lemma filterIndexFunction_lists c did f : filterIndexFunction (W c) did f = mapW (filterIndexFunction c did f).
Proof.
  unfold filterIndexFunction. change (the_dim (W c) did) with (the_dim c did). destruct (the_dim c did) as [d| |]; [|done..].
  cbn [mbind js_bind n filters with_lists]. destruct (filter_scan d (n c) f (filters c)) as [[[fl A] D]| |]; [|done..].
  apply (notify_filter_lists _ _ _ (set_filters c fl)).
Qed.

Lemma filterIndexBounds_lists c did lo hi : filterIndexBounds (W c) did lo hi = mapW (filterIndexBounds c did lo hi).
Proof.
  unfold filterIndexBounds. change (the_dim (W c) did) with (the_dim c did). destruct (the_dim c did) as [d| |]; [|done..].
  cbn [mbind js_bind]. destruct (d_refilterFunction d).
  - change (put_dim (W c) did ?d') with (W (put_dim c did d')). rewrite filterIndexFunction_lists.
    destruct (filterIndexFunction _ _ _) as [c'| |]; [|done..]. cbn [mbind js_bind].
    change (the_dim (W c') did) with (the_dim c' did). by destruct (the_dim c' did).
  - cbn [filters with_lists]. destruct (shift_lo _ _ _ _ _ _ _ _ _) as [[[fl A] D]| |]; [|done..]. cbn [mbind js_bind].
    destruct (shift_hi _ _ _ _ _ _ _ _ _) as [[[fl2 A2] D2]| |]; [|done..].
    apply (notify_filter_lists _ _ _ (put_dim (set_filters c fl2) did (with_bounds d lo hi))).
Qed.

Lemma filter_by_lists c did r : filter_by (W c) did r = mapW (filter_by c did r).
Proof.
  unfold filter_by. change (the_dim (W c) did) with (the_dim c did). destruct (the_dim c did) as [d| |]; [|done..].
  cbn [mbind js_bind]. destruct (refilter_run r (d_values d)) as [[lo hi]| |]; [|done..].
  apply (filterIndexBounds_lists (put_dim c did (with_refilter d r (d_refilterFunction d)))).
Qed.
End lists.

(** ** A dimension *)

(** Filters do not give a dimension groups. *)
#[export] Instance UngroupedListeners did rl : FilterListeners typed (fun c =>
  (groups_ok typed c /\ links typed c) /\ removeDataListeners c = rl /\ forall d, dims c !! did = Some d -> d_indexListeners d = []).
Proof.
  split.
  - intros c fl' b added removed Hb (Hg & Hr & Hu) Hbit Hm Hch.
    eapply wp_mono; [by apply (fl_notify c fl' b added removed Hb Hg Hbit Hm Hch)|].
    intros c' [Hcore Hg']. split; [done|]. split; [done|]. split; [by rewrite (sc_removeDataListeners _ _ Hcore)|].
    intros d. rewrite (sc_dims _ _ Hcore). apply Hu.
  - intros c e d d' (Hg & Hr & Hu) Hd Ho Hz Hv Hi Hgr. split; [by apply (fl_dims (LI := fun c => groups_ok typed c /\ links typed c) c e d d')|]. split; [done|]. intros d0. simpl.
    destruct (decide (e = did)) as [->|Hne]; [|rewrite list_lookup_insert_ne by done; apply Hu].
    rewrite list_lookup_insert_eq by (by eapply lookup_lt_Some). intros [= <-]. rewrite Hi. by apply Hu.
Qed.

Lemma registered_by_splice (ds : list dim) l dl :
  registered_by ds [l] = [] -> registered_by ds (splice_one l dl) = registered_by ds dl.
Proof.
  intros Hl. induction dl as [|l' dl IH]; [done|]. cbn [splice_one]. change (l' :: dl) with ([l'] ++ dl).
  case_decide as E; [subst; by rewrite registered_by_app, Hl|].
  change (l' :: splice_one l dl) with ([l'] ++ splice_one l dl). by rewrite !registered_by_app, IH.
Qed.

(** The state without dimension [did]: its filter has been taken back. *)
Section unlisted.
Context c (Hc : cf_ok typed c) (Hgo : groups_ok typed c) (Hlk : links typed c).
Context did d (Hl : live c did d) (Hnone : d_indexListeners d = []).
Context (Hpass : forall x, passes d x = true).
Context rl (Hrl : NoDup rl) (Hrd : forall e, RDim e ∈ rl <-> RDim e ∈ removeDataListeners c /\ e <> did)
  (Hrg : forall gid, RGroup gid ∈ rl <-> RGroup gid ∈ removeDataListeners c).

Let dl := splice_one (DPost did) (splice_one (DPre did) (dataListeners c)).
Definition unlisted : cf := with_lists c (js_and (m c) (d_zero d)) dl rl.

Lemma unlisted_pre e : DPre e ∈ dl <-> DPre e ∈ dataListeners c /\ e <> did.
Proof.
  unfold dl. rewrite splice_one_other by done. rewrite elem_of_splice_one by apply Hc. naive_solver.
Qed.

Lemma unlisted_post e : DPost e ∈ dl <-> DPost e ∈ dataListeners c /\ e <> did.
Proof.
  unfold dl. rewrite elem_of_splice_one by (apply splice_one_nodup, Hc). rewrite splice_one_other by done. naive_solver.
Qed.

Lemma unlisted_all aid : DAll aid ∈ dl <-> DAll aid ∈ dataListeners c.
Proof. unfold dl. by rewrite !splice_one_other. Qed.

Lemma unlisted_live e de : live unlisted e de <-> live c e de /\ e <> did.
Proof. unfold live. simpl. fold dl. rewrite unlisted_pre. tauto. Qed.

Lemma unlisted_mask : exists b, 0 <= b < 32 /\ d_one d = bit_one b /\ Z.testbit (m c) b = true /\
  forall i, 0 <= i < 32 -> Z.testbit (m unlisted) i = Z.testbit (m c) i && negb (bool_decide (i = b)).
Proof.
  destruct (ck_dims _ _ Hc did d Hl) as [Hz _ _ _ _ (b & Hb & Hone & Hm & _) _].
  pose proof (kind_width_range _ (bk_kind_ok _ _ (ck_base _ _ Hc))). exists b. split_and!; try done; try lia.
  intros i Hi. simpl. rewrite Hz, Hone, testbit_js_and, testbit_js_not, testbit_bit_one by lia. done.
Qed.

(** No record has the bit any more. *)
Lemma unlisted_clear b k x : 0 <= b < 32 -> d_one d = bit_one b -> aget (tcells (filters c)) k = Some x -> Z.testbit x b = false.
Proof.
  intros Hb Hone Hx. destruct (ck_dims _ _ Hc did d Hl) as [_ _ _ _ _ (b' & Hb' & Hone' & _ & Hbits) _].
  pose proof (ck_base _ _ Hc) as Hbase. pose proof (kind_width_range _ (bk_kind_ok _ _ Hbase)).
  assert (b' = b) as -> by (apply bit_one_inj; lia || congruence).
  destruct (decide (k < n c)) as [Hk|Hk]; [|by rewrite (bk_tail _ _ Hbase k x ltac:(lia) Hx), Z.bits_0].
  pose proof (aget_Some _ _ _ Hx). destruct (aget_is_Some (data c) k) as [r Hr]; [rewrite <- (bk_n _ _ Hbase); lia|].
  rewrite (Hbits k r x ltac:(lia) Hr Hx). by rewrite Hpass.
Qed.

Lemma unlisted_ok : cf_ok typed unlisted.
Proof.
  destruct unlisted_mask as (b & Hb & Hone & Hmb & Hmask). pose proof (ck_base _ _ Hc) as Hbase.
  pose proof Hc as [_ Hu Ho Hun Hdi Hli Hor Hno].
  split; try intros e; try done.
  - destruct Hbase as [? ? ? Hm ? Hw ? ? ?]. split; try done.
    + apply js_and_range.
    + intros i Hi. rewrite Hmask by (cbn [M unlisted with_lists] in *; lia). by rewrite Hm.
  - intros k x He Hm Hx. rewrite Hmask in Hm by done. apply andb_false_iff in Hm as [Hm|Hm]; [by apply (Hu e k)|].
    apply negb_false_iff, bool_decide_eq_true in Hm as ->. by apply (unlisted_clear b k).
  - intros He Hm. rewrite Hmask in Hm by done. apply andb_true_iff in Hm as [Hm Hne]. apply negb_true_iff, bool_decide_eq_false in Hne.
    destruct (Ho e He Hm) as (e' & de & Hle & Eo). exists e', de. split; [|done]. rewrite unlisted_live. split; [done|]. intros ->.
    pose proof (proj1 Hl) as E. rewrite (proj1 Hle) in E. injection E as ->. apply Hne. apply bit_one_inj; lia || congruence.
  - intros e' de de' [? _]%unlisted_live [? _]%unlisted_live. by eapply Hun.
  - intros de [Hle Hne]%unlisted_live. destruct (Hdi e de Hle) as [? ? ? ? ? (b' & Hb' & Hone' & Hm' & Hbits) ?]. split; try done.
    exists b'. split; [exact Hb'|]. split; [done|]. split; [|exact Hbits]. rewrite Hmask by (pose proof (kind_width_range _ (bk_kind_ok _ _ Hbase)); lia).
    rewrite Hm', bool_decide_false; [done|]. intros ->. apply Hne. apply (Hun e did de d); [done..|congruence].
  - simpl. fold dl. rewrite unlisted_pre, unlisted_post. intros [[? _]|[? _]]; apply Hli; auto.
  - destruct Hor as (ds & rest & E & Hr). exists (splice_one did ds), (splice_one (DPost did) rest). split.
    + simpl. unfold dl. rewrite E. assert (DPre did ∈ DPre <$> ds) as Hin.
      { pose proof (proj2 Hl) as Hin. rewrite E in Hin. apply elem_of_app in Hin as [|Hin]; [done|]. by apply Hr in Hin. }
      rewrite splice_one_app_l by done. rewrite splice_one_app_r.
      * f_equal. apply (splice_one_fmap DPre).
      * intros Hx%splice_one_sub. apply list_elem_of_fmap in Hx as (? & ? & _). done.
    + intros e Hx%splice_one_sub. by apply (Hr e).
  - simpl. by do 2 apply splice_one_nodup.
Qed.

Lemma unlisted_groups : groups_ok typed unlisted.
Proof.
  destruct Hgo as [Hok Hnd Hlast Hdata Hlen]. destruct unlisted_mask as (b & Hb & Hone & Hmb & Hmask). split; try done.
  - intros l Hin. apply (listener_ok_ext c); try done. by apply Hok.
  - intros Ha. rewrite Hmask by lia. destruct (Hlast Ha) as [|E]; [by left|right]. by rewrite E.
  - intros aid Ha. apply unlisted_all. auto.
  - intros aid Ha%unlisted_all. auto.
Qed.

Lemma unlisted_links : links typed unlisted.
Proof.
  assert (registered unlisted = registered c) as Er.
  { unfold registered. simpl. unfold dl. rewrite !registered_by_splice; [done|done|].
    unfold registered_by. simpl. rewrite (proj1 Hl). by rewrite Hnone. }
  pose proof Hlk as [Hp Hnd Hown Hmade Hgs Hls Hr Hrd0 Hrg0]. split; rewrite ?Er; try done.
  - intros e. simpl. fold dl. by rewrite unlisted_pre, unlisted_post, Hp.
  - intros e de gid [Hdl _]%unlisted_post. by apply Hown.
  - intros e de gid [Hdl _]%unlisted_post. by apply Hmade.
  - intros e de gid [Hdl _]%unlisted_post. by apply Hgs.
  - intros e. simpl. fold dl. by rewrite Hrd, unlisted_pre, Hrd0.
  - intros gid. simpl. by rewrite Hrg.
Qed.
End unlisted.

(** What [dispose] of a dimension does. *)
Record dim_disposed c did d c' : Prop := DimDisposed {
  di_data : data c' = data c;
  di_m : m c' = js_and (m c) (d_zero d);
  di_dims : forall e de, live c' e de <-> live c e de /\ e <> did
}.

Lemma dim_dispose_wp c did d :
  consistent c -> live c did d -> 0 < n c \/ d_dimensionGroups d = d_indexListeners d ->
  wp (dim_dispose c did) (fun c' => consistent c' /\ dim_disposed c did d c').
Proof.
  intros Hco Hl Hor. unfold dim_dispose. rewrite (the_dim_ret _ _ _ (proj1 Hl)). cbn [mbind js_bind].
  apply wp_bind. eapply wp_mono; [by apply (dispose_groups_wp c did d)|].
  intros c1 ((Hc1 & Hgo1 & Hlk1) & [Ed En Em Edl Erl (il & Es)] & d1 & Hl1 & Hil1). cbv zeta.
  change (Cf _ _ _ _ _ _ _ _ _ _ _) with (with_lists c1 (js_and (m c1) (d_zero d))
    (splice_one (DPost did) (splice_one (DPre did) (dataListeners c1))) (splice_one (RDim did) (removeDataListeners c1))).
  unfold filterAll. rewrite filter_by_lists. apply wp_bind. eapply wp_mono.
  { apply (filter_by_wp typed (fun c => (groups_ok typed c /\ links typed c) /\ removeDataListeners c = removeDataListeners c1 /\
      forall d, dims c !! did = Some d -> d_indexListeners d = []) c1 did d1 FilterAll); try done.
    split; [done|]. split; [done|]. intros d0 Hd0. rewrite (proj1 Hl1) in Hd0. by injection Hd0 as <-. }
  intros c2 (Hc2 & ([Hgo2 Hlk2] & Erl2 & Hil2) & Ed2 & En2 & Em2 & Edl2 & d2 & Es2 & Hsd & Hrf & Hrff). apply wp_Ret.
  assert (live c2 did d2) as Hl2.
  { split; [|rewrite Edl2; apply Hl1]. rewrite Es2. apply list_lookup_insert_eq. eapply lookup_lt_Some, Hl1. }
  assert (d1 = with_indexListeners d il) as Ed1.
  { pose proof (proj1 Hl1) as E. rewrite Es in E. rewrite list_lookup_insert_eq in E by (eapply lookup_lt_Some, Hl). by injection E as <-. }
  assert (d_zero d2 = d_zero d) as Ez by (rewrite (sd_zero _ _ Hsd); by rewrite Ed1).
  assert (forall x, passes d2 x = true) as Hp by (intros x; unfold passes; by rewrite Hrff, Hrf).
  pose proof (lk_removes _ _ Hlk1) as Hnd. destruct (splice_one_nodup (RDim did) _ Hnd) as [Hnd' _].
  rewrite <- Em2, <- Edl2, <- Ez. fold (unlisted c2 did d2 (splice_one (RDim did) (removeDataListeners c1))).
  assert (forall e, RDim e ∈ splice_one (RDim did) (removeDataListeners c1) <-> RDim e ∈ removeDataListeners c2 /\ e <> did) as H1.
  { intros e. rewrite elem_of_splice_one, Erl2 by done. naive_solver. }
  assert (forall gid, RGroup gid ∈ splice_one (RDim did) (removeDataListeners c1) <-> RGroup gid ∈ removeDataListeners c2) as H2.
  { intros gid. by rewrite splice_one_other, Erl2. }
  split; [split; [by apply unlisted_ok|split; [by apply unlisted_groups|apply unlisted_links; auto; by apply Hil2, Hl2]]|].
  split.
  - simpl. congruence.
  - simpl. congruence.
  - intros e de. rewrite unlisted_live by done. unfold live. rewrite Es2, Edl2, Edl. destruct (decide (e = did)) as [->|Hne]; [tauto|].
    rewrite list_lookup_insert_ne, Es, list_lookup_insert_ne by done. done.
Qed.

(** ** [groupAll]

    [splice] without a count takes the later listeners with it, so the last
    [groupAll] can be disposed of while nothing has been registered after it. *)

Lemma splice_rest_snoc {L} `{EqDecision L} (x : L) l : x ∉ l -> splice_rest x (l ++ [x]) = l.
Proof.
  induction l as [|y l IH]; simpl; [by rewrite decide_True|]. intros [Hne Hl]%not_elem_of_cons. rewrite decide_False by done. by rewrite IH.
Qed.

Section last.
Context c (Hc : cf_ok typed c) (Hgo : groups_ok typed c) (Hlk : links typed c).
Context aid fls dls (Efl : filterListeners c = (fls ++ [FAll aid])%list) (Edl : dataListeners c = (dls ++ [DAll aid])%list).

Lemma last_in l : l ∈ dls -> l ∈ dataListeners c.
Proof. intros Hl. rewrite Edl. apply elem_of_app. by left. Qed.

Lemma last_other l : l <> DAll aid -> l ∈ dls <-> l ∈ dataListeners c.
Proof. intros Hne. rewrite Edl, elem_of_app, list_elem_of_singleton. naive_solver. Qed.

Lemma last_fresh : (FAll aid ∉ fls) /\ (DAll aid ∉ dls).
Proof.
  split.
  - pose proof (gs_nodup _ _ Hgo) as Hnd. rewrite Efl in Hnd. by apply (nodup_head fls (FAll aid) []).
  - pose proof (ck_nodup _ _ Hc) as Hnd. rewrite Edl in Hnd. apply NoDup_app in Hnd as (_ & Hd & _). intros Hl. apply (Hd _ Hl). left.
Qed.

Lemma groupAll_dispose_last : groupAll_dispose c aid = set_dataListeners (set_filterListeners c fls) dls.
Proof.
  destruct last_fresh. unfold groupAll_dispose. simpl. rewrite Efl, Edl. by rewrite !splice_rest_snoc.
Qed.

Lemma last_live did d : live (groupAll_dispose c aid) did d <-> live c did d.
Proof. rewrite groupAll_dispose_last. unfold live. simpl. by rewrite last_other. Qed.

Lemma last_ok : cf_ok typed (groupAll_dispose c aid).
Proof.
  destruct Hc as [Hb Hu Ho Hun Hdi Hli Hor Hno]. split.
  - rewrite groupAll_dispose_last. by destruct Hb.
  - rewrite groupAll_dispose_last. done.
  - intros b Hb' Hm. rewrite groupAll_dispose_last in Hm. destruct (Ho b Hb' Hm) as (did & d & Hl & E). exists did, d. by rewrite last_live.
  - intros e e' d d'. rewrite !last_live. apply Hun.
  - intros did d Hl%last_live. rewrite groupAll_dispose_last. by destruct (Hdi did d Hl).
  - intros did. rewrite groupAll_dispose_last. simpl. rewrite !last_other by done. apply Hli.
  - rewrite groupAll_dispose_last. simpl. destruct Hor as (ds & rest & E & Hr). rewrite Edl in E.
    destruct rest as [|x rest _] using rev_ind.
    + rewrite app_nil_r in E. exfalso. assert (DAll aid ∈ DPre <$> ds) as (? & ? & _)%list_elem_of_fmap; [|done].
      rewrite <- E. apply elem_of_app. right. left.
    + rewrite app_assoc in E. apply app_inj_tail in E as [E _]. exists ds, rest. split; [done|]. intros did Hin. apply (Hr did), elem_of_app. by left.
  - rewrite groupAll_dispose_last. simpl. rewrite Edl in Hno. by apply NoDup_app in Hno as [? _].
Qed.

Lemma last_groups : groups_ok typed (groupAll_dispose c aid).
Proof.
  destruct last_fresh as [Hf _]. rewrite groupAll_dispose_last.
  assert (forall l, l ∈ fls -> l ∈ filterListeners c) as Hin by (intros l Hl; rewrite Efl; apply elem_of_app; by left).
  destruct Hgo as [Hok Hnd Hlast Hdata Hlen]. split; simpl.
  - intros l Hl. apply (listener_ok_ext c); try done. auto.
  - rewrite Efl, List.filter_app in Hnd. by apply NoDup_app in Hnd as [? _].
  - intros [aid' Ha]. eauto.
  - intros aid' Ha. apply last_other; [|auto]. intros [= ->]. done.
  - intros aid' Ha. by apply Hlen, last_in.
Qed.

Lemma last_links : links typed (groupAll_dispose c aid).
Proof.
  rewrite groupAll_dispose_last. set (c' := set_dataListeners _ _). assert (registered c' = registered c) as Er.
  { unfold registered. rewrite Edl, registered_by_app. change (registered_by (dims c) [DAll aid]) with (@nil nat). by rewrite app_nil_r. }
  destruct Hlk as [Hp Hnd Hown Hmade Hgs Hls Hr Hrd Hrg]. split; rewrite ?Er; try done.
  - intros did. simpl. rewrite !last_other by done. apply Hp.
  - intros did d gid Hl%last_in. by apply Hown.
  - intros did d gid Hl%last_in. by apply Hmade.
  - intros did d gid Hl%last_in. by apply Hgs.
  - simpl. rewrite Efl, List.filter_app, app_assoc in Hls. by apply Permutation_app_inv_r in Hls.
  - intros did. simpl. rewrite last_other by done. apply Hrd.
Qed.
End last.
End dispose.
