(* ===== verification/CfHistory.v ===== *)
(** * crossfilter: histories of calls

    A crossfilter as its clients drive it: the states reachable from an empty
    crossfilter by [add], [remove], [dimension], the filter methods, the methods
    of groups and of [groupAll], and [dispose].  Every call in such a history returns, and every state of it
    satisfies the invariants. *)

From S2P Require Import Prelude.
From S2P Require Import Arrays.
From S2P Require Import Sums.
From S2P Require Import CfBisect.
From S2P Require Import CfArray.
From S2P Require Import CfBits.
From S2P Require Import CfCore.
From S2P Require Import CfInv.
From S2P Require Import CfFilter.
From S2P Require Import CfSelect.
From S2P Require Import CfTop.
From S2P Require Import CfMerge.
From S2P Require Import CfGroups.
From S2P Require Import CfAdd.
From S2P Require Import CfDimension.
From S2P Require Import CfRecords.
From S2P Require Import CfLinks.
From S2P Require Import CfGroupUse.
From S2P Require Import CfRemoval.
From S2P Require Import CfDispose.

Section history.
Context {R X : Type} `{JsOrdLaws X} (undef null : X) (typed : bool).
Abbreviation cf := (@CfCore.cf R X).
Abbreviation dim := (@CfCore.dim R X).
Implicit Types (c : cf) (d : dim).

(** ** The initial state *)

Lemma new_ok : cf_ok typed (new_crossfilter typed : cf).
Proof.
  assert (forall k, aget (@nil Z) k = None) as Hnil by (intros k; unfold aget; by case_match).
  assert (tcells (crossfilter_array8 typed 0) = []) as Hz by (unfold crossfilter_array8; by destruct typed).
  split; simpl; rewrite ?Hz; try done.
  - split; simpl; unfold tlen; rewrite ?Hz; try done; try lia.
    + intros i Hi. apply Z.bits_0.
    + unfold crossfilter_array8. by destruct typed.
    + intros k x. by rewrite Hnil.
    + intros k x _. by rewrite Hnil.
  - intros b k x _ _. by rewrite Hnil.
  - intros b Hb. by rewrite Z.bits_0.
  - intros did did' d d' [? []%elem_of_nil].
  - intros did d [? []%elem_of_nil].
  - intros did [[]%elem_of_nil|[]%elem_of_nil].
  - exists [], []. split; [done|]. intros did. apply not_elem_of_nil.
  - apply NoDup_nil_2.
Qed.

Lemma new_groups : groups_ok typed (new_crossfilter typed : cf).
Proof. split; simpl; try (intros ? []%elem_of_nil); try done; [apply NoDup_nil_2|by intros [? []%elem_of_nil]]. Qed.

(** ** Sums over the selection *)

(** The sum a [groupAll] keeps is the sum over the selected records. *)
Lemma total_selection c w :
  cf_ok typed c ->
  total (amount (data c) w) (filters c) (-1) (seqZ 0 (n c)) = zsum w (selection c).
Proof.
  intros Hc. pose proof (ck_base _ _ Hc) as Hbase.
  rewrite <- (pick_all c (bk_n _ _ Hbase)). unfold pick. rewrite zsum_omap.
  apply zsum_ext. intros k Hk%elem_of_seqZ.
  destruct (aget_is_Some (data c) k) as [r Hr]; [rewrite <- (bk_n _ _ Hbase); lia|].
  destruct (aget_is_Some (tcells (filters c)) k) as [x Hx].
  { pose proof (bk_len _ _ Hbase). unfold tlen in *. lia. }
  pose proof (cell_selected typed c k r x Hc Hr Hx) as Hs.
  rewrite (truthy_full _ _ (bk_kind_ok _ _ Hbase) (bk_cells _ _ Hbase k x Hx)) in Hs.
  unfold unmasked, amount. rewrite Hx, Hr. simpl.
  destruct (js_and x (-1) =? 0), (selectedb c r); simpl in *; done.
Qed.

(** ** [groupAll] *)

Lemma groupAll_wp c :
  cf_ok typed c -> groups_ok typed c -> typed = false \/ Z.testbit (m c) 31 = false ->
  wp (groupAll c) (fun '(c', aid) => cf_ok typed c' /\ groups_ok typed c' /\ FAll aid ∈ filterListeners c').
Proof.
  intros Hc [Hok Hnd Hlast Hdata Hgalls] Hbit. unfold groupAll, groupAll_add, the_gall. simpl.
  rewrite list_lookup_middle by done. simpl. set (aid := length (galls c)).
  assert (DAll aid ∉ dataListeners c) as Hfresh by (intros Hl%Hgalls; unfold aid in Hl; lia).
  split_and!.
  - destruct Hc as [Hb Hu Ho Hun Hdi Hli Hor Hno].
    assert (forall did, DPre did ∈ dataListeners c ++ [DAll aid] <-> DPre did ∈ dataListeners c) as Hpre.
    { intros did. rewrite elem_of_app, list_elem_of_singleton. naive_solver. }
    split; simpl; try done.
    + by destruct Hb.
    + intros b Hb' Hm. destruct (Ho b Hb' Hm) as (did & d & [Hd Hl] & E). exists did, d.
      split; [|done]. split; [done|]. simpl. by rewrite Hpre.
    + intros e e' de de' [He Hle] [He' Hle']. simpl in *. rewrite Hpre in Hle, Hle'. by eapply Hun.
    + intros did d [Hd Hl]. simpl in *. rewrite Hpre in Hl. by destruct (Hdi did d (conj Hd Hl)).
    + intros did. rewrite Hpre, elem_of_app, list_elem_of_singleton. intros [|[|]]; [..|done]; apply Hli; auto.
    + destruct Hor as (ds & rest & -> & Hr). exists ds, (rest ++ [DAll aid]). rewrite app_assoc.
      split; [done|]. intros did. rewrite elem_of_app, list_elem_of_singleton. intros [He|]; [by eapply Hr|done].
    + apply NoDup_app. split_and!; [done| |apply NoDup_singleton].
      intros l Hl ->%list_elem_of_singleton. done.
  - split; simpl.
    + intros l. rewrite elem_of_app, list_elem_of_singleton. intros [Hl| ->].
      * apply (listener_ok_ext c); try done; [|by apply Hok]. intros aid' ->. simpl.
        rewrite lookup_app_l; [done|]. by apply Hgalls, Hdata.
      * exists (GAll None count_reducer true). simpl. rewrite list_lookup_middle by done.
        split; [done|]. exists (fun _ => 1). split; [apply count_lawful|done].
    + rewrite List.filter_app. apply NoDup_app. split_and!; [done| |apply NoDup_singleton].
      intros l Hl ->%list_elem_of_singleton. apply list_elem_of_In, filter_In in Hl as [Hl _].
      apply list_elem_of_In in Hl. by apply Hfresh, Hdata.
    + done.
    + intros aid'. rewrite !elem_of_app, !list_elem_of_singleton. intros [Hl|[= ->]]; [left; auto|by right].
    + intros aid'. rewrite elem_of_app, list_elem_of_singleton, length_app. simpl. intros [Hl|[= ->]].
      * apply Hgalls in Hl. lia.
      * unfold aid. lia.
  - simpl. apply elem_of_app. right. left.
Qed.

Lemma groupAll_reset_wp c (a : @gall R) w :
  base_ok typed c -> lawful (a_reduce a) w ->
  wp (groupAll_reset c a) (fun a' => a' = with_value a (Some (reduceInitial (a_reduce a)
    + total (amount (data c) w) (filters c) (-1) (seqZ 0 (n c))))).
Proof.
  intros Hbase Hw. unfold groupAll_reset. apply wp_bind. eapply wp_mono.
  - apply (wp_for (fun i v => v = reduceInitial (a_reduce a)
      + total (amount (data c) w) (filters c) (-1) (seqZ 0 i))); [by eapply bk_nonneg|simpl; lia|].
    intros i v Hi ->. destruct (aget_is_Some (tcells (filters c)) i) as [x Hx].
    { pose proof (bk_len _ _ Hbase). unfold tlen in *. lia. }
    destruct (aget_is_Some (data c) i) as [r Hr]; [by rewrite <- (bk_n _ _ Hbase)|].
    unfold trd. rewrite (rd_Some _ _ _ Hx). simpl.
    rewrite (truthy_full _ _ (bk_kind_ok _ _ Hbase) (bk_cells _ _ Hbase i x Hx)).
    assert (seqZ 0 (i + 1) = seqZ 0 i ++ [i]) as ->.
    { by rewrite seqZ_app by lia. }
    rewrite (total_snoc _ _ _ _ _ _ Hx).
    destruct (Z.eqb_spec (js_and x (-1)) 0) as [E|E]; simpl; [|lia].
    rewrite (rd_Some _ _ _ Hr), (amount_Some _ _ _ _ Hr). simpl. rewrite (proj1 (Hw _ _)). lia.
  - by intros v ->.
Qed.

(** Replacing a [groupAll] by one that is consistent too. *)
Lemma put_gall_ok c aid a a' :
  cf_ok typed c -> groups_ok typed c -> galls c !! aid = Some a -> gall_ok c (filters c) a' ->
  cf_ok typed (put_gall c aid a') /\ groups_ok typed (put_gall c aid a').
Proof.
  intros Hc [Hok Hnd Hlast Hdata Hgalls] Ha Hok'. split_and!; [|split]; simpl; try done.
  - by apply (cf_ok_core typed c).
  - intros l Hl. destruct (decide (l = FAll aid)) as [->|Hne]; [|apply listener_ok_put_gall; auto].
    exists a'. simpl. by rewrite list_lookup_insert_eq by (by eapply lookup_lt_Some).
  - intros aid' Hl. rewrite length_insert. by apply Hgalls.
Qed.

Lemma groupAll_value_wp c aid :
  cf_ok typed c -> groups_ok typed c -> FAll aid ∈ filterListeners c ->
  wp (groupAll_value c aid) (fun '(c', v) =>
    (cf_ok typed c' /\ groups_ok typed c') /\
    same_core c c' /\ filterListeners c' = filterListeners c /\
    exists a, galls c !! aid = Some a /\
      v = Some (foldl (reduceAdd (a_reduce a)) (reduceInitial (a_reduce a)) (selection c))).
Proof.
  intros Hc Hgo Hl. destruct (gs_listeners _ _ Hgo _ Hl) as (a & Ha & w & Hw & Hv).
  unfold groupAll_value, the_gall. rewrite Ha. simpl.
  destruct (a_resetNeeded a) eqn:Hr.
  - apply wp_bind. eapply wp_mono; [apply (groupAll_reset_wp c a w); [by apply ck_base|done]|].
    intros a' ->. simpl. split; [|split; [done|split; [done|]]].
    + apply (put_gall_ok c aid a); try done. exists w. by split.
    + exists a. split; [done|]. by rewrite (foldl_lawful _ w), total_selection.
  - simpl. split_and!; try done. exists a. split; [done|].
    by rewrite (foldl_lawful _ w), (Hv eq_refl), total_selection.
Qed.

Lemma groupAll_reduce_wp c aid red w :
  cf_ok typed c -> groups_ok typed c -> FAll aid ∈ filterListeners c -> lawful red w ->
  wp (groupAll_reduce c aid red) (fun c' =>
    (cf_ok typed c' /\ groups_ok typed c') /\ same_core c c'
    /\ filterListeners c' = filterListeners c).
Proof.
  intros Hc Hgo Hl Hw. destruct (gs_listeners _ _ Hgo _ Hl) as (a & Ha & _).
  unfold groupAll_reduce, the_gall. rewrite Ha. simpl. split_and!; try done.
  all: apply (put_gall_ok c aid a); try done. all: by exists w.
Qed.

(** ** Dimensions and groups *)

Lemma dimension_groups c value c' did :
  cf_ok typed c -> groups_ok typed c -> dimension_added c value c' did ->
  galls c = [] \/ Z.testbit (m c) 30 = false -> groups_ok typed c'.
Proof.
  intros Hc [Hok Hnd Hlast Hdata Hgalls]
    (-> & Ed & En & Ecells & Efl & Eg & Ega & (b & Hb & Hfree & Em & Hlow) & Edl & Erl & d & Es & _) Hbit.
  assert (forall g mask ids, total g (filters c') mask ids = total g (filters c) mask ids) as Etotal.
  { intros g mask ids. unfold total, unmasked. by rewrite Ecells. }
  assert (forall e de, dims c !! e = Some de -> dims c' !! e = Some de) as Edims.
  { intros e de He. rewrite Es. by apply lookup_app_l_Some. }
  assert (forall gid g, grp_ok c (filters c) gid g -> grp_ok c' (filters c') gid g) as Hgrp.
  { intros gid g [Hi Hky Hk (dg & b0 & w & Hd & ? & ? & ? & ? & Hv)]. split; [|apply (keyed_same c); try done|done|].
    - revert Hi. unfold index_ok. by rewrite En.
    - intros d' Hd'. rewrite (Edims _ _ Hd) in Hd'. injection Hd' as <-. eauto.
    - exists dg, b0, w. split_and!; try done; try lia; [by apply Edims|]. intros Hr. eapply gs_vals_ext; [by apply Hv|].
      intros i _. rewrite Etotal. unfold share. by rewrite Ed, En. }
  split; rewrite ?Efl; try done.
  - intros l Hl. specialize (Hok l Hl). destruct l as [|gid|gid|aid]; [done|..]; simpl in *; rewrite ?Eg, ?Ega;
      [destruct Hok as (g & ? & ? & ?); exists g; auto..|].
    destruct Hok as (a & Ha & w & Hw & Hv). exists a. split; [done|]. exists w. split; [done|].
    by rewrite Etotal, Ed, En.
  - intros [aid Ha]. destruct (Hlast ltac:(eauto)) as [|H31]; [by left|right].
    rewrite Em, mask_bits, H31 by lia. rewrite bool_decide_false; [done|]. intros <-.
    destruct Hbit as [E|H30].
    + apply Hdata, Hgalls in Ha. rewrite E in Ha. simpl in Ha. lia.
    + rewrite Hlow in H30 by lia. done.
  - rewrite Edl. intros aid Ha. right. apply elem_of_app. left. auto.
  - rewrite Edl, Ega. intros aid. rewrite elem_of_cons, elem_of_app, list_elem_of_singleton.
    intros [|[|]]; try done. auto.
Qed.

(** ** Histories *)

(** The states a client can reach.  The side conditions are what the API asks
    for: values in natural order, ranges the right way up, filter functions of
    the value, at most [2^30] records, reduce functions that add and subtract,
    where a [groupAll] is used, fewer than 32 dimensions; a [groupAll] is
    disposed of when nothing has been registered after it, a group again, or a
    dimension after its groups, when there are records. *)
Inductive reachable : cf -> Prop :=
| r_new : reachable (new_crossfilter typed)
| r_add c newData c' :
    reachable c -> n c + alen newData <= 2 ^ 30 ->
    (forall did d r, live c did d -> r ∈ newData -> natural (d_value d r)) ->
    add undef null typed c newData = Ret c' -> reachable c'
| r_remove c c' : reachable c -> removeData typed c = Ret c' -> reachable c'
| r_dimension c value c' did :
    reachable c -> (forall r, r ∈ data c -> natural (value r)) ->
    galls c = [] \/ Z.testbit (m c) 30 = false ->
    dimension undef null typed c value = Ret (c', did) -> reachable c'
| r_filter c did d a c' :
    reachable c -> live c did d -> arg_ok a -> filter c did a = Ret c' -> reachable c'
| r_groupAll c c' aid :
    reachable c -> typed = false \/ Z.testbit (m c) 31 = false ->
    groupAll c = Ret (c', aid) -> reachable c'
| r_reduce c aid red w c' :
    reachable c -> FAll aid ∈ filterListeners c -> lawful red w ->
    groupAll_reduce c aid red = Ret c' -> reachable c'
| r_value c aid c' v :
    reachable c -> FAll aid ∈ filterListeners c -> groupAll_value c aid = Ret (c', v) -> reachable c'
| r_group c did d key c' gid :
    reachable c -> live c did d -> (forall x y, (x <=. y) = true -> (key x <=. key y) = true) ->
    group null typed c did key = Ret (c', gid) -> reachable c'
| r_group_all c gid g c' gs :
    reachable c -> listed c gid g -> group_all c gid = Ret (c', gs) -> reachable c'
| r_group_top c gid g k c' top :
    reachable c -> listed c gid g -> 1 <= k < 2 ^ 30 -> group_top c gid k = Ret (c', top) -> reachable c'
| r_group_reduce c gid g red w c' :
    reachable c -> listed c gid g -> lawful red w -> group_reduce c gid red = Ret c' -> reachable c'
| r_group_order c gid g value c' :
    reachable c -> listed c gid g -> group_order c gid value = Ret c' -> reachable c'
| r_group_dispose c did d gid c' :
    reachable c -> live c did d -> gid ∈ d_dimensionGroups d -> 0 < n c \/ gid ∈ d_indexListeners d ->
    group_dispose c gid = Ret c' -> reachable c'
| r_dim_dispose c did d c' :
    reachable c -> live c did d -> 0 < n c \/ d_dimensionGroups d = d_indexListeners d ->
    dim_dispose c did = Ret c' -> reachable c'
| r_groupAll_dispose c aid fls dls :
    reachable c -> filterListeners c = (fls ++ [FAll aid])%list -> dataListeners c = (dls ++ [DAll aid])%list ->
    reachable (groupAll_dispose c aid).

Lemma wp_of {A} (m : js A) x P : wp m P -> m = Ret x -> P x.
Proof. by intros Hw ->. Qed.

(** All 32 bits are in use: there is no room for a dimension. *)
Lemma dimension_full c value :
  base_ok typed c -> m c = -1 -> dimension undef null typed c value = Throw "invalid array width!".
Proof.
  intros Hbase Hm. assert (M c = 32) as HM.
  { destruct (bk_width _ _ Hbase) as [E|[E|E]]; [..|done]; pose proof (bk_mask _ _ Hbase 31) as Hb;
      rewrite Hm, Z.bits_m1 in Hb by lia; discriminate (Hb ltac:(lia)). }
  unfold dimension. rewrite Hm, HM. simpl.
  unfold crossfilter_arrayWiden, crossfilter_arrayWidenUntyped. by destruct typed.
Qed.

(** Reading a group changes the group only. *)
Lemma group_read_core c gid g c' gs : group_read c gid g c' gs -> same_core c c'.
Proof. by intros (d & w & _ & _ & -> & _). Qed.

Lemma new_links : links typed (new_crossfilter typed : cf).
Proof. split; simpl; first [done|by intros ?; split; intros []%elem_of_nil|apply NoDup_nil_2|by intros did; split; intros []%elem_of_nil|by intros ? ? ? []%elem_of_nil]. Qed.

(** The invariant of all histories. *)
Lemma reachable_inv c : reachable c -> consistent typed c.
Proof.
  induction 1 as [|c newData c' _ (Hc & Hg & Hk) Hs Hnat E|c c' _ (Hc & Hg & Hk) E|c value c' did _ (Hc & Hg & Hk) Hnat Hbit E
    |c did d a c' _ (Hc & Hg & Hk) Hl Ha E|c c' aid _ (Hc & Hg & Hk) Hbit E
    |c aid red w c' _ (Hc & Hg & Hk) Hl Hw E|c aid c' v _ (Hc & Hg & Hk) Hl E|c did d key c' gid _ (Hc & Hg & Hk) Hl Hm E
    |c gid g c' gs _ (Hc & Hg & Hk) Hl E|c gid g k c' top _ (Hc & Hg & Hk) Hl Hm E|c gid g red w c' _ (Hc & Hg & Hk) Hl Hw E
    |c gid g value c' _ (Hc & Hg & Hk) Hl E|c did d gid c' _ (Hc & Hg & Hk) Hl Hin Hor E|c did d c' _ (Hc & Hg & Hk) Hl Hor E
    |c aid fls dls _ (Hc & Hg & Hk) Efl Edl]; try pose proof (ck_base _ _ Hc) as Hbase.
  - split; [apply new_ok|split; [apply new_groups|apply new_links]].
  - by pose proof (wp_of _ _ _ (add_wp undef null typed c newData Hc Hg Hk Hs Hnat) E) as (? & _).
  - by pose proof (wp_of _ _ _ (removeData_wp typed c Hc Hg Hk) E) as (? & _).
  - assert (m c <> -1) as Hm.
    { intros Hm. rewrite dimension_full in E by done. done. }
    pose proof (wp_of _ _ _ (dimension_wp undef null typed c value Hc Hm Hnat) E) as [Hc' Hd].
    split; [done|]. split; [exact (dimension_groups c value c' did Hc Hg Hd Hbit)|].
    destruct Hd as (? & _ & ? & _ & ? & ? & _ & _ & ? & ? & d & ? & _ & _ & _ & ? & ?). by apply (dimension_links typed c c' did d).
  - pose proof (wp_of _ _ _ (filter_wp typed _ c did d a Hc (conj Hg Hk) Hl Ha) E) as (? & [? ?] & _). done.
  - pose proof (wp_of _ _ _ (groupAll_wp c Hc Hg Hbit) E) as (? & ? & _). split_and!; [done..|].
    by apply (groupAll_links typed c c' aid).
  - pose proof (wp_of _ _ _ (groupAll_reduce_wp c aid red w Hc Hg Hl Hw) E) as [[? ?] _]. split_and!; [done..|].
    by apply (groupAll_reduce_links typed c aid red).
  - pose proof (wp_of _ _ _ (groupAll_value_wp c aid Hc Hg Hl) E) as [[? ?] _]. split_and!; [done..|].
    by apply (groupAll_value_links typed c aid c' v).
  - pose proof (wp_of _ _ _ (group_wp null typed c did d key Hc Hg Hl Hm) E) as (? & ? & ?). split_and!; [done..|].
    by apply (group_links null typed c did d key c' gid).
  - pose proof (wp_of _ _ _ (group_all_wp typed c gid g Hbase Hg Hl) E) as (Hg' & _ & Hr).
    split; [by eapply cf_ok_core; [eapply group_read_core|]|split; [done|by eapply group_read_links; [apply Hl|..]]].
  - pose proof (wp_of _ _ _ (group_top_wp typed c gid g k Hbase Hg Hl Hm) E) as (Hg' & _ & gs & rest & Hr & _).
    split; [by eapply cf_ok_core; [eapply group_read_core|]|split; [done|by eapply group_read_links; [apply Hl|..]]].
  - pose proof (wp_of _ _ _ (group_reduce_wp typed c gid g red w Hg Hl Hw) E) as (Hg' & Hr & _).
    split; [by eapply cf_ok_core|split; [done|]]. by apply (group_reduce_links typed c gid red w).
  - pose proof (wp_of _ _ _ (group_order_wp typed c gid g value Hg Hl) E) as (Hg' & Hr & _).
    split; [by eapply cf_ok_core|split; [done|]]. by apply (group_order_links typed c gid value).
  - by pose proof (wp_of _ _ _ (group_dispose_wp typed c did d gid (conj Hc (conj Hg Hk)) Hl Hin Hor) E) as (? & _).
  - by pose proof (wp_of _ _ _ (dim_dispose_wp typed c did d (conj Hc (conj Hg Hk)) Hl Hor) E) as (? & _).
  - split; [by eapply last_ok|split; [by eapply last_groups|by eapply last_links]].
Qed.

Lemma reachable_ok c : reachable c -> cf_ok typed c /\ groups_ok typed c.
Proof. by intros (? & ? & _)%reachable_inv. Qed.
End history.
