(* ===== verification/CfCalls.v ===== *)
(** * crossfilter: the calls of a client

    Every method of a crossfilter, its dimensions, groups and [groupAll]s as a
    value of [call], what it asks of its arguments as [allowed], and what it does
    to the state as [run_call].  [reachable] is what allowed calls lead to. *)

From S2P Require Import Prelude.
From S2P Require Import Arrays.
From S2P Require Import CfHeapselect.
From S2P Require Import CfArray.
From S2P Require Import CfBits.
From S2P Require Import CfCore.
From S2P Require Import CfInv.
From S2P Require Import CfFilter.
From S2P Require Import CfSelect.
From S2P Require Import CfTop.
From S2P Require Import CfMerge.
From S2P Require Import CfGroups.
From S2P Require Import CfAdd.
From S2P Require Import CfDimension.
From S2P Require Import CfGroupAdd.
From S2P Require Import CfGroupUse.
From S2P Require Import CfRecords.
From S2P Require Import CfRemoval.
From S2P Require Import CfDispose.
From S2P Require Import CfHistory.

Section calls.
Context {R X : Type} `{JsOrdLaws X} (undef null : X) (typed : bool).
Abbreviation cf := (@CfCore.cf R X).
Implicit Types (c : cf).

(** [filterExact], [filterRange], [filterAll] and [filterFunction] are [Filter] with
    their kind of argument; [reduceCount], [reduceSum] and [orderNatural] are
    [GroupReduce], [GroupAllReduce] and [GroupOrder] with their functions. *)
Inductive call :=
| Add (newData : list R)
| Remove
| Dimension (value : R -> X)
| Filter (did : nat) (a : @filter_arg X)
| Top (did : nat) (k : Z)
| Bottom (did : nat) (k : Z)
| DimDispose (did : nat)
| Group (did : nat) (key : X -> X)
| GroupRead (gid : nat)
| GroupTop (gid : nat) (k : Z)
| GroupReduce (gid : nat) (red : @reducer R)
| GroupOrder (gid : nat) (value : Z -> Z)
| GroupSize (gid : nat)
| GroupDispose (gid : nat)
| GroupAll
| GroupAllReduce (aid : nat) (red : @reducer R)
| GroupAllValue (aid : nat)
| GroupAllDispose (aid : nat)
| Size.

(** The state after a call. *)
Definition run_call c (k : call) : js cf :=
  match k with
  | Add newData => add undef null typed c newData
  | Remove => removeData typed c
  | Dimension value => '(c, _) ← dimension undef null typed c value; Ret c
  | Filter did a => filter c did a
  | Top did k => _ ← top c did k; Ret c
  | Bottom did k => _ ← bottom c did k; Ret c
  | DimDispose did => dim_dispose c did
  | Group did key => '(c, _) ← group null typed c did key; Ret c
  | GroupRead gid => '(c, _) ← group_all c gid; Ret c
  | GroupTop gid k => '(c, _) ← group_top c gid k; Ret c
  | GroupReduce gid red => group_reduce c gid red
  | GroupOrder gid value => group_order c gid value
  | GroupSize gid => _ ← group_size c gid; Ret c
  | GroupDispose gid => group_dispose c gid
  | GroupAll => '(c, _) ← groupAll c; Ret c
  | GroupAllReduce aid red => groupAll_reduce c aid red
  | GroupAllValue aid => '(c, _) ← groupAll_value c aid; Ret c
  | GroupAllDispose aid => Ret (groupAll_dispose c aid)
  | Size => Ret c
  end.

(** What the methods ask for: values in natural order, at most [2^30] records,
    filters that are used as meant, key functions that keep the order, reduce
    functions that add and subtract; dimensions, groups and [groupAll]s that have
    not been disposed of, and that have been made, for groups, when there were
    records; [top] of a group with a number other than 0 that is less than [2^30],
    if there can be so many groups; and, around [groupAll], no dimension at the
    last bit.  A [groupAll] is disposed of when nothing has been registered after
    it, a group again, or a dimension after its groups, when there are records. *)
Definition allowed c (k : call) : Prop :=
  match k with
  | Add newData =>
      n c + alen newData <= 2 ^ 30 /\ forall did d r, live c did d -> r ∈ newData -> natural (d_value d r)
  | Dimension value =>
      (forall r, r ∈ data c -> natural (value r)) /\ (galls c = [] \/ Z.testbit (m c) 30 = false)
  | Filter did a => (exists d, live c did d) /\ arg_ok a
  | Top did k | Bottom did k => (exists d, live c did d) /\ 0 <= k
  | DimDispose did => exists d, live c did d /\ (0 < n c \/ d_dimensionGroups d = d_indexListeners d)
  | Group did key => (exists d, live c did d) /\ forall x y, (x <=. y) = true -> (key x <=. key y) = true
  | GroupRead gid | GroupOrder gid _ | GroupSize gid => exists g, listed c gid g
  | GroupTop gid k => (exists g, listed c gid g) /\ k <> 0 /\ (k < 2 ^ 30 \/ n c < 2 ^ 30)
  | GroupReduce gid red => (exists g, listed c gid g) /\ exists w, lawful red w
  | GroupDispose gid =>
      exists did d, live c did d /\ gid ∈ d_dimensionGroups d /\ (0 < n c \/ gid ∈ d_indexListeners d)
  | GroupAll => typed = false \/ Z.testbit (m c) 31 = false
  | GroupAllReduce aid red => FAll aid ∈ filterListeners c /\ exists w, lawful red w
  | GroupAllValue aid => FAll aid ∈ filterListeners c
  | GroupAllDispose aid => exists fls dls,
      filterListeners c = (fls ++ [FAll aid])%list /\ dataListeners c = (dls ++ [DAll aid])%list
  | Remove | Size => True
  end.

(** The calls that throw: a dimension when all 32 bits are taken, and [top] of a
    group with a negative number. *)
Definition throws c (k : call) : option string :=
  match k with
  | Dimension _ => if m c =? -1 then Some "invalid array width!"%string else None
  | GroupTop _ k => if k <? 0 then Some "RangeError: Invalid array length"%string else None
  | _ => None
  end.

(** ** [top] of a group *)

Lemma heapselect_upto {A Y} `{JsOrd Y} (f : A -> Y) a lo hi k k' :
  Z.min (hi - lo) k = Z.min (hi - lo) k' -> heapselect f a lo hi k = heapselect f a lo hi k'.
Proof. unfold heapselect. by intros ->. Qed.

(** The groups are at most as many as the records. *)
Lemma group_all_few c gid g :
  cf_ok typed c -> groups_ok typed c -> listed c gid g ->
  wp (group_all c gid) (fun '(_, gs) => alen gs <= n c).
Proof.
  intros Hc Hg Hl. pose proof (ck_base _ _ Hc) as Hb. destruct (listed_ok typed c gid g Hg Hl) as (Hok & _).
  destruct (wp_elim _ _ (group_all_wp typed c gid g Hb Hg Hl)) as ([c' gs] & -> & _ & _ & d & w & _ & _ & _ & Hv).
  apply wp_Ret.
  rewrite (gs_vals_alen _ _ _ Hv). pose proof (keyed_few c g (gk_keyed _ _ _ _ Hok) ltac:(by eapply bk_nonneg)).
  unfold alen in *. by rewrite length_fmap.
Qed.

(** A number above that of the groups asks for all of them. *)
Lemma group_top_upto c gid g k :
  cf_ok typed c -> groups_ok typed c -> listed c gid g -> n c < 2 ^ 30 -> 2 ^ 30 <= k ->
  group_top c gid k = group_top c gid (2 ^ 30 - 1).
Proof.
  intros Hc Hg Hl Hn Hk. unfold group_top.
  destruct (wp_elim _ _ (group_all_few c gid g Hc Hg Hl)) as ([c' gs] & -> & Hle). cbn [mbind js_bind].
  destruct (the_grp c' gid) as [g'| |]; cbn [mbind js_bind]; [|reflexivity..].
  by rewrite (heapselect_upto _ gs 0 (alen gs) k (2 ^ 30 - 1)) by lia.
Qed.

Lemma group_top_negative c gid g k :
  cf_ok typed c -> groups_ok typed c -> listed c gid g -> k < 0 ->
  group_top c gid k = Throw "RangeError: Invalid array length".
Proof.
  intros Hc Hg Hl Hk. unfold group_top. pose proof (ck_base _ _ Hc) as Hb.
  destruct (wp_elim _ _ (group_all_wp typed c gid g Hb Hg Hl)) as ([c' gs] & -> & _ & [g' Hl'] & _).
  cbn [mbind js_bind]. unfold the_grp. rewrite (proj1 Hl'). cbn [mbind js_bind]. unfold heapselect.
  pose proof (alen_nonneg gs). by rewrite (proj2 (Z.ltb_lt _ _)) by lia.
Qed.

(** ** One call *)

Lemma returns {A} (m : js A) P (Q : A -> Prop) :
  wp m P -> (forall x, m = Ret x -> Q x) -> exists x, m = Ret x /\ Q x.
Proof. intros Hw HQ. destruct (wp_elim _ _ Hw) as (x & E & _). eauto. Qed.

Lemma returns_fst {A} (m : js (cf * A)) P (Q : cf -> Prop) :
  wp m P -> (forall c' x, m = Ret (c', x) -> Q c') -> exists c', ('(c, _) ← m; Ret c) = Ret c' /\ Q c'.
Proof. intros Hw HQ. destruct (wp_elim _ _ Hw) as ([c' x] & E & _). exists c'. rewrite E. split; [done|by eapply HQ]. Qed.

Abbreviation reachable := (CfHistory.reachable undef null typed).

(** An allowed call in a reachable state throws as [throws] says, or returns, and
    leads to a reachable state. *)
Lemma call_returns c k :
  reachable c -> allowed c k ->
  match throws c k with
  | Some e => run_call c k = Throw e
  | None => exists c', run_call c k = Ret c' /\ reachable c'
  end.
Proof.
  intros Hr Ha. pose proof (reachable_inv undef null typed c Hr) as Hco. pose proof Hco as (Hc & Hg & Hk).
  pose proof (ck_base _ _ Hc) as Hb. destruct k; simpl in Ha |- *.
  - destruct Ha as [Hs Hn]. eapply returns; [exact (add_wp undef null typed c newData Hc Hg Hk Hs Hn)|]. intros. by eapply r_add.
  - eapply returns; [exact (removeData_wp typed c Hc Hg Hk)|]. intros. by eapply r_remove.
  - destruct Ha as [Hn Hbit]. destruct (Z.eqb_spec (m c) (-1)) as [Em|Em].
    + by rewrite (dimension_full undef null typed c value Hb Em).
    + eapply returns_fst; [exact (dimension_wp undef null typed c value Hc Em Hn)|]. intros. by eapply r_dimension.
  - destruct Ha as [[d Hl] Ha]. eapply returns; [exact (filter_wp typed _ c did d a Hc Hg Hl Ha)|].
    intros. by eapply r_filter.
  - destruct Ha as [[d Hl] Hn]. destruct (top_selection typed c Hc did d Hl k Hn) as (l & _ & -> & _). by exists c.
  - destruct Ha as [[d Hl] Hn]. destruct (bottom_selection typed c Hc did d Hl k Hn) as (l & _ & -> & _). by exists c.
  - destruct Ha as (d & Hl & Hor). eapply returns; [exact (dim_dispose_wp typed c did d Hco Hl Hor)|].
    intros. by eapply r_dim_dispose.
  - destruct Ha as [[d Hl] Hm]. eapply returns_fst; [exact (group_wp null typed c did d key Hc Hg Hl Hm)|].
    intros. by eapply r_group.
  - destruct Ha as [g Hl]. eapply returns_fst; [exact (group_all_wp typed c gid g Hb Hg Hl)|].
    intros. by eapply r_group_all.
  - destruct Ha as ([g Hl] & Hk0 & Hlt). destruct (Z.ltb_spec k 0) as [Hneg|Hpos].
    + by rewrite (group_top_negative c gid g k Hc Hg Hl Hneg).
    + assert (exists k', 1 <= k' < 2 ^ 30 /\ group_top c gid k = group_top c gid k') as (k' & Hk' & ->).
      { destruct (Z.lt_ge_cases k (2 ^ 30)); [by exists k; split; [lia|]|]. exists (2 ^ 30 - 1). split; [lia|].
        apply (group_top_upto c gid g); try done. lia. }
      eapply returns_fst; [exact (group_top_wp typed c gid g k' Hb Hg Hl Hk')|]. intros. by eapply r_group_top.
  - destruct Ha as ([g Hl] & w & Hw). eapply returns; [exact (group_reduce_wp typed c gid g red w Hg Hl Hw)|].
    intros. by eapply r_group_reduce.
  - destruct Ha as [g Hl]. eapply returns; [exact (group_order_wp typed c gid g value Hg Hl)|].
    intros. by eapply r_group_order.
  - destruct Ha as [g Hl]. exists c. unfold group_size, the_grp. by rewrite (proj1 Hl).
  - destruct Ha as (did & d & Hl & Hin & Hor).
    eapply returns; [exact (group_dispose_wp typed c did d gid Hco Hl Hin Hor)|]. intros. by eapply r_group_dispose.
  - eapply returns_fst; [exact (groupAll_wp typed c Hc Hg Ha)|]. intros. by eapply r_groupAll.
  - destruct Ha as (Hl & w & Hw). eapply returns; [exact (groupAll_reduce_wp typed c aid red w Hc Hg Hl Hw)|].
    intros. by eapply r_reduce.
  - eapply returns_fst; [exact (groupAll_value_wp typed c aid Hc Hg Ha)|]. intros. by eapply r_value.
  - destruct Ha as (fls & dls & Hf & Hd). exists (groupAll_dispose c aid). split; [done|].
    by eapply r_groupAll_dispose.
  - by exists c.
Qed.
End calls.
