(* ===== verification/CfClient.v ===== *)
(** * crossfilter: what a client relies on

    A client makes dimensions with a group each, sets and clears ranges, and
    reads groups and values.  [ranged] is its view of a dimension: the accessor
    and the range it has set.  Each call is one lemma about reachable states. *)

From Stdlib Require Import Sorted.
From S2P Require Import Prelude.
From S2P Require Import Arrays.
From S2P Require Import CfArray.
From S2P Require Import CfBits.
From S2P Require Import CfCore.
From S2P Require Import CfInv.
From S2P Require Import CfFilter.
From S2P Require Import CfSelect.
From S2P Require Import CfTop.
From S2P Require Import CfGroups.
From S2P Require Import CfShape.
From S2P Require Import CfDimension.
From S2P Require Import CfGroupUse.
From S2P Require Import CfRecords.
From S2P Require Import CfHistory.

Section client.
Context {R X : Type} `{JsOrdLaws X} (undef null : X) (typed : bool).
Abbreviation cf := (@CfCore.cf R X).
Abbreviation dim := (@CfCore.dim R X).
Implicit Types (c : cf) (d : dim) (range : option (X * X)).
Abbreviation reachable := (CfHistory.reachable undef null typed).

(** ** Ranges *)

Definition in_range range (x : X) : bool :=
  match range with Some (lo, hi) => (lo <=. x) && (x <. hi) | None => true end.
Definition range_ok range : Prop :=
  match range with Some (lo, hi) => (lo <=. hi) = true | None => True end.

(** [filterRange(range)] or [filterAll()]. *)
Definition set_range c (did : nat) range : js cf :=
  match range with Some (lo, hi) => filterRange c did lo hi | None => filterAll c did end.

Definition ranged c (did : nat) (value : R -> X) range : Prop :=
  exists d, live c did d /\ d_value d = value /\ forall x, passes d x = in_range range x.

Lemma ranged_core c c' did value range :
  dims c' = dims c -> dataListeners c' = dataListeners c -> ranged c did value range -> ranged c' did value range.
Proof. intros Es El (d & Hl & Hv). exists d. unfold live. by rewrite Es, El. Qed.

(** The dimensions in use, all of which the client knows. *)
Definition known c (specs : list (nat * (R -> X) * option (X * X))) : Prop :=
  Forall (fun '(did, value, range) => ranged c did value range) specs /\
  forall did, DPre did ∈ dataListeners c -> exists value range, (did, value, range) ∈ specs.

Lemma known_selection c specs :
  known c specs ->
  selection c = List.filter (fun r => forallb (fun '(_, value, range) => in_range range (value r)) specs) (data c).
Proof.
  intros [Hall Hin]. unfold selection. apply filter_ext. intros r. apply eq_true_iff_eq.
  rewrite selectedb_spec, forallb_forall. rewrite Forall_forall in Hall. split.
  - intros Hsel [[did value] range] Hs%list_elem_of_In. destruct (Hall _ Hs) as (d & Hl & Hv & Hp).
    rewrite <- Hp, <- Hv. by eapply Hsel.
  - intros Hspec did d Hl. destruct (Hin did (proj2 Hl)) as (value & range & Hs).
    destruct (Hall _ Hs) as (d' & [Hd' _] & Hv & Hp). destruct Hl as [Hd _]. rewrite Hd in Hd'. injection Hd' as <-.
    rewrite Hp, Hv. by apply (Hspec (did, value, range)), list_elem_of_In.
Qed.

Lemma known_core c c' specs :
  dims c' = dims c -> dataListeners c' = dataListeners c -> known c specs -> known c' specs.
Proof.
  intros Es El [Hall Hin]. split; [|by rewrite El]. eapply Forall_impl; [exact Hall|].
  intros [[did value] range]. by apply ranged_core.
Qed.

Lemma set_range_ok c did value range range' :
  reachable c -> ranged c did value range -> range_ok range' ->
  exists c', set_range c did range' = Ret c' /\ reachable c' /\ data c' = data c /\ shape c' = shape c
    /\ dataListeners c' = dataListeners c /\ ranged c' did value range'
    /\ forall e v r, e <> did -> ranged c e v r -> ranged c' e v r.
Proof.
  intros Hr (d & Hl & Hv & _) Hok. destruct (reachable_ok _ _ _ _ Hr) as [Hc Hg].
  set (a := match range' with Some (lo, hi) => ArgArray lo hi | None => ArgNull end : @filter_arg X).
  assert (set_range c did range' = filter c did a) as -> by (by destruct range' as [[]|]).
  assert (arg_ok a) as Ha by (by destruct range' as [[]|]).
  destruct (wp_elim _ _ (filter_wp typed (fun c' => groups_ok typed c' /\ shape c' = shape c) c did d a Hc (conj Hg eq_refl) Hl Ha))
    as (c' & E & _ & [_ Hs] & Ed & _ & _ & El & d' & Es & Hsd & Er & Ef).
  assert (dims c' !! did = Some d') as Hd' by (rewrite Es; apply list_lookup_insert_eq; by eapply lookup_lt_Some, Hl).
  exists c'. split_and!; try done.
  - by eapply r_filter.
  - exists d'. split; [split; [done|rewrite El; apply Hl]|]. split; [by rewrite (sd_value _ _ Hsd)|].
    intros x. unfold passes. rewrite Er, Ef. by destruct range' as [[]|].
  - intros e v r Hne (de & [Hde Hle] & Hp). exists de. split; [|done]. split; [|by rewrite El].
    by rewrite Es, list_lookup_insert_ne.
Qed.
Lemma known_perm c specs specs' : specs ≡ₚ specs' -> known c specs -> known c specs'.
Proof.
  intros Hp [Hall Hin]. split; [by rewrite <- Hp|]. intros did Hd. destruct (Hin did Hd) as (v & r & Hs).
  exists v, r. by rewrite <- Hp.
Qed.

Lemma set_range_known c specs i did value range range' :
  reachable c -> known c specs -> NoDup (specs.*1.*1) -> specs !! i = Some (did, value, range) -> range_ok range' ->
  exists c', set_range c did range' = Ret c' /\ reachable c' /\ data c' = data c /\ shape c' = shape c
    /\ known c' (<[i := (did, value, range')]> specs).
Proof.
  intros Hr [Hall Hin] Hnd Hi Hok. rewrite Forall_lookup in Hall.
  destruct (set_range_ok c did value range range' Hr (Hall _ _ Hi) Hok)
    as (c' & E & Hr' & Ed & Es & El & Hd & Ho).
  exists c'. split_and!; try done. split.
  - apply Forall_lookup. intros j [[e v] r] Hj. destruct (decide (i = j)) as [<-|Hne].
    + rewrite list_lookup_insert_eq in Hj by (by eapply lookup_lt_Some). by injection Hj as <- <- <-.
    + rewrite list_lookup_insert_ne in Hj by done. apply Ho; [|exact (Hall _ _ Hj)].
      intros ->. apply Hne. apply (NoDup_lookup (specs.*1.*1) i j did Hnd); by rewrite !list_lookup_fmap, ?Hi, ?Hj.
  - intros e. rewrite El. intros (v & r & [j Hj]%list_elem_of_lookup)%Hin. destruct (decide (i = j)) as [<-|Hne].
    + rewrite Hi in Hj. injection Hj as <- <- <-. exists value, range'.
      apply (list_elem_of_lookup_2 _ i). apply list_lookup_insert_eq. by eapply lookup_lt_Some.
    + exists v, r. apply (list_elem_of_lookup_2 _ j). by rewrite list_lookup_insert_ne.
Qed.

(** ** Making dimensions and groups *)

Definition has_group c (gid : nat) : Prop := FMany gid ∈ filterListeners c \/ FOne gid ∈ filterListeners c.

Lemma has_group_listed c gid : groups_ok typed c -> has_group c gid -> exists g, listed c gid g.
Proof.
  intros Hg [Hl|Hl]; destruct (gs_listeners _ _ Hg _ Hl) as (g & Hgid & _); exists g; split; unfold has_group; auto.
Qed.

Lemma mask_next i : 0 <= i < 30 -> js_or (Z.ones i) (bit_one i) = Z.ones (i + 1).
Proof.
  intros Hi. assert (forallb (fun i => js_or (Z.ones i) (bit_one i) =? Z.ones (i + 1)) (seqZ 0 30) = true) as Hall
    by by vm_compute.
  rewrite forallb_forall in Hall. apply Z.eqb_eq, Hall, list_elem_of_In, elem_of_seqZ. lia.
Qed.

(** The first bit that is not in a mask of the lowest [i] bits. *)
Lemma first_free i b :
  0 <= i -> 0 <= b -> Z.testbit (Z.ones i) b = false -> (forall j, 0 <= j < b -> Z.testbit (Z.ones i) j = true) -> b = i.
Proof.
  intros Hi Hb Hf Hlow. destruct (Z.lt_trichotomy b i) as [Hlt|[|Hlt]]; [|done|].
  - rewrite Z.ones_spec_low in Hf by lia. done.
  - specialize (Hlow i ltac:(lia)). rewrite Z.ones_spec_high in Hlow by lia. done.
Qed.

(** [dimension(value)] and [group(key)] of it. *)
Lemma dimension_group_ok c (value : R -> X) (key : X -> X) i specs :
  reachable c -> known c specs -> m c = Z.ones i -> 0 <= i < 30 -> data c <> [] ->
  (forall r, r ∈ data c -> natural (value r)) -> (forall x y, (x <=. y) = true -> (key x <=. key y) = true) ->
  exists c1 did c2 gid, dimension undef null typed c value = Ret (c1, did) /\ group null typed c1 did key = Ret (c2, gid)
    /\ reachable c2 /\ data c2 = data c /\ m c2 = Z.ones (i + 1) /\ galls c2 = galls c
    /\ known c2 ((did, value, None) :: specs) /\ (forall e v r, (e, v, r) ∈ specs -> e <> did) /\ has_group c2 gid
    /\ forall l, l ∈ filterListeners c -> l <> FNull -> l ∈ filterListeners c2.
Proof.
  intros Hr [Hall Hin] Hm Hi Hne Hnat Hkey. destruct (reachable_ok _ _ _ _ Hr) as [Hc Hg].
  assert (m c <> -1) as Hm1 by (rewrite Hm, Z.ones_equiv; pose proof (Z.pow_pos_nonneg 2 i); lia).
  destruct (wp_elim _ _ (dimension_wp undef null typed c value Hc Hm1 Hnat)) as ([c1 did] & E1 & Hc1 & Hd).
  assert (Z.testbit (m c) 30 = false) as H30 by (rewrite Hm; apply Z.ones_spec_high; lia).
  pose proof (r_dimension undef null typed c value c1 did Hr Hnat (or_intror H30) E1) as Hr1.
  destruct (reachable_ok _ _ _ _ Hr1) as [_ Hg1].
  destruct Hd as (-> & Ed & En & _ & Efl & _ & Ega & (b & Hb & Hfree & Em & Hlow) & Edl & Erl & d & Es & Hv & Href & Hfun & _).
  rewrite Hm in Hfree, Em. assert (b = i) as -> by (apply first_free; [lia..|done|by rewrite Hm in Hlow]).
  rewrite mask_next in Em by done. set (did := length (dims c)) in *.
  assert (live c1 did d) as Hl by (split; [rewrite Es; by apply list_lookup_middle|rewrite Edl; left]).
  destruct (wp_elim _ _ (group_wp null typed c1 did d key Hc1 Hg1 Hl Hkey)) as ([c2 gid] & E2 & _ & _ & Ha).
  assert (0 < n c1) as Hn1.
  { rewrite En, (bk_n _ _ (ck_base _ _ Hc)). unfold alen. destruct (data c); [done|simpl; lia]. }
  destruct (group_added_listed typed c1 did d key c2 gid Ha Hn1) as [(g & _ & _ & _ & _ & Hlist) Hl2].
  destruct Ha as [_ Ed2 _ Edl2 _ Em2 Ega2 (d2 & Es2 & Hsd & Hr2 & Hf2 & _) _].
  assert (forall e v r, (e, v, r) ∈ specs -> ranged c e v r) as Hspec by (rewrite Forall_forall in Hall; intros e v r; apply Hall).
  assert (forall e v r, (e, v, r) ∈ specs -> e <> did) as Hfresh.
  { intros e v r (de & [Hde _] & _)%Hspec ->. apply lookup_lt_Some in Hde. unfold did in Hde. lia. }
  exists c1, did, c2, gid. split_and!; try done; try congruence.
  - by eapply r_group.
  - split.
    + constructor.
      * exists d2. split; [split|].
        -- rewrite Es2. apply list_lookup_insert_eq. by eapply lookup_lt_Some, Hl.
        -- rewrite Edl2, Edl. left.
        -- split; [by rewrite (sd_value _ _ Hsd)|]. intros x. unfold passes. by rewrite Hr2, Hf2, Hfun, Href.
      * apply Forall_forall. intros [[e v] r] He. destruct (Hspec _ _ _ He) as (de & [Hde Hle] & Hp).
        exists de. split; [|done]. split.
        -- rewrite Es2, list_lookup_insert_ne by (intros <-; by eapply Hfresh). rewrite Es. by apply lookup_app_l_Some.
        -- rewrite Edl2, Edl. right. apply elem_of_app. by left.
    + intros e. rewrite Edl2, Edl, elem_of_cons, elem_of_app, list_elem_of_singleton. intros [[= ->]|[He|]]; [| |done].
      * exists value, None. left.
      * destruct (Hin e He) as (v & r & Hs). exists v, r. by right.
  - apply Hlist.
  - intros l Hlf Hnn. rewrite <- Efl in Hlf. by destruct (Hl2 l Hlf).
Qed.

(** ** Reading *)

Lemma group_read_shape c gid g c' gs : group_read c gid g c' gs -> same_core c c' /\ shape c' = shape c.
Proof. by intros (d & w & _ & _ & -> & _). Qed.

Lemma group_all_ok c gid :
  reachable c -> has_group c gid ->
  exists c' gs, group_all c gid = Ret (c', gs) /\ reachable c' /\ same_core c c' /\ shape c' = shape c.
Proof.
  intros Hr Hl. destruct (reachable_ok _ _ _ _ Hr) as [Hc Hg]. destruct (has_group_listed c gid Hg Hl) as [g Hlist].
  destruct (wp_elim _ _ (group_all_wp typed c gid g (ck_base _ _ Hc) Hg Hlist)) as ([c' gs] & E & _ & _ & Hread).
  destruct (group_read_shape _ _ _ _ _ Hread). exists c', gs. split_and!; try done. by eapply r_group_all.
Qed.

Lemma group_top1_ok c gid :
  reachable c -> has_group c gid -> data c <> [] ->
  exists c' e l, group_top c gid 1 = Ret (c', e :: l) /\ reachable c' /\ same_core c c' /\ shape c' = shape c.
Proof.
  intros Hr Hl Hne. destruct (reachable_ok _ _ _ _ Hr) as [Hc Hg]. destruct (has_group_listed c gid Hg Hl) as [g Hlist].
  destruct (wp_elim _ _ (group_top_wp typed c gid g 1 (ck_base _ _ Hc) Hg Hlist ltac:(lia)))
    as ([c' top] & E & _ & _ & gs & rest & Hread & _ & _ & Hlen & _).
  destruct (group_read_shape _ _ _ _ _ Hread). destruct (listed_ok typed c gid g Hg Hlist) as (Hok & _).
  destruct Hread as (d & w & Hd & _ & _ & Hvals). pose proof (gs_vals_alen _ _ _ Hvals) as Hl'.
  assert (0 < alen gs) as Hpos.
  { destruct (data c) as [|r l] eqn:Ed; [done|].
    destruct (ky_group _ _ (gk_keyed _ _ _ _ Hok) 0 r d) as (e & He%aget_Some & _); [by rewrite Ed|done|].
    unfold alen in *. rewrite length_fmap in Hl'. lia. }
  destruct top as [|e l]; [unfold alen in Hlen, Hpos; simpl in Hlen; lia|].
  exists c', e, l. split_and!; try done. by eapply (r_group_top _ _ _ c gid g 1).
Qed.

Lemma count_fold (l : list R) v : foldl (reduceAdd count_reducer) v l = v + alen l.
Proof. revert v. induction l as [|x l IH]; intros v; unfold alen in *; cbn [foldl length]; [lia|]. rewrite IH. change (reduceAdd count_reducer v x) with (v + 1). simpl. lia. Qed.

Lemma value_ok c aid :
  reachable c -> FAll aid ∈ filterListeners c -> (shape c).2 !! aid = Some count_reducer ->
  exists c', groupAll_value c aid = Ret (c', Some (alen (selection c))) /\ reachable c' /\ same_core c c'
    /\ shape c' = shape c.
Proof.
  intros Hr Hl Hred. destruct (reachable_ok _ _ _ _ Hr) as [Hc Hg].
  destruct (wp_elim _ _ (groupAll_value_wp typed c aid Hc Hg Hl)) as ([c' v] & E & _ & Hcore & _ & a & Ha & ->).
  simpl in Hred. rewrite list_lookup_fmap, Ha in Hred. injection Hred as Hred. rewrite Hred, count_fold in E.
  exists c'. rewrite E. split_and!; try done; [by eapply r_value|]. by eapply groupAll_value_shape.
Qed.
Lemma top_ok c did value range k :
  reachable c -> ranged c did value range -> 0 <= k ->
  exists l rest, top c did k = Ret l /\ alen l = Z.min k (alen (selection c)) /\ l ++ rest ≡ₚ selection c
    /\ StronglySorted (fun r r' => (value r' <=. value r) = true) (l ++ rest).
Proof.
  intros Hr (d & Hl & <- & _) Hk. destruct (reachable_ok _ _ _ _ Hr) as [Hc _].
  exact (top_selection typed c Hc did d Hl k Hk).
Qed.
End client.
