(* ===== verification/CfProps.v ===== *)
(** * crossfilter: properties of the whole object

    Theorems about every state a client can reach, with a small history of
    integers as the concrete case. *)

From stdpp Require Import sorting.
From S2P Require Import Prelude.
From S2P Require Import Arrays.
From S2P Require Import Sums.
From S2P Require Import CfBisect.
From S2P Require Import CfArray.
From S2P Require Import CfBits.
From S2P Require Import CfCore.
From S2P Require Import CfInv.
From S2P Require Import CfFilter.
From S2P Require Import CfSelect.
From S2P Require Import CfTop.
From S2P Require Import CfMerge.
From S2P Require Import CfGroups.
From S2P Require Import CfAdd.
From S2P Require Import CfDimension.
From S2P Require Import CfGroupUse.
From S2P Require Import CfRecords.
From S2P Require Import CfRemoval.
From S2P Require Import CfDispose.
From S2P Require Import CfHistory.
From S2P Require Import CfCalls.

(** ** A concrete history

    Six integers, a dimension on the number and one on its remainder modulo
    3, a [groupAll] that has been read once, and a range filter. *)

Definition force {A} (a : js A) (dflt : A) : A := match a with Ret x => x | _ => dflt end.

Abbreviation zcf := (@cf Z Z).
Definition ex0 : zcf := new_crossfilter true.
Definition ex1 : zcf := force (add 0 0 true ex0 [5; 3; 8; 1; 9; 4]) ex0.
Definition ex2 : zcf := (force (dimension 0 0 true ex1 (fun r => r)) (ex1, O)).1.
Definition ex3 : zcf := (force (dimension 0 0 true ex2 (fun r => r mod 3)) (ex2, O)).1.
Definition ex4 : zcf := (force (groupAll ex3) (ex3, O)).1.
Definition ex5 : zcf := (force (groupAll_value ex4 0) (ex4, None)).1.
Definition ex6 : zcf := force (filter ex5 0 (ArgArray 3 9)) ex5.

Definition ex_live (c : zcf) (did : nat) : bool :=
  match dims c !! did with Some _ => bool_decide (DPre did ∈ dataListeners c) | None => false end.

Lemma ex_live_spec c did : ex_live c did = true -> exists d, live c did d.
Proof.
  unfold ex_live, live. destruct (dims c !! did) as [d|]; [|done].
  intros Hl%bool_decide_eq_true. eauto.
Qed.

Lemma ex4_reachable : reachable 0 0 true ex4.
Proof.
  apply (r_groupAll 0 0 true ex3 ex4 0); [|by right|by vm_compute].
  apply (r_dimension 0 0 true ex2 (fun r => r mod 3) ex3 1); [|by intros; apply Z_natural|by left|by vm_compute].
  apply (r_dimension 0 0 true ex1 (fun r => r) ex2 0); [|by intros; apply Z_natural|by left|by vm_compute].
  apply (r_add 0 0 true ex0 [5; 3; 8; 1; 9; 4] ex1); [apply r_new|by vm_compute|by intros; apply Z_natural|by vm_compute].
Qed.

Lemma ex6_reachable : reachable 0 0 true ex6.
Proof.
  destruct (ex_live_spec ex5 0 eq_refl) as [d Hd].
  apply (r_filter 0 0 true ex5 0 d (ArgArray 3 9) ex6); [|done|done|by vm_compute].
  apply (r_value 0 0 true ex4 0 ex5 (Some 6)); [apply ex4_reachable| |by vm_compute].
  refine (bool_decide_eq_true_1 _ _). by vm_compute.
Qed.

Section props.
Context {R X : Type} `{JsOrdLaws X} (undef null : X) (typed : bool).
Implicit Types (c : @cf R X) (d : @dim R X).

(** ** The selection *)

(** C1: in every reachable state, a record's entry of [filters] is 0 exactly
    when the filters of all dimensions in use let the record pass. *)
Theorem filters_refine_selection c k rec x :
  reachable undef null typed c ->
  aget (data c) k = Some rec -> aget (tcells (filters c)) k = Some x ->
  x = 0 <-> forall did d, live c did d -> passes d (d_value d rec) = true.
Proof. intros Hr Hrec Hx. by apply (selected_spec typed c k), Hx; [apply reachable_ok in Hr as [? _]|]. Qed.

(** C3: every call that the API allows in a reachable state, [dimension.groupAll]
    apart, returns, and the state it leads to is reachable again; it throws
    exactly where [throws] says: [dimension] when all 32 bits are taken, and
    [top] of a group with a negative number.  What is not allowed, such as
    [group.top(0)], is said at [allowed]. *)
Theorem reachable_progress c (k : call) :
  reachable undef null typed c -> allowed typed c k ->
  match throws c k with
  | Some e => run_call undef null typed c k = Throw e
  | None => exists c', run_call undef null typed c k = Ret c' /\ reachable undef null typed c'
  end.
Proof. apply call_returns. Qed.

(** C2: the value of a [groupAll], however it was arrived at incrementally, is
    the reduction from scratch of the selected records. *)
Theorem groupAll_value_selection c aid :
  reachable undef null typed c -> FAll aid ∈ filterListeners c ->
  exists c' a, groupAll_value c aid =
      Ret (c', Some (foldl (reduceAdd (a_reduce a)) (reduceInitial (a_reduce a)) (selection c)))
    /\ galls c !! aid = Some a.
Proof.
  intros (Hc & Hg)%reachable_ok Hl.
  destruct (wp_elim _ _ (groupAll_value_wp typed c aid Hc Hg Hl)) as ([c' v] & -> & _ & _ & _ & a & Ha & ->).
  eauto.
Qed.

(** ** The operations on the selection *)

Lemma selectedb_added c c' r :
  cf_ok typed c -> dataListeners c' = dataListeners c ->
  (forall did d, live c did d -> exists d', live c' did d' /\ added_dim d d') ->
  selectedb c' r = selectedb c r.
Proof.
  intros Hc Edl Hl. apply eq_bool_prop_intro. rewrite !Is_true_true, !selectedb_spec.
  assert (forall d d' x, added_dim d d' -> passes d' (d_value d' x) = passes d (d_value d x)) as Hp.
  { intros d d' x []. unfold passes. by rewrite ad_refilter, ad_refilterFunction, ad_value. }
  split.
  - intros Hall did d Hd. destruct (Hl did d Hd) as (d' & Hd' & Had). rewrite <- (Hp d d' r Had). by eapply Hall.
  - intros Hall did d' [Hd' Hl']. rewrite Edl in Hl'.
    destruct (ck_listed _ _ Hc did ltac:(by left)) as [d Hd].
    destruct (Hl did d (conj Hd Hl')) as (d2 & [Hd2 _] & Had). rewrite Hd' in Hd2. injection Hd2 as <-.
    rewrite (Hp d d' r Had). by eapply Hall.
Qed.

(** C7: a filter method makes its dimension select by the new filter; other
    dimensions, and the records, stay as they are. *)
Theorem filter_selects c did d a :
  reachable undef null typed c -> live c did d -> arg_ok a ->
  exists c' d', filter c did a = Ret c' /\ data c' = data c /\ live c' did d' /\ d_value d' = d_value d
    /\ (forall x, passes d' x = match a with
                               | ArgNull => true
                               | ArgArray min max => (min <=. x) && (x <. max)
                               | ArgFunction f => f x 0
                               | ArgValue v => (v <=. x) && (x <=. v)
                               end)
    /\ forall e de, e <> did -> live c' e de <-> live c e de.
Proof.
  intros (Hc & Hg)%reachable_ok Hl Ha.
  destruct (wp_elim _ _ (filter_wp typed _ c did d a Hc Hg Hl Ha))
    as (c' & E & _ & _ & Ed & _ & _ & Edl & d' & Es & Hsd & Er & Ef).
  exists c', d'. split_and!; [done|done| |apply Hsd| |].
  - split; [|rewrite Edl; apply Hl]. rewrite Es. apply list_lookup_insert_eq.
    by eapply lookup_lt_Some, Hl.
  - intros x. unfold passes. rewrite Er, Ef. by destruct a.
  - intros e de Hne. unfold live. rewrite Es, Edl. by rewrite list_lookup_insert_ne.
Qed.

(** The records whose entry of [filters] is 0: what [groupAll], [top] and
    [bottom] go by. *)
Definition shown c : list R :=
  omap (fun k => if default false ((fun x => x =? 0) <$> aget (tcells (filters c)) k) then aget (data c) k else None)
    (seqZ 0 (alen (data c))).

Lemma shown_selection c : cf_ok typed c -> shown c = selection c.
Proof.
  intros Hc. apply omap_seqZ_filter. intros k r Hr. pose proof (ck_base _ _ Hc) as Hb.
  destruct (aget_is_Some (tcells (filters c)) k) as [x Hx].
  { pose proof (bk_len _ _ Hb). pose proof (bk_n _ _ Hb). apply aget_Some in Hr. unfold tlen in *. lia. }
  pose proof (cell_selected typed c k r x Hc Hr Hx) as Hs. rewrite Hx. simpl. unfold truthy in Hs.
  by destruct (x =? 0), (selectedb c r).
Qed.

(** C8: [add] appends the new records.  Of the records with a 0 in [filters], the
    old ones stay, and of the new ones exactly those get it that the filters in
    use let pass; the dimensions keep their accessors and filters, and each of
    them lists exactly these records, in its order. *)
Theorem add_selection c newData :
  reachable undef null typed c -> n c + alen newData <= 2 ^ 30 ->
  (forall did d r, live c did d -> r ∈ newData -> natural (d_value d r)) ->
  exists c', add undef null typed c newData = Ret c' /\ data c' = data c ++ newData
    /\ shown c' = shown c ++ List.filter (selectedb c) newData
    /\ forall did d, live c did d ->
         (exists d', live c' did d' /\ d_value d' = d_value d /\ forall x, passes d' x = passes d x) /\
         exists l, bottom c' did (n c') = Ret l /\ l ≡ₚ shown c'
           /\ StronglySorted (fun r r' => (d_value d r <=. d_value d r') = true) l.
Proof.
  intros (Hc & Hg & Hk)%reachable_inv Hs Hnat.
  destruct (wp_elim _ _ (add_wp undef null typed c newData Hc Hg Hk Hs Hnat)) as (c' & E & (Hc' & _) & Ed & Edl & Hl).
  exists c'. split_and!; [done|done| |].
  - rewrite !shown_selection by done. unfold selection. rewrite Ed, List.filter_app.
    f_equal; apply filter_ext; intros r; by apply selectedb_added.
  - intros did d Hd. destruct (Hl did d Hd) as (d' & Hd' & []). split.
    { exists d'. split_and!; try done. intros x. unfold passes. by rewrite ad_refilter, ad_refilterFunction. }
    pose proof (bk_n _ _ (ck_base _ _ Hc')) as Hn.
    destruct (bottom_selection typed c' Hc' did d' Hd' (n c')) as (l & rest & El & Hlen & Hp & Hsort).
    { rewrite Hn. apply alen_nonneg. }
    rewrite ad_value in Hsort. assert (alen (selection c') <= n c') as Hle.
    { rewrite Hn. unfold selection, alen. pose proof (filter_length_le (selectedb c') (data c')). lia. }
    assert (rest = []) as ->.
    { apply Permutation_length in Hp. rewrite length_app in Hp. unfold alen in *. destruct rest; [done|simpl in *; lia]. }
    rewrite app_nil_r in *. exists l. by rewrite shown_selection.
Qed.

(** C9: [remove] leaves the records that are not selected, in their order; each
    dimension keeps its accessor and its filter, and nothing is selected. *)
Theorem remove_selection c :
  reachable undef null typed c ->
  exists c', removeData typed c = Ret c' /\ data c' = List.filter (fun r => negb (selectedb c r)) (data c)
    /\ (forall did d, live c did d -> exists d', live c' did d' /\ d_value d' = d_value d /\ forall x, passes d' x = passes d x)
    /\ selection c' = [].
Proof.
  intros (Hc & Hg & Hk)%reachable_inv. destruct (wp_elim _ _ (removeData_wp typed c Hc Hg Hk)) as (c' & E & _ & [Ed Es _ Hl]).
  exists c'. split_and!; try done. intros did d Hd. destruct (Hl did d Hd) as (d' & Hd' & []). exists d'. split_and!; try done.
  intros x. unfold passes. by rewrite ad_refilter, ad_refilterFunction.
Qed.

(** [dimension] takes the lowest bit no dimension in use has, keeps the
    entries of [filters], and so leaves the selection as it is. *)
Theorem dimension_selection c value :
  reachable undef null typed c -> m c <> -1 -> (forall r, r ∈ data c -> natural (value r)) ->
  exists c' did d b, dimension undef null typed c value = Ret (c', did)
    /\ live c' did d /\ d_value d = value /\ (forall x, passes d x = true)
    /\ d_one d = bit_one b /\ 0 <= b < 32 /\ Z.testbit (m c) b = false
    /\ (forall i, 0 <= i < b -> Z.testbit (m c) i = true)
    /\ data c' = data c /\ tcells (filters c') = tcells (filters c).
Proof.
  intros (Hc & Hg)%reachable_ok Hm Hnat.
  destruct (wp_elim _ _ (dimension_wp undef null typed c value Hc Hm Hnat)) as ([c' did] & E & Hc' & Hd).
  destruct Hd as (-> & Ed & _ & Ef & _ & _ & _ & (b & Hb & Hfree & Em & Hlow) & Edl & Erl & d & Es & Hv & Hr & Hf & _).
  assert (live c' (length (dims c)) d) as Hl.
  { split; [rewrite Es; by apply list_lookup_middle|]. rewrite Edl. left. }
  exists c', (length (dims c)), d, b. split_and!; try done; try lia.
  - intros x. unfold passes. by rewrite Hf, Hr.
  - destruct (ck_dims _ _ Hc' _ _ Hl) as [_ _ _ _ _ (b' & Hb' & Ho & Hm' & _)].
    pose proof (kind_width_range _ (bk_kind_ok _ _ (ck_base _ _ Hc'))).
    rewrite Em, mask_bits in Hm' by lia. apply orb_true_iff in Hm' as [Hm'|Hm'].
    + exfalso. destruct (ck_owned _ _ Hc b' ltac:(lia) Hm') as (e & de & [Hde Hle] & Hoe).
      assert (e < length (dims c))%nat as Hlt by by eapply lookup_lt_Some.
      assert (live c' e de) as Hle'.
      { split; [rewrite Es; by apply lookup_app_l_Some|]. rewrite Edl. right. apply elem_of_app. by left. }
      pose proof (ck_unique _ _ Hc' _ _ _ _ Hle' Hl ltac:(congruence)). lia.
    + apply bool_decide_eq_true in Hm' as ->. done.
Qed.

(** when all 32 bits are in use, [dimension] throws. *)
Theorem dimension_33rd_throws c value :
  reachable undef null typed c -> m c = -1 ->
  dimension undef null typed c value = Throw "invalid array width!".
Proof. intros (Hc & _)%reachable_ok Hm. by apply dimension_full; [apply ck_base|]. Qed.

(** C10: [dispose] of a dimension leaves the records and the other dimensions as
    they are; selected are the records the others let pass, and the bit is free
    for the next dimension. *)
Theorem dispose_selection c did d :
  reachable undef null typed c -> live c did d -> 0 < n c \/ d_dimensionGroups d = d_indexListeners d ->
  exists c' b, dim_dispose c did = Ret c' /\ data c' = data c
    /\ (forall e de, live c' e de <-> live c e de /\ e <> did)
    /\ (forall r, selectedb c' r = true <-> forall e de, live c e de -> e <> did -> passes de (d_value de r) = true)
    /\ d_one d = bit_one b /\ 0 <= b < 32 /\ Z.testbit (m c) b = true /\ Z.testbit (m c') b = false.
Proof.
  intros Hco%reachable_inv Hl Hor. pose proof Hco as (Hc & _).
  destruct (wp_elim _ _ (dim_dispose_wp typed c did d Hco Hl Hor)) as (c' & E & _ & [Ed Em Hlive]).
  destruct (ck_dims _ _ Hc did d Hl) as [Hz _ _ _ _ (b & Hb & Hone & Hm & _) _].
  pose proof (kind_width_range _ (bk_kind_ok _ _ (ck_base _ _ Hc))). exists c', b. split_and!; try done; try lia.
  - intros r. rewrite selectedb_spec. split; [|intros Hall e de [? ?]%Hlive; eauto].
    intros Hall e de Hle Hne. apply (Hall e), Hlive. done.
  - rewrite Em, Hz, Hone, testbit_js_and, testbit_js_not, testbit_bit_one by lia. by rewrite bool_decide_true, andb_false_r.
Qed.

(** [bottom(k)] returns the first [k] selected records in ascending order
    of the dimension: the list can be completed to all selected records, in
    order. *)
Theorem bottom_first c did d k :
  reachable undef null typed c -> live c did d -> 0 <= k ->
  exists l rest, bottom c did k = Ret l /\ alen l = Z.min k (alen (selection c))
    /\ l ++ rest ≡ₚ selection c
    /\ StronglySorted (fun r r' => (d_value d r <=. d_value d r') = true) (l ++ rest).
Proof. intros (Hc & _)%reachable_ok Hl Hk. exact (bottom_selection typed c Hc did d Hl k Hk). Qed.

(** C11: likewise for [top(k)], in descending order. *)
Theorem top_first c did d k :
  reachable undef null typed c -> live c did d -> 0 <= k ->
  exists l rest, top c did k = Ret l /\ alen l = Z.min k (alen (selection c))
    /\ l ++ rest ≡ₚ selection c
    /\ StronglySorted (fun r r' => (d_value d r' <=. d_value d r) = true) (l ++ rest).
Proof. intros (Hc & _)%reachable_ok Hl Hk. exact (top_selection typed c Hc did d Hl k Hk). Qed.
(** ** Groups of a dimension *)

(** C4: [all()] of a group, in any reachable state: one group per key that
    occurs, in ascending order of the keys; the value of each, however it was
    arrived at incrementally, is the reduction from scratch of the records with
    its key that the filters of all {e other} dimensions let pass. *)
Theorem group_all_selection c gid g d :
  reachable undef null typed c -> listed c gid g -> live c (g_dim g) d ->
  exists c' gs, group_all c gid = Ret (c', gs)
    /\ StronglySorted (fun x y => (x <. y) = true) (kv_key <$> gs)
    /\ (forall r, r ∈ data c -> exists e, e ∈ gs /\ same_key (kv_key e) (g_key g (d_value d r)))
    /\ forall e, e ∈ gs ->
         (exists r, r ∈ data c /\ same_key (kv_key e) (g_key g (d_value d r)))
         /\ kv_value e = Some (foldl (reduceAdd (g_reduce g)) (reduceInitial (g_reduce g)) (group_records c g d e)).
Proof.
  intros (Hc & Hg)%reachable_ok Hl Hd.
  destruct (wp_elim _ _ (group_all_wp typed c gid g (ck_base _ _ Hc) Hg Hl)) as ([c' gs] & -> & _ & _ & Hr).
  destruct (listed_ok typed c gid g Hg Hl) as (Hok & _ & _). exists c', gs. split; [done|].
  exact (group_read_values typed c gid g d c' gs Hc Hd (gk_keyed _ _ _ _ Hok) Hr).
Qed.

(** C5: [top(k)] of a group returns the [k] groups of greatest value (all, if
    there are fewer) in descending order, out of those that [all()] lists. *)
Theorem group_top_first c gid g k :
  reachable undef null typed c -> listed c gid g -> 1 <= k < 2 ^ 30 ->
  exists c' top gs rest, group_top c gid k = Ret (c', top) /\ group_all c gid = Ret (c', gs)
    /\ top ++ rest ≡ₚ gs /\ alen top = Z.min (alen gs) k
    /\ StronglySorted (fun e e' => group_valueOf g e' <= group_valueOf g e) top
    /\ forall e e', e ∈ top -> e' ∈ rest -> group_valueOf g e' <= group_valueOf g e.
Proof.
  intros (Hc & Hg)%reachable_ok Hl Hk. pose proof (ck_base _ _ Hc) as Hb.
  destruct (wp_elim _ _ (group_top_wp typed c gid g k Hb Hg Hl Hk))
    as ([c' top] & E & _ & _ & gs & rest & _ & Hall & Htop).
  by exists c', top, gs, rest.
Qed.
End props.

(** ** Concrete cases *)

Lemma filters_refine_selection_witness :
  0 = 0 <-> forall did d, live ex6 did d -> passes d (d_value d 5) = true.
Proof. apply (filters_refine_selection 0 0 true ex6 0 5 0 ex6_reachable); by vm_compute. Defined.

Lemma groupAll_value_selection_witness :
  exists c' a, groupAll_value ex6 0 =
      Ret (c', Some (foldl (reduceAdd (a_reduce a)) (reduceInitial (a_reduce a)) (selection ex6)))
    /\ galls ex6 !! O = Some a.
Proof.
  apply (groupAll_value_selection 0 0 true ex6 0 ex6_reachable).
  refine (bool_decide_eq_true_1 _ _). by vm_compute.
Defined.

(** The value read after the filter: 5, 3, 8 and 4 are selected. *)
Example groupAll_value_ex6 : (force (groupAll_value ex6 0) (ex6, None)).2 = Some 4.
Proof. by vm_compute. Qed.

Lemma filter_selects_witness :
  exists d0 c' d', live ex6 1 d0 /\ filter ex6 1 (ArgValue 2) = Ret c' /\ live c' 1 d'
    /\ forall x, passes d' x = (2 <=. x) && (x <=. 2).
Proof.
  destruct (ex_live_spec ex6 1 eq_refl) as [d Hd].
  destruct (filter_selects 0 0 true ex6 1 d (ArgValue 2) ex6_reachable Hd eq_refl)
    as (c' & d' & E & _ & Hl & _ & Hp & _).
  exists d, c', d'. exact (conj Hd (conj E (conj Hl Hp))).
Defined.

Lemma dimension_selection_witness :
  exists c' did d b, dimension 0 0 true ex6 (fun r => - r) = Ret (c', did)
    /\ live c' did d /\ d_value d = (fun r => - r) /\ (forall x, passes d x = true)
    /\ d_one d = bit_one b /\ 0 <= b < 32 /\ Z.testbit (m ex6) b = false
    /\ (forall i, 0 <= i < b -> Z.testbit (m ex6) i = true)
    /\ data c' = data ex6 /\ tcells (filters c') = tcells (filters ex6).
Proof.
  apply (dimension_selection 0 0 true ex6 (fun r => - r) ex6_reachable); [by vm_compute|].
  intros. apply Z_natural.
Defined.

Lemma bottom_first_witness :
  exists d l rest, live ex6 0 d /\ bottom ex6 0 2 = Ret l /\ alen l = Z.min 2 (alen (selection ex6))
    /\ l ++ rest ≡ₚ selection ex6.
Proof.
  destruct (ex_live_spec ex6 0 eq_refl) as [d Hd].
  destruct (bottom_first 0 0 true ex6 0 d 2 ex6_reachable Hd ltac:(lia)) as (l & rest & E & Hl & Hp & _).
  exists d, l, rest. exact (conj Hd (conj E (conj Hl Hp))).
Defined.

Lemma top_first_witness :
  exists d l rest, live ex6 0 d /\ top ex6 0 2 = Ret l /\ alen l = Z.min 2 (alen (selection ex6))
    /\ l ++ rest ≡ₚ selection ex6.
Proof.
  destruct (ex_live_spec ex6 0 eq_refl) as [d Hd].
  destruct (top_first 0 0 true ex6 0 d 2 ex6_reachable Hd ltac:(lia)) as (l & rest & E & Hl & Hp & _).
  exists d, l, rest. exact (conj Hd (conj E (conj Hl Hp))).
Defined.

(** A group by fives on the first dimension, made after the filter on it and
    one on the remainder modulo 3. *)
Definition ex7 : zcf := force (filter ex6 1 (ArgArray 0 2)) ex6.
Definition ex8 : zcf := (force (group 0 true ex7 0 (fun x => x / 5)) (ex7, O)).1.

Lemma ex8_reachable : reachable 0 0 true ex8.
Proof.
  destruct (ex_live_spec ex6 1 eq_refl) as [d Hd]. destruct (ex_live_spec ex7 0 eq_refl) as [d0 Hd0].
  apply (r_group 0 0 true ex7 0 d0 (fun x => x / 5) ex8 0); [|done| |by vm_compute].
  - apply (r_filter 0 0 true ex6 1 d (ArgArray 0 2) ex7); [apply ex6_reachable|done|done|by vm_compute].
  - intros x y Hxy%Z.leb_le. apply Z.leb_le, Z.div_le_mono; lia.
Qed.

Lemma reachable_progress_witness :
  exists c', run_call 0 0 true ex8 (Add [7; 2]) = Ret c' /\ reachable 0 0 true c'.
Proof.
  apply (reachable_progress 0 0 true ex8 (Add [7; 2]) ex8_reachable). split; [by vm_compute|]. intros. apply Z_natural.
Defined.

(** Of 5, 3, 8, 1, 9 and 4, the filters let 3 and 4 pass; of the new ones, 7. *)
Lemma add_selection_witness :
  exists c', add 0 0 true ex8 [7; 2] = Ret c' /\ shown c' = [3; 4; 7].
Proof.
  destruct (add_selection 0 0 true ex8 [7; 2] ex8_reachable) as (c' & E & _ & Es & _);
    [by vm_compute|intros; apply Z_natural|]. exists c'. exact (conj E (eq_trans Es eq_refl)).
Defined.

Lemma remove_selection_witness :
  exists c', removeData true ex8 = Ret c' /\ data c' = [5; 8; 1; 9] /\ selection c' = [].
Proof. destruct (remove_selection 0 0 true ex8 ex8_reachable) as (c' & E & Ed & _ & Es). exists c'. exact (conj E (conj Ed Es)). Defined.

Definition ex_listed (c : zcf) (gid : nat) : bool :=
  bool_decide (FMany gid ∈ filterListeners c \/ FOne gid ∈ filterListeners c).

Lemma ex_listed_spec c gid g : grps c !! gid = Some g -> ex_listed c gid = true -> listed c gid g.
Proof. intros Hg Hl%bool_decide_eq_true. by split. Qed.

Lemma group_all_selection_witness :
  exists g d c' gs, listed ex8 0 g /\ live ex8 0 d /\ group_all ex8 0 = Ret (c', gs)
    /\ forall e, e ∈ gs ->
      kv_value e = Some (foldl (reduceAdd (g_reduce g)) (reduceInitial (g_reduce g)) (group_records ex8 g d e)).
Proof.
  destruct (ex_live_spec ex8 0 eq_refl) as [d Hd].
  destruct (grps ex8 !! O) as [g|] eqn:Eg; [|by vm_compute in Eg].
  pose proof (ex_listed_spec ex8 0 g Eg eq_refl) as Hl.
  assert (g_dim g = O) as Edim by (vm_compute in Eg; by injection Eg as <-).
  destruct (group_all_selection 0 0 true ex8 0 g d ex8_reachable Hl ltac:(by rewrite Edim))
    as (c' & gs & E & _ & _ & Hv).
  exists g, d, c', gs. exact (conj Hl (conj Hd (conj E (fun e He => proj2 (Hv e He))))).
Defined.

(** The filter of the first dimension itself does not count: of 3, 1, 4 and
    9 the remainder is 0 or 1. *)
Example group_all_ex8 :
  (force (group_all ex8 0) (ex8, [])).2 = [KV 0 (Some 3); KV 1 (Some 1)].
Proof. by vm_compute. Qed.

(** Two more records, one of them the first of its group, after the values
    have been computed. *)
Example group_all_after_add :
  let c := (force (group_all ex8 0) (ex8, [])).1 in
  (force (group_all (force (add 0 0 true c [12; 7]) c) 0) (c, [])).2 = [KV 0 (Some 3); KV 1 (Some 2); KV 2 (Some 1)].
Proof. by vm_compute. Qed.

(** 5, 8, 1 and 9 are left.  When the filter of the second dimension is taken
    back, too, no record is left out of the values. *)
Example group_all_after_remove :
  let c := force (removeData true (force (group_all ex8 0) (ex8, [])).1) ex8 in
  (force (group_all c 0) (c, [])).2 = [KV 0 (Some 1); KV 1 (Some 1)] /\
  (force (group_all (force (filter c 1 ArgNull) c) 0) (c, [])).2 = [KV 0 (Some 1); KV 1 (Some 3)].
Proof. by vm_compute. Qed.

Lemma dispose_selection_witness :
  exists d c', live ex8 0 d /\ dim_dispose ex8 0 = Ret c' /\ selection c' = [3; 1; 9; 4] /\
    forall r, selectedb c' r = true <-> forall e de, live ex8 e de -> e <> O -> passes de (d_value de r) = true.
Proof.
  destruct (ex_live_spec ex8 0 eq_refl) as [d Hd].
  destruct (dispose_selection 0 0 true ex8 0 d ex8_reachable Hd ltac:(left; by vm_compute)) as (c' & b & E & _ & _ & Hs & _).
  exists d, c'. refine (conj Hd (conj E (conj _ Hs))).
  assert (c' = force (dim_dispose ex8 0) ex8) as -> by (by rewrite E). by vm_compute.
Defined.

(** Two groups on the number itself, made before there are records; one of
    them is disposed of, [times] times.  The filter on the remainder modulo 2
    keeps 2 only. *)
Definition ex_twice (times : nat) : list (@kv Z) :=
  let c := (force (dimension 0 0 true ex0 (fun r => r)) (ex0, O)).1 in
  let c := (force (dimension 0 0 true c (fun r => r mod 2)) (c, O)).1 in
  let c := (force (group 0 true c 0 (fun x => x)) (c, O)).1 in
  let c := (force (group 0 true c 0 (fun x => x)) (c, O)).1 in
  let c := Nat.iter times (fun c => force (group_dispose c 0) c) c in
  let c := force (add 0 0 true c [1; 2; 3]) c in
  let c := (force (group_all c 1) (c, [])).1 in
  let c := force (filter c 1 (ArgValue 0)) c in
  (force (group_all c 1) (c, [])).2.

(** Without records, all groups have the same listener: the second [dispose]
    removes that of the other group, which is not told of the filter. *)
Theorem group_disposed_twice :
  ex_twice 1 = [KV 1 (Some 0); KV 2 (Some 1); KV 3 (Some 0)] /\
  ex_twice 2 = [KV 1 (Some 1); KV 2 (Some 1); KV 3 (Some 1)].
Proof. by vm_compute. Qed.

Lemma group_top_first_witness :
  exists g c' top gs rest, listed ex8 0 g /\ group_top ex8 0 1 = Ret (c', top)
    /\ group_all ex8 0 = Ret (c', gs) /\ top ++ rest ≡ₚ gs /\ alen top = Z.min (alen gs) 1.
Proof.
  destruct (grps ex8 !! O) as [g|] eqn:Eg; [|by vm_compute in Eg].
  pose proof (ex_listed_spec ex8 0 g Eg eq_refl) as Hl.
  destruct (group_top_first 0 0 true ex8 0 g 1 ex8_reachable Hl ltac:(lia)) as (c' & top & gs & rest & Htop & E & Hp & Hn & _).
  exists g, c', top, gs, rest. exact (conj Hl (conj Htop (conj E (conj Hp Hn)))).
Defined.

(** [k] more dimensions, all on the number itself. *)
Fixpoint more_dims (k : nat) (c : zcf) : zcf :=
  match k with
  | O => c
  | S k => more_dims k (force (dimension 0 0 true c (fun r => r)) (c, O)).1
  end.

Fixpoint more_dims_ok (k : nat) (c : zcf) : bool :=
  match k with
  | O => true
  | S k =>
      match dimension 0 0 true c (fun r => r), galls c with
      | Ret (c', _), [] => more_dims_ok k c'
      | _, _ => false
      end
  end.

Lemma more_dims_reachable k c :
  reachable 0 0 true c -> more_dims_ok k c = true -> reachable 0 0 true (more_dims k c).
Proof.
  revert c. induction k as [|k IH]; intros c Hr Hok; [done|]. simpl in *.
  destruct (dimension 0 0 true c (fun r => r)) as [[c' did]| |] eqn:E; [|done..].
  destruct (galls c) eqn:Eg; [|done]. apply IH; [|done].
  apply (r_dimension 0 0 true c (fun r => r) c' did); [done|intros; apply Z_natural|by left|done].
Qed.

Definition ex_full : zcf := more_dims 32 ex1.

Lemma dimension_33rd_throws_witness :
  dimension 0 0 true ex_full (fun r => r) = Throw "invalid array width!".
Proof.
  apply (dimension_33rd_throws 0 0 true ex_full); [|by vm_compute].
  apply more_dims_reachable; [|by vm_compute].
  apply (r_add 0 0 true ex0 [5; 3; 8; 1; 9; 4] ex1); [apply r_new|by vm_compute|by intros; apply Z_natural|by vm_compute].
Defined.

(** ** Where the code falls short of its comments *)

(** A range with its bounds exchanged selects nothing by its definition,
    but [filterIndexBounds] flips the records between the bounds twice, and a
    [groupAll] goes on counting them: the count is 2 where no record lies in
    the range. *)
Theorem filterRange_reversed_counts :
  (c ← filterRange ex5 0 8 4; groupAll_value c 0) ≫= (fun r => Ret r.2) = Ret (Some 2)
  /\ forall r : Z, ((8 <=. r) && (r <. 4)) = false.
Proof.
  split; [by vm_compute|]. intros r. simpl.
  destruct (Z.leb_spec 8 r), (Z.ltb_spec r 4); simpl; lia || done.
Qed.

(** [dispose] of a [groupAll] removes its listener and every listener
    registered after it, since [splice] is called without a count. *)
Theorem groupAll_dispose_drops_later {R X} (c : @cf R X) aid fs later ds dlater :
  FAll aid ∉ fs -> DAll aid ∉ ds ->
  filterListeners c = fs ++ FAll aid :: later -> dataListeners c = ds ++ DAll aid :: dlater ->
  filterListeners (groupAll_dispose c aid) = fs /\ dataListeners (groupAll_dispose c aid) = ds.
Proof.
  intros Hf Hd Ef Ed. unfold groupAll_dispose. simpl. rewrite Ef, Ed.
  assert (forall {L} `{EqDecision L} (x : L) l1 l2, x ∉ l1 -> splice_rest x (l1 ++ x :: l2) = l1) as Hs.
  { intros L ? x l1 l2. induction l1 as [|y l1 IH]; intros Hx; simpl.
    - by rewrite decide_True.
    - rewrite not_elem_of_cons in Hx. destruct Hx as [Hne Hx]. rewrite decide_False by done.
      by rewrite IH. }
  by rewrite !Hs.
Qed.

(** Two [groupAll]s: disposing of the first disconnects the second. *)
Definition ex_two : zcf := (force (groupAll ex5) (ex5, O)).1.

Lemma groupAll_dispose_drops_later_witness :
  filterListeners (groupAll_dispose ex_two 0) = []
  /\ dataListeners (groupAll_dispose ex_two 0) = [DPre 1; DPre 0; DPost 0; DPost 1].
Proof.
  apply (groupAll_dispose_drops_later ex_two 0 [] [FAll 1] [DPre 1; DPre 0; DPost 0; DPost 1] [DAll 1]).
  - apply not_elem_of_nil.
  - refine (bool_decide_eq_true_1 _ _). by vm_compute.
  - by vm_compute.
  - by vm_compute.
Defined.

(** with typed arrays, the 32nd dimension's bit is unsigned in [filters]
    but signed in the notification, and [update] of [groupAll] compares them
    with [===]: filtering on that dimension leaves the value of a [groupAll]
    at 6 where no record is selected. *)
Theorem groupAll_misses_32nd_dimension :
  let c4 := (force (groupAll ex_full) (ex_full, O)).1 in
  let c5 := (force (groupAll_value c4 0) (c4, None)).1 in
  let c6 := force (filterExact c5 31 100) c5 in
  (force (groupAll_value c6 0) (c6, None)).2 = Some 6 /\ selection c6 = [].
Proof. by vm_compute. Qed.
