(* ===== verification/Queue.v ===== *)
(** * queue: running asynchronous tasks with bounded parallelism

    [src/app/assets/javascripts/queue.js].  The variables of the closure are
    the fields of [queue]; [None] as a number is [NaN], [None] as the
    parallelism is [Infinity].  A deferred function with its arguments is a
    [T]: code outside this repository, of which [run] tells whether it calls
    its callback before it returns, and with what.  Three fields record what
    happens outside the closure, for the theorems to speak of: the calls of the
    function given to [await] or [awaitAll] ([calls]), the tasks taken in
    ([deferred]), and the calls of their callbacks, each by the position of the
    task with its error and its result ([answers]). *)

From S2P Require Import Prelude.
From S2P Require Import Arrays.

Section queue.
Context {E A T : Type} (falsy : E -> bool) (run : T -> option (option E * A)).
Context (parallelism : option Z).

(** An element of [tasks]: arguments waiting to be applied, the marker
    [running], [null], or a result. *)
Inductive slot := Waiting (t : T) | Running | Null | Result (r : A).

(** How the awaited function is called. *)
Inductive call :=
| CallError (e : E)
| CallAll (results : list slot)
| CallSpread (results : list slot).

Record queue := Queue {
  tasks : list slot;
  started : option Z;
  active : Z;
  remaining : option Z;
  popping : bool;
  error : option E;
  awaiting : bool;
  all : bool;
  calls : list call;
  deferred : list T;
  answers : list (Z * option E * A)
}.

Definition new_queue : queue := Queue [] (Some 0) 0 (Some 0) false None false false [] [] [].

Definition lt_nan (x : option Z) (y : Z) : bool := match x with Some x => x <? y | None => false end.
Definition falsy_nan (x : option Z) : bool := match x with Some x => x =? 0 | None => true end.
Definition below_limit (x : Z) : bool := match parallelism with Some p => x <? p | None => true end.

(** [unset] does nothing, so only a function that was set is recorded. *)
Definition notify (q : queue) : queue :=
  if awaiting q then
    let c := match error q with
             | Some e => CallError e
             | None => if all q then CallAll (tasks q) else CallSpread (tasks q)
             end in
    Queue (tasks q) (started q) (active q) (remaining q) (popping q) (error q) (awaiting q) (all q)
          (calls q ++ [c]) (deferred q) (answers q)
  else q.

(** The function [callback(i)] returns, up to the call of [pop]: the flag says
    that [popping || pop()] goes on to [pop()]. *)
Definition callback_body (q : queue) (i : Z) (e : option E) (r : A) : js (queue * bool) :=
  t ← rd (tasks q) i;
  match t with
  | Running =>
      ts ← wr (tasks q) i Null;
      let active := active q - 1 in
      let answers := answers q ++ [(i, e, r)] in
      match error q with
      | Some _ =>
          Ret (Queue ts (started q) active (remaining q) (popping q) (error q) (awaiting q) (all q)
                     (calls q) (deferred q) answers, false)
      | None =>
          match e with
          | Some e =>
              Ret (notify (Queue ts None active None (popping q) (Some e) (awaiting q) (all q)
                                 (calls q) (deferred q) answers), false)
          | None =>
              ts ← wr ts i (Result r);
              let remaining := (fun x => x - 1) <$> remaining q in
              let q' := Queue ts (started q) active remaining (popping q) None (awaiting q) (all q)
                              (calls q) (deferred q) answers in
              if falsy_nan remaining then Ret (notify q', false)
              else Ret (q', negb (popping q))
          end
      end
  | _ => Throw "Error"
  end.

Definition set_popping (q : queue) (b : bool) : queue :=
  Queue (tasks q) (started q) (active q) (remaining q) b (error q) (awaiting q) (all q) (calls q) (deferred q) (answers q).

(** One turn of the loop of [pop]: the next task is marked and started. *)
Definition start_next (q : queue) : js queue :=
  match started q with
  | None => Stuck
  | Some i =>
      t ← rd (tasks q) i;
      ts ← wr (tasks q) i Running;
      let q := Queue ts (Some (i + 1)) (active q + 1) (remaining q) (popping q) (error q) (awaiting q)
                     (all q) (calls q) (deferred q) (answers q) in
      match t with
      | Waiting t =>
          match run t with
          | Some (e, r) =>
              '(q, again) ← callback_body q i e r;
              if (again : bool) then Stuck else Ret q
          | None => Ret q
          end
      | _ => Stuck
      end
  end.

Definition pop (q : queue) : js queue :=
  loop (S (Z.to_nat (alen (tasks q) - default 0 (started q)))) (fun q =>
    let popping := lt_nan (started q) (alen (tasks q)) && below_limit (active q) in
    let q := set_popping q popping in
    if popping then q ← start_next q; Ret (inl q) else Ret (inr q)) q.

(** A task calls its callback. *)
Definition callback (q : queue) (i : Z) (e : option E) (r : A) : js queue :=
  '(q, again) ← callback_body q i e r;
  if (again : bool) then pop q else Ret q.

Definition check (q : queue) : js unit := if awaiting q then Throw "Error" else Ret tt.

Definition defer (q : queue) (t : T) : js queue :=
  _ ← check q;
  if match error q with Some e => falsy e | None => true end then
    pop (Queue (tasks q ++ [Waiting t]) (started q) (active q) ((fun x => x + 1) <$> remaining q)
               (popping q) (error q) (awaiting q) (all q) (calls q) (deferred q ++ [t]) (answers q))
  else Ret q.

Definition await_with (q : queue) (all : bool) : js queue :=
  _ ← check q;
  let q := Queue (tasks q) (started q) (active q) (remaining q) (popping q) (error q) true all (calls q) (deferred q) (answers q) in
  Ret (if falsy_nan (remaining q) then notify q else q).
Definition await (q : queue) : js queue := await_with q false.
Definition awaitAll (q : queue) : js queue := await_with q true.

(** ** The invariant *)

Definition is_running (s : slot) : bool := match s with Running => true | _ => false end.
Definition is_waiting (s : slot) : bool := match s with Waiting _ => true | _ => false end.
Definition is_result (s : slot) : bool := match s with Result _ => true | _ => false end.

Definition count (p : slot -> bool) (l : list slot) : Z := alen (List.filter p l).

(** Before an error: the tasks before [started] are running or done, those
    after it wait, and the counters count them. *)
Record ok_running (q : queue) (s : Z) : Prop := OkRunning {
  or_started : started q = Some s;
  or_range : 0 <= s <= alen (tasks q);
  or_before : reg (tasks q) 0 s (fun t => is_running t = true \/ is_result t = true);
  or_after : reg (tasks q) s (alen (tasks q)) (fun t => is_waiting t = true);
  or_active : active q = count is_running (tasks q);
  or_remaining : remaining q = Some (count is_running (tasks q) + (alen (tasks q) - s));
  or_limit : match parallelism with Some p => active q <= p | None => True end;
}.

(** After it: nothing is started any more. *)
Record ok_error (q : queue) : Prop := OkError {
  oe_started : started q = None;
  oe_remaining : remaining q = None;
  oe_active : active q = count is_running (tasks q);
  oe_limit : match parallelism with Some p => active q <= p | None => True end;
}.

Definition ok (q : queue) : Prop :=
  match error q with None => exists s, ok_running q s | Some _ => ok_error q end.

(** The awaited function has been called once, when nothing was left to do. *)
Definition calls_ok (q : queue) : Prop :=
  calls q = if awaiting q && falsy_nan (remaining q) then
              [match error q with
               | Some e => CallError e
               | None => if all q then CallAll (tasks q) else CallSpread (tasks q)
               end]
            else [].

(** Between calls, moreover, no task waits while a place is free. *)
Record settled (q : queue) : Prop := Settled {
  st_ok : ok q;
  st_calls : calls_ok q;
  st_popping : popping q = false;
  st_busy : error q = None -> started q = Some (alen (tasks q)) \/ below_limit (active q) = false
}.

(** Results stay where they are, and the length only grows. *)
Definition keeps (q q' : queue) : Prop :=
  alen (tasks q) <= alen (tasks q') /\ awaiting q' = awaiting q /\ all q' = all q /\
  (forall e, error q = Some e -> error q' = Some e) /\
  forall j r, aget (tasks q) j = Some (Result r) -> aget (tasks q') j = Some (Result r).

#[local] Instance keeps_preorder : PreOrder keeps.
Proof.
  split; [by split|]. intros q1 q2 q3 (?&?&?&?&?) (?&?&?&?&?).
  split_and!; [lia|congruence|congruence|auto|auto].
Qed.

(** ** Counting *)

Lemma count_perm p l l' : l ≡ₚ l' -> count p l = count p l'.
Proof.
  unfold count, alen. intros Hp. f_equal.
  induction Hp as [|x l l' _ IH|x y l|l1 l2 l3 _ IH1 _ IH2]; simpl; [done| | |congruence].
  - destruct (p x); simpl; congruence.
  - by destruct (p x), (p y).
Qed.

Lemma count_cons p x l : count p (x :: l) = (if p x then 1 else 0) + count p l.
Proof. unfold count, alen. simpl. destruct (p x); simpl; lia. Qed.

Lemma count_snoc p x l : count p (l ++ [x]) = count p l + (if p x then 1 else 0).
Proof. rewrite (count_perm p _ (x :: l)) by solve_Permutation. rewrite count_cons. lia. Qed.

Lemma count_aupd p l i x y :
  aget l i = Some x ->
  count p (aupd l i y) = count p l - (if p x then 1 else 0) + (if p y then 1 else 0).
Proof.
  intros Hx. pose proof (count_perm p _ _ (aupd_perm l i y x Hx)) as Hc.
  rewrite !count_cons in Hc. lia.
Qed.

Lemma count_nonneg p l : 0 <= count p l.
Proof. apply alen_nonneg. Qed.

Lemma count_pos p l i x : aget l i = Some x -> p x = true -> 1 <= count p l.
Proof.
  unfold aget. intros Hx Hp. destruct (0 <=? i); [|done].
  rewrite (count_perm p _ _ (delete_Permutation _ _ _ Hx)), count_cons, Hp.
  pose proof (count_nonneg p (delete (Z.to_nat i) l)). lia.
Qed.

(** ** Steps *)

Lemma notify_calls q :
  calls q = [] -> falsy_nan (remaining q) = true -> calls_ok (notify q).
Proof.
  intros Hc Hr. unfold calls_ok, notify. destruct (awaiting q) eqn:Ha; simpl; rewrite ?Ha, ?Hr, ?Hc; done.
Qed.

Lemma notify_keeps q : keeps q (notify q).
Proof. unfold notify. destruct (awaiting q) eqn:Ea; split_and!; simpl; done || lia. Qed.

(** The callback of a running task, before any error. *)
Lemma callback_running q s i e r :
  ok_running q s -> error q = None -> calls_ok q -> aget (tasks q) i = Some Running ->
  wp (callback_body q i e r) (fun '(q', again) =>
    ok q' /\ calls_ok q' /\ keeps q q' /\ alen (tasks q') = alen (tasks q) /\ popping q' = popping q /\
    error q' = e /\ (e = None -> started q' = Some s /\ aget (tasks q') i = Some (Result r)) /\
    again = (match e with None => negb (falsy_nan (remaining q')) && negb (popping q) | Some _ => false end)).
Proof.
  intros [Hs Hr Hb Ha Hac Hrem Hlim] He Hcalls Hi. unfold callback_body.
  rewrite (rd_Some _ _ _ Hi). simpl. pose proof (aget_Some _ _ _ Hi) as Hib.
  apply wp_bind, wp_wr; [done|]. rewrite He.
  pose proof (count_pos is_running _ _ _ Hi eq_refl) as Hpos.
  assert (i < s) as His.
  { destruct (decide (i < s)); [done|]. pose proof (Ha i Running ltac:(lia) Hi) as Hw. done. }
  assert (calls q = []) as Hnil.
  { unfold calls_ok in Hcalls. rewrite Hrem in Hcalls. simpl in Hcalls.
    destruct (Z.eqb_spec (count is_running (tasks q) + (alen (tasks q) - s)) 0); [lia|].
    by rewrite andb_false_r in Hcalls. }
  assert (forall x j r', aget (tasks q) j = Some (Result r') -> aget (aupd (tasks q) i x) j = Some (Result r')) as Hkeep.
  { intros x j r' Hj. rewrite aget_aupd_ne; [done|lia|]. intros ->. congruence. }
  destruct e as [e|]; simpl.
  - set (q' := Queue _ _ _ _ _ _ _ _ _ _ _).
    assert (tasks (notify q') = tasks q' /\ started (notify q') = None /\ remaining (notify q') = None
      /\ active (notify q') = active q - 1 /\ error (notify q') = Some e /\ popping (notify q') = popping q)
      as (Et & Es & Er & Eac & Ee & Ep) by (unfold notify; by destruct (awaiting q')).
    split_and!; try done.
    + unfold ok. rewrite Ee. split; rewrite ?Es, ?Er, ?Et, ?Eac; simpl; try done.
      * rewrite (count_aupd _ _ _ _ _ Hi). simpl. lia.
      * destruct parallelism; lia || done.
    + by apply notify_calls.
    + etrans; [|apply notify_keeps]. split_and!; simpl; rewrite ?alen_aupd; try done; [congruence|]. apply Hkeep.
    + rewrite Et. simpl. by rewrite alen_aupd.
  - apply wp_bind, wp_wr; [by rewrite alen_aupd|].
    assert (aupd (aupd (tasks q) i Null) i (Result r) = aupd (tasks q) i (Result r)) as ->
      by apply list_insert_insert_eq.
    rewrite Hrem. simpl. set (rem := count is_running (tasks q) + (alen (tasks q) - s) - 1).
    set (q' := Queue _ _ _ _ _ _ _ _ _ _ _).
    assert (ok_running q' s) as Hok'.
    { split; simpl; rewrite ?alen_aupd, ?(count_aupd _ _ _ _ _ Hi); simpl; try done.
      - intros j t Hj. rewrite aget_aupd by lia. case_decide; [intros [= <-]; by right|by apply Hb].
      - intros j t Hj. rewrite aget_aupd by lia. case_decide; [lia|by apply Ha].
      - lia.
      - f_equal. unfold rem. lia.
      - destruct parallelism; lia || done. }
    assert (keeps q q') as Hk'.
    { split_and!; simpl; rewrite ?alen_aupd; try done; [congruence|]. apply Hkeep. }
    destruct (Z.eqb_spec rem 0) as [E0|E0]; simpl.
    + assert (tasks (notify q') = tasks q' /\ started (notify q') = Some s /\ remaining (notify q') = Some rem
        /\ active (notify q') = active q - 1 /\ error (notify q') = None /\ popping (notify q') = popping q)
        as (Et & Es & Er & Eac & Ee & Ep) by (unfold notify; by destruct (awaiting q')).
      rewrite Er. simpl. destruct (Z.eqb_spec rem 0); [|done]. simpl. split_and!; try done.
      * unfold ok. rewrite Ee. exists s. destruct Hok'. split; rewrite ?Et, ?Es, ?Er, ?Eac; done.
      * apply notify_calls; [done|]. simpl. by apply Z.eqb_eq.
      * etrans; [done|apply notify_keeps].
      * rewrite Et. simpl. by rewrite alen_aupd.
      * intros _. rewrite Et. simpl. by rewrite aget_aupd_eq.
    + destruct (Z.eqb_spec rem 0); [done|]. split_and!; try done.
      * unfold ok. simpl. by exists s.
      * unfold calls_ok. simpl. destruct (Z.eqb_spec rem 0); [done|]. by rewrite andb_false_r.
      * simpl. by rewrite alen_aupd.
      * intros _. simpl. by rewrite aget_aupd_eq.
Qed.

(** After an error, a callback only frees its place. *)
Lemma callback_squelched q i e r e0 :
  ok_error q -> error q = Some e0 -> calls_ok q -> aget (tasks q) i = Some Running ->
  wp (callback_body q i e r) (fun '(q', again) =>
    ok q' /\ calls_ok q' /\ keeps q q' /\ popping q' = popping q /\ error q' = Some e0 /\ again = false).
Proof.
  intros [Hs Hr Ha Hl] He Hc Hi. unfold callback_body. rewrite (rd_Some _ _ _ Hi). simpl.
  pose proof (aget_Some _ _ _ Hi). apply wp_bind, wp_wr; [done|]. rewrite He. split_and!; try done.
  - unfold ok. simpl. split; simpl; try done.
    + rewrite (count_aupd _ _ _ _ _ Hi). simpl. lia.
    + destruct parallelism; lia || done.
  - unfold calls_ok in *. simpl. by rewrite He in Hc.
  - split_and!; simpl; rewrite ?alen_aupd; try done; [congruence|].
    intros j r' Hj. rewrite aget_aupd_ne; [done|lia|]. intros ->. congruence.
Qed.

(** The loop of [pop] keeps what holds between its turns. *)
Definition popping_inv (q0 q : queue) : Prop :=
  ok q /\ calls_ok q /\ keeps q0 q /\ alen (tasks q) = alen (tasks q0).

Definition left_to_start (q : queue) : Z :=
  match started q with Some s => alen (tasks q) - s | None => 0 end.

Lemma start_next_wp q0 q :
  popping_inv q0 q -> lt_nan (started q) (alen (tasks q)) = true -> below_limit (active q) = true ->
  wp (start_next (set_popping q true)) (fun q' =>
    popping_inv q0 q' /\ 0 <= left_to_start q' < left_to_start q).
Proof.
  intros (Hok & Hcalls & Hk & Hlen) Hlt Hlim. unfold ok in Hok.
  destruct (error q) as [e0|] eqn:He; [by rewrite (oe_started _ Hok) in Hlt|].
  destruct Hok as (s & [Hs Hr Hb Ha Hac Hrem Hl]). unfold left_to_start at 3. rewrite Hs in Hlt |- *. simpl in Hlt.
  apply Z.ltb_lt in Hlt. unfold start_next, set_popping. simpl. rewrite Hs.
  destruct (aget_is_Some (tasks q) s) as [t Ht]; [lia|]. rewrite (rd_Some _ _ _ Ht). simpl.
  apply wp_bind, wp_wr; [lia|]. pose proof (Ha s t ltac:(lia) Ht) as Hw.
  destruct t as [t| | |]; try done. simpl. rewrite He.
  set (q1 := Queue _ _ _ _ _ _ _ _ _ _ _).
  assert (ok_running q1 (s + 1)) as Hok1.
  { split; simpl; rewrite ?alen_aupd, ?(count_aupd _ _ _ _ _ Ht); simpl; try done; try lia.
    - intros j x Hj. rewrite aget_aupd by lia. case_decide; [intros [= <-]; by left|apply Hb; lia].
    - intros j x Hj. rewrite aget_aupd by lia. case_decide; [lia|apply Ha; lia].
    - rewrite Hrem. f_equal. lia.
    - unfold below_limit in Hlim. destruct parallelism; [|done]. apply Z.ltb_lt in Hlim. lia. }
  assert (keeps q0 q1) as Hk1.
  { etrans; [exact Hk|]. split_and!; simpl; rewrite ?alen_aupd; try done; [congruence|].
    intros j r Hj. rewrite aget_aupd_ne; [done|lia|]. intros ->. congruence. }
  assert (calls_ok q1) as Hc1.
  { unfold calls_ok in *. simpl. rewrite He, Hrem in Hcalls. rewrite Hrem. simpl in *.
    pose proof (count_nonneg is_running (tasks q)).
    destruct (Z.eqb_spec (count is_running (tasks q) + (alen (tasks q) - s)) 0); [lia|].
    by rewrite andb_false_r in *. }
  assert (alen (tasks q1) = alen (tasks q0)) as Hl1 by (simpl; rewrite alen_aupd; done).
  destruct (run t) as [[e r]|].
  - apply wp_bind. eapply wp_mono.
    + apply (callback_running q1 (s + 1) s e r); try done. simpl. apply aget_aupd_eq. lia.
    + intros [q2 again] (Hok2 & Hc2 & Hk2 & Hl2 & Hp2 & He2 & Hst2 & ->). simpl in Hp2.
      simpl in Hl2. rewrite alen_aupd in Hl2.
      assert (popping_inv q0 q2) as Hinv2.
      { split_and!; try done; [by etrans|]. simpl in Hl1. rewrite alen_aupd in Hl1. lia. }
      destruct e as [e|]; simpl; rewrite ?andb_false_r; (split; [done|]); unfold left_to_start.
      * unfold ok in Hok2. rewrite He2 in Hok2. rewrite (oe_started _ Hok2). lia.
      * destruct (Hst2 eq_refl) as [-> _]. lia.
  - unfold left_to_start. simpl. rewrite alen_aupd. split; [|lia].
    split_and!; try done. unfold ok. simpl. by exists (s + 1).
Qed.

Lemma ok_set_popping q b : ok q -> ok (set_popping q b).
Proof.
  unfold ok. simpl. destruct (error q); [by intros []|]. intros (s & []). by exists s.
Qed.

Lemma ok_notify q : ok q -> ok (notify q).
Proof.
  unfold notify. destruct (awaiting q); [|done]. unfold ok. simpl.
  destruct (error q); [by intros []|]. intros (s & []). by exists s.
Qed.

Lemma pop_wp q :
  ok q -> calls_ok q ->
  wp (pop q) (fun q' => settled q' /\ keeps q q' /\ alen (tasks q') = alen (tasks q)).
Proof.
  intros Hok Hc. unfold pop.
  assert (0 <= left_to_start q <= Z.max 0 (alen (tasks q) - default 0 (started q))) as Hm.
  { unfold left_to_start, ok in *. destruct (error q).
    - rewrite (oe_started _ Hok). lia.
    - destruct Hok as (s & [-> ? _ _ _ _ _]). simpl. lia. }
  apply (wp_loop (popping_inv q) left_to_start); [by split|lia|].
  intros q1 Hinv. destruct (lt_nan (started q1) (alen (tasks q1))) eqn:E1; simpl;
    [destruct (below_limit (active q1)) eqn:E2; simpl|].
  - apply wp_bind. eapply wp_mono; [by apply start_next_wp|]. done.
  - destruct Hinv as (Hok1 & Hc1 & Hk1 & Hl1). split_and!; try done.
    split; [by apply ok_set_popping|done|done|]. intros _. by right.
  - destruct Hinv as (Hok1 & Hc1 & Hk1 & Hl1). split_and!; try done.
    split; [by apply ok_set_popping|done|done|]. intros He. left. simpl in *.
    unfold ok in Hok1. rewrite He in Hok1. destruct Hok1 as (s & [Hs ? _ _ _ _ _]). rewrite Hs in *.
    simpl in E1. apply Z.ltb_ge in E1. f_equal. lia.
Qed.

(** ** The public operations *)

Lemma defer_wp q t :
  settled q -> awaiting q = false ->
  wp (defer q t) (fun q' => settled q' /\ keeps q q').
Proof.
  intros [Hok Hc Hp Hbusy] Ha. unfold defer, check. rewrite Ha. simpl.
  destruct (match error q with Some e => falsy e | None => true end) eqn:Ef; [|done].
  set (q1 := Queue _ _ _ _ _ _ _ _ _ _ _).
  assert (keeps q q1) as Hk1.
  { split_and!; simpl; try done.
    - unfold alen. rewrite length_app. lia.
    - intros j r Hj. rewrite aget_snoc. case_decide as Ej; [|done]. apply aget_Some in Hj. lia. }
  assert (alen (tasks q ++ [Waiting t]) = alen (tasks q) + 1) as Hlen.
  { unfold alen. rewrite length_app. simpl. lia. }
  assert (ok q1 /\ calls_ok q1) as [Hok1 Hc1].
  { unfold ok, calls_ok in *. simpl. rewrite Ha in *. simpl in *. split; [|done].
    destruct (error q) as [e0|].
    - destruct Hok as [Hs Hr Hac Hl]. split; simpl; try done; [by rewrite Hr|].
      rewrite count_snoc. simpl. lia.
    - destruct Hok as (s & [Hs Hr Hb Hwt Hac Hrem Hl]). exists s. split; simpl; rewrite ?Hlen; try done; try lia.
      + intros j x Hj. rewrite aget_snoc. case_decide; [lia|by apply Hb].
      + intros j x Hj. rewrite aget_snoc. case_decide; [by intros [= <-]|]. intros Hx.
        apply (Hwt j); [|done]. apply aget_Some in Hx. lia.
      + rewrite count_snoc. simpl. lia.
      + rewrite Hrem, count_snoc. simpl. f_equal. lia. }
  eapply wp_mono; [by apply pop_wp|]. intros q' (Hs' & Hk' & _). split; [done|]. by etrans.
Qed.

Lemma await_with_wp q all :
  settled q -> awaiting q = false ->
  wp (await_with q all) (fun q' => settled q' /\ tasks q' = tasks q /\ awaiting q' = true
    /\ error q' = error q).
Proof.
  intros [Hok Hc Hp Hbusy] Ha. unfold await_with, check. rewrite Ha. simpl.
  set (q1 := Queue _ _ _ _ _ _ _ _ _ _ _).
  assert (ok q1) as Hok1.
  { unfold ok in *. simpl. destruct (error q); [by destruct Hok|].
    destruct Hok as (s & []). by exists s. }
  assert (calls q = []) as Hnil by (unfold calls_ok in Hc; by rewrite Ha in Hc).
  destruct (falsy_nan (remaining q)) eqn:Ef; split_and!; try done.
  - split; [by apply ok_notify|by apply notify_calls|done|done].
  - split; try done. unfold calls_ok. simpl. by rewrite Ef.
Qed.

Lemma callback_wp q i e r :
  settled q -> aget (tasks q) i = Some Running ->
  wp (callback q i e r) (fun q' => settled q' /\ keeps q q' /\
    (error q = None -> e = None -> aget (tasks q') i = Some (Result r)) /\
    (error q = None -> forall e0, e = Some e0 -> error q' = Some e0)).
Proof.
  intros [Hok Hc Hp Hbusy] Hi. unfold callback. apply wp_bind. unfold ok in Hok.
  destruct (error q) as [e0|] eqn:He.
  - eapply wp_mono; [by eapply callback_squelched|].
    intros [q1 again] (Hok1 & Hc1 & Hk1 & Hp1 & He1 & ->). split_and!; try done.
    split; try done; congruence.
  - destruct Hok as (s & Hok). eapply wp_mono; [by eapply callback_running|].
    intros [q1 again] (Hok1 & Hc1 & Hk1 & Hl1 & Hp1 & He1 & Hst1 & Hag).
    destruct e as [e|].
    + rewrite Hag. split_and!; try done; [split; try done; congruence|]. by intros _ ? [= <-].
    + rewrite Hp in Hag. simpl in Hag. rewrite andb_true_r in Hag. rewrite Hag.
      destruct (falsy_nan (remaining q1)) eqn:Ef; simpl.
      * split_and!; try done; [|intros _ _; by apply Hst1]. split; try done; [congruence|].
        intros _. left. unfold ok in Hok1. rewrite He1 in Hok1. destruct Hok1 as (s1 & [Hs1 ? _ _ _ Hr1 _]).
        rewrite Hr1 in Ef. simpl in Ef. apply Z.eqb_eq in Ef.
        pose proof (count_nonneg is_running (tasks q1)). rewrite Hs1. f_equal. lia.
      * eapply wp_mono; [by apply pop_wp|]. intros q2 (Hs2 & Hk2 & _).
        split_and!; [done|by etrans| |done]. intros _ _. apply Hk2. by apply Hst1.
Qed.

(** ** Histories *)

(** The states of a queue: calls of its methods, and tasks calling back. *)
Inductive queue_reachable : queue -> Prop :=
| q_new : queue_reachable new_queue
| q_defer q t q' : queue_reachable q -> defer q t = Ret q' -> queue_reachable q'
| q_await q q' : queue_reachable q -> await q = Ret q' -> queue_reachable q'
| q_awaitAll q q' : queue_reachable q -> awaitAll q = Ret q' -> queue_reachable q'
| q_callback q i e r q' : queue_reachable q -> callback q i e r = Ret q' -> queue_reachable q'.

Lemma new_settled : match parallelism with Some p => 0 <= p | None => True end -> settled new_queue.
Proof.
  intros Hp. split; try done; [|by left].
  exists 0. split; simpl; try done; try (intros i x ? Hx; apply aget_Some in Hx; unfold alen in Hx; simpl in Hx; lia).
Qed.

Lemma callback_not_running q i e r q' : callback q i e r = Ret q' -> aget (tasks q) i = Some Running.
Proof.
  unfold callback, callback_body, rd. destruct (aget (tasks q) i) as [[]|]; done.
Qed.

Lemma queue_settled q :
  match parallelism with Some p => 0 <= p | None => True end -> queue_reachable q -> settled q.
Proof.
  intros Hp. induction 1 as [|q t q' _ IH E'|q q' _ IH E'|q q' _ IH E'|q i e r q' _ IH E'].
  - by apply new_settled.
  - destruct (awaiting q) eqn:Ha; [unfold defer, check in E'; by rewrite Ha in E'|].
    pose proof (defer_wp q t IH Ha) as Hw. rewrite E' in Hw. apply Hw.
  - destruct (awaiting q) eqn:Ha; [unfold await, await_with, check in E'; by rewrite Ha in E'|].
    pose proof (await_with_wp q false IH Ha) as Hw. unfold await in E'. rewrite E' in Hw. apply Hw.
  - destruct (awaiting q) eqn:Ha; [unfold awaitAll, await_with, check in E'; by rewrite Ha in E'|].
    pose proof (await_with_wp q true IH Ha) as Hw. unfold awaitAll in E'. rewrite E' in Hw. apply Hw.
  - pose proof (callback_wp q i e r IH (callback_not_running _ _ _ _ _ E')) as Hw. rewrite E' in Hw. apply Hw.
Qed.

(** ** What the tasks have answered *)

(** The first error they called back with. *)
Definition first_error (l : list (Z * option E * A)) : option E := head (omap (fun '(_, e, _) => e) l).

Lemma first_error_snoc l i e r :
  first_error (l ++ [(i, e, r)]) = match first_error l with Some x => Some x | None => e end.
Proof. unfold first_error. rewrite omap_app, head_app. destruct (head _); [done|]. by destruct e. Qed.

Definition answered (q : queue) (i : Z) : Prop := i ∈ (answers q).*1.*1.

(** Each task stands at the position it was deferred in, and answers once at
    most; one that answers before it returns, as [run] says, and is then not
    running any more, but for [busy], the one that is being started.  A result is
    that of the task's answer, and the error is the first one. *)
Record recorded (busy : option Z) (q : queue) : Prop := Recorded {
  rc_length : alen (tasks q) = alen (deferred q);
  rc_waiting : forall i t, aget (tasks q) i = Some (Waiting t) -> aget (deferred q) i = Some t;
  rc_open : forall i s, aget (tasks q) i = Some s -> is_waiting s = true \/ is_running s = true -> ~ answered q i;
  rc_late : forall i t, aget (tasks q) i = Some Running -> Some i <> busy -> aget (deferred q) i = Some t -> run t = None;
  rc_range : forall i, answered q i -> 0 <= i < alen (tasks q);
  rc_once : NoDup ((answers q).*1.*1);
  rc_sync : forall i e r t a, (i, e, r) ∈ answers q -> aget (deferred q) i = Some t -> run t = Some a -> a = (e, r);
  rc_result : forall i r, aget (tasks q) i = Some (Result r) -> (i, None, r) ∈ answers q;
  rc_error : error q = first_error (answers q)
}.

(** Only these fields count. *)
Lemma recorded_same busy q q' :
  tasks q' = tasks q -> deferred q' = deferred q -> answers q' = answers q -> error q' = error q ->
  recorded busy q -> recorded busy q'.
Proof. intros Et Ed Ea Ee []. split; unfold answered in *; rewrite ?Et, ?Ed, ?Ea, ?Ee; done. Qed.

Lemma recorded_notify busy q : recorded busy q -> recorded busy (notify q).
Proof. apply recorded_same; unfold notify; by destruct (awaiting q). Qed.

(** The task at [i] answers: its slot holds [s] from now on. *)
Lemma recorded_answer busy q q' i e r s :
  recorded busy q -> aget (tasks q) i = Some Running ->
  (forall t a, aget (deferred q) i = Some t -> run t = Some a -> a = (e, r)) ->
  busy = None \/ busy = Some i ->
  tasks q' = aupd (tasks q) i s -> deferred q' = deferred q -> answers q' = answers q ++ [(i, e, r)] ->
  error q' = match error q with Some x => Some x | None => e end ->
  (s = Null \/ (s = Result r /\ e = None)) -> recorded None q'.
Proof.
  intros [Hl Hw Ho Hla Hr Hn Hs Hres He] Hi Hsync Hbusy Et Ed Ea Ee Hslot. pose proof (aget_Some _ _ _ Hi) as Hib.
  assert (forall j, answered q' j <-> answered q j \/ j = i) as Hans.
  { intros j. unfold answered. rewrite Ea, !fmap_app, elem_of_app. simpl. by rewrite list_elem_of_singleton. }
  assert (forall j x, aget (tasks q') j = Some x -> (j = i /\ x = s) \/ (j <> i /\ aget (tasks q) j = Some x)) as Hget.
  { intros j x. rewrite Et, aget_aupd by done. case_decide; [intros [= ->]|]; auto. }
  assert (is_waiting s = false /\ is_running s = false) as [Hs1 Hs2] by (by destruct Hslot as [->|[-> _]]).
  split.
  - by rewrite Et, Ed, alen_aupd.
  - intros j t [[_ <-]|[_ Hj]]%Hget; [done|]. rewrite Ed. by apply Hw.
  - intros j x [[-> ->]|[Hne Hj]]%Hget; [rewrite Hs1, Hs2; by intros []|]. rewrite Hans. intros Hx [Ha|]; [|done].
    by apply (Ho j x Hj Hx).
  - intros j t [[-> <-]|[Hne Hj]]%Hget; [done|]. intros _. rewrite Ed. apply Hla; [done|].
    destruct Hbusy as [->| ->]; [done|]. by intros [= ->].
  - intros j [Hj| ->]%Hans; rewrite Et, alen_aupd; auto.
  - rewrite Ea, !fmap_app. apply NoDup_app. split_and!; [done| |apply NoDup_singleton].
    intros j Hj ->%list_elem_of_singleton. by apply (Ho i Running Hi (or_intror eq_refl)).
  - intros j e' r' t a. rewrite Ea, elem_of_app, list_elem_of_singleton, Ed.
    intros [Hj|[= -> -> ->]]; [by eapply Hs|by apply Hsync].
  - intros j x [[-> E']|[Hne Hj]]%Hget; rewrite Ea; apply elem_of_app; [right|left; auto].
    destruct Hslot as [->|[-> ->]]; [done|]. injection E' as ->. by left.
  - by rewrite Ee, Ea, first_error_snoc, He.
Qed.

Lemma callback_recorded busy q i e r q' again :
  recorded busy q -> (forall t a, aget (deferred q) i = Some t -> run t = Some a -> a = (e, r)) ->
  busy = None \/ busy = Some i -> callback_body q i e r = Ret (q', again) -> recorded None q'.
Proof.
  intros Hrec Hsync Hbusy. unfold callback_body.
  destruct (aget (tasks q) i) as [x|] eqn:Hi; [rewrite (rd_Some _ _ _ Hi)|unfold rd; by rewrite Hi].
  cbn [mbind js_bind]. destruct x; try done. pose proof (aget_Some _ _ _ Hi) as Hib.
  assert (forall (l : list slot) s, alen l = alen (tasks q) -> wr l i s = Ret (aupd l i s)) as Hwr.
  { intros l s Hl. destruct (wp_elim _ _ (wp_wr l i s (fun l' => l' = aupd l i s) ltac:(lia) eq_refl)) as (? & -> & ->). done. }
  rewrite Hwr by done. cbn [mbind js_bind]. destruct (error q) as [e0|] eqn:He; [|destruct e as [e|]].
  - intros [= <- <-]. eapply (recorded_answer busy q); try done; [|by left]. simpl. by rewrite He.
  - intros [= <- <-]. apply recorded_notify. eapply (recorded_answer busy q); try done; [|by left]. simpl. by rewrite He.
  - rewrite Hwr by (by rewrite alen_aupd). cbn [mbind js_bind].
    assert (aupd (aupd (tasks q) i Null) i (Result r) = aupd (tasks q) i (Result r)) as ->
      by apply list_insert_insert_eq.
    set (q1 := Queue _ _ _ _ _ _ _ _ _ _ _).
    assert (recorded None q1) as Hq1.
    { eapply (recorded_answer busy q); try done; [|by right]. simpl. by rewrite He. }
    destruct (falsy_nan _); intros [= <- <-]; [by apply recorded_notify|done].
Qed.

Lemma start_next_recorded q q' : recorded None q -> start_next q = Ret q' -> recorded None q'.
Proof.
  intros Hrec. unfold start_next. destruct (started q) as [i|]; [|done].
  destruct (aget (tasks q) i) as [x|] eqn:Hi; [rewrite (rd_Some _ _ _ Hi)|unfold rd; by rewrite Hi].
  pose proof (aget_Some _ _ _ Hi) as Hib. cbn [mbind js_bind].
  destruct (wp_elim _ _ (wp_wr (tasks q) i Running (fun l => l = aupd (tasks q) i Running) ltac:(done) eq_refl)) as (? & -> & ->).
  cbn [mbind js_bind]. destruct x as [t| | |]; try done. set (q1 := Queue _ _ _ _ _ _ _ _ _ _ _).
  destruct Hrec as [Hl Hw Ho Hla Hr Hn Hs Hres He].
  assert (forall j x, aget (tasks q1) j = Some x -> (j = i /\ x = Running) \/ (j <> i /\ aget (tasks q) j = Some x)) as Hget.
  { intros j x. simpl. rewrite aget_aupd by done. case_decide; [intros [= ->]|]; auto. }
  assert (recorded (Some i) q1) as Hq1.
  { split; simpl; try done.
    - by rewrite alen_aupd.
    - intros j x [[_ ?]|[_ Hj]]%Hget; [done|auto].
    - intros j x [[-> ->]|[_ Hj]]%Hget; [|by apply Ho]. intros _. by apply (Ho i (Waiting t) Hi (or_introl eq_refl)).
    - intros j x [[-> _]|[_ Hj]]%Hget Hne; [done|]. by apply Hla.
    - intros j Hj. rewrite alen_aupd. by apply Hr.
    - intros j x [[_ ?]|[_ Hj]]%Hget; [done|auto]. }
  pose proof (Hw _ _ Hi) as Hd. destruct (run t) as [[e r]|] eqn:Erun.
  - destruct (callback_body q1 i e r) as [[q2 again]| |] eqn:E'; [|done..]. cbn [mbind js_bind].
    destruct again; [done|]. intros [= <-]. eapply (callback_recorded (Some i) q1); [done| |by right|exact E'].
    simpl. rewrite Hd. intros t' a [= <-]. rewrite Erun. by intros [= <-].
  - intros [= <-]. destruct Hq1. split; try done. intros j x Hj _ Hx. destruct (decide (j = i)) as [->|Hne].
    + simpl in Hx. rewrite Hd in Hx. by injection Hx as <-.
    + apply (rc_late0 j x Hj); [congruence|done].
Qed.

Lemma loop_returns {S S'} (Inv : S -> Prop) (P : S' -> Prop) (body : S -> js (S + S')) fuel s r :
  (forall s x, Inv s -> body s = Ret x -> match x with inl s => Inv s | inr r => P r end) ->
  Inv s -> loop fuel body s = Ret r -> P r.
Proof.
  intros Hb. revert s. induction fuel as [|fuel IH]; intros s Hs; [done|]. simpl.
  destruct (body s) as [x| |] eqn:Ex; [|done..]. pose proof (Hb s x Hs Ex) as Hx. simpl.
  destruct x as [s'|r']; [by apply IH|]. by intros [= <-].
Qed.

Lemma pop_recorded q q' : recorded None q -> pop q = Ret q' -> recorded None q'.
Proof.
  apply loop_returns. intros q1 x H1. generalize (lt_nan (started q1) (alen (tasks q1)) && below_limit (active q1)).
  intros b. assert (recorded None (set_popping q1 b)) as H2 by (by apply (recorded_same None q1)).
  destruct b; [|by intros [= <-]]. cbv zeta.
  destruct (start_next (set_popping q1 true)) as [q3| |] eqn:E3; [|done..]. intros [= <-]. by eapply start_next_recorded.
Qed.

Lemma new_recorded : recorded None new_queue.
Proof.
  assert (forall {B} i (x : B), aget (@nil B) i <> Some x) as Hnil by (intros B i x Hi; apply aget_Some in Hi; unfold alen in Hi; simpl in Hi; lia).
  split; unfold answered; simpl; try done; try (by intros ? ? []%Hnil); try (by intros ? ? ? []%Hnil).
  - by intros ? []%not_elem_of_nil.
  - constructor.
  - by intros ? ? ? ? ? []%not_elem_of_nil.
Qed.

Lemma defer_recorded q t q' : recorded None q -> defer q t = Ret q' -> recorded None q'.
Proof.
  intros Hrec. unfold defer, check. destruct (awaiting q) eqn:Ha; [done|]. cbn [mbind js_bind].
  destruct (match error q with Some e => falsy e | None => true end); [|by intros [= <-]].
  apply pop_recorded. destruct Hrec as [Hl Hw Ho Hla Hr Hn Hs Hres He].
  assert (forall {B} (l : list B) x j y, alen l = alen (tasks q) -> aget (l ++ [x]) j = Some y ->
    (j = alen (tasks q) /\ y = x) \/ (j < alen (tasks q) /\ aget l j = Some y)) as Hget.
  { intros B l x j y <-. rewrite aget_snoc. case_decide as Ej; [intros [= ->]; auto|].
    intros Hj. right. split; [apply aget_Some in Hj; lia|done]. }
  assert (forall {B} (l : list B) x j y, alen l = alen (tasks q) -> aget l j = Some y -> aget (l ++ [x]) j = Some y) as Hold.
  { intros B l x j y El Hj. rewrite aget_snoc. case_decide as Ej; [|done]. apply aget_Some in Hj. lia. }
  assert (aget (deferred q ++ [t]) (alen (tasks q)) = Some t) as Hlast by (rewrite Hl, aget_snoc; by rewrite decide_True).
  split; simpl; try done.
  - rewrite !alen_app. f_equal. done.
  - intros j x [[-> [= ->]]|[_ Hj]]%Hget; [done| |done]. apply Hold; auto.
  - intros j x [[-> ->]|[_ Hj]]%Hget; [|by apply Ho|done]. intros _ Hans%Hr. lia.
  - intros j x [[_ ?]|[Hlt Hj]]%Hget Hne Hx; [done| |done]. apply Hget in Hx as [[-> _]|[_ Hx]]; [lia| |done]. by apply (Hla j x Hj).
  - intros j Hj%Hr. rewrite alen_app. pose proof (alen_nonneg [Waiting t]). lia.
  - intros j e r x a Hj Hx. assert (answered q j) as Hans%Hr.
    { unfold answered. apply (list_elem_of_fmap_2 fst _ (j, e)). by apply (list_elem_of_fmap_2 fst _ (j, e, r)). }
    apply Hget in Hx as [[-> _]|[_ Hx]]; [lia| |done]. by apply (Hs j e r x a).
  - intros j x [[_ ?]|[_ Hj]]%Hget; [done|auto|done].
Qed.

Lemma await_recorded q all q' : recorded None q -> await_with q all = Ret q' -> recorded None q'.
Proof.
  intros Hrec. unfold await_with, check. destruct (awaiting q); [done|]. cbn [mbind js_bind].
  set (q1 := Queue _ _ _ _ _ _ _ _ _ _ _). assert (recorded None q1) as H1 by (by apply (recorded_same None q)).
  destruct (falsy_nan _); intros [= <-]; [by apply recorded_notify|done].
Qed.

Lemma callback_sync q i : recorded None q -> aget (tasks q) i = Some Running ->
  forall e r t a, aget (deferred q) i = Some t -> run t = Some a -> a = (e, r).
Proof. intros Hrec Hi e r t a Ht. by rewrite (rc_late _ _ Hrec i t Hi ltac:(done) Ht). Qed.

Lemma queue_recorded q : queue_reachable q -> recorded None q.
Proof.
  induction 1 as [|q t q' _ IH E'|q q' _ IH E'|q q' _ IH E'|q i e r q' _ IH E'].
  - apply new_recorded.
  - by eapply defer_recorded.
  - by eapply await_recorded.
  - by eapply await_recorded.
  - pose proof (callback_sync q i IH (callback_not_running _ _ _ _ _ E') e r) as Hsync.
    unfold callback in E'. destruct (callback_body q i e r) as [[q1 again]| |] eqn:Eb; [|done..]. cbn [mbind js_bind] in E'.
    assert (recorded None q1) as H1 by (by eapply (callback_recorded None q); [| |left|]).
    destruct again; [by eapply pop_recorded|]. by injection E' as <-.
Qed.

Lemma answers_fun q : recorded None q -> forall i e r e' r',
  (i, e, r) ∈ answers q -> (i, e', r') ∈ answers q -> (e, r) = (e', r').
Proof.
  intros Hrec i e r e' r' [j Hj]%list_elem_of_lookup [k Hk]%list_elem_of_lookup.
  assert (j = k) as ->; [|congruence]. pose proof (rc_once _ _ Hrec) as Hn.
  apply (NoDup_lookup _ j k i Hn); rewrite !list_lookup_fmap, ?Hj, ?Hk; done.
Qed.

(** Nothing left to do: all slots hold results. *)
Lemma all_results q s :
  ok_running q s -> count is_running (tasks q) + (alen (tasks q) - s) = 0 -> exists rs, tasks q = Result <$> rs.
Proof.
  intros [Hs Hrg Hbe Haf Hac Hrem Hl] E0. pose proof (count_nonneg is_running (tasks q)) as Hnn.
  assert (forall t, t ∈ tasks q -> exists r, t = Result r) as Hall.
  { intros t [j Hj]%list_elem_of_lookup. assert (aget (tasks q) (Z.of_nat j) = Some t) as Hi.
    { unfold aget. destruct (Z.leb_spec 0 (Z.of_nat j)); [by rewrite Nat2Z.id|lia]. }
    destruct (Hbe (Z.of_nat j) t) as [Hrun|Hres]; [apply aget_Some in Hi; lia|done| |destruct t; eauto; done].
    pose proof (count_pos is_running _ _ _ Hi Hrun). lia. }
  clear -Hall. induction (tasks q) as [|t l IH]; [by exists []|].
  destruct (Hall t ltac:(left)) as [r ->]. destruct IH as [rs ->]; [intros x Hx; apply Hall; by right|]. by exists (r :: rs).
Qed.

(** Something left to do: a task that waits or runs. *)
Lemma some_open q s :
  ok_running q s -> count is_running (tasks q) + (alen (tasks q) - s) <> 0 ->
  exists i t, aget (tasks q) i = Some t /\ (is_waiting t = true \/ is_running t = true).
Proof.
  intros [Hs Hrg Hbe Haf Hac Hrem Hl] E0. pose proof (count_nonneg is_running (tasks q)) as Hnn.
  destruct (decide (s = alen (tasks q))) as [->|Hne].
  - assert (0 < count is_running (tasks q)) as Hpos by lia. unfold count, alen in Hpos.
    destruct (List.filter is_running (tasks q)) as [|t l] eqn:Ef; [simpl in Hpos; lia|].
    assert (In t (List.filter is_running (tasks q))) as Hin by (rewrite Ef; by left).
    apply filter_In in Hin as [Hin Ht]. apply list_elem_of_In, list_elem_of_lookup in Hin as [j Hj].
    exists (Z.of_nat j), t. unfold aget. destruct (Z.leb_spec 0 (Z.of_nat j)); [|lia]. rewrite Nat2Z.id. auto.
  - destruct (aget_is_Some (tasks q) s) as [t Ht]; [lia|]. exists s, t. split; [done|]. left. apply (Haf s t ltac:(lia) Ht).
Qed.

Section properties.
Context (Hp : match parallelism with Some p => 0 <= p | None => True end).

(** C20: at most [parallelism] tasks are executed at any time, [active] counts
    them, and as long as no error has occurred no task waits while fewer are
    executed. *)
Theorem queue_parallelism q :
  queue_reachable q ->
  active q = count is_running (tasks q) /\
  match parallelism with Some p => active q <= p | None => True end /\
  (error q = None -> forall i t, aget (tasks q) i = Some (Waiting t) -> below_limit (active q) = false).
Proof.
  intros Hr. destruct (queue_settled q Hp Hr) as [Hok _ _ Hb]. unfold ok in Hok.
  destruct (error q) as [e|]; [by destruct Hok|]. destruct Hok as (s & [Hs Hrg Hbe Haf Hac Hrem Hl]).
  split_and!; [done..|]. intros _ i t Hi. destruct (Hb eq_refl) as [E'|]; [|done]. exfalso.
  rewrite Hs in E'. injection E' as E'. pose proof (aget_Some _ _ _ Hi).
  destruct (Hbe i _ ltac:(lia) Hi); done.
Qed.

(** C19: the awaited function is called exactly once, when it has been given and
    nothing is left to do: with the first error that a task called back with, or,
    if there is none, with one result for each task deferred, in that order, each
    the one its task called back with.  A task calls back once at most, and one
    that does so before it returns gives what it gave. *)
Theorem queue_notifies_once q :
  queue_reachable q ->
  NoDup ((answers q).*1.*1) /\
  (forall i e r t a, (i, e, r) ∈ answers q -> aget (deferred q) i = Some t -> run t = Some a -> a = (e, r)) /\
  match first_error (answers q) with
  | Some e => calls q = if awaiting q then [CallError e] else []
  | None =>
      (calls q = [] /\ (awaiting q = false \/ exists i, 0 <= i < alen (deferred q) /\ ~ answered q i)) \/
      (awaiting q = true /\ exists rs, calls q = [(if all q then CallAll else CallSpread) (Result <$> rs)] /\
         alen rs = alen (deferred q) /\ forall i r, aget rs i = Some r <-> (i, None, r) ∈ answers q)
  end.
Proof.
  intros Hr. destruct (queue_settled q Hp Hr) as [Hok Hc _ _]. pose proof (queue_recorded q Hr) as Hrec.
  split; [apply Hrec|]. split; [apply Hrec|]. rewrite <- (rc_error _ _ Hrec).
  unfold calls_ok in Hc. unfold ok in Hok. destruct (error q) as [e|] eqn:He.
  { rewrite (oe_remaining _ Hok) in Hc. simpl in Hc. by rewrite andb_true_r in Hc. }
  destruct (awaiting q); [|left; auto]. simpl in Hc. destruct Hok as (s & Hok). pose proof Hok as [Hs Hrg Hbe Haf Hac Hrem Hl].
  rewrite Hrem in Hc. simpl in Hc. rewrite <- (rc_length _ _ Hrec).
  destruct (Z.eqb_spec (count is_running (tasks q) + (alen (tasks q) - s)) 0) as [E0|E0].
  - right. split; [done|]. destruct (all_results q s Hok E0) as [rs Ers]. exists rs.
    rewrite <- Ers. split; [by destruct (all q)|]. rewrite Ers at 1. split; [unfold alen; by rewrite length_fmap|].
    assert (forall i, aget (tasks q) i = Result <$> aget rs i) as Hget.
    { intros i. rewrite Ers. unfold aget. destruct (0 <=? i); [|done]. by rewrite list_lookup_fmap. }
    intros i r. split; [intros Hi; apply (rc_result _ _ Hrec); by rewrite Hget, Hi|]. intros Hin.
    assert (answered q i) as Hans.
    { unfold answered. apply (list_elem_of_fmap_2 fst _ (i, None)). by apply (list_elem_of_fmap_2 fst _ (i, None, r)). }
    destruct (aget_is_Some (tasks q) i) as [x Hx]; [by apply (rc_range _ _ Hrec)|].
    rewrite Hget in Hx. destruct (aget rs i) as [r'|] eqn:Er'; [|done]. f_equal.
    assert ((i, None, r') ∈ answers q) as Hin' by (apply (rc_result _ _ Hrec); by rewrite Hget, Er').
    pose proof (answers_fun q Hrec _ _ _ _ _ Hin Hin') as [= ->]. done.
  - left. split; [done|]. right. destruct (some_open q s Hok E0) as (i & x & Hi & Hx).
    exists i. split; [by eapply aget_Some|]. by apply (rc_open _ _ Hrec i x).
Qed.

(** C21: deferring before [await] and calling back once while running return;
    deferring after [await] and calling back twice throw. *)
Theorem queue_progress q :
  queue_reachable q ->
  (forall t, if awaiting q then defer q t = Throw "Error" else exists q', defer q t = Ret q') /\
  (forall i e r t, aget (tasks q) i = Some t ->
     if is_running t then exists q', callback q i e r = Ret q' else callback q i e r = Throw "Error").
Proof.
  intros Hr. pose proof (queue_settled q Hp Hr) as Hs. split.
  - intros t. destruct (awaiting q) eqn:Ha.
    + unfold defer, check. by rewrite Ha.
    + destruct (wp_elim _ _ (defer_wp q t Hs Ha)) as (q' & E' & _). eauto.
  - intros i e r t Ht. destruct t; simpl.
    2: { destruct (wp_elim _ _ (callback_wp q i e r Hs Ht)) as (q' & E' & _). eauto. }
    all: unfold callback, callback_body; by rewrite (rd_Some _ _ _ Ht).
Qed.

(** a task that calls back with a result before any error stores it at the
    task's position, and results already there stay; with an error, that
    error is the one the queue keeps. *)
Theorem queue_callback_stores q i e r :
  queue_reachable q -> aget (tasks q) i = Some Running -> error q = None ->
  exists q', callback q i e r = Ret q' /\
    (forall j x, aget (tasks q) j = Some (Result x) -> aget (tasks q') j = Some (Result x)) /\
    match e with
    | None => aget (tasks q') i = Some (Result r)
    | Some e => error q' = Some e
    end.
Proof.
  intros Hr Hi He. pose proof (queue_settled q Hp Hr) as Hs.
  destruct (wp_elim _ _ (callback_wp q i e r Hs Hi)) as (q' & E' & _ & Hk & H1 & H2).
  exists q'. split_and!; [done|apply Hk|]. destruct e as [e|]; auto.
Qed.

(** the first error stays the error of the queue, whatever is called
    afterwards. *)
Theorem queue_first_error q e0 :
  queue_reachable q -> error q = Some e0 ->
  (forall i e r q', callback q i e r = Ret q' -> error q' = Some e0) /\
  (forall t q', defer q t = Ret q' -> error q' = Some e0).
Proof.
  intros Hr He. pose proof (queue_settled q Hp Hr) as Hs. split.
  - intros i e r q' E'. pose proof (callback_wp q i e r Hs (callback_not_running _ _ _ _ _ E')) as Hw.
    rewrite E' in Hw. destruct Hw as (_ & (_ & _ & _ & Hk & _) & _). auto.
  - intros t q' E'. destruct (awaiting q) eqn:Ha; [unfold defer, check in E'; by rewrite Ha in E'|].
    pose proof (defer_wp q t Hs Ha) as Hw. rewrite E' in Hw. destruct Hw as (_ & (_ & _ & _ & Hk & _)). auto.
Qed.
End properties.
End queue.

(** ** Concrete cases

    Tasks are numbers: an even one calls back at once with its half, an odd
    one later.  Two run at a time. *)

Definition ex_run (t : Z) : option (option string * Z) :=
  if Z.even t then Some (None, t / 2) else None.

Abbreviation exq := (queue (E:=string) (A:=Z) (T:=Z)).
Abbreviation ex_reachable := (queue_reachable (fun _ : string => false) ex_run (Some 2)).
Definition ex_defer (q : exq) (t : Z) : exq :=
  match defer (fun _ => false) ex_run (Some 2) q t with Ret q => q | _ => q end.
Definition ex_q : exq := fold_left ex_defer [4; 1; 3; 6; 8] new_queue.

Lemma ex_defer_reachable q t : ex_reachable q -> ex_reachable (ex_defer q t).
Proof.
  intros Hq. unfold ex_defer. destruct (defer _ _ _ q t) as [q'| |] eqn:Eq; [|done..].
  by eapply q_defer.
Qed.

Lemma ex_q_reachable : ex_reachable ex_q.
Proof. do 5 apply ex_defer_reachable. apply q_new. Qed.

(** The first task is done, two are running, two wait. *)
Example ex_q_tasks :
  tasks ex_q = [Result 2; Running; Running; Waiting 6; Waiting 8].
Proof. by vm_compute. Qed.

Lemma queue_parallelism_witness :
  active ex_q = count is_running (tasks ex_q) /\ active ex_q <= 2 /\
  (error ex_q = None -> forall i t, aget (tasks ex_q) i = Some (Waiting t) ->
     below_limit (Some 2) (active ex_q) = false).
Proof. apply (queue_parallelism (fun _ => false) ex_run (Some 2)); [done|apply ex_q_reachable]. Defined.

(** The rest is answered: 1 and 3 with 7 and 5 (3 first), 6 and 8 at once, and the
    function is awaited. *)
Definition ex_answer (q : exq) (i : Z) (r : Z) : exq :=
  match callback ex_run (Some 2) q i None r with Ret q => q | _ => q end.
Definition ex_done : exq := match awaitAll (ex_answer (ex_answer ex_q 2 5) 1 7) with Ret q => q | _ => ex_q end.

Lemma ex_answer_reachable q i r : ex_reachable q -> ex_reachable (ex_answer q i r).
Proof.
  intros Hq. unfold ex_answer. destruct (callback _ _ q i None r) as [q'| |] eqn:Eq; [|done..]. by eapply q_callback.
Qed.

Lemma ex_done_reachable : ex_reachable ex_done.
Proof.
  apply (q_awaitAll _ _ _ (ex_answer (ex_answer ex_q 2 5) 1 7)); [|by vm_compute].
  do 2 apply ex_answer_reachable. apply ex_q_reachable.
Qed.

Example ex_done_calls : calls ex_done = [CallAll (Result <$> [2; 7; 5; 3; 4])].
Proof. by vm_compute. Qed.

Lemma queue_notifies_once_witness :
  NoDup ((answers ex_done).*1.*1) /\
  exists rs, calls ex_done = [(if all ex_done then CallAll else CallSpread) (Result <$> rs)] /\
    alen rs = alen (deferred ex_done) /\ forall i r, aget rs i = Some r <-> (i, None, r) ∈ answers ex_done.
Proof.
  assert (first_error (answers ex_done) = None) as E by (by vm_compute).
  assert (calls ex_done <> []) as Hne by (by vm_compute).
  destruct (queue_notifies_once (fun _ => false) ex_run (Some 2) ltac:(done) ex_done ex_done_reachable) as (Hn & _ & Hcalls).
  rewrite E in Hcalls. split; [exact Hn|]. destruct Hcalls as [[Hc _]|[_ Hrs]]; [by destruct (Hne Hc)|exact Hrs].
Defined.

Lemma queue_progress_witness : exists q', callback ex_run (Some 2) ex_q 1 None 7 = Ret q'.
Proof.
  exact (proj2 (queue_progress (fun _ => false) ex_run (Some 2) ltac:(done) ex_q ex_q_reachable)
    1 None 7 Running eq_refl).
Defined.

Lemma queue_callback_stores_witness :
  exists q', callback ex_run (Some 2) ex_q 1 None 7 = Ret q' /\
    (forall j x, aget (tasks ex_q) j = Some (Result x) -> aget (tasks q') j = Some (Result x)) /\
    aget (tasks q') 1 = Some (Result 7).
Proof.
  apply (queue_callback_stores (fun _ => false) ex_run (Some 2) ltac:(done) ex_q 1 None 7);
    [apply ex_q_reachable|done|done].
Defined.

(** The second task fails. *)
Definition ex_failed : exq :=
  match callback ex_run (Some 2) ex_q 1 (Some "timeout"%string) 0 with Ret q => q | _ => ex_q end.

Lemma queue_first_error_witness :
  (forall i e r q', callback ex_run (Some 2) ex_failed i e r = Ret q' -> error q' = Some "timeout"%string) /\
  (forall t q', defer (fun _ => false) ex_run (Some 2) ex_failed t = Ret q' -> error q' = Some "timeout"%string).
Proof.
  apply (queue_first_error (fun _ => false) ex_run (Some 2) ltac:(done) ex_failed "timeout"%string); [|done].
  apply (q_callback (fun _ => false) ex_run (Some 2) ex_q 1 (Some "timeout"%string) 0); [apply ex_q_reachable|].
  by vm_compute.
Defined.
