(* ===== verification/JsStrings.v ===== *)
(** * JavaScript strings: concatenation, numbers in strings, URIs

    The part of the language's strings the pages use.  A string is the list
    of the bytes of its UTF-8 form.  [split_on] and [parse_query] are the
    readers of what the pages write: they state what a query string means. *)

From Stdlib Require Import Ascii String.
From stdpp Require Import pretty.
From S2P Require Import Prelude.

#[local] Open Scope string_scope.

Lemma str_app_cons c (s t : string) : String c s ++ t = String c (s ++ t).
Proof. done. Qed.

Lemma str_nil_app (s : string) : "" ++ s = s.
Proof. done. Qed.

Lemma str_app_assoc (s t u : string) : (s ++ t) ++ u = s ++ (t ++ u).
Proof. induction s as [|c s IH]; [done|]. by rewrite !str_app_cons, IH. Qed.

Lemma str_length_app (s t : string) :
  String.length (s ++ t) = (String.length s + String.length t)%nat.
Proof. induction s as [|c s IH]; [done|]. rewrite str_app_cons. simpl. by rewrite IH. Qed.

Lemma substring_all s m : (String.length s <= m)%nat -> String.substring 0 m s = s.
Proof.
  revert m. induction s as [|c s IH]; intros [|m] Hm; simpl in *; try done; [lia|].
  by rewrite IH by lia.
Qed.

Lemma substring_drop (p s : string) m :
  (String.length s <= m)%nat -> String.substring (String.length p) m (p ++ s) = s.
Proof.
  intros Hm. induction p as [|c p IH]; [by apply substring_all|]. rewrite str_app_cons. simpl.
  by rewrite IH.
Qed.

Lemma str_app_nil (s : string) : s ++ "" = s.
Proof. induction s as [|c s IH]; [done|]. by rewrite str_app_cons, IH. Qed.

(** [a.join(sep)]. *)
Definition join (sep : string) (l : list string) : string := String.concat sep l.

Definition is_char (c : ascii) (x : ascii) : bool := Ascii.eqb x c.

(** [c] does not occur in [s]. *)
Fixpoint lacks (c : ascii) (s : string) : bool :=
  match s with
  | EmptyString => true
  | String x s' => negb (Ascii.eqb x c) && lacks c s'
  end.

(** [s.split(c)]. *)
Fixpoint split_on (c : ascii) (s : string) : list string :=
  match s with
  | EmptyString => [""]
  | String x s' =>
      if Ascii.eqb x c then "" :: split_on c s'
      else match split_on c s' with
           | [] => [String x ""]
           | w :: l => String x w :: l
           end
  end.

Lemma split_lacks c s : lacks c s = true -> split_on c s = [s].
Proof.
  induction s as [|x s IH]; simpl; [done|]. intros [Hx Hs]%andb_true_iff.
  apply negb_true_iff in Hx. by rewrite Hx, (IH Hs).
Qed.

Lemma split_cons c s t :
  lacks c s = true -> split_on c (s ++ String c t) = s :: split_on c t.
Proof.
  induction s as [|x s IH]; simpl.
  - intros _. by rewrite Ascii.eqb_refl.
  - intros [Hx Hs]%andb_true_iff. apply negb_true_iff in Hx. by rewrite Hx, (IH Hs).
Qed.

Lemma split_join c l :
  l <> [] -> Forall (fun s => lacks c s = true) l -> split_on c (join (String c "") l) = l.
Proof.
  intros Hne Hl. induction Hl as [|s l Hs Hl IH]; [done|]. unfold join in *.
  destruct l as [|t l]; [by apply split_lacks|].
  change (String.concat (String c "") (s :: t :: l)) with (s ++ String c (String.concat (String c "") (t :: l))).
  rewrite split_cons by done. f_equal. by apply IH.
Qed.

Lemma lacks_app c s t : lacks c (s ++ t) = lacks c s && lacks c t.
Proof. induction s as [|x s IH]; simpl; [done|]. by rewrite IH, andb_assoc. Qed.

(** ** Numbers and strings *)

(** ["" + z]. *)
Definition str_of_num (z : Z) : string := pretty z.

Definition digit (c : ascii) : option Z :=
  let k := Z.of_nat (nat_of_ascii c) in
  if ((48 <=? k) && (k <=? 57))%Z then Some (k - 48)%Z else None.

(** [Number(s)] for a string of decimal digits; the other strings the pages
    convert are not numbers ([None] is [NaN]). *)
Fixpoint digits (s : string) (acc : Z) : option Z :=
  match s with
  | EmptyString => Some acc
  | String c s' => d ← digit c; digits s' (10 * acc + d)%Z
  end.
Definition to_number (s : string) : option Z := digits s 0.

Lemma digit_char x : (x < 10)%N -> digit (pretty_N_char x) = Some (Z.of_N x).
Proof.
  intros Hx. assert (In x [0; 1; 2; 3; 4; 5; 6; 7; 8; 9])%N as Hin by (simpl; lia).
  simpl in Hin. by repeat destruct Hin as [<-|Hin].
Qed.

Lemma digits_go x s acc :
  digits (pretty_N_go x s) acc = digits s (acc * 10 ^ Z.of_nat (String.length (pretty_N_go x "")) + Z.of_N x)%Z
  /\ String.length (pretty_N_go x s) = (String.length (pretty_N_go x "") + String.length s)%nat.
Proof.
  revert s acc. induction (N.lt_wf_0 x) as [x _ IH]; intros s acc.
  destruct (decide (x = 0%N)) as [->|Hx].
  - rewrite !pretty_N_go_0. simpl. split; [f_equal; lia|done].
  - rewrite (pretty_N_go_step x s), (pretty_N_go_step x "") by lia.
    assert (x `div` 10 < x)%N as Hlt by (apply N.div_lt; lia).
    destruct (IH _ Hlt (String (pretty_N_char (x `mod` 10)) s) acc) as [-> ->].
    destruct (IH _ Hlt (String (pretty_N_char (x `mod` 10)) "") 0) as [_ ->].
    simpl. rewrite digit_char by (apply N.mod_lt; done). simpl. split; [|lia].
    f_equal. rewrite Nat.add_1_r, Nat2Z.inj_succ, Z.pow_succ_r by lia.
    rewrite N2Z.inj_mod, N2Z.inj_div by done. simpl. pose proof (Z.div_mod (Z.of_N x) 10). lia.
Qed.

Lemma to_number_str z : (0 <= z)%Z -> to_number (str_of_num z) = Some z.
Proof.
  intros Hz. unfold to_number, str_of_num. destruct z as [|p|p]; [done| |lia].
  change (pretty (Z.pos p)) with (pretty_N_go (N.pos p) "").
  destruct (digits_go (N.pos p) "" 0) as [-> _]. simpl. by rewrite ?Z.mul_0_l.
Qed.

Lemma lacks_digits c s z acc : digits s acc = Some z -> digit c = None -> lacks c s = true.
Proof.
  revert acc. induction s as [|x s IH]; intros acc; simpl; [done|].
  destruct (digit x) as [d|] eqn:Hx; [|done]. intros Hs Hc. simpl in Hs.
  apply andb_true_iff. split; [|by eapply IH]. apply negb_true_iff, Ascii.eqb_neq.
  intros ->. congruence.
Qed.

(** ** URIs *)

Definition between (a b : ascii) (c : ascii) : bool :=
  ((nat_of_ascii a <=? nat_of_ascii c)%nat && (nat_of_ascii c <=? nat_of_ascii b)%nat)%bool.

(** The characters [encodeURI] keeps. *)
Definition uri_kept (c : ascii) : bool :=
  between "A" "Z" c || between "a" "z" c || between "0" "9" c
  || existsb (Ascii.eqb c) (list_ascii_of_string ";,/?:@&=+$-_.!~*'()#").

Definition hex_digit (k : nat) : ascii :=
  ascii_of_nat (if (k <? 10)%nat then 48 + k else 55 + k).

Fixpoint encodeURI (s : string) : string :=
  match s with
  | EmptyString => ""
  | String c s' =>
      if uri_kept c then String c (encodeURI s')
      else let k := nat_of_ascii c in
           String "%" (String (hex_digit (k / 16)) (String (hex_digit (k mod 16)) (encodeURI s')))
  end.

Lemma encodeURI_kept s :
  forallb uri_kept (list_ascii_of_string s) = true -> encodeURI s = s.
Proof.
  induction s as [|c s IH]; simpl; [done|]. intros [-> Hs]%andb_true_iff. by rewrite (IH Hs).
Qed.

Lemma encodeURI_app s t : encodeURI (s ++ t) = encodeURI s ++ encodeURI t.
Proof.
  induction s as [|c s IH]; simpl; [done|]. destruct (uri_kept c); simpl; by rewrite IH.
Qed.

(** What a server reads in the query string of a URI: the parameters, in
    order, a name ending at the first [=]. *)
Fixpoint cut (c : ascii) (s : string) : string * string :=
  match s with
  | EmptyString => ("", "")
  | String x s' => if Ascii.eqb x c then ("", s') else let '(a, b) := cut c s' in (String x a, b)
  end.
Definition parse_query (uri : string) : list (string * string) :=
  map (cut "=") (split_on "&" (snd (cut "?" uri))).

Lemma cut_app c s t : lacks c s = true -> cut c (s ++ String c t) = (s, t).
Proof.
  induction s as [|x s IH]; simpl; [by rewrite Ascii.eqb_refl|].
  intros [Hx Hs]%andb_true_iff. apply negb_true_iff in Hx. by rewrite Hx, (IH Hs).
Qed.

(** A value the pages read from an attribute or from JSON. *)
Inductive attr := AStr (s : string) | ANull | AUndefined.
#[export] Instance attr_eq_dec : EqDecision attr.
Proof. solve_decision. Defined.
Definition str_of_attr (v : attr) : string :=
  match v with AStr s => s | ANull => "null" | AUndefined => "undefined" end.

(** [if (v !== '') { query += '&name=' + v; }] *)
Definition add_param (name : string) (v : attr) (query : string) : string :=
  if decide (v = AStr "") then query else query ++ "&" ++ name ++ "=" ++ str_of_attr v.

(** The parameters that are present. *)
Definition given (ps : list (string * attr)) : list (string * string) :=
  omap (fun '(n, v) => if decide (v = AStr "") then None else Some (n, str_of_attr v)) ps.

Definition add_params (ps : list (string * attr)) (query : string) : string :=
  fold_left (fun q '(n, v) => add_param n v q) ps query.

(** No separator inside a name or a value. *)
Definition plain (p : string * attr) : bool :=
  lacks "&" p.1 && lacks "=" p.1 && lacks "&" (str_of_attr p.2).

Definition param (p : string * string) : string := p.1 ++ "=" ++ p.2.

Lemma given_cons n v ps :
  given ((n, v) :: ps) =
  if decide (v = AStr "") then given ps else (n, str_of_attr v) :: given ps.
Proof. unfold given. simpl. by destruct (decide _). Qed.

Lemma add_params_join ps : forall first,
  add_params ps first = join "&" (first :: map param (given ps)).
Proof.
  unfold add_params, join. induction ps as [|[n v] ps IH]; intros first; [done|].
  rewrite given_cons. simpl. rewrite IH. unfold add_param.
  destruct (decide (v = AStr "")) as [Hv|Hv]; [done|]. simpl.
  change (param (n, str_of_attr v)) with (n ++ String "=" (str_of_attr v)).
  destruct (map param _) as [|q l]; by rewrite ?str_app_assoc, ?str_app_cons, ?str_app_assoc.
Qed.

(** Parameters written with [add_param] are read back. *)
Lemma parse_add_params path n v ps :
  lacks "?" path = true -> plain (n, AStr v) = true -> Forall (fun p => plain p = true) ps ->
  parse_query (add_params ps (path ++ "?" ++ n ++ "=" ++ v)) = (n, v) :: given ps.
Proof.
  intros Hpath Hn Hps. rewrite add_params_join. unfold parse_query.
  assert (join "&" ((path ++ "?" ++ n ++ "=" ++ v) :: map param (given ps))
          = path ++ String "?" (join "&" (map param ((n, v) :: given ps)))) as ->.
  { unfold join, param. simpl. destruct (map _ (given ps)); simpl; by rewrite ?str_app_assoc. }
  rewrite cut_app by done. simpl.
  assert (Forall (fun p : string * string => lacks "&" p.1 && lacks "=" p.1 && lacks "&" p.2 = true)
            ((n, v) :: given ps)) as Hall.
  { constructor; [done|]. clear Hn. induction Hps as [|[n1 v1] ps H1 _ IH]; [constructor|].
    rewrite given_cons. destruct (decide _); [done|]. constructor; done. }
  change (split_on "&" _) with (split_on "&" (join "&" (map param ((n, v) :: given ps)))).
  rewrite split_join; [|done|].
  - generalize dependent ((n, v) :: given ps). intros l Hl. induction Hl as [|[a b] l H1 _ IH]; simpl; [done|].
    rewrite IH. apply andb_true_iff in H1 as [[_ Ha]%andb_true_iff _].
    change (param (a, b)) with (a ++ String "=" b). by rewrite cut_app.
  - apply Forall_map. eapply Forall_impl; [exact Hall|]. intros [a b] H1. simpl in *.
    change (param (a, b)) with (a ++ String "=" b). rewrite lacks_app. simpl.
    apply andb_true_iff in H1 as [[Ha _]%andb_true_iff Hb]. by rewrite Ha, Hb.
Qed.

Lemma lacks_encodeURI s : lacks "&" s = true -> lacks "&" (encodeURI s) = true.
Proof.
  induction s as [|c s IH]; simpl; [done|]. intros [Hc Hs]%andb_true_iff.
  destruct (uri_kept c); simpl; [by rewrite Hc, IH|].
  rewrite IH by done. rewrite andb_true_r. clear. by destruct c as [[] [] [] [] [] [] [] []].
Qed.

(** [s.replace(pattern, by)] for a pattern that is a string: the first
    occurrence. *)
Fixpoint str_replace (pattern by_ s : string) : string :=
  if String.prefix pattern s then
    by_ ++ String.substring (String.length pattern) (String.length s) s
  else match s with
       | EmptyString => ""
       | String c s' => String c (str_replace pattern by_ s')
       end.

Lemma prefix_app p s : String.prefix p (p ++ s) = true.
Proof.
  induction p as [|c p IH]; [by destruct s|]. rewrite str_app_cons. simpl.
  by destruct (ascii_dec c c).
Qed.

Lemma str_replace_here pattern by_ s :
  str_replace pattern by_ (pattern ++ s) = by_ ++ s.
Proof.
  assert (forall t, String.prefix pattern t = true ->
    str_replace pattern by_ t = by_ ++ String.substring (String.length pattern) (String.length t) t) as Hr.
  { intros t Ht. destruct t as [|c t]; cbn [str_replace]; by rewrite Ht. }
  rewrite Hr by apply prefix_app. f_equal. apply substring_drop. rewrite str_length_app. lia.
Qed.

Lemma str_replace_skip pattern by_ c s :
  String.prefix pattern (String c s) = false ->
  str_replace pattern by_ (String c s) = String c (str_replace pattern by_ s).
Proof. intros Hp. cbn [str_replace]. by rewrite Hp. Qed.
