(* ===== verification/Helpers.v ===== *)
(** * d3_helpers: what the pages share

    [src/app/assets/javascripts/d3_helpers.js].  The formatters built by
    [d3.format] and [d3.time.format], the numbers' [toFixed] and the dates are
    parameters: [D] is a [Date], [None] as one is [null], and [formatFixed]
    takes [None] for [undefined].  Counts are integers, and what is [undefined]
    is [None]. *)

From Stdlib Require Import Ascii String.
From stdpp Require Import gmap.
From S2P Require Import Prelude.
From S2P Require Import JsStrings.

#[local] Open Scope string_scope.

Section helpers.
Context {D : Type} (parse_date : string -> D).
Context (formatYear formatMonthYear formatDate : option D -> string).
Context (formatFixed : option Z -> string).
Context (toFixed1 : Z -> Z -> string).

Definition numberWithDelimiter (number : Z) : option string :=
  if decide (number <> 0%Z) then Some (formatFixed (Some number)) else None.

(** ** File sizes *)

Definition units : list string := ["KB"; "MB"; "GB"; "TB"; "PB"].

(** The loop divides [bytes] by [thresh] until it is below it.  The value of
    [bytes] after [u + 1] turns is [bytes / 1000 ^ (u + 1)]; [toFixed1 a b] is
    what [toFixed(1)] prints for [a / b]. *)
Definition human_size_loop (bytes : Z) : js Z :=
  loop (S (Z.to_nat (Z.log2 bytes))) (fun u =>
    let u := (u + 1)%Z in
    if (1000 * 1000 ^ (u + 1) <=? bytes)%Z then Ret (inl u) else Ret (inr u)) (-1)%Z.

Definition numberToHumanSize (bytes : Z) : js string :=
  let thresh := 1000%Z in
  if (bytes <? thresh)%Z then Ret (str_of_num bytes ++ " B")
  else
    u ← human_size_loop bytes;
    Ret (toFixed1 bytes (1000 ^ (u + 1))%Z ++ " " ++ default "undefined" (units !! Z.to_nat u)).

(** ** Dates *)

(** An element of [date_parts]: numbers in the JSON, strings once padded. *)
Inductive part := PNum (z : Z) | PStr (s : string) | PNull.

Definition part_below_10 (p : part) : bool :=
  match p with
  | PNum z => (z <? 10)%Z
  | PStr s => match to_number s with Some z => (z <? 10)%Z | None => false end
  | PNull => true
  end.
Definition str_of_part (p : part) : string :=
  match p with PNum z => str_of_num z | PStr s => s | PNull => "null" end.
Definition pad (p : part) : string :=
  if part_below_10 p then "0" ++ str_of_part p else "" ++ str_of_part p.

(** The array is padded in place: the first component is [date_parts]
    afterwards. *)
Definition datePartsToDate (date_parts : list part) : list part * option D :=
  let len := List.length date_parts in
  if ((len =? 0) || (3 <? len))%nat then (date_parts, None)
  else
    let padded := map pad date_parts in
    (map PStr padded, Some (parse_date (join "-" padded ++ "T12:00"))).

Definition formattedDate (date : option D) (len : nat) : option string :=
  match len with
  | 1 => Some (formatYear date)
  | 2 => Some (formatMonthYear date)
  | 3 => Some (formatDate date)
  | _ => None
  end%nat.

(** ** Works *)

Definition resolvers : list string :=
  ["http://doi.org/"; "http://www.ncbi.nlm.nih.gov/pubmed/";
   "http://www.ncbi.nlm.nih.gov/pmc/works/PMC"; "http://www.ncbi.nlm.nih.gov/pmc/works/PMC";
   "http://arxiv.org/abs/"; "http://n2t.net/"].

Definition starts (id p : string) : bool :=
  String.eqb (String.substring 0 (String.length p) id) p.

(** [id.replace(/^https?:\/\//, '')]. *)
Definition strip_scheme (id : string) : string :=
  if String.prefix "http://" id then String.substring 7 (String.length id) id
  else if String.prefix "https://" id then String.substring 8 (String.length id) id
  else id.

Definition pathForWork (id : option string) : string :=
  match id with
  | None => ""
  | Some id => if existsb (starts id) resolvers then strip_scheme id else id
  end.

Record source := Source {
  source_id_ : string;
  source_title : string;
  source_group_id : string
}.
Record relation_type := RelationType { relation_id : string; inverse_title : string }.
Record work := Work {
  work_id : option string;
  work_title : string;
  issued : list part;
  events : gmap string Z;
  work_source_id : string;
  work_relation_type_id : string;
  related_work_id : option string
}.

Record signposts := Signposts { viewed : Z; cited : option Z; saved : Z; discussed : Z }.

(** [work.events[name] || 0]. *)
Definition count_or_0 (w : work) (name : string) : Z := default 0%Z (events w !! name).

Definition signpostsFromWork (w : work) : signposts :=
  Signposts (count_or_0 w "counter" + count_or_0 w "pmc")
            (events w !! "crossref")
            (count_or_0 w "citeulike" + count_or_0 w "mendeley")
            (count_or_0 w "facebook" + count_or_0 w "twitter" + count_or_0 w "twitter_search").

(** [filter(...)[0]]. *)
Definition find_source (sources : list source) (id : string) : option source :=
  List.find (fun d => String.eqb (source_id_ d) id) sources.

(** The result of [signpostsToString]: a string, or the array [a]. *)
Inductive signposts_text := ShownString (s : string) | ShownArray (a : list string).

Definition signpost (label : string) (v : option Z) : list string :=
  match v with
  | Some x => if (0 <? x)%Z then [label ++ ": " ++ formatFixed (Some x)] else []
  | None => []
  end.

Definition signpost_name (source_id sort : option string) : string :=
  if decide (source_id <> None /\ source_id <> Some "") then default "" source_id
  else if decide (sort <> None /\ sort <> Some "") then default "" sort
  else "".

Definition signpostsToString (w : work) (sources : list source) (source_id sort : option string) : signposts_text :=
  let name := signpost_name source_id sort in
  let source := if decide (name <> "") then find_source sources name else None in
  let a := match source with
           | Some s => [source_title s ++ ": " ++ formatFixed (events w !! name)]
           | None => []
           end in
  let sp := signpostsFromWork w in
  let b := (signpost "Viewed" (Some (viewed sp)) ++ signpost "Cited" (cited sp)
            ++ signpost "Saved" (Some (saved sp)) ++ signpost "Discussed" (Some (discussed sp)))%list in
  if (0 <? List.length b)%nat then ShownString (join " | " (a ++ [join " • " b])%list)
  else if (0 <? List.length a)%nat then ShownArray a
  else ShownString "".

Definition relationToString (w : work) (sources : list source) (relation_types : list relation_type) : list string :=
  match find_source sources (work_source_id w) with
  | None => []
  | Some source =>
      match List.find (fun d => String.eqb (relation_id d) (work_relation_type_id w)) relation_types with
      | None => []
      | Some relation_type => [inverse_title relation_type; " via " ++ source_title source]
      end
  end.

(** ** Authors and types *)

Record author := Author { given_name : attr; family : attr }.

Definition formattedAuthor (authors : list author) : string :=
  let author := map (fun d => str_of_attr (given_name d) ++ " " ++ str_of_attr (family d)) authors in
  match List.length author with
  | 0 | 1 | 2 => join " & " author
  | 3 | 4 => join ", " (take (List.length author - 1) author) ++ " & " ++ List.last author ""
  | _ => join ", " (take 3 author) ++ ", <em>et al</em>"
  end%nat.

Definition types : gmap string string := list_to_map
  [("article-journal", "Journal article"); ("article-newspaper", "News"); ("post", "Blog post");
   ("webpage", "Web page"); ("broadcast", "Podcast/Video");
   ("personal_communication", "Personal communication")].

Definition formattedType (type : string) : string := default "Other" (types !! type).

(** ** File sizes *)

Lemma human_size_loop_wp bytes :
  (1000 <= bytes)%Z ->
  wp (human_size_loop bytes) (fun u => 0 <= u /\ 1000 ^ (u + 1) <= bytes < 1000 ^ (u + 2))%Z.
Proof.
  intros Hb. unfold human_size_loop.
  assert (forall u, 0 <= u -> 1000 ^ u <= bytes -> u <= Z.log2 bytes)%Z as Hlog.
  { intros u Hu Hle. apply Z.log2_le_pow2; [lia|]. etrans; [|exact Hle]. apply Z.pow_le_mono_l. lia. }
  apply (wp_loop (fun u => -1 <= u /\ 1000 * 1000 ^ (u + 1) <= bytes)%Z
           (fun u => Z.log2 bytes - u - 1)%Z).
  - simpl. lia.
  - pose proof (Z.log2_nonneg bytes). lia.
  - intros u (Hu & Hle).
    assert (1000 ^ (u + 2) = 1000 * 1000 ^ (u + 1))%Z as Hp.
    { replace (u + 2)%Z with (Z.succ (u + 1)) by lia. apply Z.pow_succ_r. lia. }
    assert (1000 ^ (u + 1 + 2) = 1000 * 1000 ^ (u + 1 + 1))%Z as Hp'.
    { replace (u + 1 + 2)%Z with (Z.succ (u + 1 + 1)) by lia. apply Z.pow_succ_r. lia. }
    replace (u + 1 + 1)%Z with (u + 2)%Z in * by lia.
    destruct (Z.leb_spec (1000 * 1000 ^ (u + 2)) bytes) as [H1|H1]; simpl.
    + pose proof (Hlog (u + 3)%Z). replace (u + 3)%Z with (u + 1 + 2)%Z in * by lia.
      split_and!; try lia; replace (u + 1 + 1)%Z with (u + 2)%Z by lia; lia.
    + replace (u + 1 + 1)%Z with (u + 2)%Z by lia. lia.
Qed.

(** a size is printed with the unit in which it is at least 1 and below
    1000; the loop ends, and every size below 10^18 bytes has a unit. *)
Theorem numberToHumanSize_unit bytes :
  (0 <= bytes < 10 ^ 18)%Z ->
  numberToHumanSize bytes = Ret (str_of_num bytes ++ " B") /\ (bytes < 1000)%Z \/
  exists u name, (0 <= u /\ 1000 ^ (u + 1) <= bytes < 1000 ^ (u + 2))%Z /\
    units !! Z.to_nat u = Some name /\
    numberToHumanSize bytes = Ret (toFixed1 bytes (1000 ^ (u + 1))%Z ++ " " ++ name).
Proof.
  intros Hb. unfold numberToHumanSize. destruct (Z.ltb_spec bytes 1000) as [H|H]; [by left|right].
  destruct (wp_elim _ _ (human_size_loop_wp bytes H)) as (u & -> & Hu & Hlt). cbn [mbind js_bind].
  assert (u <= 4)%Z as Hu4.
  { destruct (decide (u <= 4)%Z); [done|]. pose proof (Z.pow_le_mono_r 1000 6 (u + 1)). lia. }
  destruct (lookup_lt_is_Some_2 units (Z.to_nat u)) as [name Hn]; [simpl; lia|].
  exists u, name. rewrite Hn. by split; [split|split].
Qed.

(** ** Dates *)

Lemma str_of_num_digits z : (0 <= z)%Z -> lacks "-" (str_of_num z) = true.
Proof. intros Hz. eapply lacks_digits; [by apply to_number_str|done]. Qed.

Lemma pad_number z :
  (0 <= z)%Z -> to_number (pad (PNum z)) = Some z /\ lacks "-" (pad (PNum z)) = true
    /\ ((z < 100)%Z -> String.length (pad (PNum z)) = 2%nat).
Proof.
  intros Hz. unfold pad. simpl. destruct (Z.ltb_spec z 10) as [H|H].
  - pose proof (to_number_str z Hz) as Hn. pose proof (str_of_num_digits z Hz) as Hl.
    split_and!; [exact Hn|exact Hl|]. intros _.
    assert (In z [0; 1; 2; 3; 4; 5; 6; 7; 8; 9]%Z) as Hin by (simpl; lia).
    simpl in Hin. repeat destruct Hin as [<-|Hin]; try done; by vm_compute.
  - split_and!; [by apply to_number_str|by apply str_of_num_digits|]. intros H'.
    destruct z as [|p|p]; [lia| |lia]. change (String.length (pretty.pretty_N_go (N.pos p) "") = 2%nat).
    rewrite pretty.pretty_N_go_step by lia.
    assert (0 < N.pos p `div` 10 < 10)%N as Hd by (split; [apply N.div_str_pos; lia|apply N.Div0.div_lt_upper_bound; lia]).
    rewrite pretty.pretty_N_go_step by lia. rewrite (N.div_small _ 10) by lia. by rewrite pretty.pretty_N_go_0.
Qed.

(** One, two or three date parts become an ISO 8601 date at noon, in
    which each part is written with at least two digits and can be read back. *)
Theorem datePartsToDate_roundtrip zs :
  (1 <= List.length zs <= 3)%nat -> Forall (fun z => 0 <= z)%Z zs ->
  exists date, snd (datePartsToDate (map PNum zs)) = Some (parse_date (date ++ "T12:00")) /\
    map to_number (split_on "-" date) = map Some zs /\
    Forall2 (fun z s => (z < 100)%Z -> String.length s = 2%nat) zs (split_on "-" date).
Proof.
  intros Hlen Hzs. unfold datePartsToDate. rewrite length_map.
  destruct (Nat.eqb_spec (List.length zs) 0); [lia|]. destruct (Nat.ltb_spec 3 (List.length zs)); [lia|].
  exists (join "-" (map pad (map PNum zs))). split; [done|].
  rewrite split_join.
  - split.
    + rewrite !map_map. apply map_ext_Forall. eapply Forall_impl; [exact Hzs|]. intros z Hz. by apply pad_number.
    + rewrite map_map. clear - Hzs. induction Hzs as [|z zs Hz _ IH]; simpl; constructor; [by apply pad_number|done].
  - intros E'. apply map_eq_nil, map_eq_nil in E'. subst zs. done.
  - rewrite map_map. apply Forall_map. eapply Forall_impl; [exact Hzs|]. intros z Hz. by apply pad_number.
Qed.

(** ** Paths *)

Lemma starts_app id p : starts id p = true -> exists s, id = p ++ s.
Proof.
  unfold starts. rewrite String.eqb_eq. revert id. induction p as [|c p IH]; intros id; simpl; [by exists id|].
  destruct id as [|x id]; simpl; [done|]. intros [= -> Hp]. destruct (IH id Hp) as [s ->]. by exists s.
Qed.

(** The path of a work is its identifier, less the scheme when it is the
    address of a resolver the application knows: the identifier is found again
    by putting the scheme back. *)
Theorem pathForWork_identifies id :
  pathForWork (Some id) = id \/
  (id = "http://" ++ pathForWork (Some id) /\ exists p s, In p resolvers /\ id = p ++ s).
Proof.
  unfold pathForWork. destruct (existsb (starts id) resolvers) eqn:E'; [|by left]. right.
  apply existsb_exists in E' as (p & Hin & Hp). apply starts_app in Hp as [s ->].
  split; [|by exists p, s].
  assert (exists q, p = "http://" ++ q) as [q ->].
  { simpl in Hin. repeat destruct Hin as [<-|Hin]; try done; by eexists. }
  unfold strip_scheme. rewrite str_app_assoc, prefix_app.
  rewrite (substring_drop "http://" (q ++ s)); [done|].
  rewrite (str_length_app "http://"). lia.
Qed.

End helpers.

(** ** Concrete cases *)

Lemma numberToHumanSize_unit_witness :
  numberToHumanSize (fun a b => str_of_num (a / b)) 2000000 = Ret "2 MB"%string /\
  (numberToHumanSize (fun a b => str_of_num (a / b)) 2000000 = Ret (str_of_num 2000000 ++ " B") /\ (2000000 < 1000)%Z \/
   exists u name, (0 <= u /\ 1000 ^ (u + 1) <= 2000000 < 1000 ^ (u + 2))%Z /\
    units !! Z.to_nat u = Some name /\
    numberToHumanSize (fun a b => str_of_num (a / b)) 2000000 =
      Ret (str_of_num (2000000 / 1000 ^ (u + 1)) ++ " " ++ name)).
Proof.
  split; [by vm_compute|]. apply (numberToHumanSize_unit (fun a b => str_of_num (a / b)%Z) 2000000). lia.
Defined.

Lemma datePartsToDate_roundtrip_witness :
  snd (datePartsToDate (fun s => s) [PNum 2014; PNum 4]) = Some "2014-04T12:00"%string /\
  exists date, snd (datePartsToDate (fun s => s) (map PNum [2014; 4]%Z)) = Some (date ++ "T12:00") /\
    map to_number (split_on "-" date) = map Some [2014; 4]%Z /\
    Forall2 (fun z s => (z < 100)%Z -> String.length s = 2%nat) [2014; 4]%Z (split_on "-" date).
Proof.
  split; [by vm_compute|]. apply (datePartsToDate_roundtrip (fun s => s) [2014; 4]%Z); [simpl; lia|].
  repeat constructor; lia.
Defined.
