(* ===== verification/Bootpag.v ===== *)
(** * bootpag: the pager

    [src/app/assets/javascripts/jquery.bootpag.js] and [paginate] of
    [d3_helpers.js].  The DOM part of a pager is the list of the [li] of its
    [ul.bootpag]: of each the attribute [data-lp], the classes, whether it is
    shown, and the address and the text of its link.  jQuery's [first], [next],
    [last] and [prev] of an empty set change nothing, as [alter] out of range. *)

From stdpp Require Import list.
From S2P Require Import Prelude.
From S2P Require Import JsStrings.

#[local] Open Scope string_scope.

Record settings := Settings {
  total : Z;
  page : Z;
  maxVisible : Z;
  leaps : bool;
  href : string;
  hrefVariable : string;
  next : option string;
  prev : option string;
  firstLastUse : bool;
  first : string;
  last_ : string;
  activeClass : string;
  disabledClass : string;
  nextClass : string;
  prevClass : string;
  lastClass : string;
  firstClass : string
}.

(** What a caller passes; the other settings are the defaults. *)
Record options := Options {
  o_total : Z;
  o_page : Z;
  o_maxVisible : option Z;
  o_leaps : bool;
  o_href : string;
  o_next : option string;
  o_prev : option string;
  o_firstLastUse : bool
}.

Definition quote : string := String (Ascii.ascii_of_nat 34) "".
Definition arrow (code : string) : string :=
  "<span aria-hidden=" ++ quote ++ "true" ++ quote ++ ">" ++ code ++ "</span>".

Definition extend (o : options) : settings :=
  Settings (o_total o) (o_page o) (default (o_total o) (o_maxVisible o)) (o_leaps o) (o_href o)
    "{{number}}" (o_next o) (o_prev o) (o_firstLastUse o)
    (arrow "&larr;") (arrow "&rarr;")
    "active" "disabled" "next" "prev" "last" "first".

Record li := Li {
  lp : Z;
  classes : list string;
  shown : bool;
  link : string;
  html : string
}.

Definition hasClass (c : string) (l : li) : bool := bool_decide (c ∈ classes l).
Definition removeClass (c : string) (l : li) : li :=
  Li (lp l) (List.filter (fun x => bool_decide (x <> c)) (classes l)) (shown l) (link l) (html l).
Definition addClass (c : string) (l : li) : li :=
  if hasClass c l then l else Li (lp l) (classes l ++ [c])%list (shown l) (link l) (html l).
Definition toggleClass (c : string) (b : bool) (l : li) : li :=
  if b then addClass c l else removeClass c l.
(** [.attr('data-lp', lp).find('a').attr('href', href)]. *)
Definition target (x : Z) (h : string) (l : li) : li := Li x (classes l) (shown l) h (html l).

Definition href_of (s : settings) (c : Z) : string :=
  str_replace (hrefVariable s) (str_of_num c) (href s).

(** [.is('.next,.prev,.first,.last')]. *)
Definition is_control (s : settings) (l : li) : bool :=
  hasClass (nextClass s) l || hasClass (prevClass s) l || hasClass (firstClass s) l || hasClass (lastClass s) l.

(** [$page.not(clist).each(function(index) {...})]. *)
Fixpoint relabel (s : settings) (base : Z) (index : Z) (items : list li) : list li :=
  match items with
  | [] => []
  | l :: items' =>
      if is_control s l then l :: relabel s base index items'
      else
        let lp := (index + 1 + base)%Z in
        Li lp (classes l) (lp <=? total s)%Z (href_of s lp) (str_of_num lp)
          :: relabel s base (index + 1) items'
  end.

Definition is_page (s : settings) (page : Z) (l : li) : bool := (lp l =? page)%Z && negb (is_control s l).

Definition set_page (s : settings) (p : Z) : settings :=
  Settings (total s) p (maxVisible s) (leaps s) (href s) (hrefVariable s) (next s) (prev s)
    (firstLastUse s) (first s) (last_ s) (activeClass s) (disabledClass s) (nextClass s)
    (prevClass s) (lastClass s) (firstClass s).

(** The position of [llast]. *)
Definition last_index (s : settings) (items : list li) : option nat :=
  match List.length items with
  | O => None
  | S k => if firstLastUse s then match k with O => None | S k' => Some k' end else Some k
  end.
Definition alter_opt (f : li -> li) (i : option nat) (items : list li) : list li :=
  match i with Some i => alter f i items | None => items end.

Definition maxV (s : settings) : Z := if (maxVisible s =? 0)%Z then 1 else maxVisible s.

Definition prev_target (s : settings) (page : Z) : Z :=
  (if page - 1 <? 1 then 1
   else if leaps s && (maxVisible s <=? page - 1) then (page - 1) / maxV s * maxV s
   else page - 1)%Z.
Definition next_target (s : settings) (vis page : Z) : Z :=
  (let step := if maxVisible s =? 1 then 0 else 1 in
   if total s <? page + 1 then total s
   else if leaps s && (page + 1 <? total s - maxVisible s) then vis + maxVisible s + step
   else page + 1)%Z.

(** The parts of [renderPage]: the items on the left, those on the right, the
    numbers. *)
Definition update_left (s : settings) (page : Z) (items : list li) : list li :=
  let lp := prev_target s page in
  let items := if firstLastUse s then alter (toggleClass (disabledClass s) (page =? 1)%Z) 0%nat items else items in
  alter (fun l => target lp (href_of s lp) (toggleClass (disabledClass s) (page =? 1)%Z l))
    (if firstLastUse s then 1%nat else 0%nat) items.

Definition update_right (s : settings) (vis page : Z) (items : list li) : list li :=
  let lp := next_target s vis page in
  let items := alter_opt (fun l => target lp (href_of s lp) (toggleClass (disabledClass s) (page =? total s)%Z l))
                 (last_index s items) items in
  alter (toggleClass (disabledClass s) (page =? total s)%Z) (List.length items - 1)%nat items.

Definition update_numbers (s : settings) (vis page : Z) (items : list li) : list li :=
  let items :=
    if existsb (is_page s page) items then items
    else
      let d := (if page <=? vis then - maxVisible s else 0)%Z in
      relabel s (vis + d) 0 items in
  map (fun l => if is_page s page l then addClass (activeClass s) l else l) items.

Definition renderPage (s : settings) (items : list li) (page : Z) : settings * list li :=
  let vis := ((page - 1) / maxV s * maxV s)%Z in
  let page := (if page <? 0 then 0 else if total s <? page then total s else page)%Z in
  let s := set_page s page in
  let items := map (removeClass (activeClass s)) items in
  (s, update_numbers s vis page (update_right s vis page (update_left s page items))).

(** The [li] the plugin writes first. *)
Definition control (s : settings) (lp : Z) (cls text : string) : li := Li lp [cls] true (href_of s lp) text.
Definition number (s : settings) (c : Z) : li := Li c [] true (href_of s c) (str_of_num c).

Definition initial_items (s : settings) : list li :=
  let lp := (if leaps s && (maxVisible s <? total s) then Z.min (maxVisible s + 1) (total s) else 2)%Z in
  ((if firstLastUse s then [control s 1 (firstClass s) (first s)] else [])
   ++ match prev s with Some t => [control s 1 (prevClass s) t] | None => [] end
   ++ map (number s) (seqZ 1 (Z.min (total s) (maxVisible s)))
   ++ match next s with Some t => [control s lp (nextClass s) t] | None => [] end
   ++ (if firstLastUse s then [control s (total s) "last" (last_ s)] else []))%list.

(** [$owner.bootpag(options)]; [None] when nothing is rendered. *)
Definition bootpag (o : options) : option (settings * list li) :=
  let s := extend o in
  if (total s <=? 0)%Z then None else Some (renderPage s (initial_items s) (page s)).

(** [paginationClick] on the [k]-th [li]. *)
Definition paginationClick (s : settings) (items : list li) (k : nat) : settings * list li :=
  match items !! k with
  | None => (s, items)
  | Some l =>
      if hasClass (disabledClass s) l || hasClass (activeClass s) l then (s, items)
      else renderPage s items (lp l)
  end.

(** [paginate]: [meta_page] is [None] for the empty string. *)
Definition paginate (meta_page : option Z) (total_pages : Z) (json_href : string) : option options :=
  match meta_page with
  | None => None
  | Some p =>
      if (1 <? total_pages)%Z then
        Some (Options total_pages p (Some 10%Z) false json_href
                (if (p <? total_pages)%Z then Some "»" else None)
                (if (1 <? p)%Z then Some "«" else None) false)
      else None
  end.


(** ** The pager of a page

    What a pager with both arrows must look like on page [p]: the block of
    [maxVisible] pages around [p], [p] marked, and the arrows next to it.
    [block] is the last page before the block. *)

Definition block (s : settings) (p : Z) : Z := ((p - 1) / maxV s * maxV s)%Z.

Definition marked (c : string) (b : bool) : list string := c :: if b then ["disabled"] else [].

Definition numbers (s : settings) (vis p : Z) : list li :=
  map (fun c => Li c (if (c =? p)%Z then ["active"] else []) (c <=? total s)%Z (href_of s c) (str_of_num c))
    (seqZ (vis + 1) (Z.min (total s) (maxVisible s))).

Definition left_controls (s : settings) (t : string) (to : Z) (off : bool) : list li :=
  ((if firstLastUse s then [Li 1 (marked "first" off) true (href_of s 1) (first s)] else [])
   ++ [Li to (marked "prev" off) true (href_of s to) t])%list.
Definition right_controls (s : settings) (t : string) (to : Z) (off : bool) : list li :=
  (Li to (marked "next" off) true (href_of s to) t
   :: if firstLastUse s then [Li (total s) (marked "last" off) true (href_of s (total s)) (last_ s)] else [])%list.

Definition pager (s : settings) (tprev tnext : string) (p : Z) : list li :=
  (left_controls s tprev (prev_target s p) (p =? 1)%Z ++ numbers s (block s p) p
   ++ right_controls s tnext (next_target s (block s p) p) (p =? total s)%Z)%list.

Section pager.
Context (o : options) (tprev tnext : string).
Context (Hprev : o_prev o = Some tprev) (Hnext : o_next o = Some tnext).
Context (Htotal : (1 <= o_total o)%Z) (Hvis : (1 <= maxVisible (extend o))%Z).

Abbreviation s0 := (extend o).

Lemma maxV_eq : maxV s0 = maxVisible s0.
Proof. unfold maxV. destruct (Z.eqb_spec (maxVisible s0) 0); lia. Qed.

(** A number is in exactly one block. *)
Lemma block_spec p vis :
  (1 <= p)%Z -> (maxVisible s0 | vis)%Z -> (vis + 1 <= p <= vis + maxVisible s0)%Z <-> vis = block s0 p.
Proof.
  intros Hp [k ->]. unfold block. rewrite maxV_eq. split.
  - intros Hk. f_equal. apply Z.div_unique with (p - 1 - k * maxVisible s0)%Z; lia.
  - intros E'. pose proof (Z.div_mod (p - 1) (maxVisible s0)). pose proof (Z.mod_pos_bound (p - 1) (maxVisible s0)).
    lia.
Qed.

Lemma block_divides p : (maxVisible s0 | block s0 p)%Z.
Proof. exists ((p - 1) / maxVisible s0)%Z. unfold block. by rewrite maxV_eq. Qed.

Lemma block_nonneg p : (1 <= p)%Z -> (0 <= block s0 p)%Z.
Proof. intros Hp. unfold block. rewrite maxV_eq. apply Z.mul_nonneg_nonneg; [apply Z.div_pos|]; lia. Qed.

(** Before the page is marked. *)
Definition bare_li (c : Z) : li := Li c [] (c <=? o_total o)%Z (href_of s0 c) (str_of_num c).
Definition bare (vis : Z) : list li := map bare_li (seqZ (vis + 1) (Z.min (o_total o) (maxVisible s0))).

Lemma unmark vis p : map (removeClass "active") (numbers s0 vis p) = bare vis.
Proof.
  unfold numbers, bare. rewrite map_map. apply map_ext. intros c. by destruct (c =? p)%Z.
Qed.

Definition mark_page (p : Z) (l : li) : li := if is_page s0 p l then addClass (activeClass s0) l else l.

Lemma mark vis p :
  map (mark_page p) (bare vis) = numbers s0 vis p.
Proof.
  unfold numbers, bare. rewrite map_map. apply map_ext. intros c. unfold mark_page, is_page, bare_li. simpl.
  by destruct (c =? p)%Z.
Qed.

Lemma page_numbers vis p :
  existsb (is_page s0 p) (bare vis) =
  bool_decide (vis + 1 <= p < vis + 1 + Z.min (o_total o) (maxVisible s0))%Z.
Proof.
  unfold bare. apply Bool.eq_iff_eq_true. rewrite existsb_exists, bool_decide_eq_true. split.
  - intros (l & Hl & Hp). apply in_map_iff in Hl as (c & <- & Hc).
    apply list_elem_of_In, elem_of_seqZ in Hc. unfold is_page in Hp. simpl in *.
    apply andb_true_iff in Hp as [Hp _]. apply Z.eqb_eq in Hp. lia.
  - intros Hp. exists (bare_li p). split.
    + apply in_map_iff. exists p. split; [done|]. apply list_elem_of_In, elem_of_seqZ. lia.
    + unfold is_page. simpl. by rewrite Z.eqb_refl.
Qed.

Lemma relabel_bare base l n : forall v i,
  relabel s0 base i (map bare_li (seqZ v (Z.of_nat n)) ++ l)%list =
  (map bare_li (seqZ (base + i + 1) (Z.of_nat n)) ++ relabel s0 base (i + Z.of_nat n) l)%list.
Proof.
  induction n as [|n IH]; intros v i; [simpl; f_equal; lia|].
  rewrite !(seqZ_cons _ (Z.of_nat (S n))) by lia. simpl. unfold bare_li at 1. simpl.
  replace (Z.pred (Z.of_nat (S n))) with (Z.of_nat n) by lia.
  replace (i + 1 + base)%Z with (base + i + 1)%Z by lia. f_equal.
  rewrite IH. f_equal; [|f_equal; lia]. do 2 f_equal. lia.
Qed.

Lemma relabel_block base vis l :
  relabel s0 base 0 (bare vis ++ l)%list =
  (bare base ++ relabel s0 base (Z.min (o_total o) (maxVisible s0)) l)%list.
Proof.
  unfold bare. pose proof (relabel_bare base l (Z.to_nat (Z.min (o_total o) (maxVisible s0))) (vis + 1) 0) as Hr.
  rewrite Z2Nat.id in Hr by lia. rewrite Hr. by replace (base + 0 + 1)%Z with (base + 1)%Z by lia.
Qed.

(** Classes of the arrows. *)
Lemma toggle_marked c b b' to sh h t :
  In c ["first"; "prev"; "next"; "last"] ->
  toggleClass "disabled" b (Li to (marked c b') sh h t) = Li to (marked c b) sh h t.
Proof. intros Hc. simpl in Hc. repeat destruct Hc as [<-|Hc]; try done; by destruct b, b'. Qed.

Lemma unmark_marked c b to sh h t :
  In c ["first"; "prev"; "next"; "last"] ->
  removeClass "active" (Li to (marked c b) sh h t) = Li to (marked c b) sh h t.
Proof. intros Hc. simpl in Hc. repeat destruct Hc as [<-|Hc]; try done; by destruct b. Qed.

Lemma control_marked c b to sh h t :
  In c ["first"; "prev"; "next"; "last"] -> is_control s0 (Li to (marked c b) sh h t) = true.
Proof. intros Hc. simpl in Hc. repeat destruct Hc as [<-|Hc]; try done; by destruct b. Qed.

Definition items_shape (items : list li) : Prop :=
  exists vis nums to1 off1 to2 off2,
    items = (left_controls s0 tprev to1 off1 ++ nums ++ right_controls s0 tnext to2 off2)%list /\
    map (removeClass "active") nums = bare vis /\ (maxVisible s0 | vis)%Z.

Lemma left_updated p l off to :
  update_left s0 p (map (removeClass "active") (left_controls s0 tprev to off) ++ l)%list
  = (left_controls s0 tprev (prev_target s0 p) (p =? 1)%Z ++ l)%list.
Proof.
  unfold update_left, left_controls. simpl. destruct (o_firstLastUse o); simpl;
    rewrite ?unmark_marked, ?toggle_marked by (simpl; auto); simpl;
    unfold target; simpl; by rewrite ?toggle_marked by (simpl; auto).
Qed.

Lemma right_updated vis p l off to :
  update_right s0 vis p (l ++ map (removeClass "active") (right_controls s0 tnext to off))%list
  = (l ++ right_controls s0 tnext (next_target s0 vis p) (p =? total s0)%Z)%list.
Proof.
  unfold update_right, right_controls, last_index. simpl.
  destruct (o_firstLastUse o); simpl; rewrite !unmark_marked, length_app by (simpl; auto 10); simpl.
  - replace (List.length l + 2)%nat with (S (S (List.length l + 0))) by lia. simpl.
    rewrite alter_app_r. simpl. rewrite length_app. simpl.
    replace (List.length l + 2 - 1)%nat with (List.length l + 1)%nat by lia.
    rewrite alter_app_r. simpl. unfold target. simpl. by rewrite !toggle_marked by (simpl; auto 10).
  - replace (List.length l + 1)%nat with (S (List.length l + 0)) by lia. simpl.
    rewrite alter_app_r. simpl. rewrite length_app. simpl.
    replace (List.length l + 1 - 1)%nat with (List.length l + 0)%nat by lia.
    rewrite alter_app_r. simpl. unfold target. rewrite toggle_marked by (simpl; auto 10). simpl.
    by rewrite toggle_marked by (simpl; auto 10).
Qed.

(** No arrow is a number. *)
Definition controls (l : list li) : Prop := Forall (fun x => is_control s0 x = true) l.

Lemma controls_page p l : controls l -> map (mark_page p) l = l.
Proof.
  induction 1 as [|x l Hx _ IH]; simpl; [done|]. unfold mark_page at 1, is_page. by rewrite Hx, andb_false_r, IH.
Qed.

Lemma controls_relabel base i l l' : controls l -> relabel s0 base i (l ++ l')%list = (l ++ relabel s0 base i l')%list.
Proof. induction 1 as [|x l Hx _ IH]; simpl; [done|]. by rewrite Hx, IH. Qed.

Lemma controls_no_page p l : controls l -> existsb (is_page s0 p) l = false.
Proof.
  induction 1 as [|x l Hx _ IH]; simpl; [done|]. unfold is_page at 1. by rewrite Hx, andb_false_r, IH.
Qed.

Lemma left_are_controls to off : controls (left_controls s0 tprev to off).
Proof. unfold left_controls. destruct (firstLastUse s0); repeat constructor; apply control_marked; simpl; auto. Qed.

Lemma right_are_controls to off : controls (right_controls s0 tnext to off).
Proof. unfold right_controls. destruct (firstLastUse s0); repeat constructor; apply control_marked; simpl; auto 10. Qed.

Lemma numbers_updated p vis lc rc :
  controls lc -> controls rc -> (1 <= p <= o_total o)%Z -> (maxVisible s0 | vis)%Z ->
  update_numbers s0 (block s0 p) p (lc ++ bare vis ++ rc)%list = (lc ++ numbers s0 (block s0 p) p ++ rc)%list.
Proof.
  intros Hl Hr Hp Hdiv. unfold update_numbers.
  change (fun l => if is_page s0 p l then addClass (activeClass s0) l else l) with (mark_page p).
  assert (forall v, map (mark_page p) (lc ++ bare v ++ rc)%list
                    = (lc ++ numbers s0 v p ++ rc)%list) as Hmark.
  { intros v. by rewrite !map_app, (controls_page p lc), (controls_page p rc), <- mark. }
  rewrite !existsb_app, (controls_no_page p lc), (controls_no_page p rc), orb_false_l, orb_false_r, page_numbers by done.
  pose proof (proj2 (block_spec p (block s0 p) ltac:(lia) (block_divides p)) eq_refl) as Hb.
  case_bool_decide as Hin.
  - rewrite Hmark. by rewrite (proj1 (block_spec p vis ltac:(lia) Hdiv)) by lia.
  - destruct (Z.leb_spec p (block s0 p)); [lia|]. rewrite Z.add_0_r.
    rewrite controls_relabel, relabel_block by done. rewrite <- (app_nil_r rc) at 1.
    rewrite controls_relabel by done. simpl. rewrite app_nil_r. apply Hmark.
Qed.

(** The page is not used by the parts. *)
Lemma update_numbers_set_page a vis p items :
  update_numbers (set_page s0 a) vis p items = update_numbers s0 vis p items.
Proof.
  assert (forall base i l, relabel (set_page s0 a) base i l = relabel s0 base i l) as Hr.
  { intros base i l. revert i. induction l as [|x l IH]; intros i; simpl; [done|].
    change (is_control (set_page s0 a) x) with (is_control s0 x). by rewrite !IH. }
  unfold update_numbers. by rewrite Hr.
Qed.

(** Rendering page [p] of a pager of the right shape gives the pager of [p]. *)
Lemma renderPage_shape items a p :
  items_shape items -> (1 <= p <= o_total o)%Z ->
  renderPage (set_page s0 a) items p = (set_page s0 p, pager s0 tprev tnext p).
Proof.
  intros (vis & nums & to1 & off1 & to2 & off2 & -> & Hnums & Hdiv) Hp.
  unfold renderPage.
  change (maxV (set_page s0 a)) with (maxV s0). change (total (set_page s0 a)) with (o_total o).
  destruct (Z.ltb_spec p 0); [lia|]. destruct (Z.ltb_spec (o_total o) p); [lia|].
  change (set_page (set_page s0 a) p) with (set_page s0 p).
  change ((p - 1) / maxV s0 * maxV s0)%Z with (block s0 p).
  change (update_left (set_page s0 p)) with (update_left s0).
  change (update_right (set_page s0 p)) with (update_right s0).
  rewrite update_numbers_set_page.
  change (activeClass (set_page s0 p)) with "active".
  rewrite !map_app, left_updated, Hnums, app_assoc, right_updated, <- app_assoc.
  rewrite numbers_updated by auto using left_are_controls, right_are_controls. done.
Qed.

Lemma pager_shape p : items_shape (pager s0 tprev tnext p).
Proof.
  exists (block s0 p), (numbers s0 (block s0 p) p), (prev_target s0 p), (p =? 1)%Z,
    (next_target s0 (block s0 p) p), (p =? total s0)%Z.
  split; [done|]. split; [apply unmark|apply block_divides].
Qed.

Lemma initial_shape : items_shape (initial_items s0).
Proof.
  exists 0%Z, (bare 0), 1%Z, false.
  exists (if leaps s0 && (maxVisible s0 <? total s0) then Z.min (maxVisible s0 + 1) (total s0) else 2)%Z, false.
  split; [|split; [by unfold bare; rewrite map_map|by apply Z.divide_0_r]].
  assert (map (number s0) (seqZ 1 (Z.min (o_total o) (maxVisible s0))) = bare 0) as Hn.
  { apply map_ext_in. intros c Hc. apply list_elem_of_In, elem_of_seqZ in Hc.
    unfold number, bare_li. f_equal. symmetry. apply Z.leb_le. lia. }
  unfold initial_items, left_controls, right_controls.
  change (prev s0) with (o_prev o). change (next s0) with (o_next o). rewrite Hprev, Hnext, <- app_assoc.
  change (total s0) with (o_total o) in *. rewrite Hn. by destruct (firstLastUse s0).
Qed.

Lemma targets_in_range p :
  (1 <= p <= o_total o)%Z ->
  (1 <= prev_target s0 p <= o_total o)%Z /\ (1 <= next_target s0 (block s0 p) p <= o_total o)%Z.
Proof.
  intros Hp. unfold prev_target, next_target. change (total s0) with (o_total o).
  pose proof (proj2 (block_spec p (block s0 p) ltac:(lia) (block_divides p)) eq_refl) as Hb.
  change ((p - 1) / maxV s0 * maxV s0)%Z with (block s0 p). split.
  - destruct (Z.ltb_spec (p - 1) 1); [lia|]. destruct (leaps s0); cbn [andb]; [|lia].
    destruct (Z.leb_spec (maxVisible s0) (p - 1)); [|lia].
    destruct (block_divides p) as [k Hk]. nia.
  - destruct (Z.ltb_spec (o_total o) (p + 1)); [lia|]. destruct (leaps s0); cbn [andb]; [|lia].
    destruct (Z.ltb_spec (p + 1) (o_total o - maxVisible s0)); [|lia]. destruct (maxVisible s0 =? 1)%Z; lia.
Qed.

(** What an item of the pager of page [p] must be: it leads to a page of the
    range; a number says where it leads; it is marked when that is [p]. *)
Definition item_ok (p : Z) (l : li) : Prop :=
  (1 <= lp l <= o_total o)%Z /\
  (is_control s0 l = false -> html l = str_of_num (lp l) /\ link l = href_of s0 (lp l)) /\
  (hasClass "active" l = true <-> is_control s0 l = false /\ lp l = p).

Lemma control_ok p c to off sh h t :
  In c ["first"; "prev"; "next"; "last"] -> (1 <= to <= o_total o)%Z ->
  item_ok p (Li to (marked c off) sh h t).
Proof.
  intros Hc Hto. unfold item_ok. rewrite control_marked by done. split; [done|]. split; [done|].
  split; [|by intros []]. simpl in Hc. by repeat destruct Hc as [<-|Hc]; try done; destruct off.
Qed.

Lemma number_ok vis p l :
  (0 <= vis)%Z -> l ∈ numbers s0 vis p -> shown l = true -> item_ok p l.
Proof.
  intros Hv Hl Hs. apply list_elem_of_In, in_map_iff in Hl as (c & <- & Hc).
  apply list_elem_of_In, elem_of_seqZ in Hc. apply Z.leb_le in Hs. simpl in Hs.
  split; [simpl; lia|]. split; [done|]. simpl.
  destruct (Z.eqb_spec c p) as [->|Hne]; [done|]. split; [done|]. by intros [_ ?].
Qed.

Lemma pager_item p l :
  (1 <= p <= o_total o)%Z -> l ∈ pager s0 tprev tnext p -> shown l = true -> item_ok p l.
Proof.
  intros Hp Hl Hs. destruct (targets_in_range p Hp) as [Ht1 Ht2].
  unfold pager, left_controls, right_controls in Hl.
  rewrite !elem_of_app, !elem_of_cons, elem_of_nil in Hl.
  destruct Hl as [[Hl|[->|[]]]|[Hl|[->|Hl]]].
  - destruct (firstLastUse s0); [|by apply elem_of_nil in Hl]. apply list_elem_of_singleton in Hl as ->.
    apply control_ok; [simpl; auto|lia].
  - apply control_ok; [simpl; auto|done].
  - eapply number_ok; [|exact Hl|exact Hs]. apply block_nonneg; lia.
  - apply control_ok; [simpl; auto|done].
  - destruct (firstLastUse s0); [|by apply elem_of_nil in Hl]. apply list_elem_of_singleton in Hl as ->.
    apply control_ok; [simpl; auto 10|]. change (total s0) with (o_total o). lia.
Qed.

(** The page itself is in its pager, and shown. *)
Lemma pager_has_page p :
  (1 <= p <= o_total o)%Z ->
  Li p ["active"] true (href_of s0 p) (str_of_num p) ∈ pager s0 tprev tnext p.
Proof.
  intros Hp. unfold pager. rewrite !elem_of_app. right. left. apply list_elem_of_In, in_map_iff.
  exists p. rewrite Z.eqb_refl. split; [|apply list_elem_of_In, elem_of_seqZ].
  - f_equal. apply Z.leb_le. simpl. lia.
  - pose proof (proj2 (block_spec p (block s0 p) ltac:(lia) (block_divides p)) eq_refl).
    change (total s0) with (o_total o). pose proof (block_nonneg p ltac:(lia)). lia.
Qed.

(** ** Histories *)

(** The states of a pager: opened, then clicks on items that are shown. *)
Inductive pager_reachable : settings -> list li -> Prop :=
| pr_open s items : bootpag o = Some (s, items) -> pager_reachable s items
| pr_click s items k l :
    pager_reachable s items -> items !! k = Some l -> shown l = true ->
    pager_reachable (paginationClick s items k).1 (paginationClick s items k).2.

Context (Hpage : (1 <= o_page o <= o_total o)%Z).

Lemma bootpag_opens : bootpag o = Some (s0, pager s0 tprev tnext (o_page o)).
Proof.
  unfold bootpag. change (total s0) with (o_total o). destruct (Z.leb_spec (o_total o) 0); [lia|].
  f_equal. change (renderPage s0 ?a ?b) with (renderPage (set_page s0 (o_page o)) a b).
  by rewrite renderPage_shape by auto using initial_shape.
Qed.

Lemma pager_invariant s items :
  pager_reachable s items ->
  (1 <= page s <= o_total o)%Z /\ s = set_page s0 (page s) /\ items = pager s0 tprev tnext (page s).
Proof.
  induction 1 as [s items Ho|s items k l _ (Hp & Hs & Hi) Hk Hl].
  - rewrite bootpag_opens in Ho. by simplify_eq.
  - unfold paginationClick. rewrite Hk. destruct (_ || _); [done|].
    assert (l ∈ items) as Hin by (by eapply list_elem_of_lookup_2). rewrite Hi in Hin.
    destruct (pager_item _ _ Hp Hin Hl) as [Hrange _].
    rewrite Hs, Hi, renderPage_shape; [done|apply pager_shape|done].
Qed.

(** C22: whatever is clicked, a pager with both arrows is exactly the pager of
    its current page, and clicking what leads to page [p] makes [p] that page. *)
Theorem pager_shows_page s items :
  pager_reachable s items ->
  s = set_page s0 (page s) /\ items = pager s0 tprev tnext (page s) /\
  forall k l, items !! k = Some l -> shown l = true ->
    hasClass "disabled" l = false -> hasClass "active" l = false ->
    paginationClick s items k = (set_page s0 (lp l), pager s0 tprev tnext (lp l)).
Proof.
  intros Hr. destruct (pager_invariant s items Hr) as (Hp & Hs & Hi). split; [done|]. split; [done|].
  intros k l Hk Hl Hd Ha. unfold paginationClick. rewrite Hk, Hs. simpl. rewrite Hd, Ha. simpl.
  assert (l ∈ items) as Hin by (by eapply list_elem_of_lookup_2). rewrite Hi in Hin |- *.
  rewrite renderPage_shape; [done|apply pager_shape|]. by apply (pager_item (page s)).
Qed.

(** in every state of such a pager, what is shown leads to a page of the
    range, a number is the page it leads to, and exactly the current page is
    marked. *)
Theorem pager_marks_page s items :
  pager_reachable s items ->
  (exists l, l ∈ items /\ shown l = true /\ hasClass "active" l = true) /\
  (forall l, l ∈ items -> shown l = true ->
    (1 <= lp l <= o_total o)%Z /\
    (is_control s l = false -> html l = str_of_num (lp l) /\ link l = href_of s (lp l)) /\
    (hasClass "active" l = true <-> is_control s l = false /\ lp l = page s)).
Proof.
  intros Hr. destruct (pager_invariant s items Hr) as (Hp & Hs & Hi). split.
  - eexists. split; [rewrite Hi; by apply pager_has_page|done].
  - intros l Hl Hsh. rewrite Hi in Hl. pose proof (pager_item _ _ Hp Hl Hsh) as Hok. by rewrite Hs.
Qed.
End pager.

(** ** The pages of the application *)

(** Between the first page and the last, [paginate] opens a pager whose
    arrows lead to the page before and the page after. *)
Theorem paginate_neighbours p t h :
  (1 < p < t)%Z ->
  exists o s items, paginate (Some p) t h = Some o /\ bootpag o = Some (s, items) /\
    items = pager (extend o) "«" "»" p /\
    prev_target s p = (p - 1)%Z /\ next_target s (block s p) p = (p + 1)%Z.
Proof.
  intros Hp. unfold paginate. destruct (Z.ltb_spec 1 t); [|lia].
  destruct (Z.ltb_spec p t); [|lia]. destruct (Z.ltb_spec 1 p); [|lia].
  set (o := Options t p (Some 10%Z) false h (Some "»") (Some "«") false).
  exists o, (extend o), (pager (extend o) "«" "»" p). split; [done|].
  split; [apply (bootpag_opens o); simpl; lia || done|]. split; [done|].
  unfold prev_target, next_target. simpl. split.
  - destruct (Z.ltb_spec (p - 1) 1); lia.
  - destruct (Z.ltb_spec t (p + 1)); lia.
Qed.

Lemma last_number_updated s vis t l x h text :
  firstLastUse s = false -> total s = t -> disabledClass s = "disabled" ->
  update_right s vis t (l ++ [Li x [] true h text])%list =
  (l ++ [Li t ["disabled"] true (href_of s t) text])%list.
Proof.
  intros Hf Ht Hd. unfold update_right, last_index, next_target. rewrite length_app, Hf, Ht, Hd. simpl.
  destruct (Z.ltb_spec t (t + 1)); [|lia]. rewrite Z.eqb_refl.
  replace (List.length l + 1)%nat with (S (List.length l + 0)) by lia. simpl. rewrite alter_app_r. simpl.
  rewrite length_app. simpl. replace (List.length l + 1 - 1)%nat with (List.length l + 0)%nat by lia.
  rewrite alter_app_r. done.
Qed.

(** A number that leads to the page is marked, whatever it reads. *)
Lemma present_page_marked s vis t l items x :
  l ∈ items -> is_page s t l = true -> x = addClass (activeClass s) l -> x ∈ update_numbers s vis t items.
Proof.
  intros Hl Hp ->. unfold update_numbers.
  assert (existsb (is_page s t) items = true) as ->.
  { apply existsb_exists. exists l. split; [by apply list_elem_of_In|done]. }
  apply list_elem_of_In, in_map_iff. exists l. rewrite Hp. split; [done|by apply list_elem_of_In].
Qed.

(** On the last page there is no arrow to the right, the last number takes
    its part: with more than ten pages, the item marked and leading to the last
    page reads 10. *)
Theorem paginate_last_page t h :
  (10 < t)%Z ->
  exists o s items l, paginate (Some t) t h = Some o /\ bootpag o = Some (s, items) /\
    l ∈ items /\ hasClass "active" l = true /\ lp l = t /\ html l = "10".
Proof.
  intros Ht. unfold paginate. destruct (Z.ltb_spec 1 t); [|lia]. destruct (Z.ltb_spec t t); [lia|].
  set (o := Options t t (Some 10%Z) false h None (Some "«") false). set (s := extend o).
  exists o. eexists _, _, (Li t ["disabled"; "active"] true (href_of s t) "10").
  split; [done|]. unfold bootpag. change (total (extend o)) with t. destruct (Z.leb_spec t 0); [lia|].
  split; [done|]. split; [|done].
  unfold renderPage. change (total (extend o)) with t. change (page (extend o)) with t.
  destruct (Z.ltb_spec t 0); [lia|]. destruct (Z.ltb_spec t t); [lia|].
  change (initial_items (extend o)) with
    (control s 1 "prev" "«" :: map (number s) (seqZ 1 (Z.min t 10)) ++ [])%list.
  rewrite Z.min_r, app_nil_r by lia.
  change (map (number s) (seqZ 1 10)) with (map (number s) (seqZ 1 9) ++ [number s 10])%list.
  generalize (map (number s) (seqZ 1 9)). intros nums.
  rewrite map_cons, map_app. unfold update_left. simpl.
  change (removeClass "active" (number s 10)) with (Li 10 [] true (href_of s 10) "10").
  rewrite app_comm_cons, last_number_updated by done.
  eapply present_page_marked; [apply elem_of_app; right; by apply list_elem_of_singleton| |done].
  unfold is_page. simpl. by rewrite Z.eqb_refl.
Qed.

(** ** Concrete cases: page 12 of 25, then a click on the arrow to the right *)

Definition ex_options : options := Options 25 12 (Some 10%Z) false "?page={{number}}" (Some "»") (Some "«") false.
Definition ex_open : settings * list li := default (extend ex_options, []) (bootpag ex_options).
Definition ex_next : settings * list li := paginationClick ex_open.1 ex_open.2 11.

Lemma ex_open_reachable : pager_reachable ex_options ex_open.1 ex_open.2.
Proof. apply pr_open. by vm_compute. Qed.

Lemma ex_next_reachable : pager_reachable ex_options ex_next.1 ex_next.2.
Proof. eapply pr_click; [apply ex_open_reachable|by vm_compute|done]. Qed.

Example ex_next_page : page ex_next.1 = 13%Z.
Proof. by vm_compute. Qed.

Lemma pager_shows_page_witness :
  ex_next.1 = set_page (extend ex_options) 13 /\
  ex_next.2 = pager (extend ex_options) "«" "»" 13 /\
  forall k l, ex_next.2 !! k = Some l -> shown l = true ->
    hasClass "disabled" l = false -> hasClass "active" l = false ->
    paginationClick ex_next.1 ex_next.2 k =
      (set_page (extend ex_options) (lp l), pager (extend ex_options) "«" "»" (lp l)).
Proof.
  exact (pager_shows_page ex_options "«" "»" eq_refl eq_refl ltac:(done) ltac:(done) ltac:(done) _ _
    ex_next_reachable).
Defined.

Lemma pager_marks_page_witness :
  (exists l, l ∈ ex_next.2 /\ shown l = true /\ hasClass "active" l = true) /\
  (forall l, l ∈ ex_next.2 -> shown l = true ->
    (1 <= lp l <= 25)%Z /\
    (is_control ex_next.1 l = false -> html l = str_of_num (lp l) /\ link l = href_of ex_next.1 (lp l)) /\
    (hasClass "active" l = true <-> is_control ex_next.1 l = false /\ lp l = page ex_next.1)).
Proof.
  exact (pager_marks_page ex_options "«" "»" eq_refl eq_refl ltac:(done) ltac:(done) ltac:(done) _ _
    ex_next_reachable).
Defined.

Lemma paginate_neighbours_witness :
  exists o s items, paginate (Some 12%Z) 25 "?page={{number}}" = Some o /\ bootpag o = Some (s, items) /\
    items = pager (extend o) "«" "»" 12 /\
    prev_target s 12 = 11%Z /\ next_target s (block s 12) 12 = 13%Z.
Proof. apply (paginate_neighbours 12 25 "?page={{number}}"). lia. Defined.

Lemma paginate_last_page_witness :
  exists o s items l, paginate (Some 25%Z) 25 "?page={{number}}" = Some o /\ bootpag o = Some (s, items) /\
    l ∈ items /\ hasClass "active" l = true /\ lp l = 25%Z /\ html l = "10".
Proof. apply (paginate_last_page 25 "?page={{number}}"). lia. Defined.
