(* ===== verification/Dom.v ===== *)
(** * What the pages do: calls of d3 and jQuery, as a trace

    A page draws by chains of calls on selections, [d3.select(sel).append(tag)
    .attr(name, v)...].  The model of such a statement is a [cmd]: where the
    selection starts, the calls made on it, the calls made on each element a
    data join enters, and the variable the resulting selection is kept in.  The
    functions of the page are translated to functions that return the trace of
    their statements, in order. *)

From Stdlib Require Import Ascii String QArith.
From S2P Require Import Prelude.
From S2P Require Import JsStrings.
From S2P Require Import Bootpag.

#[local] Open Scope string_scope.

(** A value given to [attr], [text], [html] or [style]. *)
Inductive val := Str (s : string) | Num (q : Q) | Arr (a : list string) | Null | Undefined.

Inductive op :=
| Append (tag : string)
| Insert (tag : string)
| Attr (name : string) (v : val)
| Text (v : val)
| Html (v : val)
| Style (name : string) (v : val)
| Classed (name : string) (b : bool)
| SelectIn (css : string)
| Call (what : string)
| Remove.

Inductive root := Sel (css : string) | All (css : string) | Var (x : string).

Record cmd := Cmd {
  on : root;
  ops : list op;
  rows : list (list op);
  bound : option string
}.

Inductive effect :=
| Dom (c : cmd)
| Tooltips (titles : list string)
| Pager (o : options)
| Warn
| Log (s : string).

(** [d3.select(css)] followed by calls. *)
Definition select (css : string) (l : list op) : effect := Dom (Cmd (Sel css) l [] None).
(** The same, on a selection kept in a variable. *)
Definition with_ (x : string) (l : list op) : effect := Dom (Cmd (Var x) l [] None).
Definition let_ (y : string) (r : root) (l : list op) : effect := Dom (Cmd r l [] (Some y)).
(** [x.selectAll(css).data(data).enter()] followed by calls, for each datum. *)
Definition join_ (x css : string) (l : list (list op)) : effect :=
  Dom (Cmd (Var x) [SelectIn css] l None).

Definition val_of_attr (v : attr) : val :=
  match v with AStr s => Str s | ANull => Null | AUndefined => Undefined end.
Definition val_of_option (v : option string) : val :=
  match v with Some s => Str s | None => Undefined end.

(** The message of an empty list. *)
Definition alert (place text : string) : effect :=
  select place [Text (Str ""); Insert "div"; Attr "class" (Str "alert alert-info"); Text (Str text)].

(** What a call does before it returns, or throws. *)
Definition out := (list effect * option string)%type.
Definition done_ (t : list effect) : out := (t, None).
Definition throw (e : string) : out := ([], Some e).
Definition seq (a b : out) : out :=
  match a.2 with Some _ => a | None => ((a.1 ++ b.1)%list, b.2) end.

Lemma seq_done a t : a.2 = None -> seq a (done_ t) = done_ (a.1 ++ t)%list.
Proof. intros H. unfold seq. by rewrite H. Qed.

(** ** Which elements a trace may select

    [ids_of] are the identifiers an effect gives to elements it creates;
    [scoped known] says that every selection of the document is of a place the
    page has, or of an element created before. *)

Fixpoint ids_of_ops (l : list op) : list string :=
  match l with
  | Attr "id" (Str i) :: l' => ("#" ++ i)%string :: ids_of_ops l'
  | _ :: l' => ids_of_ops l'
  | [] => []
  end.
Definition ids_of (e : effect) : list string :=
  match e with Dom c => (ids_of_ops (ops c) ++ concat (map ids_of_ops (rows c)))%list | _ => [] end.

Definition in_scope (known : list string) (e : effect) : bool :=
  match e with
  | Dom (Cmd (Sel css) _ _ _) | Dom (Cmd (All css) _ _ _) => existsb (String.eqb css) known
  | _ => true
  end.

Fixpoint scoped (known : list string) (t : list effect) : bool :=
  match t with
  | [] => true
  | e :: t' => in_scope known e && scoped (ids_of e ++ known)%list t'
  end.

Lemma in_scope_mono known known' e :
  (forall x, In x known -> In x known') -> in_scope known e = true -> in_scope known' e = true.
Proof.
  intros Hsub. destruct e as [[[css|css|x] l r b]|ts|o| |s]; simpl; try done;
    rewrite !existsb_exists; intros (x & Hx & E'); eauto.
Qed.

Lemma scoped_mono known known' t :
  (forall x, In x known -> In x known') -> scoped known t = true -> scoped known' t = true.
Proof.
  revert known known'. induction t as [|e t IH]; intros known known' Hsub; simpl; [done|].
  intros [H1 H2]%andb_true_iff. apply andb_true_iff. split; [by eapply in_scope_mono|].
  eapply IH; [|exact H2]. intros x. rewrite !in_app_iff. intros [?|?]; auto.
Qed.

Lemma scoped_app known t t' :
  scoped known t = true -> scoped known t' = true -> scoped known (t ++ t')%list = true.
Proof.
  revert known. induction t as [|e t IH]; intros known; simpl; [done|].
  intros [H1 H2]%andb_true_iff H3. rewrite H1. simpl. apply IH; [done|].
  eapply scoped_mono; [|exact H3]. intros x Hx. apply in_app_iff. by right.
Qed.

Lemma scoped_all known t : Forall (fun e => in_scope known e = true) t -> scoped known t = true.
Proof.
  intros Ht. induction Ht as [|e t He _ IH]; simpl; [done|]. rewrite He. simpl.
  eapply scoped_mono; [|exact IH]. intros x Hx. apply in_app_iff. by right.
Qed.

Lemma scoped_flat_map {A} known (f : A -> list effect) l :
  (forall a, scoped known (f a) = true) -> scoped known (flat_map f l) = true.
Proof. intros Hf. induction l as [|a l IH]; simpl; [done|]. by apply scoped_app. Qed.

(** The links under headings that a trace writes on a place: where they lead,
    and their text. *)
Definition heading (place : string) (e : effect) : option (val * val) :=
  match e with
  | Dom (Cmd (Sel css) [Append "h4"; Attr "class" (Str "work"); Append "a"; Attr "href" h; Html t] [] None) =>
      if String.eqb css place then Some (h, t) else None
  | _ => None
  end.
Definition headings (place : string) (t : list effect) : list (val * val) := omap (heading place) t.

Lemma headings_app place t t' : headings place (t ++ t')%list = (headings place t ++ headings place t')%list.
Proof. apply omap_app. Qed.

Lemma headings_skip place e t : heading place e = None -> headings place (e :: t) = headings place t.
Proof. intros He. unfold headings. simpl. by rewrite He. Qed.

Lemma headings_flat_map {A} place (f : A -> list effect) g l :
  (forall a, headings place (f a) = [g a]) -> headings place (flat_map f l) = map g l.
Proof. intros Hf. induction l as [|a l IH]; simpl; [done|]. by rewrite headings_app, Hf, IH. Qed.

(** ** What the pages use of d3 and [Date] *)

(** [d3.nest().key(key).entries(data)]: the data with each key, the keys in the
    order in which they first come (none of the keys used looks like an array
    index, which JavaScript would list first). *)
Fixpoint nest_insert {A} (k : string) (a : A) (l : list (string * list A)) : list (string * list A) :=
  match l with
  | [] => [(k, [a])]
  | (k', vs) :: l' => if String.eqb k k' then (k', (vs ++ [a])%list) :: l' else (k', vs) :: nest_insert k a l'
  end.
Definition nest {A} (key : A -> string) (data : list A) : list (string * list A) :=
  fold_left (fun l a => nest_insert (key a) a l) data [].

(** The keys of the data, each where it first comes. *)
Fixpoint distinct (l : list string) : list string :=
  match l with
  | [] => []
  | k :: l' => k :: List.filter (fun k' => negb (String.eqb k' k)) (distinct l')
  end.

Class D3 := {
  Date : Type;
  parse_date : string -> Date;
  formatYear : option Date -> string;
  formatMonthYear : option Date -> string;
  formatDate : option Date -> string;
  formatTime : Date -> string;
  formatWeek : Date -> Z;
  formatHour : Date -> Z;
  formatFixed : option Z -> string;
  formatPercent : option Q -> string;
  toFixed1 : Z -> Z -> string;
  getUTCFullYear : Date -> Z;
  date_below : Date -> Date -> bool
}.

(** The attributes of the element [#api_key], if the page has one. *)
Definition params := option (string -> attr).
Definition read_attr (p : params) (name : string) : attr :=
  match p with Some a => a name | None => AUndefined end.
(** [if (page === '') { page = 1; }] *)
Definition read_page (p : params) : attr :=
  match p with
  | Some a => if decide (a "data-page" = AStr "") then AStr "1" else a "data-page"
  | None => AUndefined
  end.

(** An instance for concrete cases: a date is its text. *)
Definition text_d3 : D3 := {|
  Date := string;
  parse_date s := s;
  formatYear d := default "" d;
  formatMonthYear d := default "" d;
  formatDate d := default "" d;
  formatTime d := d;
  formatWeek _ := 0%Z;
  formatHour _ := 0%Z;
  formatFixed c := match c with Some z => str_of_num z | None => "NaN" end;
  formatPercent _ := "%";
  toFixed1 a b := str_of_num (a / b);
  getUTCFullYear d := default 0%Z (to_number (String.substring 0 4 d));
  date_below a b := String.ltb a b
|}.

(** ** What [nest] returns *)

Lemma distinct_in l k : In k (distinct l) <-> In k l.
Proof.
  induction l as [|x l IH]; simpl; [done|]. rewrite filter_In, IH.
  destruct (String.eqb_spec k x) as [->|Hne]; simpl; naive_solver.
Qed.

Lemma distinct_NoDup l : List.NoDup (distinct l).
Proof.
  induction l as [|x l IH]; simpl; constructor.
  - rewrite filter_In. intros [_ Hx]. by rewrite String.eqb_refl in Hx.
  - by apply List.NoDup_filter.
Qed.

Lemma distinct_snoc l k : distinct (l ++ [k])%list = if existsb (String.eqb k) l then distinct l else (distinct l ++ [k])%list.
Proof.
  induction l as [|x l IH]; simpl; [done|]. rewrite IH. destruct (String.eqb_spec k x) as [->|Hne]; simpl.
  - destruct (existsb _ l); [done|]. rewrite List.filter_app. simpl. by rewrite String.eqb_refl, app_nil_r.
  - destruct (existsb _ l); [done|]. rewrite List.filter_app. simpl. by destruct (String.eqb_spec k x).
Qed.

Definition with_key {A} (key : A -> string) (data : list A) (k : string) : list A :=
  List.filter (fun a => String.eqb (key a) k) data.

Lemma nest_insert_map {A} (key : A -> string) data a ks :
  List.NoDup ks ->
  nest_insert (key a) a (map (fun k => (k, with_key key data k)) ks) =
  (map (fun k => (k, with_key key (data ++ [a]) k)) ks
   ++ if existsb (String.eqb (key a)) ks then [] else [(key a, [a])])%list.
Proof.
  assert (forall k, with_key key (data ++ [a]) k =
    if String.eqb (key a) k then (with_key key data k ++ [a])%list else with_key key data k) as Hw.
  { intros k. unfold with_key. rewrite List.filter_app. simpl. destruct (key a =? k); [done|apply app_nil_r]. }
  induction ks as [|k ks IH]; intros Hnd; simpl; [done|]. inversion Hnd as [|? ? Hk Hnd']; subst. rewrite Hw.
  destruct (String.eqb_spec (key a) k) as [E|Hne]; simpl; [|by rewrite IH].
  rewrite app_nil_r. f_equal. apply List.map_ext_in. intros k' Hk'. rewrite Hw.
  destruct (String.eqb_spec (key a) k'); [congruence|done].
Qed.

(** Each key once, with the data that have it. *)
Lemma nest_spec {A} (key : A -> string) data :
  nest key data = map (fun k => (k, with_key key data k)) (distinct (map key data)).
Proof.
  induction data as [|a data IH] using rev_ind; [done|].
  unfold nest in *. rewrite fold_left_app, IH, map_app. simpl.
  rewrite nest_insert_map by apply distinct_NoDup. rewrite distinct_snoc.
  assert (existsb (String.eqb (key a)) (distinct (map key data)) = existsb (String.eqb (key a)) (map key data)) as ->.
  { apply eq_true_iff_eq. rewrite !existsb_exists. by setoid_rewrite distinct_in. }
  destruct (existsb _ (map key data)) eqn:E; [by rewrite app_nil_r|].
  rewrite map_app. simpl. repeat f_equal. unfold with_key. rewrite List.filter_app. simpl. rewrite String.eqb_refl.
  assert (List.filter (fun b => key b =? key a) data = []) as ->; [|done].
  clear IH. induction data as [|b data IH]; simpl in *; [done|]. apply orb_false_iff in E as [E1 E2].
  rewrite String.eqb_sym, E1. by apply IH.
Qed.
