(* ===== verification/Pages.v ===== *)
(** * The pages that list works, references and recommendations

    [src/app/assets/javascripts/works/index.js], [works/recommendations.js],
    [works/references.js], [references/index.js] and [publishers/works.js], a
    Module each: the query sent to the API, the address the pager's links get,
    and the statements that fill the page.  [loaded] is the function each page
    gives to [await]. *)

From Stdlib Require Import Ascii String.
From S2P Require Import Prelude.
From S2P Require Import JsStrings.
From S2P Require Import Helpers.
From S2P Require Import Bootpag.
From S2P Require Import Dom.

#[local] Open Scope string_scope.

(** The JSON of a list; [works] is its array, [undefined] when missing. *)
Record listing := Listing {
  items : option (list work);
  meta_page : option Z;
  meta_total_pages : Z
}.

(** [typeof data === 'undefined' || data.length === 0] *)
Definition no_items {A} (data : option (list A)) : bool :=
  match data with Some (_ :: _) => false | _ => true end.

(** [paginate(json)], with the [href] the page has given it. *)
Definition paginate_effects (json : listing) (json_href : string) : list effect :=
  match paginate (meta_page json) (meta_total_pages json) json_href with
  | Some o =>
      [select "#content" [Append "div"; Attr "id" (Str "paginator"); Attr "class" (Str "text-center")];
       Pager o]
  | None => []
  end.

Definition val_of_shown (s : signposts_text) : val :=
  match s with ShownString s => Str s | ShownArray a => Arr a end.
Definition option_of_attr (v : attr) : option string :=
  match v with AStr s => Some s | ANull => Some "null" | AUndefined => None end.

Section entry.
Context `{D3}.

(** The heading, the date and the identifier of a work, which every list
    writes in the same way. *)
Definition work_entry (place : string) (w : work) : list effect :=
  let date_parts := issued w in
  let date := snd (datePartsToDate parse_date date_parts) in
  [select place [Append "h4"; Attr "class" (Str "work"); Append "a";
                 Attr "href" (Str ("/works/" ++ pathForWork (work_id w))); Html (Str (work_title w))];
   select place [Append "span"; Attr "class" (Str "date");
                 Text (Str (default "undefined"
                   (formattedDate formatYear formatMonthYear formatDate date (List.length date_parts)) ++ ". "))];
   select place [Append "a"; Attr "href" (val_of_option (work_id w)); Text (val_of_option (work_id w))]].

Definition signposts_entry (place : string) (w : work) (sources : list source) (source_id sort : option string) : effect :=
  select place [Append "p"; Text (val_of_shown (signpostsToString formatFixed w sources source_id sort))].

(** The relation of a work, as the two lists of references write it. *)
Definition relation_entry (w : work) (relation : list string) : list effect :=
  [select "#results" [Append "span"; Text (Str (default "undefined" (relation !! 0%nat) ++ " ")); Append "a";
                      Attr "href" (Str ("/works/" ++ pathForWork (related_work_id w)));
                      Html (val_of_option (related_work_id w))];
   select "#results" [Append "span"; Text (val_of_option (relation !! 1%nat))]].
End entry.

(** ** works/index.js *)

Module WorksIndex.
Section page.
Context `{D3} (p : params).

Definition page := read_page p.
Definition per_page := read_attr p "data-per_page".
Definition q := read_attr p "data-q".
Definition class_name := read_attr p "data-class_name".
Definition publisher_id := read_attr p "data-publisher_id".
Definition source_id := read_attr p "data-source_id".
Definition sort := read_attr p "data-sort".
Definition model := read_attr p "data-model".

Definition query : option string :=
  match p with
  | Some _ =>
      let query := encodeURI ("/api/works?page=" ++ str_of_attr page) in
      let query := add_param "per_page" per_page query in
      let query := add_param "q" q query in
      let query := add_param "class_name" class_name query in
      let query := add_param "publisher_id" publisher_id query in
      let query := add_param "source_id" source_id query in
      Some (add_param "sort" sort query)
  | None => None
  end.

Definition json_href : string :=
  let href := "?page={{number}}" in
  let href := add_param "q" q href in
  let href := add_param "class_name" class_name href in
  let href := if decide (model <> AStr "publisher") then add_param "publisher_id" publisher_id href else href in
  let href := add_param "source_id" source_id href in
  add_param "sort" sort href.

Definition worksViz (json : listing) (sources : list source) : list effect :=
  select "#loading-results" [Remove] ::
  (if no_items (items json) then
     alert "#content" "There are currently no works"
     :: (if decide (model = AStr "source") then [select "div#rss" [Remove]] else [])
   else
     select "#content" [Insert "div"; Attr "id" (Str "results")]
     :: flat_map (fun work =>
          work_entry "#results" work
          ++ [signposts_entry "#results" work sources (option_of_attr source_id) (option_of_attr sort)])
        (default [] (items json)))%list.

Definition loaded (error : bool) (s : list source) (w : listing) : list effect :=
  if error then [Warn]
  else (worksViz w s ++ (if decide (model <> AStr "source") then paginate_effects w json_href else []))%list.
End page.
End WorksIndex.

(** ** publishers/works.js

    [q] and [model] are variables of other scripts. *)

Module PublishersWorks.
Section page.
Context `{D3} (p : params) (q model : attr).

Definition page := read_page p.
Definition per_page := read_attr p "data-per_page".
Definition publisher_id := read_attr p "data-publisher_id".
Definition source_id := read_attr p "data-source_id".
Definition sort := read_attr p "data-sort".

Definition query : option string :=
  match p with
  | Some _ =>
      let query := encodeURI ("/api/publishers/" ++ str_of_attr publisher_id ++ "/works?page=" ++ str_of_attr page) in
      let query := add_param "per_page" per_page query in
      let query := add_param "source_id" source_id query in
      Some (add_param "sort" sort query)
  | None => None
  end.

Definition json_href : string :=
  let href := "?page={{number}}" in
  let href := add_param "q" q href in
  let href := if decide (model <> AStr "publisher") then add_param "publisher_id" publisher_id href else href in
  let href := add_param "source_id" source_id href in
  add_param "sort" sort href.

Definition worksViz (json : listing) (sources : list source) : list effect :=
  select "#loading-results" [Remove] ::
  (if no_items (items json) then
     alert "#content" "There are currently no works"
     :: (if decide (model = AStr "source") then [select "div#rss" [Remove]] else [])
   else
     select "#content" [Insert "div"; Attr "id" (Str "results")]
     :: flat_map (fun work =>
          work_entry "#results" work
          ++ [signposts_entry "#results" work sources (option_of_attr source_id) (option_of_attr sort)])
        (default [] (items json)))%list.

Definition loaded (error : bool) (s : list source) (w : listing) : list effect :=
  if error then [Warn] else (worksViz w s ++ paginate_effects w json_href)%list.
End page.
End PublishersWorks.

(** ** references/index.js *)

Module ReferencesIndex.
Section page.
Context `{D3} (p : params).

Definition page := read_page p.
Definition per_page := read_attr p "data-per_page".
Definition q := read_attr p "data-q".
Definition source_id := read_attr p "data-source_id".
Definition relation_type_id := read_attr p "data-relation_type_id".

Definition query : option string :=
  match p with
  | Some _ =>
      let query := encodeURI ("/api/references?page=" ++ str_of_attr page) in
      let query := add_param "per_page" per_page query in
      let query := add_param "q" q query in
      let query := add_param "source_id" source_id query in
      Some (add_param "relation_type_id" relation_type_id query)
  | None => None
  end.

Definition json_href : string :=
  let href := "?page={{number}}" in
  let href := add_param "q" q href in
  let href := add_param "relation_type_id" relation_type_id href in
  add_param "source_id" source_id href.

Definition eventsViz (json : listing) (sources : list source) (relation_types : list relation_type) : list effect :=
  select "#loading-results" [Remove] ::
  (if no_items (items json) then [alert "#content" "There are currently no references"]
   else
     select "#content" [Insert "div"; Attr "id" (Str "results")]
     :: flat_map (fun work =>
          let relation := relationToString work sources relation_types in
          work_entry "#results" work
          ++ [signposts_entry "#results" work sources None None]
          ++ relation_entry work relation
          ++ [signposts_entry "#results" work sources None None])
        (default [] (items json)))%list.

Definition loaded (error : bool) (s : list source) (r : list relation_type) (w : listing) : list effect :=
  if error then [Warn] else (eventsViz w s r ++ paginate_effects w json_href)%list.
End page.
End ReferencesIndex.

(** ** Lists of a work

    [_.uniq(data, 'id')] of lodash 4 ignores its second argument: it removes
    elements that are the same object, and the elements of a parsed JSON are
    different objects. *)

Definition uniq {A} (data : option (list A)) : list A := default [] data.

Module Recommendations.
Section page.
Context `{D3} (p : params).

Definition work_id := read_attr p "data-pid".
Definition page := read_page p.
Definition per_page := read_attr p "data-per_page".
Definition source_id := read_attr p "data-source_id".
Definition sort := read_attr p "data-sort".
Definition relation_type_id := read_attr p "data-relation_type_id".

Definition query : option string :=
  match p with
  | Some _ =>
      let query := encodeURI ("/api/works/" ++ pathForWork (option_of_attr work_id)
                              ++ "/recommendations?page=" ++ str_of_attr page) in
      let query := add_param "per_page" per_page query in
      let query := add_param "source_id" source_id query in
      Some (add_param "relation_type_id" relation_type_id query)
  | None => None
  end.

Definition json_href : string :=
  let href := "?page={{number}}" in
  let href := add_param "relation_type_id" relation_type_id href in
  add_param "source_id" source_id href.

Definition recommendationsViz (json : listing) (sources : list source) (relation_types : list relation_type)
    : list effect :=
  let data := uniq (items json) in
  select "#loading-recommendations" [Remove] ::
  (if no_items (Some data) then [alert "#content-recommendations" "There are currently no recommendations"]
   else
     select "#content-recommendations" [Insert "div"; Attr "id" (Str "results-recommendations")]
     :: flat_map (fun work =>
          work_entry "#results-recommendations" work
          ++ [signposts_entry "#results" work sources (option_of_attr source_id) (option_of_attr sort)])
        data)%list.

Definition loaded (error : bool) (s : list source) (r : list relation_type) (w : listing) : list effect :=
  if error then [Warn] else (recommendationsViz w s r ++ paginate_effects w json_href)%list.
End page.
End Recommendations.

(** ** works/references.js

    [sort] is a variable of another script. *)

Module References.
Section page.
Context `{D3} (p : params) (sort : attr).

Definition work_id := read_attr p "data-pid".
Definition page := read_page p.
Definition per_page := read_attr p "data-per_page".
Definition source_id := read_attr p "data-source_id".
Definition relation_type_id := read_attr p "data-relation_type_id".

Definition query : option string :=
  match p with
  | Some _ =>
      let query := encodeURI ("/api/works/" ++ pathForWork (option_of_attr work_id)
                              ++ "/references?page=" ++ str_of_attr page) in
      let query := add_param "per_page" per_page query in
      let query := add_param "source_id" source_id query in
      Some (add_param "relation_type_id" relation_type_id query)
  | None => None
  end.

Definition json_href : string :=
  let href := "?page={{number}}" in
  let href := add_param "relation_type_id" relation_type_id href in
  add_param "source_id" source_id href.

Definition eventsViz (json : listing) (sources : list source) (relation_types : list relation_type) : list effect :=
  let data := uniq (items json) in
  select "#loading-results" [Remove] ::
  (if no_items (Some data) then [alert "#content" "There are currently no references"]
   else
     (select "#content" [Insert "div"; Attr "id" (Str "results")]
      :: flat_map (fun work =>
           let relation := relationToString work sources relation_types in
           work_entry "#results" work
           ++ [signposts_entry "#results" work sources None None]
           ++ relation_entry work relation
           ++ [signposts_entry "#results" work sources (option_of_attr source_id) (option_of_attr sort)])
         data)
     ++ [select "div#rss" [Style "display" (Str "inline")]])%list.

Definition loaded (error : bool) (s : list source) (r : list relation_type) (w : listing) : list effect :=
  if error then [Warn] else (eventsViz w s r ++ paginate_effects w json_href)%list.
End page.
End References.

(** ** Queries *)

Lemma add_params_app ps s t : add_params ps (s ++ t) = s ++ add_params ps t.
Proof.
  unfold add_params. revert t. induction ps as [|[n v] ps IH]; intros t; simpl; [done|].
  unfold add_param at 2 4. destruct (decide _); [done|]. by rewrite str_app_assoc, IH.
Qed.

(** The link of page [c]. *)
Lemma number_replaced ps c :
  str_replace "{{number}}" c (add_params ps "?page={{number}}") = add_params ps ("?page=" ++ c).
Proof.
  change "?page={{number}}" with ("?page=" ++ "{{number}}").
  rewrite !add_params_app. rewrite <- (str_app_nil "{{number}}") at 2. rewrite <- (str_app_nil c) at 2.
  rewrite !add_params_app. generalize (add_params ps ""). intros rest.
  change ("?page=" ++ "{{number}}" ++ rest) with
    (String "?" (String "p" (String "a" (String "g" (String "e" (String "=" ("{{number}}" ++ rest))))))).
  by rewrite !str_replace_skip, str_replace_here.
Qed.

(** A query in the form [parse_add_params] reads. *)
Lemma parse_page_query path page ps :
  forallb uri_kept (list_ascii_of_string path) = true -> lacks "?" path = true ->
  lacks "&" page = true -> Forall (fun x => plain x = true) ps ->
  parse_query (add_params ps (encodeURI (path ++ "?page=" ++ page))) = ("page", encodeURI page) :: given ps.
Proof.
  intros Hpath Hq Hpage Hps. rewrite !encodeURI_app, (encodeURI_kept path) by done.
  change (encodeURI "?page=") with ("?" ++ "page" ++ "="). rewrite !str_app_assoc.
  apply parse_add_params; [done| |done]. unfold plain. simpl. by apply lacks_encodeURI.
Qed.

Lemma parse_link c ps :
  (0 <= c)%Z -> Forall (fun x => plain x = true) ps ->
  parse_query (str_replace "{{number}}" (str_of_num c) (add_params ps "?page={{number}}"))
  = ("page", str_of_num c) :: given ps.
Proof.
  intros Hc Hps. rewrite number_replaced. change ("?page=" ++ ?x) with ("" ++ "?" ++ "page" ++ "=" ++ x).
  apply parse_add_params; [done| |done]. unfold plain. simpl.
  by apply (lacks_digits "&" _ c 0); [apply to_number_str|].
Qed.

(** the list of works asks the API for its page and for exactly the
    filters that are set, and the links of the pager keep those filters, less
    the publisher on a publisher's own page. *)
Theorem works_filters a c :
  let p := Some a in
  let filters ps := map (fun name => (name, read_attr p ("data-" ++ name))) ps in
  lacks "&" (str_of_attr (WorksIndex.page p)) = true ->
  Forall (fun name => lacks "&" (str_of_attr (a ("data-" ++ name))) = true)
    ["per_page"; "q"; "class_name"; "publisher_id"; "source_id"; "sort"] ->
  (0 <= c)%Z ->
  (exists query, WorksIndex.query p = Some query /\
    parse_query query = ("page", encodeURI (str_of_attr (WorksIndex.page p)))
      :: given (filters ["per_page"; "q"; "class_name"; "publisher_id"; "source_id"; "sort"])) /\
  parse_query (str_replace "{{number}}" (str_of_num c) (WorksIndex.json_href p)) =
    ("page", str_of_num c) :: given (filters (
      if decide (WorksIndex.model p <> AStr "publisher") then ["q"; "class_name"; "publisher_id"; "source_id"; "sort"]
      else ["q"; "class_name"; "source_id"; "sort"])).
Proof.
  intros p filters Hpage Hps Hc.
  assert (forall names, (forall n, In n names ->
      In n ["per_page"; "q"; "class_name"; "publisher_id"; "source_id"; "sort"]) ->
    Forall (fun x => plain x = true) (filters names)) as Hplain.
  { intros names Hn. apply Forall_map, Forall_forall. intros n Hin%list_elem_of_In%Hn.
    rewrite Forall_forall in Hps. specialize (Hps n (proj2 (list_elem_of_In _ _) Hin)).
    unfold plain. cbn [fst snd]. unfold read_attr, p. rewrite Hps.
    simpl in Hin. by repeat destruct Hin as [<-|Hin]. }
  split.
  - eexists. split; [done|]. apply (parse_page_query "/api/works" (str_of_attr (WorksIndex.page p))
      (filters ["per_page"; "q"; "class_name"; "publisher_id"; "source_id"; "sort"])); try done. by apply Hplain.
  - unfold WorksIndex.json_href. destruct (decide (WorksIndex.model p <> AStr "publisher")).
    + apply (parse_link c (filters ["q"; "class_name"; "publisher_id"; "source_id"; "sort"])); [done|].
      apply Hplain. simpl. naive_solver.
    + apply (parse_link c (filters ["q"; "class_name"; "source_id"; "sort"])); [done|].
      apply Hplain. simpl. naive_solver.
Qed.

(** ** What the lists show *)

Definition item_heading (w : work) : val * val :=
  (Str ("/works/" ++ pathForWork (work_id w)), Str (work_title w)).

Section lists.
Context `{D3}.

Lemma entry_heading place w rest :
  headings place rest = [] -> headings place (work_entry place w ++ rest)%list = [item_heading w].
Proof.
  intros Hr. rewrite headings_app, Hr, app_nil_r. unfold headings. simpl. by rewrite String.eqb_refl.
Qed.

Lemma signposts_heading place place' w s a b : heading place (signposts_entry place' w s a b) = None.
Proof. done. Qed.

Lemma relation_headings w r : headings "#results" (relation_entry w r) = [].
Proof. done. Qed.

Lemma paginate_scoped known json href :
  In "#content" known -> scoped known (paginate_effects json href) = true.
Proof.
  intros Hk. unfold paginate_effects. destruct (paginate _ _ _); [|done]. simpl. rewrite !andb_true_r.
  apply existsb_exists. by exists "#content".
Qed.

(** every list shows each of its items once, in the order of the API,
    under a link to its page. *)
Theorem lists_show_items p model sort json s r :
  let shown := map item_heading (default [] (items json)) in
  headings "#results" (WorksIndex.worksViz p json s) = shown /\
  headings "#results" (PublishersWorks.worksViz p model json s) = shown /\
  headings "#results" (ReferencesIndex.eventsViz json s r) = shown /\
  headings "#results" (References.eventsViz p sort json s r) = shown /\
  headings "#results-recommendations" (Recommendations.recommendationsViz p json s r) = shown.
Proof.
  unfold WorksIndex.worksViz, PublishersWorks.worksViz, ReferencesIndex.eventsViz, References.eventsViz,
    Recommendations.recommendationsViz, uniq.
  destruct (items json) as [[|w l]|]; cbn [no_items default from_option id].
  2: { split_and!; rewrite !headings_skip, ?headings_app, ?headings_skip, ?app_nil_r by done;
       apply headings_flat_map; intros w'; by apply entry_heading. }
  all: by repeat destruct (decide _).
Qed.

(** no list but one selects an element that is not there: the places of
    the page, and what it has inserted itself. *)
Theorem lists_select_what_exists p model sort json s r :
  let known := ["#loading-results"; "#content"; "div#rss"] in
  scoped known (WorksIndex.loaded p false s json) = true /\
  scoped known (PublishersWorks.loaded p (AStr "") model false s json) = true /\
  scoped known (ReferencesIndex.loaded p false s r json) = true /\
  scoped known (References.loaded p sort false s r json) = true.
Proof.
  intros known.
  unfold WorksIndex.loaded, PublishersWorks.loaded, ReferencesIndex.loaded, References.loaded,
    WorksIndex.worksViz, PublishersWorks.worksViz, ReferencesIndex.eventsViz, References.eventsViz, uniq.
  split_and!; (apply scoped_app; [|by repeat destruct (decide _); try (apply paginate_scoped; simpl; auto)]).
  all: destruct (no_items _); [by repeat destruct (decide _)|].
  all: change (scoped known (?e :: ?t)) with (scoped known t).
  all: try (apply scoped_app; [|done]).
  all: change (scoped known (?e :: ?t)) with (scoped ("#results" :: known) t).
  all: apply scoped_flat_map; intros w; apply scoped_all; by repeat constructor.
Qed.

(** The recommendations of a work are listed in a place of their own, but
    their signposts are written in [#results], which the list does not make. *)
Theorem recommendations_write_elsewhere p json s r :
  no_items (items json) = false ->
  let known := ["#loading-recommendations"; "#content-recommendations"; "#content"] in
  scoped known (Recommendations.recommendationsViz p json s r) = false /\
  scoped ("#results" :: known) (Recommendations.loaded p false s r json) = true.
Proof.
  intros Hne known. unfold Recommendations.loaded, Recommendations.recommendationsViz, uniq.
  destruct (items json) as [[|w l]|]; [done| |done]. split; [done|].
  apply scoped_app; [|apply paginate_scoped; simpl; auto 10].
  change (scoped ("#results-recommendations" :: "#results" :: known) (flat_map (fun work =>
    work_entry "#results-recommendations" work
    ++ [signposts_entry "#results" work s (option_of_attr (Recommendations.source_id p))
          (option_of_attr (Recommendations.sort p))])%list (w :: l)) = true).
  apply scoped_flat_map. intros w'. apply scoped_all. by repeat constructor.
Qed.

(** Two recommendations with the same identifier are both shown: duplicates
    are not removed. *)
Theorem recommendations_keep_duplicates p w s r total_pages :
  headings "#results-recommendations"
    (Recommendations.recommendationsViz p (Listing (Some [w; w]) None total_pages) s r)
  = [item_heading w; item_heading w].
Proof.
  unfold Recommendations.recommendationsViz, uniq. cbn [items default from_option id no_items].
  rewrite !headings_skip by done. apply (headings_flat_map _ _ item_heading [w; w]).
  intros w'. by apply entry_heading.
Qed.
End lists.

(** The values of the query are not escaped: a search for a text with [&]
    in it sets a filter the user has not chosen. *)
Theorem search_text_sets_filters :
  exists a query, a "data-q" = AStr "cell&source_id=pmc" /\ a "data-source_id" = AStr "" /\
    WorksIndex.query (Some a) = Some query /\
    In ("source_id", "pmc") (parse_query query).
Proof.
  exists (fun name => if String.eqb name "data-q" then AStr "cell&source_id=pmc" else AStr "").
  eexists. do 3 (split; [done|]). vm_compute. auto.
Qed.

(** ** Concrete cases *)

Definition ex_attrs (name : string) : attr :=
  if String.eqb name "data-page" then AStr "3"
  else if String.eqb name "data-per_page" then AStr "15"
  else if String.eqb name "data-q" then AStr "cell" else AStr "".

Lemma works_filters_witness :
  WorksIndex.query (Some ex_attrs) = Some "/api/works?page=3&per_page=15&q=cell" /\
  (exists query, WorksIndex.query (Some ex_attrs) = Some query /\
    parse_query query = ("page", "3") :: given (map (fun name => (name, ex_attrs ("data-" ++ name)))
      ["per_page"; "q"; "class_name"; "publisher_id"; "source_id"; "sort"])) /\
  parse_query (str_replace "{{number}}" (str_of_num 7) (WorksIndex.json_href (Some ex_attrs))) =
    ("page", "7") :: given (map (fun name => (name, ex_attrs ("data-" ++ name)))
      ["q"; "class_name"; "publisher_id"; "source_id"; "sort"]).
Proof.
  split; [by vm_compute|].
  apply (works_filters ex_attrs 7); [by vm_compute|by repeat constructor|lia].
Defined.

Definition ex_work : work :=
  Work (Some "http://doi.org/10.5555/12345678") "A work" [PNum 2014; PNum 4] ∅ "crossref" "cites" None.

Lemma recommendations_write_elsewhere_witness :
  scoped ["#loading-recommendations"; "#content-recommendations"; "#content"]
    (@Recommendations.recommendationsViz text_d3 (Some ex_attrs) (Listing (Some [ex_work]) None 1) [] []) = false /\
  scoped ["#results"; "#loading-recommendations"; "#content-recommendations"; "#content"]
    (@Recommendations.loaded text_d3 (Some ex_attrs) false [] [] (Listing (Some [ex_work]) None 1)) = true.
Proof.
  apply (@recommendations_write_elsewhere text_d3 (Some ex_attrs) (Listing (Some [ex_work]) None 1) [] []).
  by vm_compute.
Defined.
