(* ===== verification/Charts.v ===== *)
(** * The charts: bars, horizontal bars, donuts

    [src/app/assets/javascripts/bar_chart.js] and [donut_chart.js].  The scales
    of d3 are parameters: a scale of numbers takes its domain and its range;
    a number is a rational, [None] is [NaN] (or [undefined]). *)

From Stdlib Require Import Ascii String QArith Qround Qabs Lqa.
From S2P Require Import Prelude.
From S2P Require Import JsStrings.
From S2P Require Import Helpers.
From S2P Require Import Bootpag.
From S2P Require Import Dom.

#[local] Open Scope string_scope.

Definition num := option Q.
Definition of_Z (z : Z) : num := Some (inject_Z z).
Definition num_sub (a b : num) : num := match a, b with Some a, Some b => Some (a - b)%Q | _, _ => None end.
Definition num_add (a b : num) : num := match a, b with Some a, Some b => Some (a + b)%Q | _, _ => None end.
Definition val_num (a : num) : val := match a with Some q => Num q | None => Str "NaN" end.
Definition nat_Q (n : nat) : Q := inject_Z (Z.of_nat n).

(** The scales, layouts and array functions of d3 the charts use. *)
Class Scales `{D3} := {
  linear : num * num -> Q * Q -> num -> num;
  linear_round : num * num -> Q * Q -> num -> num;
  log_scale : num * num -> Q * Q -> num -> num;
  time_round : Date * Date -> Q * Q -> Date -> num;
  bands : list string -> Q * Q -> string -> num;
  rangeBand : list string -> Q * Q -> Q;
  ordinal : list string -> list string -> string -> string;
  d3_max : list num -> num;
  d3_min : list num -> num;
  formatFixedQ : num -> string;
  pie_arcs : list num -> list string
}.

(** [numberWithDelimiter] as a text. *)
Definition delimited `{Scales} (v : num) : val :=
  match v with
  | Some q => if Qeq_bool q 0 then Null else Str (formatFixedQ v)
  | None => Str (formatFixedQ v)
  end.

Definition tr (x y : string) : val := Str ("translate(" ++ x ++ "," ++ y ++ ")").

(** ** bar_chart.js *)

Module Bar.
Section chart.
Context `{Scales}.

Definition width : Z := 250.
Definition height : Z := 100.

(** An entry of the nested data. *)
Record entry := Entry { key : string; values : string -> num }.

(** The variables of the page that loads the script. *)
Context (startDate endDate startTime : Date).

Definition x_scale (format : string) : Date -> num :=
  if String.eqb format "days" then time_round (startDate, endDate) (0%Q, inject_Z width)
  else time_round (startTime, endDate) (0%Q, inject_Z width).
Definition y_scale (data : list entry) (count format : string) : num -> num :=
  let vs := map (fun d => values d count) data in
  if String.eqb format "days" then linear_round (d3_min vs, d3_max vs) (inject_Z height, 0%Q)
  else linear_round (of_Z 0, d3_max vs) (inject_Z height, 0%Q).

Definition bar_class (format : string) (d : entry) : string :=
  if String.eqb format "days" then
    let weekNumber := formatWeek (parse_date (key d ++ "T12:00:00Z")) in
    if (weekNumber mod 2 =? 0)%Z then "bar viewed" else "bar viewed-alt"
  else
    let hour := formatHour (parse_date (key d ++ ":00:01Z")) in
    if ((11 <=? hour) && (hour <=? 22))%Z then "bar viewed-alt" else "bar viewed".

Definition bar_x (format : string) (d : entry) : num :=
  if String.eqb format "days" then x_scale format (parse_date (key d ++ "T12:00:00Z"))
  else x_scale format (parse_date (key d ++ ":00:00Z")).

Definition bar (data : list entry) (count format : string) (d : entry) : list op :=
  let y := y_scale data count format in
  [Append "rect";
   Attr "class" (Str (bar_class format d));
   Attr "x" (val_num (bar_x format d));
   Attr "width" (Num (inject_Z width / 30 - 1)%Q);
   Attr "y" (val_num (y (values d count)));
   Attr "height" (val_num (num_sub (of_Z height) (y (values d count))))].

(** Sizes are whole numbers of bytes. *)
Definition human (v : num) : string :=
  match v with
  | Some b => match numberToHumanSize toFixed1 (Qfloor b) with Ret s => s | _ => "" end
  | None => "NaN KB"
  end.

Definition bar_title (count format : string) (d : entry) : string :=
  let title :=
    if String.eqb count "db_size" then human (values d count)
    else if String.eqb count "requests_average" then formatFixedQ (values d count) ++ " ms"
    else formatFixedQ (values d count) in
  let dateString :=
    if String.eqb format "days" then " on " ++ formatDate (Some (parse_date (key d ++ "T12:00:00Z")))
    else " at " ++ formatTime (parse_date (key d ++ ":00:00Z")) in
  title ++ dateString.

Definition barViz (data : list entry) (div count format : string) : list effect :=
  [let_ "chart" (Sel div)
     [Append "svg"; Call "data"; Attr "width" (Num (inject_Z (5 + width + 10)));
      Attr "height" (Num (inject_Z (7 + height + 5))); Attr "class" (Str "chart barchart");
      Append "svg:g"; Attr "transform" (tr "5" "7")];
   join_ "chart" ".bar" (map (bar data count format) data);
   with_ "chart" [Append "g"; Attr "class" (Str "x axis"); Attr "transform" (tr "0" (str_of_num height)); Call "xAxis"];
   Tooltips (map (bar_title count format) data);
   select (div ++ "-loading") [Remove]].
End chart.
End Bar.

(** ** Horizontal bars *)

Module HBar.
Section chart.
Context `{Scales}.

Record entry := Entry { id : string; title : string; group_id : string; count : string -> num }.

Definition w : Z := 400.
Definition l : Z := 250.
Definition r : Z := 150.
Definition h : Z := 24.
Definition s : Z := 2.
Definition colors : list string := ["#1abc9c"; "#2ecc71"; "#3498db"; "#9b59b6"; "#34495e"; "#95a6a6"].

Definition charted (data : list entry) : list entry :=
  List.filter (fun d => negb (String.eqb (id d) "relativemetric")) data.

Definition x_scale (data : list entry) (name : string) : num -> num :=
  let vs := map (fun d => count d (name ++ "_count")) data in
  if String.eqb name "work" then linear (of_Z 0, d3_max vs) (0%Q, inject_Z w)
  else log_scale (Some (1 # 10), d3_max vs) (1%Q, inject_Z w).

Definition hBarViz (data : option (list entry)) (name : string) : list effect :=
  match data with
  | None => [select ("#" ++ name ++ "-loading") [Remove]]
  | Some data =>
      let data := charted data in
      let x := x_scale data name in
      let range := (0%Q, inject_Z (h + 2 * s) * nat_Q (List.length data))%Q in
      let y := bands (map title data) range in
      let half := (rangeBand (map title data) range / 2)%Q in
      let z := ordinal (map group_id data) colors in
      let v d := count d (name ++ "_count") in
      [let_ "chart" (Sel ("div#" ++ name ++ "-body"))
         [Append "svg"; Attr "width" (Num (inject_Z (w + l + r)));
          Attr "height" (Num (nat_Q (List.length data) * inject_Z (h + 2 * s) + 30)%Q);
          Attr "class" (Str "chart"); Append "g"; Attr "transform" (tr (str_of_num l) (str_of_num h))];
       join_ "chart" "text.labels" (map (fun d =>
         [Append "a"; Attr "xlink:href" (Str ("/sources/" ++ id d)); Append "text"; Attr "x" (Num 0);
          Attr "y" (val_num (num_add (y (title d)) (Some half))); Attr "dx" (Num (inject_Z (0 - l)));
          Attr "dy" (Str ".18em"); Text (Str (title d))]) data);
       join_ "chart" "rect" (map (fun d =>
         [Append "rect"; Attr "fill" (Str (z (group_id d))); Attr "y" (val_num (y (title d)));
          Attr "height" (Num (inject_Z h)); Attr "width" (val_num (x (v d)))]) data);
       join_ "chart" "text.values" (map (fun d =>
         [Append "text"; Attr "x" (val_num (x (v d)));
          Attr "y" (val_num (num_add (y (title d)) (Some half))); Attr "dx" (Num 5);
          Attr "dy" (Str ".18em");
          Text (delimited (v d))]) data);
       select ("#" ++ name ++ "-loading") [Remove]]
  end.
End chart.
End HBar.

(** ** donut_chart.js *)

Module Donut.
Section chart.
Context `{Scales}.

Record slice := Slice { key : string; value : num }.

Definition radius : Z := 80.

Definition donutViz (data : list slice) (div title subtitle : string) (colors : nat -> string) (items : string)
    : list effect :=
  [let_ "chart" (Sel div)
     [Append "svg"; Call "data"; Attr "width" (Num (inject_Z (radius * 2 + 50)));
      Attr "height" (Num (inject_Z (radius * 2))); Attr "class" (Str "chart donut"); Append "svg:g";
      Attr "transform" (tr (str_of_num (radius + 20)) (str_of_num radius))];
   let_ "arcs" (Var "chart") [SelectIn "g.slice"; Call "data"; Call "enter"; Append "svg:g"; Attr "class" (Str "slice")];
   Dom (Cmd (Var "arcs") [] (imap (fun i arc =>
     [Append "svg:path"; Attr "fill" (Str (colors i)); Attr "d" (Str arc)]) (pie_arcs (map value data))) None);
   Tooltips (map (fun d => formatFixedQ (value d) ++ " " ++ items ++ " " ++ str_replace "_" " " (key d)) data);
   with_ "chart" [Append "text"; Attr "dy" (Num 0); Attr "text-anchor" (Str "middle"); Attr "class" (Str "title");
                  Text (Str title)];
   with_ "chart" [Append "text"; Attr "dy" (Num 21); Attr "text-anchor" (Str "middle"); Attr "class" (Str "subtitle");
                  Text (Str subtitle)];
   select (div ++ "-loading") [Remove]].
End chart.
End Donut.

(** ** Bars are drawn to scale

    What the documentation of d3 says of [d3.max], [d3.min] and of a linear
    scale whose range goes down. *)

(** What the documentation of d3 says: [d3.max] and [d3.min] return the greatest and
    the least value of an array, and a linear scale with [rangeRound] maps a domain to
    a range in proportion, rounded to the nearest integer. *)
Section to_scale.
Context `{Scales}.
Context (max_upper : forall l a, In (Some a) l -> exists m, d3_max l = Some m /\ In (Some m) l /\ (a <= m)%Q).
Context (min_lower : forall l a, In (Some a) l -> exists m, d3_min l = Some m /\ In (Some m) l /\ (m <= a)%Q).
Context (linear_rounds : forall lo hi r a, (lo < hi)%Q -> (lo <= a <= hi)%Q ->
  exists z, linear_round (Some lo, Some hi) (r, 0%Q) (Some a) = Some (inject_Z z) /\
    (Qabs (inject_Z z - (r - r * ((a - lo) / (hi - lo)))) <= 1 # 2)%Q).

Fixpoint attr_num (name : string) (l : list op) : num :=
  match l with
  | Attr n (Num q) :: l' => if String.eqb n name then Some q else attr_num name l'
  | _ :: l' => attr_num name l'
  | [] => None
  end.

(** The domain of the vertical scale: up to the greatest value, and from the least
    one for days, from 0 for hours. *)
Record y_domain (data : list Bar.entry) (count format : string) (lo hi : Q) : Prop := YDomain {
  yd_top : exists d, In d data /\ Bar.values d count = Some hi;
  yd_upper : forall d a, In d data -> Bar.values d count = Some a -> (a <= hi)%Q;
  yd_bottom : if String.eqb format "days" then exists d, In d data /\ Bar.values d count = Some lo else lo = 0%Q;
  yd_lower : forall d a, In d data -> Bar.values d count = Some a -> (0 <= a)%Q -> (lo <= a)%Q;
  yd_scale : Bar.y_scale data count format = linear_round (Some lo, Some hi) (100%Q, 0%Q)
}.

Lemma y_scale_domain data count format d a :
  In d data -> Bar.values d count = Some a -> exists lo hi, y_domain data count format lo hi.
Proof.
  intros Hd Ha. set (vs := map (fun d => Bar.values d count) data).
  assert (forall d' a', In d' data -> Bar.values d' count = Some a' -> In (Some a') vs) as Hin.
  { intros d' a' Hd' <-. apply in_map_iff. eauto. }
  assert (forall m, In (Some m) vs -> exists d', In d' data /\ Bar.values d' count = Some m) as Hout.
  { intros m (d' & E & Hd')%in_map_iff. eauto. }
  destruct (max_upper vs a (Hin d a Hd Ha)) as (hi & Ehi & Hmax & _).
  destruct (min_lower vs a (Hin d a Hd Ha)) as (lo & Elo & Hmin & _).
  assert (forall d' a', In d' data -> Bar.values d' count = Some a' -> (a' <= hi)%Q /\ (lo <= a')%Q) as Hall.
  { intros d' a' Hd' Ha'. destruct (max_upper vs a' (Hin d' a' Hd' Ha')) as (hi' & Ehi' & _ & ?).
    destruct (min_lower vs a' (Hin d' a' Hd' Ha')) as (lo' & Elo' & _ & ?).
    assert (hi' = hi) as -> by congruence. assert (lo' = lo) as -> by congruence. done. }
  exists (if String.eqb format "days" then lo else 0%Q), hi.
  split; unfold Bar.y_scale; fold vs; rewrite ?Ehi, ?Elo; destruct (String.eqb format "days"); try done; naive_solver.
Qed.

(** Rounding to the nearest integer stays between integers, and keeps the order. *)
Lemma nearest_between (z a b : Z) x :
  (Qabs (inject_Z z - x) <= 1 # 2)%Q -> (inject_Z a <= x <= inject_Z b)%Q -> (a <= z <= b)%Z.
Proof.
  intros [Hl Hu]%Qabs_Qle_condition [Ha Hb]. split; apply Z.lt_succ_r; rewrite Zlt_Qlt; unfold Z.succ; rewrite inject_Z_plus; change (inject_Z 1) with 1%Q; lra.
Qed.

Lemma nearest_order (z w : Z) x y :
  (Qabs (inject_Z z - x) <= 1 # 2)%Q -> (Qabs (inject_Z w - y) <= 1 # 2)%Q -> (x < y)%Q -> (z <= w)%Z.
Proof.
  intros [Hzl Hzu]%Qabs_Qle_condition [Hwl Hwu]%Qabs_Qle_condition Hxy.
  apply Z.lt_succ_r. rewrite Zlt_Qlt. unfold Z.succ. rewrite inject_Z_plus. change (inject_Z 1) with 1%Q. lra.
Qed.

Lemma ratio_bound lo hi a : (lo < hi)%Q -> (lo <= a <= hi)%Q -> (0 <= (a - lo) / (hi - lo) <= 1)%Q.
Proof. intros Hlt Ha. split; [apply Qle_shift_div_l|apply Qle_shift_div_r]; lra. Qed.

Lemma ratio_order lo hi a b : (lo < hi)%Q -> (a < b)%Q -> ((a - lo) / (hi - lo) < (b - lo) / (hi - lo))%Q.
Proof. intros Hlt Hab. apply Qmult_lt_compat_r; [apply Qinv_lt_0_compat|]; lra. Qed.

(** One bar: its height is its share of the domain, rounded. *)
Lemma bar_height data count format lo hi d a st en ti :
  y_domain data count format lo hi -> (lo < hi)%Q -> (lo <= a <= hi)%Q -> Bar.values d count = Some a ->
  let row := Bar.bar st en ti data count format d in
  exists z, attr_num "y" row = Some (inject_Z z) /\ attr_num "height" row = Some (100 - inject_Z z)%Q /\
    (0 <= z <= 100)%Z /\ (Qabs (inject_Z z - (100 - 100 * ((a - lo) / (hi - lo)))) <= 1 # 2)%Q.
Proof.
  intros Hd Hlt Ha Hv row. destruct (linear_rounds lo hi 100 a Hlt Ha) as (z & Ez & Hz). exists z.
  pose proof (ratio_bound lo hi a Hlt Ha) as Hr. split_and!.
  - unfold row, Bar.bar. rewrite (yd_scale _ _ _ _ _ Hd), Hv, Ez. by destruct (Bar.bar_x _ _ _ _ _).
  - unfold row, Bar.bar. rewrite (yd_scale _ _ _ _ _ Hd), Hv, Ez. by destruct (Bar.bar_x _ _ _ _ _).
  - apply (nearest_between z 0 100 _ Hz). change (inject_Z 0) with 0%Q. change (inject_Z 100) with 100%Q. lra.
  - apply (nearest_between z 0 100 _ Hz). change (inject_Z 0) with 0%Q. change (inject_Z 100) with 100%Q. lra.
  - done.
Qed.

(** C23: in a bar chart with two different values, every bar stands on the horizontal
    axis, 100 pixels high at most, and is as high as its share of the range of values
    (from 0, or for days from the least one, to the greatest), but for half a pixel;
    of two bars the one of the greater value is not the smaller. *)
Theorem bars_to_scale data count format d1 d2 a1 a2 :
  In d1 data -> In d2 data ->
  Bar.values d1 count = Some a1 -> Bar.values d2 count = Some a2 -> (0 <= a1 < a2)%Q ->
  forall startDate endDate startTime,
  let row d := Bar.bar startDate endDate startTime data count format d in
  exists lo hi y1 h1 y2 h2, y_domain data count format lo hi /\
    attr_num "y" (row d1) = Some y1 /\ attr_num "height" (row d1) = Some h1 /\
    attr_num "y" (row d2) = Some y2 /\ attr_num "height" (row d2) = Some h2 /\
    (y1 + h1 == 100 /\ y2 + h2 == 100 /\ 0 <= h1 <= h2 /\ h2 <= 100)%Q /\
    (Qabs (h1 - 100 * ((a1 - lo) / (hi - lo))) <= 1 # 2)%Q /\
    (Qabs (h2 - 100 * ((a2 - lo) / (hi - lo))) <= 1 # 2)%Q.
Proof.
  intros Hd1 Hd2 Ha1 Ha2 [Hpos Hle] st en ti row.
  destruct (y_scale_domain data count format d1 a1 Hd1 Ha1) as (lo & hi & Hd).
  pose proof (yd_upper _ _ _ _ _ Hd d2 a2 Hd2 Ha2). pose proof (yd_lower _ _ _ _ _ Hd d1 a1 Hd1 Ha1 Hpos).
  destruct (bar_height data count format lo hi d1 a1 st en ti Hd ltac:(lra) ltac:(lra) Ha1) as (z1 & Ey1 & Eh1 & Hb1 & Hz1).
  destruct (bar_height data count format lo hi d2 a2 st en ti Hd ltac:(lra) ltac:(lra) Ha2) as (z2 & Ey2 & Eh2 & Hb2 & Hz2).
  pose proof (ratio_order lo hi a1 a2 ltac:(lra) Hle) as Hr.
  assert (z2 <= z1)%Z as Hz by (eapply (nearest_order z2 z1); [exact Hz2|exact Hz1|lra]).
  exists lo, hi, (inject_Z z1), (100 - inject_Z z1)%Q, (inject_Z z2), (100 - inject_Z z2)%Q.
  rewrite Zle_Qle in Hz. destruct Hb1 as [_ Hb1], Hb2 as [Hb2 _]. rewrite Zle_Qle in Hb1, Hb2.
  change (inject_Z 100) with 100%Q in Hb1. change (inject_Z 0) with 0%Q in Hb2.
  apply Qabs_Qle_condition in Hz1, Hz2. split_and!; try done; try lra; apply Qabs_Qle_condition; lra.
Qed.
End to_scale.

(** ** Concrete scales, which do what the documentation says *)

Definition pick (better : Q -> Q -> bool) (x acc : num) : num :=
  match x, acc with
  | Some a, Some b => Some (if better a b then a else b)
  | Some a, None => Some a
  | None, _ => acc
  end.
Definition extreme (better : Q -> Q -> bool) (l : list num) : num := fold_right (pick better) (None : num) l.

Lemma extreme_bound (better : Q -> Q -> bool) (R : Q -> Q -> Prop) l a :
  (forall a b, if better a b then R b a else R a b) -> (forall a, R a a) ->
  (forall a b c, R a b -> R b c -> R a c) ->
  In (Some a) l -> exists m, extreme better l = Some m /\ In (Some m) l /\ R a m.
Proof.
  intros Hb Hr Ht. revert a. induction l as [|x l IH]; intros a; simpl; [done|].
  destruct (extreme better l) as [b|] eqn:El.
  - assert (In (Some b) l) as Hin.
    { clear -El. revert b El. induction l as [|y l IH]; intros b; simpl; [done|].
      destruct y as [c|], (extreme better l) as [e|]; simpl; intros [= <-]; auto. destruct (better c e); auto. }
    assert (forall a, In (Some a) l -> R a b) as Hl.
    { intros c Hc. destruct (IH c Hc) as (m & [= <-] & _ & Hm). done. }
    destruct x as [c|]; simpl; [|intros [|Ha]; [done|]; exists b; auto].
    specialize (Hb c b). exists (if better c b then c else b). intros. split_and!; [done|destruct (better c b); auto|].
    destruct H as [[= ->]|Ha]; destruct (better _ b); eauto.
  - intros [->|Ha]; [simpl; eauto|]. by destruct (IH a Ha) as (m & ? & _).
Qed.

(** The position in the range, and [Math.round] of it. *)
Definition line_scale (d : num * num) (r : Q * Q) (v : num) : num :=
  match d, v with
  | (Some lo, Some hi), Some a => Some (r.1 + (r.2 - r.1) * ((a - lo) / (hi - lo)))%Q
  | _, _ => None
  end.
Definition round_scale (d : num * num) (r : Q * Q) (v : num) : num :=
  (fun x => inject_Z (Qfloor (x + (1 # 2)))) <$> line_scale d r v.

Lemma floor_nearest x y : (x == y + (1 # 2))%Q -> (Qabs (inject_Z (Qfloor x) - y) <= 1 # 2)%Q.
Proof.
  intros Hx. pose proof (Qfloor_le x) as Hl. pose proof (Qlt_floor x) as Hu. rewrite inject_Z_plus in Hu.
  change (inject_Z 1) with 1%Q in Hu. apply Qabs_Qle_condition. generalize dependent (inject_Z (Qfloor x)). intros z Hl Hu.
  rewrite Hx in Hl, Hu. split; lra.
Qed.

Lemma round_scale_nearest lo hi r a :
  exists z, round_scale (Some lo, Some hi) (r, 0%Q) (Some a) = Some (inject_Z z) /\
    (Qabs (inject_Z z - (r - r * ((a - lo) / (hi - lo)))) <= 1 # 2)%Q.
Proof. eexists. split; [done|]. apply floor_nearest. cbn [fst snd]. generalize ((a - lo) / (hi - lo))%Q. intros t. ring. Qed.

Definition text_scales : @Scales text_d3 := {|
  linear := line_scale;
  linear_round := round_scale;
  log_scale _ _ v := v;
  time_round _ _ _ := Some 0%Q;
  bands _ _ _ := Some 0%Q;
  rangeBand _ _ := 0%Q;
  ordinal _ _ s := s;
  d3_max := extreme (fun a b => Qle_bool b a);
  d3_min := extreme Qle_bool;
  formatFixedQ v := match v with Some q => str_of_num (Qfloor q) | None => "NaN" end;
  pie_arcs l := map (fun _ => "M0,0") l
|}.

Definition ex_entry (day : string) (value : Q) : Bar.entry := Bar.Entry day (fun _ => Some value).
Definition ex_entries : list Bar.entry :=
  [ex_entry "2015-01-01" 3; ex_entry "2015-01-02" 5; ex_entry "2015-01-03" 6].

Lemma Qle_bool_cases a b : if Qle_bool a b then (a <= b)%Q else (b <= a)%Q.
Proof.
  destruct (Qle_bool a b) eqn:E; [by apply Qle_bool_iff|].
  destruct (Qlt_le_dec b a) as [?|H]; [lra|]. apply Qle_bool_iff in H. congruence.
Qed.

(** The bar for 5 of 3 to 6 is rounded to 67 pixels. *)
Example ex_heights :
  map (fun d => attr_num "height" (@Bar.bar text_d3 text_scales "" "" "" ex_entries "works_count" "days" d)) ex_entries
  = [Some (0 # 1); Some (67 # 1); Some (100 # 1)]%Q.
Proof. by vm_compute. Qed.

Lemma bars_to_scale_witness :
  let row d := @Bar.bar text_d3 text_scales "" "" "" ex_entries "works_count" "days" d in
  exists lo hi y1 h1 y2 h2, @y_domain text_d3 text_scales ex_entries "works_count" "days" lo hi /\
    attr_num "y" (row (ex_entry "2015-01-01" 3)) = Some y1 /\ attr_num "height" (row (ex_entry "2015-01-01" 3)) = Some h1 /\
    attr_num "y" (row (ex_entry "2015-01-02" 5)) = Some y2 /\ attr_num "height" (row (ex_entry "2015-01-02" 5)) = Some h2 /\
    (y1 + h1 == 100 /\ y2 + h2 == 100 /\ 0 <= h1 <= h2 /\ h2 <= 100)%Q /\
    (Qabs (h1 - 100 * ((3 - lo) / (hi - lo))) <= 1 # 2)%Q /\ (Qabs (h2 - 100 * ((5 - lo) / (hi - lo))) <= 1 # 2)%Q.
Proof.
  apply (@bars_to_scale text_d3 text_scales) with (a1 := 3%Q) (a2 := 5%Q); try done; simpl; auto.
  - intros l a. apply (extreme_bound _ Qle); [|apply Qle_refl|apply Qle_trans].
    intros b c. apply Qle_bool_cases.
  - intros l a. apply (extreme_bound _ (fun x y => (y <= x)%Q)); [|apply Qle_refl|intros x y z ? ?; lra].
    intros b c. apply Qle_bool_cases.
  - intros lo hi r a _ _. apply round_scale_nearest.
Defined.
