(* ===== verification/AlmViz.v ===== *)
(** * ALMViz: the events of a work and of a source

    [src/app/assets/javascripts/works/events.js] and [sources/events.js].  The variables of
    the closure [AlmViz] are the arguments of a Section; [metricsFound_] and
    [$groupRow] are threaded. *)

From Stdlib Require Import Ascii String QArith.
From S2P Require Import Prelude.
From S2P Require Import JsStrings.
From S2P Require Import Helpers.
From S2P Require Import Bootpag.
From S2P Require Import Dom.
From S2P Require Import Charts.

#[local] Open Scope string_scope.

Inductive level := Year | Month | Day.
#[export] Instance level_eq_dec : EqDecision level.
Proof. solve_decision. Defined.

(** What the charts use of d3's time functions and of [Date]. *)
Class Times `{D3} := {
  now : Date;
  new_date : Z -> Z -> Z -> Date;
  range_length : level -> option Date -> Date -> Z;
  offset_days : option Date -> Z -> Date;
  floor_to : level -> option Date -> Date;
  year_ceil : Date -> Date;
  next_month : Date -> Date;
  time_linear : Date * Date -> Q * Q -> Date -> num;
  format_bin : level -> Date -> string;
  date_key : Date -> string;
  weekOfYear : Date -> Z;
  formatNumber : option Z -> string
}.

(** A bin of the history of a source: a year, a month or a day. *)
Record bin := Bin { year : Z; month : Z; day : Z; counts : string -> option Z }.

Definition num_of (v : option Z) : num := inject_Z <$> v.

(** [l.reduce(function(i, d) { return i + d[subgroup]; }, 0)]; [None] is [NaN]. *)
Definition sum_of (subgroup : string) (l : list bin) : option Z :=
  fold_left (fun i d => match i, counts d subgroup with Some a, Some b => Some (a + b)%Z | _, _ => None end) l (Some 0%Z).

Definition at_least (a : option Z) (b : Z) : bool := match a with Some a => (b <=? a)%Z | None => false end.
Definition positive (a : option Z) : bool := at_least a 1.

(** ** The chart of a source *)

Section chart.
Context `{Scales} `{!Times} (pub_date : option Date).

Definition viz_width : Z := 760 - 50 - 20.
Definition viz_height : Z := 115 - 10 - 5.

Definition getDate_ (lv : level) (d : bin) : Date :=
  match lv with
  | Year => new_date (year d) 0 1
  | Month => new_date (year d) (month d - 1) 1
  | Day => new_date (year d) (month d - 1) (day d)
  end.
Definition getFormattedDate_ (lv : level) (d : bin) : string := format_bin lv (getDate_ lv d).

Definition getViz_ (group : string) : list effect :=
  [let_ "viz.svg" (Var "$chartDiv")
     [Append "svg"; Attr "width" (Num (inject_Z (viz_width + 50 + 20)));
      Attr "height" (Num (inject_Z (viz_height + 10 + 5 + 1))); Append "g"; Attr "transform" (tr "50" "10")];
   let_ "viz.bars" (Var "viz.svg") [Append "g"];
   let_ "viz.barsForTooltips" (Var "viz.svg") [Append "g"];
   with_ "viz.svg" [Append "g"; Attr "class" (Str "x axis"); Attr "transform" (tr "0" (str_of_num viz_height))];
   with_ "viz.svg" [Append "g"; Attr "class" (Str "y axis")]].

(** [viz.z(level === 'day' ? d3.time.weekOfYear(getDate_(level, d)) : d.year)]:
    two classes in turn. *)
Definition bin_class (group : string) (lv : level) (data : list bin) (d : bin) : string :=
  let of_bin d := str_of_num (if decide (lv = Day) then weekOfYear (getDate_ lv d) else year d) in
  ordinal (map of_bin data) [group; group ++ "-alt"] (of_bin d).

(** [selection.data(level_data, key)] on an empty selection: of the bins with
    one key the first one enters. *)
Fixpoint entering (seen : list string) (lv : level) (data : list bin) : list bin :=
  match data with
  | [] => []
  | d :: data' =>
      let k := date_key (getDate_ lv d) in
      if existsb (String.eqb k) seen then entering seen lv data' else d :: entering (k :: seen) lv data'
  end.

(** The first drawing of [loadData_], when the chart has no bars;
    [end_date] is the end of the horizontal axis. *)
Definition draw (lv : level) (end_date : Date) (level_data : list bin) (group subgroup : string) : list effect :=
  let x := time_linear (floor_to lv pub_date, end_date) (0%Q, inject_Z viz_width) in
  let v d := num_of (counts d subgroup) in
  let y := linear (of_Z 0, d3_max (map v level_data)) (inject_Z viz_height, 0%Q) in
  let rawWidth := (inject_Z viz_width / inject_Z (range_length lv pub_date end_date + 1))%Q in
  let barWidth := (if Qle_bool (rawWidth - rawWidth / 5) 1 then 1 else rawWidth - rawWidth / 5)%Q in
  let bars := entering [] lv level_data in
  let each f := map f bars in
  [Dom (Cmd (Var "viz.barsForTooltips") [SelectIn ".barsForTooltip"; Call "data"; Call "exit"; Remove] [] None);
   Dom (Cmd (Var "viz.bars") [SelectIn ".bar"; Call "data"; Call "enter"] (each (fun d =>
     [Append "rect"; Attr "class" (Str ("bar " ++ bin_class group lv bars d));
      Attr "y" (Num (inject_Z viz_height)); Attr "height" (Num 0)])) None);
   Dom (Cmd (Var "viz.bars") [SelectIn ".bar"] (each (fun d =>
     [Attr "x" (val_num (num_add (x (getDate_ lv d)) (Some 2%Q))); Attr "width" (Num barWidth)])) None);
   Dom (Cmd (Var "viz.bars") [SelectIn ".bar"; Call "transition"; Call "duration(1000)"] (each (fun d =>
     [Attr "width" (Num barWidth); Attr "y" (val_num (y (v d)));
      Attr "height" (val_num (num_sub (of_Z viz_height) (y (v d))))])) None);
   with_ "viz.bars" [SelectIn ".bar"; Call "exit"; Call "transition"; Attr "y" (Num (inject_Z viz_height)); Attr "height" (Num 0)];
   with_ "viz.bars" [SelectIn ".bar"; Call "exit"; Remove];
   with_ "viz.svg" [SelectIn ".x.axis"; Call "viz.xAxis"];
   with_ "viz.svg" [Call "transition"; Call "duration(1000)"; SelectIn ".y.axis"; Call "viz.yAxis"];
   Dom (Cmd (Var "viz.barsForTooltips") [SelectIn ".barsForTooltip"; Call "enter"] (each (fun d =>
     [Append "rect"; Attr "class" (Str ("barsForTooltip " ++ bin_class group lv bars d))])) None);
   Dom (Cmd (Var "viz.barsForTooltips") [SelectIn ".barsForTooltip"] (each (fun d =>
     [Attr "width" (Num (barWidth + 2)%Q); Attr "x" (val_num (num_add (x (getDate_ lv d)) (Some 1%Q)));
      Attr "y" (val_num (num_sub (y (v d)) (Some 1%Q)));
      Attr "height" (val_num (num_add (num_sub (of_Z viz_height) (y (v d))) (Some 1%Q)))])) None);
   Tooltips (map (fun d => formatNumber (counts d subgroup) ++ " in " ++ getFormattedDate_ lv d) bars)].
End chart.

(** The ends of the pages' traces that say nothing was found. *)
Definition no_events : effect :=
  with_ "vizDiv" [Append "p"; Attr "class" (Str "text-muted"); Text (Str "No events found.")].
Definition group_row (group : string) : effect :=
  let_ "$groupRow" (Var "vizDiv") [Append "div"; Attr "class" (Str "alm-group"); Attr "id" (Str ("group-" ++ group))].

(** ** works/events.js *)

Module WorkEvents.

Record event := Event {
  ev_source_id : string;
  ev_html : option Z;
  ev_pdf : option Z;
  ev_total : option Z;
  events_url : option string;
  by_year : option (list bin);
  by_month : option (list bin);
  by_day : option (list bin)
}.

Section viz.
Context `{Scales} `{!Times}.
Context (hasSVG_ : bool) (pub_date : option Date) (sources_ : list source) (data : list event).

Definition minItems : Z := 1.

Definition getData_ (lv : level) (e : event) : option (list bin) :=
  match lv with Year => by_year e | Month => by_month e | Day => by_day e end.

(** Are there enough events and enough units of time for a level? *)
Definition show_level (lv : level) (e : event) (subgroup : string) : bool :=
  match getData_ lv e with
  | Some level_data =>
      at_least (sum_of subgroup level_data) minItems && (minItems <=? range_length lv pub_date now)%Z
  | None => false
  end.

Definition loadData_ (lv : level) (e : event) (group subgroup : string) : list effect :=
  let end_date := if decide (lv = Day) then offset_days pub_date 29 else year_ceil now in
  draw pub_date lv end_date (default [] (getData_ lv e)) group subgroup.

Definition level_control (active disabled : bool) (text : string) : effect :=
  with_ "$levelControlsDiv"
    [Append "a"; Attr "href" (Str "javascript:void(0)"); Classed "alm-control" true; Classed "disabled" disabled;
     Classed "active" active; Text (Str text); Call "on(click)"].
Definition separator : effect := with_ "$levelControlsDiv" [Append "text"; Text (Str " | ")].

Definition addSource_ (source : source) (label : string) (e : event) (total : option Z) (group subgroup : string)
    : list effect :=
  let id := source_id_ source in
  let count_ops := [Append "p"; Attr "class" (Str "alm-count"); Attr "id" (Str ("alm-count-" ++ id ++ "-" ++ group))] in
  let has_url := match events_url e with Some u => negb (String.eqb u "") | None => false end in
  let showYearly := show_level Year e subgroup in
  let showMonthly := show_level Month e subgroup in
  let showDaily := show_level Day e subgroup in
  let lv := if showYearly then Some Year else None in
  let lv := if showMonthly then Some Month else lv in
  let lv := if showDaily then Some Day else lv in
  ([let_ "$row" (Var "$groupRow")
      [Append "div"; Attr "class" (Str "alm-source"); Attr "id" (Str ("source-" ++ id ++ "-" ++ subgroup))];
    let_ "$countLabel" (Var "$row") [Append "div"; Attr "class" (Str ("alm-label " ++ group))];
    let_ "$count" (Var "$countLabel")
      (if has_url then count_ops ++ [Append "a"; Attr "href" (val_of_option (events_url e))] else count_ops)%list;
    with_ "$count" [Text (Str (formatNumber total))];
    if String.eqb id "pkpTimedViews" then with_ "$countLabel" [Append "p"; Text (Str label)]
    else with_ "$countLabel" [Append "p"; Append "a"; Attr "href" (Str ("" ++ "/sources/" ++ id)); Text (Str label)]]
   ++ match hasSVG_, lv with
      | true, Some lv =>
          [with_ "$row" [Attr "class" (Str "alm-source with-chart")];
           let_ "$chartDiv" (Var "$row") [Append "div"; Attr "class" (Str "alm-chart")]]
          ++ getViz_ group ++ loadData_ lv e group subgroup
          ++ [let_ "$levelControlsDiv" (Var "$chartDiv")
                [Append "div"; Attr "class" (Str "alm-control-label");
                 Attr "style" (Str ("width: " ++ str_of_num (50 + viz_width) ++ "px;"))]]
          ++ (if showDaily then [level_control (bool_decide (lv = Day)) (negb showDaily) "daily (first 30)"; separator] else [])
          ++ (if showMonthly then
                level_control (bool_decide (lv = Month)) (negb showMonthly || negb showYearly) "monthly"
                :: if showYearly then [separator] else []
              else [])
          ++ (if showYearly then
                [level_control (bool_decide (lv = Year)) (negb showYearly || negb showMonthly) "yearly"]
              else [])
      | _, _ => []
      end)%list.

(** The sources of a group that are viewed have two counts, the others one. *)
Definition add_counts (source : source) (e : event) (group : string) : list effect :=
  if String.eqb (source_group_id source) "viewed" then
    ((if positive (ev_html e) then addSource_ source (source_title source ++ " HTML") e (ev_html e) group "html" else [])
     ++ (if positive (ev_pdf e) then addSource_ source (source_title source ++ " PDF") e (ev_pdf e) group "pdf" else []))%list
  else addSource_ source (source_title source) e (ev_total e) group "total".

(** The body of the loop of [addGroup_]: [row] says that [$groupRow] is set,
    [found] is [metricsFound_]. *)
Definition add_source (group : string) (s : source) (st : out * bool * bool) : out * bool * bool :=
  let '(o, row, found) := st in
  match o.2 with
  | Some _ => st
  | None =>
      if negb (String.eqb (source_group_id s) group) then st
      else
        match List.find (fun d => String.eqb (ev_source_id d) (source_id_ s)) data with
        | None => (seq o (throw "TypeError"), row, found)
        | Some e =>
            if decide (ev_total e = Some 0%Z) then st
            else (seq o (done_ ((if row then [] else [group_row group]) ++ add_counts s e group)%list), true, true)
        end
  end.

Definition addGroup_ (group : string) (st : out * bool) : out * bool :=
  let '(o, found) := st in
  let '(o, _, found) := fold_left (fun st s => add_source group s st) sources_ (o, false, found) in
  (o, found).

Definition initViz (groups_ : list string) : out :=
  let start := done_ [with_ "vizDiv" [SelectIn "#loading"; Remove]] in
  let '(o, found) := fold_left (fun st g => addGroup_ g st) groups_ (start, false) in
  if (found : bool) then o else seq o (done_ [no_events]).
End viz.

(** The four requests, in the order in which the queue defers them. *)
Definition requests (p : params) : list (option string) :=
  let path := pathForWork (match read_attr p "data-pid" with AStr s => Some s | ANull => Some "null" | AUndefined => None end) in
  [Some (encodeURI ("/api/works/" ++ path)); Some (encodeURI "/api/sources"); Some (encodeURI "/api/groups");
   match p with Some _ => Some (encodeURI ("/api/works/" ++ path ++ "/events")) | None => None end].

(** [new AlmViz(options)] and the call of [initViz]: without data the
    constructor returns before it has set [initViz]. *)
Definition almviz `{Scales} `{!Times} (hasSVG : bool) (date_parts : list part) (sources : list source)
    (groups : list string) (almStatsJson : option (list event)) : out :=
  match almStatsJson with
  | Some ((_ :: _) as data) =>
      let pub_date := snd (datePartsToDate parse_date date_parts) in
      initViz hasSVG pub_date sources data (List.filter (fun d => negb (String.eqb d "other")) groups)
  | _ => seq (done_ [Log "Error: missing data"]) (throw "TypeError")
  end.

Definition loaded `{Scales} `{!Times} (hasSVG error : bool) (w : list part) (s : list source) (g : list string)
    (e : option (list event)) : out :=
  if error then done_ [Warn] else almviz hasSVG w s g e.
End WorkEvents.

(** ** sources/events.js

    The data are the months of the source.  [addSource_] passes a variable
    [events] that the script does not declare: [events_declared] says whether
    something else has.  On the page of a source it is the element of that id,
    which is a property of [window]. *)

Module SourceEvents.

(** [d3.sum(data, function(g) { return g[name]; })] leaves out what is not a number. *)
Definition d3_sum (name : string) (data : list bin) : Z :=
  fold_right (fun d acc => default 0 (counts d name) + acc)%Z 0%Z data.

Section viz.
Context `{Scales} `{!Times}.
Context (hasSVG_ events_declared : bool) (pub_date : option Date) (data : list bin).

Definition minItems : Z := 1.

Definition loadData_ (lv : level) (group subgroup : string) : list effect :=
  draw pub_date lv (year_ceil now) data group subgroup.

Definition showMonthly (subgroup : string) : bool :=
  at_least (sum_of subgroup data) minItems && (minItems <=? range_length Month pub_date (next_month now))%Z.

Definition addSource_ (source : source) (label : string) (total : Z) (group subgroup : string) : out :=
  let id := source_id_ source in
  seq (done_
    [let_ "$row" (Var "$groupRow")
       [Append "div"; Attr "class" (Str "alm-source"); Attr "id" (Str ("source-" ++ id ++ "-" ++ subgroup))];
     let_ "$countLabel" (Var "$row") [Append "div"; Attr "class" (Str ("alm-label " ++ group))];
     let_ "$count" (Var "$countLabel")
       [Append "p"; Attr "class" (Str "alm-count"); Attr "id" (Str ("alm-count-" ++ id ++ "-" ++ group))];
     with_ "$count" [Text (Str (formatNumber (Some total)))];
     with_ "$countLabel" [Append "p"; Text (Str label)]])
  (if hasSVG_ && showMonthly subgroup then
     seq (done_
       [with_ "$row" [Attr "class" (Str "alm-source with-chart")];
        let_ "$chartDiv" (Var "$row") [Append "div"; Attr "class" (Str "alm-chart")]])
     (if events_declared then done_ (getViz_ group ++ loadData_ Month group subgroup)%list
      else throw "ReferenceError")
   else done_ []).

(** The counts shown, in order. *)
Definition subgroups : list (string * string) :=
  [("HTML", "html"); ("PDF", "pdf"); ("Readers", "readers"); ("Comments", "comments"); ("Likes", "likes"); ("Total", "total")].

(** The outcome, and [metricsFound_]. *)
Definition addGroup_ (group : string) (source : source) (found : bool) : out * bool :=
  if negb (String.eqb (source_group_id source) group) then (done_ [], found)
  else if (d3_sum "total" data =? 0)%Z then (done_ [], found)
  else
    (fold_left (fun o '(label, subgroup) =>
       let v := d3_sum subgroup data in
       if (0 <? v)%Z then seq o (addSource_ source label v group subgroup) else o)
     subgroups (done_ [group_row group]), true).

Definition initViz (groups_ : list string) (source : source) : out :=
  let start := done_ [with_ "vizDiv" [SelectIn "#loading"; Remove]] in
  let '(o, found) := fold_left (fun '(o, found) g =>
    match o.2 with
    | Some _ => (o, found)
    | None => let '(o', found') := addGroup_ g source found in (seq o o', found')
    end) groups_ (start, false) in
  match o.2 with
  | Some _ => o
  | None => if (found : bool) then o else seq o (done_ [no_events])
  end.
End viz.

Definition requests (p : params) : list (option string) :=
  let source_id := str_of_attr (read_attr p "data-name") in
  [Some (encodeURI ("/api/sources/" ++ source_id)); Some (encodeURI "/api/groups");
   match p with Some _ => Some (encodeURI ("/api/sources/" ++ source_id ++ "/months")) | None => None end].

Definition almviz `{Scales} `{!Times} (hasSVG events_declared : bool) (source : source) (groups : list string)
    (almStatsJson : option (list bin)) : out :=
  match almStatsJson with
  | Some ((first :: _) as data) =>
      let pub_date := snd (datePartsToDate parse_date [PNum (year first); PNum (month first)]) in
      initViz hasSVG events_declared pub_date data groups source
  | _ => seq (done_ [Log "Error: missing data"]) (throw "TypeError")
  end.

Definition loaded `{Scales} `{!Times} (hasSVG events_declared error : bool) (s : source) (g : list string)
    (m : option (list bin)) : out :=
  if error then done_ [Warn] else almviz hasSVG events_declared s g m.
End SourceEvents.

(** ** Which sources get a row *)

Definition row_id (e : effect) : option string :=
  match e with
  | Dom (Cmd (Var "$groupRow") [Append "div"; Attr "class" (Str "alm-source"); Attr "id" (Str i)] [] (Some "$row")) => Some i
  | _ => None
  end.
Definition rows_of (t : list effect) : list string := omap row_id t.

Definition says_none (e : effect) : bool :=
  match e with
  | Dom (Cmd (Var "vizDiv") [Append "p"; Attr "class" _; Text (Str "No events found.")] [] None) => true
  | _ => false
  end.

Lemma rows_app t t' : rows_of (t ++ t')%list = (rows_of t ++ rows_of t')%list.
Proof. apply omap_app. Qed.

Section work_events.
Context `{Scales} `{!Times}.
Context (hasSVG : bool) (pub_date : option Date) (sources : list source) (data : list WorkEvents.event).

Definition entry_of (s : source) : option WorkEvents.event :=
  List.find (fun d => String.eqb (WorkEvents.ev_source_id d) (source_id_ s)) data.

(** The counts a source is shown with. *)
Definition shown_counts (s : source) (e : WorkEvents.event) : list string :=
  if String.eqb (source_group_id s) "viewed" then
    ((if positive (WorkEvents.ev_html e) then ["html"] else [])
     ++ (if positive (WorkEvents.ev_pdf e) then ["pdf"] else []))%list
  else ["total"].

Definition source_rows (s : source) : list string :=
  match entry_of s with
  | Some e =>
      if decide (WorkEvents.ev_total e = Some 0%Z) then []
      else map (fun c => "source-" ++ source_id_ s ++ "-" ++ c) (shown_counts s e)
  | None => []
  end.
Definition of_group (group : string) : list source :=
  List.filter (fun s => String.eqb (source_group_id s) group) sources.
Definition has_events (s : source) : bool :=
  match entry_of s with Some e => bool_decide (WorkEvents.ev_total e <> Some 0%Z) | None => false end.

Lemma draw_rows lv end_date bins group subgroup : rows_of (draw pub_date lv end_date bins group subgroup) = [].
Proof. done. Qed.

Lemma addSource_rows s label e total group c :
  rows_of (WorkEvents.addSource_ hasSVG pub_date s label e total group c) = ["source-" ++ source_id_ s ++ "-" ++ c].
Proof.
  unfold WorkEvents.addSource_. rewrite rows_app.
  assert (forall t, rows_of t = [] -> forall u, (u ++ rows_of t)%list = u) as Hnil by (intros t -> u; apply app_nil_r).
  rewrite Hnil; [by destruct (_ =? _)|].
  destruct hasSVG; [|done]. destruct (WorkEvents.show_level _ Year _ _), (WorkEvents.show_level _ Month _ _),
    (WorkEvents.show_level _ Day _ _); try done; rewrite !rows_app; by destruct (WorkEvents.getData_ _ _).
Qed.

Lemma add_counts_rows s e group :
  rows_of (WorkEvents.add_counts hasSVG pub_date s e group) =
  map (fun c => "source-" ++ source_id_ s ++ "-" ++ c) (shown_counts s e).
Proof.
  unfold WorkEvents.add_counts, shown_counts. destruct (source_group_id s =? "viewed"); [|by rewrite addSource_rows].
  rewrite rows_app. destruct (positive (WorkEvents.ev_html e)), (positive (WorkEvents.ev_pdf e));
    by rewrite ?addSource_rows.
Qed.

(** No part of a row says that nothing was found. *)
Lemma add_counts_says s e group : existsb says_none (WorkEvents.add_counts hasSVG pub_date s e group) = false.
Proof.
  assert (forall label total c, existsb says_none (WorkEvents.addSource_ hasSVG pub_date s label e total group c) = false) as Ha.
  { intros label total c. unfold WorkEvents.addSource_. rewrite existsb_app. apply orb_false_iff. split; [by destruct (_ =? _)|].
    destruct hasSVG; [|done]. destruct (WorkEvents.show_level _ Year _ _), (WorkEvents.show_level _ Month _ _),
      (WorkEvents.show_level _ Day _ _); try done; rewrite !existsb_app; by destruct (WorkEvents.getData_ _ _). }
  unfold WorkEvents.add_counts. destruct (source_group_id s =? "viewed"); [|by rewrite Ha].
  rewrite existsb_app. destruct (positive (WorkEvents.ev_html e)), (positive (WorkEvents.ev_pdf e)); by rewrite ?Ha.
Qed.

(** The state of the page after the sources [l] have been gone through. *)
Definition page_ok (o0 o : out) (l : list source) : Prop :=
  o.2 = None /\ rows_of o.1 = (rows_of o0.1 ++ flat_map source_rows l)%list /\
  existsb says_none o.1 = existsb says_none o0.1.

Lemma page_ok_trans o0 o1 o2 l l' : page_ok o0 o1 l -> page_ok o1 o2 l' -> page_ok o0 o2 (l ++ l')%list.
Proof.
  intros (_ & Hr & Hs) (Hn & Hr' & Hs'). split; [done|]. split; [|by rewrite Hs'].
  by rewrite Hr', Hr, flat_map_app, app_assoc.
Qed.

Lemma add_source_ok group s o row found :
  o.2 = None -> (source_group_id s = group -> entry_of s <> None) ->
  let '(o', row', found') := WorkEvents.add_source hasSVG pub_date data group s (o, row, found) in
  page_ok o o' (List.filter (fun s => String.eqb (source_group_id s) group) [s]) /\
  found' = found || existsb has_events (List.filter (fun s => String.eqb (source_group_id s) group) [s]).
Proof.
  intros Ho He. unfold WorkEvents.add_source. rewrite Ho. simpl.
  destruct (String.eqb_spec (source_group_id s) group) as [Hg|Hg]; simpl.
  2: { split; [|by rewrite orb_false_r]. split; [done|]. by rewrite app_nil_r. }
  unfold page_ok. simpl. rewrite app_nil_r, orb_false_r. specialize (He Hg).
  unfold source_rows, has_events. fold (entry_of s). destruct (entry_of s) as [e|]; [|done].
  destruct (decide (WorkEvents.ev_total e = Some 0%Z)) as [E|E].
  - rewrite bool_decide_eq_false_2, app_nil_r, orb_false_r by auto. done.
  - rewrite bool_decide_eq_true_2, orb_true_r by done. rewrite seq_done by done. simpl.
    rewrite !rows_app, !existsb_app, add_counts_rows, add_counts_says, orb_false_r.
    split; [|done]. split; [done|]. by destruct row; rewrite ?orb_false_r.
Qed.

Lemma group_ok group l o row found :
  o.2 = None -> (forall s, In s l -> source_group_id s = group -> entry_of s <> None) ->
  let '(o', row', found') :=
    fold_left (fun st s => WorkEvents.add_source hasSVG pub_date data group s st) l (o, row, found) in
  page_ok o o' (List.filter (fun s => String.eqb (source_group_id s) group) l) /\
  found' = found || existsb has_events (List.filter (fun s => String.eqb (source_group_id s) group) l).
Proof.
  revert o row found. induction l as [|s l IH]; intros o row found Ho He.
  { simpl. rewrite orb_false_r. split; [|done]. split; [done|]. by rewrite app_nil_r. }
  cbn [fold_left]. pose proof (add_source_ok group s o row found Ho (He s (or_introl eq_refl))) as Hs.
  destruct (WorkEvents.add_source _ _ _ _ _ _) as [[o1 row1] found1]. destruct Hs as [Hp Hf].
  specialize (IH o1 row1 found1 (proj1 Hp) (fun s' Hin => He s' (or_intror Hin))).
  destruct (fold_left _ l _) as [[o2 row2] found2]. destruct IH as [Hp' ->].
  rewrite Hf. change (s :: l) with ([s] ++ l)%list. rewrite List.filter_app, existsb_app, orb_assoc.
  split; [by eapply page_ok_trans|done].
Qed.

(** C24: when the API has an entry for every source of the groups shown, the
    page draws a row for each of their sources that has events, group by group
    (two or one for a source of views, by the kinds it has), and says that none
    were found exactly when no source has any. *)
Theorem work_events_shown groups :
  (forall g s, In g groups -> In s sources -> source_group_id s = g -> entry_of s <> None) ->
  let o := WorkEvents.initViz hasSVG pub_date sources data groups in
  o.2 = None /\
  rows_of o.1 = flat_map source_rows (flat_map of_group groups) /\
  existsb says_none o.1 = negb (existsb has_events (flat_map of_group groups)).
Proof.
  intros He. unfold WorkEvents.initViz.
  set (start := done_ _).
  assert (forall gs o found, (forall g, In g gs -> In g groups) -> o.2 = None ->
    let '(o', found') := fold_left (fun st g => WorkEvents.addGroup_ hasSVG pub_date sources data g st) gs (o, found) in
    page_ok o o' (flat_map of_group gs) /\ found' = found || existsb has_events (flat_map of_group gs)) as Hall.
  { induction gs as [|g gs IH]; intros o found Hsub Ho.
    { simpl. rewrite orb_false_r. split; [|done]. split; [done|]. by rewrite app_nil_r. }
    cbn [fold_left WorkEvents.addGroup_ flat_map].
    pose proof (group_ok g sources o false found Ho (fun s => He g s (Hsub g (or_introl eq_refl)))) as Hg.
    destruct (fold_left _ sources _) as [[o1 row1] found1]. destruct Hg as [Hp Hf].
    specialize (IH o1 found1 (fun g' Hin => Hsub g' (or_intror Hin)) (proj1 Hp)).
    destruct (fold_left _ gs _) as [o2 found2]. destruct IH as [Hp' ->].
    rewrite Hf, existsb_app, orb_assoc. split; [by eapply page_ok_trans|done]. }
  specialize (Hall groups start false (fun g Hin => Hin) eq_refl).
  destruct (fold_left _ groups _) as [o found]. destruct Hall as [(Hn & Hr & Hs) ->]. cbn zeta. simpl in *.
  destruct (existsb has_events _); simpl; [done|].
  rewrite seq_done by done. simpl. by rewrite rows_app, existsb_app, Hr, Hs, app_nil_r.
Qed.

(** What stops the page stays. *)
Definition stopped (o : out) : Prop := o.2 = Some "TypeError".

Lemma add_source_stops group s o row found :
  o.2 = None \/ stopped o ->
  let o' := (WorkEvents.add_source hasSVG pub_date data group s (o, row, found)).1.1 in
  (o'.2 = None \/ stopped o') /\ (stopped o -> stopped o') /\
  (source_group_id s = group -> entry_of s = None -> stopped o').
Proof.
  unfold WorkEvents.add_source, stopped. intros [Ho|Ho]; rewrite Ho; simpl.
  2: { split_and!; auto. }
  destruct (String.eqb_spec (source_group_id s) group) as [Hg|Hg]; simpl; [|split_and!; auto; congruence].
  fold (entry_of s). destruct (entry_of s) as [e|]; simpl.
  - destruct (decide _); simpl; [|rewrite seq_done by done]; split_and!; auto; congruence.
  - unfold seq. rewrite Ho. split_and!; auto.
Qed.

Lemma group_stops group l o row found :
  o.2 = None \/ stopped o ->
  let o' := (fold_left (fun st s => WorkEvents.add_source hasSVG pub_date data group s st) l (o, row, found)).1.1 in
  (o'.2 = None \/ stopped o') /\ (stopped o -> stopped o') /\
  (forall s, In s l -> source_group_id s = group -> entry_of s = None -> stopped o').
Proof.
  revert o row found. induction l as [|x l IH]; intros o row found Ho; [simpl; naive_solver|].
  cbn [fold_left]. pose proof (add_source_stops group x o row found Ho) as Hx.
  destruct (WorkEvents.add_source _ _ _ _ _ _) as [[o1 row1] found1]. simpl in Hx.
  destruct Hx as (Hok & Hx1 & Hx2). destruct (IH o1 row1 found1 Hok) as (Hok' & Hl1 & Hl2).
  split; [exact Hok'|]. split; [by auto|]. intros s [<-|Hin] Hg He; [by apply Hl1, Hx2|by apply (Hl2 s)].
Qed.

(** A source of a shown group for which the API has no entry stops the
    page: what comes after it is not drawn. *)
Theorem work_events_missing_entry groups g s :
  In g groups -> In s sources -> source_group_id s = g -> entry_of s = None ->
  (WorkEvents.initViz hasSVG pub_date sources data groups).2 = Some "TypeError".
Proof.
  intros Hg Hs Hsg He. unfold WorkEvents.initViz. set (start := done_ _).
  assert (forall gs o found, o.2 = None \/ stopped o ->
    let o' := (fold_left (fun st g => WorkEvents.addGroup_ hasSVG pub_date sources data g st) gs (o, found)).1 in
    (stopped o -> stopped o') /\ (In g gs -> stopped o')) as Hall.
  { induction gs as [|g' gs IH]; intros o found Ho; [simpl; naive_solver|].
    cbn [fold_left WorkEvents.addGroup_].
    pose proof (group_stops g' sources o false found Ho) as Hgr.
    destruct (fold_left _ sources _) as [[o1 row1] found1]. simpl in Hgr. destruct Hgr as (Hok & Hg1 & Hg2).
    destruct (IH o1 found1 Hok) as [Hl1 Hl2]. split; [auto|]. intros [<-|Hin]; [|auto].
    apply Hl1. by eapply Hg2. }
  destruct (Hall groups start false (or_introl eq_refl)) as [_ Hstop]. specialize (Hstop Hg).
  destruct (fold_left _ groups _) as [o found]. simpl in Hstop. destruct found; [done|].
  unfold seq. by rewrite Hstop.
Qed.
End work_events.

(** ** The page of a source *)

Section source_events.
Context `{Scales} `{!Times}.
Context (hasSVG : bool) (pub_date : option Date) (data : list bin).

(** The counts the page of a source shows. *)
Definition source_counts : list string :=
  List.filter (fun c => 0 <? SourceEvents.d3_sum c data)%Z (map snd SourceEvents.subgroups).
Definition counted (group : string) (s : source) : bool :=
  String.eqb (source_group_id s) group && negb (SourceEvents.d3_sum "total" data =? 0)%Z.

Lemma source_row s label total group c :
  let o := SourceEvents.addSource_ hasSVG true pub_date data s label total group c in
  o.2 = None /\ rows_of o.1 = ["source-" ++ source_id_ s ++ "-" ++ c] /\ existsb says_none o.1 = false.
Proof. unfold SourceEvents.addSource_. by destruct (hasSVG && _). Qed.

(** The rows of a list of counts, after [o]. *)
Definition adds (o0 o : out) (rows : list string) : Prop :=
  o.2 = None /\ rows_of o.1 = (rows_of o0.1 ++ rows)%list /\ existsb says_none o.1 = existsb says_none o0.1.

Lemma adds_nil o : o.2 = None -> adds o o [].
Proof. intros Ho. split_and!; [done|by rewrite app_nil_r|done]. Qed.
Lemma adds_trans o0 o1 o2 r r' : adds o0 o1 r -> adds o1 o2 r' -> adds o0 o2 (r ++ r')%list.
Proof. intros (_ & Hr & Hs) (Hn & Hr' & Hs'). split_and!; [done|by rewrite Hr', Hr, app_assoc|congruence]. Qed.
Lemma adds_seq o0 o1 rows :
  o0.2 = None -> o1.2 = None -> rows_of o1.1 = rows -> existsb says_none o1.1 = false -> adds o0 (seq o0 o1) rows.
Proof.
  intros Ho Ho1 Hr Hs. unfold seq. rewrite Ho. split_and!; [done|by simpl; rewrite rows_app, Hr|].
  simpl. by rewrite existsb_app, Hs, orb_false_r.
Qed.

Lemma counts_rows s group cs o :
  o.2 = None ->
  adds o
    (fold_left (fun o '(label, subgroup) =>
       let v := SourceEvents.d3_sum subgroup data in
       if (0 <? v)%Z then
         seq o (SourceEvents.addSource_ hasSVG true pub_date data s label v group subgroup) else o) cs o)
    (map (fun c => "source-" ++ source_id_ s ++ "-" ++ c)
       (List.filter (fun c => 0 <? SourceEvents.d3_sum c data)%Z (map snd cs))).
Proof.
  revert o. induction cs as [|[label c] cs IH]; intros o Ho; [by apply adds_nil|]. cbn [fold_left map snd List.filter].
  destruct (0 <? SourceEvents.d3_sum c data)%Z; [|by apply IH].
  destruct (source_row s label (SourceEvents.d3_sum c data) group c) as (Hn & Hr & Hs).
  pose proof (adds_seq o _ _ Ho Hn Hr Hs) as Ha. eapply (adds_trans _ _ _ [_]); [exact Ha|]. apply IH, Ha.
Qed.

Lemma group_rows group s found :
  let '(o, found') := SourceEvents.addGroup_ hasSVG true pub_date data group s found in
  o.2 = None /\ existsb says_none o.1 = false /\
  rows_of o.1 = (if counted group s then map (fun c => "source-" ++ source_id_ s ++ "-" ++ c) source_counts else []) /\
  found' = found || counted group s.
Proof.
  unfold SourceEvents.addGroup_, counted. destruct (source_group_id s =? group) eqn:Eg; cbn [negb andb].
  2: { split_and!; try done. by rewrite orb_false_r. }
  destruct (SourceEvents.d3_sum "total" data =? 0)%Z; cbn [negb].
  { split_and!; try done. by rewrite orb_false_r. }
  destruct (counts_rows s group SourceEvents.subgroups (done_ [group_row group]) eq_refl) as (Hn & Hr & Hs).
  split_and!; [exact Hn|exact Hs|exact Hr|by rewrite orb_true_r].
Qed.

(** the page of a source draws a row for each of its kinds of counts with a
    positive sum, under the group of the source, when it has a count at all;
    otherwise it says that no events were found. *)
Theorem source_events_shown groups s :
  let o := SourceEvents.initViz hasSVG true pub_date data groups s in
  o.2 = None /\
  rows_of o.1 = flat_map (fun g => if counted g s then map (fun c => "source-" ++ source_id_ s ++ "-" ++ c) source_counts
                                   else []) groups /\
  existsb says_none o.1 = negb (existsb (fun g => counted g s) groups).
Proof.
  unfold SourceEvents.initViz. set (start := done_ _). set (rows := fun g => if counted g s then _ else _).
  assert (forall gs o found, o.2 = None ->
    let '(o', found') := fold_left (fun '(o, found) g =>
      match o.2 with
      | Some _ => (o, found)
      | None => let '(o', found') := SourceEvents.addGroup_ hasSVG true pub_date data g s found in (seq o o', found')
      end) gs (o, found) in
    adds o o' (flat_map rows gs) /\ found' = found || existsb (fun g => counted g s) gs) as Hall.
  { induction gs as [|g gs IH]; intros o found Ho; cbn [fold_left flat_map existsb].
    { split; [by apply adds_nil|by rewrite orb_false_r]. }
    rewrite Ho. pose proof (group_rows g s found) as Hg.
    destruct (SourceEvents.addGroup_ _ _ _ _ _ _ _) as [o1 found1]. destruct Hg as (Hn & Hs & Hr & ->).
    pose proof (adds_seq o o1 (rows g) Ho Hn Hr Hs) as Ha.
    specialize (IH (seq o o1) (found || counted g s) (proj1 Ha)).
    destruct (fold_left _ gs _) as [o2 found2]. destruct IH as [Ha' ->].
    split; [by eapply adds_trans|by rewrite orb_assoc]. }
  specialize (Hall groups start false eq_refl). destruct (fold_left _ groups _) as [o found].
  destruct Hall as [(Hn & Hr & Hs) ->]. rewrite Hn. simpl in Hr, Hs. cbn [orb].
  destruct (existsb _ groups); cbn [negb]; [by split_and!|].
  rewrite seq_done by done. cbn [done_ fst snd]. by rewrite rows_app, existsb_app, Hr, Hs, app_nil_r.
Qed.
End source_events.

(** ** Concrete pages *)

(** A date is its text, and five units of time have passed. *)
Definition text_times : @Times text_d3 :=
  @Build_Times text_d3 "2015-06-01"
    (fun y m d => str_of_num y ++ "-" ++ str_of_num m ++ "-" ++ str_of_num d)
    (fun _ _ _ => 5%Z) (fun d _ => default "" d) (fun _ d => default "" d) (fun d => d) (fun d => d)
    (fun _ _ _ => Some 0%Q) (fun _ d => d) (fun d => d) (fun _ => 1%Z)
    (fun n => match n with Some z => str_of_num z | None => "NaN" end).

Definition ex_bin : bin := Bin 2015 3 1 (fun c => if String.eqb c "html" then Some 4%Z else Some 6%Z).
Definition ex_sources : list source :=
  [Source "counter" "Counter" "viewed"; Source "citeulike" "CiteULike" "saved"; Source "nature" "Nature" "discussed"].
Definition ex_events : list WorkEvents.event :=
  [WorkEvents.Event "counter" (Some 4%Z) (Some 0%Z) (Some 6%Z) None None (Some [ex_bin]) None;
   WorkEvents.Event "citeulike" (Some 0%Z) (Some 0%Z) (Some 0%Z) (Some "http://x") None None None].

Lemma work_events_shown_witness :
  let o := @WorkEvents.initViz text_d3 text_scales text_times true (Some "2015-01-01") ex_sources ex_events ["viewed"; "saved"] in
  o.2 = None /\ rows_of o.1 = ["source-counter-html"] /\ existsb says_none o.1 = false.
Proof.
  apply (@work_events_shown text_d3 text_scales text_times true (Some "2015-01-01") ex_sources ex_events).
  intros g s Hg Hs Hsg. simpl in Hg, Hs. destruct Hs as [<-|[<-|[<-|[]]]]; simpl in Hsg; [done|done|].
  exfalso. by destruct Hg as [<-|[<-|[]]].
Defined.

Lemma work_events_missing_entry_witness :
  (@WorkEvents.initViz text_d3 text_scales text_times true None ex_sources ex_events ["viewed"; "discussed"; "saved"]).2
  = Some "TypeError".
Proof.
  apply (@work_events_missing_entry text_d3 text_scales text_times true None ex_sources ex_events _ "discussed"
           (Source "nature" "Nature" "discussed")); simpl; auto.
Defined.
