(* ===== verification/Overview.v ===== *)
(** * The remaining pages: events of a work, sources, status, documents

    [src/app/assets/javascripts/works/show.js], [sources/index.js],
    [sources/show.js], [status/index.js] and [docs/show.js], a Module each:
    the request, and what is done with the answer. *)

From Stdlib Require Import Ascii String QArith.
From S2P Require Import Prelude.
From S2P Require Import JsStrings.
From S2P Require Import Helpers.
From S2P Require Import Bootpag.
From S2P Require Import Dom.
From S2P Require Import Pages.
From S2P Require Import Charts.

#[local] Open Scope string_scope.

(** ** works/show.js *)

Module WorkShow.

Record event := Event {
  ev_issued : list part;
  ev_author : list author;
  ev_container : string;
  ev_type : string;
  ev_title : string;
  ev_url : string
}.

Section page.
Context `{D3} (p : params).

Definition query : option string :=
  match p with
  | Some _ =>
      Some (encodeURI ("/api/v6/works?ids=" ++ str_of_attr (read_attr p "data-pid") ++ "&type="
                       ++ str_of_attr (read_attr p "data-pid_type") ++ "&info=detail"))
  | None => None
  end.

Definition event_date (e : event) : option Date := snd (datePartsToDate parse_date (ev_issued e)).

(** The events that have a date, with it and with its year. *)
Definition dated (data : list event) : list (Date * Z * event) :=
  omap (fun e => (fun d => (d, getUTCFullYear d, e)) <$> event_date e) data.

(** [data.sort(function(a, b) { return d3.descending(a.date, b.date); })]: the
    newest first, events of one time in the order they had. *)
Fixpoint insert_desc {A} (d : Date) (a : A) (l : list (Date * A)) : list (Date * A) :=
  match l with
  | [] => [(d, a)]
  | (d', a') :: l' => if date_below d d' then (d', a') :: insert_desc d a l' else (d, a) :: l
  end.
Definition sort_desc {A} (l : list (Date * A)) : list (Date * A) :=
  fold_right (fun '(d, a) acc => insert_desc d a acc) [] l.

(** [sortKeys(d3.descending)] on the keys, which are strings. *)
Fixpoint insert_key {A} (k : string) (vs : A) (l : list (string * A)) : list (string * A) :=
  match l with
  | [] => [(k, vs)]
  | (k', vs') :: l' => if String.ltb k' k then (k, vs) :: l else (k', vs') :: insert_key k vs l'
  end.
Definition sort_keys {A} (l : list (string * A)) : list (string * A) :=
  fold_right (fun '(k, vs) acc => insert_key k vs acc) [] l.

Definition per_page : nat := 50.

Definition event_text (e : event) (date : Date) : string :=
  (if (0 <? List.length (ev_author e))%nat then formattedAuthor (ev_author e) ++ ". " else "")
  ++ (if (0 <? String.length (ev_container e))%nat then "<em>" ++ ev_container e ++ "</em>. " else "")
  ++ formattedType (ev_type e) ++ ". "
  ++ default "undefined" (formattedDate formatYear formatMonthYear formatDate (Some date) (List.length (ev_issued e)))
  ++ ". ".

Definition event_entry (e : event) (date : Date) : list effect :=
  [let_ "sel_title" (Sel "#results")
     [Append "h4"; Attr "class" (Str "work"); Append "text"; Html (Str (ev_title e))];
   with_ "sel_title" [Classed "discussed_event" (negb (String.eqb (ev_type e) "article-journal"))];
   select "#results" [Append "p"; Html (Str (event_text e date)); Append "a"; Attr "href" (Str (ev_url e));
                      Append "text"; Text (Str (ev_url e))]].

(** [paginateEvents] is not defined by any script. *)
Definition showEvents (data : list (Date * (Z * event))) (page : nat) : out :=
  let data := sort_desc data in
  let start := ((page - 1) * per_page)%nat in
  let paged_data := take per_page (drop start data) in
  let by_year := nest (fun '(_, (y, _)) => str_of_num y) paged_data in
  let nest_by_year := sort_keys (map (fun '(k, vs) => (k, sort_desc vs)) by_year) in
  seq (done_ (select "#results" [Html (Str "")] ::
         flat_map (fun '(k, vs) =>
           select "#results" [Append "h2"; Append "text"; Text (Str k)]
           :: flat_map (fun '(d, (_, e)) => event_entry e d) vs) nest_by_year))
      (throw "ReferenceError").

(** [data] are the works the API has returned, each by its events. *)
Definition eventViz (data : list (list event)) : out :=
  seq (done_ [select "#loading-events" [Remove]])
  (match data with
   | [] => throw "TypeError"
   | [] :: _ => done_ [alert "#content" "No formatted events found"]
   | events :: _ =>
       seq (done_ [select "#content" [Insert "div"; Attr "id" (Str "results")]])
           (showEvents (map (fun '(d, y, e) => (d, (y, e))) (dated events)) 1)
   end).

Definition loaded (error : bool) (data : list (list event)) : out :=
  if error then done_ [Warn] else eventViz data.
End page.
End WorkShow.

(** ** sources/index.js *)

Module SourcesIndex.
Section page.
Context `{Scales}.

Record source := Source {
  bars : HBar.entry;
  queued : num;
  stale : num;
  response_count : num;
  response_average : num
}.

Definition sourcesViz (data : list source) : list effect :=
  flat_map (fun source =>
    let id := HBar.id (bars source) in
    [select ("#queued_count_" ++ id) [Text (delimited (queued source))];
     select ("#stale_count_" ++ id) [Text (delimited (stale source))];
     select ("#response_count_" ++ id) [Text (delimited (response_count source))];
     select ("#average_count_" ++ id) [Text (delimited (response_average source))]]) data.

Definition request : string := encodeURI "/api/sources/".

(** Without sources [sourcesViz] throws, before the charts are reached. *)
Definition loaded (error : bool) (sources : option (list source)) : out :=
  if error then done_ [Warn]
  else match sources with
       | None => throw "TypeError"
       | Some s =>
           done_ (sourcesViz s ++ HBar.hBarViz (Some (map bars s)) "work" ++ HBar.hBarViz (Some (map bars s)) "event")
       end.
End page.
End SourcesIndex.

(** ** sources/show.js *)

Definition donut_colors `{Scales} (range : list string) (i : nat) : string :=
  ordinal (map (fun k => str_of_num (Z.of_nat k)) (List.seq 0 (S i))) range (str_of_num (Z.of_nat i)).

(** [d3.sum], which leaves out what is not a number. *)
Definition d3_sumQ (l : list num) : Q := fold_right (fun v acc => (default 0 v + acc)%Q) 0%Q l.
Definition num_div (a : num) (b : Q) : num :=
  match a with Some a => if Qeq_bool b 0 then None else Some (a / b)%Q | None => None end.

Module SourceShow.
Section page.
Context `{Scales}.

(** The entries of the objects [status], [by_day] and [by_month]. *)
Record source := Source { status : list Donut.slice; by_day : list Donut.slice; by_month : list Donut.slice }.

Definition query (p : params) : option string :=
  match p with
  | Some _ => Some (encodeURI ("/api/sources/" ++ str_of_attr (read_attr p "data-name")))
  | None => None
  end.

Definition colors : nat -> string := donut_colors ["#1abc9c"; "#ecf0f1"; "#95a5a6"].

(** [data[name] / d3.sum(entries, value)]; counts are not negative, so that a
    sum of 0 is that of zeros, whose quotient is [NaN]. *)
Definition share (name : string) (entries : list Donut.slice) : num :=
  match List.find (fun g => String.eqb (Donut.key g) name) entries with
  | Some g => num_div (Donut.value g) (d3_sumQ (map Donut.value entries))
  | None => None
  end.

Definition loaded (error : bool) (data : source) : list effect :=
  if error then [Warn]
  else
    (Donut.donutViz (status data) "div#chart_status" (formatPercent (share "refreshed" (status data))) "refreshed" colors "works"
     ++ Donut.donutViz (by_day data) "div#chart_day" (formatPercent (share "with_events" (by_day data))) "with events" colors "works"
     ++ Donut.donutViz (by_month data) "div#chart_month" (formatPercent (share "with_events" (by_month data))) "with events" colors "works")%list.
End page.
End SourceShow.

(** ** status/index.js *)

(** What the script uses of [Date] and of d3's intervals. *)
Class Clock `{D3} := {
  right_now : Date;
  day_offset : Date -> Z -> Date;
  hour_offset : Date -> Z -> Date;
  setHours : Date -> Z -> Date;
  date_from : Date -> Date -> bool;
  d3_mean : list num -> num;
  num_text : Q -> string
}.

Module Status.
Section page.
Context `{Scales} `{!Clock}.

Record status := Entry {
  timestamp : string;
  works_new_count : num;
  events_count : num;
  alerts_count : num;
  db_size : num;
  responses_count : num;
  requests_count : num;
  requests_average : num;
  sources : list Donut.slice
}.

(** [setHours] changes [endDate], after [startDate] has been computed from it. *)
Definition startDate : Date := day_offset right_now (-29).
Definition endDate : Date := setHours right_now 23.
Definition startTime : Date := hour_offset endDate (-23).
Definition colors : nat -> string := donut_colors ["#1abc9c"; "#ecf0f1"; "#f1c40f"].

Definition query (p : params) : option string :=
  match p with Some _ => Some (encodeURI "/api/status") | None => None end.

(** [Date.parse(status.timestamp) >= date] *)
Definition since (date : Date) (data : list status) : list status :=
  List.filter (fun s => date_from date (parse_date (timestamp s))) data.

(** [rollup]: an object of counts. *)
Definition day_counts (leaves : list status) (count : string) : num :=
  if String.eqb count "works_count" then d3_max (map works_new_count leaves)
  else if String.eqb count "events_count" then d3_max (map events_count leaves)
  else if String.eqb count "alerts_count" then d3_max (map alerts_count leaves)
  else if String.eqb count "db_size" then d3_max (map db_size leaves)
  else None.
Definition hour_counts (leaves : list status) (count : string) : num :=
  if String.eqb count "responses_count" then d3_max (map responses_count leaves)
  else if String.eqb count "requests_count" then d3_max (map requests_count leaves)
  else if String.eqb count "requests_average" then d3_mean (map requests_average leaves)
  else None.

Definition by_day (data : list status) : list Bar.entry :=
  map (fun '(k, leaves) => Bar.Entry k (day_counts leaves))
      (nest (fun d => String.substring 0 10 (timestamp d)) (since startDate data)).
Definition by_hour (data : list status) : list Bar.entry :=
  map (fun '(k, leaves) => Bar.Entry k (hour_counts leaves))
      (nest (fun d => String.substring 0 13 (timestamp d)) (since startTime data)).

Definition loaded (error : bool) (data : list status) : out :=
  if error then done_ [Warn]
  else match data with
       | [] => throw "TypeError"
       | first :: _ =>
           let bar entries div count format := Bar.barViz startDate endDate startTime entries div count format in
           let days := by_day data in
           let hours := by_hour data in
           let sources_title := num_text (d3_sumQ (map Donut.value (sources first))) in
           done_ (bar days "#chart_works" "works_count" "days"
                  ++ bar days "#chart_events" "events_count" "days"
                  ++ bar days "#chart_alerts" "alerts_count" "days"
                  ++ bar days "#chart_db_size" "db_size" "days"
                  ++ bar hours "#chart_responses" "responses_count" "hours"
                  ++ bar hours "#chart_requests" "requests_count" "hours"
                  ++ bar hours "#chart_average" "requests_average" "hours"
                  ++ Donut.donutViz (sources first) "#chart_sources" sources_title "active" colors "sources")
       end.
End page.
End Status.

(** ** docs/show.js: the answer is not used. *)

Module DocsShow.
Definition query (p : params) : option string :=
  match p with
  | Some _ => Some (encodeURI ("/api/docs/" ++ str_of_attr (read_attr p "data-id")))
  | None => None
  end.
Definition loaded (error : bool) : list effect := if error then [Warn] else [].
End DocsShow.

(** ** The days of the status page *)

Section status_days.
Context `{Scales} `{!Clock}.

(** The statuses of one day that are not older than the page shows. *)
Definition of_day (data : list Status.status) (day : string) : list Status.status :=
  List.filter (fun s => String.eqb (String.substring 0 10 (Status.timestamp s)) day)
    (Status.since Status.startDate data).

(** the charts by day have one bar for each day that has a status of the
    last thirty days, and each count of a day is the greatest over the statuses
    of that day. *)
Theorem status_by_day data :
  List.NoDup (map Bar.key (Status.by_day data)) /\
  (forall day, In day (map Bar.key (Status.by_day data)) <-> of_day data day <> []) /\
  (forall entry, In entry (Status.by_day data) ->
     forall name count, In (name, count) [("works_count", Status.works_new_count); ("events_count", Status.events_count);
                                          ("alerts_count", Status.alerts_count); ("db_size", Status.db_size)] ->
     Bar.values entry name = d3_max (map count (of_day data (Bar.key entry)))).
Proof.
  unfold Status.by_day. rewrite nest_spec, !map_map. set (key := fun d => String.substring 0 10 (Status.timestamp d)).
  set (recent := Status.since Status.startDate data).
  assert (map (fun k => Bar.key (let '(k, leaves) := (k, with_key key recent k) in Bar.Entry k (Status.day_counts leaves)))
    (distinct (map key recent)) = distinct (map key recent)) as -> by apply List.map_id.
  split_and!.
  - apply distinct_NoDup.
  - intros day. rewrite distinct_in, in_map_iff. unfold of_day. fold recent. split.
    + intros (s & Hs & Hin) Hnil. assert (In s []) as []; rewrite <- Hnil. apply filter_In. split; [done|].
      by apply String.eqb_eq.
    + intros Hne. destruct (List.filter _ recent) as [|s l] eqn:E; [done|]. exists s.
      assert (In s (s :: l)) as Hin by by left. rewrite <- E, filter_In, String.eqb_eq in Hin. naive_solver.
  - intros entry (k & <- & Hk)%in_map_iff name count Hc. simpl.
    destruct Hc as [[= <- <-]|[[= <- <-]|[[= <- <-]|[[= <- <-]|[]]]]]; done.
Qed.
End status_days.

(** ** The events of a work *)

Section work_show.
Context `{D3}.

Lemma insert_desc_perm {A} d (a : A) l : WorkShow.insert_desc d a l ≡ₚ (d, a) :: l.
Proof.
  induction l as [|[d' a'] l IH]; simpl; [done|]. destruct (date_below d d'); [|done].
  rewrite IH. apply perm_swap.
Qed.
Lemma sort_desc_perm {A} (l : list (Date * A)) : WorkShow.sort_desc l ≡ₚ l.
Proof. induction l as [|[d a] l IH]; simpl; [done|]. by rewrite insert_desc_perm, IH. Qed.
Lemma insert_key_perm {A} k (vs : A) l : WorkShow.insert_key k vs l ≡ₚ (k, vs) :: l.
Proof.
  induction l as [|[k' vs'] l IH]; simpl; [done|]. destruct (String.ltb k' k); [done|].
  rewrite IH. apply perm_swap.
Qed.
Lemma sort_keys_perm {A} (l : list (string * A)) : WorkShow.sort_keys l ≡ₚ l.
Proof. induction l as [|[k vs] l IH]; simpl; [done|]. by rewrite insert_key_perm, IH. Qed.

Lemma nest_insert_perm {A} k (a : A) l : flat_map snd (nest_insert k a l) ≡ₚ a :: flat_map snd l.
Proof.
  induction l as [|[k' vs] l IH]; simpl; [done|]. destruct (String.eqb k k'); simpl.
  - by rewrite <- app_assoc, Permutation_middle.
  - by rewrite IH, Permutation_middle.
Qed.
Lemma nest_perm {A} (key : A -> string) data : flat_map snd (nest key data) ≡ₚ data.
Proof.
  unfold nest. assert (forall acc, flat_map snd (fold_left (fun l a => nest_insert (key a) a l) data acc)
    ≡ₚ flat_map snd acc ++ data) as Hall; [|by rewrite Hall].
  induction data as [|a data IH]; intros acc; simpl; [by rewrite app_nil_r|].
  by rewrite IH, nest_insert_perm, <- Permutation_middle.
Qed.

(** The titles a trace writes. *)
Definition title_of (e : effect) : option string :=
  match e with
  | Dom (Cmd (Sel "#results") [Append "h4"; Attr "class" (Str "work"); Append "text"; Html (Str t)] [] (Some "sel_title")) => Some t
  | _ => None
  end.
Definition titles (t : list effect) : list string := omap title_of t.

Lemma titles_year vs :
  titles (flat_map (fun '(d, (_, e)) => WorkShow.event_entry e d) vs) =
  map (fun v : Date * (Z * WorkShow.event) => WorkShow.ev_title v.2.2) vs.
Proof.
  unfold titles. induction vs as [|[d [y e]] vs IH]; [done|]. cbn [flat_map map]. rewrite omap_app, IH. done.
Qed.

Lemma titles_years l :
  titles (flat_map (fun '(k, vs) => select "#results" [Append "h2"; Append "text"; Text (Str k)]
            :: flat_map (fun '(d, (_, e)) => WorkShow.event_entry e d) vs) l) =
  map (fun v : Date * (Z * WorkShow.event) => WorkShow.ev_title v.2.2) (flat_map snd l).
Proof.
  unfold titles. induction l as [|[k vs] l IH]; [done|]. cbn [flat_map]. rewrite omap_app, map_app, IH. f_equal.
  apply (titles_year vs).
Qed.

(** the page of a work's events writes the events of the first page, each
    once, and then throws: it calls a function no script defines. *)
Theorem work_events_page events rest :
  events <> [] ->
  let o := WorkShow.loaded false (events :: rest) in
  o.2 = Some "ReferenceError" /\
  titles o.1 ≡ₚ map (fun v : Date * (Z * WorkShow.event) => WorkShow.ev_title v.2.2)
    (take 50 (WorkShow.sort_desc (map (fun '(d, y, e) => (d, (y, e))) (WorkShow.dated events)))).
Proof.
  intros Hne. destruct events as [|e events]; [done|]. unfold WorkShow.loaded, WorkShow.eventViz, WorkShow.showEvents.
  set (sorted := WorkShow.sort_desc _). cbn [seq done_ throw fst snd app]. rewrite app_nil_r.
  split; [done|]. rewrite drop_0.
  match goal with |- titles (?a :: ?b :: ?c :: ?t) ≡ₚ _ => change (titles (a :: b :: c :: t)) with (titles t) end.
  rewrite titles_years. apply Permutation_map. rewrite sort_keys_perm.
  set (l := nest _ _). transitivity (flat_map snd l); [|apply nest_perm]. induction l as [|[k vs] l IH]; [done|]. cbn [map flat_map snd]. by rewrite sort_desc_perm, IH.
Qed.
End work_show.

(** Two events of a work, one of which has no date. *)
Definition ex_event (title : string) (issued : list part) : WorkShow.event :=
  WorkShow.Event issued [] "" "webpage" title "http://example.org".

Lemma work_events_page_witness :
  let events := [ex_event "dated" [PNum 2014]; ex_event "undated" []] in
  events <> [] /\
  (@WorkShow.loaded text_d3 false [events]).2 = Some "ReferenceError" /\
  titles (@WorkShow.loaded text_d3 false [events]).1 ≡ₚ ["dated"].
Proof.
  split; [done|]. destruct (@work_events_page text_d3 [ex_event "dated" [PNum 2014]; ex_event "undated" []] [] ltac:(done))
    as [Ht Hp]. by split.
Defined.
