(* ===== verification/Requests.v ===== *)
(** * The API requests page: a crossfilter with three brushed bar charts

    [src/app/assets/javascripts/api_requests/index.js].  The page keeps a
    crossfilter of the requests, four dimensions with a group each, a
    [groupAll], and three charts; every change of a filter redraws the charts
    and the list of requests.  The state of the closures is a record, the
    handlers act on it and return the trace of what they draw. *)

From Stdlib Require Import Ascii String QArith Qround Qminmax.
From S2P Require Import Prelude.
From S2P Require Import Arrays.
From S2P Require Import CfCore.
From S2P Require Import JsStrings.
From S2P Require Import Dom.
From S2P Require Import Charts.

#[local] Open Scope string_scope.

(** ** Numbers as values of dimensions *)

#[export] Instance num_JsOrd : JsOrd num := {|
  jlt x y := match x, y with Some a, Some b => negb (Qle_bool b a) | _, _ => false end;
  jle x y := match x, y with Some a, Some b => Qle_bool a b | _, _ => false end
|}.
#[export] Instance num_JsOrdLaws : JsOrdLaws num.
Proof.
  split; unfold natural; simpl.
  - intros [a|] [b|] [c|]; try done. rewrite !Qle_bool_iff. apply Qle_trans.
  - intros [a|] [b|]; try done. rewrite !Qle_bool_iff. intros _ _.
    destruct (Qlt_le_dec a b) as [Hlt|Hle]; [left; by apply Qlt_le_weak|by right].
  - intros [a|] [b|]; try done. destruct (Qle_bool a b) eqn:E; simpl; [done|].
    apply Bool.negb_false_iff, Qle_bool_iff. destruct (Qlt_le_dec b a) as [Hlt|Hle]; [by apply Qlt_le_weak|].
    apply Qle_bool_iff in Hle. congruence.
  - intros [a|] [b|]; try done. rewrite !Qle_bool_iff. intros _. split; apply Qle_refl.
Qed.

Definition num_min (a b : num) : num := match a, b with Some a, Some b => Some (Qmin a b) | _, _ => None end.
Definition num_max (a b : num) : num := match a, b with Some a, Some b => Some (Qmax a b) | _, _ => None end.
(** [Math.floor(d / w) * w] *)
Definition floor_by (w : positive) (d : num) : num :=
  (fun q => inject_Z (Qfloor (q / inject_Z (Zpos w)) * Zpos w)) <$> d.
Definition math_floor (d : num) : num := (fun q => inject_Z (Qfloor q)) <$> d.

(** What the page uses of [Date], of d3's formats and of d3's brush. *)
Class ReqTools `{Scales} := {
  valueOf : Date -> num;
  utc_day : Date -> Date;
  day_text : Date -> string;
  getUTCHours : Date -> Q;
  getMinutes : Date -> Q;
  formatNumber : Z -> string;
  text_of : num -> string;
  brush : Type;
  new_brush : brush;
  brush_x : num * num -> brush -> brush;
  extent : brush -> num * num;
  set_extent : num * num -> brush -> brush;
  clear : brush -> brush;
  empty : brush -> bool;
  resizes : list string
}.

(** A request, as the API gives it and as the page keeps it. *)
Record raw := Raw {
  r_timestamp : string;
  r_db_duration : num;
  r_view_duration : num;
  r_api_key : option string;
  r_info : val;
  r_source : val;
  r_ids : val
}.

Section page.
Context `{ReqTools} (typed : bool).

Record req := Req { index : Z; timestamp : Date; json : raw }.

(** [data.forEach(function(d, i) { d.index = i; d.timestamp = new Date(d.timestamp); })] *)
Definition coerced (data : list raw) : list req :=
  imap (fun i d => Req (Z.of_nat i) (parse_date (r_timestamp d)) d) data.

Abbreviation cf := (@CfCore.cf req num).
Abbreviation kv := (@CfCore.kv num).

(** ** The charts *)

Record margins := Margins { m_top : Z; m_right : Z; m_bottom : Z; m_left : Z }.

(** The variables of [barChart]; [x] is the domain of its scale, whose range
    is from 0 to 300; [drawn] says that the chart's element has its [g]. *)
Record chart := Chart {
  margin : margins;
  x : option (num * num);
  y_height : Q;
  id : nat;
  the_brush : brush;
  brushDirty : bool;
  dimension : option nat;
  group : option nat;
  round : option (num -> num);
  drawn : bool
}.

(** [barChart()]: [id] is [barChart.id++]. *)
Definition barChart (id : nat) : chart :=
  Chart (Margins 10 20 20 10) None 100 id new_brush false None None None false.

(** The setters of a chart. *)
Definition with_margin (m : margins) (c : chart) : chart :=
  Chart m (x c) (y_height c) (id c) (the_brush c) (brushDirty c) (dimension c) (group c) (round c) (drawn c).
Definition with_x (domain : num * num) (c : chart) : chart :=
  Chart (margin c) (Some domain) (y_height c) (id c) (brush_x domain (the_brush c)) (brushDirty c) (dimension c)
        (group c) (round c) (drawn c).
Definition with_y (height : Q) (c : chart) : chart :=
  Chart (margin c) (x c) height (id c) (the_brush c) (brushDirty c) (dimension c) (group c) (round c) (drawn c).
Definition with_dimension (d : nat) (c : chart) : chart :=
  Chart (margin c) (x c) (y_height c) (id c) (the_brush c) (brushDirty c) (Some d) (group c) (round c) (drawn c).
Definition with_group (g : nat) (c : chart) : chart :=
  Chart (margin c) (x c) (y_height c) (id c) (the_brush c) (brushDirty c) (dimension c) (Some g) (round c) (drawn c).
Definition with_round (f : num -> num) (c : chart) : chart :=
  Chart (margin c) (x c) (y_height c) (id c) (the_brush c) (brushDirty c) (dimension c) (group c) (Some f) (drawn c).
Definition with_brush (b : brush) (c : chart) : chart :=
  Chart (margin c) (x c) (y_height c) (id c) b (brushDirty c) (dimension c) (group c) (round c) (drawn c).
Definition with_state (dirty drawn : bool) (c : chart) : chart :=
  Chart (margin c) (x c) (y_height c) (id c) (the_brush c) dirty (dimension c) (group c) (round c) drawn.

(** A variable that is still [undefined]. *)
Definition get {A} (v : option A) : js A := match v with Some a => Ret a | None => Throw "TypeError" end.

Definition width : Q := 300.
Definition x_of (c : chart) (v : num) : num :=
  match x c with Some domain => linear_round domain (0%Q, width) v | None => None end.

(** [barPath(groups)]; [top] is the greatest value, the end of the domain of [y]. *)
Definition barPath (c : chart) (top : num) (groups : list kv) : string :=
  let height := y_height c in
  let y v := linear (of_Z 0, top) (height, 0%Q) v in
  join "" (flat_map (fun d =>
    ["M"; text_of (x_of c (kv_key d)); ","; text_of (Some height); "V"; text_of (y (inject_Z <$> kv_value d)); "h9V";
     text_of (Some height)])
    groups).

Definition resizePath (c : chart) (d : string) : string :=
  let e := if String.eqb d "e" then 1%Q else 0%Q in
  let x := if String.eqb d "e" then 1%Q else (-1)%Q in
  let y := (y_height c / 3)%Q in
  let t q := text_of (Some q) in
  "M" ++ t (x / 2)%Q ++ "," ++ t y ++ "A6,6 0 0 " ++ t e ++ " " ++ t ((13 # 2) * x)%Q ++ "," ++ t (y + 6)%Q
  ++ "V" ++ t (2 * y - 6)%Q ++ "A6,6 0 0 " ++ t e ++ " " ++ t (x / 2)%Q ++ "," ++ t (2 * y)%Q ++ "Z"
  ++ "M" ++ t ((5 # 2) * x)%Q ++ "," ++ t (y + 8)%Q ++ "V" ++ t (2 * y - 8)%Q
  ++ "M" ++ t ((9 # 2) * x)%Q ++ "," ++ t (y + 8)%Q ++ "V" ++ t (2 * y - 8)%Q.

Definition clip (c : chart) : string := "clip-" ++ str_of_num (Z.of_nat (id c)).
(** [d3.select("#reset-" + resetText + " a").style("display", v)] *)
Definition reset_link (div : string) (v : val) : effect := select ("#reset-" ++ div ++ " a") [Style "display" v].

(** The skeletal chart, in the element with identifier [div]. *)
Definition skeleton (div : string) (c : chart) : list effect :=
  let m := margin c in
  let height := y_height c in
  [select ("#reset-" ++ div)
     [Append "a"; Attr "href" (Str ("javascript:reset(" ++ str_of_num (Z.of_nat (id c)) ++ ")"));
      Attr "class" (Str "reset"); Text (Str "reset"); Style "display" (Str "none")];
   let_ "g" (Sel ("#" ++ div))
     [Append "svg"; Attr "width" (Num (width + inject_Z (m_left m) + inject_Z (m_right m))%Q);
      Attr "height" (Num (height + inject_Z (m_top m) + inject_Z (m_bottom m))%Q);
      Append "g"; Attr "transform" (tr (str_of_num (m_left m)) (str_of_num (m_top m)))];
   with_ "g" [Append "clipPath"; Attr "id" (Str (clip c)); Append "rect"; Attr "width" (Num width);
              Attr "height" (Num height)];
   join_ "g" ".bar" (map (fun d => [Append "path"; Attr "class" (Str (d ++ " bar")); Call "datum"]) ["background"; "foreground"]);
   with_ "g" [SelectIn ".foreground.bar"; Attr "clip-path" (Str ("url(#" ++ clip c ++ ")"))];
   with_ "g" [Append "g"; Attr "class" (Str "axis"); Attr "transform" (tr "0" (text_of (Some height))); Call "axis"];
   let_ "gBrush" (Var "g") [Append "g"; Attr "class" (Str "brush"); Call "brush"];
   with_ "gBrush" [SelectIn "rect"; Attr "height" (Num height)];
   join_ "gBrush" ".resize" (map (fun d => [Append "path"; Attr "d" (Str (resizePath c d))]) resizes)].

(** The brush, when it was set from outside. *)
Definition redraw_brush (div : string) (c : chart) : list effect :=
  let b := the_brush c in
  let rect := "#" ++ clip c ++ " rect" in
  [with_ "g" [SelectIn ".brush"; Call "brush"];
   reset_link div (if empty b then Str "none" else Null);
   if empty b then with_ "g" [SelectIn rect; Attr "x" (Num 0); Attr "width" (Num width)]
   else
     let '(e0, e1) := extent b in
     with_ "g" [SelectIn rect; Attr "x" (val_num (x_of c e0));
                Attr "width" (val_num (num_sub (x_of c e1) (x_of c e0)))]].

(** [chart(div)].  The bars are bound to the array [group.all()] returned when
    they were drawn first; the crossfilter updates its elements in place, and
    replaces it only in [add], which the page does not call again. *)
Definition draw_chart (div : string) (c : chart) (s : cf) : js (cf * chart * list effect) :=
  _ ← get (x c);
  gid ← get (group c);
  '(s, first) ← group_top s gid 1;
  e ← get (hd_error first);
  '(s, groups) ← (if drawn c then g ← the_grp s gid; Ret (s, g_groups g) else group_all s gid);
  let path := barPath c (inject_Z <$> kv_value e) groups in
  Ret (s, with_state false true c,
       ((if drawn c then [let_ "g" (Sel ("#" ++ div)) [SelectIn "g"]] else skeleton div c)
        ++ (if brushDirty c then redraw_brush div c else [])
        ++ [with_ "g" [SelectIn ".bar"; Attr "d" (Str path)]])%list).

(** [chart.filter(_)] *)
Definition chart_filter (range : option (num * num)) (c : chart) (s : cf) : js (cf * chart) :=
  did ← get (dimension c);
  match range with
  | Some (lo, hi) =>
      s ← filterRange s did lo hi;
      Ret (s, with_state true (drawn c) (with_brush (set_extent (lo, hi) (the_brush c)) c))
  | None =>
      s ← filterAll s did;
      Ret (s, with_state true (drawn c) (with_brush (clear (the_brush c)) c))
  end.

(** The handlers of the brush; the brush has set its extent before. *)
Definition on_brushstart (div : string) : list effect := [reset_link div Null].

Definition on_brush (c : chart) (s : cf) : js (cf * chart * list effect) :=
  did ← get (dimension c);
  let '(e0, e1) := extent (the_brush c) in
  let '(c, e0, e1, rounding) :=
    match round c with
    | Some f =>
        (with_brush (set_extent (f e0, f e1) (the_brush c)) c, f e0, f e1,
         [with_ "g" [SelectIn ".brush"; Call "brush.extent"; SelectIn ".resize"; Style "display" Null]])
    | None => (c, e0, e1, [])
    end in
  s ← filterRange s did e0 e1;
  Ret (s, c, (rounding ++ [with_ "g" [SelectIn ("#" ++ clip c ++ " rect"); Attr "x" (val_num (x_of c e0));
                                      Attr "width" (val_num (num_sub (x_of c e1) (x_of c e0)))]])%list).

Definition on_brushend (div : string) (c : chart) (s : cf) : js (cf * list effect) :=
  if empty (the_brush c) then
    did ← get (dimension c);
    s ← filterAll s did;
    Ret (s, [reset_link div (Str "none");
             select ("#" ++ div) [SelectIn ("#" ++ clip c ++ " rect"); Attr "x" Null; Attr "width" (Str "100%")]])
  else Ret (s, []).

(** ** The list of requests *)

(** What the list shows: the days, and the indices of the requests of each. *)
Definition shown := list (string * list Z).

Definition request_row (d : req) : list op :=
  let db := formatFixedQ (r_db_duration (json d)) ++ " ms" in
  let view := formatFixedQ (r_view_duration (json d)) ++ " ms" in
  let fast := match r_view_duration (json d) with Some v => negb (Qle_bool 100 v) | None => false end in
  let slow := match r_view_duration (json d) with Some v => Qle_bool 1000 v | None => false end in
  let div := SelectIn ".." in
  [Append "div"; Attr "class" (Str "request");
   Append "div"; Attr "class" (Str "time"); Text (Str (formatTime (timestamp d))); div;
   Append "div"; Attr "class" (Str "duration"); Text (Str db); div;
   Append "div"; Attr "class" (Str "duration"); Classed "fast" fast; Classed "slow" slow; Text (Str view); div;
   Append "div"; Attr "class" (Str "source"); Append "a";
     Attr "href" (Str ("/users?query=" ++ default "undefined" (r_api_key (json d))));
     Text (Str (match r_api_key (json d) with Some k => String.substring 0 20 k | None => "" end)); div;
   Append "div"; Attr "class" (Str "info"); Text (r_info (json d)); div;
   Append "div"; Attr "class" (Str "source"); Text (r_source (json d)); div;
   Append "div"; Attr "class" (Str "ids"); Text (r_ids (json d))].

Definition nestByDate (l : list req) : list (string * list req) := nest (fun d => day_text (utc_day (timestamp d))) l.

Definition old_rows (old : shown) (day : string) : list Z :=
  match List.find (fun '(k, _) => String.eqb k day) old with Some (_, ids) => ids | None => [] end.

(** The joins of the days and of each day's requests, by key; afterwards the
    list shows exactly the requests given, in order. *)
Definition requestList (div : string) (old : shown) (requests : list req) : shown * list effect :=
  let requestsByDate := nestByDate requests in
  let entering := List.filter (fun '(k, _) => negb (existsb (fun '(k', _) => String.eqb k' k) old)) requestsByDate in
  let enter_request '(k, ds) := List.filter (fun d => negb (existsb (Z.eqb (index d)) (old_rows old k))) ds in
  (map (fun '(k, ds) => (k, map index ds)) requestsByDate,
   ([Dom (Cmd (Sel ("#" ++ div)) [SelectIn ".date"; Call "enter"]
       (map (fun '(_, ds) =>
          [Append "div"; Attr "class" (Str "date panel panel-default"); Append "div";
           Attr "class" (Str "panel-heading");
           Text (match ds with d :: _ => Str (formatDate (Some (timestamp d))) | [] => Undefined end)]) entering) None);
     select ("#" ++ div) [SelectIn ".date"; Call "exit"; Remove]]
    ++ map (fun g => Dom (Cmd (Sel ("#" ++ div)) [SelectIn ".date"; SelectIn ".request"; Call "enter"]
                        (map request_row (enter_request g)) None)) requestsByDate
    ++ [select ("#" ++ div) [SelectIn ".request"; Call "exit"; Remove];
        select ("#" ++ div) [SelectIn ".request"; Call "order"]])%list).

(** ** The page *)

Record state := State {
  request : cf;
  all : nat;
  date : nat;
  charts : list chart;
  chart_divs : list string;
  list_div : string;
  listed : shown
}.

(** [chart.each(render)] *)
Fixpoint render_charts (divs : list string) (cs : list chart) (s : cf) : js (cf * list chart * list effect) :=
  match divs, cs with
  | div :: divs, c :: cs =>
      '(s, c, t) ← draw_chart div c s;
      '(s, cs, t') ← render_charts divs cs s;
      Ret (s, c :: cs, (t ++ t')%list)
  | _, _ => Ret (s, cs, [])
  end.

Definition renderAll (p : state) : js (state * list effect) :=
  '(s, cs, t) ← render_charts (chart_divs p) (charts p) (request p);
  top ← CfCore.top s (date p) 50;
  let '(listed, t') := requestList (list_div p) (listed p) top in
  '(s, v) ← groupAll_value s (all p);
  Ret (State s (all p) (date p) cs (chart_divs p) (list_div p) listed,
       (t ++ t' ++ [select "#active" [Text (Str (formatNumber (default 0%Z v)))]])%list).

Definition no_requests : list effect :=
  [alert "#description" "There are currently no API requests"; select "div#charts" [Remove]; select "div#lists" [Remove]].

(** The accessors of the dimensions. *)
Definition by_date (d : req) : num := valueOf (utc_day (timestamp d)).
Definition by_hour (d : req) : num := Some (getUTCHours (timestamp d) + getMinutes (timestamp d) / 60)%Q.
Definition by_db_duration (d : req) : num := num_max (of_Z (-60)) (num_min (of_Z 149) (r_db_duration (json d))).
Definition by_view_duration (d : req) : num := num_min (of_Z 1999) (r_view_duration (json d)).

(** The crossfilter of the page: its dimensions, groups and [groupAll]. *)
Definition page_crossfilter (data : list req) : js (cf * nat * nat * list (nat * nat)) :=
  s ← crossfilter (X:=num) None None typed data;
  '(s, all) ← groupAll s;
  '(s, date) ← CfCore.dimension (X:=num) None None typed s by_date;
  '(s, _) ← CfCore.group (X:=num) None typed s date (fun d => d);
  '(s, hour) ← CfCore.dimension (X:=num) None None typed s by_hour;
  '(s, hours) ← CfCore.group (X:=num) None typed s hour math_floor;
  '(s, db_duration) ← CfCore.dimension (X:=num) None None typed s by_db_duration;
  '(s, db_durations) ← CfCore.group (X:=num) None typed s db_duration (floor_by 10);
  '(s, view_duration) ← CfCore.dimension (X:=num) None None typed s by_view_duration;
  '(s, view_durations) ← CfCore.group (X:=num) None typed s view_duration (floor_by 50);
  Ret (s, all, date, [(hour, hours); (db_duration, db_durations); (view_duration, view_durations)]).

Definition domains : list (num * num) := [(of_Z 0, of_Z 24); (of_Z 0, of_Z 6000); (of_Z 0, of_Z 6000)].

Definition page_charts (dims : list (nat * nat)) : list chart :=
  imap (fun i '((d, g), domain) => with_x domain (with_group g (with_dimension d (barChart i)))) (zip dims domains).

(** [crossfilterViz(data)]: [None] when there is nothing to show. *)
Definition crossfilterViz (divs : list string) (list_div : string) (data : option (list raw))
    : js (option state * list effect) :=
  match data with
  | Some ((_ :: _) as data) =>
      '(s, all, date, dims) ← page_crossfilter (coerced data);
      '(p, t) ← renderAll (State s all date (page_charts dims) divs list_div []);
      Ret (Some p, ([Dom (Cmd (All ".spinner") [Remove] [] None);
                     Dom (Cmd (All "#total") [Text (Str (formatNumber (size s)))] [] None)] ++ t)%list)
  | _ => Ret (None, no_requests)
  end.

(** [window.filter(filters)] *)
Fixpoint filter_charts (filters : list (option (num * num))) (cs : list chart) (s : cf) : js (cf * list chart) :=
  match filters, cs with
  | [], _ => Ret (s, cs)
  | _ :: _, [] => Throw "TypeError"
  | f :: filters, c :: cs =>
      '(s, c) ← chart_filter f c s;
      '(s, cs) ← filter_charts filters cs s;
      Ret (s, c :: cs)
  end.

Definition with_charts (p : state) (s : cf) (cs : list chart) : state :=
  State s (all p) (date p) cs (chart_divs p) (list_div p) (listed p).

Definition window_filter (filters : list (option (num * num))) (p : state) : js (state * list effect) :=
  '(s, cs) ← filter_charts filters (charts p) (request p);
  renderAll (with_charts p s cs).

Definition window_reset (i : nat) (p : state) : js (state * list effect) :=
  c ← get (charts p !! i);
  '(s, c) ← chart_filter None c (request p);
  renderAll (with_charts p s (<[i := c]> (charts p))).

(** The events of a chart's brush: the handler of the chart comes first, then
    [renderAll]. *)
Inductive brush_event := BrushStart | BrushMove (e : num * num) | BrushEnd.

Definition brushed (i : nat) (ev : brush_event) (p : state) : js (state * list effect) :=
  c ← get (charts p !! i);
  div ← get (chart_divs p !! i);
  match ev with
  | BrushStart => Ret (p, on_brushstart div)
  | BrushMove e =>
      '(s, c, t) ← on_brush (with_brush (set_extent e (the_brush c)) c) (request p);
      '(p, t') ← renderAll (with_charts p s (<[i := c]> (charts p)));
      Ret (p, (t ++ t')%list)
  | BrushEnd =>
      '(s, t) ← on_brushend div c (request p);
      '(p, t') ← renderAll (with_charts p s (charts p));
      Ret (p, (t ++ t')%list)
  end.

(** What happens to the page after it is loaded: a call of [window.filter] or
    [window.reset], or an event of the brush of chart [i]. *)
Inductive page_event :=
| Filters (filters : list (option (num * num)))
| ResetChart (i : nat)
| Brushed (i : nat) (ev : brush_event).

Definition handle (ev : page_event) (p : state) : js (state * list effect) :=
  match ev with
  | Filters filters => window_filter filters p
  | ResetChart i => window_reset i p
  | Brushed i ev => brushed i ev p
  end.

Definition query (p : params) : option string :=
  match p with
  | Some _ =>
      let q := read_attr p "data-query" in
      let key := read_attr p "data-key" in
      let query := encodeURI "/api/api_requests" in
      Some (if decide (q <> AStr "") then query ++ "?q=" ++ str_of_attr q
            else if decide (key <> AStr "") then query ++ "?key=" ++ str_of_attr key
            else query)
  | None => None
  end.

Definition loaded (divs : list string) (list_div : string) (error : bool) (api_requests : option (list raw))
    : js (option state * list effect) :=
  if error then Ret (None, [Warn]) else crossfilterViz divs list_div api_requests.
End page.
