(* ===== verification/RequestsProps.v ===== *)
(** * The API requests page: it shows what its ranges select

    The abstract page is the list of its requests and a range for each chart;
    an event sets ranges.  The page of [Requests] refines it: after any events
    its list holds the last requests in all the ranges, and its count their
    number. *)

From Stdlib Require Import String QArith Qround Qminmax Sorted.
From S2P Require Import Prelude.
From S2P Require Import Arrays.
From S2P Require Import CfCore.
From S2P Require Import CfInv.
From S2P Require Import CfTop.
From S2P Require Import CfRecords.
From S2P Require Import CfHistory.
From S2P Require Import CfShape.
From S2P Require Import CfClient.
From S2P Require Import JsStrings.
From S2P Require Import Dom.
From S2P Require Import Charts.
From S2P Require Import Requests.


Section page.
Context `{ReqTools} (typed : bool).
Abbreviation cf := (@CfCore.cf req num).
Abbreviation reachable := (@CfHistory.reachable req num _ (None : num) (None : num) typed).
Abbreviation spec := (nat * (req -> num) * option (num * num))%type.
Abbreviation ranges := (list (option (num * num))).

(** ** The abstract page *)

Definition accessors : list (req -> num) := [by_hour; by_db_duration; by_view_duration].

(** The requests that lie in the ranges. *)
Definition matching (dat : list req) (rs : ranges) : list req :=
  List.filter (fun r => forallb (fun '(value, range) => in_range range (value r)) (combine accessors rs)) dat.

(** The ranges after the first ones have been set. *)
Fixpoint overlay (new old : ranges) : ranges :=
  match new, old with
  | n :: new, _ :: old => n :: overlay new old
  | _, _ => old
  end.

(** What an event does to the ranges; the brush tells which range it marks. *)
Definition set_ranges (ev : page_event) (p : state) (rs : ranges) : ranges :=
  match ev with
  | Filters filters => overlay filters rs
  | ResetChart i => <[i := None]> rs
  | Brushed i ev =>
      match charts p !! i, ev with
      | Some c, BrushMove e => <[i := Some (extent (set_extent e (the_brush c)))]> rs
      | Some c, BrushEnd => if empty (the_brush c) then <[i := None]> rs else rs
      | _, _ => rs
      end
  end.

(** Events the page can get: of a chart it has, with ranges the right way up. *)
Definition event_ok (ev : page_event) (p : state) : Prop :=
  match ev with
  | Filters filters => (List.length filters <= List.length (charts p))%nat /\ Forall range_ok filters
  | ResetChart i => (i < List.length (charts p))%nat
  | Brushed i ev =>
      (i < List.length (chart_divs p))%nat /\
      exists c, charts p !! i = Some c /\
        match ev with BrushMove e => range_ok (Some (extent (set_extent e (the_brush c)))) | _ => True end
  end.

(** ** The page keeps to it *)

Record chart_ok (s : cf) (c : chart) (sp : spec) : Prop := ChartOk {
  co_x : is_Some (x c);
  co_round : round c = None;
  co_dimension : dimension c = Some sp.1.1;
  co_group : exists gid, group c = Some gid /\ has_group s gid
}.

(** The crossfilter [s] of the page, with its [groupAll], its first dimension
    and its charts; [specs] are the dimensions of the charts. *)
Record page_ok (s : cf) (aid did : nat) (cs : list chart) (dat : list req) (specs : list spec) : Prop := PageOk {
  po_reachable : reachable s;
  po_data : data s = dat;
  po_some : dat <> [];
  po_all : FAll aid ∈ filterListeners s;
  po_count : (shape s).2 !! aid = Some count_reducer;
  po_known : known s ((did, by_date, None) :: specs);
  po_nodup : NoDup (did :: specs.*1.*1);
  po_accessors : specs.*1.*2 = accessors;
  po_charts : Forall2 (chart_ok s) cs specs
}.

(** What the list of the page shows of the matching requests: the last fifty,
    under their days; and the count, at the end of a drawing. *)
Definition list_shows (p : state) (dat : list req) (rs : ranges) : Prop :=
  exists l rest, (l ++ rest)%list ≡ₚ matching dat rs /\ alen l = Z.min 50 (alen (matching dat rs)) /\
    StronglySorted (fun r r' => (by_date r' <=. by_date r) = true) (l ++ rest)%list /\
    listed p = map (fun '(k, ds) => (k, map index ds)) (nestByDate l).
Definition count_shows (t : list effect) (dat : list req) (rs : ranges) : Prop :=
  List.last t Warn = select "#active"%string [Text (Str (formatNumber (alen (matching dat rs))))].

Definition page_inv (p : state) (dat : list req) (rs : ranges) : Prop :=
  exists specs, specs.*2 = rs /\ page_ok (request p) (all p) (date p) (charts p) dat specs /\ list_shows p dat rs.

Lemma matching_specs (specs : list spec) (r : req) :
  forallb (fun '(_, value, range) => in_range range (value r)) specs =
  forallb (fun '(value, range) => in_range range (value r)) (combine specs.*1.*2 specs.*2).
Proof. induction specs as [|[[d v] g] specs IH]; [done|]. simpl in *. by rewrite IH. Qed.

Lemma page_selection s aid did cs dat specs :
  page_ok s aid did cs dat specs -> selection s = matching dat specs.*2.
Proof.
  intros Hp. rewrite (known_selection s _ (po_known _ _ _ _ _ _ Hp)), (po_data _ _ _ _ _ _ Hp). unfold matching.
  apply filter_ext. intros r. simpl. by rewrite matching_specs, (po_accessors _ _ _ _ _ _ Hp).
Qed.

Lemma chart_ok_shape (s s' : cf) c sp : shape s' = shape s -> chart_ok s c sp -> chart_ok s' c sp.
Proof.
  intros Hs [? ? ? (gid & Hg & Hl)]. injection Hs as Hs _. split; try done. exists gid. split; [done|].
  unfold has_group. by rewrite Hs.
Qed.

(** Reading groups keeps the page. *)
Lemma page_ok_read (s s' : cf) aid did cs cs' dat specs :
  reachable s' -> same_core s s' -> shape s' = shape s -> Forall2 (chart_ok s') cs' specs ->
  page_ok s aid did cs dat specs -> page_ok s' aid did cs' dat specs.
Proof.
  intros Hr Hcore Hs Hcs [_ Hd Hne Hall Hc Hk Hnd Ha _]. split; try done.
  - by etransitivity; [apply Hcore|].
  - injection Hs as Hs _. by rewrite Hs.
  - by rewrite Hs.
  - apply (known_core s); [apply Hcore|apply Hcore|done].
Qed.

(** Charts that differ in their brush, and in what they have drawn. *)
Definition same_chart (c c' : chart) : Prop :=
  x c' = x c /\ round c' = round c /\ dimension c' = dimension c /\ group c' = group c.

Lemma chart_ok_same s c c' sp : same_chart c c' -> chart_ok s c sp -> chart_ok s c' sp.
Proof. intros (Ex & Er & Ed & Eg) []. split; by rewrite ?Ex, ?Er, ?Ed, ?Eg. Qed.

(** ** Drawing *)

Lemma draw_chart_ok (s : cf) div c sp :
  reachable s -> data s <> [] -> chart_ok s c sp ->
  exists s' t, draw_chart div c s = Ret (s', with_state false true c, t) /\ reachable s' /\ same_core s s'
    /\ shape s' = shape s.
Proof.
  intros Hr Hne [[dom Hx] _ _ (gid & Hg & Hl)]. unfold draw_chart, get. rewrite Hx, Hg. cbn [mbind js_bind].
  destruct (group_top1_ok (X:=num) None None typed s gid Hr Hl Hne) as (s1 & e & l & -> & Hr1 & Hc1 & Hs1).
  cbn [mbind js_bind hd_error]. assert (has_group s1 gid) as Hl1.
  { unfold has_group. injection Hs1 as -> _. done. }
  destruct (drawn c).
  - destruct (has_group_listed typed s1 gid (proj2 (reachable_ok _ _ _ _ Hr1)) Hl1) as [g [Hgid _]].
    unfold the_grp. rewrite Hgid. cbn [mbind js_bind]. eexists s1, _. by split_and!.
  - destruct (group_all_ok (X:=num) None None typed s1 gid Hr1 Hl1) as (s2 & gs & -> & Hr2 & Hc2 & Hs2).
    cbn [mbind js_bind]. eexists s2, _. split_and!; [done..| |congruence]. by transitivity s1.
Qed.

Lemma render_charts_ok divs (s : cf) cs specs :
  reachable s -> data s <> [] -> Forall2 (chart_ok s) cs specs ->
  exists s' cs' t, render_charts divs cs s = Ret (s', cs', t) /\ reachable s' /\ same_core s s' /\ shape s' = shape s
    /\ Forall2 (chart_ok s') cs' specs.
Proof.
  intros Hr Hne Hcs. revert s divs Hr Hne Hcs.
  enough (forall s0 (s : cf) divs, shape s = shape s0 -> reachable s -> data s <> [] -> Forall2 (chart_ok s0) cs specs ->
    exists s' cs' t, render_charts divs cs s = Ret (s', cs', t) /\ reachable s' /\ same_core s s' /\ shape s' = shape s
      /\ Forall2 (chart_ok s0) cs' specs) as Hall.
  { intros s divs Hr Hne Hcs. destruct (Hall s s divs eq_refl Hr Hne Hcs) as (s' & cs' & t & E & Hr' & Hc & Hs & Hf).
    exists s', cs', t. split_and!; try done. eapply Forall2_impl; [exact Hf|]. intros. by eapply chart_ok_shape. }
  intros s0 s divs Hs0 Hr Hne Hcs. revert s divs Hs0 Hr Hne. induction Hcs as [|c sp cs specs Hc Hcs IH]; intros s divs Hs0 Hr Hne.
  { exists s, [], []. destruct divs; by split_and!. }
  destruct divs as [|div divs]; [exists s, (c :: cs), []; split_and!; try done; by constructor|]. cbn [render_charts].
  destruct (draw_chart_ok s div c sp Hr Hne ltac:(by apply (chart_ok_shape s0))) as (s1 & t & -> & Hr1 & Hc1 & Hs1).
  cbn [mbind js_bind].
  destruct (IH s1 divs ltac:(congruence) Hr1 ltac:(by rewrite (sc_data _ _ Hc1))) as (s2 & cs2 & t2 & -> & Hr2 & Hc2 & Hs2 & Hf).
  cbn [mbind js_bind]. eexists s2, _, _. split_and!; [done|done| |congruence|].
  - by transitivity s1.
  - constructor; [by destruct Hc|done].
Qed.

(** [renderAll] shows the matching requests. *)
Lemma renderAll_ok p dat specs :
  page_ok (request p) (all p) (date p) (charts p) dat specs ->
  exists p' t, renderAll p = Ret (p', t) /\ page_inv p' dat specs.*2 /\ count_shows t dat specs.*2.
Proof.
  intros Hp. pose proof Hp as [Hr Hd Hne _ _ _ _ _ Hcs]. unfold renderAll.
  destruct (render_charts_ok (chart_divs p) _ _ _ Hr ltac:(by rewrite Hd) Hcs) as (s1 & cs & t & -> & Hr1 & Hc1 & Hs1 & Hcs1).
  cbn [mbind js_bind]. pose proof (page_ok_read _ _ _ _ _ _ _ _ Hr1 Hc1 Hs1 Hcs1 Hp) as Hp1.
  pose proof (page_selection _ _ _ _ _ _ Hp1) as Hsel.
  pose proof Hp1 as [_ _ _ Hall Hcount Hk _ _ _].
  destruct (top_ok (X:=num) None None typed s1 (date p) by_date None 50 Hr1 (Forall_inv (proj1 Hk)) ltac:(lia))
    as (l & rest & -> & Hlen & Hperm & Hsort). cbn [mbind js_bind]. rewrite Hsel in *.
  destruct (requestList (list_div p) (listed p) l) as [shown t'] eqn:El.
  destruct (value_ok (X:=num) None None typed s1 (all p) Hr1 Hall Hcount) as (s2 & -> & Hr2 & Hc2 & Hs2).
  cbn [mbind js_bind]. eexists _, _. split; [done|]. split.
  - exists specs. split; [done|]. simpl. split.
    + eapply page_ok_read; [done|done|done| |exact Hp1]. eapply Forall2_impl; [exact Hcs1|]. intros. by eapply chart_ok_shape.
    + exists l, rest. split_and!; try done. simpl. unfold requestList in El. by injection El as <- _.
  - unfold count_shows. rewrite app_assoc, List.last_last, Hsel. done.
Qed.
(** ** Filtering *)

Lemma chart_filter_ok (s s' : cf) c did range :
  dimension c = Some did -> set_range s did range = Ret s' ->
  exists c', chart_filter range c s = Ret (s', c') /\ same_chart c c'.
Proof.
  intros Hd Hs. unfold chart_filter, get. rewrite Hd. cbn [mbind js_bind].
  destruct range as [[lo hi]|]; simpl in Hs; rewrite Hs; cbn [mbind js_bind]; eexists; by split.
Qed.

(** The range of chart [i] is set. *)
Lemma set_chart_range (s : cf) aid did cs dat specs i c range :
  page_ok s aid did cs dat specs -> cs !! i = Some c -> range_ok range ->
  exists cd s' specs', dimension c = Some cd /\ set_range s cd range = Ret s'
    /\ page_ok s' aid did cs dat specs' /\ specs'.*2 = <[i := range]> specs.*2.
Proof.
  intros [Hr Hd Hne Hall Hcount Hk Hnd Ha Hcs] Hi Hok.
  destruct (Forall2_lookup_l _ _ _ _ _ Hcs Hi) as ([[cd v] g] & Hsp & [_ _ Hdim _]).
  destruct (set_range_known (X:=num) None None typed s ((did, by_date, None) :: specs) (S i) cd v g range Hr Hk Hnd Hsp Hok)
    as (s' & E & Hr' & Ed & Es & Hk').
  exists cd, s', (<[i := (cd, v, range)]> specs). split_and!; [done|done| |by rewrite list_fmap_insert].
  assert ((<[i := (cd, v, range)]> specs).*1 = specs.*1) as E1.
  { rewrite list_fmap_insert. apply list_insert_id. by rewrite list_lookup_fmap, Hsp. }
  split; rewrite ?E1; try done; [congruence| |by rewrite Es|].
  - injection Es as Es _. by rewrite Es.
  - rewrite <- (list_insert_id cs i c Hi). apply Forall2_insert.
    + eapply Forall2_impl; [exact Hcs|]. intros. by eapply chart_ok_shape.
    + apply (chart_ok_shape s); [done|]. pose proof (Forall2_lookup_lr _ _ _ _ _ _ Hcs Hi Hsp) as Hc. by destruct Hc.
Qed.

(** The charts may be replaced by charts of the same kind. *)
Lemma page_ok_charts (s : cf) aid did cs dat specs i c c' :
  page_ok s aid did cs dat specs -> cs !! i = Some c -> same_chart c c' -> page_ok s aid did (<[i := c']> cs) dat specs.
Proof.
  intros [] Hi Hc. split; try done. destruct (Forall2_lookup_l _ _ _ _ _ po_charts0 Hi) as (sp & Hsp & Hcok).
  rewrite <- (list_insert_id specs i sp Hsp). apply Forall2_insert; [done|by eapply chart_ok_same].
Qed.

Lemma filter_charts_ok fs (s : cf) cs pre specs :
  reachable s -> known s (pre ++ specs) -> NoDup (pre ++ specs).*1.*1 -> Forall2 (chart_ok s) cs specs ->
  (List.length fs <= List.length cs)%nat -> Forall range_ok fs ->
  exists s' cs' specs', filter_charts fs cs s = Ret (s', cs') /\ reachable s' /\ data s' = data s /\ shape s' = shape s
    /\ known s' (pre ++ specs') /\ specs'.*1 = specs.*1 /\ specs'.*2 = overlay fs specs.*2
    /\ Forall2 (chart_ok s) cs' specs'.
Proof.
  revert s cs pre specs. induction fs as [|f fs IH]; intros s cs pre specs Hr Hk Hnd Hcs Hlen Hok.
  { exists s, cs, specs. by destruct cs; split_and!. }
  inversion Hcs as [|c [[cd v] g] cs0 specs0 Hc Hcs0]; subst; [simpl in Hlen; lia|].
  inversion Hok as [|? ? Hf Hfs]; subst. cbn [filter_charts].
  destruct (set_range_known (X:=num) None None typed s _ (length pre) cd v g f Hr Hk Hnd ltac:(by apply list_lookup_middle) Hf)
    as (s1 & E & Hr1 & Ed & Es & Hk1).
  rewrite insert_app_r_alt, Nat.sub_diag in Hk1 by done. cbn [insert list_insert] in Hk1.
  destruct (chart_filter_ok s s1 c cd f (co_dimension _ _ _ Hc) E) as (c1 & -> & Hsame). cbn [mbind js_bind].
  destruct (IH s1 cs0 (pre ++ [(cd, v, f)])%list specs0) as (s2 & cs2 & specs2 & -> & Hr2 & Ed2 & Es2 & Hk2 & E1 & E2 & Hf2).
  - done.
  - by rewrite <- app_assoc.
  - revert Hnd. by rewrite !fmap_app, <- app_assoc.
  - eapply Forall2_impl; [exact Hcs0|]. intros. by eapply chart_ok_shape.
  - simpl in Hlen. lia.
  - done.
  - cbn [mbind js_bind]. exists s2, (c1 :: cs2), ((cd, v, f) :: specs2).
    rewrite <- app_assoc in Hk2. split_and!; try done; [congruence|congruence|by rewrite !fmap_cons, E1|
      by rewrite fmap_cons, E2|].
    constructor.
    + eapply chart_ok_same; [exact Hsame|]. by destruct Hc.
    + eapply Forall2_impl; [exact Hf2|]. intros. by apply (chart_ok_shape s1).
Qed.
(** ** Events *)

Lemma count_shows_app t t' dat rs : count_shows t' dat rs -> count_shows (t ++ t') dat rs.
Proof.
  unfold count_shows. destruct t' as [|e t'] using rev_ind; [done|]. by rewrite app_assoc, !List.last_last.
Qed.

Definition redraws (ev : page_event) : bool := match ev with Brushed _ BrushStart => false | _ => true end.

(** What is left of a handler after the filters have been set. *)
Lemma finish p s cs dat specs (k : state * list effect -> js (state * list effect)) pre :
  page_ok s (all p) (date p) cs dat specs -> (forall p t, k (p, t) = Ret (p, (pre ++ t)%list)) ->
  exists p' t, (renderAll (with_charts p s cs) ≫= k) = Ret (p', t) /\ page_inv p' dat specs.*2 /\ count_shows t dat specs.*2.
Proof.
  intros Hp Hk. destruct (renderAll_ok (with_charts p s cs) dat specs Hp) as (p' & t & -> & Hi & Hc).
  cbn [mbind js_bind]. rewrite Hk. exists p', (pre ++ t)%list. split_and!; [done..|]. by apply count_shows_app.
Qed.

Lemma reset_ok p dat specs i :
  page_ok (request p) (all p) (date p) (charts p) dat specs -> (i < List.length (charts p))%nat ->
  exists p' t, window_reset i p = Ret (p', t) /\ page_inv p' dat (<[i := None]> specs.*2)
    /\ count_shows t dat (<[i := None]> specs.*2).
Proof.
  intros Hp Hi. destruct (lookup_lt_is_Some_2 (charts p) i Hi) as [c Hc]. unfold window_reset, get. rewrite Hc.
  destruct (set_chart_range _ _ _ _ _ _ i c None Hp Hc I) as (cd & s' & specs' & Hd & Hs & Hp' & <-).
  cbn [mbind js_bind]. destruct (chart_filter_ok _ _ c cd None Hd Hs) as (c' & -> & Hsame). cbn [mbind js_bind].
  apply (renderAll_ok (with_charts p s' (<[i := c']> (charts p)))). by apply (page_ok_charts _ _ _ _ _ _ i c).
Qed.

Lemma filters_ok p dat specs fs :
  page_ok (request p) (all p) (date p) (charts p) dat specs ->
  (List.length fs <= List.length (charts p))%nat -> Forall range_ok fs ->
  exists p' t, window_filter fs p = Ret (p', t) /\ page_inv p' dat (overlay fs specs.*2)
    /\ count_shows t dat (overlay fs specs.*2).
Proof.
  intros [Hr Hd Hne Hall Hcount Hk Hnd Ha Hcs] Hlen Hok. unfold window_filter.
  destruct (filter_charts_ok fs _ _ [(date p, by_date, None)] specs Hr Hk Hnd Hcs Hlen Hok)
    as (s' & cs' & specs' & -> & Hr' & Ed & Es & Hk' & E1 & <- & Hcs').
  cbn [mbind js_bind]. apply (renderAll_ok (with_charts p s' cs')).
  unfold with_charts. cbn [request all date charts]. split; rewrite ?E1; try done; [by rewrite Ed|injection Es as Es _; by rewrite Es|by rewrite Es|].
  eapply Forall2_impl; [exact Hcs'|]. intros. by eapply chart_ok_shape.
Qed.

Lemma brush_move_ok p dat specs i e c :
  page_ok (request p) (all p) (date p) (charts p) dat specs -> (i < List.length (chart_divs p))%nat ->
  charts p !! i = Some c -> let r := Some (extent (set_extent e (the_brush c))) in range_ok r ->
  exists p' t, brushed i (BrushMove e) p = Ret (p', t) /\ page_inv p' dat (<[i := r]> specs.*2)
    /\ count_shows t dat (<[i := r]> specs.*2).
Proof.
  intros Hp Hi Hc r Hok. destruct (lookup_lt_is_Some_2 (chart_divs p) i Hi) as [div Hdiv].
  destruct (set_chart_range _ _ _ _ _ _ i c r Hp Hc Hok) as (cd & s' & specs' & Hd & Hs & Hp' & <-).
  pose proof (Forall2_lookup_l _ _ _ _ _ (po_charts _ _ _ _ _ _ Hp) Hc) as (sp & _ & [_ Hround _ _]).
  unfold brushed, get, on_brush. rewrite Hc, Hdiv. cbn [mbind js_bind with_brush dimension the_brush round get].
  rewrite Hd, Hround. cbn [mbind js_bind]. unfold r, set_range in Hs.
  destruct (extent (set_extent e (the_brush c))) as [e0 e1]. cbn [get mbind js_bind]. rewrite Hs. cbn [mbind js_bind].
  eapply finish; [by apply (page_ok_charts _ _ _ _ _ _ i c)|reflexivity].
Qed.

Lemma brush_end_ok p dat specs i c :
  page_ok (request p) (all p) (date p) (charts p) dat specs -> (i < List.length (chart_divs p))%nat ->
  charts p !! i = Some c -> let rs := if empty (the_brush c) then <[i := None]> specs.*2 else specs.*2 in
  exists p' t, brushed i BrushEnd p = Ret (p', t) /\ page_inv p' dat rs /\ count_shows t dat rs.
Proof.
  intros Hp Hi Hc. destruct (lookup_lt_is_Some_2 (chart_divs p) i Hi) as [div Hdiv].
  unfold brushed, get, on_brushend. rewrite Hc, Hdiv. cbn [mbind js_bind].
  destruct (empty (the_brush c)); cbn [mbind js_bind]; [|by eapply finish].
  destruct (set_chart_range _ _ _ _ _ _ i c None Hp Hc I) as (cd & s' & specs' & Hd & Hs & Hp' & <-).
  unfold get. rewrite Hd. cbn [mbind js_bind]. simpl in Hs. rewrite Hs. cbn [mbind js_bind]. by eapply finish.
Qed.

Lemma handle_ok ev p dat rs :
  page_inv p dat rs -> event_ok ev p ->
  exists p' t, handle ev p = Ret (p', t) /\ page_inv p' dat (set_ranges ev p rs)
    /\ (redraws ev = true -> count_shows t dat (set_ranges ev p rs)).
Proof.
  intros (specs & <- & Hp & Hl) Hev.
  assert (forall (m : js (state * list effect)) rs',
    (exists p' t, m = Ret (p', t) /\ page_inv p' dat rs' /\ count_shows t dat rs') ->
    exists p' t, m = Ret (p', t) /\ page_inv p' dat rs' /\ (redraws ev = true -> count_shows t dat rs')) as Hweak.
  { intros m rs' (p' & t & ? & ? & ?). eauto 6. }
  destruct ev as [fs|i|i [|e|]]; simpl in Hev; cbn [handle set_ranges].
  - apply Hweak, filters_ok; naive_solver.
  - by apply Hweak, reset_ok.
  - destruct Hev as (Hi & c & Hc & _). unfold brushed. rewrite Hc.
    destruct (lookup_lt_is_Some_2 (chart_divs p) i Hi) as [div ->]. cbn [get mbind js_bind].
    eexists p, _. split; [done|]. split; [by exists specs|done].
  - destruct Hev as (Hi & c & Hc & Hok). rewrite Hc. by apply Hweak, brush_move_ok.
  - destruct Hev as (Hi & c & Hc & _). rewrite Hc. by apply Hweak, brush_end_ok.
Qed.
(** ** Loading *)

(** What the requests have to be like: comparable values, and not too many. *)
Record data_ok (dat : list req) : Prop := DataOk {
  da_some : dat <> [];
  da_small : alen dat <= 2 ^ 30;
  da_date : forall r, r ∈ dat -> natural (by_date r);
  da_db : forall r, r ∈ dat -> natural (r_db_duration (json r));
  da_view : forall r, r ∈ dat -> natural (r_view_duration (json r))
}.

Lemma natural_num (v : num) : natural v <-> v <> None.
Proof.
  unfold natural. destruct v as [q|]; simpl; [|naive_solver]. split; [done|]. intros _. apply Qle_bool_iff, Qle_refl.
Qed.

Lemma floor_by_mono w (a b : num) : (a <=. b) = true -> (floor_by w a <=. floor_by w b) = true.
Proof.
  destruct a as [a|], b as [b|]; try done. intros Hab%Qle_bool_iff. apply Qle_bool_iff.
  rewrite <- Zle_Qle. apply Z.mul_le_mono_nonneg_r; [lia|]. apply Qfloor_resp_le, Qmult_le_compat_r; [done|].
  apply Qinv_le_0_compat. change 0%Q with (inject_Z 0). by rewrite <- Zle_Qle.
Qed.

Lemma math_floor_mono (a b : num) : (a <=. b) = true -> (math_floor a <=. math_floor b) = true.
Proof.
  destruct a as [a|], b as [b|]; simpl; try done. rewrite !Qle_bool_iff. intros Hab.
  rewrite <- Zle_Qle. by apply Qfloor_resp_le.
Qed.

(** The crossfilter while the page sets it up: [i] dimensions, each with a group. *)
Record stage (s : cf) (dat : list req) (i : Z) (specs : list spec) (gids : list nat) : Prop := Stage {
  sg_reachable : reachable s;
  sg_data : data s = dat;
  sg_m : m s = Z.ones i;
  sg_galls : galls s = [GAll None count_reducer true];
  sg_known : known s specs;
  sg_nodup : NoDup specs.*1.*1;
  sg_all : FAll 0 ∈ filterListeners s;
  sg_groups : forall gid, gid ∈ gids -> has_group s gid
}.

Lemma stage_step (s : cf) dat i specs gids (value : req -> num) key :
  stage s dat i specs gids -> 0 <= i < 30 -> dat <> [] -> (forall r, r ∈ dat -> natural (value r)) ->
  (forall x y : num, (x <=. y) = true -> (key x <=. key y) = true) ->
  exists s1 did s2 gid, CfCore.dimension (X:=num) None None typed s value = Ret (s1, did)
    /\ CfCore.group (X:=num) None typed s1 did key = Ret (s2, gid)
    /\ stage s2 dat (i + 1) ((did, value, None) :: specs) (gid :: gids).
Proof.
  intros [Hr Hd Hm Hg Hk Hnd Hall Hgs] Hi Hne Hnat Hkey.
  destruct (dimension_group_ok (X:=num) None None typed s value key i specs Hr Hk Hm Hi)
    as (s1 & did & s2 & gid & E1 & E2 & Hr2 & Ed2 & Em2 & Eg2 & Hk2 & Hfresh & Hgid & Hfl); [by rewrite Hd|by rewrite Hd|done|].
  exists s1, did, s2, gid. split_and!; [done..|]. split; try done; try congruence.
  - rewrite !fmap_cons. constructor; [|done]. intros ([e v] & He & Hs)%list_elem_of_fmap. simpl in He. subst.
    apply list_elem_of_fmap in Hs as ([[e' v'] r] & [= -> ->] & Hs). by eapply Hfresh.
  - by apply Hfl.
  - intros g [->|Hin]%elem_of_cons; [done|]. destruct (Hgs g Hin) as [Hl|Hl]; [left|right]; by apply Hfl.
Qed.

(** The crossfilter before the dimensions. *)
Lemma stage_start dat :
  data_ok dat -> exists s0 s1, crossfilter (X:=num) None None typed dat = Ret s0 /\ groupAll s0 = Ret (s1, O) /\ stage s1 dat 0 [] [].
Proof.
  intros [Hne Hsmall _ _ _]. unfold crossfilter, add. destruct (Z.eqb_spec (alen dat) 0) as [E|E].
  { destruct dat; [done|unfold alen in E; simpl in E; lia]. }
  cbn [new_crossfilter data n m M filters filterListeners dataListeners removeDataListeners dims grps galls for_each].
  set (s0 := Cf _ _ _ _ _ _ _ _ _ _ _). eexists s0, _. split; [done|]. split; [done|].
  assert (add (X:=num) None None typed (new_crossfilter typed) dat = Ret s0) as E0.
  { unfold add. destruct (Z.eqb_spec (alen dat) 0); [done|reflexivity]. }
  assert (reachable s0) as Hr0.
  { eapply (r_add (X:=num) None None typed _ dat s0); [apply r_new|simpl; lia| |exact E0].
    by intros did d r [_ []%elem_of_nil]. }
  split; simpl; try done.
  - eapply (r_groupAll (X:=num) None None typed s0 _ O); [done|by right|reflexivity].
  - split; [constructor|]. simpl. intros did Hd%list_elem_of_singleton. discriminate Hd.
  - constructor.
  - left.
  - intros gid Hg%elem_of_nil. done.
Qed.

Lemma load_ok dat :
  data_ok dat ->
  exists s did dims specs, page_crossfilter typed dat = Ret (s, O, did, dims)
    /\ page_ok s O did (page_charts dims) dat specs /\ specs.*2 = [None; None; None].
Proof.
  intros Hdat. pose proof (da_some _ Hdat) as Hne. unfold page_crossfilter.
  destruct (stage_start dat Hdat) as (s0 & s1 & -> & Eg & Hg1). cbn [mbind js_bind]. rewrite Eg. cbn [mbind js_bind].
  destruct (stage_step s1 dat 0 [] [] by_date (fun d => d) Hg1) as (s1' & did & s2 & gid & E & E' & Hg2);
    [lia|done|by apply da_date|done|]. rewrite E. cbn [mbind js_bind]. rewrite E'. cbn [mbind js_bind].
  destruct (stage_step s2 dat _ _ _ by_hour math_floor Hg2) as (s2' & hour & s3 & hours & E2 & E2' & Hg3);
    [lia|done|by intros; apply natural_num|apply math_floor_mono|]. rewrite E2. cbn [mbind js_bind]. rewrite E2'. cbn [mbind js_bind].
  destruct (stage_step s3 dat _ _ _ by_db_duration (floor_by 10) Hg3) as (s3' & db & s4 & dbs & E3 & E3' & Hg4);
    [lia|done| |apply floor_by_mono|].
  { intros r Hr%(da_db _ Hdat). rewrite natural_num in *. unfold by_db_duration. by destruct (r_db_duration (json r)). }
  rewrite E3. cbn [mbind js_bind]. rewrite E3'. cbn [mbind js_bind].
  destruct (stage_step s4 dat _ _ _ by_view_duration (floor_by 50) Hg4) as (s4' & view & s5 & views & E4 & E4' & Hg5);
    [lia|done| |apply floor_by_mono|].
  { intros r Hr%(da_view _ Hdat). rewrite natural_num in *. unfold by_view_duration. by destruct (r_view_duration (json r)). }
  rewrite E4. cbn [mbind js_bind]. rewrite E4'. cbn [mbind js_bind].
  set (specs := [(hour, by_hour, None); (db, by_db_duration, None); (view, by_view_duration, None)] : list spec).
  eexists s5, did, _, specs. split; [reflexivity|]. split; [|done].
  destruct Hg5 as [Hr Hd Hm Hg Hk Hnd Hall Hgs].
  pose proof (Permutation_rev ((did, by_date, None) :: specs)) as Hperm. simpl in Hperm.
  split; try done.
  - unfold shape. by rewrite Hg.
  - by apply (known_perm s5 _ _ (symmetry Hperm)).
  - change (NoDup ((did, by_date, None) :: specs).*1.*1). by rewrite Hperm.
  - repeat (constructor; [by split; [eexists|..|eexists; split; [done|apply Hgs; rewrite !elem_of_cons; auto 10]]|]). constructor.
Qed.
(** ** The page in use *)

(** The pages that come of loading the requests and of the events after it,
    with the ranges that have been set. *)
Inductive page_reachable (divs : list string) (list_div : string) (raws : list raw) : state -> ranges -> Prop :=
| pr_loaded p t :
    crossfilterViz typed divs list_div (Some raws) = Ret (Some p, t) ->
    page_reachable divs list_div raws p [None; None; None]
| pr_event p rs ev p' t :
    page_reachable divs list_div raws p rs -> event_ok ev p -> handle ev p = Ret (p', t) ->
    page_reachable divs list_div raws p' (set_ranges ev p rs).

Lemma viz_ok divs list_div raws :
  data_ok (coerced raws) ->
  exists p t, crossfilterViz typed divs list_div (Some raws) = Ret (Some p, t)
    /\ page_inv p (coerced raws) [None; None; None] /\ count_shows t (coerced raws) [None; None; None].
Proof.
  intros Hdat. destruct raws as [|r raws]; [by destruct (da_some _ Hdat)|]. unfold crossfilterViz.
  destruct (load_ok _ Hdat) as (s & did & dims & specs & -> & Hp & <-). cbn [mbind js_bind].
  destruct (renderAll_ok (State s O did (page_charts dims) divs list_div []) _ specs Hp) as (p & t & -> & Hi & Hc).
  cbn [mbind js_bind]. eexists p, _. split; [done|]. split; [done|by apply count_shows_app].
Qed.

Lemma page_reachable_inv divs list_div raws p rs :
  data_ok (coerced raws) -> page_reachable divs list_div raws p rs -> page_inv p (coerced raws) rs.
Proof.
  intros Hdat Hp. induction Hp as [p t E|p rs ev p' t _ IH Hev E].
  - destruct (viz_ok divs list_div raws Hdat) as (p' & t' & E' & Hi & _). rewrite E in E'. by injection E' as <- _.
  - destruct (handle_ok ev p _ rs IH Hev) as (p2 & t2 & E2 & Hi & _). rewrite E in E2. by injection E2 as <- _.
Qed.

(** The page has three charts. *)
Lemma page_charts_three p dat rs : page_inv p dat rs -> List.length (charts p) = 3%nat.
Proof.
  intros (specs & _ & [_ _ _ _ _ _ _ Ha Hcs] & _). rewrite (Forall2_length _ _ _ Hcs).
  apply (f_equal List.length) in Ha. by rewrite !length_fmap in Ha.
Qed.

(** C12: whatever the visitor has brushed, set and reset, the list shows the
    latest fifty of the requests that lie in all the ranges, newest first, each
    day under its heading. *)
Theorem requests_page_refines divs list_div raws p rs :
  data_ok (coerced raws) -> page_reachable divs list_div raws p rs -> list_shows p (coerced raws) rs.
Proof. intros Hdat Hp. by destruct (page_reachable_inv _ _ _ _ _ Hdat Hp) as (specs & _ & _ & ?). Qed.

(** C13: the page loads, and every event is handled; every drawing ends with the
    number of requests that lie in the ranges. *)
Theorem requests_page_goes_on divs list_div raws :
  data_ok (coerced raws) ->
  (exists p t, crossfilterViz typed divs list_div (Some raws) = Ret (Some p, t)
     /\ count_shows t (coerced raws) [None; None; None]) /\
  (forall p rs ev, page_reachable divs list_div raws p rs -> event_ok ev p ->
     exists p' t, handle ev p = Ret (p', t) /\ page_reachable divs list_div raws p' (set_ranges ev p rs)
       /\ (redraws ev = true -> count_shows t (coerced raws) (set_ranges ev p rs))).
Proof.
  intros Hdat. split.
  - destruct (viz_ok divs list_div raws Hdat) as (p & t & E & _ & Hc). eauto.
  - intros p rs ev Hp Hev.
    destruct (handle_ok ev p _ rs (page_reachable_inv _ _ _ _ _ Hdat Hp) Hev) as (p' & t & E & _ & Hc).
    exists p', t. split_and!; try done. by eapply pr_event.
Qed.
End page.

(** ** A page with three requests *)

(** A date is its day as a number in text; a brush the range it marks, if any. *)
Definition text_tools : @ReqTools text_d3 text_scales :=
  @Build_ReqTools text_d3 text_scales
    (fun d : string => inject_Z <$> to_number d) (fun d => d) (fun d => d) (fun _ => 3%Q) (fun _ => 30%Q)
    str_of_num (fun v => match v with Some q => str_of_num (Qfloor q) | None => "NaN"%string end)
    (option (num * num)) None (fun _ b => b) (default (of_Z 0, of_Z 0)) (fun e _ => Some e) (fun _ => None)
    (fun b => match b with Some _ => false | None => true end) ["e"; "w"]%string.

Definition ex_raw (day : string) (db view : Z) : raw :=
  Raw day (of_Z db) (of_Z view) None Undefined Undefined Undefined.
Definition ex_raws : list raw := [ex_raw "1" 20 300; ex_raw "2" 120 40; ex_raw "2" 90 2500]%string.
Definition ex_divs : list string := ["hour-chart"; "db-chart"; "view-chart"]%string.

Lemma ex_data_ok : data_ok (H1 := text_tools) (coerced ex_raws).
Proof.
  split; [done|by vm_compute|..]; intros r Hr; apply list_elem_of_In in Hr; simpl in Hr;
    destruct Hr as [<-|[<-|[<-|[]]]]; by vm_compute.
Qed.

Definition ex_page (events : list page_event) : option (state (H1 := text_tools)) :=
  match crossfilterViz (H1 := text_tools) true ex_divs "list" (Some ex_raws) with
  | Ret (Some p, _) =>
      fold_left (fun p ev => p ← p; match handle (H1 := text_tools) ev p with Ret (p, _) => Some p | _ => None end)
        events (Some p)
  | _ => None
  end.

(** All requests; those of less than 100 ms in the database; instead, those of
    less than 1000 ms in all; and all again. *)
Example ex_page_lists :
  (fun evs => listed <$> ex_page evs) <$>
    [[]; [Brushed 1 (BrushMove (of_Z 0, of_Z 100))];
     [Brushed 1 (BrushMove (of_Z 0, of_Z 100)); Filters [None; None; Some (of_Z 0, of_Z 1000)]];
     [Brushed 1 (BrushMove (of_Z 0, of_Z 100)); ResetChart 1]]
  = [Some [("2", [2; 1]); ("1", [0])]; Some [("2", [2]); ("1", [0])]; Some [("2", [1]); ("1", [0])];
     Some [("2", [2; 1]); ("1", [0])]]%string.
Proof. by vm_compute. Qed.

Lemma requests_page_refines_witness :
  exists p, page_reachable (H1 := text_tools) true ex_divs "list" ex_raws p [None; Some (of_Z 0, of_Z 100); None]
    /\ list_shows p (coerced ex_raws) [None; Some (of_Z 0, of_Z 100); None].
Proof.
  destruct (viz_ok (H1 := text_tools) true ex_divs "list" ex_raws ex_data_ok) as (p0 & t0 & E0 & Hi & _).
  pose proof (pr_loaded true ex_divs "list" ex_raws p0 t0 E0) as Hp0.
  destruct (handle_ok true (Filters [None; Some (of_Z 0, of_Z 100)]) p0 _ _ Hi) as (p & t & E & _).
  { split; [rewrite (page_charts_three true p0 _ _ Hi); simpl; lia|]. by repeat constructor. }
  assert (page_reachable (H1 := text_tools) true ex_divs "list" ex_raws p [None; Some (of_Z 0, of_Z 100); None]) as Hp.
  { refine (pr_event true ex_divs "list" ex_raws p0 _ (Filters [None; Some (of_Z 0, of_Z 100)]) p t Hp0 _ E).
    split; [rewrite (page_charts_three true p0 _ _ Hi); simpl; lia|]. by repeat constructor. }
  exists p. split; [exact Hp|].
  exact (requests_page_refines true ex_divs "list" ex_raws p _ ex_data_ok Hp).
Defined.

Lemma requests_page_goes_on_witness :
  exists (p : state (H1 := text_tools)) t, crossfilterViz (H1 := text_tools) true ex_divs "list" (Some ex_raws) = Ret (Some p, t)
    /\ count_shows (H1 := text_tools) t (coerced ex_raws) [None; None; None].
Proof. exact (proj1 (requests_page_goes_on (H1 := text_tools) true ex_divs "list" ex_raws ex_data_ok)). Defined.
