(* ===== verification/ShimArray.v ===== *)
(** * Arrays of [es5-shim.js] (lines 127-135, 349-353, 401-707, 770-868)

    The polyfills of the iteration methods of arrays, of [indexOf] and
    [lastIndexOf], [splice] and [push].  An array (or an object used as one) is
    the map of its own indices to values, which may have holes, and its
    length.  Assigning to an index of an array beyond its length moves the
    length, and assigning the length deletes what is beyond; other objects
    do neither ([exotic]).  Callbacks are given the object and may change it. *)

From Stdlib Require Import QArith Qround Qabs.
From stdpp Require Import gmap.
From S2P Require Import Prelude.

#[local] Open Scope Z_scope.
#[local] Open Scope list_scope.

(** ** Numbers that are arguments: [ToInteger] *)

Inductive jsnumber := NaN | Infinity | NegInfinity | Num (q : Q).

(** The numbers [ToInteger] returns. *)
Inductive integer := PosInf | NegInf | Int (z : Z).

Definition ToInteger (num : jsnumber) : integer :=
  match num with
  | NaN => Int 0
  | Infinity => PosInf
  | NegInfinity => NegInf
  | Num n =>
      if Qeq_bool n 0 then Int 0
      else Int ((if Qle_bool n 0 then -1 else 1) * Qfloor (Qabs n))
  end.

(** [Math.max], [Math.min], [+] and [<] of an integer and a finite number. *)
Definition int_max (a : integer) (b : Z) : integer :=
  match a with PosInf => PosInf | NegInf => Int b | Int z => Int (Z.max z b) end.
Definition int_min (a : integer) (b : Z) : integer :=
  match a with PosInf => Int b | NegInf => NegInf | Int z => Int (Z.min z b) end.
Definition int_add (a : Z) (b : integer) : integer :=
  match b with Int z => Int (a + z) | _ => b end.
Definition int_neg (a : integer) : bool :=
  match a with PosInf => false | NegInf => true | Int z => z <? 0 end.

(** A number used as an index. *)
Definition finite (a : integer) : js Z :=
  match a with Int z => Ret z | _ => Stuck end.

(** ** Objects with indices and a length *)

Record aobj (A : Type) := Aobj { own : gmap Z A; size : Z; exotic : bool }.
Arguments Aobj {A} own size exotic.
Arguments own {A} _.
Arguments size {A} _.
Arguments exotic {A} _.

Definition set {A} (o : aobj A) (k : Z) (x : A) : aobj A :=
  Aobj (<[k := x]> (own o)) (if exotic o && (size o <=? k) then k + 1 else size o) (exotic o).

Definition delete_at {A} (o : aobj A) (k : Z) : aobj A :=
  Aobj (delete k (own o)) (size o) (exotic o).

Definition set_length {A} (o : aobj A) (n : Z) : aobj A :=
  Aobj (if exotic o then filter (fun kv => kv.1 < n) (own o) else own o) n (exotic o).

(** [Array(length)] and [[]]. *)
Definition new_array {A} (n : Z) : aobj A := Aobj ∅ n true.

(** The array of a list, with no holes. *)
Definition of_list {A} (l : list A) : aobj A :=
  Aobj (list_to_map (zip (seqZ 0 (Z.of_nat (length l))) l)) (Z.of_nat (length l)) true.

(** [for (k = hi; k > lo; k -= 1)]. *)
Definition for_down {S} (hi lo : Z) (body : Z -> S -> js S) : S -> js S :=
  for_ 0 (hi - lo) (fun j => body (hi - j)).

Section methods.
Context {A V S : Type}.
#[local] Abbreviation st := (aobj A * S)%type.

(** A callback, given [this], the value, the index and the object; [option] of
    it where the argument may not be callable. *)
Definition visitor (B : Type) := option V -> A -> Z -> st -> js (B * st).

Definition forEach {B} (callbackfn : option (visitor B)) (T : option V) (s : st) : js st :=
  let length := to_uint32 (size s.1) in
  match callbackfn with
  | None => Throw "Array.prototype.forEach callback must be a function"
  | Some callbackfn =>
      for_ 0 length (fun i s =>
        match own s.1 !! i with
        | Some v => '(_, s) ← callbackfn T v i s; Ret s
        | None => Ret s
        end) s
  end.

Definition map {B} (callbackfn : option (visitor B)) (T : option V) (s : st)
    : js (aobj B * st) :=
  let length := to_uint32 (size s.1) in
  let result := new_array length in
  match callbackfn with
  | None => Throw "Array.prototype.map callback must be a function"
  | Some callbackfn =>
      for_ 0 length (fun i '(result, s) =>
        match own s.1 !! i with
        | Some v => '(y, s) ← callbackfn T v i s; Ret (set result i y, s)
        | None => Ret (result, s)
        end) (result, s)
  end.

(** The callback's answer is [ToBoolean] of what it returns, here and in
    [every] and [some]. *)
Definition filter (callbackfn : option (visitor bool)) (T : option V) (s : st)
    : js (aobj A * st) :=
  let length := to_uint32 (size s.1) in
  let result := new_array 0 in
  match callbackfn with
  | None => Throw "Array.prototype.filter callback must be a function"
  | Some callbackfn =>
      for_ 0 length (fun i '(result, s) =>
        match own s.1 !! i with
        | Some value =>
            '(b, s) ← callbackfn T value i s;
            Ret (if (b : bool) then set result (size result) value else result, s)
        | None => Ret (result, s)
        end) (result, s)
  end.

Definition every (callbackfn : option (visitor bool)) (T : option V) (s : st)
    : js (bool * st) :=
  let length := to_uint32 (size s.1) in
  match callbackfn with
  | None => Throw "Array.prototype.every callback must be a function"
  | Some callbackfn =>
      loop (Datatypes.S (Z.to_nat length)) (fun '(i, s) =>
        if negb (i <? length) then Ret (inr (true, s))
        else match own s.1 !! i with
             | Some v =>
                 '(b, s) ← callbackfn T v i s;
                 if negb b then Ret (inr (false, s)) else Ret (inl (i + 1, s))
             | None => Ret (inl (i + 1, s))
             end) (0, s)
  end.

Definition some (callbackfn : option (visitor bool)) (T : option V) (s : st)
    : js (bool * st) :=
  let length := to_uint32 (size s.1) in
  match callbackfn with
  | None => Throw "Array.prototype.some callback must be a function"
  | Some callbackfn =>
      loop (Datatypes.S (Z.to_nat length)) (fun '(i, s) =>
        if negb (i <? length) then Ret (inr (false, s))
        else match own s.1 !! i with
             | Some v =>
                 '(b, s) ← callbackfn T v i s;
                 if (b : bool) then Ret (inr (true, s)) else Ret (inl (i + 1, s))
             | None => Ret (inl (i + 1, s))
             end) (0, s)
  end.

(** A callback of [reduce]: the result so far, the value, the index, the object. *)
Definition reducer := A -> A -> Z -> st -> js (A * st).

(** [initial] is the second argument, if there is one. *)
Definition reduce (callbackfn : option reducer) (initial : option A) (s : st)
    : js (A * st) :=
  let length := to_uint32 (size s.1) in
  match callbackfn with
  | None => Throw "Array.prototype.reduce callback must be a function"
  | Some callbackfn =>
      if (length =? 0) && bool_decide (initial = None)
      then Throw "reduce of empty array with no initial value"
      else
        '(result, i) ←
          match initial with
          | Some result => Ret (result, 0)
          | None =>
              loop (Datatypes.S (Z.to_nat length)) (fun i =>
                match own s.1 !! i with
                | Some v => Ret (inr (v, i + 1))
                | None =>
                    if length <=? i + 1
                    then Throw "reduce of empty array with no initial value"
                    else Ret (inl (i + 1))
                end) 0
          end;
        for_ i length (fun i '(result, s) =>
          match own s.1 !! i with
          | Some v => callbackfn result v i s
          | None => Ret (result, s)
          end) (result, s)
  end.

Definition reduceRight (callbackfn : option reducer) (initial : option A) (s : st)
    : js (A * st) :=
  let length := to_uint32 (size s.1) in
  match callbackfn with
  | None => Throw "Array.prototype.reduceRight callback must be a function"
  | Some callbackfn =>
      if (length =? 0) && bool_decide (initial = None)
      then Throw "reduceRight of empty array with no initial value"
      else
        '(result, i) ←
          match initial with
          | Some result => Ret (result, length - 1)
          | None =>
              loop (Datatypes.S (Z.to_nat length)) (fun i =>
                match own s.1 !! i with
                | Some v => Ret (inr (v, i - 1))
                | None =>
                    if i - 1 <? 0
                    then Throw "reduceRight of empty array with no initial value"
                    else Ret (inl (i - 1))
                end) (length - 1)
          end;
        if i <? 0 then Ret (result, s)
        else
          loop (Datatypes.S (Z.to_nat length)) (fun '(i, (result, s)) =>
            '(result, s) ←
              match own s.1 !! i with
              | Some v => callbackfn result v i s
              | None => Ret (result, s)
              end;
            if i =? 0 then Ret (inr (result, s)) else Ret (inl (i - 1, (result, s))))
            (i, (result, s))
  end.
End methods.

Section search.
Context {A : Type}.
(** The operator [===] on the values. *)
Context (strict_eq : A -> A -> bool).

Definition is_at (o : aobj A) (i : Z) (x : A) : bool :=
  match own o !! i with Some y => strict_eq y x | None => false end.

(** [fromIndex] is the second argument, if there is one. *)
Definition indexOf (o : aobj A) (searchElement : A) (fromIndex : option jsnumber) : js Z :=
  let length := to_uint32 (size o) in
  if length =? 0 then Ret (-1)
  else
    let i := match fromIndex with Some n => ToInteger n | None => Int 0 end in
    let i := if int_neg i then int_max (int_add length i) 0 else i in
    match i with
    | PosInf | NegInf => Ret (-1)
    | Int i =>
        loop (Datatypes.S (Z.to_nat length)) (fun i =>
          if negb (i <? length) then Ret (inr (-1))
          else if is_at o i searchElement then Ret (inr i)
          else Ret (inl (i + 1))) i
    end.

Definition lastIndexOf (o : aobj A) (searchElement : A) (fromIndex : option jsnumber) : js Z :=
  let length := to_uint32 (size o) in
  if length =? 0 then Ret (-1)
  else
    let i := length - 1 in
    let i := match fromIndex with Some n => int_min (ToInteger n) i | None => Int i end in
    let i := if int_neg i then int_add length i else i in
    match i with
    | PosInf | NegInf => Ret (-1)
    | Int i =>
        loop (Datatypes.S (Z.to_nat length)) (fun i =>
          if negb (0 <=? i) then Ret (inr (-1))
          else if is_at o i searchElement then Ret (inr i)
          else Ret (inl (i - 1))) i
    end.
End search.

Section changes.
Context {A : Type}.
Implicit Types (o : aobj A) (items : list A).

(** One step of the loops that move a cell, or the hole that is there. *)
Definition move o (from to : Z) : aobj A :=
  match own o !! from with
  | Some x => set o to x
  | None => delete_at o to
  end.

(** An absent argument is [undefined], which [ToInteger] takes for [NaN]. *)
Definition splice o (start deleteCount : jsnumber) items : js (aobj A * aobj A) :=
  let len := to_uint32 (size o) in
  let relativeStart := ToInteger start in
  actualStart ← finite (if int_neg relativeStart then int_max (int_add len relativeStart) 0
                        else int_min relativeStart len);
  actualDeleteCount ← finite (int_min (int_max (ToInteger deleteCount) 0) (len - actualStart));
  r ← for_ 0 actualDeleteCount (fun k r =>
        match own o !! (actualStart + k) with
        | Some x => Ret (set r k x)
        | None => Ret r
        end) (new_array 0);
  let itemCount := Z.of_nat (length items) in
  o ←
    (if itemCount <? actualDeleteCount then
       o ← for_ actualStart (len - actualDeleteCount) (fun k o =>
             Ret (move o (k + actualDeleteCount) (k + itemCount))) o;
       for_down len (len - actualDeleteCount + itemCount) (fun k o =>
         Ret (delete_at o (k - 1))) o
     else if actualDeleteCount <? itemCount then
       for_down (len - actualDeleteCount) actualStart (fun k o =>
         Ret (move o (k + actualDeleteCount - 1) (k + itemCount - 1))) o
     else Ret o);
  '(o, _) ← for_ 0 itemCount (fun i '(o, k) =>
      match items !! Z.to_nat i with
      | Some x => Ret (set o k x, k + 1)
      | None => Stuck
      end) (o, actualStart);
  Ret (set_length o (len - actualDeleteCount + itemCount), r).

Definition pushShim o (arguments : list A) : js (Z * aobj A) :=
  let n := to_uint32 (size o) in
  o ← for_ 0 (Z.of_nat (length arguments)) (fun i o =>
        match arguments !! Z.to_nat i with
        | Some x => Ret (set o (n + i) x)
        | None => Stuck
        end) o;
  let i := Z.of_nat (length arguments) in
  Ret (n + i, set_length o (n + i)).
End changes.

(** ** The well-formedness of arrays

    The length of an array is an unsigned 32-bit integer, greater than its
    indices.  Of another object only the length is asked. *)
Definition obj_ok {A} (o : aobj A) : Prop :=
  0 <= size o < 2 ^ 32 /\
  (exotic o = true -> forall i x, own o !! i = Some x -> 0 <= i < size o).

Example splice_ex :
  splice (of_list [1; 2; 3; 4; 5]) (Num 1) (Num 2) [7; 8; 9]
  = Ret (of_list [1; 7; 8; 9; 4; 5], of_list [2; 3]).
Proof. vm_compute. reflexivity. Qed.

Example splice_ex2 :
  splice (of_list [1; 2; 3; 4; 5]) (Num (-2)) Infinity [7]
  = Ret (of_list [1; 2; 3; 7], of_list [4; 5]).
Proof. vm_compute. reflexivity. Qed.
