(* ===== verification/ShimArrayProps.v ===== *)
(** * What the array polyfills do

    [splice] and [push] against the positions they promise, the iteration
    methods against folds over the values present, and the searches against the least
    and the greatest index. *)

From Stdlib Require Import QArith Qround Qabs.
From stdpp Require Import gmap.
From S2P Require Import Prelude.
From S2P Require Import ShimArray.

#[local] Open Scope Z_scope.
#[local] Open Scope list_scope.

(** ** [ToInteger] truncates *)

Lemma floor_quot (n : Z) (d : positive) : 0 <= n -> Qfloor (n # d) = Z.quot n (Zpos d).
Proof. intros Hn. simpl. symmetry. apply Z.quot_div_nonneg; lia. Qed.

(** The integer part of a finite number, rounded towards zero. *)
Lemma ToInteger_trunc (n : Z) (d : positive) :
  ToInteger (Num (n # d)) = Int (Z.quot n (Zpos d)).
Proof.
  unfold ToInteger. destruct (Qeq_bool (n # d) 0) eqn:E.
  - apply Qeq_bool_eq in E. unfold Qeq in E. simpl in E.
    assert (n = 0) as -> by lia. by rewrite Z.quot_0_l by lia.
  - apply Qeq_bool_neq in E. unfold Qeq in E. simpl in E. f_equal.
    replace (Qabs (n # d)) with (Z.abs n # d) by (by destruct n).
    rewrite floor_quot by lia.
    destruct (Qle_bool (n # d) 0) eqn:E2.
    + apply Qle_bool_iff in E2. unfold Qle in E2. simpl in E2.
      rewrite Z.abs_neq by lia. rewrite Z.quot_opp_l by lia. lia.
    + assert (~ (n # d <= 0)%Q) as E3
        by (intros H; apply Qle_bool_iff in H; congruence).
      unfold Qle in E3. simpl in E3. rewrite Z.abs_eq by lia. lia.
Qed.

(** ** Cells of an object after a change *)

Section cells.
Context {A : Type}.
Implicit Types (o : aobj A) (items : list A).

Lemma own_set o k x i : own (set o k x) !! i = if decide (i = k) then Some x else own o !! i.
Proof.
  unfold set. simpl. destruct (decide (i = k)) as [->|];
    [by rewrite lookup_insert_eq|by rewrite lookup_insert_ne].
Qed.

Lemma own_delete_at o k i :
  own (delete_at o k) !! i = if decide (i = k) then None else own o !! i.
Proof.
  unfold delete_at. simpl. destruct (decide (i = k)) as [->|];
    [by rewrite lookup_delete_eq|by rewrite lookup_delete_ne].
Qed.

Lemma own_move o f t i :
  own (move o f t) !! i = if decide (i = t) then own o !! f else own o !! i.
Proof.
  unfold move. destruct (own o !! f) eqn:E; [apply own_set|apply own_delete_at].
Qed.

Lemma exotic_move o f t : exotic (move o f t) = exotic o.
Proof. unfold move. by destruct (own o !! f). Qed.

Lemma own_set_length o n i :
  own (set_length o n) !! i = if exotic o && negb (i <? n) then None else own o !! i.
Proof.
  unfold set_length. simpl. destruct (exotic o); [|done]. simpl.
  destruct (Z.ltb_spec i n); simpl.
  - destruct (own o !! i) eqn:E.
    + apply map_lookup_filter_Some. done.
    + apply map_lookup_filter_None. by left.
  - apply map_lookup_filter_None. right. intros x _. simpl. lia.
Qed.

(** The cells an object has, given as a function. *)
Definition cells o (f : Z -> option A) : Prop := forall i, own o !! i = f i.

Lemma aobj_ext o o' :
  cells o (fun i => own o' !! i) -> size o = size o' -> exotic o = exotic o' -> o = o'.
Proof.
  destruct o, o'; unfold cells; simpl. intros H -> ->. f_equal. by apply map_eq.
Qed.

(** The list of an array without holes, by index. *)
Lemma own_of_list (l : list A) i :
  own (of_list l) !! i = if decide (0 <= i) then l !! Z.to_nat i else None.
Proof.
  unfold of_list. cbn [own].
  assert (forall k, list_to_map (M:=gmap Z A) (zip (seqZ k (Z.of_nat (length l))) l) !! i
     = if decide (k <= i) then l !! Z.to_nat (i - k) else None) as H.
  { induction l as [|x l IH]; intros k; simpl.
    - rewrite lookup_empty. by destruct (decide _).
    - rewrite seqZ_cons by lia. simpl. replace (Z.pred (Z.of_nat (S (length l)))) with (Z.of_nat (length l)) by lia.
      destruct (decide (i = k)) as [->|].
      + rewrite lookup_insert_eq, decide_True by lia. by rewrite Z.sub_diag.
      + rewrite lookup_insert_ne by done. rewrite IH.
        repeat destruct (decide _); try lia; [|done].
        by replace (Z.to_nat (i - k)) with (S (Z.to_nat (i - Z.succ k))) by lia. }
  rewrite H. by rewrite Z.sub_0_r.
Qed.

Lemma of_list_ok (l : list A) : Z.of_nat (length l) < 2 ^ 32 -> obj_ok (of_list l).
Proof.
  intros H. split; [simpl; lia|]. intros _ i x Hx. rewrite own_of_list in Hx.
  destruct (decide _); [|done]. apply lookup_lt_Some in Hx. simpl. lia.
Qed.

(** The array of a list is the only one with its cells. *)
Lemma of_list_unique o (l : list A) :
  (forall i, 0 <= i -> own o !! i = l !! Z.to_nat i) ->
  obj_ok o -> size o = Z.of_nat (length l) -> exotic o = true -> o = of_list l.
Proof.
  intros Hc [_ Hok] Hs He. apply aobj_ext; [|done..].
  intros i. rewrite own_of_list. destruct (decide (0 <= i)); [by apply Hc|].
  destruct (own o !! i) eqn:E; [|done]. apply Hok in E; [lia|done].
Qed.

(** ** [splice] *)

(** Where [splice] starts, and how many cells it takes out. *)
Definition splice_start (len : Z) (start : jsnumber) : Z :=
  match ToInteger start with
  | PosInf => len
  | NegInf => 0
  | Int z => if decide (z < 0) then Z.max (len + z) 0 else Z.min z len
  end.

Definition splice_count (len s : Z) (deleteCount : jsnumber) : Z :=
  match ToInteger deleteCount with
  | PosInf => len - s
  | NegInf => 0
  | Int z => Z.min (Z.max z 0) (len - s)
  end.

Lemma splice_start_range len start : 0 <= len -> 0 <= splice_start len start <= len.
Proof. unfold splice_start. destruct (ToInteger start); [lia..|]. destruct (decide _); lia. Qed.

Lemma splice_count_range len s dc : 0 <= s <= len -> 0 <= splice_count len s dc <= len - s.
Proof. unfold splice_count. destruct (ToInteger dc); lia. Qed.

Lemma finite_start len start : 0 <= len ->
  finite (if int_neg (ToInteger start) then int_max (int_add len (ToInteger start)) 0
          else int_min (ToInteger start) len) = Ret (splice_start len start).
Proof.
  intros Hlen. unfold splice_start. destruct (ToInteger start) as [| |z]; simpl; try done.
  destruct (Z.ltb_spec z 0), (decide (z < 0)); try lia; done.
Qed.

Lemma finite_count len s dc : 0 <= s <= len ->
  finite (int_min (int_max (ToInteger dc) 0) (len - s)) = Ret (splice_count len s dc).
Proof.
  intros Hs. unfold splice_count. destruct (ToInteger dc) as [| |z]; simpl; f_equal; lia.
Qed.

(** The values taken out, with their holes. *)
Definition cut_out o (s d : Z) (r : aobj A) : Prop :=
  cells r (fun i => if decide (0 <= i < d) then own o !! (s + i) else None) /\
  obj_ok r /\ exotic r = true /\ size r <= d /\
  (forall x, 0 < d -> own o !! (s + d - 1) = Some x -> size r = d).

Lemma take_out o s d : 0 <= d < 2 ^ 32 ->
  wp (for_ 0 d (fun k r =>
        match own o !! (s + k) with
        | Some x => Ret (set r k x)
        | None => Ret r
        end) (new_array 0)) (cut_out o s d).
Proof.
  intros Hd. apply wp_for with (Inv := fun k => cut_out o s k); [lia|..].
  - split_and!; try (simpl; done || lia).
    intros i. simpl. rewrite lookup_empty. destruct (decide _); [lia|done].
  - intros k r Hk (Hc & [Hsz Hok] & He & Hle & Hlast).
    destruct (own o !! (s + k)) as [x|] eqn:E; simpl.
    + assert (size (set r k x) = k + 1) as Hsz'.
      { simpl. rewrite He. simpl. destruct (Z.leb_spec (size r) k); lia. }
      assert (cells (set r k x) (fun i => if decide (0 <= i < k + 1) then own o !! (s + i) else None)) as Hc'.
      { intros i. rewrite own_set, Hc. repeat destruct (decide _); try lia; subst; done. }
      split_and!; try (done || lia).
      split; [lia|]. intros _ i y Hy. rewrite Hc' in Hy. destruct (decide _); [lia|done].
    + split_and!; try (done || lia).
      * intros i. rewrite Hc. repeat destruct (decide _); try lia; try done.
        by replace i with k by lia.
      * intros x _. replace (s + (k + 1) - 1) with (s + k) by lia. congruence.
Qed.

(** The cells [splice] promises: those before [s], the items, those after the
    [d] taken out moved next to the items, and nothing up to the old length. *)
Definition spliced o (s d : Z) items (i : Z) : option A :=
  let c := Z.of_nat (length items) in
  if decide (i < s) then own o !! i
  else if decide (i < s + c) then items !! Z.to_nat (i - s)
  else if decide (i < size o - d + c) then own o !! (i - c + d)
  else if decide (i < size o) then None
  else own o !! i.

(** What is said of the object between the loops: its cells, and its kind
    (the length is assigned at the end). *)
Definition has o (f : Z -> option A) (o' : aobj A) : Prop :=
  cells o' f /\ exotic o' = exotic o.

Lemma has_mono o f g o' : has o f o' -> (forall i, f i = g i) -> has o g o'.
Proof. intros [Hc He] Hfg. split; [|done]. intros i. by rewrite Hc. Qed.

Lemma wp_for_down {S} (Inv : Z -> S -> Prop) hi lo (body : Z -> S -> js S) s :
  lo <= hi -> Inv hi s ->
  (forall k s, lo < k <= hi -> Inv k s -> wp (body k s) (Inv (k - 1))) ->
  wp (for_down hi lo body s) (Inv lo).
Proof.
  intros Hle HI Hbody. unfold for_down.
  eapply wp_mono; [apply wp_for with (Inv := fun j => Inv (hi - j))|].
  - lia.
  - by rewrite Z.sub_0_r.
  - intros j s' Hj HI'. replace (hi - (j + 1)) with (hi - j - 1) by lia. apply Hbody; [lia|done].
  - simpl. intros x. by replace (hi - (hi - lo)) with lo by lia.
Qed.

(** Cells in a range taken from elsewhere, and cells in a range removed. *)
Definition shifted o (lo hi k : Z) (i : Z) : option A :=
  if decide (lo <= i < hi) then own o !! (i + k) else own o !! i.
Definition erased o (lo hi : Z) (i : Z) : option A :=
  if decide (lo <= i < hi) then None else own o !! i.
Definition filled o (s n : Z) items (i : Z) : option A :=
  if decide (s <= i < s + n) then items !! Z.to_nat (i - s) else own o !! i.

Ltac cells_tac :=
  intros; unfold shifted, erased, filled in *;
  repeat destruct (decide _); subst; try done; try lia; try (f_equal; lia).

Lemma shift_down o s d c n : 0 <= c <= d -> s <= n ->
  wp (for_ s n (fun k o => Ret (move o (k + d) (k + c))) o)
     (has o (shifted o (s + c) (n + c) (d - c))).
Proof.
  intros Hc Hn. apply wp_for with (Inv := fun k => has o (shifted o (s + c) (k + c) (d - c))).
  - done.
  - split; [intros i|done]. cells_tac.
  - intros k o1 Hk [Hcells He]. split; [intros i|by rewrite exotic_move].
    rewrite own_move, !Hcells. cells_tac.
Qed.

Lemma shift_up o s d c n : 0 <= d <= c -> s <= n ->
  wp (for_down n s (fun k o => Ret (move o (k + d - 1) (k + c - 1))) o)
     (has o (shifted o (s + c) (n + c) (d - c))).
Proof.
  intros Hc Hn.
  apply wp_for_down with (Inv := fun k => has o (shifted o (k + c) (n + c) (d - c))).
  - done.
  - split; [intros i|done]. cells_tac.
  - intros k o1 Hk [Hcells He]. split; [intros i|by rewrite exotic_move].
    rewrite own_move, !Hcells. cells_tac.
Qed.

Lemma erase o n m : m <= n ->
  wp (for_down n m (fun k o => Ret (delete_at o (k - 1))) o) (has o (erased o m n)).
Proof.
  intros Hn. apply wp_for_down with (Inv := fun k => has o (erased o k n)).
  - done.
  - split; [intros i|done]. cells_tac.
  - intros k o1 Hk [Hcells He]. split; [intros i|done].
    rewrite own_delete_at, Hcells. cells_tac.
Qed.

Lemma put_items o s items :
  wp (for_ 0 (Z.of_nat (length items)) (fun i '(o, k) =>
        match items !! Z.to_nat i with
        | Some x => Ret (set o k x, k + 1)
        | None => Stuck
        end) (o, s))
     (fun r => has o (filled o s (Z.of_nat (length items)) items) r.1).
Proof.
  eapply wp_mono; [apply wp_for with
    (Inv := fun n r => r.2 = s + n /\ has o (filled o s n items) r.1)|]; [lia|..].
  - split; [simpl; lia|]. split; [intros i; simpl|done]. cells_tac.
  - intros n [o1 k] Hn (Hk & Hcells & He). simpl in *. subst k.
    destruct (lookup_lt_is_Some_2 items (Z.to_nat n)) as [x Hx]; [lia|]. rewrite Hx. simpl.
    split; [lia|]. split; [intros i; cbn [fst]|done].
    rewrite own_set, Hcells, <- Hx. cells_tac.
  - by intros r [_ H].
Qed.

(** The object [splice] promises, and what it returns. *)
Definition splice_result o (s d : Z) items (r : aobj A * aobj A) : Prop :=
  cells r.1 (spliced o s d items) /\
  size r.1 = size o - d + Z.of_nat (length items) /\ exotic r.1 = exotic o /\
  obj_ok r.1 /\ cut_out o s d r.2.

(** Making room for [c] items in place of [d] cells, in the three cases of the code. *)
Definition with_room o (s d c n : Z) (i : Z) : option A :=
  if decide (i < s + c) then own o !! i
  else if decide (i < n - d + c) then own o !! (i - c + d)
  else if decide (i < n) then None else own o !! i.

Lemma make_room o s d c n : 0 <= s -> 0 <= d <= n - s -> 0 <= c ->
  wp (if c <? d then
        o ← for_ s (n - d) (fun k o => Ret (move o (k + d) (k + c))) o;
        for_down n (n - d + c) (fun k o => Ret (delete_at o (k - 1))) o
      else if d <? c then
        for_down (n - d) s (fun k o => Ret (move o (k + d - 1) (k + c - 1))) o
      else Ret o)
     (has o (with_room o s d c n)).
Proof.
  intros Hs Hd Hc. destruct (Z.ltb_spec c d); [|destruct (Z.ltb_spec d c)].
  - apply wp_bind. eapply wp_mono; [apply shift_down; lia|]. intros o1 [Hc1 He1].
    eapply wp_mono; [apply erase; lia|]. intros o2 [Hc2 He2].
    split; [intros i|congruence]. rewrite Hc2. unfold erased. rewrite Hc1.
    unfold with_room. cells_tac.
  - eapply wp_mono; [apply shift_up; lia|]. intros o1 H1.
    eapply has_mono; [done|]. unfold with_room. cells_tac.
  - split; [intros i|done]. unfold with_room. cells_tac.
Qed.

Lemma splice_wp o start deleteCount items :
  let s := splice_start (size o) start in
  let d := splice_count (size o) s deleteCount in
  obj_ok o -> size o - d + Z.of_nat (length items) < 2 ^ 32 ->
  wp (splice o start deleteCount items) (splice_result o s d items).
Proof.
  intros s d [Hsz Hok] Hfit.
  pose proof (splice_start_range (size o) start ltac:(lia)) as Hs.
  pose proof (splice_count_range (size o) s deleteCount Hs) as Hd. fold s in Hs. fold d in Hd.
  unfold splice. rewrite to_uint32_small by done.
  rewrite finite_start by lia. cbn [mbind js_bind]. fold s.
  rewrite finite_count by lia. cbn [mbind js_bind]. fold d.
  apply wp_bind. eapply wp_mono; [apply take_out; lia|]. intros r Hr.
  apply wp_bind. eapply wp_mono; [apply make_room; lia|]. intros o1 [Hc1 He1].
  apply wp_bind. eapply wp_mono; [apply put_items|]. intros [o2 k] [Hc2 He2].
  cbn [fst] in *. apply wp_Ret.
  assert (cells (set_length o2 (size o - d + Z.of_nat (length items))) (spliced o s d items))
    as Hcells.
  { intros i. rewrite own_set_length, Hc2, He2, He1. unfold filled. rewrite Hc1.
    unfold with_room, spliced. destruct (exotic o) eqn:He; simpl; [|cells_tac].
    destruct (Z.ltb_spec i (size o - d + Z.of_nat (length items))); simpl; [cells_tac|].
    cells_tac. destruct (own o !! i) eqn:E; [|done]. apply Hok in E; [lia|done]. }
  split_and!; try done.
  - by simpl; rewrite He2.
  - split; [simpl; lia|]. intros He i x Hx. cbn in He. rewrite He2, He1 in He.
    rewrite Hcells in Hx. unfold spliced in Hx. cbn [size set_length fst].
    repeat destruct (decide _); try lia; try done; apply Hok in Hx; try done; lia.
Qed.

(** On an array without holes, [splice] is the usual operation on lists. *)
Lemma splice_list (l items : list A) start deleteCount :
  let s := splice_start (Z.of_nat (length l)) start in
  let d := splice_count (Z.of_nat (length l)) s deleteCount in
  Z.of_nat (length l) < 2 ^ 32 -> Z.of_nat (length l) - d + Z.of_nat (length items) < 2 ^ 32 ->
  splice (of_list l) start deleteCount items
  = Ret (of_list (take (Z.to_nat s) l ++ items ++ drop (Z.to_nat (s + d)) l),
         of_list (take (Z.to_nat d) (drop (Z.to_nat s) l))).
Proof.
  intros s d Hl Hfit.
  pose proof (splice_start_range (Z.of_nat (length l)) start ltac:(lia)) as Hs.
  pose proof (splice_count_range (Z.of_nat (length l)) s deleteCount Hs) as Hd.
  fold s in Hs. fold d in Hd.
  destruct (wp_elim _ _ (splice_wp (of_list l) start deleteCount items (of_list_ok l Hl) Hfit))
    as ([o' r] & -> & Hc & Hsz & He & Hok & Hcr & Hokr & Her & Hszr & Hlast).
  cbn [fst snd size of_list] in *. fold s d in Hc, Hsz, Hcr, Hszr, Hlast.
  do 2 f_equal; apply of_list_unique; try done.
  - intros i Hi. rewrite Hc. unfold spliced. cbn [size of_list].
    repeat destruct (decide _); try lia.
    + rewrite own_of_list, decide_True by lia. rewrite lookup_app_l by (rewrite length_take; lia).
      by rewrite lookup_take_lt by lia.
    + rewrite lookup_app_r by (rewrite length_take; lia). rewrite length_take.
      rewrite lookup_app_l by lia. f_equal. lia.
    + rewrite own_of_list, decide_True by lia.
      rewrite lookup_app_r by (rewrite length_take; lia). rewrite length_take.
      rewrite lookup_app_r by lia. rewrite lookup_drop. f_equal. lia.
    + symmetry. apply lookup_ge_None_2. rewrite !length_app, length_take, length_drop. lia.
    + rewrite own_of_list, decide_True by lia. rewrite lookup_ge_None_2 by lia.
      symmetry. apply lookup_ge_None_2. rewrite !length_app, length_take, length_drop. lia.
  - rewrite Hsz, !length_app, length_take, length_drop. lia.
  - intros i Hi. rewrite Hcr. destruct (decide _).
    + rewrite own_of_list, decide_True by lia. rewrite lookup_take_lt by lia.
      rewrite lookup_drop. f_equal. lia.
    + symmetry. apply lookup_ge_None_2. rewrite length_take, length_drop. lia.
  - rewrite length_take, length_drop. destruct (decide (d = 0)) as [E|E].
    + destruct Hokr. lia.
    + destruct (lookup_lt_is_Some_2 l (Z.to_nat (s + d - 1))) as [x Hx]; [lia|].
      rewrite (Hlast x); [lia..|]. by rewrite own_of_list, decide_True by lia.
Qed.

(** ** [push] *)

Lemma push_wp o (arguments : list A) :
  obj_ok o -> size o + Z.of_nat (length arguments) < 2 ^ 32 ->
  wp (pushShim o arguments) (fun r =>
    r.1 = size o + Z.of_nat (length arguments) /\ size r.2 = r.1 /\
    exotic r.2 = exotic o /\ obj_ok r.2 /\
    cells r.2 (filled o (size o) (Z.of_nat (length arguments)) arguments)).
Proof.
  intros [Hsz Hok] Hfit. unfold pushShim. rewrite to_uint32_small by done.
  apply wp_bind. eapply wp_mono.
  { apply wp_for with (Inv := fun n => has o (filled o (size o) n arguments)); [lia|..].
    - split; [intros i|done]. cells_tac.
    - intros n o1 Hn [Hc He].
      destruct (lookup_lt_is_Some_2 arguments (Z.to_nat n)) as [x Hx]; [lia|]. rewrite Hx.
      split; [intros i|done]. rewrite own_set, Hc, <- Hx. cells_tac. }
  intros o1 [Hc He]. apply wp_Ret. cbn [fst snd].
  assert (cells (set_length o1 (size o + Z.of_nat (length arguments)))
    (filled o (size o) (Z.of_nat (length arguments)) arguments)) as Hcells.
  { intros i. rewrite own_set_length, Hc, He. destruct (exotic o) eqn:E; [|done]. simpl.
    destruct (Z.ltb_spec i (size o + Z.of_nat (length arguments))); simpl; [done|].
    cells_tac. destruct (own o !! i) eqn:E2; [|done]. apply Hok in E2; [lia|done]. }
  split_and!; try done. split; [simpl; lia|]. intros Hex i x Hx. rewrite Hcells in Hx.
  cbn in Hex |- *. rewrite He in Hex. unfold filled in Hx. destruct (decide _); [lia|].
  apply Hok in Hx; [lia|done].
Qed.
End cells.

(** ** Iteration

    The values present in a range of indices, in order, and folds over them in
    the monad: what the iteration methods do when the callback leaves the
    object as it is. *)

Fixpoint foldM {X Y} (f : Y -> X -> js Y) (y : Y) (l : list X) : js Y :=
  match l with
  | [] => Ret y
  | x :: l => y ← f y x; foldM f y l
  end.

(** The answers of a test, up to the first that is [stop]. *)
Fixpoint untilM {X Y} (stop : bool) (f : Y -> X -> js (bool * Y)) (y : Y) (l : list X)
    : js (bool * Y) :=
  match l with
  | [] => Ret (negb stop, y)
  | x :: l =>
      '(b, y) ← f y x;
      if Bool.eqb b stop then Ret (stop, y) else untilM stop f y l
  end.

Definition entries {A} (o : aobj A) (lo hi : Z) : list (Z * A) :=
  omap (fun i => pair i <$> own o !! i) (seqZ lo (hi - lo)).

Section iteration.
Context {A V S : Type}.
Implicit Types (o : aobj A) (s : S).

Lemma entries_nil o lo hi : hi <= lo -> entries o lo hi = [].
Proof. intros H. unfold entries. by rewrite seqZ_nil by lia. Qed.

Lemma entries_cons o lo hi : lo < hi ->
  entries o lo hi = match own o !! lo with
                    | Some v => (lo, v) :: entries o (lo + 1) hi
                    | None => entries o (lo + 1) hi
                    end.
Proof.
  intros H. unfold entries. rewrite seqZ_cons by lia. simpl.
  replace (Z.pred (hi - lo)) with (hi - (lo + 1)) by lia.
  by destruct (own o !! lo).
Qed.

Lemma entries_snoc o lo hi : lo <= hi ->
  entries o lo (hi + 1) = entries o lo hi ++
                          match own o !! hi with Some v => [(hi, v)] | None => [] end.
Proof.
  intros H. unfold entries. replace (hi + 1 - lo) with (hi - lo + 1) by lia.
  rewrite seqZ_app by lia. rewrite omap_app. f_equal.
  replace (lo + (hi - lo)) with hi by lia. rewrite (seqZ_cons hi 1), (seqZ_nil _ (Z.pred 1)) by lia. simpl. by destruct (own o !! hi).
Qed.

(** A counting loop that skips the holes of [o] is a fold over its values;
    [emb] builds the state of the loop from that of the fold. *)
Lemma for_entries {X Y} (emb : Y -> X) (g : Y -> Z * A -> js Y) o lo hi body y :
  lo <= hi ->
  (forall i y, lo <= i < hi ->
     body i (emb y) = match own o !! i with
                      | Some v => y' ← g y (i, v); Ret (emb y')
                      | None => Ret (emb y)
                      end) ->
  for_ lo hi body (emb y) = y' ← foldM g y (entries o lo hi); Ret (emb y').
Proof.
  intros Hle Hbody. unfold for_. remember (Z.to_nat (hi - lo)) as k eqn:Hk.
  revert lo y Hle Hk Hbody. induction k as [|k IH]; intros lo y Hle Hk Hbody; simpl.
  - by rewrite entries_nil by lia.
  - assert (forall y, for_n k (lo + 1) body (emb y) =
      y' ← foldM g y (entries o (lo + 1) hi); Ret (emb y')) as IH'.
    { intros y1. apply IH; [lia..|]. intros i y2 Hi. apply Hbody. lia. }
    rewrite Hbody, entries_cons by lia. destruct (own o !! lo) as [v|]; simpl; [|apply IH'].
    destruct (g y (lo, v)); simpl; [apply IH'|done..].
Qed.

(** The same for the loops that stop early. *)
Lemma loop_entries {Y} stop (g : Y -> Z * A -> js (bool * Y)) o lo hi fuel
    (body : Z * (aobj A * Y) -> js (Z * (aobj A * Y) + bool * (aobj A * Y))) y :
  lo <= hi -> (Z.to_nat (hi - lo) < fuel)%nat ->
  (forall i y, hi <= i -> body (i, (o, y)) = Ret (inr (negb stop, (o, y)))) ->
  (forall i y, lo <= i < hi -> body (i, (o, y)) =
     match own o !! i with
     | Some v => '(b, y') ← g y (i, v);
                 if Bool.eqb b stop then Ret (inr (stop, (o, y'))) else Ret (inl (i + 1, (o, y')))
     | None => Ret (inl (i + 1, (o, y)))
     end) ->
  loop fuel body (lo, (o, y)) = '(b, y') ← untilM stop g y (entries o lo hi); Ret (b, (o, y')).
Proof.
  intros Hle Hfuel Hend Hbody. revert lo y Hle Hfuel Hbody.
  induction fuel as [|fuel IH]; intros lo y Hle Hfuel Hbody; [lia|]. cbn [loop].
  destruct (decide (hi <= lo)) as [H|H].
  - rewrite Hend, entries_nil by lia. done.
  - rewrite Hbody, entries_cons by lia. destruct (own o !! lo) as [v|].
    + cbn [untilM]. destruct (g y (lo, v)) as [[b y']| |]; [|done..]. cbn [mbind js_bind].
      destruct (Bool.eqb b stop); [done|]. apply IH; try lia.
      intros i y1 Hi. apply Hbody. lia.
    + apply IH; try lia. intros i y1 Hi. apply Hbody. lia.
Qed.

(** The first value present, and the last. *)
Lemma loop_first o e lo hi fuel : lo < hi -> (Z.to_nat (hi - lo) <= fuel)%nat ->
  loop fuel (fun i => match own o !! i with
                      | Some v => Ret (inr (v, i + 1))
                      | None => if hi <=? i + 1 then Throw e else Ret (inl (i + 1))
                      end) lo
  = match entries o lo hi with [] => Throw e | (i, v) :: _ => Ret (v, i + 1) end.
Proof.
  revert lo. induction fuel as [|fuel IH]; intros lo Hlo Hf; [lia|]. cbn [loop].
  rewrite entries_cons by lia. destruct (own o !! lo); [done|].
  destruct (Z.leb_spec hi (lo + 1)); [by rewrite entries_nil by lia|].
  apply IH; lia.
Qed.

Lemma loop_last o e hi fuel : 0 <= hi -> (Z.to_nat hi < fuel)%nat ->
  loop fuel (fun i => match own o !! i with
                      | Some v => Ret (inr (v, i - 1))
                      | None => if i - 1 <? 0 then Throw e else Ret (inl (i - 1))
                      end) hi
  = match reverse (entries o 0 (hi + 1)) with [] => Throw e | (i, v) :: _ => Ret (v, i - 1) end.
Proof.
  revert hi. induction fuel as [|fuel IH]; intros hi Hhi Hf; [lia|]. cbn [loop].
  rewrite entries_snoc, reverse_app by lia. destruct (own o !! hi); [done|].
  destruct (Z.ltb_spec (hi - 1) 0); [by rewrite entries_nil by lia|]. cbn.
  rewrite IH by lia. by replace (hi - 1 + 1) with hi by lia.
Qed.

Lemma entries_first o lo hi i v l :
  entries o lo hi = (i, v) :: l -> lo <= i < hi /\ l = entries o (i + 1) hi.
Proof.
  intros H. assert (forall k lo, k = Z.to_nat (hi - lo) -> entries o lo hi = (i, v) :: l ->
    lo <= i < hi /\ l = entries o (i + 1) hi) as G; [|by eapply G].
  clear H lo. induction k as [|k IH]; intros lo Hk H.
  - by rewrite entries_nil in H by lia.
  - rewrite entries_cons in H by lia. destruct (own o !! lo).
    + simplify_eq. split; [lia|done].
    + destruct (IH (lo + 1)) as [? ->]; [lia|done|]. split; [lia|done].
Qed.

Lemma entries_last o hi i v l :
  reverse (entries o 0 hi) = (i, v) :: l -> 0 <= i < hi /\ l = reverse (entries o 0 i).
Proof.
  intros H. assert (forall k hi, k = Z.to_nat hi -> reverse (entries o 0 hi) = (i, v) :: l ->
    0 <= i < hi /\ l = reverse (entries o 0 i)) as G; [|by eapply G].
  clear H hi. induction k as [|k IH]; intros hi Hk H.
  - by rewrite entries_nil in H by lia.
  - replace hi with (hi - 1 + 1) in H by lia. rewrite entries_snoc, reverse_app in H by lia.
    destruct (own o !! (hi - 1)).
    + cbn in H. simplify_eq. split; [lia|done].
    + destruct (IH (hi - 1)) as [? ->]; [lia|done|]. split; [lia|done].
Qed.

(** The callback of [f], which leaves the object as it is. *)
Definition readonly {B} (f : option V -> A -> Z -> S -> js (B * S)) : visitor (A:=A) (V:=V) (S:=S) B :=
  fun T v i '(o, s) => '(r, s') ← f T v i s; Ret (r, (o, s')).

Definition readonly2 (f : A -> A -> Z -> S -> js (A * S)) : reducer (A:=A) (S:=S) :=
  fun acc v i '(o, s) => '(r, s') ← f acc v i s; Ret (r, (o, s')).

Lemma set_of_list (l : list A) v :
  set (of_list l) (size (of_list l)) v = of_list (l ++ [v]).
Proof.
  apply aobj_ext.
  - intros i. rewrite own_set, !own_of_list. cbn [size of_list].
    destruct (decide (i = Z.of_nat (length l))) as [->|].
    + rewrite decide_True by lia. by rewrite lookup_app_r, Nat2Z.id, Nat.sub_diag by lia.
    + destruct (decide (0 <= i)); [|done]. destruct (decide (i < Z.of_nat (length l))).
      * by rewrite lookup_app_l by lia.
      * rewrite !lookup_ge_None_2; [done|rewrite length_app; simpl; lia|lia].
  - simpl. rewrite Z.leb_refl, length_app. simpl. lia.
  - done.
Qed.

(** The results the methods are compared with. *)
Definition each_ref {B} (f : A -> Z -> S -> js (B * S)) o s : js S :=
  foldM (fun s '(i, v) => '(_, s) ← f v i s; Ret s) s (entries o 0 (size o)).

Definition map_ref {B} (f : A -> Z -> S -> js (B * S)) o s : js (gmap Z B * S) :=
  foldM (fun '(m, s) '(i, v) => '(y, s) ← f v i s; Ret (<[i := y]> m, s))
    (∅, s) (entries o 0 (size o)).

Definition filter_ref (f : A -> Z -> S -> js (bool * S)) o s : js (list A * S) :=
  foldM (fun '(l, s) '(i, v) =>
    '(b, s) ← f v i s; Ret (if (b : bool) then l ++ [v] else l, s))
    ([], s) (entries o 0 (size o)).

Definition test_ref stop (f : A -> Z -> S -> js (bool * S)) o s : js (bool * S) :=
  untilM stop (fun s '(i, v) => f v i s) s (entries o 0 (size o)).

Definition fold_ref (f : A -> A -> Z -> S -> js (A * S)) (e : string) initial
    (l : list (Z * A)) s : js (A * S) :=
  let step := fun '(acc, s) '(i, v) => f acc v i s in
  match initial, l with
  | Some x, _ => foldM step (x, s) l
  | None, (_, x) :: l => foldM step (x, s) l
  | None, [] => Throw e
  end.

Context (o : aobj A) (s : S) (T : option V) (Hok : obj_ok o).

Let length_ok : to_uint32 (size o) = size o.
Proof. apply to_uint32_small, Hok. Qed.

Lemma forEach_visits {B} (f : option V -> A -> Z -> S -> js (B * S)) :
  forEach (Some (readonly f)) T (o, s) = s' ← each_ref (f T) o s; Ret (o, s').
Proof.
  unfold forEach. cbn [fst]. rewrite length_ok. unfold each_ref.
  rewrite (for_entries (pair o) (fun s '(i, v) => '(_, s) ← f T v i s; Ret s) o);
    [done|apply Hok|].
  intros i y Hi. cbn [fst]. destruct (own o !! i); [|done].
  unfold readonly. by destruct (f T a i y) as [[]| |].
Qed.

Lemma map_visits {B} (f : option V -> A -> Z -> S -> js (B * S)) :
  map (Some (readonly f)) T (o, s)
  = '(m, s') ← map_ref (f T) o s; Ret (Aobj m (size o) true, (o, s')).
Proof.
  unfold map. cbn [fst]. rewrite length_ok. unfold map_ref.
  set (emb := fun p : gmap Z B * S => (Aobj p.1 (size o) true, (o, p.2))).
  change (new_array (size o), (o, s)) with (emb (∅, s)).
  rewrite (for_entries emb (fun '(m, s) '(i, v) => '(y, s) ← f T v i s; Ret (<[i:=y]> m, s)) o);
    [by destruct (foldM _ _ _) as [[]| |]|apply Hok|].
  intros i [m y] Hi. cbn. destruct (own o !! i); [|done].
  destruct (f T a i y) as [[y' s']| |]; [|done..]. cbn. unfold set, emb. simpl.
  by destruct (Z.leb_spec (size o) i); [lia|].
Qed.

Lemma filter_visits (f : option V -> A -> Z -> S -> js (bool * S)) :
  filter (Some (readonly f)) T (o, s)
  = '(l, s') ← filter_ref (f T) o s; Ret (of_list l, (o, s')).
Proof.
  unfold filter. cbn [fst]. rewrite length_ok. unfold filter_ref.
  set (emb := fun p : list A * S => (of_list p.1, (o, p.2))).
  change (new_array 0, (o, s)) with (emb ([], s)).
  rewrite (for_entries emb (fun '(l, s) '(i, v) =>
    '(b, s) ← f T v i s; Ret (if (b : bool) then l ++ [v] else l, s)) o);
    [by destruct (foldM _ _ _) as [[]| |]|apply Hok|].
  intros i [l y] Hi. unfold emb. cbn [fst snd]. destruct (own o !! i); [|done].
  unfold readonly. destruct (f T a i y) as [[[] s']| |]; [|done..]. cbn [mbind js_bind fst snd].
  by rewrite set_of_list.
Qed.

Lemma every_tests (f : option V -> A -> Z -> S -> js (bool * S)) :
  every (Some (readonly f)) T (o, s)
  = '(b, s') ← test_ref false (f T) o s; Ret (b, (o, s')).
Proof.
  unfold every. cbn [fst]. rewrite length_ok. apply loop_entries; [apply Hok|lia|..].
  - intros i y Hi. by destruct (Z.ltb_spec i (size o)); [lia|].
  - intros i y Hi. destruct (Z.ltb_spec i (size o)); [|lia]. cbn [negb fst].
    destruct (own o !! i); [|done]. unfold readonly. by destruct (f T a i y) as [[[]]| |].
Qed.

Lemma some_tests (f : option V -> A -> Z -> S -> js (bool * S)) :
  some (Some (readonly f)) T (o, s)
  = '(b, s') ← test_ref true (f T) o s; Ret (b, (o, s')).
Proof.
  unfold some. cbn [fst]. rewrite length_ok. apply loop_entries; [apply Hok|lia|..].
  - intros i y Hi. by destruct (Z.ltb_spec i (size o)); [lia|].
  - intros i y Hi. destruct (Z.ltb_spec i (size o)); [|lia]. cbn [negb fst].
    destruct (own o !! i); [|done]. unfold readonly. by destruct (f T a i y) as [[[]]| |].
Qed.

Lemma reduce_loop (f : A -> A -> Z -> S -> js (A * S)) i x : 0 <= i <= size o ->
  for_ i (size o) (fun i '(result, s) =>
    match own s.1 !! i with
    | Some v => readonly2 f result v i s
    | None => Ret (result, s)
    end) (x, (o, s))
  = '(x, s) ← foldM (fun '(acc, s) '(i, v) => f acc v i s) (x, s) (entries o i (size o));
    Ret (x, (o, s)).
Proof.
  intros Hi. set (emb := fun p : A * S => (p.1, (o, p.2))). change (x, (o, s)) with (emb (x, s)).
  rewrite (for_entries emb (fun '(acc, s) '(i, v) => f acc v i s) o);
    [by destruct (foldM _ _ _) as [[]| |]|lia|].
  intros j [y s'] Hj. cbn. destruct (own o !! j); [|done].
  by destruct (f y a j s') as [[]| |].
Qed.

Lemma reduce_folds (f : A -> A -> Z -> S -> js (A * S)) initial :
  reduce (Some (readonly2 f)) initial (o, s)
  = '(x, s') ← fold_ref f "reduce of empty array with no initial value" initial
                 (entries o 0 (size o)) s; Ret (x, (o, s')).
Proof.
  unfold reduce, fold_ref. cbn [fst]. rewrite length_ok. destruct Hok as [Hsz _].
  destruct initial as [x|].
  - rewrite andb_false_r. cbn [mbind js_bind]. by rewrite reduce_loop by lia.
  - rewrite andb_true_r. destruct (Z.eqb_spec (size o) 0) as [E|E].
    + by rewrite entries_nil by lia.
    + rewrite loop_first by lia. destruct (entries o 0 (size o)) as [|[i v] l] eqn:El; [done|].
      destruct (entries_first o 0 (size o) i v l El) as [Hi ->]. cbn [mbind js_bind].
      by rewrite reduce_loop by lia.
Qed.

Lemma reduceRight_loop (f : A -> A -> Z -> S -> js (A * S)) fuel i x s0 :
  0 <= i -> (Z.to_nat i < fuel)%nat ->
  loop fuel (fun '(i, (result, s)) =>
    '(result, s) ←
      match own s.1 !! i with
      | Some v => readonly2 f result v i s
      | None => Ret (result, s)
      end;
    if i =? 0 then Ret (inr (result, s)) else Ret (inl (i - 1, (result, s)))) (i, (x, (o, s0)))
  = '(x, s) ← foldM (fun '(acc, s) '(i, v) => f acc v i s) (x, s0)
                (reverse (entries o 0 (i + 1)));
    Ret (x, (o, s)).
Proof.
  revert i x s0. induction fuel as [|fuel IH]; intros i x s0 Hi Hf; [lia|].
  match goal with |- loop _ ?b _ = _ => set (body := b) in * end.
  assert (body (i, (x, (o, s0))) =
    '(x, s) ← match own o !! i with Some v => f x v i s0 | None => Ret (x, s0) end;
    if i =? 0 then Ret (inr (x, (o, s))) else Ret (inl (i - 1, (x, (o, s))))) as Hb.
  { unfold body. cbn [fst]. destruct (own o !! i); [|done].
    unfold readonly2. by destruct (f x a i s0) as [[]| |]. }
  clearbody body. cbn [loop]. rewrite Hb.
  assert (forall x s0, (r ← (if i =? 0 then Ret (inr (x, (o, s0))) else Ret (inl (i - 1, (x, (o, s0)))));
    match r with inl s' => loop fuel body s' | inr x => Ret x end) =
    '(x, s) ← foldM (fun '(acc, s) '(i, v) => f acc v i s) (x, s0) (reverse (entries o 0 i));
    Ret (x, (o, s))) as IH'.
  { intros x1 s1. destruct (Z.eqb_spec i 0) as [->|]; [by rewrite entries_nil by lia|].
    cbn [mbind js_bind]. rewrite IH by lia. by replace (i - 1 + 1) with i by lia. }
  rewrite entries_snoc, reverse_app by lia.
  destruct (own o !! i) as [v|].
  - change (reverse [(i, v)]) with [(i, v)]. cbn [app foldM].
    destruct (f x v i s0) as [[x1 s1]| |]; [|done..]. apply IH'.
  - apply IH'.
Qed.

Lemma reduceRight_folds (f : A -> A -> Z -> S -> js (A * S)) initial :
  reduceRight (Some (readonly2 f)) initial (o, s)
  = '(x, s') ← fold_ref f "reduceRight of empty array with no initial value" initial
                 (reverse (entries o 0 (size o))) s; Ret (x, (o, s')).
Proof.
  unfold reduceRight, fold_ref. cbn [fst]. rewrite length_ok. destruct Hok as [Hsz _].
  destruct initial as [x|].
  - rewrite andb_false_r. cbn [mbind js_bind]. destruct (Z.ltb_spec (size o - 1) 0).
    + by rewrite entries_nil by lia.
    + rewrite reduceRight_loop by lia. by replace (size o - 1 + 1) with (size o) by lia.
  - rewrite andb_true_r. destruct (Z.eqb_spec (size o) 0) as [E|E].
    + by rewrite entries_nil by lia.
    + rewrite loop_last by lia. replace (size o - 1 + 1) with (size o) by lia.
      destruct (reverse (entries o 0 (size o))) as [|[i v] l] eqn:El; [done|].
      destruct (entries_last o (size o) i v l El) as [Hi ->]. cbn [mbind js_bind].
      destruct (Z.ltb_spec (i - 1) 0); [by rewrite entries_nil by lia|].
      rewrite reduceRight_loop by lia. by replace (i - 1 + 1) with i by lia.
Qed.
End iteration.

(** ** Searching *)

Section searching.
Context {A : Type} (strict_eq : A -> A -> bool).

(** The first index [indexOf] looks at, and the last of [lastIndexOf]. *)
Definition search_from (len : Z) (fromIndex : option jsnumber) : Z :=
  match fromIndex with
  | None => 0
  | Some n => match ToInteger n with
              | PosInf => len
              | NegInf => 0
              | Int z => if decide (z < 0) then Z.max 0 (len + z) else z
              end
  end.

Definition search_to (len : Z) (fromIndex : option jsnumber) : Z :=
  match fromIndex with
  | None => len - 1
  | Some n => match ToInteger n with
              | PosInf => len - 1
              | NegInf => -1
              | Int z => if decide (z < 0) then len + z else Z.min z (len - 1)
              end
  end.

(** [i] is the answer of a search in [lo, hi) that prefers [better] indices. *)
Definition found (o : aobj A) (x : A) (lo hi : Z) (better : Z -> Z -> Prop) (i : Z) : Prop :=
  (i = -1 /\ forall j, lo <= j < hi -> is_at strict_eq o j x = false) \/
  (lo <= i < hi /\ is_at strict_eq o i x = true /\
   forall j, lo <= j < hi -> better j i -> is_at strict_eq o j x = false).

Lemma indexOf_first o x fromIndex : obj_ok o ->
  wp (indexOf strict_eq o x fromIndex)
     (found o x (search_from (size o) fromIndex) (size o) Z.lt).
Proof.
  intros [Hsz _]. unfold indexOf. rewrite to_uint32_small by done.
  destruct (Z.eqb_spec (size o) 0) as [E|E].
  { left. split; [done|]. intros j Hj. unfold search_from in Hj.
    destruct fromIndex as [n|]; [destruct (ToInteger n); try (destruct (decide _))|]; lia. }
  assert (0 <= search_from (size o) fromIndex) as Hlo.
  { unfold search_from. destruct fromIndex as [n|]; [|lia].
    destruct (ToInteger n); [lia..|]. destruct (decide _); lia. }
  assert (wp (loop (Datatypes.S (Z.to_nat (size o))) (fun i =>
          if negb (i <? size o) then Ret (inr (-1))
          else if is_at strict_eq o i x then Ret (inr i)
          else Ret (inl (i + 1))) (search_from (size o) fromIndex))
     (found o x (search_from (size o) fromIndex) (size o) Z.lt)) as G.
  { apply wp_loop with (Inv := fun i => search_from (size o) fromIndex <= i /\
      forall j, search_from (size o) fromIndex <= j < i -> is_at strict_eq o j x = false)
      (meas := fun i => Z.max 0 (size o - i)); [split; [lia|intros; lia]|lia|].
    intros i [Hi Hbefore]. destruct (Z.ltb_spec i (size o)); cbn [negb].
    - destruct (is_at strict_eq o i x) eqn:Ei; simpl.
      + right. split_and!; try lia; [done|]. intros j Hj Hlt. apply Hbefore. lia.
      + split; [|lia]. split; [lia|]. intros j Hj. destruct (decide (j = i)) as [->|]; [done|].
        apply Hbefore. lia.
    - left. split; [done|]. intros j Hj. apply Hbefore. lia. }
  unfold search_from in *. destruct fromIndex as [n|]; [|done].
  destruct (ToInteger n) as [| |z]; simpl.
  - left. split; [done|lia].
  - done.
  - destruct (Z.ltb_spec z 0), (decide (z < 0)); try lia; [|done]. by rewrite Z.max_comm.
Qed.

Lemma lastIndexOf_last o x fromIndex : obj_ok o ->
  wp (lastIndexOf strict_eq o x fromIndex)
     (found o x 0 (search_to (size o) fromIndex + 1) Z.gt).
Proof.
  intros [Hsz _]. unfold lastIndexOf. rewrite to_uint32_small by done.
  destruct (Z.eqb_spec (size o) 0) as [E|E].
  { left. split; [done|]. intros j Hj. unfold search_to in Hj.
    destruct fromIndex as [n|]; [destruct (ToInteger n); try (destruct (decide _))|]; lia. }
  assert (search_to (size o) fromIndex < size o) as Hhi.
  { unfold search_to. destruct fromIndex as [n|]; [|lia].
    destruct (ToInteger n); [lia..|]. destruct (decide _); lia. }
  assert (wp (loop (Datatypes.S (Z.to_nat (size o))) (fun i =>
          if negb (0 <=? i) then Ret (inr (-1))
          else if is_at strict_eq o i x then Ret (inr i)
          else Ret (inl (i - 1))) (search_to (size o) fromIndex))
     (found o x 0 (search_to (size o) fromIndex + 1) Z.gt)) as G.
  { apply wp_loop with (Inv := fun i => i <= search_to (size o) fromIndex /\
      forall j, i < j <= search_to (size o) fromIndex -> is_at strict_eq o j x = false)
      (meas := fun i => Z.max 0 (i + 1)); [split; [lia|intros; lia]|lia|].
    intros i [Hi Hafter]. destruct (Z.leb_spec 0 i); cbn [negb].
    - destruct (is_at strict_eq o i x) eqn:Ei; simpl.
      + right. split_and!; try lia; [done|]. intros j Hj Hgt. apply Hafter. lia.
      + split; [|lia]. split; [lia|]. intros j Hj. destruct (decide (j = i)) as [->|]; [done|].
        apply Hafter. lia.
    - left. split; [done|]. intros j Hj. apply Hafter. lia. }
  unfold search_to in *. destruct fromIndex as [n|]; [|simpl; by rewrite (proj2 (Z.ltb_ge _ _)) by lia].
  destruct (ToInteger n) as [| |z]; simpl.
  - rewrite (proj2 (Z.ltb_ge _ _)) by lia. done.
  - left. split; [done|]. intros; lia.
  - destruct (Z.ltb_spec (Z.min z (size o - 1)) 0), (decide (z < 0)); try lia; [|done].
    by replace (size o + Z.min z (size o - 1)) with (size o + z) by lia.
Qed.
End searching.

(** ** The properties *)

(** C29: [splice] on an array, or on an object used as one, holes included:
    with [start] and [deleteCount] clamped as ECMAScript 5 says, it returns;
    the cells before [start] stay, the items follow, the cells after those
    taken out come next, and the length is theirs; the cells taken out are
    returned in order, in an array of their own. *)
Theorem splice_reference {A} (o : aobj A) start deleteCount items :
  let s := splice_start (size o) start in
  let d := splice_count (size o) s deleteCount in
  obj_ok o -> size o - d + Z.of_nat (length items) < 2 ^ 32 ->
  exists o' r, splice o start deleteCount items = Ret (o', r) /\
    cells o' (spliced o s d items) /\
    size o' = size o - d + Z.of_nat (length items) /\ exotic o' = exotic o /\
    cut_out o s d r.
Proof.
  intros s d Hok Hfit.
  destruct (wp_elim _ _ (splice_wp o start deleteCount items Hok Hfit)) as ([o' r] & E & H).
  destruct H as (Hc & Hs & He & _ & Hr). by exists o', r.
Qed.

(** An array with a hole, from which two cells are taken. *)
Definition ex_sparse : aobj Z := Aobj {[0 := 10; 2 := 12; 3 := 13]} 4 true.

Lemma ex_sparse_ok : obj_ok ex_sparse.
Proof.
  split; [simpl; lia|]. intros _ i x. unfold ex_sparse. cbn [own size].
  rewrite !lookup_insert_Some, lookup_singleton_Some. lia.
Qed.

Lemma splice_reference_witness :
  exists o' r, splice ex_sparse (Num (-3)) (Num 2) [7] = Ret (o', r) /\
    cells o' (spliced ex_sparse 1 2 [7]) /\ size o' = 3 /\ exotic o' = true /\
    cut_out ex_sparse 1 2 r.
Proof.
  apply (splice_reference ex_sparse (Num (-3)) (Num 2) [7]); [apply ex_sparse_ok|vm_compute; done].
Defined.

Example splice_sparse :
  splice ex_sparse (Num (-3)) (Num 2) [7]
  = Ret (of_list [10; 7; 13], Aobj {[1 := 12]} 2 true).
Proof. vm_compute. reflexivity. Qed.

(** C30: The iteration methods, given a callback that leaves the object as it
    is but may keep a state and may throw, are folds over the values present,
    in increasing order of index (decreasing for [reduceRight]): each value is
    passed once with its index, holes are skipped, [every] and [some] stop at
    the first answer that decides, and the reductions without an initial value
    start from the first value or throw if there is none. *)
Theorem iteration_reference {A B V S} (o : aobj A) (s : S) (T : option V)
    (f : option V -> A -> Z -> S -> js (B * S)) (p : option V -> A -> Z -> S -> js (bool * S))
    (g : A -> A -> Z -> S -> js (A * S)) (initial : option A) :
  obj_ok o ->
  forEach (Some (readonly f)) T (o, s) = (s' ← each_ref (f T) o s; Ret (o, s')) /\
  map (Some (readonly f)) T (o, s)
    = ('(m, s') ← map_ref (f T) o s; Ret (Aobj m (size o) true, (o, s'))) /\
  filter (Some (readonly p)) T (o, s)
    = ('(l, s') ← filter_ref (p T) o s; Ret (of_list l, (o, s'))) /\
  every (Some (readonly p)) T (o, s) = ('(b, s') ← test_ref false (p T) o s; Ret (b, (o, s'))) /\
  some (Some (readonly p)) T (o, s) = ('(b, s') ← test_ref true (p T) o s; Ret (b, (o, s'))) /\
  reduce (Some (readonly2 g)) initial (o, s)
    = ('(x, s') ← fold_ref g "reduce of empty array with no initial value" initial
                    (entries o 0 (size o)) s; Ret (x, (o, s'))) /\
  reduceRight (Some (readonly2 g)) initial (o, s)
    = ('(x, s') ← fold_ref g "reduceRight of empty array with no initial value" initial
                    (reverse (entries o 0 (size o))) s; Ret (x, (o, s'))).
Proof.
  intros Hok. split_and!.
  - by apply forEach_visits.
  - by apply map_visits.
  - by apply filter_visits.
  - by apply every_tests.
  - by apply some_tests.
  - by apply reduce_folds.
  - by apply reduceRight_folds.
Qed.

(** Callbacks that count their calls, or subtract. *)
Definition ex_double (T : option Z) (v i n : Z) : js (Z * Z) := Ret (2 * v, n + 1).
Definition ex_below (T : option Z) (v i n : Z) : js (bool * Z) := Ret (v <? 12, n + 1).
Definition ex_minus (acc v i n : Z) : js (Z * Z) := Ret (acc - v, n + 1).

Lemma iteration_reference_witness :
  map (Some (readonly ex_double)) None (ex_sparse, 0)
    = Ret (Aobj {[0 := 20; 2 := 24; 3 := 26]} 4 true, (ex_sparse, 3)) /\
  every (Some (readonly ex_below)) None (ex_sparse, 0) = Ret (false, (ex_sparse, 2)) /\
  reduceRight (Some (readonly2 ex_minus)) None (ex_sparse, 0) = Ret (-9, (ex_sparse, 2)).
Proof.
  destruct (iteration_reference ex_sparse 0 None ex_double ex_below ex_minus None ex_sparse_ok)
    as (_ & -> & _ & -> & _ & _ & ->).
  vm_compute. done.
Defined.

(** C31: [indexOf] returns the least index, from the one asked for on, at which
    the value is, and [lastIndexOf] the greatest up to it; they return -1 if it
    is nowhere there, holes hold nothing, and negative starts count from the
    end. *)
Theorem search_reference {A} (strict_eq : A -> A -> bool) (o : aobj A) x fromIndex :
  obj_ok o ->
  (exists i, indexOf strict_eq o x fromIndex = Ret i /\
     found strict_eq o x (search_from (size o) fromIndex) (size o) Z.lt i) /\
  (exists i, lastIndexOf strict_eq o x fromIndex = Ret i /\
     found strict_eq o x 0 (search_to (size o) fromIndex + 1) Z.gt i).
Proof.
  intros Hok. split; apply wp_elim; [by apply indexOf_first|by apply lastIndexOf_last].
Qed.

Lemma search_reference_witness :
  (exists i, indexOf Z.eqb ex_sparse 12 (Some (Num (-2))) = Ret i /\
     found Z.eqb ex_sparse 12 2 4 Z.lt i) /\
  (exists i, lastIndexOf Z.eqb ex_sparse 12 (Some (Num (-2))) = Ret i /\
     found Z.eqb ex_sparse 12 0 3 Z.gt i).
Proof.
  apply (search_reference Z.eqb ex_sparse 12 (Some (Num (-2))) ex_sparse_ok).
Defined.

(** Called with [start] alone, the polyfill takes nothing out: the missing
    [deleteCount] counts as 0.  ([groupAll.dispose] of crossfilter calls [splice]
    in this way.) *)
Theorem splice_start_only {A} (l : list A) start :
  Z.of_nat (length l) < 2 ^ 32 -> splice (of_list l) start NaN [] = Ret (of_list l, of_list []).
Proof.
  intros Hl. pose proof (splice_start_range (Z.of_nat (length l)) start ltac:(lia)).
  rewrite splice_list; unfold splice_count; simpl; [|lia..].
  rewrite Z.min_l by lia. rewrite Z.add_0_r, take_drop. done.
Qed.
