(* ===== verification/ShimDate.v ===== *)
(** * Dates of [es5-shim.js] (lines 1091-1127, 1236-1281, 1302-1351)

    [toISOString] and [Date.parse].  The time value of a date is the number of
    milliseconds since 1970, [None] for [NaN].  The methods [getUTC...] of native
    dates are those of ECMAScript 5, section 15.9.1.  The regular expression of
    the parser is data, run by a matcher that backtracks; the fraction of a
    second goes through binary floating point as in the code.  The native
    parser and the native constructor, which depends on the local time zone,
    are parameters. *)

From Stdlib Require Import Ascii.
From S2P Require Import Prelude.
From S2P Require Import Arrays.
From S2P Require Import JsStrings.

#[local] Open Scope string_scope.
#[local] Open Scope Z_scope.

(** ** Native dates (ECMAScript 5, 15.9.1) *)

Definition msPerDay : Z := 86400000.
Definition Day (t : Z) : Z := t / msPerDay.
Definition TimeWithinDay (t : Z) : Z := t mod msPerDay.

Definition DayFromYear (y : Z) : Z :=
  365 * (y - 1970) + (y - 1969) / 4 - (y - 1901) / 100 + (y - 1601) / 400.

Definition leap (y : Z) : bool :=
  (y mod 4 =? 0) && negb (y mod 100 =? 0) || (y mod 400 =? 0).

(** The greatest year that does not begin after the day: an estimate, put right. *)
Definition YearFromDay (d : Z) : Z :=
  let y := d * 400 / 146097 + 1970 in
  if d <? DayFromYear y then y - 1
  else if DayFromYear (y + 1) <=? d then y + 1 else y.

Definition days_in_month (y m : Z) : Z :=
  if m =? 1 then (if leap y then 29 else 28)
  else if (m =? 3) || (m =? 5) || (m =? 8) || (m =? 10) then 30 else 31.

(** The month and the day of the month (from 0) of day [d] of a year, from month [m] on. *)
Fixpoint month_date (k : nat) (y m d : Z) : Z * Z :=
  match k with
  | O => (m, d)
  | Datatypes.S k =>
      if d <? days_in_month y m then (m, d) else month_date k y (m + 1) (d - days_in_month y m)
  end.

Definition getUTCFullYear (t : Z) : Z := YearFromDay (Day t).
Definition month_day (t : Z) : Z * Z :=
  let y := YearFromDay (Day t) in month_date 11 y 0 (Day t - DayFromYear y).
Definition getUTCMonth (t : Z) : Z := (month_day t).1.
Definition getUTCDate (t : Z) : Z := (month_day t).2 + 1.
Definition getUTCHours (t : Z) : Z := TimeWithinDay t / 3600000.
Definition getUTCMinutes (t : Z) : Z := TimeWithinDay t / 60000 mod 60.
Definition getUTCSeconds (t : Z) : Z := TimeWithinDay t / 1000 mod 60.
Definition getUTCMilliseconds (t : Z) : Z := t mod 1000.

(** ** [toISOString] *)

(** [strSlice(s, -n)]: the last [n] characters. *)
Definition str_last (n : nat) (s : string) : string :=
  String.substring (String.length s - n) n s.

(** The loop over [result]: two digits for each number. *)
Definition pad2 (value : Z) : string :=
  if value <? 10 then "0" ++ str_of_num value else str_of_num value.

Definition iso_year (year : Z) : string :=
  (if year <? 0 then "-" else if 9999 <? year then "+" else "") ++
  str_last (if (0 <=? year) && (year <=? 9999) then 4 else 6)
    ("00000" ++ str_of_num (Z.abs year)).

Definition toISOString (t : option Z) : js string :=
  match t with
  | None => Throw "Date.prototype.toISOString called on non-finite value."
  | Some t =>
      let year := getUTCFullYear t in
      let month := getUTCMonth t in
      let year := year + month / 12 in
      let month := Z.rem (Z.rem month 12 + 12) 12 in
      let result := List.map pad2
        [month + 1; getUTCDate t; getUTCHours t; getUTCMinutes t; getUTCSeconds t] in
      Ret (iso_year year ++ "-" ++ join "-" (take 2 result) ++
           "T" ++ join ":" (drop 2 result) ++ "." ++
           str_last 3 ("000" ++ str_of_num (getUTCMilliseconds t)) ++ "Z")
  end.

(** ** The regular expression *)

Inductive regex :=
| Chr (p : ascii -> bool)
| Seq (r r' : regex)
| Alt (r r' : regex)
| Opt (r : regex)
| Many (p : ascii -> bool)
| Group (n : nat) (r : regex).

(** Captures, the latest first. *)
Definition captures := list (nat * string).

(** Greedy matching of a prefix of [s], with what follows as a continuation;
    [Many] is one or more characters. *)
Fixpoint exec (r : regex) (s : string) (c : captures)
    (k : string -> captures -> option captures) : option captures :=
  match r with
  | Chr p => match s with String a s => if p a then k s c else None | "" => None end
  | Seq r r' => exec r s c (fun s c => exec r' s c k)
  | Alt r r' => match exec r s c k with Some x => Some x | None => exec r' s c k end
  | Opt r => match exec r s c k with Some x => Some x | None => k s c end
  | Many p =>
      (fix many (s : string) : option captures :=
         match s with
         | "" => None
         | String a s =>
             if p a then match many s with Some x => Some x | None => k s c end else None
         end) s
  | Group n r =>
      exec r s c (fun s' c =>
        k s' ((n, String.substring 0 (String.length s - String.length s') s) :: c))
  end.

(** [^r$]. *)
Definition exec_all (r : regex) (s : string) : option captures :=
  exec r s [] (fun s c => match s with "" => Some c | _ => None end).

Definition capture (n : nat) (c : captures) : option string :=
  snd <$> List.find (fun p => Nat.eqb p.1 n) c.

Definition is_digit (a : ascii) : bool := match digit a with Some _ => true | None => false end.
Definition chr (a : ascii) : regex := Chr (Ascii.eqb a).
Definition sign : regex := Chr (fun a => Ascii.eqb a "+" || Ascii.eqb a "-").
Fixpoint digits_re (n : nat) : regex :=
  match n with
  | O | 1%nat => Chr is_digit
  | Datatypes.S n => Seq (Chr is_digit) (digits_re n)
  end.

Notation "r '>>' r'" := (Seq r r') (at level 51, right associativity, only parsing).

Definition isoDateExpression : regex :=
  Group 1 (Alt (digits_re 4) (sign >> digits_re 6)) >>
  Opt (chr "-" >> Group 2 (digits_re 2) >>
    Opt (chr "-" >> Group 3 (digits_re 2) >>
      Opt (chr "T" >> Group 4 (digits_re 2) >>
        chr ":" >> Group 5 (digits_re 2) >>
        Opt (chr ":" >> Group 6 (digits_re 2) >>
          Opt (Group 7 (chr "." >> Many is_digit))) >>
        Opt (Group 8 (Alt (chr "Z")
          (Group 9 sign >> Group 10 (digits_re 2) >> chr ":" >> Group 11 (digits_re 2))))))).

(** ** [Date.parse] *)

(** A positive quotient rounded to the nearest number of 53 bits (to an even
    one in the middle), as a mantissa and an exponent of 2. *)
Definition round_even (n d : Z) : Z :=
  let q := n / d in let r := n mod d in
  if (2 * r <? d) || ((2 * r =? d) && Z.even q) then q else q + 1.

Definition round53 (n d : Z) : Z * Z :=
  if n <=? 0 then (0, 0) else
  let at_exp := fun e => (n * 2 ^ Z.max (- e) 0, d * 2 ^ Z.max e 0) in
  let e := Z.log2 n - Z.log2 d - 53 in
  let '(a, b) := at_exp e in
  let e := Z.max (if b * 2 ^ 53 <=? a then e + 1 else e) (-1074) in
  let '(a, b) := at_exp e in (round_even a b, e).

(** [Math.floor($Number(s) * 1000)] for the fraction [s] = [.ddd...]. *)
Definition frac_ms (s : string) : Z :=
  match s with
  | String "." s =>
      match to_number s with
      | Some n =>
          let '(m, e) := round53 n (10 ^ Z.of_nat (String.length s)) in
          let '(m, e) := round53 (m * 1000 * 2 ^ Z.max e 0) (2 ^ Z.max (- e) 0) in
          Z.shiftl m e
      | None => 0
      end
  | _ => 0
  end.

(** [$Number] of the digits of a capture, with a sign or not. *)
Definition Number (s : string) : Z :=
  match s with
  | String "-" s => - default 0 (to_number s)
  | String "+" s => default 0 (to_number s)
  | s => default 0 (to_number s)
  end.

(** [$Number(match[n] || d)]. *)
Definition field (c : captures) (n : nat) (d : Z) : Z :=
  match capture n c with Some s => Number s | None => d end.

Definition months : list Z := [0; 31; 59; 90; 120; 151; 181; 212; 243; 273; 304; 334; 365].

Definition dayFromMonth (year month : Z) : js Z :=
  let t := if 1 <? month then 1 else 0 in
  days ← rd months month;
  Ret (days + (year - 1969 + t) / 4 - (year - 1901 + t) / 100 +
       (year - 1601 + t) / 400 + 365 * (year - 1970)).

Definition maxSafeUnsigned32Bit : Z := 2 ^ 31 - 1.

Section parse.
(** [NativeDate.parse], [$Number(new NativeDate(1970, 0, 1, 0, 0, s, ms))], and
    whether the browser has the bug with seconds. *)
Context (native_parse : string -> option Z).
Context (native_local : Z -> Z -> option Z) (hasSafariSignedIntBug : bool).

Definition toUTC (t : Z) : option Z :=
  if hasSafariSignedIntBug && (maxSafeUnsigned32Bit <? t) then
    let msToShift := t / maxSafeUnsigned32Bit * maxSafeUnsigned32Bit in
    let sToShift := msToShift / 1000 in
    native_local (0 + sToShift) (t - sToShift * 1000)
  else native_local 0 t.

(** The checks of the code, up to the one of the day. *)
Definition fields_ok (month day hour minute second millisecond hourOffset minuteOffset : Z) : bool :=
  let more := (0 <? minute) || (0 <? second) || (0 <? millisecond) in
  (hour <? (if more then 24 else 25)) &&
  (minute <? 60) && (second <? 60) && (millisecond <? 1000) &&
  (-1 <? month) && (month <? 12) && (hourOffset <? 24) && (minuteOffset <? 60) && (-1 <? day).

Definition parseShim (string : string) : js (option Z) :=
  match exec_all isoDateExpression string with
  | Some c =>
      let year := field c 1 0 in
      let month := field c 2 1 - 1 in
      let day := field c 3 1 - 1 in
      let hour := field c 4 0 in
      let minute := field c 5 0 in
      let second := field c 6 0 in
      let millisecond := match capture 7 c with Some s => frac_ms s | None => 0 end in
      let isLocalTime := bool_decide (capture 4 c <> None) && bool_decide (capture 8 c = None) in
      let signOffset := if decide (capture 9 c = Some "-") then 1 else -1 in
      let hourOffset := field c 10 0 in
      let minuteOffset := field c 11 0 in
      if fields_ok month day hour minute second millisecond hourOffset minuteOffset then
        this ← dayFromMonth year month;
        next ← dayFromMonth year (month + 1);
        if day <? next - this then
          let result := ((this + day) * 24 + hour + hourOffset * signOffset) * 60 in
          let result := ((result + minute + minuteOffset * signOffset) * 60 + second) * 1000
                        + millisecond in
          let result := if isLocalTime then toUTC result else Some result in
          match result with
          | Some r => if (-8640000000000000 <=? r) && (r <=? 8640000000000000)
                      then Ret (Some r) else Ret None
          | None => Ret None
          end
        else Ret None
      else Ret None
  | None => Ret (native_parse string)
  end.
End parse.

Example iso_ex : toISOString (Some (-62198755200000)) = Ret "-000001-01-01T00:00:00.000Z".
Proof. vm_compute. reflexivity. Qed.

Definition parse_utc := parseShim (fun _ => None) (fun s ms => Some (1000 * s + ms)) false.

Example parse_ex : parse_utc "2012-02-29T12:00:00.123+01:00" = Ret (Some 1330513200123).
Proof. vm_compute. reflexivity. Qed.

(** A fraction of a second that rounds to a whole one makes the date invalid. *)
Example parse_ex2 : parse_utc "2012-02-29T12:00:00.99999999999999999Z" = Ret None.
Proof. vm_compute. reflexivity. Qed.
Example parse_ex3 : parse_utc "2012-02-29T12:00:00.9999999999Z" = Ret (Some 1330516800999).
Proof. vm_compute. reflexivity. Qed.
Example parse_ex4 : parse_utc "2013-02-29" = Ret None.
Proof. vm_compute. reflexivity. Qed.
