(* ===== verification/ShimDateProps.v ===== *)
(** * Dates: the calendar, texts of dates, and reading them back

    [dayFromMonth] against the lengths of the months, [parseShim] on the texts of
    dates, valid or not, and the round trip through [toISOString]. *)

From Stdlib Require Import Ascii.
From stdpp Require Import pretty.
From S2P Require Import Prelude.
From S2P Require Import Arrays.
From S2P Require Import JsStrings.
From S2P Require Import ShimDate.

#[local] Open Scope string_scope.
#[local] Open Scope Z_scope.

(** ** The calendar *)

(** The value of [dayFromMonth]. *)
Definition month_start (y m : Z) : Z := match dayFromMonth y m with Ret d => d | _ => 0 end.

Lemma month_cases (P : Z -> Prop) :
  P 0 -> P 1 -> P 2 -> P 3 -> P 4 -> P 5 -> P 6 -> P 7 -> P 8 -> P 9 -> P 10 -> P 11 -> P 12 ->
  forall m, 0 <= m <= 12 -> P m.
Proof.
  intros; assert (m = 0 \/ m = 1 \/ m = 2 \/ m = 3 \/ m = 4 \/ m = 5 \/ m = 6 \/ m = 7 \/
    m = 8 \/ m = 9 \/ m = 10 \/ m = 11 \/ m = 12) as Hm by lia.
  by repeat destruct Hm as [->|Hm]; [..|subst].
Qed.

Lemma dayFromMonth_ret y m : 0 <= m <= 12 -> dayFromMonth y m = Ret (month_start y m).
Proof. revert m. apply month_cases; reflexivity. Qed.

(** The leap days before a year. *)
Definition leaps (y : Z) : Z := (y - 1969) / 4 - (y - 1901) / 100 + (y - 1601) / 400.

Lemma leaps_next y :
  (y - 1969 + 1) / 4 - (y - 1901 + 1) / 100 + (y - 1601 + 1) / 400
  = leaps y + (if leap y then 1 else 0).
Proof.
  unfold leap, leaps. destruct (Z.eqb_spec (y mod 4) 0), (Z.eqb_spec (y mod 100) 0),
    (Z.eqb_spec (y mod 400) 0); cbn [negb andb orb]; divlia.
Qed.

Lemma month_start_eq y m days : months !! Z.to_nat m = Some days -> 0 <= m ->
  month_start y m =
    days + leaps y + (if (1 <? m) && leap y then 1 else 0) + 365 * (y - 1970).
Proof.
  intros Hd Hm. unfold month_start, dayFromMonth.
  rewrite (rd_Some months m days) by (unfold aget; by rewrite (proj2 (Z.leb_le 0 m))).
  cbn [mbind js_bind]. pose proof (leaps_next y). destruct (Z.ltb_spec 1 m); cbn [andb].
  - lia.
  - rewrite !Z.add_0_r. unfold leaps. lia.
Qed.

(** Each month is as long as the calendar says, each year begins where the
    last one ends, and 1970 begins on day 0. *)
Lemma month_start_next y m : 0 <= m < 12 ->
  month_start y (m + 1) = month_start y m + days_in_month y m.
Proof.
  intros Hm. assert (0 <= m <= 12) as Hm' by lia. revert m Hm' Hm.
  apply (month_cases (fun m => 0 <= m < 12 -> _)); intros Hm; try lia; clear Hm;
    erewrite !month_start_eq by (reflexivity || lia); unfold days_in_month;
    repeat match goal with
           | |- context [1 <? ?a] =>
               let v := eval compute in (1 <? a) in change (1 <? a) with v
           end;
    destruct (leap y); cbn -[Z.mul leaps]; lia.
Qed.

Lemma month_start_year y : month_start y 12 = month_start (y + 1) 0.
Proof.
  erewrite !month_start_eq by (reflexivity || lia). pose proof (leaps_next y).
  replace (leaps (y + 1)) with (leaps y + (if leap y then 1 else 0)); [cbn; lia|].
  rewrite <- leaps_next. unfold leaps. rewrite !(Z.add_sub_swap y 1). done.
Qed.

Lemma month_start_first y : month_start y 0 = DayFromYear y.
Proof.
  erewrite month_start_eq by (reflexivity || lia). unfold DayFromYear, leaps.
  change ((1 <? 0) && leap y) with false. cbv iota. lia.
Qed.

(** ** Years, months and days of a time *)

Lemma YearFromDay_spec d : DayFromYear (YearFromDay d) <= d < DayFromYear (YearFromDay d + 1).
Proof.
  unfold YearFromDay. set (y := d * 400 / 146097 + 1970).
  assert (DayFromYear (y - 1) <= d < DayFromYear (y + 2)) by (subst y; unfold DayFromYear; divlia).
  clearbody y. replace (y + 2) with (y + 1 + 1) in * by lia.
  destruct (Z.ltb_spec d (DayFromYear y)); [rewrite Z.sub_add; lia|].
  destruct (Z.leb_spec (DayFromYear (y + 1)) d); lia.
Qed.

Lemma days_in_month_pos y m : 28 <= days_in_month y m.
Proof.
  unfold days_in_month. destruct (m =? 1), (leap y); repeat destruct (_ || _); lia.
Qed.

Lemma month_date_spec k y m d : 0 <= m -> m + Z.of_nat k = 11 ->
  0 <= d < month_start y 12 - month_start y m ->
  let '(m', d') := month_date k y m d in
  m <= m' <= 11 /\ 0 <= d' < days_in_month y m' /\
  month_start y m' + d' = month_start y m + d.
Proof.
  revert m d. induction k as [|k IH]; intros m d Hm Hk Hd; cbn [month_date].
  - pose proof (month_start_next y 11 ltac:(lia)) as H11. change (11 + 1) with 12 in H11.
    assert (m = 11) as -> by lia. lia.
  - pose proof (month_start_next y m ltac:(lia)).
    destruct (Z.ltb_spec d (days_in_month y m)); [lia|].
    specialize (IH (m + 1) (d - days_in_month y m) ltac:(lia) ltac:(lia) ltac:(lia)).
    destruct (month_date k y (m + 1) (d - days_in_month y m)). lia.
Qed.

Lemma month_day_spec t :
  0 <= getUTCMonth t <= 11 /\
  1 <= getUTCDate t <= days_in_month (getUTCFullYear t) (getUTCMonth t) /\
  month_start (getUTCFullYear t) (getUTCMonth t) + (getUTCDate t - 1) = Day t.
Proof.
  unfold getUTCMonth, getUTCDate, getUTCFullYear, month_day.
  set (y := YearFromDay (Day t)). pose proof (YearFromDay_spec (Day t)) as Hy. fold y in Hy.
  rewrite <- !month_start_first, <- month_start_year in Hy.
  pose proof (month_date_spec 11 y 0 (Day t - DayFromYear y)) as Hd.
  rewrite <- !month_start_first in Hd |- *.
  destruct (month_date 11 y 0 _) as [m d]. cbn [fst snd]. lia.
Qed.

Lemma time_fields t :
  t = (((Day t * 24 + getUTCHours t) * 60 + getUTCMinutes t) * 60 + getUTCSeconds t) * 1000
      + getUTCMilliseconds t /\
  0 <= getUTCHours t < 24 /\ 0 <= getUTCMinutes t < 60 /\ 0 <= getUTCSeconds t < 60 /\
  0 <= getUTCMilliseconds t < 1000.
Proof.
  unfold Day, getUTCHours, getUTCMinutes, getUTCSeconds, getUTCMilliseconds, TimeWithinDay, msPerDay.
  divlia.
Qed.

(** The years of the times of dates have at most six digits. *)
Lemma year_range t : - 8640000000000000 <= t <= 8640000000000000 ->
  -271822 <= getUTCFullYear t <= 275761.
Proof.
  intros Ht. assert (-100000000 <= Day t <= 100000000) as Hd by (unfold Day, msPerDay; divlia).
  unfold getUTCFullYear. pose proof (YearFromDay_spec (Day t)) as Hy. unfold DayFromYear in Hy.
  divlia.
Qed.

(** ** What the regular expression consumes

    [consumes r w rest c c']: before [rest], the expression [r] takes [w] and
    leaves the captures [c'], for every continuation that goes on from there. *)

Definition consumes (r : regex) (w rest : string) (c c' : captures) : Prop :=
  forall k x, k rest c' = Some x -> exec r (w ++ rest) c k = Some x.

Lemma consumes_chr p a rest c : p a = true -> consumes (Chr p) (String a "") rest c c.
Proof. intros Ha k x Hk. simpl. by rewrite Ha. Qed.

Lemma consumes_seq r r' w w' rest c c1 c2 :
  consumes r w (w' ++ rest) c c1 -> consumes r' w' rest c1 c2 ->
  consumes (Seq r r') (w ++ w') rest c c2.
Proof. intros H H' k x Hk. cbn [exec]. rewrite str_app_assoc. apply H. by apply H'. Qed.

Lemma consumes_opt r w rest c c' : consumes r w rest c c' -> consumes (Opt r) w rest c c'.
Proof. intros H k x Hk. cbn [exec]. by rewrite (H k x Hk). Qed.

Lemma consumes_alt_l r r' w rest c c' : consumes r w rest c c' -> consumes (Alt r r') w rest c c'.
Proof. intros H k x Hk. cbn [exec]. by rewrite (H k x Hk). Qed.

Lemma consumes_alt_r r r' w rest c c' :
  (forall k, exec r (w ++ rest) c k = None) -> consumes r' w rest c c' ->
  consumes (Alt r r') w rest c c'.
Proof. intros Hr H k x Hk. cbn [exec]. rewrite Hr. by apply H. Qed.

Lemma substring_app (w s : string) : String.substring 0 (String.length w) (w ++ s) = w.
Proof. induction w as [|a w IH]; simpl; [by destruct s|by f_equal]. Qed.

Lemma consumes_group n r w rest c c' :
  consumes r w rest c c' -> consumes (Group n r) w rest c ((n, w) :: c').
Proof.
  intros H k x Hk. cbn [exec]. apply H. rewrite str_length_app, Nat.add_sub.
  by rewrite substring_app.
Qed.

Fixpoint all_digits (w : string) : bool :=
  match w with "" => true | String a w => is_digit a && all_digits w end.

Lemma digits_all w acc v : digits w acc = Some v -> all_digits w = true.
Proof.
  revert acc. induction w as [|a w IH]; intros acc; simpl; [done|].
  unfold is_digit. destruct (digit a); [|done]. apply IH.
Qed.

Lemma consumes_digits n w rest c :
  String.length w = Datatypes.S n -> all_digits w = true ->
  consumes (digits_re (Datatypes.S n)) w rest c c.
Proof.
  revert w. induction n as [|n IH]; intros w Hl Hd.
  - destruct w as [|a [|b w]]; try done. simpl in Hd. apply consumes_chr.
    by apply andb_true_iff in Hd as [-> _].
  - destruct w as [|a w]; [done|]. simpl in Hl, Hd. apply andb_true_iff in Hd as [Ha Hd].
    change (String a w) with (String a "" ++ w). simplify_eq Hl. intros Hl'.
    apply (consumes_seq _ (digits_re (Datatypes.S n)) _ _ _ _ c);
      [by apply consumes_chr|by apply IH].
Qed.

Lemma consumes_many w a rest c :
  w <> "" -> all_digits w = true -> is_digit a = false ->
  consumes (Many is_digit) w (String a rest) c c.
Proof.
  intros Hw Hd Ha k x Hk. induction w as [|b w IH]; [done|]. cbn [all_digits] in Hd.
  apply andb_true_iff in Hd as [Hb Hd].
  destruct w as [|b' w].
  - change (String b "" ++ String a rest) with (String b (String a rest)). cbn [exec].
    by rewrite Hb, Ha.
  - specialize (IH ltac:(done) Hd). rewrite str_app_cons. cbn [exec] in IH |- *.
    rewrite Hb. by rewrite IH.
Qed.

Lemma exec_all_consumes r w c : consumes r w "" [] c -> exec_all r w = Some c.
Proof. intros H. unfold exec_all. rewrite <- (str_app_nil w) at 1. by apply H. Qed.

(** ** Numbers in a fixed number of digits *)

(** [w] is [v] in [n] digits. *)
Definition spells (n : nat) (v : Z) (w : string) : Prop :=
  String.length w = n /\ to_number w = Some v.

Fixpoint zeros (k : nat) : string :=
  match k with O => "" | Datatypes.S k => String "0" (zeros k) end.

Lemma length_zeros k : String.length (zeros k) = k.
Proof. induction k; simpl; congruence. Qed.

Lemma zeros_add j k : zeros (j + k) = zeros j ++ zeros k.
Proof. induction j as [|j IH]; [done|]. cbn [zeros Nat.add]. by rewrite IH, str_app_cons. Qed.

Lemma digits_zeros k w : digits (zeros k ++ w) 0 = digits w 0.
Proof. induction k as [|k IH]; [done|]. cbn [zeros]. rewrite str_app_cons. cbn. apply IH. Qed.

Lemma str_last_zeros n k w : (String.length w <= n <= k + String.length w)%nat ->
  str_last n (zeros k ++ w) = zeros (n - String.length w) ++ w.
Proof.
  intros Hn. unfold str_last. rewrite str_length_app, length_zeros.
  set (j := (n - String.length w)%nat).
  replace k with ((k - j) + j)%nat by lia. rewrite zeros_add, str_app_assoc.
  replace (k - j + j + String.length w - n)%nat with (String.length (zeros (k - j)))
    by (rewrite length_zeros; lia).
  apply substring_drop. rewrite str_length_app, length_zeros. lia.
Qed.

Lemma length_go (k : nat) x : (x < 10 ^ N.of_nat k)%N -> (String.length (pretty_N_go x "") <= k)%nat.
Proof.
  revert x. induction k as [|k IH]; intros x Hx.
  - rewrite N.pow_0_r in Hx. assert (x = 0%N) as -> by lia. by rewrite pretty_N_go_0.
  - destruct (decide (x = 0%N)) as [->|]; [rewrite pretty_N_go_0; simpl; lia|].
    rewrite pretty_N_go_step by lia.
    destruct (digits_go (x `div` 10) (String (pretty_N_char (x `mod` 10)) "") 0) as [_ ->].
    rewrite Nat2N.inj_succ, N.pow_succ_r' in Hx.
    specialize (IH (x `div` 10)%N ltac:(apply N.Div0.div_lt_upper_bound; lia)). simpl. lia.
Qed.

Lemma length_str_of_num (n : nat) v : 0 <= v < 10 ^ Z.of_nat n -> (1 <= n)%nat ->
  (1 <= String.length (str_of_num v) <= n)%nat.
Proof.
  intros Hv Hn. unfold str_of_num. destruct v as [|p|p]; [simpl; lia| |lia].
  change (pretty (Z.pos p)) with (pretty_N_go (N.pos p) ""). split.
  - rewrite pretty_N_go_step by lia. destruct (digits_go (N.pos p `div` 10)
      (String (pretty_N_char (N.pos p `mod` 10)) "") 0) as [_ ->]. simpl. lia.
  - apply length_go. apply N2Z.inj_lt. rewrite N2Z.inj_pow, nat_N_Z. simpl. lia.
Qed.

Lemma str_last_spells (n k : nat) v : 0 <= v < 10 ^ Z.of_nat n -> (1 <= n <= k + 1)%nat ->
  spells n v (str_last n (zeros k ++ str_of_num v)).
Proof.
  intros Hv Hn. pose proof (length_str_of_num n v Hv ltac:(lia)).
  rewrite str_last_zeros by lia. split.
  - rewrite str_length_app, length_zeros. lia.
  - unfold to_number. rewrite digits_zeros. apply to_number_str. lia.
Qed.

(** A fact checked for each number of a range. *)
Lemma check_range (p : Z -> bool) n v :
  forallb p (seqZ 0 n) = true -> 0 <= v < n -> p v = true.
Proof. intros H Hv. rewrite forallb_forall in H. apply H, list_elem_of_In, elem_of_seqZ. lia. Qed.

Lemma pad2_spells v : 0 <= v < 100 -> spells 2 v (pad2 v).
Proof.
  intros Hv. pose proof (check_range (fun v => Nat.eqb (String.length (pad2 v)) 2 &&
    bool_decide (to_number (pad2 v) = Some v)) 100 v ltac:(vm_compute; done) Hv) as H.
  apply andb_true_iff in H as [H1 H2]. split; [by apply Nat.eqb_eq|].
  by apply bool_decide_eq_true_1 in H2.
Qed.

Definition pad3 (v : Z) : string := str_last 3 ("000" ++ str_of_num v).

Lemma pad3_spells v : 0 <= v < 1000 -> spells 3 v (pad3 v).
Proof. intros Hv. apply (str_last_spells 3 3); [simpl; lia|lia]. Qed.

(** Every fraction of three digits is exact in binary floating point, once
    multiplied and rounded down. *)
Lemma frac_ms_pad3 v : 0 <= v < 1000 -> frac_ms (String "." (pad3 v)) = v.
Proof.
  intros Hv. pose proof (check_range (fun v => frac_ms (String "." (pad3 v)) =? v) 1000 v) as H.
  apply Z.eqb_eq, H; [vm_compute; done|lia].
Qed.

Lemma spells_all n v w : spells n v w -> all_digits w = true.
Proof. intros [_ H]. by eapply digits_all. Qed.

Lemma Number_digits w v : to_number w = Some v -> Number w = v.
Proof.
  intros H. unfold Number. destruct w as [|a w]; [by rewrite H|].
  pose proof (digits_all _ _ _ H) as Hd. cbn [all_digits] in Hd.
  apply andb_true_iff in Hd as [Hd _].
  destruct a as [[] [] [] [] [] [] [] []]; try done; by rewrite H.
Qed.

(** The year of a text, with four digits or a sign and six. *)
Lemma iso_year_text y : -999999 <= y <= 999999 ->
  (0 <= y <= 9999 /\ spells 4 y (iso_year y)) \/
  (exists a w, (a = "-" \/ a = "+")%char /\ iso_year y = String a w /\
     spells 6 (Z.abs y) w /\ Number (String a w) = y).
Proof.
  intros Hy. unfold iso_year. change "00000" with (zeros 5).
  destruct (decide (0 <= y <= 9999)) as [H|H].
  - left. split; [done|]. destruct (Z.ltb_spec y 0), (Z.ltb_spec 9999 y),
      (Z.leb_spec 0 y), (Z.leb_spec y 9999); try lia. cbn [andb].
    rewrite str_nil_app, Z.abs_eq by lia. apply str_last_spells; [simpl; lia|lia].
  - right. assert ((0 <=? y) && (y <=? 9999) = false) as ->.
    { destruct (Z.leb_spec 0 y), (Z.leb_spec y 9999); try done. lia. }
    pose proof (str_last_spells 6 5 (Z.abs y) ltac:(simpl; lia) ltac:(lia)) as Hw.
    destruct (Z.ltb_spec y 0), (Z.ltb_spec 9999 y); try lia; do 2 eexists;
      (split; [|split; [reflexivity|split; [exact Hw|]]]); try (by auto);
      destruct Hw as [_ Hw]; cbn [Number]; rewrite Hw; simpl; lia.
Qed.

Lemma consumes_year y rest c : -999999 <= y <= 999999 ->
  consumes (Alt (digits_re 4) (Seq sign (digits_re 6))) (iso_year y) rest c c.
Proof.
  intros Hy. destruct (iso_year_text y Hy) as [[_ H]|(a & w & Ha & -> & H & _)].
  - apply consumes_alt_l, consumes_digits; [apply H|by eapply spells_all].
  - apply consumes_alt_r; [by intros k; destruct Ha as [-> | ->]|].
    change (String a w) with (String a "" ++ w). eapply consumes_seq.
    + apply consumes_chr. by destruct Ha as [-> | ->].
    + apply consumes_digits; [apply H|by eapply spells_all].
Qed.

Lemma Number_year y : -999999 <= y <= 999999 -> Number (iso_year y) = y.
Proof.
  intros Hy. destruct (iso_year_text y Hy) as [[_ H]|(a & w & _ & -> & _ & H)]; [|done].
  apply Number_digits, H.
Qed.

Lemma consumes_two n v rest c : 0 <= v < 100 ->
  consumes (Group n (digits_re 2)) (pad2 v) rest c ((n, pad2 v) :: c).
Proof.
  intros Hv. apply consumes_group, consumes_digits; [by apply pad2_spells|].
  eapply spells_all, pad2_spells, Hv.
Qed.

Lemma Number_two v : 0 <= v < 100 -> Number (pad2 v) = v.
Proof. intros Hv. apply Number_digits, pad2_spells, Hv. Qed.

(** ** Texts of dates

    The fields of a date as they are written, and the zone: [Z], or an offset in
    hours and minutes. *)

Inductive zone := UTC | Offset (neg : bool) (h m : Z).

Definition zone_text (z : zone) : string :=
  match z with
  | UTC => "Z"
  | Offset neg h m => (if neg then "-" else "+") ++ pad2 h ++ ":" ++ pad2 m
  end.

(** Minutes to add to the time of the zone. *)
Definition zone_shift (z : zone) : Z :=
  match z with UTC => 0 | Offset neg h m => (if neg then 1 else -1) * (60 * h + m) end.

Definition zone_ok (z : zone) : bool :=
  match z with UTC => true | Offset _ h m => (h <? 24) && (m <? 60) end.

Record fields := Fields {
  f_year : Z; f_month : Z; f_day : Z; f_hour : Z; f_minute : Z; f_second : Z; f_ms : Z;
  f_zone : zone }.

(** Fields that have a text: numbers of as many digits as there is room for. *)
Definition writable (f : fields) : Prop :=
  -999999 <= f_year f <= 999999 /\ 0 <= f_month f < 100 /\ 0 <= f_day f < 100 /\
  0 <= f_hour f < 100 /\ 0 <= f_minute f < 100 /\ 0 <= f_second f < 100 /\ 0 <= f_ms f < 1000 /\
  match f_zone f with UTC => True | Offset _ h m => 0 <= h < 100 /\ 0 <= m < 100 end.

Definition date_text (f : fields) : string :=
  iso_year (f_year f) ++ "-" ++ pad2 (f_month f) ++ "-" ++ pad2 (f_day f) ++
  "T" ++ pad2 (f_hour f) ++ ":" ++ pad2 (f_minute f) ++
  (":" ++ pad2 (f_second f) ++ ("." ++ pad3 (f_ms f))) ++ zone_text (f_zone f).

(** The fields are those of a date of the calendar; the hour may be 24 at the
    end of a day. *)
Definition valid (f : fields) : bool :=
  (1 <=? f_month f) && (f_month f <=? 12) && (1 <=? f_day f) &&
  (f_day f <=? days_in_month (f_year f) (f_month f - 1)) &&
  ((f_hour f <? 24) || ((f_hour f =? 24) && (f_minute f =? 0) && (f_second f =? 0) && (f_ms f =? 0))) &&
  (f_minute f <? 60) && (f_second f <? 60) && zone_ok (f_zone f).

(** The days of the calendar before a date: whole years from 1970 on (or back
    to the year), then whole months, then days. *)
Fixpoint month_days (y : Z) (k : nat) : Z :=
  match k with O => 0 | Datatypes.S k => month_days y k + days_in_month y (Z.of_nat k) end.

Definition year_days (y : Z) : Z := month_days y 12.

Fixpoint sum_years (y : Z) (k : nat) : Z :=
  match k with O => 0 | Datatypes.S k => year_days y + sum_years (y + 1) k end.

Definition calendar_day (y m d : Z) : Z :=
  (if 1970 <=? y then sum_years 1970 (Z.to_nat (y - 1970)) else - sum_years y (Z.to_nat (1970 - y)))
  + month_days y (Z.to_nat (m - 1)) + (d - 1).

(** The time of a date, in milliseconds. *)
Definition calendar_time (f : fields) : Z :=
  (((calendar_day (f_year f) (f_month f) (f_day f) * 24 + f_hour f) * 60 + f_minute f +
    zone_shift (f_zone f)) * 60 + f_second f) * 1000 + f_ms f.

(** What reading a date gives: its time, if it is a date and in range. *)
Definition read_date (f : fields) : option Z :=
  let t := calendar_time f in
  if valid f && (-8640000000000000 <=? t) && (t <=? 8640000000000000) then Some t else None.

Lemma month_start_days y (k : nat) : (k <= 12)%nat ->
  month_start y (Z.of_nat k) = month_start y 0 + month_days y k.
Proof.
  induction k as [|k IH]; intros Hk; cbn [month_days]; [by rewrite Z.add_0_r|].
  rewrite Nat2Z.inj_succ. unfold Z.succ. rewrite month_start_next, IH by lia. lia.
Qed.

Lemma month_start_years y (k : nat) :
  month_start (y + Z.of_nat k) 0 = month_start y 0 + sum_years y k.
Proof.
  revert y. induction k as [|k IH]; intros y; cbn [sum_years]; [by rewrite !Z.add_0_r|].
  replace (y + Z.of_nat (Datatypes.S k)) with (y + 1 + Z.of_nat k) by lia.
  rewrite IH, <- month_start_year. unfold year_days.
  pose proof (month_start_days y 12 ltac:(lia)) as H. change (Z.of_nat 12) with 12 in H. lia.
Qed.

(** [dayFromMonth] counts the days of the calendar. *)
Lemma month_start_calendar y m d : 1 <= m <= 13 ->
  month_start y (m - 1) + (d - 1) = calendar_day y m d.
Proof.
  intros Hm. unfold calendar_day.
  pose proof (month_start_days y (Z.to_nat (m - 1)) ltac:(lia)) as H.
  rewrite Z2Nat.id in H by lia. rewrite H. destruct (Z.leb_spec 1970 y).
  - pose proof (month_start_years 1970 (Z.to_nat (y - 1970))) as Hy.
    rewrite Z2Nat.id in Hy by lia. replace (1970 + (y - 1970)) with y in Hy by lia.
    change (month_start 1970 0) with 0 in Hy. lia.
  - pose proof (month_start_years y (Z.to_nat (1970 - y))) as Hy.
    rewrite Z2Nat.id in Hy by lia. replace (y + (1970 - y)) with 1970 in Hy by lia.
    change (month_start 1970 0) with 0 in Hy. lia.
Qed.

(** ** Reading the text of a date *)

Definition zone_captures (z : zone) : captures :=
  (8%nat, zone_text z) ::
  match z with
  | UTC => []
  | Offset neg h m =>
      [(11%nat, pad2 m); (10%nat, pad2 h); (9%nat, if neg then "-" else "+")]
  end.

Definition date_captures (f : fields) : captures :=
  (zone_captures (f_zone f) ++
  [(7%nat, ("." ++ pad3 (f_ms f))%string); (6%nat, pad2 (f_second f)); (5%nat, pad2 (f_minute f));
   (4%nat, pad2 (f_hour f)); (3%nat, pad2 (f_day f)); (2%nat, pad2 (f_month f));
   (1%nat, iso_year (f_year f))])%list.

Lemma consumes_chr_seq a r w rest c c' :
  consumes r w rest c c' -> consumes (Seq (chr a) r) (String a "" ++ w) rest c c'.
Proof.
  intros H. eapply consumes_seq; [|done]. apply consumes_chr, Ascii.eqb_refl.
Qed.

Lemma consumes_zone z c :
  match z with UTC => True | Offset _ h m => 0 <= h < 100 /\ 0 <= m < 100 end ->
  consumes (Opt (Group 8 (Alt (chr "Z")
     (Seq (Group 9 sign) (Seq (Group 10 (digits_re 2)) (Seq (chr ":") (Group 11 (digits_re 2))))))))
    (zone_text z) "" c (zone_captures z ++ c)%list.
Proof.
  intros Hz. apply consumes_opt. destruct z as [|neg h m].
  - apply consumes_group, consumes_alt_l, consumes_chr, Ascii.eqb_refl.
  - destruct Hz as [Hh Hm]. apply consumes_group, consumes_alt_r; [by intros k; destruct neg|].
    eapply consumes_seq; [apply consumes_group; destruct neg; by apply consumes_chr|].
    eapply consumes_seq; [by apply consumes_two|]. by apply consumes_chr_seq, consumes_two.
Qed.

Lemma exec_date f : writable f ->
  exec_all isoDateExpression (date_text f) = Some (date_captures f).
Proof.
  intros (Hy & Hmo & Hd & Hh & Hmi & Hs & Hms & Hz). apply exec_all_consumes.
  unfold isoDateExpression, date_text.
  eapply consumes_seq; [by apply consumes_group, consumes_year|].
  apply consumes_opt, consumes_chr_seq. eapply consumes_seq; [by apply consumes_two|].
  apply consumes_opt, consumes_chr_seq. eapply consumes_seq; [by apply consumes_two|].
  apply consumes_opt, consumes_chr_seq. eapply consumes_seq; [by apply consumes_two|].
  apply consumes_chr_seq. eapply consumes_seq; [by apply consumes_two|].
  eapply consumes_seq; [|by apply consumes_zone].
  apply consumes_opt, consumes_chr_seq. eapply consumes_seq; [by apply consumes_two|].
  apply consumes_opt, consumes_group, consumes_chr_seq.
  assert (exists a rest, zone_text (f_zone f) ++ "" = String a rest /\ is_digit a = false)
    as (a & rest & -> & Ha).
  { rewrite str_app_nil. destruct (f_zone f) as [|[] h m]; by do 2 eexists. }
  destruct (pad3_spells _ Hms) as [Hl Hn].
  apply consumes_many; [by intros E; rewrite E in Hl|by eapply digits_all|done].
Qed.

Lemma field_two c n v d : capture n c = Some (pad2 v) -> 0 <= v < 100 -> field c n d = v.
Proof. intros Hc Hv. unfold field. rewrite Hc. by apply Number_two. Qed.

(** The fields are read back. *)
Lemma date_fields f : writable f -> let c := date_captures f in
  field c 1 0 = f_year f /\ field c 2 1 = f_month f /\ field c 3 1 = f_day f /\
  field c 4 0 = f_hour f /\ field c 5 0 = f_minute f /\ field c 6 0 = f_second f /\
  capture 7 c = Some ("." ++ pad3 (f_ms f)) /\ capture 8 c = Some (zone_text (f_zone f)).
Proof.
  intros (Hy & Hmo & Hd & Hh & Hmi & Hs & Hms & Hz) c.
  assert (capture 1 c = Some (iso_year (f_year f))) as H1
    by (subst c; unfold date_captures; by destruct (f_zone f)).
  split_and!; try (apply field_two; [|done]);
    try (subst c; unfold date_captures; by destruct (f_zone f)).
  unfold field. rewrite H1. by apply Number_year.
Qed.

Lemma zone_fields f : writable f -> let c := date_captures f in
  (field c 10 0 <? 24) && (field c 11 0 <? 60) = zone_ok (f_zone f) /\
  (60 * field c 10 0 + field c 11 0) * (if decide (capture 9 c = Some "-") then 1 else -1)
  = zone_shift (f_zone f).
Proof.
  intros (_ & _ & _ & _ & _ & _ & _ & Hz) c. subst c. unfold date_captures.
  destruct (f_zone f) as [|neg h m]; [done|]. destruct Hz as [Hh Hm].
  rewrite (field_two _ 10 h), (field_two _ 11 m) by done. split; [done|].
  cbn [zone_shift]. change (capture 9 _) with (Some (if neg then "-" else "+")).
  destruct neg; destruct (decide _); try done; lia.
Qed.

(** The checks of the parser are those of the calendar. *)
Lemma fields_ok_valid f : writable f -> let c := date_captures f in
  fields_ok (f_month f - 1) (f_day f - 1) (f_hour f) (f_minute f) (f_second f) (f_ms f)
    (field c 10 0) (field c 11 0)
  && (f_day f - 1 <? days_in_month (f_year f) (f_month f - 1)) = valid f.
Proof.
  intros Hw c. destruct (zone_fields f Hw) as [Hz _]. fold c in Hz.
  destruct Hw as (Hy & Hmo & Hd & Hh & Hmi & Hs & Hms & _).
  unfold valid. rewrite <- Hz. unfold fields_ok. apply eq_true_iff_eq.
  destruct ((0 <? f_minute f) || (0 <? f_second f) || (0 <? f_ms f)) eqn:E;
    rewrite ?orb_true_iff, ?orb_false_iff, ?Z.ltb_lt, ?Z.ltb_ge in E;
    rewrite !andb_true_iff, ?orb_true_iff, !andb_true_iff, ?Z.ltb_lt, ?Z.leb_le, ?Z.eqb_eq; lia.
Qed.

Lemma parse_text native_parse native_local bug f : writable f ->
  parseShim native_parse native_local bug (date_text f) = Ret (read_date f).
Proof.
  intros Hw. unfold parseShim. rewrite exec_date by done.
  destruct (date_fields f Hw) as (-> & -> & -> & -> & -> & -> & -> & ->).
  change ("." ++ pad3 (f_ms f)) with (String "." (pad3 (f_ms f))). rewrite frac_ms_pad3 by apply Hw.
  pose proof (fields_ok_valid f Hw) as Hok. destruct (zone_fields f Hw) as [_ Hz].
  cbv zeta in Hok, Hz |- *. unfold read_date.
  destruct (fields_ok _ _ _ _ _ _ _ _) eqn:Ef; rewrite <- Hok; [|done].
  assert (1 <= f_month f <= 12) as Hm.
  { unfold fields_ok in Ef. rewrite !andb_true_iff, !Z.ltb_lt in Ef. lia. }
  rewrite !dayFromMonth_ret by lia. cbn [mbind js_bind].
  rewrite month_start_next by lia. rewrite Z.add_simpl_l. cbn [andb].
  destruct (f_day f - 1 <? _); [|done]. rewrite (bool_decide_eq_false_2 (Some _ = None)) by done.
  rewrite andb_false_r. cbn [andb]. rewrite month_start_calendar by lia.
  match goal with |- (if (_ <=? ?a) && _ then _ else _) = _ => replace a with (calendar_time f) end.
  - by destruct ((_ <=? _) && _).
  - unfold calendar_time. rewrite <- Hz. destruct (decide _); lia.
Qed.

(** ** Writing a date *)

Definition fields_of (t : Z) : fields :=
  Fields (getUTCFullYear t) (getUTCMonth t + 1) (getUTCDate t) (getUTCHours t)
    (getUTCMinutes t) (getUTCSeconds t) (getUTCMilliseconds t) UTC.

Lemma toISOString_text t : toISOString (Some t) = Ret (date_text (fields_of t)).
Proof.
  pose proof (month_day_spec t) as (Hm & _). unfold toISOString.
  rewrite Z.div_small, Z.add_0_r by lia.
  rewrite (Z.rem_small (getUTCMonth t)) by lia.
  replace (Z.rem (getUTCMonth t + 12) 12) with (getUTCMonth t)
    by (rewrite Z.rem_mod_nonneg by lia; divlia).
  unfold date_text, join, pad3. cbn [List.map take drop String.concat f_year f_month f_day
    f_hour f_minute f_second f_ms f_zone fields_of zone_text].
  by rewrite !str_app_assoc.
Qed.

Lemma days_in_month_le y m : days_in_month y m <= 31.
Proof.
  unfold days_in_month. destruct (m =? 1), (leap y); repeat destruct (_ || _); lia.
Qed.

Lemma fields_of_writable t :
  - 8640000000000000 <= t <= 8640000000000000 -> writable (fields_of t).
Proof.
  intros Ht. pose proof (year_range t Ht). pose proof (month_day_spec t) as (Hm & Hd & _).
  pose proof (time_fields t) as (_ & Hh).
  pose proof (days_in_month_le (getUTCFullYear t) (getUTCMonth t)).
  unfold writable. cbn. lia.
Qed.

Lemma fields_of_time t : calendar_time (fields_of t) = t.
Proof.
  pose proof (month_day_spec t) as (Hm & Hd & Hday). pose proof (time_fields t) as (Ht & _).
  unfold calendar_time. cbn [fields_of f_year f_month f_day f_hour f_minute f_second f_ms f_zone zone_shift].
  rewrite <- month_start_calendar by lia. rewrite Z.add_simpl_r, Hday. lia.
Qed.

Lemma fields_of_valid t : valid (fields_of t) = true.
Proof.
  pose proof (month_day_spec t) as (Hm & Hd & _). pose proof (time_fields t) as (_ & Hh).
  unfold valid. cbn [fields_of f_year f_month f_day f_hour f_minute f_second f_ms f_zone zone_ok].
  rewrite Z.add_simpl_r, !andb_true_iff, orb_true_iff, !Z.ltb_lt, !Z.leb_le.
  repeat split; try lia.
Qed.

(** The work around the bug of some browsers leaves the time the same, if the
    constructor only depends on the sum of its seconds and milliseconds. *)
Lemma toUTC_shift native_local local bug t :
  (forall s ms, native_local s ms = local (1000 * s + ms)) -> toUTC native_local bug t = local t.
Proof.
  intros H. unfold toUTC. destruct (bug && _); rewrite H; f_equal; lia.
Qed.

(** ** The properties *)

(** [dayFromMonth], whose leap days are computed with three divisions, is
    the number of days of the calendar from 1970 to the first of a month,
    counted month by month and year by year (13 stands for the first month of
    the next year), for all years, before 1970 too. *)
Theorem dayFromMonth_calendar year month : 0 <= month <= 12 ->
  dayFromMonth year month = Ret (calendar_day year (month + 1) 1).
Proof.
  intros Hm. rewrite dayFromMonth_ret by done. f_equal.
  rewrite <- month_start_calendar by lia. rewrite Z.add_simpl_r. lia.
Qed.

Lemma dayFromMonth_calendar_witness :
  dayFromMonth 2000 2 = Ret (calendar_day 2000 3 1) /\ dayFromMonth 1600 12 = Ret (calendar_day 1601 1 1).
Proof.
  rewrite (dayFromMonth_calendar 2000 2 ltac:(lia)), (dayFromMonth_calendar 1600 12 ltac:(lia)).
  vm_compute. done.
Defined.

(** C27: The parser of dates on a text with all fields, in UTC or with an offset:
    if the fields are those of a date of the calendar (the hour 24 only at the
    end of a day), the result is its time, and [NaN] if not or if the time is
    out of the range of dates.  The native parser is not asked. *)
Theorem parse_reads_dates native_parse native_local bug f : writable f ->
  parseShim native_parse native_local bug (date_text f) = Ret (read_date f).
Proof. apply parse_text. Qed.

Definition ex_fields : fields := Fields 2016 2 29 23 59 59 999 (Offset true 5 30).
Definition ex_no_date : fields := Fields 2015 2 29 23 59 59 999 (Offset true 5 30).

Lemma parse_reads_dates_witness :
  parse_utc "2016-02-29T23:59:59.999-05:30" = Ret (Some 1456810199999) /\
  parse_utc "2015-02-29T23:59:59.999-05:30" = Ret None.
Proof.
  assert (writable ex_fields /\ writable ex_no_date) as [H1 H2]
    by (split; unfold writable; simpl; lia).
  pose proof (parse_reads_dates (fun _ => None) (fun s ms => Some (1000 * s + ms)) false) as H.
  split; [apply (H ex_fields H1)|apply (H ex_no_date H2)].
Defined.

(** C26: Every date in the range of dates is read back from its ISO text: years
    of four digits, and signed years of six. *)
Theorem iso_roundtrip native_parse native_local bug t :
  - 8640000000000000 <= t <= 8640000000000000 ->
  exists s, toISOString (Some t) = Ret s /\
            parseShim native_parse native_local bug s = Ret (Some t).
Proof.
  intros Ht. eexists. split; [apply toISOString_text|].
  rewrite parse_text by by apply fields_of_writable.
  unfold read_date. rewrite fields_of_valid, fields_of_time.
  destruct (Z.leb_spec (-8640000000000000) t), (Z.leb_spec t 8640000000000000); try lia. done.
Qed.

Lemma iso_roundtrip_witness :
  toISOString (Some (-8640000000000000)) = Ret "-271821-04-20T00:00:00.000Z" /\
  parse_utc "-271821-04-20T00:00:00.000Z" = Ret (Some (-8640000000000000)).
Proof.
  destruct (iso_roundtrip (fun _ => None) (fun s ms => Some (1000 * s + ms)) false
    (-8640000000000000) ltac:(lia)) as (s & Hs & Hp).
  assert (Ret s = Ret "-271821-04-20T00:00:00.000Z") as E by (rewrite <- Hs; vm_compute; done).
  injection E as Es. rewrite Es in Hs, Hp. split; [exact Hs|exact Hp].
Defined.
