(* ===== verification/ShimNumber.v ===== *)
(** * [toFixed] of [es5-shim.js] (lines 1381-1517)

    Fixed-point texts of numbers.  The code computes with six cells of seven
    decimal digits in a shared array, [toFixedHelpers.data], which keeps what the
    last call left.  A finite double is a mantissa and an exponent of 2; the
    arithmetic of the code on doubles is exact for the numbers it meets: products
    with powers of 2, quotients by them, and integers below 2^53.  The cells are
    counted in halves, because the least numbers that are not taken for 0
    have a half in their last cell. *)

From Stdlib Require Import QArith Qround.
From S2P Require Import Prelude.
From S2P Require Import Arrays.
From S2P Require Import JsStrings.
From S2P Require Import ShimArray.
From S2P Require Import ShimDate.

#[local] Open Scope string_scope.
#[local] Open Scope Z_scope.

(** ** Doubles *)

Record dyadic := Dy { mant : Z; expo : Z }.

Inductive double := DNaN | DInf (neg : bool) | DFin (neg : bool) (x : dyadic).

Definition dy_le (x y : dyadic) : bool :=
  let k := Z.min (expo x) (expo y) in
  mant x * 2 ^ (expo x - k) <=? mant y * 2 ^ (expo y - k).

Definition dy_int (z : Z) : dyadic := Dy z 0.
Definition dy_mul (x : dyadic) (z : Z) : dyadic := Dy (mant x * z) (expo x).
(** The quotient by a power of 2. *)
Definition dy_div (x : dyadic) (p : Z) : dyadic := Dy (mant x) (expo x - Z.log2 p).

(** The literal [1e-21]. *)
Definition e_minus_21 : dyadic := let '(m, e) := round53 1 (10 ^ 21) in Dy m e.

(** A number as a count of halves. *)
Definition halves (x : dyadic) : js Z :=
  if 0 <=? expo x + 1 then Ret (mant x * 2 ^ (expo x + 1))
  else if mant x mod 2 ^ (- (expo x + 1)) =? 0 then Ret (mant x / 2 ^ (- (expo x + 1)))
  else Stuck.

(** ** [toFixedHelpers] *)

Definition base : Z := 10000000.
Definition cells_size : Z := 6.

(** [c] and the cells are counts of halves. *)
Definition multiply (data : list Z) (n c : Z) : js (list Z) :=
  '(data, _) ← for_ 0 cells_size (fun i '(data, c2) =>
      d ← rd data i;
      let c2 := c2 + n * d in
      data ← wr data i (c2 mod (2 * base));
      Ret (data, 2 * (c2 / (2 * base)))) (data, c);
  Ret data.

Definition divide (data : list Z) (n : Z) : js (list Z) :=
  '(data, _) ← for_down cells_size 0 (fun k '(data, c) =>
      let i := k - 1 in
      d ← rd data i;
      let c := c + d in
      data ← wr data i (2 * (c / (2 * n)));
      Ret (data, c mod (2 * n) * base)) (data, 0);
  Ret data.

Definition numToString (data : list Z) : js string :=
  for_down cells_size 0 (fun k s =>
    let i := k - 1 in
    d ← rd data i;
    if negb (String.eqb s "") || (i =? 0) || negb (d =? 0) then
      let t := str_of_num (d / 2) in
      if String.eqb s "" then Ret t
      else Ret (s ++ String.substring 0 (7 - String.length t) "0000000" ++ t)
    else Ret s) "".

Fixpoint pow_fuel (fuel : nat) (x n acc : Z) : js Z :=
  match fuel with
  | O => Stuck
  | Datatypes.S fuel =>
      if n =? 0 then Ret acc
      else if Z.rem n 2 =? 1 then pow_fuel fuel x (n - 1) (acc * x)
      else pow_fuel fuel (x * x) (n / 2) acc
  end.

Definition pow (x n acc : Z) : js Z := pow_fuel (Datatypes.S (Z.to_nat n)) x n acc.

(** The loops divide by 4096, then by 2; a double has less than 1100 binary digits. *)
Definition log (x : dyadic) : js Z :=
  '(x2, n) ← loop 100 (fun '(x2, n) =>
      if dy_le (dy_int 4096) x2 then Ret (inl (dy_div x2 4096, n + 12)) else Ret (inr (x2, n))) (x, 0);
  loop 13 (fun '(x2, n) =>
      if dy_le (dy_int 2) x2 then Ret (inl (dy_div x2 2, n + 1)) else Ret (inr n)) (x2, n).

(** ** [toFixed] *)

Section toFixed.
(** [$String] of a number. *)
Context (num_to_string : double -> string).

(** The loop [while (j >= s) { step; j -= s }]. *)
Definition by_steps (s j : Z) (step : list Z -> js (list Z)) (data : list Z) : js (list Z * Z) :=
  loop (Datatypes.S (Z.to_nat j)) (fun '(data, j) =>
    if s <=? j then data ← step data; Ret (inl (data, j - s)) else Ret (inr (data, j))) (data, j).

(** The digits of [x] times a power of 10, rounded. *)
Definition digits_of (data : list Z) (x : dyadic) (f : Z) : js (string * list Z) :=
  p ← pow 2 69 1;
  l ← log (dy_mul x p);
  let e := l - 69 in
  z ← (if e <? 0 then p ← pow 2 (- e) 1; Ret (dy_mul x p)
       else p ← pow 2 e 1; Ret (dy_div x p));
  let z := dy_mul z (2 ^ 52) in
  z ← halves z;
  let e := 52 - e in
  if 0 <? e then
    data ← multiply data 0 z;
    '(data, j) ← by_steps 7 f (fun data => multiply data 10000000 0) data;
    p ← pow 10 j 1;
    data ← multiply data p 0;
    '(data, j) ← by_steps 23 (e - 1) (fun data => divide data (js_shl 1 23)) data;
    data ← divide data (js_shl 1 j);
    data ← multiply data 1 (2 * 1);
    data ← divide data 2;
    m ← numToString data;
    Ret (m, data)
  else
    data ← multiply data 0 z;
    data ← multiply data (js_shl 1 (- e)) 0;
    m ← numToString data;
    Ret (m ++ String.substring 2 (Z.to_nat f) "0.00000000000000000000", data).

(** The decimal point, and the zeros before it. *)
Definition point (s m : string) (f : Z) : string :=
  if 0 <? f then
    let k := Z.of_nat (String.length m) in
    if k <=? f then s ++ String.substring 0 (Z.to_nat (f - k + 2)) "0.0000000000000000000" ++ m
    else s ++ String.substring 0 (Z.to_nat (k - f)) m ++ "." ++
         String.substring (Z.to_nat (k - f)) (Z.to_nat f) m
  else s ++ m.

Definition toFixedShim (data : list Z) (this : double) (fractionDigits : jsnumber)
    : js (string * list Z) :=
  let f := match fractionDigits with
           | NaN => Int 0
           | Num q => Int (Qfloor q)
           | Infinity => PosInf
           | NegInfinity => NegInf
           end in
  match f with
  | PosInf | NegInf => Throw "Number.toFixed called with invalid number of decimals"
  | Int f =>
      if (f <? 0) || (20 <? f) then Throw "Number.toFixed called with invalid number of decimals"
      else
        match this with
        | DNaN => Ret ("NaN", data)
        | DInf _ => Ret (num_to_string this, data)
        | DFin neg x =>
            if dy_le (dy_int (10 ^ 21)) x then Ret (num_to_string this, data)
            else
              let s := if neg && negb (mant x =? 0) then "-" else "" in
              '(m, data) ← (if negb (dy_le x e_minus_21) then digits_of data x f
                            else Ret ("0", data));
              Ret (point s m f, data)
        end
  end.
End toFixed.

Definition ex_fixed (x : dyadic) (f : Z) : js string :=
  '(s, _) ← toFixedShim (fun _ => "") [1; 2; 3; 4; 5; 6] (DFin true x) (Num (inject_Z f)); Ret s.
Definition dbl (n d : Z) : dyadic := let '(m, e) := round53 n d in Dy m e.

Example fixed_ex1 : ex_fixed (dbl 8 100000) 3 = Ret "-0.000".
Proof. vm_compute. reflexivity. Qed.
Example fixed_ex2 : ex_fixed (dbl 9 10) 0 = Ret "-1".
Proof. vm_compute. reflexivity. Qed.
Example fixed_ex3 : ex_fixed (dbl 1255 1000) 2 = Ret "-1.25".
Proof. vm_compute. reflexivity. Qed.
Example fixed_ex4 : ex_fixed (dbl 1000000000000000128 1) 2 = Ret "-1000000000000000128.00".
Proof. vm_compute. reflexivity. Qed.
Example fixed_ex5 : ex_fixed (dbl 1 3) 20 = Ret "-0.33333333333333331483".
Proof. vm_compute. reflexivity. Qed.
Example fixed_ex6 : ex_fixed (dbl 11 10000000000000000000000) 20 = Ret "-0.00000000000000000000".
Proof. vm_compute. reflexivity. Qed.
