(* ===== verification/ShimNumberProps.v ===== *)
(** * [toFixed] writes the nearest number

    The cells of [toFixedHelpers] as one number, what its operations do to it,
    and the decimal text that comes out. *)

From Stdlib Require Import QArith Qround.
From stdpp Require Import pretty.
From S2P Require Import Prelude.
From S2P Require Import Arrays.
From S2P Require Import JsStrings.
From S2P Require Import ShimArray.
From S2P Require Import ShimArrayProps.
From S2P Require Import ShimDate.
From S2P Require Import ShimDateProps.
From S2P Require Import ShimNumber.

#[local] Open Scope string_scope.
#[local] Open Scope Z_scope.

(** ** The number in the cells *)

Fixpoint value (l : list Z) : Z :=
  match l with [] => 0 | d :: l => d + base * value l end.

Definition cell (d : Z) : Prop := 0 <= d < 2 * base.
(** Cells in range, all but the first whole. *)
Definition normal (l : list Z) : Prop := Forall cell l /\ Forall Z.Even (tail l).

(** [multiply] and [divide] on a list of cells. *)
Fixpoint mul_cells (n c : Z) (l : list Z) : list Z * Z :=
  match l with
  | [] => ([], c)
  | d :: l =>
      let c2 := c + n * d in
      let '(l, c') := mul_cells n (2 * (c2 / (2 * base))) l in (c2 mod (2 * base) :: l, c')
  end.

Fixpoint div_cells (n : Z) (l : list Z) : list Z * Z :=
  match l with
  | [] => ([], 0)
  | d :: l =>
      let '(l, r) := div_cells n l in
      let c := r * base + d in (2 * (c / (2 * n)) :: l, c mod (2 * n))
  end.

Lemma six (l : list Z) : length l = 6%nat -> exists a b c d e f, l = [a; b; c; d; e; f].
Proof. destruct l as [|a [|b [|c [|d [|e [|f []]]]]]]; try done. intros _. by do 6 eexists. Qed.

Lemma multiply_cells data n c : length data = 6%nat ->
  multiply data n c = Ret (mul_cells n c data).1.
Proof. intros H. destruct (six data H) as (a & b & c' & d & e & f & ->). reflexivity. Qed.

Lemma divide_cells data n : length data = 6%nat -> divide data n = Ret (div_cells n data).1.
Proof.
  intros H. destruct (six data H) as (a & b & c & d & e & f & ->).
  unfold divide, for_down. cbn. rewrite ?Z.add_0_l, ?Z.mul_0_l. reflexivity.
Qed.

Lemma length_mul n c l : length (mul_cells n c l).1 = length l.
Proof.
  revert c. induction l as [|d l IH]; intros c; [done|]. simpl.
  specialize (IH (2 * ((c + n * d) / (2 * base)))). destruct (mul_cells _ _ l). simpl in *. congruence.
Qed.

Lemma length_div n l : length (div_cells n l).1 = length l.
Proof.
  induction l as [|d l IH]; [done|]. simpl. destruct (div_cells n l). simpl in *. congruence.
Qed.

Lemma even_2 z : Z.Even (2 * z).
Proof. by exists z. Qed.

Lemma even_plus a b : Z.Even a -> Z.Even b -> Z.Even (a + b).
Proof. intros [x ->] [y ->]. exists (x + y). lia. Qed.

Lemma even_times a b : Z.Even a -> Z.Even (a * b).
Proof. intros [x ->]. exists (x * b). lia. Qed.

Lemma even_mod z n : Z.Even z -> 0 < n -> Z.Even (z mod (2 * n)).
Proof. intros [w ->] Hn. rewrite Z.mul_mod_distr_l by lia. apply even_2. Qed.

(** The number is multiplied and added to; the carry is what does not fit. *)
Lemma mul_cells_spec n c l :
  0 <= c -> Forall (fun d => 0 <= n * d) l ->
  let '(l', c') := mul_cells n c l in
  value l' + base ^ Z.of_nat (length l) * c' = n * value l + c /\ 0 <= c' /\ Forall cell l' /\
  (Forall (fun d => Z.Even (n * d)) l -> Z.Even c -> Forall Z.Even l').
Proof.
  revert c. induction l as [|d l IH]; intros c Hc Hl.
  - simpl. rewrite Z.pow_0_r. split_and!; try lia; try done; by intros; constructor.
  - apply Forall_cons in Hl as [Hd Hl]. cbn [mul_cells].
    pose proof (Z.div_mod (c + n * d) (2 * base) ltac:(done)) as Hdm.
    pose proof (Z.mod_pos_bound (c + n * d) (2 * base) ltac:(done)) as Hm.
    assert (0 <= (c + n * d) / (2 * base)) as Hq by (apply Z.div_pos; [lia|done]).
    specialize (IH (2 * ((c + n * d) / (2 * base))) ltac:(lia) Hl).
    destruct (mul_cells n _ l) as [l' c']. destruct IH as (Hv & Hc' & Hcells & Hev).
    split_and!; [|done|by constructor|].
    + cbn [value length]. rewrite Nat2Z.inj_succ, Z.pow_succ_r by lia.
      replace (base * base ^ Z.of_nat (length l) * c') with (base * (base ^ Z.of_nat (length l) * c')) by ring.
      assert (base * (base ^ Z.of_nat (length l) * c') =
        base * (n * value l + 2 * ((c + n * d) / (2 * base))) - base * value l') as -> by (rewrite <- Hv; ring).
      unfold base in *. lia.
    + intros He Hce. apply Forall_cons in He as [Hde He]. constructor.
      * apply even_mod; [|done]. by apply even_plus.
      * apply Hev; [done|apply even_2].
Qed.

(** The number is divided, rounding down to a whole. *)
Lemma div_cells_spec n l :
  0 < n -> Forall cell l ->
  let '(l', r) := div_cells n l in
  value l = n * value l' + r /\ 0 <= r < 2 * n /\ Forall Z.Even l' /\
  (Forall Z.Even l -> Z.Even r) /\ (Forall Z.Even (tail l) -> Forall cell l').
Proof.
  intros Hn. induction l as [|d l IH]; intros Hl.
  - simpl. split_and!; try lia; try done. intros _. by exists 0.
  - apply Forall_cons in Hl as [Hd Hl]. specialize (IH Hl). cbn [div_cells].
    destruct (div_cells n l) as [l' r]. destruct IH as (Hv & Hr & He & Hev & Hc).
    pose proof (Z.div_mod (r * base + d) (2 * n) ltac:(lia)) as Hdm.
    pose proof (Z.mod_pos_bound (r * base + d) (2 * n) ltac:(lia)) as Hm.
    unfold cell in Hd. split_and!; [|lia..|constructor; [apply even_2|done]| |].
    + cbn [value]. rewrite Hv. lia.
    + intros Ha. apply Forall_cons in Ha as [Hde Ha]. apply even_mod; [|done].
      apply even_plus; [|done]. by apply even_times, Hev.
    + simpl. intros Ha. assert (Forall Z.Even (tail l)) by (destruct l; [done|by inversion Ha]).
      constructor; [|by apply Hc]. destruct (Hev Ha) as [r' ->]. split.
      * apply Z.mul_nonneg_nonneg; [lia|]. apply Z.div_pos; lia.
      * apply Z.mul_lt_mono_pos_l; [lia|]. apply Z.div_lt_upper_bound; nia.
Qed.

(** Six normal cells that make the number [v]. *)
Definition holds (v : Z) (data : list Z) : Prop :=
  length data = 6%nat /\ normal data /\ value data = v.

Lemma value_nonneg l : Forall cell l -> 0 <= value l.
Proof.
  induction 1 as [|d l Hd _ IH]; simpl; [done|]. unfold cell in Hd.
  apply Z.add_nonneg_nonneg; [lia|]. apply Z.mul_nonneg_nonneg; done.
Qed.

Lemma mul_holds data n c v :
  length data = 6%nat -> 0 <= c -> Forall (fun d => 0 <= n * d) data ->
  Forall (fun d => Z.Even (n * d)) (tail data) -> n * value data + c = v -> v < base ^ 6 ->
  wp (multiply data n c) (holds v).
Proof.
  intros Hlen Hc Hpos Hev Hv Hfit. rewrite multiply_cells by done. apply wp_Ret.
  pose proof (mul_cells_spec n c data Hc Hpos) as H. pose proof (length_mul n c data) as Hl.
  assert (Forall Z.Even (tail (mul_cells n c data).1)) as Htl.
  { destruct data as [|d l]; [done|]. apply Forall_cons in Hpos as [Hd Hpos]. cbn [mul_cells].
    assert (0 <= 2 * ((c + n * d) / (2 * base))) as Hc'
      by (apply Z.mul_nonneg_nonneg; [lia|apply Z.div_pos; [lia|done]]).
    pose proof (mul_cells_spec n _ l Hc' Hpos) as Hs.
    destruct (mul_cells n _ l) as [l' c']. destruct Hs as (_ & _ & _ & Hs).
    apply Hs; [done|apply even_2]. }
  destruct (mul_cells n c data) as [l' c']. destruct H as (Hval & Hc' & Hcells & _). cbn [fst] in *.
  rewrite Hlen in Hval. pose proof (value_nonneg l' Hcells).
  split_and!; [congruence|by split|]. change (Z.of_nat 6) with 6 in Hval.
  destruct (decide (c' = 0)) as [->|]; [lia|].
  assert (base ^ 6 <= base ^ 6 * c') by (apply Z.le_mul_diag_r; lia). lia.
Qed.

(** The first call forgets what the cells held. *)
Lemma mul_reset data z : length data = 6%nat -> 0 <= z < base ^ 6 ->
  wp (multiply data 0 z) (holds z).
Proof.
  intros Hl Hz. apply mul_holds; try lia; try done.
  - apply Forall_forall. intros d _. lia.
  - apply Forall_forall. intros d _. by exists 0.
Qed.

Lemma mul_wp data n c v : holds v data -> 0 <= n -> 0 <= c -> n * v + c < base ^ 6 ->
  wp (multiply data n c) (holds (n * v + c)).
Proof.
  intros (Hl & [Hc He] & Hv) Hn Hc' Hfit. apply mul_holds; try done; [..|lia].
  - eapply Forall_impl; [exact Hc|]. intros d Hd. unfold cell in Hd. nia.
  - eapply Forall_impl; [exact He|]. intros d Hd. rewrite Z.mul_comm. by apply even_times.
Qed.

Lemma value_even l : Forall Z.Even l -> exists w, value l = 2 * w.
Proof.
  induction 1 as [|d l [x ->] _ [w IH]]; [by exists 0|].
  exists (x + base * w). simpl. rewrite IH. lia.
Qed.

Lemma div_wp data n v : holds v data -> 0 < n ->
  wp (divide data n) (fun data => holds (2 * (v / (2 * n))) data /\ Forall Z.Even data).
Proof.
  intros (Hl & [Hc He] & Hv) Hn. rewrite divide_cells by done. apply wp_Ret.
  pose proof (div_cells_spec n data Hn Hc) as H. pose proof (length_div n data) as Hl'.
  destruct (div_cells n data) as [l r]. destruct H as (Hval & Hr & Hev & _ & Hcells).
  cbn [fst] in *. assert (Forall Z.Even (tail l)) by (destruct l; [done|by inversion Hev]).
  split; [|done]. split_and!; [congruence|split; [by apply Hcells|done]|].
  destruct (value_even l Hev) as [w Hw]. rewrite Hw in *. f_equal. apply Z.div_unique with r; lia.
Qed.

(** ** Powers, logarithms *)

Lemma pow_fuel_spec fuel x n acc : 0 <= n -> (Z.to_nat n < fuel)%nat ->
  pow_fuel fuel x n acc = Ret (acc * x ^ n).
Proof.
  revert x n acc. induction fuel as [|fuel IH]; intros x n acc Hn Hf; [lia|]. cbn [pow_fuel].
  destruct (Z.eqb_spec n 0) as [->|]; [by rewrite Z.pow_0_r, Z.mul_1_r|].
  rewrite Z.rem_mod_nonneg by lia. destruct (Z.eqb_spec (n mod 2) 1) as [E|E].
  - rewrite IH by lia. f_equal. replace n with (Z.succ (n - 1)) at 2 by lia.
    rewrite Z.pow_succ_r by lia. ring.
  - assert (n = 2 * (n / 2)) as Hn2 by divlia. rewrite IH by divlia. f_equal. f_equal.
    rewrite Hn2 at 2. rewrite Z.pow_mul_r by divlia. by rewrite Z.pow_2_r.
Qed.

Lemma pow_spec x n : 0 <= n -> pow x n 1 = Ret (x ^ n).
Proof. intros Hn. unfold pow. rewrite pow_fuel_spec by lia. by rewrite Z.mul_1_l. Qed.

(** The binary logarithm of a number, rounded down. *)
Definition ilog (x : dyadic) : Z := Z.log2 (mant x) + expo x.

Lemma dy_le_pow c x : 0 < mant x -> 0 <= c -> dy_le (dy_int (2 ^ c)) x = (c <=? ilog x).
Proof.
  intros Hm Hc. unfold dy_le, ilog, dy_int. cbn [mant expo]. apply eq_true_iff_eq.
  rewrite !Z.leb_le. destruct (decide (0 <= expo x)) as [H|H].
  - rewrite Z.min_l by lia. rewrite !Z.sub_0_r, Z.pow_0_r, Z.mul_1_r.
    rewrite Z.add_comm, <- Z.log2_mul_pow2 by lia. apply Z.log2_le_pow2.
    apply Z.mul_pos_pos; [done|]. by apply Z.pow_pos_nonneg.
  - rewrite Z.min_r, Z.sub_diag, Z.pow_0_r, Z.mul_1_r by lia.
    rewrite <- Z.pow_add_r by lia. rewrite Z.log2_le_pow2 by lia. lia.
Qed.

Lemma log_spec x : 0 < mant x -> ilog x < 1000 -> wp (log x) (fun n => n = Z.max 0 (ilog x)).
Proof.
  intros Hm Hx. unfold log. apply wp_bind. eapply wp_mono.
  - apply wp_loop with (Inv := fun '(x2, n) => mant x2 = mant x /\ ilog x2 + n = ilog x /\
      0 <= n /\ (n = 0 \/ 0 <= ilog x2))
      (meas := fun '(x2, _) => Z.max 0 (ilog x2 / 12))
      (P := fun '(x2, n) => mant x2 = mant x /\ ilog x2 + n = ilog x /\
      0 <= n /\ (n = 0 \/ 0 <= ilog x2) /\ ilog x2 < 12); [|divlia|].
    + split_and!; try done; try lia.
    + intros [x2 n] (Hm2 & Hl & Hn & H0). change 4096 with (2 ^ 12) at 1.
      rewrite dy_le_pow by lia. destruct (Z.leb_spec 12 (ilog x2)); simpl; [|lia].
      change (ilog (dy_div x2 4096)) with (Z.log2 (mant x2) + (expo x2 - 12)).
      unfold ilog in *. split; [|divlia]. split_and!; try done; try lia.
  - intros [x2 n] (Hm2 & Hl & Hn & H0 & Hlt).
    apply wp_loop with (Inv := fun '(x2, n) => mant x2 = mant x /\ ilog x2 + n = ilog x /\
      0 <= n /\ (n = 0 \/ 0 <= ilog x2))
      (meas := fun '(x2, _) => Z.max 0 (ilog x2)); [done|lia|].
    intros [y k] (Hm3 & Hl3 & Hk & H3). change 2 with (2 ^ 1) at 1.
    rewrite dy_le_pow by lia. destruct (Z.leb_spec 1 (ilog y)); simpl; [|lia].
    change (ilog (dy_div y 2)) with (Z.log2 (mant y) + (expo y - 1)).
    unfold ilog in *. split; [|lia]. split_and!; try done; try lia.
Qed.

(** ** Decimal texts *)

Lemma pretty_go_app x s : pretty_N_go x s = pretty_N_go x "" ++ s.
Proof.
  revert s. induction (N.lt_wf_0 x) as [x _ IH]; intros s.
  destruct (decide (x = 0%N)) as [->|Hx]; [by rewrite !pretty_N_go_0|].
  rewrite (pretty_N_go_step x s), (pretty_N_go_step x "") by lia.
  assert (x `div` 10 < x)%N as Hlt by (apply N.div_lt; lia).
  rewrite (IH _ Hlt (String _ s)), (IH _ Hlt (String _ "")), str_app_assoc. done.
Qed.

(** A number in exactly [k] digits. *)
Fixpoint fixed (k : nat) (l : N) : string :=
  match k with
  | O => ""
  | Datatypes.S k => fixed k (l `div` 10)%N ++ String (pretty_N_char (l `mod` 10)%N) ""
  end.

Lemma go_split (k : nat) h l : (0 < h)%N -> (l < 10 ^ N.of_nat k)%N ->
  pretty_N_go (h * 10 ^ N.of_nat k + l) "" = pretty_N_go h "" ++ fixed k l.
Proof.
  intros Hh. revert l. induction k as [|k IH]; intros l Hl.
  - rewrite N.pow_0_r in *. replace (h * 1 + l)%N with h by lia. by rewrite str_app_nil.
  - rewrite Nat2N.inj_succ, N.pow_succ_r' in *. set (p := (10 ^ N.of_nat k)%N) in *.
    assert (0 < p)%N by (apply N.neq_0_lt_0, N.pow_nonzero; lia).
    rewrite pretty_N_go_step by nia. cbn [fixed].
    replace ((h * (10 * p) + l) `div` 10)%N with (h * p + l `div` 10)%N
      by (replace (h * (10 * p) + l)%N with (l + h * p * 10)%N by lia; rewrite N.div_add by lia; lia).
    replace ((h * (10 * p) + l) `mod` 10)%N with (l `mod` 10)%N
      by (replace (h * (10 * p) + l)%N with (l + h * p * 10)%N by lia; by rewrite N.Div0.mod_add).
    rewrite pretty_go_app, IH by (apply N.Div0.div_lt_upper_bound; lia).
    by rewrite str_app_assoc.
Qed.

Lemma fixed_0 k : fixed k 0 = zeros k.
Proof.
  induction k as [|k IH]; [done|]. cbn [fixed]. rewrite N.Div0.div_0_l, N.Div0.mod_0_l, IH.
  change (String (pretty_N_char 0) "") with (zeros 1). rewrite <- zeros_add. f_equal. lia.
Qed.

Lemma fixed_go (k : nat) l : (l < 10 ^ N.of_nat k)%N ->
  fixed k l = zeros (k - String.length (pretty_N_go l "")) ++ pretty_N_go l "".
Proof.
  revert l. induction k as [|k IH]; intros l Hl.
  - rewrite N.pow_0_r in Hl. assert (l = 0%N) as -> by lia. by rewrite pretty_N_go_0.
  - destruct (decide (l = 0%N)) as [->|Hnz].
    { rewrite pretty_N_go_0, fixed_0, str_app_nil. done. }
    rewrite Nat2N.inj_succ, N.pow_succ_r' in Hl. cbn [fixed].
    rewrite IH by (apply N.Div0.div_lt_upper_bound; lia).
    rewrite (pretty_N_go_step l) by lia. rewrite (pretty_go_app (l `div` 10) (String _ _)).
    rewrite str_length_app, !str_app_assoc. cbn [String.length]. do 2 f_equal. lia.
Qed.

Lemma str_of_pos p : str_of_num (Z.pos p) = pretty_N_go (N.pos p) "".
Proof. done. Qed.

(** [padded k l]: the digits of [l], with zeros before them up to [k]. *)
Definition padded (k : nat) (l : Z) : string :=
  zeros (k - String.length (str_of_num l)) ++ str_of_num l.

Lemma padded_fixed (k : nat) l : (1 <= k)%nat -> 0 <= l < 10 ^ Z.of_nat k ->
  padded k l = fixed k (Z.to_N l).
Proof.
  intros Hk Hl. unfold padded. destruct l as [|p|p]; [| |lia].
  - rewrite fixed_0. change (str_of_num 0) with (zeros 1). rewrite length_zeros, <- zeros_add.
    f_equal. lia.
  - rewrite fixed_go; [done|]. apply N2Z.inj_lt. rewrite N2Z.inj_pow, nat_N_Z. simpl in *. lia.
Qed.

Lemma str_split (k : nat) h l : (1 <= k)%nat -> 0 < h -> 0 <= l < 10 ^ Z.of_nat k ->
  str_of_num (h * 10 ^ Z.of_nat k + l) = str_of_num h ++ padded k l.
Proof.
  intros Hk Hh Hl. rewrite padded_fixed by done. destruct h as [|h|h]; [lia| |lia].
  assert (0 < Z.pos h * 10 ^ Z.of_nat k) by (apply Z.mul_pos_pos; lia).
  destruct (Z.pos h * 10 ^ Z.of_nat k + l) as [|q|q] eqn:E; [lia| |lia].
  rewrite !str_of_pos, <- go_split.
  - f_equal. apply N2Z.inj. rewrite N2Z.inj_add, N2Z.inj_mul, N2Z.inj_pow, nat_N_Z, Z2N.id by lia.
    simpl in *. lia.
  - lia.
  - apply N2Z.inj_lt. rewrite N2Z.inj_pow, nat_N_Z, Z2N.id by lia. simpl. lia.
Qed.

Lemma length_padded (k : nat) l : (1 <= k)%nat -> 0 <= l < 10 ^ Z.of_nat k ->
  String.length (padded k l) = k.
Proof.
  intros Hk Hl. unfold padded. rewrite str_length_app, length_zeros.
  pose proof (length_str_of_num k l Hl Hk). lia.
Qed.

Lemma str_of_num_nonempty z : 0 <= z -> str_of_num z <> "".
Proof.
  intros Hz E. pose proof (to_number_str z Hz) as H. rewrite E in H.
  assert (z = 0) as -> by (by injection H). done.
Qed.

Lemma zeros_slice n s k : s = zeros k -> (n <= k)%nat -> String.substring 0 n s = zeros n.
Proof.
  intros -> Hn. replace k with (n + (k - n))%nat by lia. rewrite zeros_add.
  rewrite <- (length_zeros n) at 1. apply substring_app.
Qed.

(** The number of the cells from [k] on, in wholes. *)
Definition top_value (data : list Z) (k : Z) : Z := value (drop (Z.to_nat k) data) / 2.

Lemma top_value_step data k d : Forall Z.Even data -> Forall cell data -> 0 < k ->
  aget data (k - 1) = Some d ->
  top_value data (k - 1) = top_value data k * 10 ^ Z.of_nat 7 + d / 2 /\
  0 <= d / 2 < 10 ^ Z.of_nat 7 /\ 0 <= top_value data k.
Proof.
  intros He Hc Hk Hd. unfold top_value.
  assert (data !! Z.to_nat (k - 1) = Some d) as Hd'
    by (unfold aget in Hd; by destruct (0 <=? k - 1)).
  rewrite (drop_S data d (Z.to_nat (k - 1))) by done.
  replace (S (Z.to_nat (k - 1))) with (Z.to_nat k) by lia.
  set (l := drop (Z.to_nat k) data).
  assert (Forall Z.Even l) as Hel by (by apply Forall_drop).
  assert (Forall cell l) as Hcl by (by apply Forall_drop).
  destruct (value_even l Hel) as [w Hw]. pose proof (value_nonneg l Hcl).
  rewrite Forall_lookup in He, Hc. destruct (He _ _ Hd') as [x ->]. pose proof (Hc _ _ Hd') as Hx.
  unfold cell in Hx. cbn [value]. rewrite Hw in *. unfold base in *.
  change (10 ^ Z.of_nat 7) with 10000000. divlia.
Qed.

Lemma numToString_wp data v : holds (2 * v) data -> Forall Z.Even data ->
  wp (numToString data) (fun s => s = str_of_num v).
Proof.
  intros (Hl & [Hc _] & Hv) He. unfold numToString.
  eapply wp_mono; [apply wp_for_down with (Inv := fun k s =>
    s = if (0 <? k) && (top_value data k =? 0) then "" else str_of_num (top_value data k))|].
  - done.
  - unfold top_value. rewrite drop_ge by (rewrite Hl; done). done.
  - intros k s Hk ->. assert (0 <= k - 1 < alen data) as Hi.
    { unfold alen. rewrite Hl. unfold cells_size in Hk. lia. }
    destruct (aget_is_Some data (k - 1) Hi) as [d Hd].
    apply wp_bind, (wp_rd_Some _ _ d); [done|].
    destruct (top_value_step data k d He Hc ltac:(lia) Hd) as (Hs & Hd7 & Ht). rewrite Hs.
    rewrite (proj2 (Z.ltb_lt 0 k)) by lia. cbn [andb].
    destruct (Z.eqb_spec (top_value data k) 0) as [E|E].
    + rewrite E, Z.mul_0_l, Z.add_0_l. cbn [String.eqb negb orb].
      assert (Z.Even d) as [x Hx].
      { rewrite Forall_lookup in He. unfold aget in Hd. destruct (0 <=? k - 1); [|done].
        by eapply He. }
      destruct (Z.eqb_spec (k - 1) 0) as [Ek|Ek]; cbn [orb].
      * rewrite Ek. done.
      * destruct (Z.eqb_spec d 0) as [->|]; cbn [negb]; apply wp_Ret.
        -- by rewrite (proj2 (Z.ltb_lt 0 (k - 1))) by lia.
        -- destruct (Z.eqb_spec (d / 2) 0); [divlia|]. by rewrite andb_false_r.
    + pose proof (str_of_num_nonempty (top_value data k) Ht) as Hne.
      rewrite (proj2 (String.eqb_neq _ _) Hne). cbn [negb orb]. apply wp_Ret.
      destruct (Z.eqb_spec (top_value data k * 10 ^ Z.of_nat 7 + d / 2) 0); [lia|].
      rewrite andb_false_r, str_split by lia. unfold padded. do 2 f_equal.
      by apply (zeros_slice _ _ 7); [|lia].
  - intros s ->. cbn [Z.ltb Z.compare andb]. unfold top_value.
    change (drop (Z.to_nat 0) data) with data. rewrite Hv. f_equal. divlia.
Qed.

(** ** Steps of a loop that counts down by [s] *)

Lemma by_steps_wp (Inv : Z -> list Z -> Prop) s j step data :
  0 < s -> 0 <= j -> Inv j data ->
  (forall j data, s <= j -> Inv j data -> wp (step data) (Inv (j - s))) ->
  wp (by_steps s j step data) (fun '(data, j) => Inv j data /\ 0 <= j < s).
Proof.
  intros Hs Hj HI Hstep. unfold by_steps.
  apply wp_loop with (Inv := fun '(data, j) => Inv j data /\ 0 <= j) (meas := fun '(_, j) => j);
    [done|lia|].
  intros [d i] [Hi Hpos]. destruct (Z.leb_spec s i); [|simpl; split; [done|lia]].
  apply wp_bind. eapply wp_mono; [by apply Hstep|]. intros d' Hd'. simpl. split; [|lia].
  split; [done|lia].
Qed.

Lemma js_shl_one j : 0 <= j <= 30 -> js_shl 1 j = 2 ^ j.
Proof.
  intros Hj. unfold js_shl. rewrite (to_int32_small 1) by done.
  rewrite Z.shiftl_1_l. apply to_int32_small. split; [|apply Z.pow_lt_mono_r; lia].
  transitivity 0; [done|]. apply Z.pow_nonneg. lia.
Qed.

Lemma halves_pow m a k : 0 <= a -> 0 <= a + k + 1 ->
  halves (Dy (m * 2 ^ a) k) = Ret (m * 2 ^ (a + k + 1)).
Proof.
  intros Ha Hk. unfold halves. cbn [mant expo]. destruct (Z.leb_spec 0 (k + 1)).
  - rewrite <- Z.mul_assoc, <- Z.pow_add_r by lia. by rewrite Z.add_assoc.
  - assert (m * 2 ^ a = m * 2 ^ (a + k + 1) * 2 ^ (- (k + 1))) as ->.
    { rewrite <- Z.mul_assoc, <- Z.pow_add_r by lia. do 2 f_equal. lia. }
    rewrite Z.mod_mul, Z.div_mul by (apply Z.pow_nonzero; lia). done.
Qed.

(** ** The nearest number *)

(** The integer nearest to [n / d], the greater of two. *)
Definition nearest (n d : Z) : Z := (2 * n + d) / (2 * d).

Lemma nearest_closest n d i : 0 < d ->
  Z.abs (nearest n d * d - n) <= Z.abs (i * d - n) /\
  (Z.abs (nearest n d * d - n) = Z.abs (i * d - n) -> i <= nearest n d).
Proof.
  intros Hd. unfold nearest.
  pose proof (Z.div_mod (2 * n + d) (2 * d) ltac:(lia)) as Hdm.
  pose proof (Z.mod_pos_bound (2 * n + d) (2 * d) ltac:(lia)) as Hm.
  set (q := (2 * n + d) / (2 * d)) in *. set (r := (2 * n + d) mod (2 * d)) in *. clearbody q r.
  destruct (decide (i <= q - 1)); [|destruct (decide (i = q)) as [->|]]; [|lia|].
  - assert (i * d <= q * d - d) by nia. split; lia.
  - assert (q * d + d <= i * d) by nia. split; lia.
Qed.

Lemma nearest_scale n d c : 0 < c -> 0 < d -> nearest (n * c) (d * c) = nearest n d.
Proof.
  intros Hc Hd. unfold nearest. replace (2 * (n * c) + d * c) with ((2 * n + d) * c) by ring.
  replace (2 * (d * c)) with (2 * d * c) by ring. apply Z.div_mul_cancel_r; lia.
Qed.

(** A double as a fraction. *)
Definition dy_num (x : dyadic) : Z := mant x * 2 ^ Z.max (expo x) 0.
Definition dy_den (x : dyadic) : Z := 2 ^ Z.max (- expo x) 0.

(** The double times [10 ^ f], rounded. *)
Definition scaled (x : dyadic) (f : Z) : Z := nearest (dy_num x * 10 ^ f) (dy_den x).

Lemma scaled_as x f a b : 0 <= a -> 0 <= b -> a - b = expo x ->
  scaled x f = nearest (mant x * 2 ^ a * 10 ^ f) (2 ^ b).
Proof.
  intros Ha Hb Hab. unfold scaled, dy_num, dy_den.
  rewrite <- (nearest_scale _ _ (2 ^ Z.min a b)) by (apply Z.pow_pos_nonneg; lia). f_equal.
  - transitivity (mant x * (2 ^ Z.max (expo x) 0 * 2 ^ Z.min a b) * 10 ^ f); [ring|].
    rewrite <- Z.pow_add_r by lia. do 3 f_equal. lia.
  - rewrite <- Z.pow_add_r by lia. f_equal. lia.
Qed.

Lemma dy_le_int a b x : a <= b -> dy_le (dy_int b) x = true -> dy_le (dy_int a) x = true.
Proof.
  unfold dy_le, dy_int. cbn [mant expo]. rewrite !Z.leb_le. intros Hab H.
  etransitivity; [|exact H]. apply Z.mul_le_mono_nonneg_r; [|done]. apply Z.pow_nonneg. lia.
Qed.

Lemma ilog_upper x : 0 < mant x -> dy_le (dy_int (10 ^ 21)) x = false -> ilog x < 70.
Proof.
  intros Hm H. destruct (decide (ilog x < 70)); [done|].
  pose proof (dy_le_int (10 ^ 21) (2 ^ 70) x ltac:(vm_compute; discriminate)) as G.
  rewrite dy_le_pow, H, Z.leb_le in G by lia. discriminate G. lia.
Qed.

Lemma ilog_lower x : 0 < mant x -> dy_le x e_minus_21 = false -> -70 <= ilog x.
Proof.
  intros Hm H. destruct (decide (-70 <= ilog x)) as [|Hlog]; [done|]. exfalso.
  unfold ilog in Hlog.
  assert (dy_le x e_minus_21 = true); [|congruence]. clear H.
  assert (e_minus_21 = Dy 5316911983139663 (-122)) as -> by (vm_compute; reflexivity). unfold dy_le. cbn [mant expo].
  apply Z.leb_le. set (k := Z.min (expo x) (-122)).
  pose proof (Z.log2_spec (mant x) Hm) as [_ Hlt].
  assert (0 <= Z.log2 (mant x)) by apply Z.log2_nonneg.
  transitivity (2 ^ Z.succ (Z.log2 (mant x)) * 2 ^ (expo x - k)).
  { apply Z.mul_le_mono_nonneg_r; [apply Z.pow_nonneg; lia|lia]. }
  rewrite <- Z.pow_add_r by lia.
  transitivity (2 ^ 52 * 2 ^ (-122 - k)).
  - rewrite <- Z.pow_add_r by lia. apply Z.pow_le_mono_r; lia.
  - apply Z.mul_le_mono_nonneg_r; [apply Z.pow_nonneg; lia|vm_compute; discriminate].
Qed.

(** ** The digits

    [x] is [z / 2 ^ e] for an integer [z] below 2^53; the first part of the code
    finds them, the second works on the cells. *)

Definition digits_tail (data : list Z) (z e f : Z) : js (string * list Z) :=
  if 0 <? e then
    data ← multiply data 0 z;
    '(data, j) ← by_steps 7 f (fun data => multiply data 10000000 0) data;
    p ← pow 10 j 1;
    data ← multiply data p 0;
    '(data, j) ← by_steps 23 (e - 1) (fun data => divide data (js_shl 1 23)) data;
    data ← divide data (js_shl 1 j);
    data ← multiply data 1 (2 * 1);
    data ← divide data 2;
    m ← numToString data;
    Ret (m, data)
  else
    data ← multiply data 0 z;
    data ← multiply data (js_shl 1 (- e)) 0;
    m ← numToString data;
    Ret (m ++ String.substring 2 (Z.to_nat f) "0.00000000000000000000", data).

Lemma digits_of_tail data x f P : 0 < mant x < 2 ^ 53 -> -70 <= ilog x < 70 ->
  let e := Z.max (ilog x) (-69) in
  wp (digits_tail data (mant x * 2 ^ (expo x + 53 - e)) (52 - e) f) P ->
  wp (digits_of data x f) P.
Proof.
  intros Hm Hlog e Htail. unfold digits_of. rewrite pow_spec by lia. cbn [mbind js_bind].
  assert (0 < 2 ^ 69) as H69 by done.
  assert (ilog (dy_mul x (2 ^ 69)) = ilog x + 69) as Hil.
  { unfold ilog, dy_mul. cbn [mant expo]. rewrite Z.log2_mul_pow2 by lia. lia. }
  apply wp_bind. eapply wp_mono; [apply log_spec; [cbn [dy_mul mant]; lia|lia]|].
  intros l ->. rewrite Hil. replace (Z.max 0 (ilog x + 69) - 69) with e by lia.
  assert (0 <= expo x + 53 - e) as Hpos.
  { assert (Z.log2 (mant x) < 53) by (apply Z.log2_lt_pow2; lia). unfold ilog in *. lia. }
  destruct (Z.ltb_spec e 0).
  - rewrite pow_spec by lia. cbn [mbind js_bind].
    assert (halves (dy_mul (dy_mul x (2 ^ (- e))) (2 ^ 52)) = Ret (mant x * 2 ^ (expo x + 53 - e))) as ->.
    { unfold dy_mul. cbn [mant expo]. rewrite <- Z.mul_assoc, <- Z.pow_add_r by lia.
      rewrite halves_pow by lia. do 3 f_equal. lia. }
    exact Htail.
  - rewrite pow_spec by lia. cbn [mbind js_bind].
    assert (halves (dy_mul (dy_div x (2 ^ e)) (2 ^ 52)) = Ret (mant x * 2 ^ (expo x + 53 - e))) as ->.
    { unfold dy_mul, dy_div. cbn [mant expo]. rewrite Z.log2_pow2, halves_pow by lia.
      do 3 f_equal. lia. }
    exact Htail.
Qed.

Lemma cells_room z f : 0 <= z < 2 ^ 54 -> 0 <= f <= 20 -> 0 <= z * 10 ^ f < base ^ 6 - 2.
Proof.
  intros Hz Hf. assert (0 < 10 ^ f <= 10 ^ 20) as Hp.
  { split; [apply Z.pow_pos_nonneg; lia|apply Z.pow_le_mono_r; lia]. }
  split; [apply Z.mul_nonneg_nonneg; lia|].
  apply Z.le_lt_trans with (2 ^ 54 * 10 ^ 20); [apply Z.mul_le_mono_nonneg; lia|done].
Qed.

(** The cells hold [z] times the powers of 10 so far. *)
Lemma times_ten data z f : 0 <= z < 2 ^ 54 -> 0 <= f <= 20 -> holds z data ->
  wp (by_steps 7 f (fun data => multiply data 10000000 0) data)
     (fun '(data, j) => holds (z * 10 ^ (f - j)) data /\ 0 <= j < 7 /\ j <= f).
Proof.
  intros Hz Hf Hd. eapply wp_mono.
  - apply by_steps_wp with (Inv := fun j data => holds (z * 10 ^ (f - j)) data /\ j <= f); try lia.
    + rewrite Z.sub_diag, Z.pow_0_r, Z.mul_1_r. split; [done|lia].
    + intros j d Hj [Hd' Hjf].
      assert (10000000 * (z * 10 ^ (f - j)) + 0 = z * 10 ^ (f - (j - 7))) as E.
      { replace (f - (j - 7)) with (7 + (f - j)) by lia. rewrite Z.pow_add_r by lia.
        change (10 ^ 7) with 10000000. ring. }
      pose proof (cells_room z (f - (j - 7)) Hz ltac:(lia)).
      eapply wp_mono; [apply mul_wp; [done|lia..]|]. rewrite E. intros d' Hd''. split; [done|lia].
  - intros [d j] [[H1 H2] H3]. done.
Qed.

(** The cells hold [v], divided by the powers of 2 so far. *)
Lemma by_two data v e : 0 <= e -> holds v data ->
  wp (by_steps 23 e (fun data => divide data (js_shl 1 23)) data)
     (fun '(data, j) => 0 <= j < 23 /\ exists w, holds w data /\ w / 2 = v / 2 ^ (e - j + 1) /\ j <= e).
Proof.
  intros He Hd. eapply wp_mono.
  - apply by_steps_wp with (Inv := fun j data => exists w, holds w data /\
      w / 2 = v / 2 ^ (e - j + 1) /\ j <= e); try lia.
    + exists v. rewrite Z.sub_diag. split; [done|]. split; [done|lia].
    + intros j d Hj (w & Hd' & Hw & Hje). rewrite js_shl_one by lia.
      eapply wp_mono; [apply div_wp; [done|done]|]. intros d' [Hd'' _].
      eexists. split; [done|]. split; [|lia]. rewrite Z.mul_comm, Z.div_mul by done.
      rewrite <- Z.div_div by done. rewrite Hw, Z.div_div by (try apply Z.pow_nonzero; lia).
      f_equal. rewrite <- Z.pow_add_r by lia. f_equal. lia.
  - intros [d j] [(w & H1 & H2) H3]. split; [done|]. by exists w.
Qed.

Lemma nearest_halving v e : 0 <= e -> (v / 2 ^ e + 1) / 2 = nearest v (2 ^ (e + 1)).
Proof.
  intros He. assert (0 < 2 ^ e) as Hp by (apply Z.pow_pos_nonneg; lia).
  unfold nearest. rewrite Z.pow_add_r, Z.pow_1_r by lia.
  replace (2 * v + 2 ^ e * 2) with ((v + 1 * 2 ^ e) * 2) by ring.
  replace (2 * (2 ^ e * 2)) with (2 ^ e * 2 * 2) by ring.
  rewrite Z.div_mul_cancel_r by lia. rewrite <- Z.div_div by lia.
  by rewrite Z.div_add by lia.
Qed.

(** Below 2^52: multiplied, divided, and rounded by adding a half. *)
Lemma tail_small data z e f : length data = 6%nat -> 0 <= z < 2 ^ 54 -> 0 <= f <= 20 -> 0 < e ->
  wp (digits_tail data z e f)
     (fun '(m, data) => m = str_of_num (nearest (z * 10 ^ f) (2 ^ (e + 1))) /\ length data = 6%nat).
Proof.
  intros Hl Hz Hf He. unfold digits_tail. rewrite (proj2 (Z.ltb_lt 0 e)) by done.
  pose proof (cells_room z f Hz Hf) as Hroom.
  pose proof (cells_room z 0 Hz ltac:(lia)) as Hroom0. rewrite Z.pow_0_r, Z.mul_1_r in Hroom0.
  apply wp_bind. eapply wp_mono; [apply mul_reset; [done|lia]|]. intros d1 Hd1.
  apply wp_bind. eapply wp_mono; [by apply times_ten|]. intros [d2 j] (Hd2 & Hj & Hjf).
  rewrite pow_spec by lia. cbn [mbind js_bind].
  assert (10 ^ j * (z * 10 ^ (f - j)) + 0 = z * 10 ^ f) as E.
  { replace f with (j + (f - j)) at 2 by lia. rewrite (Z.pow_add_r 10 j) by lia. ring. }
  apply wp_bind. eapply wp_mono; [apply mul_wp; [done|apply Z.pow_nonneg; lia|lia|lia]|].
  rewrite E. intros d3 Hd3.
  apply wp_bind. eapply wp_mono; [apply by_two; [lia|done]|].
  intros [d4 i] (Hi & w & Hd4 & Hw & Hie). rewrite js_shl_one by lia.
  assert (0 < 2 ^ i) as Hp by (apply Z.pow_pos_nonneg; lia).
  apply wp_bind. eapply wp_mono; [by apply div_wp|]. intros d5 [Hd5 _].
  assert (w / (2 * 2 ^ i) = z * 10 ^ f / 2 ^ e) as E5.
  { rewrite <- Z.div_div by lia. rewrite Hw, Z.div_div by (try apply Z.pow_nonzero; lia).
    f_equal. rewrite <- Z.pow_add_r by lia. f_equal. lia. }
  rewrite E5 in Hd5. set (q := z * 10 ^ f / 2 ^ e) in *.
  assert (0 <= q /\ 2 * q <= z * 10 ^ f) as [Hq Hq2].
  { assert (2 ^ 1 <= 2 ^ e) as H2 by (apply Z.pow_le_mono_r; lia). rewrite Z.pow_1_r in H2.
    assert (0 <= q) by (apply Z.div_pos; lia). split; [done|].
    pose proof (Z.mul_div_le (z * 10 ^ f) (2 ^ e) ltac:(lia)) as H3. fold q in H3. nia. }
  apply wp_bind. eapply wp_mono; [apply mul_wp; [done|lia..]|].
  replace (1 * (2 * q) + 2 * 1) with (2 * (q + 1)) by lia. intros d6 Hd6.
  apply wp_bind. eapply wp_mono; [by apply div_wp|]. intros d7 [Hd7 Hev].
  rewrite Z.div_mul_cancel_l in Hd7 by lia.
  apply wp_bind. eapply wp_mono; [by apply numToString_wp|]. intros m ->. apply wp_Ret.
  split; [|apply Hd7]. f_equal. apply nearest_halving. lia.
Qed.

Lemma holds_even v data : holds (2 * v) data -> Forall Z.Even data.
Proof.
  intros (Hl & [_ He] & Hv). destruct data as [|d l]; [done|]. constructor; [|done].
  cbn [value] in Hv. exists (v - 5000000 * value l). unfold base in Hv. lia.
Qed.

Lemma zeros_after f : 0 <= f <= 20 ->
  String.substring 2 (Z.to_nat f) "0.00000000000000000000" = zeros (Z.to_nat f).
Proof.
  intros Hf. pose proof (check_range (fun f =>
    String.eqb (String.substring 2 (Z.to_nat f) "0.00000000000000000000") (zeros (Z.to_nat f)))
    21 f ltac:(vm_compute; done) ltac:(lia)) as H. by apply String.eqb_eq.
Qed.

Lemma str_times_ten v f : 0 < v -> 0 <= f ->
  str_of_num (v * 10 ^ f) = str_of_num v ++ zeros (Z.to_nat f).
Proof.
  intros Hv Hf. destruct (decide (f = 0)) as [->|].
  - rewrite Z.pow_0_r, Z.mul_1_r. simpl. by rewrite str_app_nil.
  - rewrite <- (Z2Nat.id f) at 1 by lia. rewrite <- (Z.add_0_r (v * _)).
    assert (0 < 10 ^ Z.of_nat (Z.to_nat f)) by (apply Z.pow_pos_nonneg; lia).
    rewrite str_split by lia. rewrite padded_fixed by lia. by rewrite fixed_0.
Qed.

(** From 2^52 on the number is whole: its digits, and zeros. *)
Lemma tail_large data z e f : length data = 6%nat -> 0 < z < 2 ^ 53 -> 0 <= f <= 20 -> -18 < e <= 0 ->
  wp (digits_tail data (2 * z) e f)
     (fun '(m, data) => m = str_of_num (z * 2 ^ (- e) * 10 ^ f) /\ length data = 6%nat).
Proof.
  intros Hl Hz Hf He. unfold digits_tail. rewrite (proj2 (Z.ltb_ge 0 e)) by lia.
  assert (0 < 2 ^ (- e) <= 2 ^ 17) as Hp.
  { split; [apply Z.pow_pos_nonneg; lia|apply Z.pow_le_mono_r; lia]. }
  assert (2 ^ 53 * 2 ^ 17 < base ^ 5) as Hbig by (by vm_compute).
  assert (base ^ 5 < base ^ 6) by (by vm_compute).
  assert (z * 2 ^ (- e) <= 2 ^ 53 * 2 ^ 17) by (apply Z.mul_le_mono_nonneg; lia).
  assert (2 * base ^ 5 < base ^ 6) by (by vm_compute).
  apply wp_bind. eapply wp_mono; [apply mul_reset; [done|]; lia|]. intros d1 Hd1.
  rewrite js_shl_one by lia.
  apply wp_bind. eapply wp_mono; [apply mul_wp; [done|lia..]|].
  replace (2 ^ (- e) * (2 * z) + 0) with (2 * (z * 2 ^ (- e))) by ring. intros d2 Hd2.
  apply wp_bind. eapply wp_mono; [apply numToString_wp; [done|by eapply holds_even]|].
  intros m ->. apply wp_Ret. split; [|apply Hd2]. by rewrite zeros_after, str_times_ten by lia.
Qed.

Lemma digits_wp data x f : length data = 6%nat -> 0 < mant x < 2 ^ 53 -> 0 <= f <= 20 ->
  -70 <= ilog x < 70 ->
  wp (digits_of data x f)
     (fun '(m, data) => m = str_of_num (scaled x f) /\ length data = 6%nat).
Proof.
  intros Hl Hm Hf Hlog. apply digits_of_tail; [done..|].
  set (e := Z.max (ilog x) (-69)).
  assert (0 <= Z.log2 (mant x) <= 52) as Hlg.
  { split; [apply Z.log2_nonneg|]. assert (Z.log2 (mant x) < 53); [|lia].
    apply Z.log2_lt_pow2; lia. }
  pose proof (Z.log2_spec (mant x) ltac:(lia)) as [_ Hlt].
  assert (Z.log2 (mant x) + 1 + (expo x + 53 - e) <= 54) as Ha by (unfold ilog in *; lia).
  assert (0 <= expo x + 53 - e) as Ha0 by (unfold ilog in *; lia).
  assert (0 < 2 ^ (expo x + 53 - e)) as Hp by (apply Z.pow_pos_nonneg; lia).
  assert (0 < mant x * 2 ^ (expo x + 53 - e) < 2 ^ 54) as Hz.
  { split; [apply Z.mul_pos_pos; lia|].
    apply Z.lt_le_trans with (2 ^ Z.succ (Z.log2 (mant x)) * 2 ^ (expo x + 53 - e)).
    - by apply Z.mul_lt_mono_pos_r.
    - rewrite <- Z.pow_add_r by lia. apply Z.pow_le_mono_r; lia. }
  destruct (decide (0 < 52 - e)).
  - eapply wp_mono; [apply tail_small; [done|lia|done|done]|].
    intros [m d] [-> Hd]. split; [|done]. f_equal. symmetry. apply scaled_as; lia.
  - assert (e = Z.log2 (mant x) + expo x) as He by (unfold ilog in *; lia).
    replace (mant x * 2 ^ (expo x + 53 - e)) with (2 * (mant x * 2 ^ (expo x + 52 - e)))
      by (replace (expo x + 53 - e) with (1 + (expo x + 52 - e)) by lia;
          rewrite Z.pow_add_r by lia; ring).
    assert (0 < 2 ^ (expo x + 52 - e)) by (apply Z.pow_pos_nonneg; lia).
    eapply wp_mono; [apply tail_large; [done| |done|unfold ilog in *; lia]|].
    + replace (expo x + 53 - e) with (1 + (expo x + 52 - e)) in Hz by lia.
      rewrite Z.pow_add_r in Hz by lia. lia.
    + intros [m d] [-> Hd]. split; [|done]. f_equal.
      rewrite (scaled_as x f (expo x) 0) by lia.
      rewrite <- (Z.mul_assoc (mant x)), <- Z.pow_add_r by lia.
      replace (expo x + 52 - e + - (52 - e)) with (expo x) by lia.
      unfold nearest. rewrite Z.pow_0_r. divlia.
Qed.

(** The numbers that are taken for 0 round to it. *)
Lemma scaled_tiny x f : 0 <= mant x -> 0 <= f <= 20 -> dy_le x e_minus_21 = true -> scaled x f = 0.
Proof.
  intros Hm Hf H.
  assert (e_minus_21 = Dy 5316911983139663 (-122)) as E by (vm_compute; reflexivity).
  rewrite E in H. unfold dy_le in H. cbn [mant expo] in H. apply Z.leb_le in H.
  set (k := Z.min (expo x) (-122)) in *.
  rewrite (scaled_as x f (expo x - k) (- k)) by lia.
  assert (0 < 10 ^ f <= 10 ^ 20) as Hp.
  { split; [apply Z.pow_pos_nonneg; lia|apply Z.pow_le_mono_r; lia]. }
  assert (0 < 2 ^ (-122 - k)) as H2 by (apply Z.pow_pos_nonneg; lia).
  assert (2 ^ (- k) = 2 ^ 122 * 2 ^ (-122 - k)) as Hk.
  { rewrite <- Z.pow_add_r by lia. f_equal. lia. }
  assert (0 <= 2 ^ (expo x - k)) by (apply Z.pow_nonneg; lia).
  assert (mant x * 2 ^ (expo x - k) * 10 ^ f <= 5316911983139663 * 2 ^ (-122 - k) * 10 ^ 20) as Hle.
  { apply Z.mul_le_mono_nonneg; lia. }
  assert (0 <= mant x * 2 ^ (expo x - k) * 10 ^ f) as Hge
    by (repeat apply Z.mul_nonneg_nonneg; lia).
  assert (2 * (5316911983139663 * 10 ^ 20) < 2 ^ 122) as Hc by (by vm_compute).
  unfold nearest. apply Z.div_small. rewrite Hk. nia.
Qed.

(** ** The text *)

(** [n / 10 ^ f] in decimals, [f] of them. *)
Definition decimal (n f : Z) : string :=
  if 0 <? f then str_of_num (n / 10 ^ f) ++ "." ++ padded (Z.to_nat f) (n mod 10 ^ f)
  else str_of_num n.

Lemma zeros_before j : 0 <= j <= 19 ->
  String.substring 0 (Z.to_nat (j + 2)) "0.0000000000000000000" = "0." ++ zeros (Z.to_nat j).
Proof.
  intros Hj. pose proof (check_range (fun j =>
    String.eqb (String.substring 0 (Z.to_nat (j + 2)) "0.0000000000000000000")
      ("0." ++ zeros (Z.to_nat j))) 20 j ltac:(vm_compute; done) ltac:(lia)) as H.
  by apply String.eqb_eq.
Qed.

Lemma point_decimal s n f : 0 <= n -> 0 <= f <= 20 ->
  point s (str_of_num n) f = s ++ decimal n f.
Proof.
  intros Hn Hf. unfold point, decimal. destruct (Z.ltb_spec 0 f) as [Hpos|]; [|done].
  assert (10 ^ f = 10 ^ Z.of_nat (Z.to_nat f)) as Ep by (by rewrite Z2Nat.id by lia).
  assert (0 < 10 ^ f) as H10 by (apply Z.pow_pos_nonneg; lia).
  pose proof (Z.div_mod n (10 ^ f) ltac:(lia)) as Hdm.
  pose proof (Z.mod_pos_bound n (10 ^ f) H10) as Hmod.
  destruct (decide (n < 10 ^ f)) as [Hlt|Hge].
  - rewrite Z.div_small, Z.mod_small by lia.
    pose proof (length_str_of_num (Z.to_nat f) n ltac:(rewrite <- Ep; lia) ltac:(lia)) as Hlen.
    destruct (Z.leb_spec (Z.of_nat (String.length (str_of_num n))) f); [|lia]. f_equal.
    rewrite zeros_before by lia. unfold padded. change (str_of_num 0) with "0".
    replace (Z.to_nat (f - Z.of_nat (String.length (str_of_num n))))
      with (Z.to_nat f - String.length (str_of_num n))%nat by lia.
    by rewrite str_app_assoc.
  - assert (0 < n / 10 ^ f) as Hq by (apply Z.div_str_pos; lia).
    assert (str_of_num n = str_of_num (n / 10 ^ f) ++ padded (Z.to_nat f) (n mod 10 ^ f)) as E.
    { rewrite <- str_split by (rewrite <- ?Ep; lia). f_equal. rewrite <- Ep. lia. }
    pose proof (length_padded (Z.to_nat f) (n mod 10 ^ f) ltac:(lia) ltac:(rewrite <- Ep; lia)) as Hl.
    pose proof (str_of_num_nonempty (n / 10 ^ f) ltac:(lia)) as Hne.
    assert (1 <= String.length (str_of_num (n / 10 ^ f)))%nat as H1
      by (destruct (str_of_num (n / 10 ^ f)); [done|simpl; lia]).
    rewrite E, str_length_app, Hl.
    destruct (Z.leb_spec (Z.of_nat (String.length (str_of_num (n / 10 ^ f)) + Z.to_nat f)) f); [lia|].
    replace (Z.to_nat (Z.of_nat (String.length (str_of_num (n / 10 ^ f)) + Z.to_nat f) - f))
      with (String.length (str_of_num (n / 10 ^ f))) by lia.
    rewrite substring_app, substring_drop by lia. done.
Qed.

(** ** The properties *)

Definition fixed_sign (neg : bool) (x : dyadic) : string :=
  if neg && negb (mant x =? 0) then "-" else "".

(** C28: [toFixed] of a double below 10^21 with 0 to 20 digits returns, whatever
    earlier calls left in the shared cells: the decimal text, with that many
    digits, of the multiple of [10 ^ -f] nearest to the exact value of the
    double, the greater of two, after the sign. *)
Theorem toFixed_nearest num_to_string data neg x q :
  let f := Qfloor q in
  length data = 6%nat -> 0 <= mant x < 2 ^ 53 -> 0 <= f <= 20 ->
  dy_le (dy_int (10 ^ 21)) x = false ->
  exists data', length data' = 6%nat /\
    toFixedShim num_to_string data (DFin neg x) (Num q)
    = Ret (fixed_sign neg x ++ decimal (scaled x f) f, data') /\
    forall i, Z.abs (scaled x f * dy_den x - dy_num x * 10 ^ f)
              <= Z.abs (i * dy_den x - dy_num x * 10 ^ f).
Proof.
  intros f Hl Hm Hf Hbig.
  assert (0 < dy_den x) as Hden by (apply Z.pow_pos_nonneg; lia).
  assert (0 <= scaled x f) as Hs.
  { unfold scaled, nearest. apply Z.div_pos; [|lia].
    assert (0 <= dy_num x * 10 ^ f); [|lia].
    unfold dy_num. repeat apply Z.mul_nonneg_nonneg; try apply Z.pow_nonneg; lia. }
  assert (forall i, Z.abs (scaled x f * dy_den x - dy_num x * 10 ^ f)
              <= Z.abs (i * dy_den x - dy_num x * 10 ^ f)) as Hnear.
  { intros i. by apply nearest_closest. }
  unfold toFixedShim. fold f. cbv beta iota zeta.
  rewrite (proj2 (Z.ltb_ge f 0)), (proj2 (Z.ltb_ge 20 f)) by lia. cbn [orb]. rewrite Hbig.
  fold (fixed_sign neg x).
  destruct (dy_le x e_minus_21) eqn:Et; cbn [negb mbind js_bind].
  - exists data. split; [done|]. split; [|done]. rewrite <- (point_decimal _ _ f) by done.
    by rewrite (scaled_tiny x f) by (try done; lia).
  - assert (0 < mant x) as Hpos.
    { destruct (decide (mant x = 0)) as [E|]; [|lia]. unfold dy_le in Et. rewrite E in Et.
      apply Z.leb_gt in Et. rewrite Z.mul_0_l in Et. exfalso. apply Z.lt_nge in Et. apply Et.
      apply Z.mul_nonneg_nonneg; [by vm_compute|]. apply Z.pow_nonneg. lia. }
    pose proof (ilog_upper x Hpos Hbig). pose proof (ilog_lower x Hpos Et).
    destruct (wp_elim _ _ (digits_wp data x f Hl ltac:(lia) Hf ltac:(lia))) as ([m d] & -> & -> & Hd).
    exists d. split; [done|]. split; [|done]. cbn [mbind js_bind]. by rewrite point_decimal.
Qed.

(** The double nearest to 1.005 is below it, and rounds to 1.00. *)
Lemma toFixed_nearest_witness :
  exists data', length data' = 6%nat /\
    toFixedShim (fun _ => "") [9; 8; 7; 6; 5; 4] (DFin true (dbl 1005 1000)) (Num (5 # 2))
    = Ret ("-1.00", data').
Proof.
  destruct (toFixed_nearest (fun _ => "") [9; 8; 7; 6; 5; 4] true (dbl 1005 1000) (5 # 2))
    as (data' & Hl & E & _); [done|vm_compute; split; [discriminate|done]|done|vm_compute; done|].
  exists data'. split; [exact Hl|]. rewrite E. vm_compute. done.
Defined.

(** The other cases: too many digits or a negative number of them, [NaN], and
    numbers from 10^21 on, which are written as [String] writes them. *)
Theorem toFixed_other num_to_string data this fd :
  match fd with NaN => True | Num q => 0 <= Qfloor q <= 20 | _ => False end ->
  toFixedShim num_to_string data DNaN fd = Ret ("NaN", data) /\
  (forall neg, toFixedShim num_to_string data (DInf neg) fd = Ret (num_to_string (DInf neg), data)) /\
  (forall neg x, dy_le (dy_int (10 ^ 21)) x = true ->
     toFixedShim num_to_string data (DFin neg x) fd = Ret (num_to_string (DFin neg x), data)) /\
  (forall q, ~ (0 <= Qfloor q <= 20) -> toFixedShim num_to_string data this (Num q)
     = Throw "Number.toFixed called with invalid number of decimals").
Proof.
  intros Hfd. unfold toFixedShim. split_and!.
  - destruct fd as [| | |q]; try done.
    by rewrite (proj2 (Z.ltb_ge _ 0)), (proj2 (Z.ltb_ge 20 _)) by lia.
  - intros neg. destruct fd as [| | |q]; try done.
    by rewrite (proj2 (Z.ltb_ge _ 0)), (proj2 (Z.ltb_ge 20 _)) by lia.
  - intros neg x Hx. destruct fd as [| | |q]; try done; [by rewrite Hx|].
    rewrite (proj2 (Z.ltb_ge _ 0)), (proj2 (Z.ltb_ge 20 _)) by lia. cbn [orb]. by rewrite Hx.
  - intros q Hq. destruct (Z.ltb_spec (Qfloor q) 0), (Z.ltb_spec 20 (Qfloor q)); try done. lia.
Qed.
