(* ===== verification/ShimString.v ===== *)
(** * Strings of [es5-shim.js] (lines 1566-1638, 1692-1774)

    [split] at the matches of a regular expression, [substr], [trim] and
    [lastIndexOf], with their theorems.  A string is the list of its UTF-16 code
    units.  The engine that runs the regular expression is a parameter, with what
    ECMAScript says of the matches it finds. *)

From Stdlib Require Import Ascii String.
From Stdlib Require Import QArith Qround.
From S2P Require Import Prelude.
From S2P Require Import ShimArray.
From S2P Require Import ShimArrayProps.

#[local] Open Scope string_scope.
#[local] Open Scope list_scope.
#[local] Open Scope Z_scope.

#[local] Abbreviation length := (@List.length _).

Definition ustring := list Z.
Definition len {A} (s : list A) : Z := Z.of_nat (length s).

(** [strSlice(s, lo, hi)] for indices that are not negative. *)
Definition cut {A} (s : list A) (lo hi : Z) : list A :=
  take (Z.to_nat (hi - lo)) (drop (Z.to_nat lo) s).

Fixpoint has_prefix (p s : ustring) : bool :=
  match p, s with
  | [], _ => true
  | a :: p, b :: s => (a =? b) && has_prefix p s
  | _ :: _, [] => false
  end.

(** Native [indexOf]. *)
Fixpoint strIndexOf (s p : ustring) : Z :=
  if has_prefix p s then 0
  else match s with
       | [] => -1
       | _ :: s => let i := strIndexOf s p in if i =? -1 then -1 else i + 1
       end.

(** ** [substr] *)

(** Native [substr] with a start that is not negative, for which the
    polyfill calls it. *)
Definition string_substr (s : ustring) (start length : Z) : ustring := cut s start (start + length).

Definition substr (s : ustring) (start length : Z) : ustring :=
  let normalizedStart := if start <? 0 then Z.max (len s + start) 0 else start in
  string_substr s normalizedStart length.

(** ** [trim] *)

Definition ws : list Z :=
  [0x09; 0x0A; 0x0B; 0x0C; 0x0D; 0x20; 0xA0; 0x1680; 0x180E; 0x2000; 0x2001; 0x2002; 0x2003;
   0x2004; 0x2005; 0x2006; 0x2007; 0x2008; 0x2009; 0x200A; 0x202F; 0x205F; 0x3000; 0x2028;
   0x2029; 0xFEFF].

Definition is_ws (c : Z) : bool := existsb (Z.eqb c) ws.

(** [replace(trimBeginRegexp, '')]: the white space at the start goes. *)
Fixpoint trimBegin (s : ustring) : ustring :=
  match s with c :: s' => if is_ws c then trimBegin s' else s | [] => [] end.

(** [replace(trimEndRegexp, '')]: what is cut is the leftmost match of white space
    up to the end. *)
Fixpoint trimEnd (s : ustring) : ustring :=
  match s with
  | [] => []
  | c :: s' => if forallb is_ws s then [] else c :: trimEnd s'
  end.

Inductive this_value := Undefined | Null | Str (s : ustring).

Definition trim (this : this_value) : js ustring :=
  match this with
  | Undefined => Throw "can't convert undefined to object"
  | Null => Throw "can't convert null to object"
  | Str s => Ret (trimEnd (trimBegin s))
  end.

(** ** [lastIndexOf] *)

(** [numPos] is [NaN] when there is no second argument. *)
Definition str_lastIndexOf (this : this_value) (searchStr : ustring) (numPos : jsnumber) : js Z :=
  match this with
  | Undefined => Throw "can't convert undefined to object"
  | Null => Throw "can't convert null to object"
  | Str s =>
      let pos := match numPos with NaN => PosInf | _ => ToInteger numPos end in
      start ← finite (int_min (int_max pos 0) (len s));
      let searchLen := len searchStr in
      loop (Datatypes.S (Z.to_nat (start + searchLen))) (fun k =>
        if 0 <? k then
          let k := Z.max 0 (k - searchLen) in
          let index := strIndexOf (cut s k (start + searchLen)) searchStr in
          if negb (index =? -1) then Ret (inr (k + index)) else Ret (inl k)
        else Ret (inr (-1))) (start + searchLen)
  end.

(** ** [split] at a regular expression *)

(** A match: its index, [match[0]], and the groups ([None] is [undefined]). *)
Record rmatch := Rmatch { m_index : Z; m_text : ustring; m_groups : list (option ustring) }.

(** What [split] returns: an array of pieces and groups, or, where the source
    calls the [slice] of strings on that array, a string. *)
Inductive split_result := Pieces (output : list (option ustring)) | Text (s : ustring).

(** The string an array is turned into: its entries, [undefined] as nothing,
    with commas between them. *)
Fixpoint join_commas (l : list (option ustring)) : ustring :=
  match l with
  | [] => []
  | [x] => default [] x
  | x :: l => default [] x ++ 44 :: join_commas l
  end.

(** [separator]: [undefined], a regular expression, or something else. *)
Inductive separator_kind := SepUndefined | SepRegex | SepOther.

Section split.
(** Native [strSplit(this, separator, limit)]; [separatorCopy.exec(string)] when
    [lastIndex] is [from]; whether the expression matches the empty string;
    whether the engine leaves groups that did not take part undefined; and, for
    engines that do not, the groups with which native [replace] calls back, if
    [separator2] matches. *)
Context (strSplit : js split_result).
Context (exec : Z -> option rmatch) (test_empty compliantExecNpcg : bool).
Context (replaced : rmatch -> option (list (option ustring))).

(** The groups of a match after the repair (lines 1606-1616): undefined where
    native [replace] says so. *)
Definition groups_of (m : rmatch) : list (option ustring) :=
  if negb compliantExecNpcg && (0 <? len (m_groups m)) then
    match replaced m with
    | Some args => imap (fun i g => if args !! i is Some None then None else g) (m_groups m)
    | None => m_groups m
    end
  else m_groups m.

(** The variables of the loop. *)
Record splitting := Splitting {
  rx_lastIndex : Z; output : list (option ustring); lastLastIndex : Z; lastLength : Z }.

(** [lastLength] is 0 while it is undefined: it is only tested.  When nothing is
    found, [exec] sets its [lastIndex] to 0. *)
Definition split_step (string : ustring) (splitLimit : Z) (s : splitting)
    : js (splitting + splitting) :=
  match exec (rx_lastIndex s) with
  | None => Ret (inr (Splitting 0 (output s) (lastLastIndex s) (lastLength s)))
  | Some m =>
      let lastIndex := m_index m + len (m_text m) in
      let next := if lastIndex =? m_index m then lastIndex + 1 else lastIndex in
      if lastLastIndex s <? lastIndex then
        let output := output s ++ [Some (cut string (lastLastIndex s) (m_index m))] in
        let groups := groups_of m in
        let output := if (0 <? len groups) && (m_index m <? len string) then output ++ groups
                      else output in
        let s' := fun rx => Splitting rx output lastIndex (len (m_text m)) in
        if splitLimit <=? len output then Ret (inr (s' lastIndex)) else Ret (inl (s' next))
      else Ret (inl (Splitting next (output s) (lastLastIndex s) (lastLength s)))
  end.

(** [separatorCopy.test('')] looks from [lastIndex] on, too. *)
Definition split (separator : separator_kind) (string : ustring) (limit : option Z) : js split_result :=
  match separator with
  | SepUndefined => if bool_decide (limit = Some 0) then Ret (Pieces []) else strSplit
  | SepOther => strSplit
  | SepRegex =>
      let splitLimit := match limit with None => 2 ^ 32 - 1 | Some l => to_uint32 l end in
      s ← loop (Datatypes.S (Datatypes.S (length string))) (split_step string splitLimit)
            (Splitting 0 [] 0 0);
      let output := output s in
      let output :=
        if lastLastIndex s =? len string then
          if negb (lastLength s =? 0) || negb ((rx_lastIndex s =? 0) && test_empty)
          then output ++ [Some []] else output
        else output ++ [Some (cut string (lastLastIndex s) (len string))] in
      Ret (if splitLimit <? len output then Text (cut (join_commas output) 0 splitLimit)
           else Pieces output)
  end.
End split.

Definition ex_ustring (s : string) : ustring := 
  (fun a => Z.of_nat (Ascii.nat_of_ascii a)) <$> String.list_ascii_of_string s.

Example lastIndexOf_ex : str_lastIndexOf (Str (ex_ustring "abcabc")) (ex_ustring "bc") NaN = Ret 4.
Proof. vm_compute. reflexivity. Qed.

(** Of occurrences that overlap, not the last one is found. *)
Example lastIndexOf_overlap :
  str_lastIndexOf (Str (ex_ustring "xababay")) (ex_ustring "aba") NaN = Ret 1.
Proof. vm_compute. reflexivity. Qed.

(** The empty string is not found at the start. *)
Example lastIndexOf_empty : str_lastIndexOf (Str (ex_ustring "abc")) [] (Num 0) = Ret (-1).
Proof. vm_compute. reflexivity. Qed.

(** ** Searching from the end *)

(** [p] is in [s] at [i]. *)
Definition occurs (s p : ustring) (i : Z) : Prop := 0 <= i /\ has_prefix p (drop (Z.to_nat i) s) = true.

Lemma has_prefix_nil s : has_prefix [] s = true.
Proof. by destruct s. Qed.

Lemma strIndexOf_spec s p :
  (strIndexOf s p = -1 /\ forall i, ~ occurs s p i) \/
  (0 <= strIndexOf s p /\ occurs s p (strIndexOf s p) /\
   forall i, occurs s p i -> strIndexOf s p <= i).
Proof.
  induction s as [|c s IH].
  - simpl. destruct (has_prefix p []) eqn:E.
    + right. split_and!; [lia|by split|]. intros i [Hi _]. done.
    + left. split; [done|]. intros i [_ Hi]. rewrite drop_nil in Hi. congruence.
  - cbn [strIndexOf]. destruct (has_prefix p (c :: s)) eqn:E.
    + right. split_and!; [lia|by split|]. intros i [Hi _]. done.
    + assert (forall i, occurs (c :: s) p i -> occurs s p (i - 1)) as Hocc.
      { intros i [Hi Hs]. destruct (decide (i = 0)) as [->|]; [simpl in Hs; congruence|].
        split; [lia|]. replace (Z.to_nat i) with (S (Z.to_nat (i - 1))) in Hs by lia. done. }
      destruct IH as [[-> IH]|(Hge & [_ Hat] & Hmin)].
      * left. split; [done|]. intros i Hi. by eapply IH, Hocc.
      * destruct (Z.eqb_spec (strIndexOf s p) (-1)); [lia|]. right. split_and!; [lia| |].
        -- split; [lia|]. by replace (Z.to_nat (strIndexOf s p + 1)) with (S (Z.to_nat (strIndexOf s p))) by lia.
        -- intros i Hi. apply Hocc, Hmin in Hi. lia.
Qed.

Lemma has_prefix_take p s n : (length p <= n)%nat -> has_prefix p (take n s) = has_prefix p s.
Proof.
  revert s n. induction p as [|a p IH]; intros s n Hn; [by rewrite !has_prefix_nil|].
  destruct n as [|n]; [simpl in Hn; lia|]. destruct s as [|b s]; [done|]. simpl.
  f_equal. apply IH. simpl in Hn. lia.
Qed.

Lemma has_prefix_short p s : (length s < length p)%nat -> has_prefix p s = false.
Proof.
  revert s. induction p as [|a p IH]; intros [|b s] Hl; simpl in *; try (done || lia).
  rewrite IH by lia. by rewrite andb_false_r.
Qed.

(** Occurrences in a slice are those of the string that fit in it. *)
Lemma occurs_cut s p lo hi i : 0 <= lo ->
  occurs (cut s lo hi) p i <-> 0 <= i /\ occurs s p (lo + i) /\ (lo + i + len p <= Z.max hi lo \/ p = []).
Proof.
  intros Hlo. unfold occurs, cut, len.
  destruct p as [|a p]; [rewrite !has_prefix_nil; intuition lia|].
  destruct (decide (0 <= i)) as [Hi|]; [|lia].
  rewrite skipn_firstn_comm, drop_drop.
  replace (Z.to_nat lo + Z.to_nat i)%nat with (Z.to_nat (lo + i)) by lia.
  destruct (decide (Z.of_nat (length (a :: p)) <= Z.of_nat (Z.to_nat (hi - lo) - Z.to_nat i))) as [Hf|Hf].
  - rewrite has_prefix_take by lia. split; [|tauto]. intros [_ H].
    split_and!; try lia; [done|]. simpl in Hf |- *. lia.
  - rewrite has_prefix_short; [|rewrite length_take; simpl in *; lia].
    split; [by intros []|]. simpl in *. intros (_ & _ & [H|H]); [lia|done].
Qed.

(** The last index [lastIndexOf] may return. *)
Definition last_start (s : ustring) (numPos : jsnumber) : Z :=
  match numPos with
  | NaN => len s
  | _ => match ToInteger numPos with
         | PosInf => len s
         | NegInf => 0
         | Int z => Z.min (Z.max z 0) (len s)
         end
  end.

Lemma finite_last_start s numPos :
  finite (int_min (int_max (match numPos with NaN => PosInf | _ => ToInteger numPos end) 0) (len s))
  = Ret (last_start s numPos) /\ 0 <= last_start s numPos <= len s.
Proof.
  unfold last_start, len. destruct numPos; cbn -[ToInteger Z.min Z.max];
    try destruct (ToInteger _); cbn -[Z.min Z.max]; split; try lia; f_equal; lia.
Qed.

(** What [lastIndexOf] returns: an occurrence that no later one follows but for
    those that overlap it, or -1 if there is none. *)
Definition last_found (s p : ustring) (start r : Z) : Prop :=
  (r = -1 /\ forall i, occurs s p i -> start < i) \/
  (occurs s p r /\ r <= start /\ forall i, occurs s p i -> i <= start -> i < r + len p).

Lemma lastIndexOf_wp s p numPos : p <> [] ->
  wp (str_lastIndexOf (Str s) p numPos) (last_found s p (last_start s numPos)).
Proof.
  intros Hp. unfold str_lastIndexOf.
  destruct (finite_last_start s numPos) as [-> Hst]. cbn [mbind js_bind].
  set (start := last_start s numPos) in *.
  assert (0 < len p) as HL by (unfold len; destruct p; [done|simpl; lia]).
  apply wp_loop with (Inv := fun k => 0 <= k <= start + len p /\
      forall i, occurs s p i -> i <= start -> i < k) (meas := fun k => k); [|lia|].
  - split; [lia|]. intros; lia.
  - intros k [Hk Hno]. destruct (Z.ltb_spec 0 k).
    + set (k' := Z.max 0 (k - len p)).
      pose proof (occurs_cut s p k' (start + len p)) as Hcut.
      destruct (strIndexOf_spec (cut s k' (start + len p)) p) as [[-> Hnone]|(Hge & Hat & Hmin)].
      * simpl. split; [|lia]. split; [lia|]. intros i Hi Hle.
        destruct (decide (i < k')); [done|]. exfalso. apply (Hnone (i - k')).
        apply Hcut; [lia|]. replace (k' + (i - k')) with i by lia.
        split_and!; [lia|done|left; lia].
      * destruct (Z.eqb_spec (strIndexOf (cut s k' (start + len p)) p) (-1)); [lia|]. simpl.
        apply Hcut in Hat as (_ & Hat & [Hfit|?]); [|done|lia]. right.
        split; [done|]. split; [lia|]. intros i Hi Hle. specialize (Hno i Hi Hle). lia.
    + simpl. left. split; [done|]. intros i Hi. destruct (decide (i <= start)); [|lia].
      specialize (Hno i Hi ltac:(done)). destruct Hi. lia.
Qed.

(** [lastIndexOf] of strings, on a text that is not empty: it returns -1 only
    if there is no occurrence at the start asked for or before it; otherwise it
    returns one, and every later one overlaps it (so the last one is returned
    when occurrences do not overlap). *)
Theorem str_lastIndexOf_found s p numPos : p <> [] ->
  exists r, str_lastIndexOf (Str s) p numPos = Ret r /\ last_found s p (last_start s numPos) r.
Proof. intros Hp. by apply wp_elim, lastIndexOf_wp. Qed.

Lemma str_lastIndexOf_found_witness :
  exists r, str_lastIndexOf (Str (ex_ustring "xababay")) (ex_ustring "aba") (Num (9 # 2)) = Ret r /\
    last_found (ex_ustring "xababay") (ex_ustring "aba") 4 r.
Proof. apply (str_lastIndexOf_found (ex_ustring "xababay") (ex_ustring "aba") (Num (9 # 2))). done. Defined.

(** ** [trim] takes the white space at both ends, and nothing else *)

Lemma trimBegin_spec s : exists l, s = l ++ trimBegin s /\ forallb is_ws l = true /\
  match trimBegin s with c :: _ => is_ws c = false | [] => True end.
Proof.
  induction s as [|c s (l & Hs & Hl & Hc)]; [by exists []|]. cbn [trimBegin].
  destruct (is_ws c) eqn:E; [|by exists []].
  exists (c :: l). split; [by rewrite Hs at 1|]. split; [simpl; by rewrite E|done].
Qed.

Lemma trimEnd_spec s : exists r, s = trimEnd s ++ r /\ forallb is_ws r = true /\
  (trimEnd s = [] \/ exists t c, trimEnd s = t ++ [c] /\ is_ws c = false).
Proof.
  induction s as [|c s (r & Hs & Hr & Hend)]; [exists []; auto|]. cbn [trimEnd].
  destruct (forallb is_ws (c :: s)) eqn:E; [exists (c :: s); auto|].
  exists r. split; [by rewrite Hs at 1|]. split; [done|]. right.
  destruct Hend as [Hnil|(t & d & Ht & Hd)].
  - exists [], c. rewrite Hnil in *. simpl in Hs. subst r. simpl in E.
    rewrite Hr, andb_true_r in E. done.
  - exists (c :: t), d. by rewrite Ht.
Qed.

Theorem trim_spec s : exists l t r, trim (Str s) = Ret t /\ s = l ++ t ++ r /\
  forallb is_ws l = true /\ forallb is_ws r = true /\
  match t with c :: _ => is_ws c = false | [] => True end /\
  (t = [] \/ exists t' c, t = t' ++ [c] /\ is_ws c = false).
Proof.
  destruct (trimBegin_spec s) as (l & Hs & Hl & Hb).
  destruct (trimEnd_spec (trimBegin s)) as (r & Ht & Hr & He).
  exists l, (trimEnd (trimBegin s)), r. split_and!; try done; [by rewrite <- Ht|].
  destruct He as [->|(t' & c & E & Hc)]; [done|]. rewrite E in Ht.
  destruct (trimBegin s) as [|d u]; [by destruct t'|]. rewrite E.
  destruct t'; simpl in *; by simplify_eq.
Qed.

(** ** [split] *)

(** What the engine promises of the matches it finds: they are in the string,
    not before the index asked for, and there is none past the end. *)
Class RegexLaws (string : ustring) (exec : Z -> option rmatch) : Prop := {
  exec_range : forall from m, exec from = Some m ->
    from <= m_index m /\ m_index m + len (m_text m) <= len string;
  exec_text : forall from m, exec from = Some m ->
    m_text m = cut string (m_index m) (m_index m + len (m_text m));
  exec_past : forall from, len string < from -> exec from = None;
}.

Lemma cut_cut {A} (s : list A) a b c : 0 <= a <= b -> b <= c ->
  cut s a b ++ cut s b c = cut s a c.
Proof.
  intros Hab Hbc. unfold cut. replace (Z.to_nat b) with (Z.to_nat a + Z.to_nat (b - a))%nat by lia.
  rewrite <- drop_drop. replace (Z.to_nat (c - a)) with (Z.to_nat (b - a) + Z.to_nat (c - b))%nat by lia.
  by rewrite take_take_drop.
Qed.

Lemma cut_all {A} (s : list A) : cut s 0 (len s) = s.
Proof. unfold cut, len. rewrite drop_0, firstn_all2; [done|lia]. Qed.

Lemma cut_prefix {A} (s t : list A) n : n <= len s -> cut (s ++ t) 0 n = cut s 0 n.
Proof. unfold cut, len. intros Hn. rewrite !drop_0, take_app_le by lia. done. Qed.

Lemma len_app {A} (s t : list A) : len (s ++ t) = len s + len t.
Proof. unfold len. rewrite length_app. lia. Qed.

Lemma len_nonneg {A} (s : list A) : 0 <= len s.
Proof. unfold len. lia. Qed.

(** Entries that follow put a comma after the ones before. *)
Lemma join_app l l' : l <> [] -> l' <> [] -> join_commas (l ++ l') = join_commas l ++ 44 :: join_commas l'.
Proof.
  intros Hl Hl'. induction l as [|x [|y l] IH]; [done| |].
  - destruct l' as [|y l']; done.
  - change ((x :: y :: l) ++ l') with (x :: ((y :: l) ++ l')).
    change (join_commas (x :: (y :: l) ++ l')) with (default [] x ++ 44 :: join_commas ((y :: l) ++ l')).
    rewrite IH by done. change (join_commas (x :: y :: l)) with (default [] x ++ 44 :: join_commas (y :: l)).
    by rewrite <- app_assoc.
Qed.

Lemma join_length l : len l <= len (join_commas l) + 1.
Proof.
  induction l as [|x [|y l] IH]; [done|unfold len; simpl; lia|].
  change (join_commas (x :: y :: l)) with (default [] x ++ 44 :: join_commas (y :: l)).
  rewrite len_app. unfold len in *. simpl in *. lia.
Qed.

(** The first characters are those of the first entries. *)
Lemma join_cut (l l' : list (option ustring)) n : 0 <= n <= len l -> l' <> [] ->
  cut (join_commas (l ++ l')) 0 n = cut (join_commas (cut l 0 n) ++ [44]) 0 n.
Proof.
  intros Hn Hl'. destruct (decide (n = 0)) as [->|Hn0]; [done|].
  assert (l = cut l 0 n ++ drop (Z.to_nat n) l) as El by (unfold cut; rewrite drop_0, Z.sub_0_r; by rewrite take_drop).
  assert (len (cut l 0 n) = n) as Hc by (unfold cut, len in *; rewrite length_take, drop_0; lia).
  rewrite El at 1. rewrite <- app_assoc, join_app.
  - rewrite (app_assoc _ [44] _ : _ ++ 44 :: _ = _). apply cut_prefix. rewrite len_app.
    pose proof (join_length (cut l 0 n)). unfold len in *. simpl in *. lia.
  - intros E. rewrite E in Hc. unfold len in Hc. simpl in Hc. lia.
  - by intros [_ ?]%app_eq_nil.
Qed.

Section splitting.
Context (string : ustring) (exec : Z -> option rmatch) `{HL : !RegexLaws string exec}.
Context (strSplit : js split_result) (test_empty compliant : bool).
Context (replaced : rmatch -> option (list (option ustring))).

Definition m_end (m : rmatch) : Z := m_index m + len (m_text m).
Definition m_next (m : rmatch) : Z := if m_end m =? m_index m then m_end m + 1 else m_end m.

(** The matches that split the string, from index [rx] on, when the last one ended
    at [from]: those the engine finds in turn, less those that do not end later. *)
Inductive scan : Z -> Z -> list rmatch -> Prop :=
| scan_none rx from : exec rx = None -> scan rx from []
| scan_skip rx from m ms : exec rx = Some m -> m_end m <= from -> scan (m_next m) from ms -> scan rx from ms
| scan_match rx from m ms : exec rx = Some m -> from < m_end m -> scan (m_next m) (m_end m) ms ->
    scan rx from (m :: ms).

(** The text before each match, with its groups, if the match is not at the end. *)
Fixpoint chunks (from : Z) (ms : list rmatch) : list (option ustring) :=
  match ms with
  | [] => []
  | m :: ms =>
      Some (cut string from (m_index m)) ::
      (if m_index m <? len string then groups_of compliant replaced m else []) ++ chunks (m_end m) ms
  end.

(** The end and the length of the last match. *)
Definition last_end (ms : list rmatch) : Z := default 0 (m_end <$> last ms).
Definition last_length (ms : list rmatch) : Z := default 0 ((fun m => len (m_text m)) <$> last ms).

(** The text after the last match: left out if it is empty, and the last match was
    empty, too. *)
Definition rest (ms : list rmatch) : list (option ustring) :=
  if last_end ms =? len string then
    if negb (last_length ms =? 0) || negb test_empty then [Some []] else []
  else [Some (cut string (last_end ms) (len string))].

(** All of them; or, if there are as many chunks as the limit says, the first
    characters of their list as a string. *)
Definition split_reference (ms : list rmatch) (limit : Z) : split_result :=
  let all := chunks 0 ms ++ rest ms in
  if (limit <=? len (chunks 0 ms)) && (0 <? len all)
  then Text (cut (join_commas (cut all 0 limit) ++ [44]) 0 limit) else Pieces all.

Lemma chunks_app from ms ms' :
  chunks from (ms ++ ms') = chunks from ms ++ chunks (default from (m_end <$> last ms)) ms'.
Proof.
  revert from. induction ms as [|m ms IH]; intros from; [done|]. simpl. rewrite IH, app_assoc, last_cons.
  by destruct (last ms).
Qed.

Lemma next_after rx m : exec rx = Some m -> rx < m_next m <= len string + 1.
Proof.
  intros Em. destruct (exec_range _ _ Em). unfold m_next, m_end in *. pose proof (len_nonneg (m_text m)).
  destruct (Z.eqb_spec (m_index m + len (m_text m)) (m_index m)); lia.
Qed.

Lemma scan_total n rx from : len string + 1 - rx < Z.of_nat n -> exists ms, scan rx from ms.
Proof.
  revert rx from. induction n as [|n IH]; intros rx from Hn.
  - exists []. constructor. apply exec_past. lia.
  - destruct (exec rx) as [m|] eqn:Em; [|exists []; by constructor].
    pose proof (next_after rx m Em). destruct (Z.le_gt_cases (m_end m) from) as [Hle|Hgt].
    + destruct (IH (m_next m) from ltac:(lia)) as [ms Hms]. exists ms. by eapply scan_skip.
    + destruct (IH (m_next m) (m_end m) ltac:(lia)) as [ms Hms]. exists (m :: ms). by eapply scan_match.
Qed.

Lemma scan_step rx from m ms : exec rx = Some m -> scan rx from ms ->
  if from <? m_end m then exists ms', ms = m :: ms' /\ scan (m_next m) (m_end m) ms' else scan (m_next m) from ms.
Proof. intros Em Hs. inversion Hs; simplify_eq; destruct (Z.ltb_spec from (m_end m)); by eauto || lia. Qed.

Lemma scan_fun rx from ms ms' : scan rx from ms -> scan rx from ms' -> ms = ms'.
Proof.
  intros Hs. revert ms'. induction Hs as [rx from E|rx from m ms E Hle _ IH|rx from m ms E Hlt _ IH]; intros ms' Hs'.
  - by inversion Hs'; simplify_eq.
  - apply IH. pose proof (scan_step rx from m ms' E Hs') as Hn. by rewrite (proj2 (Z.ltb_ge _ _) Hle) in Hn.
  - pose proof (scan_step rx from m ms' E Hs') as Hn. rewrite (proj2 (Z.ltb_lt _ _) Hlt) in Hn.
    destruct Hn as (ms2 & -> & Hs2). f_equal. by apply IH.
Qed.

(** The matches used so far, and those to come. *)
Record splits (limit : Z) (s : splitting) (done todo : list rmatch) : Prop := Splits {
  sp_scan : scan 0 0 (done ++ todo);
  sp_output : output s = chunks 0 done;
  sp_last : lastLastIndex s = last_end done;
  sp_length : lastLength s = last_length done;
}.

Definition going (limit : Z) (s : splitting) : Prop :=
  0 <= rx_lastIndex s <= len string + 1 /\ 0 <= lastLastIndex s /\
  exists done todo, splits limit s done todo /\ scan (rx_lastIndex s) (last_end done) todo /\
    (done = [] \/ len (output s) < limit).

(** At the end: no match is left, or the limit has been reached. *)
Definition ended (limit : Z) (s : splitting) : Prop :=
  exists done todo, splits limit s done todo /\
    ((todo = [] /\ rx_lastIndex s = 0 /\ (done = [] \/ len (output s) < limit)) \/
     (done <> [] /\ 0 < rx_lastIndex s /\ limit <= len (output s))).

Lemma splits_snoc limit rx s done m todo :
  splits limit s done (m :: todo) ->
  splits limit (Splitting rx
    (let output := output s ++ [Some (cut string (lastLastIndex s) (m_index m))] in
     if (0 <? len (groups_of compliant replaced m)) && (m_index m <? len string)
     then output ++ groups_of compliant replaced m else output) (m_end m) (len (m_text m))) (done ++ [m]) todo.
Proof.
  intros [Hsc Ho Hl Hn]. split; simpl.
  - by rewrite <- app_assoc.
  - rewrite chunks_app, Ho, Hl. simpl. rewrite app_nil_r. fold (last_end done).
    destruct (m_index m <? len string); [|by rewrite andb_false_r].
    rewrite andb_true_r. destruct (groups_of compliant replaced m) as [|g l] eqn:Eg; [done|].
    by rewrite <- app_assoc.
  - unfold last_end. by rewrite last_snoc.
  - unfold last_length. by rewrite last_snoc.
Qed.

Lemma split_step_inv limit s : going limit s ->
  wp (split_step exec compliant replaced string limit s) (fun r =>
    match r with
    | inl s' => going limit s' /\ 0 <= len string + 1 - rx_lastIndex s' < len string + 1 - rx_lastIndex s
    | inr s' => ended limit s'
    end).
Proof.
  intros (Hrx & Hfrom & done & todo & Hsp & Hscan & Hlim). pose proof Hsp as [Hsc Ho Hl Hn]. unfold split_step.
  destruct (exec (rx_lastIndex s)) as [m|] eqn:Em.
  2: { inversion Hscan; simplify_eq. exists done, []. split; [by destruct Hsp|]. left. by split_and!. }
  pose proof (next_after _ m Em) as Hnext. pose proof (scan_step _ _ m todo Em Hscan) as Hstep.
  destruct (exec_range _ _ Em) as [Hlo _]. pose proof (len_nonneg (m_text m)) as Htl.
  fold (m_end m) (m_next m). rewrite Hl. destruct (Z.ltb_spec (last_end done) (m_end m)) as [Hlt|Hge].
  - destruct Hstep as (todo' & -> & Htodo). rewrite <- Hl.
    pose proof (splits_snoc limit (m_end m) s done m todo' Hsp) as Hs1.
    pose proof (splits_snoc limit (m_next m) s done m todo' Hsp) as Hs2. cbv zeta in *.
    set (out := if _ && _ then _ else _) in *. destruct (Z.leb_spec limit (len out)).
    + exists (done ++ [m]), todo'. split; [done|]. right. split_and!; [by destruct done|simpl; lia|done].
    + split; [|simpl; lia]. split; [simpl; lia|]. split; [simpl; unfold m_end; lia|]. exists (done ++ [m]), todo'. split_and!; [done|simpl|by right].
      unfold last_end. by rewrite last_snoc.
  - split; [|simpl; lia]. split; [simpl; lia|]. split; [simpl; by rewrite <- Hl|]. exists done, todo. by split_and!.
Qed.

Lemma split_wp limit : let l := match limit with None => 2 ^ 32 - 1 | Some l => to_uint32 l end in
  wp (split strSplit exec test_empty compliant replaced SepRegex string limit) (fun r =>
    exists ms, scan 0 0 ms /\ r = split_reference ms l).
Proof.
  intros l. assert (0 <= l) as Hl0.
  { unfold l. destruct limit; [|lia]. unfold to_uint32. apply Z.mod_pos_bound. lia. }
  unfold split. fold l. apply wp_bind. eapply wp_mono.
  - apply wp_loop with (Inv := going l) (meas := fun s => len string + 1 - rx_lastIndex s) (P := ended l).
    + destruct (scan_total (Z.to_nat (len string + 2)) 0 0) as [ms Hms]; [pose proof (len_nonneg string); lia|].
      split; [simpl; pose proof (len_nonneg string); lia|]. split; [done|]. exists [], ms. split_and!; [by split|done|by left].
    + simpl. unfold len. lia.
    + intros s Hs. by apply split_step_inv.
  - intros s (done & todo & [Hsc Ho Hll Hln] & Hend). apply wp_Ret. exists (done ++ todo). split; [done|].
    rewrite Ho in *. rewrite Hll, Hln. destruct Hend as [(-> & -> & Hlim)|(Hne & Hrx & Hlim)].
    + rewrite app_nil_r. simpl. unfold split_reference.
      assert ((if last_end done =? len string then
         if negb (last_length done =? 0) || negb test_empty then chunks 0 done ++ [Some []] else chunks 0 done
       else chunks 0 done ++ [Some (cut string (last_end done) (len string))]) = chunks 0 done ++ rest done) as ->.
      { unfold rest. destruct (_ =? _); [destruct (_ || _)|]; by rewrite ?app_nil_r. }
      assert (len (rest done) <= 1) as Hr by (unfold rest; destruct (_ =? _); [destruct (_ || _)|]; done).
      rewrite len_app. pose proof (len_nonneg (rest done)). destruct Hlim as [->|Hlim].
      * change (chunks 0 []) with (@nil (option ustring)). change (len []) with 0. rewrite app_nil_l, Z.add_0_l.
        destruct (Z.leb_spec l 0) as [Hl|Hl]; [|by rewrite (proj2 (Z.ltb_ge _ _)) by lia].
        assert (l = 0) as -> by lia. done.
      * rewrite (proj2 (Z.leb_gt _ _) Hlim). simpl. by rewrite (proj2 (Z.ltb_ge _ _)) by lia.
    + assert (exists x, (if last_end done =? len string then
         if negb (last_length done =? 0) || negb ((rx_lastIndex s =? 0) && test_empty)
         then chunks 0 done ++ [Some []] else chunks 0 done
       else chunks 0 done ++ [Some (cut string (last_end done) (len string))]) = chunks 0 done ++ [x]) as [x ->].
      { rewrite (proj2 (Z.eqb_neq (rx_lastIndex s) 0)) by lia. simpl. rewrite orb_true_r. destruct (_ =? _); eauto. }
      assert (0 < len (chunks 0 done)) as Hc by (destruct done; [done|unfold len; simpl; lia]).
      rewrite len_app. change (len [x]) with 1. rewrite (proj2 (Z.ltb_lt _ _)) by lia. unfold split_reference.
      rewrite chunks_app, <- app_assoc. set (more := chunks _ todo). set (tail := rest (done ++ todo)).
      pose proof (len_nonneg more). pose proof (len_nonneg tail). rewrite !len_app.
      rewrite (proj2 (Z.leb_le l _)) by lia. rewrite (proj2 (Z.ltb_lt 0 _)) by lia. cbn [andb].
      rewrite join_cut; [|by split|done]. by rewrite (cut_prefix (chunks 0 done)).
Qed.
End splitting.

(** C32: [split] at a regular expression, with any limit, any groups and any engine
    that keeps to ECMAScript, returns (matches of the empty string do not stop it):
    the texts between the matches, each with the groups of the match that ends it,
    and the text after the last one; or, if the limit cuts the list short, not the
    first entries, but as many characters of the list written as a string. *)
Theorem split_at_matches strSplit string exec `{!RegexLaws string exec} test_empty compliant replaced limit :
  exists ms, scan exec 0 0 ms /\ (forall ms', scan exec 0 0 ms' -> ms' = ms) /\
    split strSplit exec test_empty compliant replaced SepRegex string limit =
    Ret (split_reference string test_empty compliant replaced ms
           (match limit with None => 2 ^ 32 - 1 | Some l => to_uint32 l end)).
Proof.
  destruct (wp_elim _ _ (split_wp string exec strSplit test_empty compliant replaced limit)) as (r & E & ms & Hms & ->).
  exists ms. split_and!; [done| |done]. intros ms' Hms'. by eapply scan_fun.
Qed.

(** The expression [,*], on "a,,bc": runs of commas, perhaps empty. *)
Definition ex_text : ustring := ex_ustring "a,,bc".
Fixpoint commas (s : ustring) : nat :=
  match s with c :: s => if c =? 44 then S (commas s) else O | [] => O end.
Definition ex_exec (from : Z) : option rmatch :=
  if (0 <=? from) && (from <=? len ex_text) then
    Some (Rmatch from (take (commas (drop (Z.to_nat from) ex_text)) (drop (Z.to_nat from) ex_text)) [])
  else None.

#[export] Instance ex_exec_laws : RegexLaws ex_text ex_exec.
Proof.
  assert (forall from, 0 <= from <= 5 ->
    from = 0 \/ from = 1 \/ from = 2 \/ from = 3 \/ from = 4 \/ from = 5) as Hcase by lia.
  split; intros from; unfold ex_exec; change (len ex_text) with 5;
    destruct (Z.leb_spec 0 from), (Z.leb_spec from 5); cbn [andb]; try done; try lia;
    intros m Hm; simplify_eq; pose proof (Hcase from ltac:(lia)) as Hf;
    repeat destruct Hf as [->|Hf]; subst; vm_compute; try done; split; discriminate.
Qed.

(** Cut off after two entries, the result is a string of two characters: "a,". *)
Example split_limit_text :
  split (Ret (Pieces [])) ex_exec true true (fun _ => None) SepRegex ex_text (Some 2) = Ret (Text (ex_ustring "a,")).
Proof. by vm_compute. Qed.

Lemma split_at_matches_witness :
  exists ms, scan ex_exec 0 0 ms /\ (forall ms', scan ex_exec 0 0 ms' -> ms' = ms) /\
    split (Ret (Pieces [])) ex_exec true true (fun _ => None) SepRegex ex_text None =
    Ret (split_reference ex_text true true (fun _ => None) ms (2 ^ 32 - 1)).
Proof. exact (split_at_matches (Ret (Pieces [])) ex_text ex_exec true true (fun _ => None) None). Defined.
