(* ===== verification/Modal.v ===== *)
(** * Modal dialogs of bootstrap ([bootstrap/modal.js])

    The state of one modal and of the parts of the page it changes: the classes
    and the display of its element, the backdrops in the body, the padding and
    the class of the body, and the listeners it has put in place.  Work that waits
    for the end of a CSS transition is pending on the element of the transition;
    the end of a transition is a step of its own, so that calls can come
    before it.  Whether a listener prevents an event, and the sizes of the window,
    are arguments of the calls.  Loading remote content and the focus are left out. *)

From S2P Require Import Prelude.

#[local] Open Scope list_scope.

(** ** State *)

(** The option [backdrop]: [false], [true] or ['static']. *)
Inductive backdrop_option := NoBackdrop | WithBackdrop | StaticBackdrop.

Inductive modal_event := EShow | EShown | EHide | EHidden.

(** Elements with transitions, and what waits for their end. *)
Inductive target := Element | Dialog | BackdropEl (id : nat).
#[export] Instance target_eq_dec : EqDecision target.
Proof. solve_decision. Defined.

Inductive modal_callback := ShowElement | Hidden.
Inductive task := Call (c : modal_callback) | RemoveThen (c : modal_callback) | HideModal | Shown.

(** Listeners for clicks: on what dismisses the modal, and on the backdrop. *)
Inductive click_listener := Dismiss | OnBackdrop.

(** The variables of the object; [originalBodyPad] is [null] or a style ([''] is [None]). *)
Record fields := Self {
  isShown : bool; m_backdrop : option nat; originalBodyPad : option (option Z);
  bodyIsOverflowing : bool; scrollbarWidth : Z; ignoreBackdropClick : bool }.

(** The element ([attached]: it has a parent) and the body. *)
Record page := Page {
  attached : bool; displayed : bool; el_in : bool; padLeft : option Z; padRight : option Z;
  modal_open : bool; body_pad : option Z; backdrops : list (nat * bool); next_id : nat }.

(** How often each listener is in place. *)
Record listeners := Listeners {
  keydowns : nat; resizes : nat; focusin : bool; clicks : list click_listener;
  mousedowns : nat; mouseups : nat }.

Record modal := Modal {
  this : fields; the_page : page; on : listeners;
  pending : list (target * task); events : list modal_event }.

(** Sizes at the time of a call: of the window, of the body, of the element that
    is measured for the scroll bar, of the dialog, and the padding of the body
    in the style sheets. *)
Record sizes := Sizes {
  innerWidth : Z; rect_right : Z; rect_left : Z; body_clientWidth : Z;
  scroll_offsetWidth : Z; scroll_clientWidth : Z; scrollHeight : Z; clientHeight : Z;
  css_pad : Z }.

Definition new_modal : fields := Self false None None false 0 false.

(** ** Changes of parts of the state *)

Definition on_self (f : fields -> fields) (m : modal) : modal :=
  Modal (f (this m)) (the_page m) (on m) (pending m) (events m).
Definition on_page (f : page -> page) (m : modal) : modal :=
  Modal (this m) (f (the_page m)) (on m) (pending m) (events m).
Definition on_listeners (f : listeners -> listeners) (m : modal) : modal :=
  Modal (this m) (the_page m) (f (on m)) (pending m) (events m).
Definition wait (t : target) (k : task) (m : modal) : modal :=
  Modal (this m) (the_page m) (on m) (pending m ++ [(t, k)]) (events m).
Definition trigger (e : modal_event) (m : modal) : modal :=
  Modal (this m) (the_page m) (on m) (pending m) (events m ++ [e]).

Definition set_isShown b (x : fields) : fields :=
  Self b (m_backdrop x) (originalBodyPad x) (bodyIsOverflowing x) (scrollbarWidth x) (ignoreBackdropClick x).
Definition set_backdrop b (x : fields) : fields :=
  Self (isShown x) b (originalBodyPad x) (bodyIsOverflowing x) (scrollbarWidth x) (ignoreBackdropClick x).
Definition set_ignore b (x : fields) : fields :=
  Self (isShown x) (m_backdrop x) (originalBodyPad x) (bodyIsOverflowing x) (scrollbarWidth x) b.

Definition set_displayed b (p : page) : page :=
  Page (attached p) b (el_in p) (padLeft p) (padRight p) (modal_open p) (body_pad p) (backdrops p) (next_id p).
Definition set_in b (p : page) : page :=
  Page (attached p) (displayed p) b (padLeft p) (padRight p) (modal_open p) (body_pad p) (backdrops p) (next_id p).
Definition set_pads l r (p : page) : page :=
  Page (attached p) (displayed p) (el_in p) l r (modal_open p) (body_pad p) (backdrops p) (next_id p).
Definition set_open b (p : page) : page :=
  Page (attached p) (displayed p) (el_in p) (padLeft p) (padRight p) b (body_pad p) (backdrops p) (next_id p).
Definition set_body_pad v (p : page) : page :=
  Page (attached p) (displayed p) (el_in p) (padLeft p) (padRight p) (modal_open p) v (backdrops p) (next_id p).
Definition set_backdrops l (p : page) : page :=
  Page (attached p) (displayed p) (el_in p) (padLeft p) (padRight p) (modal_open p) (body_pad p) l (next_id p).
Definition attach (p : page) : page :=
  Page true (displayed p) (el_in p) (padLeft p) (padRight p) (modal_open p) (body_pad p) (backdrops p) (next_id p).

Section modal.
(** [$.support.transition]; whether the element has the class [fade]; options. *)
Context (transition fade : bool) (opt_backdrop : backdrop_option) (opt_keyboard : bool).

Definition animated : bool := transition && fade.
Definition has_backdrop : bool := match opt_backdrop with NoBackdrop => false | _ => true end.

(** ** The size of the window and the scroll bar *)

Definition measureScrollbar (g : sizes) : Z := scroll_offsetWidth g - scroll_clientWidth g.

Definition checkScrollbar (g : sizes) (x : fields) : fields :=
  let fullWindowWidth :=
    if innerWidth g =? 0 then rect_right g - Z.abs (rect_left g) else innerWidth g in
  Self (isShown x) (m_backdrop x) (originalBodyPad x) (body_clientWidth g <? fullWindowWidth)
    (measureScrollbar g) (ignoreBackdropClick x).

Definition setScrollbar (g : sizes) (m : modal) : modal :=
  let bodyPad := default (css_pad g) (body_pad (the_page m)) in
  let m := on_self (fun x => Self (isShown x) (m_backdrop x) (Some (body_pad (the_page m)))
             (bodyIsOverflowing x) (scrollbarWidth x) (ignoreBackdropClick x)) m in
  on_page (fun p => set_body_pad (if bodyIsOverflowing (this m)
                                  then Some (bodyPad + scrollbarWidth (this m)) else body_pad p) p) m.

Definition resetScrollbar (m : modal) : modal :=
  match originalBodyPad (this m) with
  | Some v => on_page (set_body_pad v) m
  | None => m
  end.

Definition adjustDialog (g : sizes) (m : modal) : modal :=
  let modalIsOverflowing := clientHeight g <? scrollHeight g in
  let over := bodyIsOverflowing (this m) in
  on_page (set_pads (if negb over && modalIsOverflowing then Some (scrollbarWidth (this m)) else None)
                    (if over && negb modalIsOverflowing then Some (scrollbarWidth (this m)) else None)) m.

Definition handleUpdate (g : sizes) (m : modal) : modal := adjustDialog g m.

Definition resetAdjustments (m : modal) : modal := on_page (set_pads None None) m.

(** ** Listeners *)

Definition enforceFocus (l : listeners) : listeners :=
  Listeners (keydowns l) (resizes l) true (clicks l) (mousedowns l) (mouseups l).

Definition escape (m : modal) : modal :=
  if isShown (this m) && opt_keyboard then
    on_listeners (fun l => Listeners (S (keydowns l)) (resizes l) (focusin l) (clicks l)
                             (mousedowns l) (mouseups l)) m
  else if negb (isShown (this m)) then
    on_listeners (fun l => Listeners 0 (resizes l) (focusin l) (clicks l)
                             (mousedowns l) (mouseups l)) m
  else m.

Definition resize (m : modal) : modal :=
  on_listeners (fun l => Listeners (keydowns l) (if isShown (this m) then S (resizes l) else O)
                           (focusin l) (clicks l) (mousedowns l) (mouseups l)) m.

Definition add_click (c : click_listener) (l : listeners) : listeners :=
  Listeners (keydowns l) (resizes l) (focusin l) (clicks l ++ [c]) (mousedowns l) (mouseups l).

(** ** The backdrop *)

(** Removing an element takes the listeners that wait on it along. *)
Definition removeBackdrop (m : modal) : modal :=
  match m_backdrop (this m) with
  | Some id =>
      let m := on_page (fun p => set_backdrops (filter (fun b => b.1 <> id) (backdrops p)) p) m in
      let m := Modal (this m) (the_page m) (on m)
                 (filter (fun w => w.1 <> BackdropEl id) (pending m)) (events m) in
      on_self (set_backdrop None) m
  | None => on_self (set_backdrop None) m
  end.

(** The functions passed to [backdrop]: by [show] and by [hideModal]. *)
Definition run_callback (g : sizes) (c : modal_callback) (m : modal) : modal :=
  match c with
  | ShowElement =>
      let m := on_page attach m in
      let m := on_page (set_displayed true) m in
      let m := adjustDialog g m in
      let m := on_page (set_in true) m in
      let m := on_listeners enforceFocus m in
      if animated then wait Dialog Shown m else trigger EShown m
  | Hidden =>
      let m := on_page (set_open false) m in
      let m := resetAdjustments m in
      let m := resetScrollbar m in
      trigger EHidden m
  end.

(** Class [in] of a backdrop. *)
Definition class_in (id : nat) (b : bool) (p : page) : page :=
  set_backdrops ((fun x => if decide (x.1 = id) then (id, b) else x) <$> backdrops p) p.

Definition backdrop (g : sizes) (callback : modal_callback) (m : modal) : modal :=
  if isShown (this m) && has_backdrop then
    let id := next_id (the_page m) in
    let m := on_page (fun p => Page (attached p) (displayed p) (el_in p) (padLeft p) (padRight p)
               (modal_open p) (body_pad p) (backdrops p ++ [(id, false)]) (S id)) m in
    let m := on_self (set_backdrop (Some id)) m in
    let m := on_listeners (add_click OnBackdrop) m in
    let m := on_page (class_in id true) m in
    if animated then wait (BackdropEl id) (Call callback) m else run_callback g callback m
  else
    match negb (isShown (this m)), m_backdrop (this m) with
    | true, Some id =>
        let m := on_page (class_in id false) m in
        if animated then wait (BackdropEl id) (RemoveThen callback) m
        else run_callback g callback (removeBackdrop m)
    | _, _ => run_callback g callback m
    end.

(** ** Showing and hiding *)

(** [prevented]: a listener of the event prevents it. *)
Definition show (g : sizes) (prevented : bool) (m : modal) : modal :=
  let m := trigger EShow m in
  if isShown (this m) || prevented then m
  else
    let m := on_self (set_isShown true) m in
    let m := on_self (checkScrollbar g) m in
    let m := setScrollbar g m in
    let m := on_page (set_open true) m in
    let m := escape m in
    let m := resize m in
    let m := on_listeners (add_click Dismiss) m in
    let m := on_listeners (fun l => Listeners (keydowns l) (resizes l) (focusin l) (clicks l)
                                      (S (mousedowns l)) (mouseups l)) m in
    backdrop g ShowElement m.

Definition hideModal (g : sizes) (m : modal) : modal :=
  let m := on_page (set_displayed false) m in
  backdrop g Hidden m.

Definition hide (g : sizes) (prevented : bool) (m : modal) : modal :=
  let m := trigger EHide m in
  if negb (isShown (this m)) || prevented then m
  else
    let m := on_self (set_isShown false) m in
    let m := escape m in
    let m := resize m in
    let m := on_listeners (fun l => Listeners (keydowns l) (resizes l) false (clicks l)
                                      (mousedowns l) (mouseups l)) m in
    let m := on_page (set_in false) m in
    let m := on_listeners (fun l => Listeners (keydowns l) (resizes l) (focusin l) [] 0 0) m in
    if animated then wait Element HideModal m else hideModal g m.

Definition toggle (g : sizes) (prevented : bool) (m : modal) : modal :=
  if isShown (this m) then hide g prevented m else show g prevented m.

(** ** Events of the user *)

(** A click on the element itself, beside the dialog: each listener of the
    backdrop in turn. *)
Definition backdrop_click (g : sizes) (prevented : bool) (m : modal) : modal :=
  if ignoreBackdropClick (this m) then on_self (set_ignore false) m
  else match opt_backdrop with
       | StaticBackdrop => m
       | _ => hide g prevented m
       end.

Definition click_element (g : sizes) (prevented : bool) (m : modal) : modal :=
  foldl (fun m c => match c with OnBackdrop => backdrop_click g prevented m | Dismiss => m end)
    m (clicks (on m)).

(** A click on what dismisses the modal, inside the dialog. *)
Definition click_dismiss (g : sizes) (prevented : bool) (m : modal) : modal :=
  foldl (fun m c => match c with
                    | OnBackdrop => if ignoreBackdropClick (this m) then on_self (set_ignore false) m
                                    else m
                    | Dismiss => hide g prevented m
                    end) m (clicks (on m)).

Definition key_escape (g : sizes) (prevented : bool) (m : modal) : modal :=
  Nat.iter (keydowns (on m)) (hide g prevented) m.

Definition mousedown_dialog (m : modal) : modal :=
  on_listeners (fun l => Listeners (keydowns l) (resizes l) (focusin l) (clicks l) (mousedowns l)
                           (mouseups l + mousedowns l)) m.

(** The mouse is let go, over the element itself or not. *)
Definition mouseup_element (on_it : bool) (m : modal) : modal :=
  let n := mouseups (on m) in
  let m := on_listeners (fun l => Listeners (keydowns l) (resizes l) (focusin l) (clicks l)
                                    (mousedowns l) 0) m in
  if on_it && negb (Nat.eqb n 0) then on_self (set_ignore true) m else m.

Definition resize_window (g : sizes) (m : modal) : modal :=
  Nat.iter (resizes (on m)) (handleUpdate g) m.

Definition run_task (g : sizes) (k : task) (m : modal) : modal :=
  match k with
  | Call c => run_callback g c m
  | RemoveThen c => run_callback g c (removeBackdrop m)
  | HideModal => hideModal g m
  | Shown => trigger EShown m
  end.

(** The end of the transition of an element: all that waits on it, in order. *)
Definition transition_end (g : sizes) (t : target) (m : modal) : modal :=
  let due := filter (fun w => w.1 = t) (pending m) in
  let m := Modal (this m) (the_page m) (on m) (filter (fun w => w.1 <> t) (pending m)) (events m) in
  foldl (fun m w => run_task g w.2 m) m due.

(** What a user or a script does. *)
Inductive action :=
| Show (prevented : bool) | Hide (prevented : bool) | Toggle (prevented : bool)
| ClickElement (prevented : bool) | ClickDismiss (prevented : bool) | KeyEscape (prevented : bool)
| MouseDown | MouseUp (on_it : bool) | ResizeWindow.

Definition act (g : sizes) (a : action) (m : modal) : modal :=
  match a with
  | Show p => show g p m
  | Hide p => hide g p m
  | Toggle p => toggle g p m
  | ClickElement p => click_element g p m
  | ClickDismiss p => click_dismiss g p m
  | KeyEscape p => key_escape g p m
  | MouseDown => mousedown_dialog m
  | MouseUp b => mouseup_element b m
  | ResizeWindow => resize_window g m
  end.
End modal.
