(* ===== verification/ModalProps.v ===== *)
(** * What a modal does to the page

    The phases of a modal whose calls wait for the transitions to end, by rule
    induction over its steps; what holds without animation; and what goes
    wrong when a call comes too early. *)

From S2P Require Import Prelude.
From S2P Require Import Modal.

#[local] Open Scope list_scope.

Section phases.
Context (transition fade : bool) (opt_backdrop : backdrop_option) (opt_keyboard : bool).
Context (pad0 : option Z).

#[local] Abbreviation act := (act transition fade opt_backdrop opt_keyboard).
#[local] Abbreviation transition_end := (transition_end transition fade opt_backdrop).
#[local] Abbreviation animated := (animated transition fade).
#[local] Abbreviation has_backdrop := (has_backdrop opt_backdrop).

(** A page with the style [pad0] on its body, and a modal that was not used. *)
Definition fresh (att : bool) : modal :=
  Modal new_modal (Page att false false None None false pad0 [] 0) (Listeners 0 0 false [] 0 0) [] [].

(** The states of a modal when every call waits until no transition is under way. *)
Inductive patient : modal -> Prop :=
| patient_start att : patient (fresh att)
| patient_act g a m : patient m -> pending m = [] -> patient (act g a m)
| patient_end g t m : patient m -> patient (transition_end g t m).

(** ** Phases *)

Definition its_backdrop (id : nat) : option nat := if has_backdrop then Some id else None.
Definition in_body (id : nat) (b : bool) : list (nat * bool) := if has_backdrop then [(id, b)] else [].
Definition key_listeners : nat := if opt_keyboard then 1 else 0.
Definition click_listeners : list click_listener :=
  if has_backdrop then [Dismiss; OnBackdrop] else [Dismiss].

(** The listeners while the modal is shown, and its backdrop. *)
Definition dressed (id : nat) bd bds kl cl : Prop :=
  bd = its_backdrop id /\ bds = in_body id true /\ kl = key_listeners /\ cl = click_listeners.

Inductive at_phase : modal -> Prop :=
| at_hidden opad bo sw ign att n ev :
    at_phase (Modal (Self false None opad bo sw ign)
      (Page att false false None None false pad0 [] n) (Listeners 0 0 false [] 0 0) [] ev)
| at_backdrop_in id kl cl bo sw ign att bp n mu ev : animated = true -> has_backdrop = true ->
    kl = key_listeners -> cl = click_listeners ->
    at_phase (Modal (Self true (Some id) (Some pad0) bo sw ign)
      (Page att false false None None true bp [(id, true)] n)
      (Listeners kl 1 false cl 1 mu) [(BackdropEl id, Call ShowElement)] ev)
| at_dialog_in id bd bds kl cl bo sw ign att pl pr bp n mu ev :
    animated = true -> dressed id bd bds kl cl ->
    at_phase (Modal (Self true bd (Some pad0) bo sw ign) (Page att true true pl pr true bp bds n)
      (Listeners kl 1 true cl 1 mu) [(Dialog, Shown)] ev)
| at_shown id bd bds kl cl bo sw ign att pl pr bp n mu ev : dressed id bd bds kl cl ->
    at_phase (Modal (Self true bd (Some pad0) bo sw ign) (Page att true true pl pr true bp bds n)
      (Listeners kl 1 true cl 1 mu) [] ev)
| at_element_out id bd bds bo sw ign att pl pr bp n ev :
    animated = true -> bd = its_backdrop id -> bds = in_body id true ->
    at_phase (Modal (Self false bd (Some pad0) bo sw ign) (Page att true false pl pr true bp bds n)
      (Listeners 0 0 false [] 0 0) [(Element, HideModal)] ev)
| at_backdrop_out id bo sw ign att pl pr bp n ev : animated = true -> has_backdrop = true ->
    at_phase (Modal (Self false (Some id) (Some pad0) bo sw ign)
      (Page att false false pl pr true bp [(id, false)] n)
      (Listeners 0 0 false [] 0 0) [(BackdropEl id, RemoveThen Hidden)] ev).

(** ** Running the code on a state of a phase *)

Lemma class_in_one (id : nat) (b b' : bool) :
  (fun x => if decide (x.1 = id) then (id, b') else x) <$> [(id, b)] = [(id, b')].
Proof. cbn. by rewrite decide_True. Qed.

Lemma removed_one (id : nat) (b : bool) : filter (fun x => x.1 <> id) [(id, b)] = [].
Proof. rewrite filter_cons_False; [done|]. simpl. auto. Qed.

#[local] Ltac run :=
  cbv [show hide toggle hideModal backdrop run_callback run_task escape resize
      adjustDialog handleUpdate resetAdjustments resetScrollbar setScrollbar checkScrollbar
      enforceFocus add_click on_self on_page on_listeners wait trigger attach set_isShown
      set_backdrop set_ignore set_displayed set_in set_pads set_open set_body_pad set_backdrops
      class_in removeBackdrop
      Modal.has_backdrop its_backdrop in_body key_listeners click_listeners negb andb orb app
      isShown m_backdrop originalBodyPad bodyIsOverflowing scrollbarWidth ignoreBackdropClick
      attached displayed el_in padLeft padRight modal_open body_pad backdrops next_id
      keydowns resizes focusin clicks mousedowns mouseups this the_page on pending events];
  repeat match goal with
  | H : ?b = true |- context [if ?b then _ else _] => rewrite H
  | H : ?b = false |- context [if ?b then _ else _] => rewrite H
  end; rewrite ?class_in_one, ?removed_one.

#[local] Ltac options :=
  unfold dressed, its_backdrop, in_body, key_listeners, click_listeners, Modal.has_backdrop;
  repeat match goal with H : opt_backdrop = _ |- _ => rewrite H | H : opt_keyboard = _ |- _ => rewrite H end;
  try done.

(** ** Each call, from the phases in which nothing is pending *)

Lemma show_hidden g prevented opad bo sw ign att n ev :
  at_phase (show transition fade opt_backdrop opt_keyboard g prevented
    (Modal (Self false None opad bo sw ign)
      (Page att false false None None false pad0 [] n) (Listeners 0 0 false [] 0 0) [] ev)).
Proof.
  destruct prevented; [run; constructor|].
  destruct opt_backdrop eqn:Eb, opt_keyboard eqn:Ek, animated eqn:Ea; run;
    first [eapply at_backdrop_in|eapply (at_dialog_in n)|eapply (at_shown n)]; options.
Qed.

Lemma hide_shown g prevented id bd bds kl cl bo sw ign att pl pr bp n mu ev :
  dressed id bd bds kl cl ->
  at_phase (hide transition fade opt_backdrop opt_keyboard g prevented
    (Modal (Self true bd (Some pad0) bo sw ign) (Page att true true pl pr true bp bds n)
      (Listeners kl 1 true cl 1 mu) [] ev)).
Proof.
  intros Hd. destruct prevented; [run; by eapply at_shown|].
  destruct Hd as (-> & -> & -> & ->).
  destruct opt_backdrop eqn:Eb, opt_keyboard eqn:Ek, animated eqn:Ea; options; run;
    first [eapply (at_element_out id)|eapply at_hidden]; options.
Qed.

(** Other clicks, keys and the mouse, while the modal is shown or hidden. *)
Lemma act_hidden g a opad bo sw ign att n ev :
  at_phase (act g a
    (Modal (Self false None opad bo sw ign)
      (Page att false false None None false pad0 [] n) (Listeners 0 0 false [] 0 0) [] ev)).
Proof.
  destruct a; try apply show_hidden; try (run; constructor).
  all: cbn. all: try constructor. destruct on_it; constructor.
Qed.

Lemma ignore_phase b m : at_phase m -> at_phase (on_self (set_ignore b) m).
Proof. intros []; by econstructor. Qed.

(** What the listeners in place do. *)
#[local] Abbreviation hide := (hide transition fade opt_backdrop opt_keyboard).

Lemma click_element_none g p m :
  clicks (on m) = [Dismiss] -> act g (ClickElement p) m = m.
Proof. intros E. cbn [Modal.act]. unfold click_element. by rewrite E. Qed.

Lemma click_element_one g p m : clicks (on m) = [Dismiss; OnBackdrop] ->
  act g (ClickElement p) m =
    if ignoreBackdropClick (this m) then on_self (set_ignore false) m
    else match opt_backdrop with StaticBackdrop => m | _ => hide g p m end.
Proof. intros E. cbn [Modal.act]. unfold click_element. by rewrite E. Qed.

Lemma click_dismiss_shown g p m : clicks (on m) = [Dismiss] \/ clicks (on m) = [Dismiss; OnBackdrop] ->
  act g (ClickDismiss p) m = hide g p m \/
  act g (ClickDismiss p) m = on_self (set_ignore false) (hide g p m).
Proof.
  intros E. cbn [Modal.act]. unfold click_dismiss. destruct E as [-> | ->]; cbn [foldl]; [by left|].
  destruct (ignoreBackdropClick _); [by right|by left].
Qed.

Lemma key_escape_shown g p m : keydowns (on m) = 0%nat \/ keydowns (on m) = 1%nat ->
  act g (KeyEscape p) m = m \/ act g (KeyEscape p) m = hide g p m.
Proof.
  intros E. cbn [Modal.act]. unfold key_escape. destruct E as [-> | ->]; cbn [Nat.iter]; [by left|by right].
Qed.

Lemma act_shown g a id bd bds kl cl bo sw ign att pl pr bp n mu ev :
  dressed id bd bds kl cl ->
  at_phase (act g a
    (Modal (Self true bd (Some pad0) bo sw ign) (Page att true true pl pr true bp bds n)
      (Listeners kl 1 true cl 1 mu) [] ev)).
Proof.
  intros Hd. pose proof Hd as (_ & _ & Hk & Hc).
  assert (cl = [Dismiss] \/ cl = [Dismiss; OnBackdrop]) as Hcl
    by (rewrite Hc; unfold click_listeners; destruct has_backdrop; auto).
  assert (kl = 0%nat \/ kl = 1%nat) as Hkl
    by (rewrite Hk; unfold key_listeners; destruct opt_keyboard; auto).
  clear Hk Hc.
  pose proof (at_shown id bd bds kl cl bo sw ign att pl pr bp n mu ev Hd) as Hm.
  pose proof (fun g p => hide_shown g p id bd bds kl cl bo sw ign att pl pr bp n mu ev Hd) as Hh.
  destruct a as [p|p|p|p|p|p| |b|].
  - by eapply at_shown.
  - apply Hh.
  - apply Hh.
  - destruct Hcl as [-> | ->]; [by rewrite click_element_none|].
    rewrite click_element_one by done. destruct ign; cbn [this ignoreBackdropClick].
    + by apply ignore_phase.
    + destruct opt_backdrop; [apply Hh..|exact Hm].
  - match goal with |- at_phase (Modal.act _ _ _ _ _ _ ?m) =>
      destruct (click_dismiss_shown g p m Hcl) as [-> | ->] end; [|apply ignore_phase]; apply Hh.
  - match goal with |- at_phase (Modal.act _ _ _ _ _ _ ?m) =>
      destruct (key_escape_shown g p m Hkl) as [-> | ->] end; [exact Hm|apply Hh].
  - by eapply at_shown.
  - cbn [Modal.act]. unfold mouseup_element. destruct (b && _); by eapply at_shown.
  - by eapply at_shown.
Qed.

(** ** The end of a transition *)

(** The end of a transition nothing waits for changes nothing. *)
Lemma end_other g t s p l w k ev : t <> w ->
  transition_end g t (Modal s p l [(w, k)] ev) = Modal s p l [(w, k)] ev.
Proof.
  intros Hne. unfold Modal.transition_end. cbn [pending this the_page on events].
  cbn. destruct (decide (w = t)); [congruence|]. by destruct (decide (w <> t)).
Qed.

Lemma end_due g s p l w k ev :
  transition_end g w (Modal s p l [(w, k)] ev)
  = run_task transition fade opt_backdrop g k (Modal s p l [] ev).
Proof.
  unfold Modal.transition_end. cbn [pending this the_page on events].
  cbn. destruct (decide (w <> w)); [done|]. by destruct (decide (w = w)).
Qed.

Lemma end_phase g t m : at_phase m -> at_phase (transition_end g t m).
Proof.
  intros Hm. inversion Hm as
    [opad bo sw ign att n ev E|id kl cl bo sw ign att bp n mu ev Ha Hb Hk Hc E
    |id bd bds kl cl bo sw ign att pl pr bp n mu ev Ha Hd E
    |id bd bds kl cl bo sw ign att pl pr bp n mu ev Hd E
    |id bd bds bo sw ign att pl pr bp n ev Ha Hbd Hbds E
    |id bo sw ign att pl pr bp n ev Ha Hb E]; subst m.
  - exact Hm.
  - destruct (decide (t = BackdropEl id)) as [->|]; [|by rewrite end_other by done].
    rewrite end_due. run. eapply (at_dialog_in id); [done|].
    unfold dressed, its_backdrop, in_body. by rewrite Hb.
  - destruct (decide (t = Dialog)) as [->|]; [|by rewrite end_other by done].
    rewrite end_due. by eapply at_shown.
  - exact Hm.
  - destruct (decide (t = Element)) as [->|]; [|by rewrite end_other by done].
    rewrite end_due. subst bd bds. unfold its_backdrop, in_body.
    destruct has_backdrop eqn:Hb; run.
    + by eapply at_backdrop_out.
    + eapply at_hidden.
  - destruct (decide (t = BackdropEl id)) as [->|]; [|by rewrite end_other by done].
    rewrite end_due. run. rewrite filter_nil. eapply at_hidden.
Qed.

(** The phases are an invariant of the patient use of a modal. *)
Lemma patient_phase m : patient m -> at_phase m.
Proof.
  induction 1 as [att|g a m _ IH Hp|g t m _ IH].
  - apply at_hidden.
  - inversion IH; subst m; try discriminate Hp; [apply act_hidden|by eapply act_shown].
  - by apply end_phase.
Qed.

(** A modal at rest: what the page shows of it, and what it has changed. *)
Definition at_rest (m : modal) : Prop :=
  displayed (the_page m) = isShown (this m) /\ el_in (the_page m) = isShown (this m) /\
  modal_open (the_page m) = isShown (this m) /\
  (if isShown (this m) then
     (exists id, m_backdrop (this m) = its_backdrop id /\ backdrops (the_page m) = in_body id true) /\
     keydowns (on m) = key_listeners /\ clicks (on m) = click_listeners /\ resizes (on m) = 1%nat
   else
     m_backdrop (this m) = None /\ backdrops (the_page m) = [] /\
     body_pad (the_page m) = pad0 /\ padLeft (the_page m) = None /\ padRight (the_page m) = None /\
     on m = Listeners 0 0 false [] 0 0).

Lemma phase_at_rest m : at_phase m -> pending m = [] -> at_rest m.
Proof.
  intros Hm Hp. destruct Hm as [| | |id bd bds kl cl bo sw ign att pl pr bp n mu ev Hd| |]; try discriminate Hp.
  - done.
  - destruct Hd as (-> & -> & -> & ->). unfold at_rest. cbn. split_and!; try done. by exists id.
Qed.

(** The end of the transition that is under way, if there is one. *)
Definition settle (g : sizes) (m : modal) : modal :=
  match pending m with [] => m | (t, _) :: _ => transition_end g t m end.

Lemma settle_twice g m : at_phase m -> pending (settle g (settle g m)) = [].
Proof.
  intros Hm. destruct Hm as [| | | | |]; unfold settle; cbn [pending]; try done; rewrite end_due.
  - run. rewrite end_due. done.
  - subst bd bds. unfold its_backdrop, in_body. destruct has_backdrop eqn:Hb; run; [|done].
    rewrite end_due. run. by rewrite filter_nil.
  - run. by rewrite filter_nil.
Qed.

(** Without animation nothing is ever pending. *)
Lemma act_sync g a m : animated = false -> patient m -> pending m = [] -> pending (act g a m) = [].
Proof.
  intros Ha Hm Hp. pose proof (patient_phase _ (patient_act g a m Hm Hp)) as H.
  destruct H; try congruence; done.
Qed.
End phases.

(** ** The properties *)

(** C33: If every call waits until the transitions are over (clicks, keys and the
    mouse too), then whenever none is under way the modal and the page agree: the
    element is displayed, has the class [in], and the body the class
    [modal-open] exactly if the modal is shown; there is its backdrop and
    no other while it is shown and none when it is not; its listeners are in
    place once; and the body has its own padding again. *)
Theorem modal_settled transition fade opt_backdrop opt_keyboard pad0 m :
  patient transition fade opt_backdrop opt_keyboard pad0 m -> pending m = [] ->
  at_rest opt_backdrop opt_keyboard pad0 m.
Proof. intros Hm. eapply phase_at_rest. by apply patient_phase. Qed.

Definition ex_sizes : sizes := Sizes 1000 0 0 985 100 85 300 500 7.
Definition ex_start : modal := fresh None true.
Definition ex_act := act true true WithBackdrop true ex_sizes.
Definition ex_end := transition_end true true WithBackdrop ex_sizes.
Definition ex_shown : modal := ex_end Dialog (ex_end (BackdropEl 0) (ex_act (Show false) ex_start)).

Lemma modal_settled_witness :
  isShown (this ex_shown) = true /\ body_pad (the_page ex_shown) = Some 22 /\
  at_rest WithBackdrop true None ex_shown.
Proof.
  split; [vm_compute; done|]. split; [vm_compute; done|].
  apply (modal_settled true true WithBackdrop true None); [|vm_compute; done].
  do 2 apply patient_end. apply patient_act; [apply patient_start|done].
Defined.

(** In the same use, two ends of transitions at most, and nothing is under way. *)
Theorem modal_settles transition fade opt_backdrop opt_keyboard pad0 g m :
  patient transition fade opt_backdrop opt_keyboard pad0 m ->
  let end_one := settle transition fade opt_backdrop g in
  pending (end_one (end_one m)) = [] /\
  at_rest opt_backdrop opt_keyboard pad0 (end_one (end_one m)).
Proof.
  intros Hm end_one. pose proof (patient_phase _ _ _ _ _ m Hm) as Hp.
  pose proof (settle_twice _ _ _ opt_keyboard pad0 g m Hp) as Hs. split; [done|].
  eapply phase_at_rest; [|done]. unfold end_one, settle.
  destruct (pending m) as [|[t k] l]; [by destruct (pending m) as [|[]]; [|apply end_phase]|].
  destruct (pending (transition_end transition fade opt_backdrop g t m)) as [|[]];
    repeat apply end_phase; done.
Qed.

Lemma modal_settles_witness :
  pending (ex_act (Hide false) ex_shown) <> [] /\
  let end_one := settle true true WithBackdrop ex_sizes in
  pending (end_one (end_one (ex_act (Hide false) ex_shown))) = [] /\
  at_rest WithBackdrop true None (end_one (end_one (ex_act (Hide false) ex_shown))).
Proof.
  split; [vm_compute; done|]. apply (modal_settles true true WithBackdrop true None ex_sizes).
  apply patient_act; [|vm_compute; done].
  do 2 apply patient_end. apply patient_act; [apply patient_start|done].
Defined.

(** Without animation every sequence of calls leaves the modal at rest. *)
Theorem modal_sync transition fade opt_backdrop opt_keyboard pad0 att (calls : list (sizes * action)) :
  transition && fade = false ->
  at_rest opt_backdrop opt_keyboard pad0
    (foldl (fun m c => act transition fade opt_backdrop opt_keyboard c.1 c.2 m) (fresh pad0 att) calls).
Proof.
  intros Ha.
  assert (forall m, patient transition fade opt_backdrop opt_keyboard pad0 m -> pending m = [] ->
    let m' := foldl (fun m c => act transition fade opt_backdrop opt_keyboard c.1 c.2 m) m calls in
    patient transition fade opt_backdrop opt_keyboard pad0 m' /\ pending m' = []) as H.
  { induction calls as [|c calls IH]; intros m Hm Hp; [done|]. cbn [foldl]. apply IH.
    - by apply patient_act.
    - by eapply act_sync. }
  destruct (H (fresh pad0 att) (patient_start _ _ _ _ _ att) eq_refl) as [H1 H2].
  eapply phase_at_rest; [by eapply patient_phase|done].
Qed.

(** A call of [show] while the modal fades out: when all transitions are over
    and the modal is hidden again, two backdrops cover the page and the body
    keeps the padding for the scroll bar. *)
Theorem modal_early_show_leaks :
  exists ends,
    let m := ex_act (Show false) (ex_act (Hide false) ex_shown) in
    let m := foldl (fun m t => ex_end t m) m ends in
    pending m = [] /\ isShown (this m) = true /\
    exists ends',
      let m := foldl (fun m t => ex_end t m) (ex_act (Hide false) m) ends' in
      pending m = [] /\ isShown (this m) = false /\
      length (backdrops (the_page m)) = 2%nat /\ body_pad (the_page m) = Some 22.
Proof.
  exists [Element; BackdropEl 1; BackdropEl 2; Dialog].
  split; [vm_compute; done|]. split; [vm_compute; done|].
  exists [Element; BackdropEl 2]. vm_compute. done.
Qed.
