(* ===== verification/Collapse.v ===== *)
(** * Collapsible panels of bootstrap ([bootstrap/collapse.js])

    The panels of one group ([data-parent]), each with its trigger, as an accordion
    uses them.  Instances of [Collapse] are numbered, and the data of a panel holds
    the number of its instance; the data can be reset while an instance still has
    work to do.  The end of a transition is a step of its own.  Whether a listener
    prevents an event is an argument of the calls; the sizes set during a
    transition are left out. *)

From S2P Require Import Prelude.

#[local] Open Scope list_scope.

(** ** State *)

(** The classes and attributes of a panel and of its trigger, and [data('bs.collapse')]. *)
Record panel := Panel {
  p_in : bool; p_collapse : bool; p_collapsing : bool; p_aria : bool;
  t_collapsed : bool; t_aria : bool; p_data : option nat }.

(** An instance: its panel, [transitioning], and whether it has a [$parent]. *)
Record instance := Instance { i_panel : nat; i_transitioning : bool; i_parent : bool }.

(** Work that waits for the end of the transition of a panel: the instance, and
    whether it is the [complete] of [show] or of [hide]. *)
Record wait := Wait { w_panel : nat; w_inst : nat; w_show : bool }.

Record panels_group := Group { panels : list panel; insts : list instance; waits : list wait }.

Definition on_panel (i : nat) (f : panel -> panel) (s : panels_group) : panels_group :=
  Group (alter f i (panels s)) (insts s) (waits s).
Definition set_transitioning (k : nat) (b : bool) (s : panels_group) : panels_group :=
  Group (panels s) (alter (fun x => Instance (i_panel x) b (i_parent x)) k (insts s)) (waits s).
Definition set_data (d : option nat) (p : panel) : panel :=
  Panel (p_in p) (p_collapse p) (p_collapsing p) (p_aria p) (t_collapsed p) (t_aria p) d.

Definition has_in (s : panels_group) (i : nat) : bool :=
  match panels s !! i with Some p => p_in p | None => false end.
Definition data (s : panels_group) (i : nat) : option nat := panels s !! i ≫= p_data.
Definition transitioning (s : panels_group) (k : nat) : bool :=
  match insts s !! k with Some x => i_transitioning x | None => false end.

Section collapse.
(** [$.support.transition], and whether a listener prevents an event ([true] is
    [show.bs.collapse], [false] is [hide.bs.collapse]) on a panel. *)
Context (transition : bool) (prevented : bool -> nat -> bool).

Definition addAriaAndCollapsedClass (p : panel) : panel :=
  let isOpen := p_in p in
  Panel (p_in p) (p_collapse p) (p_collapsing p) isOpen (negb isOpen) isOpen (p_data p).

Definition complete_show (i k : nat) (s : panels_group) : panels_group :=
  let s := on_panel i (fun p => Panel true true false (p_aria p) (t_collapsed p) (t_aria p) (p_data p)) s in
  set_transitioning k false s.

Definition complete_hide (i k : nat) (s : panels_group) : panels_group :=
  let s := set_transitioning k false s in
  on_panel i (fun p => Panel (p_in p) true false (p_aria p) (t_collapsed p) (t_aria p) (p_data p)) s.

Definition later (i k : nat) (show : bool) (s : panels_group) : panels_group :=
  Group (panels s) (insts s) (waits s ++ [Wait i k show]).

(** [hide] of instance [k] of panel [i]. *)
Definition hide (i k : nat) (s : panels_group) : panels_group :=
  if transitioning s k || negb (has_in s i) then s
  else if prevented false i then s
  else
    let s := on_panel i (fun p => Panel false false true false true false (p_data p)) s in
    let s := set_transitioning k true s in
    if negb transition then complete_hide i k s else later i k false s.

(** A new instance.  (Its panel gets it as data once the constructor, which may
    toggle the panel, has returned.) *)
Definition new_Collapse (i : nat) (parent : bool) (s : panels_group) : panels_group * nat :=
  let k := length (insts s) in
  let s := Group (panels s) (insts s ++ [Instance i false parent]) (waits s) in
  let s := if parent
           then Group (addAriaAndCollapsedClass <$> panels s) (insts s) (waits s)
           else on_panel i addAriaAndCollapsedClass s in
  (s, k).

(** [Plugin] with ['hide'] on one panel; a new instance has the options of the
    panel only, which has no parent. *)
Definition plugin_hide (i : nat) (s : panels_group) : panels_group :=
  match data s i with
  | Some k => hide i k s
  | None => let '(s, k) := new_Collapse i false s in hide i k (on_panel i (set_data (Some k)) s)
  end.

(** The panels with class [in] or [collapsing]. *)
Definition is_active (s : panels_group) (i : nat) : bool :=
  match panels s !! i with Some p => p_in p || p_collapsing p | None => false end.
Definition actives (s : panels_group) : list nat :=
  filter (fun i => is_active s i = true) (seq 0 (length (panels s))).

Definition show (i k : nat) (s : panels_group) : panels_group :=
  if transitioning s k || has_in s i then s
  else
    let parent := match insts s !! k with Some x => i_parent x | None => false end in
    let act := if parent then actives s else [] in
    let activesData := match act with [] => None | j :: _ => data s j end in
    if match activesData with Some d => transitioning s d | None => false end then s
    else if prevented true i then s
    else
      let s := foldl (fun s j => plugin_hide j s) s act in
      let s := match activesData with
               | Some _ => s
               | None => foldl (fun s j => on_panel j (set_data None) s) s act
               end in
      let s := on_panel i (fun p => Panel (p_in p) false true true false true (p_data p)) s in
      let s := set_transitioning k true s in
      if negb transition then complete_show i k s else later i k true s.

Definition toggle (i k : nat) (s : panels_group) : panels_group :=
  if has_in s i then hide i k s else show i k s.

(** A click on the trigger of a panel, whose data names the parent. *)
Definition click (i : nat) (s : panels_group) : panels_group :=
  match data s i with
  | Some k => toggle i k s
  | None => let '(s, k) := new_Collapse i true s in on_panel i (set_data (Some k)) (toggle i k s)
  end.

(** The end of the transition of a panel. *)
Definition transition_end (i : nat) (s : panels_group) : panels_group :=
  let due := filter (fun w => w_panel w = i) (waits s) in
  let s := Group (panels s) (insts s) (filter (fun w => w_panel w <> i) (waits s)) in
  foldl (fun s w => if w_show w then complete_show i (w_inst w) s else complete_hide i (w_inst w) s) s due.
End collapse.

(** A panel as the page has it at the start. *)
Definition start_panel (is_open : bool) : panel :=
  Panel is_open true false false false false None.
Definition start_group (l : list bool) : panels_group := Group (start_panel <$> l) [] [].

Definition allow (show : bool) (i : nat) : bool := false.
Definition opened (s : panels_group) : list nat := filter (fun i => has_in s i = true) (seq 0 (length (panels s))).

(** The first of three panels is open, the others are clicked one after the other. *)
Example accordion_ex :
  let s := click true allow 1 (start_group [true; false; false]) in
  let s := transition_end 0 (transition_end 1 s) in
  let s := click true allow 2 s in
  opened (transition_end 2 (transition_end 1 s)) = [2%nat].
Proof. vm_compute. reflexivity. Qed.

(** Without waiting for the transition, two panels are open in the end. *)
Example accordion_two :
  let s := click true allow 1 (start_group [true; false; false]) in
  let s := click true allow 2 s in
  let s := transition_end 0 (transition_end 1 (transition_end 2 s)) in
  waits s = [] /\ opened s = [1; 2]%nat.
Proof. vm_compute. done. Qed.
