(* ===== verification/CollapseProps.v ===== *)
(** * An accordion has one open panel

    The clicks of a user who waits for the transitions: at every moment one
    panel at most is open or on its way to be, and it is the one clicked last,
    unless that click closed it. *)

From S2P Require Import Prelude.
From S2P Require Import Collapse.

#[local] Open Scope list_scope.

(** ** The invariant *)

Definition waiting (s : panels_group) (i : nat) : Prop := exists w, w ∈ waits s /\ w_panel w = i.
Definition busy (s : panels_group) (k : nat) : Prop := exists w, w ∈ waits s /\ w_inst w = k.

(** Open, or about to be. *)
Definition opening (s : panels_group) (i : nat) : Prop :=
  has_in s i = true \/ exists w, w ∈ waits s /\ w_panel w = i /\ w_show w = true.

Record inv (s : panels_group) (t : option nat) : Prop := {
  inv_open : forall i, opening s i <-> t = Some i;
  inv_panel : forall i p, panels s !! i = Some p ->
    (p_collapsing p = true <-> waiting s i) /\ (p_in p = true -> p_collapsing p = false) /\
    p_collapse p = negb (p_collapsing p);
  inv_inst : forall k, transitioning s k = true <-> busy s k;
  inv_range : forall w, w ∈ waits s -> (w_panel w < length (panels s))%nat /\ (w_inst w < length (insts s))%nat;
  inv_once : NoDup (w_panel <$> waits s) /\ NoDup (w_inst <$> waits s);
}.

(** The instance a panel has as data is its own, and knows the parent. *)
Definition data_ok (s : panels_group) : Prop :=
  forall i k, data s i = Some k -> exists b, insts s !! k = Some (Instance i b true).

(** Nothing moves. *)
Lemma rest_waiting s i : waits s = [] -> ~ waiting s i.
Proof. intros E (w & H & _). rewrite E in H. by apply elem_of_nil in H. Qed.

Lemma rest_busy s k : waits s = [] -> ~ busy s k.
Proof. intros E (w & H & _). rewrite E in H. by apply elem_of_nil in H. Qed.

Lemma rest_transitioning s t k : inv s t -> waits s = [] -> transitioning s k = false.
Proof.
  intros Hs Hw. destruct (transitioning s k) eqn:E; [|done].
  apply (inv_inst _ _ Hs) in E. by apply rest_busy in E.
Qed.

(** ** Changes that matter to none of it *)

Lemma panel_alter i f s j :
  panels (on_panel i f s) !! j = if decide (i = j) then f <$> panels s !! j else panels s !! j.
Proof.
  unfold on_panel. simpl. destruct (decide (i = j)) as [->|];
    [by rewrite list_lookup_alter_eq|by rewrite list_lookup_alter_ne].
Qed.

Lemma has_in_set_data i d s j : has_in (on_panel i (set_data d) s) j = has_in s j.
Proof. unfold has_in. rewrite panel_alter. by destruct (decide _), (panels s !! j). Qed.

Lemma inv_set_data i d s t : inv s t -> inv (on_panel i (set_data d) s) t.
Proof.
  intros [Ho Hp Hi Hr Hn]. split; try done.
  - intros j. rewrite <- Ho. unfold opening. by rewrite has_in_set_data.
  - intros j p. rewrite panel_alter. destruct (decide (i = j)); [|apply Hp].
    destruct (panels s !! j) as [p'|] eqn:E; [|done]. intros E2. simplify_eq/=. apply (Hp _ _ E).
  - intros w Hw. simpl. rewrite length_alter. by apply Hr.
Qed.

Lemma transitioning_set k b s j :
  transitioning (set_transitioning k b s) j
  = if decide (k = j /\ (k < length (insts s))%nat) then b else transitioning s j.
Proof.
  unfold transitioning, set_transitioning. simpl. destruct (decide (k = j)) as [->|Hne].
  - rewrite list_lookup_alter_eq. destruct (insts s !! j) eqn:E; simpl.
    + rewrite decide_True; [done|]. split; [done|]. by eapply lookup_lt_Some.
    + rewrite decide_False; [done|]. intros [_ H]. apply lookup_ge_None in E. lia.
  - rewrite list_lookup_alter_ne by done. rewrite decide_False; [done|]. tauto.
Qed.

(** ** A transition begins *)

(** The panel [i] loses its class [in] and starts to collapse, or starts to show. *)
Definition begin (i k : nat) (b : bool) (f : panel -> panel) (s : panels_group) : panels_group :=
  later i k b (set_transitioning k true (on_panel i f s)).

Definition moving (f : panel -> panel) : Prop :=
  forall p, p_in (f p) = false /\ p_collapsing (f p) = true /\ p_collapse (f p) = false.

Lemma begin_inv i k b f s t :
  inv s t -> moving f -> (i < length (panels s))%nat -> (k < length (insts s))%nat ->
  ~ waiting s i -> ~ busy s k ->
  (t = None \/ t = Some i) ->
  inv (begin i k b f s) (if b then Some i else None).
Proof.
  intros [Ho Hp Hi Hr Hn] Hf Hi' Hk Hw Hb Ht.
  assert (forall j, has_in (begin i k b f s) j = if decide (i = j) then false else has_in s j) as Hin.
  { intros j. unfold has_in. change (panels (begin i k b f s)) with (panels (on_panel i f s)).
    rewrite panel_alter. destruct (decide (i = j)); [|done].
    destruct (panels s !! j); [apply Hf|done]. }
  assert (forall w, w ∈ waits (begin i k b f s) <-> w ∈ waits s \/ w = Wait i k b) as Hws.
  { intros w. simpl. by rewrite elem_of_app, list_elem_of_singleton. }
  split.
  - intros j. unfold opening. rewrite Hin. setoid_rewrite Hws.
    assert (opening s j <-> t = Some j) as Hoj by apply Ho. unfold opening in Hoj.
    destruct (decide (i = j)) as [->|Hne].
    + split.
      * intros [|(w & [Hw'| ->] & Hwi & Hsh)]; [done| |simpl in Hsh; by rewrite Hsh].
        exfalso. apply Hw. by exists w.
      * destruct b; [|done]. intros _. right. exists (Wait j k true). auto.
    + assert (t <> Some j) as Htj by (destruct Ht as [-> | ->]; congruence).
      split.
      * intros [H|(w & [Hw'| ->] & Hwi & Hsh)]; [|exfalso; apply Htj, Hoj; eauto|simpl in *; congruence].
        exfalso. apply Htj, Hoj. by left.
      * destruct b; intros; congruence.
  - intros j p Hj. change (panels (begin i k b f s)) with (panels (on_panel i f s)) in Hj.
    rewrite panel_alter in Hj. unfold waiting. setoid_rewrite Hws. destruct (decide (i = j)) as [->|Hne].
    + destruct (panels s !! j) as [p'|] eqn:E; [|done]. simplify_eq/=. destruct (Hf p') as (Hf1 & Hf2 & Hf3).
      rewrite Hf1, Hf2, Hf3. split_and!; try done. split; [|done]. intros _.
      exists (Wait j k b). auto.
    + destruct (Hp j p Hj) as (H1 & H2 & H3). split; [|done]. rewrite H1. unfold waiting. split.
      * intros (w & Hw' & Hwj). exists w. auto.
      * intros (w & [Hw'| ->] & Hwj); [by exists w|simpl in Hwj; congruence].
  - intros j. unfold busy. setoid_rewrite Hws.
    change (transitioning (begin i k b f s) j) with (transitioning (set_transitioning k true (on_panel i f s)) j).
    rewrite transitioning_set. simpl. destruct (decide (k = j /\ _)) as [[-> _]|Hne].
    + split; [|done]. intros _. exists (Wait i j b). auto.
    + change (transitioning (on_panel i f s) j) with (transitioning s j). rewrite Hi. unfold busy. split.
      * intros (w & Hw' & Hwj). exists w. auto.
      * intros (w & [Hw'| ->] & Hwj); [by exists w|]. simpl in Hwj. exfalso. apply Hne. auto.
  - intros w Hw'. apply Hws in Hw'. simpl. rewrite !length_alter.
    destruct Hw' as [Hw'| ->]; [by apply Hr|done].
  - destruct Hn as [Hn1 Hn2]. simpl. rewrite !fmap_app. simpl. split; apply NoDup_app; split_and!; try done;
      try (apply NoDup_singleton).
    + intros x Hx Hx'. apply list_elem_of_singleton in Hx'. subst x. apply Hw.
      apply list_elem_of_fmap in Hx as (w & -> & Hw'). by exists w.
    + intros x Hx Hx'. apply list_elem_of_singleton in Hx'. subst x. apply Hb.
      apply list_elem_of_fmap in Hx as (w & -> & Hw'). by exists w.
Qed.

(** ** A transition ends *)

Definition complete (w : wait) (s : panels_group) : panels_group :=
  if w_show w then complete_show (w_panel w) (w_inst w) s else complete_hide (w_panel w) (w_inst w) s.

Definition without (i : nat) (s : panels_group) : panels_group :=
  Group (panels s) (insts s) (filter (fun w => w_panel w <> i) (waits s)).

Lemma due_none i l : (forall w, w ∈ l -> w_panel w <> i) -> filter (fun w => w_panel w = i) l = [].
Proof.
  intros H. destruct (filter (fun w => w_panel w = i) l) as [|w r] eqn:E; [done|].
  assert (w ∈ filter (fun w => w_panel w = i) l) as Hw by (rewrite E; left).
  apply list_elem_of_filter in Hw as [Hi Hw]. by apply H in Hw.
Qed.

Lemma due_one w l : NoDup (w_panel <$> l) -> w ∈ l -> filter (fun x => w_panel x = w_panel w) l = [w].
Proof.
  induction l as [|x l IH]; intros Hn Hw; [by apply elem_of_nil in Hw|].
  simpl in Hn. apply NoDup_cons in Hn as [Hx Hn]. apply elem_of_cons in Hw as [<-|Hw].
  - rewrite filter_cons_True by done. f_equal. apply due_none. intros y Hy Heq.
    apply Hx, list_elem_of_fmap. by exists y.
  - rewrite filter_cons_False; [by apply IH|]. intros Heq. apply Hx, list_elem_of_fmap. by exists w.
Qed.

Lemma end_idle i s : ~ waiting s i -> transition_end i s = without i s.
Proof.
  intros H. unfold transition_end. rewrite due_none; [done|]. intros w Hw Hi. apply H. by exists w.
Qed.

Lemma end_wait w s : NoDup (w_panel <$> waits s) -> w ∈ waits s ->
  transition_end (w_panel w) s = complete w (without (w_panel w) s).
Proof. intros Hn Hw. unfold transition_end. by rewrite (due_one w). Qed.

Lemma elem_of_without i s w : w ∈ waits (without i s) <-> w ∈ waits s /\ w_panel w <> i.
Proof. simpl. rewrite list_elem_of_filter. tauto. Qed.

Lemma without_idle i s : ~ waiting s i -> without i s = s.
Proof.
  intros H. unfold without. destruct s as [ps xs ws]. simpl in *. f_equal.
  assert (forall l : list wait, (forall w, w ∈ l -> w_panel w <> i) -> filter (fun w => w_panel w <> i) l = l) as G.
  { induction l as [|x l IH]; intros Hl; [done|]. rewrite filter_cons_True.
    - f_equal. apply IH. intros w Hw. apply Hl. by right.
    - apply Hl. left. }
  apply G. intros w Hw Hi. apply H. by exists w.
Qed.

(** The panel of a finished transition. *)
Lemma complete_panels w s j :
  panels (complete w s) !! j =
    if decide (w_panel w = j)
    then (fun p => Panel (if w_show w then true else p_in p) true false (p_aria p) (t_collapsed p)
                     (t_aria p) (p_data p)) <$> panels s !! j
    else panels s !! j.
Proof.
  unfold complete, complete_show, complete_hide. destruct (w_show w); simpl.
  - apply (panel_alter (w_panel w) _ s).
  - apply (panel_alter (w_panel w) _ (set_transitioning (w_inst w) false s)).
Qed.

Lemma complete_insts w s : insts (complete w s) = insts (set_transitioning (w_inst w) false s).
Proof. unfold complete, complete_show, complete_hide. by destruct (w_show w). Qed.

Lemma complete_waits w s : waits (complete w s) = waits s.
Proof. unfold complete, complete_show, complete_hide. by destruct (w_show w). Qed.

Lemma NoDup_fmap_eq {A B} (f : A -> B) l x y :
  NoDup (f <$> l) -> x ∈ l -> y ∈ l -> f x = f y -> x = y.
Proof.
  intros Hn Hx Hy Hf. apply list_elem_of_lookup in Hx as [a Ha], Hy as [b Hb].
  assert (a = b) as ->; [|congruence]. eapply NoDup_lookup; [exact Hn|..];
    rewrite list_lookup_fmap; [by rewrite Ha; simpl; rewrite Hf|by rewrite Hb].
Qed.

Lemma end_inv i s t : inv s t -> inv (transition_end i s) t.
Proof.
  intros H. destruct (decide (Exists (fun w => w_panel w = i) (waits s))) as [He|He].
  2: { rewrite end_idle, without_idle; [done|..]; intros (w & Hw & Hi); apply He, Exists_exists; by exists w. }
  apply Exists_exists in He as (w & Hw & <-).
  destruct H as [Ho Hp Hi Hr [Hn1 Hn2]]. rewrite end_wait by done.
  set (s1 := without (w_panel w) s).
  assert (forall v, v ∈ waits (complete w s1) <-> v ∈ waits s /\ w_panel v <> w_panel w) as Hws.
  { intros v. rewrite complete_waits. apply elem_of_without. }
  pose proof (fun v => NoDup_fmap_eq w_inst (waits s) v w Hn2) as Huniq.
  pose proof (fun v => NoDup_fmap_eq w_panel (waits s) v w Hn1) as Huniqp.
  destruct (Hr w Hw) as [Hrange Hrangei].
  destruct (lookup_lt_is_Some_2 _ _ Hrange) as [p0 Hp0].
  destruct (Hp _ _ Hp0) as (Hcol & Hincol & _).
  assert (p_in p0 = false) as Hp0in.
  { destruct (p_in p0) eqn:E; [|done]. rewrite (proj2 Hcol) in Hincol by (by exists w).
    by specialize (Hincol eq_refl). }
  split.
  - intros j. rewrite <- Ho. unfold opening. setoid_rewrite Hws. unfold has_in. rewrite complete_panels.
    change (panels s1) with (panels s). destruct (decide (w_panel w = j)) as [<-|Hne].
    + rewrite Hp0. simpl. rewrite Hp0in. destruct (w_show w) eqn:Ew.
      * split; [intros _; right; by exists w|by left].
      * split; [intros [|(v & [_ ?] & ? & _)]; done|].
        intros [|(v & Hv & Hvp & Hvs)]; [done|]. rewrite (Huniqp v Hv Hw Hvp) in Hvs. congruence.
    + split; (intros [|(v & Hv & Hvp & Hvs)]; [by left|right; exists v; naive_solver]).
  - intros j p. rewrite complete_panels. change (panels s1) with (panels s). unfold waiting.
    setoid_rewrite Hws. destruct (decide (w_panel w = j)) as [<-|Hne].
    + rewrite Hp0. intros E. simplify_eq/=. split_and!; try done. split; [done|].
      intros (v & [_ Hv] & Hvp). done.
    + intros Hj. destruct (Hp j p Hj) as (H1 & H2 & H3). split; [|done]. rewrite H1. unfold waiting.
      split; intros (v & Hv & Hvp); exists v; naive_solver.
  - intros k. unfold busy. setoid_rewrite Hws.
    assert (transitioning (complete w s1) k = transitioning (set_transitioning (w_inst w) false s) k) as ->
      by (unfold transitioning; by rewrite complete_insts).
    rewrite transitioning_set. destruct (decide (w_inst w = k /\ _)) as [[<- _]|Hne].
    + split; [done|]. intros (v & [Hv Hvp] & Hvi). by rewrite (Huniq v Hv Hw Hvi) in Hvp.
    + rewrite Hi. unfold busy. split; intros (v & Hv & Hvk); exists v; [|naive_solver].
      split; [|done]. split; [done|]. intros Hvp. rewrite (Huniqp v Hv Hw Hvp) in Hvk. naive_solver.
  - intros v Hv. apply Hws in Hv as [Hv _].
    assert (length (panels (complete w s1)) = length (panels s)) as ->
      by (unfold complete, complete_show, complete_hide; destruct (w_show w); simpl; by rewrite length_alter).
    rewrite complete_insts. simpl. rewrite length_alter. by apply Hr.
  - rewrite complete_waits. simpl. split;
      [apply (sublist_NoDup _ _ Hn1)|apply (sublist_NoDup _ _ Hn2)]; apply fmap_sublist, sublist_filter.
Qed.

(** ** A click while nothing moves *)

(** What the instances are is not changed, nor whose they are. *)
Definition keeps (s s' : panels_group) : Prop :=
  length (panels s') = length (panels s) /\
  forall k x, insts s !! k = Some x ->
    exists b, insts s' !! k = Some (Instance (i_panel x) b (i_parent x)).

Lemma keeps_trans s1 s2 s3 : keeps s1 s2 -> keeps s2 s3 -> keeps s1 s3.
Proof.
  intros [L1 H1] [L2 H2]. split; [congruence|]. intros k x Hx.
  destruct (H1 k x Hx) as [b Hb]. destruct (H2 k _ Hb) as [b' Hb']. by exists b'.
Qed.

Lemma keeps_on_panel i f s : keeps s (on_panel i f s).
Proof. split; [apply length_alter|]. intros k x Hx. exists (i_transitioning x). by destruct x. Qed.

Lemma keeps_transitioning k b s : keeps s (set_transitioning k b s).
Proof.
  split; [done|]. intros j x Hx. simpl. destruct (decide (k = j)) as [->|].
  - exists b. by rewrite list_lookup_alter_eq, Hx.
  - exists (i_transitioning x). rewrite list_lookup_alter_ne, Hx by done. by destruct x.
Qed.

Lemma keeps_waits s ps xs ws ws' : s = Group ps xs ws -> keeps s (Group ps xs ws').
Proof. intros ->. split; [done|]. intros k x Hx. exists (i_transitioning x). by destruct x. Qed.

Lemma keeps_complete w s : keeps s (complete w s).
Proof.
  unfold complete, complete_show, complete_hide. destruct (w_show w).
  - eapply keeps_trans; [apply keeps_on_panel|apply keeps_transitioning].
  - eapply keeps_trans; [apply keeps_transitioning|apply keeps_on_panel].
Qed.

Lemma data_panel i f s j : (forall p, p_data (f p) = p_data p) -> data (on_panel i f s) j = data s j.
Proof.
  intros Hf. unfold data. rewrite panel_alter. destruct (decide (i = j)); [|done].
  destruct (panels s !! j); simpl; [apply Hf|done].
Qed.

Lemma data_set i d s j : (i < length (panels s))%nat ->
  data (on_panel i (set_data d) s) j = if decide (i = j) then d else data s j.
Proof.
  intros Hi. unfold data. rewrite panel_alter. destruct (decide (i = j)) as [->|]; [|done].
  destruct (lookup_lt_is_Some_2 _ _ Hi) as [p ->]. done.
Qed.

(** The code of [show] and [hide] from the guards on, with transitions or without. *)
Definition run_move (transition : bool) (i k : nat) (b : bool) (f : panel -> panel) (s : panels_group) : panels_group :=
  if negb transition then complete (Wait i k b) (set_transitioning k true (on_panel i f s))
  else begin i k b f s.

Lemma without_begin i k b f s : ~ waiting s i ->
  without i (begin i k b f s) = set_transitioning k true (on_panel i f s).
Proof.
  intros H. unfold without. simpl. unfold set_transitioning, on_panel. simpl. f_equal.
  rewrite filter_app, filter_cons_False, filter_nil, app_nil_r by (simpl; auto).
  pose proof (without_idle i s H) as E. unfold without in E. destruct s. by injection E.
Qed.

Lemma run_move_inv transition i k b f s t :
  inv s t -> moving f -> (forall p, p_data (f p) = p_data p) ->
  (i < length (panels s))%nat -> (k < length (insts s))%nat ->
  waits s = [] \/ (~ waiting s i /\ ~ busy s k) -> (t = None \/ t = Some i) ->
  inv (run_move transition i k b f s) (if b then Some i else None) /\
  keeps s (run_move transition i k b f s) /\
  (forall j, data (run_move transition i k b f s) j = data s j) /\
  (forall w, w ∈ waits (run_move transition i k b f s) -> w ∈ waits s \/ w = Wait i k b).
Proof.
  intros Hs Hf Hd Hi Hk Hfree Ht.
  assert (~ waiting s i /\ ~ busy s k) as [Hw Hb].
  { destruct Hfree as [E|]; [|done]. split; [by apply rest_waiting|by apply rest_busy]. }
  pose proof (begin_inv i k b f s t Hs Hf Hi Hk Hw Hb Ht) as Hbegin.
  assert (keeps s (set_transitioning k true (on_panel i f s))) as Hkeep
    by (eapply keeps_trans; [apply keeps_on_panel|apply keeps_transitioning]).
  unfold run_move. destruct transition; simpl.
  - split_and!; [done|..].
    + eapply keeps_trans; [exact Hkeep|]. by eapply keeps_waits.
    + intros j. by apply (data_panel i f s).
    + intros w. simpl. rewrite elem_of_app, list_elem_of_singleton. done.
  - pose proof (end_inv i _ _ Hbegin) as Hend.
    change i with (w_panel (Wait i k b)) in Hend at 1.
    rewrite end_wait in Hend; [|apply Hbegin|simpl; apply elem_of_app; right; by left].
    change (w_panel (Wait i k b)) with i in Hend. rewrite without_begin in Hend by done.
    split_and!; [done|..].
    + eapply keeps_trans; [exact Hkeep|apply keeps_complete].
    + intros j. transitivity (data (set_transitioning k true (on_panel i f s)) j).
      * unfold data at 1. rewrite complete_panels. cbn [w_panel]. unfold data.
        destruct (decide (i = j)) as [->|]; [|done]. by destruct (_ !! j).
      * by apply (data_panel i f s).
    + intros w. rewrite complete_waits. by left.
Qed.

Section click.
Context (transition : bool) (prevented : bool -> nat -> bool).
Context (Hallowed : forall i, prevented false i = false).

Lemma has_in_open s t i : inv s t -> ~ waiting s i -> has_in s i = true <-> t = Some i.
Proof.
  intros Hs Hw. rewrite <- (inv_open _ _ Hs). unfold opening. split; [by left|].
  intros [|(w & H & Hi & _)]; [done|]. exfalso. apply Hw. by exists w.
Qed.

Lemma hide_inv j k s : inv s (Some j) -> waits s = [] -> (k < length (insts s))%nat ->
  inv (hide transition prevented j k s) None /\ keeps s (hide transition prevented j k s) /\
  (forall i, data (hide transition prevented j k s) i = data s i) /\
  (forall w, w ∈ waits (hide transition prevented j k s) -> w = Wait j k false).
Proof.
  intros Hs Hw Hk.
  assert (~ waiting s j) as Hj by (by apply rest_waiting).
  assert (has_in s j = true) as Hin by (by apply (has_in_open s (Some j))).
  assert (transitioning s k = false) as Ht by (by eapply rest_transitioning).
  assert (j < length (panels s))%nat as Hlt.
  { unfold has_in in Hin. destruct (panels s !! j) eqn:E; [|done]. by eapply lookup_lt_Some. }
  unfold hide. rewrite Ht, Hin, Hallowed. cbn [negb orb].
  destruct (run_move_inv transition j k false (fun p => Panel false false true false true false (p_data p))
    s (Some j) Hs ltac:(done) ltac:(done) Hlt Hk (or_introl Hw) (or_intror eq_refl)) as (H1 & H2 & H3 & H4).
  split; [exact H1|]. split; [exact H2|]. split; [exact H3|].
  intros w H. destruct (H4 w H) as [H'|]; [|done]. rewrite Hw in H'. by apply elem_of_nil in H'.
Qed.

Lemma new_Collapse_inv i parent s t : inv s t -> waits s = [] ->
  inv (new_Collapse i parent s).1 t /\ waits (new_Collapse i parent s).1 = [] /\
  keeps s (new_Collapse i parent s).1 /\
  insts (new_Collapse i parent s).1 = insts s ++ [Instance i false parent] /\
  (forall j, data (new_Collapse i parent s).1 j = data s j).
Proof.
  intros Hs Hw. set (s' := (new_Collapse i parent s).1).
  assert (forall j, exists a b c, panels s' !! j =
    (fun p => Panel (p_in p) (p_collapse p) (p_collapsing p) (a p) (b p) (c p) (p_data p)) <$> panels s !! j) as Hp.
  { intros j. subst s'. unfold new_Collapse. destruct parent; simpl.
    - exists p_in, (fun p => negb (p_in p)), p_in. by rewrite list_lookup_fmap.
    - destruct (decide (i = j)) as [->|].
      + exists p_in, (fun p => negb (p_in p)), p_in. by rewrite list_lookup_alter_eq.
      + exists p_aria, t_collapsed, t_aria. rewrite list_lookup_alter_ne by done.
        destruct (panels s !! j) as [[]|]; done. }
  assert (waits s' = []) as Hw' by (subst s'; unfold new_Collapse; by destruct parent).
  assert (insts s' = insts s ++ [Instance i false parent]) as Hi'
    by (subst s'; unfold new_Collapse; by destruct parent).
  assert (length (panels s') = length (panels s)) as Hl'.
  { subst s'. unfold new_Collapse. destruct parent; simpl; [apply length_fmap|apply length_alter]. }
  assert (forall j, data s' j = data s j) as Hd'.
  { intros j. unfold data. destruct (Hp j) as (a & b & c & ->). by destruct (panels s !! j). }
  split_and!; try done.
  - destruct Hs as [Ho Hpan Hinst Hr Hn]. split.
    + intros j. rewrite <- Ho. unfold opening, has_in. rewrite Hw, Hw'.
      destruct (Hp j) as (a & b & c & ->). by destruct (panels s !! j).
    + intros j p Hj. destruct (Hp j) as (a & b & c & E). rewrite E in Hj.
      destruct (panels s !! j) as [p'|] eqn:Ej; [|done]. simplify_eq/=.
      unfold waiting. rewrite Hw'. destruct (Hpan j p' Ej) as (H1 & H2 & H3).
      unfold waiting in H1. rewrite Hw in H1. done.
    + intros k. unfold busy, transitioning. rewrite Hw', Hi'. specialize (Hinst k).
      unfold busy, transitioning in Hinst. rewrite Hw in Hinst. rewrite <- Hinst.
      destruct (decide (k < length (insts s))%nat).
      * by rewrite lookup_app_l by done.
      * rewrite lookup_app_r, (lookup_ge_None_2 (insts s)) by lia.
        by destruct (k - length (insts s))%nat as [|[]].
    + rewrite Hw'. intros w H. by apply elem_of_nil in H.
    + rewrite Hw'. split; constructor.
  - split; [done|]. intros k x Hx. exists (i_transitioning x). rewrite Hi'.
    rewrite lookup_app_l by (by eapply lookup_lt_Some). rewrite Hx. by destruct x.
Qed.

Lemma actives_rest s t : inv s t -> waits s = [] ->
  actives s = match t with Some j => [j] | None => [] end.
Proof.
  intros Hs Hw.
  assert (forall i, ~ waiting s i) as Hno by (intros i; by apply rest_waiting).
  assert (forall i, is_active s i = true <-> t = Some i) as Ha.
  { intros i. rewrite <- (has_in_open s t i Hs (Hno i)). unfold is_active, has_in.
    destruct (panels s !! i) as [p|] eqn:E; [|done].
    destruct (inv_panel _ _ Hs i p E) as (Hc & _ & _).
    destruct (p_collapsing p); [exfalso; by apply (Hno i), Hc|]. by rewrite orb_false_r. }
  unfold actives. destruct t as [j|].
  - apply filter_unique; [apply NoDup_seq| |intros i; rewrite Ha; naive_solver].
    apply elem_of_seq. assert (is_active s j = true) as Hj by (by apply Ha).
    unfold is_active in Hj. destruct (panels s !! j) eqn:E; [|done]. apply lookup_lt_Some in E. lia.
  - destruct (filter _ _) as [|i r] eqn:E; [done|]. exfalso.
    assert (i ∈ filter (fun i => is_active s i = true) (seq 0 (length (panels s)))) as Hi by (rewrite E; left).
    apply list_elem_of_filter in Hi as [Hi _]. by apply Ha in Hi.
Qed.

Lemma plugin_hide_inv j s : inv s (Some j) -> waits s = [] -> data_ok s -> (j < length (panels s))%nat ->
  let s' := plugin_hide transition prevented j s in
  inv s' None /\ keeps s s' /\ (forall i, i <> j -> data s' i = data s i) /\
  (data s j <> None -> data s' j = data s j) /\
  (forall w, w ∈ waits s' -> w_panel w = j /\
     (data s j = Some (w_inst w) \/ w_inst w = length (insts s))).
Proof.
  intros Hs Hw Hd Hj. unfold plugin_hide. destruct (data s j) as [d|] eqn:Ed.
  - destruct (Hd j d Ed) as [b Hb]. apply lookup_lt_Some in Hb.
    destruct (hide_inv j d s Hs Hw Hb) as (H1 & H2 & H3 & H4). cbn zeta.
    split_and!; try done; [intros _; by rewrite H3|].
    intros w Hw'. rewrite (H4 w Hw'). simpl. auto.
  - destruct (new_Collapse_inv j false s (Some j) Hs Hw) as (H1 & H2 & H3 & H4 & H5).
    destruct (new_Collapse j false s) as [s1 k] eqn:En. cbn [fst] in *.
    assert (k = length (insts s)) as -> by (unfold new_Collapse in En; by simplify_eq).
    set (s2 := on_panel j (set_data (Some (length (insts s)))) s1).
    destruct (hide_inv j (length (insts s)) s2) as (K1 & K2 & K3 & K4).
    + by apply inv_set_data.
    + done.
    + simpl. rewrite H4, length_app. simpl. lia.
    + cbn zeta. split_and!; try done.
      * eapply keeps_trans; [exact H3|]. eapply keeps_trans; [apply keeps_on_panel|exact K2].
      * intros i Hi. rewrite K3. unfold s2. rewrite data_set by (destruct H3 as [-> _]; done).
        rewrite decide_False by done. apply H5.
      * intros w Hw'. rewrite (K4 w Hw'). simpl. auto.
Qed.

(** The data left are those there were. *)
Definition less_data (s s' : panels_group) : Prop := forall i k, data s' i = Some k -> data s i = Some k.

Lemma data_ok_less s s' : data_ok s -> keeps s s' -> less_data s s' -> data_ok s'.
Proof.
  intros Hd [_ Hk] Hl i k Hi. destruct (Hd i k (Hl i k Hi)) as [b Hb].
  destruct (Hk k _ Hb) as [b' Hb']. by exists b'.
Qed.

(** The others are hidden: nothing is open, and neither panel [i] nor its instance
    [k] is at work. *)
Lemma hide_others i k s t : inv s t -> waits s = [] -> data_ok s -> t <> Some i ->
  insts s !! k = Some (Instance i false true) ->
  let act := match t with Some j => [j] | None => [] end in
  let activesData := match act with [] => None | j :: _ => data s j end in
  let s1 := foldl (fun s j => plugin_hide transition prevented j s) s act in
  let s2 := match activesData with
            | Some _ => s1
            | None => foldl (fun s j => on_panel j (set_data None) s) s1 act
            end in
  inv s2 None /\ keeps s s2 /\ less_data s s2 /\ ~ waiting s2 i /\ ~ busy s2 k.
Proof.
  intros Hs Hw Hd Ht Hk. destruct t as [j|]; cbn [foldl].
  - assert (j <> i) as Hji by congruence.
    assert (j < length (panels s))%nat as Hj.
    { assert (has_in s j = true) as H.
      { apply (has_in_open s (Some j)); [done|by apply rest_waiting|done]. }
      unfold has_in in H. destruct (panels s !! j) eqn:E; [|done]. by eapply lookup_lt_Some. }
    destruct (plugin_hide_inv j s Hs Hw Hd Hj) as (H1 & H2 & H3 & H4 & H5).
    set (s1 := plugin_hide transition prevented j s) in *.
    assert (~ waiting s1 i) as Hwi by (intros (w & H & E); destruct (H5 w H); congruence).
    assert (~ busy s1 k) as Hbk.
    { intros (w & H & E). destruct (H5 w H) as [_ [E2|E2]].
      - destruct (Hd j _ E2) as [b Hb]. rewrite E, Hk in Hb. congruence.
      - apply lookup_lt_Some in Hk. lia. }
    destruct (data s j) as [d|] eqn:Ed; cbn zeta; split_and!; try done.
    + intros l c Hl. destruct (decide (l = j)) as [->|]; [rewrite H4 in Hl by done; congruence|].
      by rewrite H3 in Hl.
    + by apply inv_set_data.
    + eapply keeps_trans; [exact H2|apply keeps_on_panel].
    + intros l c. rewrite data_set by (destruct H2 as [-> _]; done).
      destruct (decide (j = l)); [done|]. by rewrite H3.
  - cbn zeta. split_and!; try done.
    + split; [done|]. intros c x Hx. exists (i_transitioning x). by destruct x.
    + by intros l c.
    + by apply rest_waiting.
    + by apply rest_busy.
Qed.

Lemma show_inv i k s t : inv s t -> waits s = [] -> data_ok s -> t <> Some i ->
  (i < length (panels s))%nat -> insts s !! k = Some (Instance i false true) ->
  let s' := show transition prevented i k s in
  inv s' (if prevented true i then t else Some i) /\ keeps s s' /\ less_data s s'.
Proof.
  intros Hs Hw Hd Ht Hi Hk. unfold show.
  assert (forall j, ~ waiting s j) as Hno by (intros j; by apply rest_waiting).
  assert (forall d, transitioning s d = false) as Htr by (intros d; by eapply rest_transitioning).
  assert (has_in s i = false) as Hin.
  { destruct (has_in s i) eqn:E; [|done]. by apply (has_in_open s t) in E. }
  rewrite Htr, Hin. cbn [orb]. rewrite Hk. cbn [i_parent]. rewrite (actives_rest s t Hs Hw).
  pose proof (hide_others i k s t Hs Hw Hd Ht Hk) as H. cbv zeta in H |- *.
  assert (keeps s s) as Hrefl.
  { split; [done|]. intros c x Hx. exists (i_transitioning x). by destruct x. }
  destruct (match _ with Some d => transitioning s d | None => false end) eqn:E.
  { destruct (match t with Some j => [j] | None => [] end); [done|]. destruct (data s n); [|done].
    congruence. }
  clear E. destruct (prevented true i); [split_and!; [done|done|by intros l c]|].
  destruct H as (H1 & H2 & H3 & H4 & H5).
  match goal with |- context [on_panel i _ ?x] => set (s2 := x) in * end.
  assert (forall j, has_in s2 j = false) as Hclosed.
  { intros j. destruct (has_in s2 j) eqn:E; [|done].
    assert (opening s2 j) as Ho by (by left). by apply (inv_open _ _ H1) in Ho. }
  assert (on_panel i (fun p => Panel (p_in p) false true true false true (p_data p)) s2
    = on_panel i (fun p => Panel false false true true false true (p_data p)) s2) as ->.
  { unfold on_panel. f_equal. apply list_alter_ext; [|done]. intros p Hp. specialize (Hclosed i).
    unfold has_in in Hclosed. rewrite Hp in Hclosed. by rewrite Hclosed. }
  destruct (run_move_inv transition i k true (fun p => Panel false false true true false true (p_data p))
    s2 None) as (K1 & K2 & K3 & _); try done.
  - destruct H2 as [-> _]. done.
  - destruct H2 as [_ H2]. destruct (H2 k _ Hk) as [b Hb]. by eapply lookup_lt_Some.
  - by right.
  - by left.
  - split; [exact K1|]. split; [exact (keeps_trans _ _ _ H2 K2)|].
    intros l c Hl. apply H3. by rewrite <- K3.
Qed.

Lemma toggle_inv i k s t : inv s t -> waits s = [] -> data_ok s ->
  (i < length (panels s))%nat -> insts s !! k = Some (Instance i false true) ->
  let s' := toggle transition prevented i k s in
  inv s' (if decide (t = Some i) then None else if prevented true i then t else Some i) /\
  keeps s s' /\ less_data s s'.
Proof.
  intros Hs Hw Hd Hi Hk. unfold toggle.
  assert (~ waiting s i) as Hno by (by apply rest_waiting).
  pose proof (has_in_open s t i Hs Hno) as Hin. destruct (decide (t = Some i)) as [->|Hne].
  - rewrite (proj2 Hin) by done. apply lookup_lt_Some in Hk.
    destruct (hide_inv i k s Hs Hw Hk) as (H1 & H2 & H3 & _). split_and!; [done|done|].
    intros l c Hl. by rewrite <- H3.
  - destruct (has_in s i) eqn:E; [exfalso; by apply Hne, Hin|]. by apply show_inv.
Qed.

Lemma click_inv i s t : inv s t -> waits s = [] -> data_ok s -> (i < length (panels s))%nat ->
  let s' := click transition prevented i s in
  inv s' (if decide (t = Some i) then None else if prevented true i then t else Some i) /\
  data_ok s' /\ length (panels s') = length (panels s).
Proof.
  intros Hs Hw Hd Hi. unfold click. destruct (data s i) as [k|] eqn:Ed.
  - destruct (Hd i k Ed) as [b Hb].
    assert (b = false) as ->.
    { pose proof (rest_transitioning s t k Hs Hw) as H. unfold transitioning in H. by rewrite Hb in H. }
    destruct (toggle_inv i k s t Hs Hw Hd Hi Hb) as (H1 & H2 & H3).
    split_and!; [done|by eapply data_ok_less|apply H2].
  - destruct (new_Collapse_inv i true s t Hs Hw) as (H1 & H2 & H3 & H4 & H5).
    destruct (new_Collapse i true s) as [s1 k] eqn:En. cbn [fst] in *.
    assert (k = length (insts s)) as -> by (unfold new_Collapse in En; by simplify_eq).
    assert (less_data s s1) as Hless by (intros l c; by rewrite H5).
    assert (insts s1 !! length (insts s) = Some (Instance i false true)) as Hk
      by (rewrite H4, lookup_app_r, Nat.sub_diag by lia; done).
    assert (i < length (panels s1))%nat as Hi1 by (destruct H3 as [-> _]; done).
    pose proof (data_ok_less s s1 Hd H3 Hless) as Hd1.
    destruct (toggle_inv i (length (insts s)) s1 t H1 H2 Hd1 Hi1 Hk) as (K1 & K2 & K3).
    split_and!.
    + by apply inv_set_data.
    + intros l c. rewrite data_set by (destruct K2 as [-> _]; done).
      destruct (decide (i = l)) as [->|].
      * intros E. simplify_eq/=. destruct K2 as [_ K2]. destruct (K2 _ _ Hk) as [b Hb]. by exists b.
      * apply (data_ok_less s1 _ Hd1 K2 K3).
    + simpl. rewrite length_alter. destruct K2 as [-> _], H3 as [-> _]. done.
Qed.
End click.

(** ** The user who waits *)

(** States of a group, with the panel that was last opened and not closed. *)
Inductive accordion (transition : bool) : panels_group -> option nat -> Prop :=
| accordion_start l t :
    (forall i, l !! i = Some true <-> t = Some i) -> accordion transition (start_group l) t
| accordion_click prevented i s t :
    accordion transition s t -> waits s = [] -> (i < length (panels s))%nat ->
    (forall j, prevented false j = false) ->
    accordion transition (click transition prevented i s)
      (if decide (t = Some i) then None else if prevented true i then t else Some i)
| accordion_end i s t : accordion transition s t -> accordion transition (transition_end i s) t.

Lemma start_inv l t : (forall i, l !! i = Some true <-> t = Some i) ->
  inv (start_group l) t /\ data_ok (start_group l).
Proof.
  intros Hl. split.
  - split.
    + intros i. rewrite <- Hl. unfold opening, has_in. simpl. rewrite list_lookup_fmap.
      destruct (l !! i) as [[]|]; simpl; split; try done; try (by left);
        intros [|(w & H & _)]; try done; by apply elem_of_nil in H.
    + intros i p. simpl. rewrite list_lookup_fmap. destruct (l !! i); [|done]. intros E. simplify_eq/=.
      split_and!; try done. split; [done|]. intros H. by apply rest_waiting in H.
    + intros k. split; [done|]. intros H. by apply rest_busy in H.
    + intros w H. by apply elem_of_nil in H.
    + split; constructor.
  - intros i k. unfold data. simpl. rewrite list_lookup_fmap. by destruct (l !! i).
Qed.

Lemma end_data i s : data_ok s -> data_ok (transition_end i s).
Proof.
  intros Hd. unfold transition_end.
  set (s1 := Group (panels s) (insts s) (filter (fun w => w_panel w <> i) (waits s))).
  assert (data_ok s1) as H1 by done. clearbody s1. clear Hd. revert s1 H1.
  induction (filter (fun w => w_panel w = i) (waits s)) as [|w l IH]; intros s1 H1; [done|].
  simpl. apply IH. change (data_ok (complete (Wait i (w_inst w) (w_show w)) s1)).
  apply (data_ok_less s1); [done|apply keeps_complete|]. intros j k. unfold data.
  rewrite complete_panels. destruct (decide _); [|done]. by destruct (panels s1 !! j).
Qed.

Lemma accordion_inv transition s t : accordion transition s t -> inv s t /\ data_ok s.
Proof.
  induction 1 as [l t Hl|prevented i s t _ [Hs Hd] Hw Hi Hp|i s t _ [Hs Hd]].
  - by apply start_inv.
  - destruct (click_inv transition prevented Hp i s t Hs Hw Hd Hi) as (H1 & H2 & _). done.
  - split; [by apply end_inv|by apply end_data].
Qed.

(** C34: A group of panels, each click on a trigger after the transitions of the one
    before: when nothing moves, the open panel is the one clicked last, or none if
    that click closed it (or there was none), and all other panels are closed.
    At every moment at most one panel is open or opening. *)
Theorem accordion_one_open transition s t : accordion transition s t ->
  (forall i j, opening s i -> opening s j -> i = j) /\
  (waits s = [] -> forall i p, panels s !! i = Some p ->
     p_in p = bool_decide (t = Some i) /\ p_collapsing p = false /\ p_collapse p = true).
Proof.
  intros H. destruct (accordion_inv _ _ _ H) as [Hs _]. split.
  - intros i j Hi Hj. apply (inv_open _ _ Hs) in Hi, Hj. congruence.
  - intros Hw i p Hp.
    assert (~ waiting s i) as Hno by (by apply rest_waiting).
    pose proof (has_in_open s t i Hs Hno) as Hin. unfold has_in in Hin. rewrite Hp in Hin.
    destruct (inv_panel _ _ Hs i p Hp) as (Hc & _ & Hcol).
    assert (p_collapsing p = false) as Hf by (destruct (p_collapsing p); [exfalso; by apply Hno, Hc|done]).
    rewrite Hcol, Hf. split_and!; try done. apply eq_true_iff_eq. by rewrite Hin, bool_decide_eq_true.
Qed.

(** Three panels, the first open; the second is clicked. *)
Definition ex_clicked : panels_group := click true allow 1 (start_group [true; false; false]).

Lemma ex_clicked_accordion : accordion true ex_clicked (Some 1%nat).
Proof.
  apply (accordion_click true allow 1 (start_group [true; false; false]) (Some 0%nat)); try done.
  - apply accordion_start. intros [|[|[|i]]]; simpl; split; try congruence; by intros [=].
  - simpl. lia.
Qed.

Lemma accordion_one_open_witness :
  (forall i j, opening ex_clicked i -> opening ex_clicked j -> i = j) /\
  opened (transition_end 0 (transition_end 1 ex_clicked)) = [1%nat] /\
  forall i p, panels (transition_end 0 (transition_end 1 ex_clicked)) !! i = Some p ->
    p_in p = bool_decide (Some 1%nat = Some i) /\ p_collapsing p = false /\ p_collapse p = true.
Proof.
  split; [apply (accordion_one_open true ex_clicked (Some 1%nat) ex_clicked_accordion)|].
  split; [vm_compute; done|].
  apply (accordion_one_open true (transition_end 0 (transition_end 1 ex_clicked)) (Some 1%nat)).
  - do 2 apply accordion_end. apply ex_clicked_accordion.
  - vm_compute. done.
Defined.
