(* ===== verification/Ujs.v ===== *)
(** * Links, buttons and forms of the pages ([rails.js])

    The adapter between jQuery and Rails: confirmation, requests without a new
    page, the token against forged requests, and the controls that are disabled while
    a request is under way.  A page is a list of elements; what listeners of
    other scripts answer, and what the user answers to a question, is an
    argument of each handler.  The requests made and the forms sent are
    recorded.  Values of [data-] attributes are taken as the strings they are, but for
    their truth value.  Elements are not nested but for forms and their
    controls. *)

From S2P Require Import Prelude.

#[local] Open Scope list_scope.

(** ** Elements *)

Inductive tag := TA | TButton | TInput | TTextarea | TSelect | TForm.
#[export] Instance tag_eq_dec : EqDecision tag.
Proof. solve_decision. Defined.

(** What a page says of an element: [i_inside] is the form around it, [i_owner]
    the form it belongs to (they differ where the attribute [form] is used). *)
Record info := Info {
  i_tag : tag; i_type : option string; i_name : option string;
  i_inside : option nat; i_owner : option nat;
  i_required : bool; i_novalidate : bool; i_formnovalidate : bool;
  i_method : option string; i_action : option string; i_href : string; i_target : option string;
  d_confirm : option string; d_method : option string; d_remote : option string;
  d_url : option string; d_params : option string; d_type : option string;
  d_credentials : option string; d_disable_with : option string; d_disable : bool }.

(** What changes: content, value, state of a control, and the data the scripts keep
    ([enable_with] is ['ujs:enable-with'], [stopped] the listener [click.railsDisable]). *)
Record el := El {
  e_info : info; e_html : string; e_val : string; e_checked : bool; e_disabled : bool;
  enable_with : option string; ujs_disabled : bool; stopped : bool;
  submit_button : option (string * string); novalidate_button : option string }.

(** Truth of [data(...)]: the texts that are read as [false], [null], [0] and [NaN]. *)
Definition truthy_data (d : option string) : bool :=
  match d with
  | Some s => negb (bool_decide (s ∈ [""; "false"; "null"; "0"; "NaN"]%string))
  | None => false
  end.

(** [x || null] for data, and [x || ...] for an attribute. *)
Definition data_or_null (d : option string) : option string := if truthy_data d then d else None.
Definition nonempty (s : option string) : bool :=
  match s with Some t => negb (String.eqb t "") | None => false end.

(** ** Selectors *)

Definition is_type (t : string) (i : info) : bool := bool_decide (i_type i = Some t).
Definition is_some {A} (o : option A) : bool := match o with Some _ => true | None => false end.
Definition disables (i : info) : bool := is_some (d_disable_with i) || d_disable i.
Definition is_field (i : info) : bool :=
  match i_tag i with TInput | TButton | TTextarea => true | _ => false end.

Definition linkClickSelector (i : info) : bool :=
  match i_tag i with
  | TA => is_some (d_confirm i) || is_some (d_method i) || is_some (d_remote i) || disables i
  | _ => false
  end.
Definition buttonClickSelector (i : info) : bool :=
  match i_tag i, i_inside i with
  | TButton, None => is_some (d_remote i) || is_some (d_confirm i)
  | _, _ => false
  end.
Definition inputChangeSelector (i : info) : bool :=
  match i_tag i with TSelect | TInput | TTextarea => is_some (d_remote i) | _ => false end.
Definition formInputClickSelector (i : info) : bool :=
  (is_some (i_inside i) || is_some (i_owner i)) &&
  match i_tag i with
  | TInput => is_type "submit" i || is_type "image" i
  | TButton => is_type "submit" i || negb (is_some (i_type i))
  | _ => false
  end.
Definition disableSelector (e : el) : bool :=
  is_field (e_info e) && disables (e_info e) && negb (e_disabled e).
Definition enableSelector (e : el) : bool :=
  is_field (e_info e) && disables (e_info e) && e_disabled e.
Definition requiredInputSelector (e : el) : bool :=
  match i_tag (e_info e) with
  | TInput | TTextarea => is_some (i_name (e_info e)) && i_required (e_info e) && negb (e_disabled e)
  | _ => false
  end.
Definition fileInputSelector (e : el) : bool :=
  match i_tag (e_info e) with
  | TInput => is_type "file" (e_info e) && negb (e_disabled e)
  | _ => false
  end.
Definition linkDisableSelector (i : info) : bool := bool_decide (i_tag i = TA) && disables i.
Definition buttonDisableSelector (i : info) : bool :=
  bool_decide (i_tag i = TButton) && is_some (d_remote i) && disables i.

(** ** Disabling and enabling *)

(** Text of a control: [html()] of a button, [val()] of others. *)
Definition method_text (e : el) : string :=
  match i_tag (e_info e) with TButton => e_html e | _ => e_val e end.
Definition set_html (t : string) (e : el) : el :=
  El (e_info e) t (e_val e) (e_checked e) (e_disabled e) (enable_with e) (ujs_disabled e) (stopped e)
    (submit_button e) (novalidate_button e).
Definition set_val (t : string) (e : el) : el :=
  El (e_info e) (e_html e) t (e_checked e) (e_disabled e) (enable_with e) (ujs_disabled e) (stopped e)
    (submit_button e) (novalidate_button e).
Definition set_method_text (t : string) (e : el) : el :=
  match i_tag (e_info e) with TButton => set_html t e | _ => set_val t e end.
Definition set_enable_with (t : option string) (e : el) : el :=
  El (e_info e) (e_html e) (e_val e) (e_checked e) (e_disabled e) t (ujs_disabled e) (stopped e)
    (submit_button e) (novalidate_button e).
(** [prop('disabled')] and [data('ujs:disabled')]. *)
Definition set_disabled (b : bool) (e : el) : el :=
  El (e_info e) (e_html e) (e_val e) (e_checked e) b (enable_with e) b (stopped e)
    (submit_button e) (novalidate_button e).
(** The listener that stops clicks and [data('ujs:disabled')]. *)
Definition set_stopped (b : bool) (e : el) : el :=
  El (e_info e) (e_html e) (e_val e) (e_checked e) (e_disabled e) (enable_with e) b b
    (submit_button e) (novalidate_button e).

Definition disableFormElement (e : el) : el :=
  let e := match d_disable_with (e_info e) with
           | Some replacement => set_method_text replacement (set_enable_with (Some (method_text e)) e)
           | None => e
           end in
  set_disabled true e.

Definition enableFormElement (e : el) : el :=
  let e := match enable_with e with
           | Some t => set_enable_with None (set_method_text t e)
           | None => e
           end in
  set_disabled false e.

Definition disableElement (e : el) : el :=
  let e := match d_disable_with (e_info e) with
           | Some replacement => set_html replacement (set_enable_with (Some (e_html e)) e)
           | None => e
           end in
  set_stopped true e.

Definition enableElement (e : el) : el :=
  let e := match enable_with e with
           | Some t => set_enable_with None (set_html t e)
           | None => e
           end in
  set_stopped false e.

(** ** The page *)

Inductive payload := Fields (l : list (string * string)) | Query (q : string) | NoData.

(** A request as it is handed to the browser; [rq_token] and [rq_accept] are the headers
    [X-CSRF-Token] and [accept]. *)
Record request := Request {
  rq_type : string; rq_url : option string; rq_data : payload; rq_dataType : option string;
  rq_crossDomain : bool; rq_credentials : option string;
  rq_token : option string; rq_accept : option string }.

Inductive effect :=
| Ajax (id : nat) (r : request)                              (* a request is sent *)
| Post (form inputs : string) (target : option string)       (* a form made for a link is sent *)
| Native (id : nat).                                         (* the browser follows a link or sends a form *)

(** What a timer of 13 ms will do to a form. *)
Inductive timer := DisableForm (f : nat) | EnableForm (f : nat).

Record page := Page { els : list el; timers : list timer; pending : list nat; log : list effect }.

Definition on_el (id : nat) (f : el -> el) (s : page) : page :=
  Page (alter f id (els s)) (timers s) (pending s) (log s).
Definition on_els (f : el -> el) (s : page) : page := Page (f <$> els s) (timers s) (pending s) (log s).
Definition emit (x : effect) (s : page) : page := Page (els s) (timers s) (pending s) (log s ++ [x]).
Definition setTimeout (t : timer) (s : page) : page := Page (els s) (timers s ++ [t]) (pending s) (log s).

(** [formElements(form, selector)], applied with [each]: the controls that belong to the form. *)
Definition each_formElement (f : nat) (selector : el -> bool) (g : el -> el) (s : page) : page :=
  on_els (fun e => if bool_decide (i_owner (e_info e) = Some f) && selector e then g e else e) s.

Definition disableFormElements (f : nat) (s : page) : page :=
  each_formElement f disableSelector disableFormElement s.
Definition enableFormElements (f : nat) (s : page) : page :=
  each_formElement f enableSelector enableFormElement s.

(** ** Blank inputs *)

Definition valueToCheck (e : el) : bool :=
  match i_tag (e_info e) with
  | TInput => if is_type "checkbox" (e_info e) || is_type "radio" (e_info e) then e_checked e
              else negb (String.eqb (e_val e) "")
  | _ => negb (String.eqb (e_val e) "")
  end.
Definition is_radio (e : el) : bool := bool_decide (i_tag (e_info e) = TInput) && is_type "radio" (e_info e).

Definition blankInputs (s : page) (form : nat) (selector : el -> bool) (nonBlank : bool) : list el :=
  let allInputs := filter (fun e => i_inside (e_info e) = Some form /\ selector e = true) (els s) in
  filter (fun e =>
    eqb (valueToCheck e) nonBlank &&
    negb (is_radio e &&
          existsb (fun r => is_radio r && e_checked r &&
                            bool_decide (i_name (e_info r) = Some (default "undefined"%string (i_name (e_info e)))))
            allInputs) = true) allInputs.

Definition nonBlankInputs (s : page) (form : nat) (selector : el -> bool) : list el :=
  blankInputs s form selector true.

(** ** What others answer *)

(** Events whose result counts. *)
Inductive ujs_event := EConfirm | EConfirmComplete | EBefore | EBeforeSend | EAbortedRequired | EAbortedFile.

(** What listeners return ([fire]), and the answer to the question; [None]: the
    dialog throws. *)
Record answers := Answers { fire : ujs_event -> bool; confirm : option bool }.

Definition allowAction (w : answers) (i : info) : bool :=
  if negb (truthy_data (d_confirm i)) then true
  else if fire w EConfirm then default false (confirm w) && fire w EConfirmComplete
  else false.

Definition isRemote (i : info) : bool :=
  match d_remote i with Some v => negb (String.eqb v "false") | None => false end.

Section ujs.
(** The tags [csrf-token] and [csrf-param] of the page, the protocol and host of an
    address as an anchor element has them ([None]: setting it throws) and of the
    page itself, what jQuery makes of the fields of an element, and its
    default for [dataType] and for the header [accept] of scripts. *)
Context (csrfToken csrfParam : option string).
Context (anchor : string -> option (string * string)) (origin : string * string).
Context (serializeArray : page -> nat -> list (string * string)) (serialize : page -> nat -> string).
Context (ajax_dataType : option string) (accepts_script : string).

Definition isCrossDomain (url : option string) : bool :=
  match anchor (default "undefined"%string url) with
  | Some (protocol, host) =>
      negb (((String.eqb protocol "" || String.eqb protocol ":") && String.eqb host "") ||
            String.eqb (origin.1 +:+ "//" +:+ origin.2) (protocol +:+ "//" +:+ host))
  | None => true
  end.

(** The header of a request, set by the filter of all requests. *)
Definition CSRFProtection (crossDomain : bool) : option string :=
  if negb crossDomain then (if nonempty csrfToken then csrfToken else None) else None.

Definition refreshCSRFTokens (s : page) : page :=
  on_els (fun e =>
    if bool_decide (i_tag (e_info e) = TInput) && is_some (i_inside (e_info e)) &&
       bool_decide (i_name (e_info e) = Some (default "undefined"%string csrfParam))
    then set_val (default ""%string csrfToken) e else e) s.

(** ** Requests *)

(** [false]; a promise that has failed, since the request was cancelled; or the
    promise of a request under way. *)
Inductive remote := RFalse | RCancelled | RSent.

Definition with_params (data : string) (i : info) : string :=
  match d_params i with
  | Some p => if truthy_data (d_params i) then data +:+ "&" +:+ p else data
  | None => data
  end.

(** Method, address (and whether it counts as given) and data of the request of an element. *)
Definition request_of (s : page) (id : nat) (e : el) : option string * option string * bool * payload :=
  let i := e_info e in
  if bool_decide (i_tag i = TForm) then
    (i_method i, i_action i, nonempty (i_action i),
     Fields (serializeArray s id ++ match submit_button e with Some b => [b] | None => [] end))
  else if inputChangeSelector i then
    (data_or_null (d_method i), d_url i, truthy_data (d_url i), Query (with_params (serialize s id) i))
  else if buttonClickSelector i then
    (Some (default "get"%string (data_or_null (d_method i))), d_url i, truthy_data (d_url i),
     Query (with_params (serialize s id) i))
  else
    (data_or_null (d_method i), Some (i_href i), nonempty (Some (i_href i)),
     match data_or_null (d_params i) with Some p => Query p | None => NoData end).

Definition set_submit_button (b : option (string * string)) (e : el) : el :=
  El (e_info e) (e_html e) (e_val e) (e_checked e) (e_disabled e) (enable_with e) (ujs_disabled e) (stopped e)
    b (novalidate_button e).

(** [handleRemote]; that a form was sent ([ajax:send]) disables its controls. *)
Definition handleRemote (w : answers) (id : nat) (e : el) (s : page) : page * remote :=
  if negb (fire w EBefore) then (s, RFalse)
  else
    let withCredentials := data_or_null (d_credentials (e_info e)) in
    let dataType := match data_or_null (d_type (e_info e)) with Some t => Some t | None => ajax_dataType end in
    let '(method, url, has_url, data) := request_of s id e in
    let is_form := bool_decide (i_tag (e_info e) = TForm) in
    let s := if is_form then on_el id (set_submit_button None) s else s in
    let crossDomain := isCrossDomain url in
    let r := Request (if nonempty method then default ""%string method else "GET"%string)
               (if has_url then url else None) data dataType crossDomain withCredentials
               (CSRFProtection crossDomain)
               (match dataType with None => Some ("*/*;q=0.5, " +:+ accepts_script)%string | Some _ => None end) in
    if fire w EBeforeSend then
      let s := if is_form then disableFormElements id s else s in
      let s := emit (Ajax id r) s in
      (Page (els s) (timers s) (pending s ++ [id]) (log s), RSent)
    else (s, RCancelled).

(** A name and a value in the quotation marks of an attribute. *)
Definition quoted (t : string) : string :=
  String (Ascii.ascii_of_nat 34) t +:+ String (Ascii.ascii_of_nat 34) EmptyString.
Definition hidden_input (name value : string) : string :=
  ("<input name=" +:+ quoted name +:+ " value=" +:+ quoted value +:+ " type=" +:+ quoted "hidden" +:+ " />")%string.

Definition handleMethod (i : info) (s : page) : page :=
  let href := i_href i in
  let form := ("<form method=" +:+ quoted "post" +:+ " action=" +:+ quoted href +:+ "></form>")%string in
  let metadataInput := hidden_input "_method" (default "undefined"%string (d_method i)) in
  let metadataInput :=
    match csrfParam, csrfToken with
    | Some p, Some t =>
        if negb (isCrossDomain (Some href)) then metadataInput +:+ hidden_input p t else metadataInput
    | _, _ => metadataInput
    end in
  emit (Post form metadataInput (if nonempty (i_target i) then i_target i else None)) s.

(** ** Handlers *)

Definition link_click (w : answers) (metaClick : bool) (id : nat) (e : el) (s : page) : page :=
  let i := e_info e in
  if stopped e then s
  else if negb (allowAction w i) then s
  else
    let s := if negb metaClick && linkDisableSelector i then on_el id disableElement s else s in
    if isRemote i then
      if metaClick && (negb (truthy_data (d_method i)) || bool_decide (d_method i = Some "GET"%string)) &&
         negb (truthy_data (d_params i))
      then emit (Native id) s
      else
        let '(s, h) := handleRemote w id e s in
        match h with
        | RFalse | RCancelled => on_el id enableElement s
        | RSent => s
        end
    else if truthy_data (d_method i) then handleMethod i s
    else emit (Native id) s.

(** A disabled button is not clicked. *)
Definition button_click (w : answers) (id : nat) (e : el) (s : page) : page :=
  let i := e_info e in
  if e_disabled e then s
  else if negb (allowAction w i) || negb (isRemote i) then s
  else
    let s := if buttonDisableSelector i then on_el id disableFormElement s else s in
    let '(s, h) := handleRemote w id e s in
    match h with
    | RFalse | RCancelled => on_el id enableFormElement s
    | RSent => s
    end.

Definition input_change (w : answers) (id : nat) (e : el) (s : page) : page :=
  let i := e_info e in
  if negb (allowAction w i) || negb (isRemote i) then s
  else (handleRemote w id e s).1.

(** [data(key, value)] of jQuery 1.11 keeps what there is when the value is undefined. *)
Definition set_data {A} (old value : option A) : option A :=
  match value with Some v => Some v | None => old end.

Definition set_novalidate_button (v : option string) (e : el) : el :=
  El (e_info e) (e_html e) (e_val e) (e_checked e) (e_disabled e) (enable_with e) (ujs_disabled e) (stopped e)
    (submit_button e) (set_data (novalidate_button e) v).

Definition form_submit (w : answers) (id : nat) (e : el) (s : page) : page :=
  let i := e_info e in
  if negb (allowAction w i) then s
  else if negb (i_novalidate i) && negb (is_some (novalidate_button e)) &&
          negb (bool_decide (blankInputs s id requiredInputSelector false = [])) && fire w EAbortedRequired
  then s
  else
    let s := if negb (i_novalidate i) && is_some (novalidate_button e)
             then on_el id (set_novalidate_button None) s else s in
    if isRemote i then
      if negb (bool_decide (nonBlankInputs s id fileInputSelector = [])) then
        let s := setTimeout (DisableForm id) s in
        if fire w EAbortedFile then emit (Native id) s else setTimeout (EnableForm id) s
      else (handleRemote w id e s).1
    else emit (Native id) (setTimeout (DisableForm id) s).

(** A click on a button that sends a form; the form is sent by a step of its own. *)
Definition form_input_click (w : answers) (e : el) (s : page) : page :=
  let i := e_info e in
  if e_disabled e then s
  else if negb (allowAction w i) then s
  else
    let data := if nonempty (i_name i)
                then Some (default ""%string (i_name i), e_val e) else None in
    match i_inside i with
    | Some form =>
        on_el form (fun f => set_novalidate_button (if i_formnovalidate i then Some "formnovalidate"%string else None)
                               (set_submit_button data f)) s
    | None => s
    end.

(** The end of a request: [fail] of links and buttons, then [ajax:complete]. *)
Definition ajax_complete (e : el) (id : nat) (s : page) : page :=
  let i := e_info e in
  if linkDisableSelector i then on_el id enableElement s
  else if buttonDisableSelector i then on_el id enableFormElement s
  else if bool_decide (i_tag i = TForm) then enableFormElements id s
  else s.

Definition ajax_end (ok : bool) (n : nat) (s : page) : page :=
  match pending s !! n with
  | Some id =>
      let s := Page (els s) (timers s) (delete n (pending s)) (log s) in
      match els s !! id with
      | Some e =>
          let i := e_info e in
          let s := if ok then s
                   else if bool_decide (i_tag i = TA) then on_el id enableElement s
                   else if buttonClickSelector i then on_el id enableFormElement s
                   else s in
          ajax_complete e id s
      | None => s
      end
  | None => s
  end.

Definition run_timer (s : page) : page :=
  match timers s with
  | t :: l =>
      let s := Page (els s) l (pending s) (log s) in
      match t with
      | DisableForm f => disableFormElements f s
      | EnableForm f => enableFormElements f s
      end
  | [] => s
  end.

(** The page is shown again from the browser's cache. *)
Definition pageshow (s : page) : page :=
  let s := on_els (fun e => if enableSelector e && ujs_disabled e then enableFormElement e else e) s in
  on_els (fun e => if linkDisableSelector (e_info e) && ujs_disabled e then enableElement e else e) s.

(** ** What happens on a page *)

Inductive action :=
| Click (id : nat) (metaClick : bool) (w : answers)
| Change (id : nat) (w : answers)
| Submit (id : nat) (w : answers)
| End (ok : bool) (n : nat)
| Timer
| PageShow
| Edit (id : nat) (v : string) (checked : bool).

(** The user edits a control that is not disabled. *)
Definition edit (v : string) (b : bool) (e : el) : el :=
  if e_disabled e then e
  else El (e_info e) (e_html e) v b (e_disabled e) (enable_with e) (ujs_disabled e) (stopped e)
         (submit_button e) (novalidate_button e).

(** A click runs the handlers of the selectors the element matches.  (Of a button
    outside its form that matches the second and the third, the third handler
    finds no form around it and does nothing.) *)
Definition act (a : action) (s : page) : page :=
  match a with
  | Click id metaClick w =>
      match els s !! id with
      | Some e =>
          if linkClickSelector (e_info e) then link_click w metaClick id e s
          else if buttonClickSelector (e_info e) then button_click w id e s
          else if formInputClickSelector (e_info e) then form_input_click w e s
          else s
      | None => s
      end
  | Change id w =>
      match els s !! id with
      | Some e => if inputChangeSelector (e_info e) then input_change w id e s else s
      | None => s
      end
  | Submit id w =>
      match els s !! id with
      | Some e => if bool_decide (i_tag (e_info e) = TForm) then form_submit w id e s else s
      | None => s
      end
  | End ok n => ajax_end ok n s
  | Timer => run_timer s
  | PageShow => pageshow s
  | Edit id v b => on_el id (edit v b) s
  end.
End ujs.
