(* ===== verification/UjsProps.v ===== *)
(** * What the handlers of [rails.js] guarantee

    Over any sequence of clicks, changes, submissions, answers and timers: texts
    of disabled elements come back; nothing is done against the answer of the
    user; the token goes to the own site only; required fields are checked,
    unless a button without validation was ever clicked. *)

From S2P Require Import Prelude.
From S2P Require Import Ujs.

#[local] Open Scope list_scope.

(** ** Texts *)

(** The text of an element: content of links and buttons, value of other controls. *)
Definition text_of (e : el) : string :=
  match i_tag (e_info e) with TA | TButton => e_html e | _ => e_val e end.
(** The text it has when it is enabled. *)
Definition own (e : el) : string := default (text_of e) (enable_with e).

(** An element marked as disabled is one, shows the replacement if there is one,
    and has its own text stored; others have nothing stored. *)
Record el_ok (e : el) : Prop := {
  ok_marked : ujs_disabled e = true ->
    (i_tag (e_info e) = TA /\ stopped e = true \/ is_field (e_info e) = true /\ e_disabled e = true) /\
    match d_disable_with (e_info e) with
    | Some r => text_of e = r /\ is_some (enable_with e) = true
    | None => enable_with e = None
    end;
  ok_free : ujs_disabled e = false -> enable_with e = None;
  ok_stopped : stopped e = true -> i_tag (e_info e) = TA /\ ujs_disabled e = true
}.

(** What a handler may do to an element: its own text and what the page says of it stay. *)
Definition keeps (f : el -> el) (e : el) : Prop :=
  el_ok (f e) /\ own (f e) = own e /\ e_info (f e) = e_info e.

Lemma keeps_refl e : el_ok e -> keeps id e.
Proof. done. Qed.

(** One operation on an element taken apart, by its tag and its replacement. *)
Ltac by_tag i :=
  unfold keeps, disableFormElement, enableFormElement, disableElement, enableElement,
    own, text_of, set_method_text, method_text, is_field in *; simpl in *;
  destruct (d_disable_with i) eqn:?, (i_tag i) eqn:?; simpl in *;
  repeat (progress (try match goal with H : i_tag i = _ |- _ => rewrite H in * end; simpl in *)); try done;
  (split; [|done]); split; unfold text_of, is_field; simpl;
  repeat match goal with H : _ i = _ |- _ => rewrite H end; simpl; auto; try done.

Lemma disableFormElement_ok e :
  el_ok e -> is_field (e_info e) = true -> e_disabled e = false -> keeps disableFormElement e.
Proof.
  intros [Hm Hf Hs] Hc Hd. destruct (ujs_disabled e) eqn:Hu.
  { destruct (Hm eq_refl) as [[[Ht _]|[_ ?]] _]; [|congruence]. unfold is_field in Hc. by rewrite Ht in Hc. }
  specialize (Hf eq_refl). destruct (stopped e) eqn:Hst; [by destruct (Hs eq_refl)|].
  destruct e as [i h v ck d ew u st sb nb]. simpl in *. subst. by_tag i.
Qed.

Lemma enableFormElement_ok e :
  el_ok e -> is_field (e_info e) = true -> keeps enableFormElement e.
Proof.
  intros [Hm Hf Hs] Hc. destruct (stopped e) eqn:Hst.
  { destruct (Hs eq_refl) as [Ht _]. unfold is_field in Hc. by rewrite Ht in Hc. }
  destruct e as [i h v ck d ew u st sb nb]. simpl in *. subst. destruct ew; by_tag i.
Qed.

Lemma disableElement_ok e :
  el_ok e -> i_tag (e_info e) = TA -> stopped e = false -> keeps disableElement e.
Proof.
  intros [Hm Hf Hs] Ht Hst. destruct (ujs_disabled e) eqn:Hu.
  { destruct (Hm eq_refl) as [[[_ ?]|[Hc _]] _]; [congruence|]. unfold is_field in Hc. by rewrite Ht in Hc. }
  specialize (Hf eq_refl). destruct e as [i h v ck d ew u st sb nb]. simpl in *. subst. by_tag i.
Qed.

Lemma enableElement_ok e : el_ok e -> i_tag (e_info e) = TA -> keeps enableElement e.
Proof.
  intros [Hm Hf Hs] Ht. destruct e as [i h v ck d ew u st sb nb]. simpl in *. subst. destruct ew; by_tag i.
Qed.

(** ** Pages *)

(** (A button without validation, once noted, is not forgotten either.) *)
Definition el_kept (e e' : el) : Prop :=
  e_info e' = e_info e /\ (novalidate_button e <> None -> novalidate_button e' <> None) /\
  (el_ok e -> el_ok e' /\ own e' = own e).
Definition kept (s s' : page) : Prop := Forall2 el_kept (els s) (els s').

#[local] Instance el_kept_preorder : PreOrder el_kept.
Proof.
  split; [done|]. intros e1 e2 e3 (Hi & Hn & H) (Hi' & Hn' & H'). split_and!; [congruence|auto|]. intros [H1 E1]%H.
  destruct (H' H1) as [? ?]. split; [done|congruence].
Qed.
#[local] Instance kept_preorder : PreOrder kept.
Proof. split; [intros s; unfold kept; reflexivity|intros s1 s2 s3; unfold kept; apply transitivity]. Qed.

Lemma kept_same s s' : els s' = els s -> kept s s'.
Proof. unfold kept. by intros ->. Qed.

Lemma keeps_kept f e :
  (el_ok e -> keeps f e) -> e_info (f e) = e_info e /\ novalidate_button (f e) = novalidate_button e -> el_kept e (f e).
Proof. intros H [Hi Hn]. split_and!; [done|by rewrite Hn|]. intros [? [? _]]%H. done. Qed.

Lemma info_disableFormElement e :
  e_info (disableFormElement e) = e_info e /\ novalidate_button (disableFormElement e) = novalidate_button e.
Proof. unfold disableFormElement, set_method_text. by repeat case_match. Qed.
Lemma info_enableFormElement e :
  e_info (enableFormElement e) = e_info e /\ novalidate_button (enableFormElement e) = novalidate_button e.
Proof. unfold enableFormElement, set_method_text. by repeat case_match. Qed.
Lemma info_disableElement e :
  e_info (disableElement e) = e_info e /\ novalidate_button (disableElement e) = novalidate_button e.
Proof. unfold disableElement. by repeat case_match. Qed.
Lemma info_enableElement e :
  e_info (enableElement e) = e_info e /\ novalidate_button (enableElement e) = novalidate_button e.
Proof. unfold enableElement. by repeat case_match. Qed.

Lemma kept_on_el id f s : (forall e, els s !! id = Some e -> el_kept e (f e)) -> kept s (on_el id f s).
Proof.
  intros H. unfold kept, on_el. simpl. apply Forall2_lookup. intros j. destruct (decide (id = j)) as [->|].
  - rewrite list_lookup_alter_eq. destruct (els s !! j) as [e|] eqn:E; constructor. by apply H.
  - rewrite list_lookup_alter_ne by done. destruct (els s !! j); by constructor.
Qed.

Lemma kept_on_els f s : (forall e, el_kept e (f e)) -> kept s (on_els f s).
Proof. intros H. unfold kept, on_els. simpl. induction (els s); constructor; auto. Qed.

Lemma kept_disableFormElements f s : kept s (disableFormElements f s).
Proof.
  apply kept_on_els. intros e. destruct (bool_decide _ && disableSelector e) eqn:E; [|done].
  apply andb_true_iff in E as [_ [[Hc _]%andb_true_iff Hd%negb_true_iff]%andb_true_iff].
  apply keeps_kept; [by intros; apply disableFormElement_ok|apply info_disableFormElement].
Qed.

Lemma kept_enableFormElements f s : kept s (enableFormElements f s).
Proof.
  apply kept_on_els. intros e. destruct (bool_decide _ && enableSelector e) eqn:E; [|done].
  apply andb_true_iff in E as [_ [[Hc _]%andb_true_iff _]%andb_true_iff].
  apply keeps_kept; [by intros; apply enableFormElement_ok|apply info_enableFormElement].
Qed.

Lemma kept_tag id s s' e : kept s s' -> els s !! id = Some e -> exists e', els s' !! id = Some e' /\ e_info e' = e_info e.
Proof. intros H He. destruct (Forall2_lookup_l _ _ _ _ _ H He) as (e' & He' & Hi & _ & _). eauto. Qed.

Lemma kept_enableElement id s e : els s !! id = Some e -> i_tag (e_info e) = TA -> kept s (on_el id enableElement s).
Proof.
  intros He Ht. apply kept_on_el. intros e' He'. simplify_eq.
  apply keeps_kept; [by intros; apply enableElement_ok|apply info_enableElement].
Qed.
Lemma kept_enableFormElement id s e :
  els s !! id = Some e -> is_field (e_info e) = true -> kept s (on_el id enableFormElement s).
Proof.
  intros He Ht. apply kept_on_el. intros e' He'. simplify_eq.
  apply keeps_kept; [by intros; apply enableFormElement_ok|apply info_enableFormElement].
Qed.

Lemma kept_submit_button id b s : kept s (on_el id (set_submit_button b) s).
Proof. apply kept_on_el. intros e _. split_and!; [done..|]. intros [H1 H2 H3]. split; [|done]. by split. Qed.
Lemma kept_novalidate id v s : kept s (on_el id (set_novalidate_button v) s).
Proof.
  apply kept_on_el. intros e _. split_and!; [done|by destruct v|]. intros [H1 H2 H3]. split; [|done]. by split.
Qed.

(** ** Origins *)

Fixpoint no_slash (p : string) : bool :=
  match p with
  | EmptyString => true
  | String c p => negb (Ascii.eqb c (Ascii.ascii_of_nat 47)) && no_slash p
  end.

(** Protocol and host are compared as one text; that is enough. *)
Lemma origin_inj p1 h1 p2 h2 : no_slash p1 = true -> no_slash p2 = true ->
  (p1 +:+ "//" +:+ h1 = p2 +:+ "//" +:+ h2)%string -> p1 = p2 /\ h1 = h2.
Proof.
  revert p2. induction p1 as [|c p1 IH]; intros [|c2 p2] H1 H2 E; simpl in *.
  - by injection E.
  - injection E as <- _. done.
  - injection E as -> _. done.
  - injection E as -> E. apply andb_true_iff in H1 as [_ H1], H2 as [_ H2].
    destruct (IH p2 H1 H2 E) as [-> ->]. done.
Qed.

Section ujs.
Context (csrfToken csrfParam : option string).
Context (anchor : string -> option (string * string)) (origin : string * string).
Context (serializeArray : page -> nat -> list (string * string)) (serialize : page -> nat -> string).
Context (ajax_dataType : option string) (accepts_script : string).

#[local] Abbreviation handleRemote :=
  (handleRemote csrfToken anchor origin serializeArray serialize ajax_dataType accepts_script).
#[local] Abbreviation handleMethod := (handleMethod csrfToken csrfParam anchor origin).
#[local] Abbreviation isCrossDomain := (isCrossDomain anchor origin).
#[local] Abbreviation act :=
  (act csrfToken csrfParam anchor origin serializeArray serialize ajax_dataType accepts_script).

(** The page after a sequence of actions. *)
Definition run (l : list action) (s : page) : page := foldl (fun s a => act a s) s l.

(** ** Each handler keeps the texts *)

Lemma handleRemote_kept w id e s : kept s (handleRemote w id e s).1.
Proof.
  unfold Ujs.handleRemote. destruct (negb (fire w EBefore)); [done|].
  destruct (request_of serializeArray serialize s id e) as [[[method url] has_url] data].
  destruct (bool_decide _); destruct (fire w EBeforeSend); simpl; try done; [|apply kept_submit_button|by apply kept_same].
  etransitivity; [apply (kept_submit_button id None)|].
  etransitivity; [apply (kept_disableFormElements id)|]. by apply kept_same.
Qed.

(** What a link and a button do before and after a request. *)
Lemma remote_kept w id e s (f g : el -> el) :
  kept s (on_el id f s) ->
  (forall s', kept s s' -> kept s' (on_el id g s')) ->
  kept s (let '(s, h) := handleRemote w id e (on_el id f s) in
          match h with RFalse | RCancelled => on_el id g s | RSent => s end).
Proof.
  intros Hf Hg. pose proof (handleRemote_kept w id e (on_el id f s)) as Hr.
  destruct (handleRemote w id e (on_el id f s)) as [s' h]. simpl in Hr.
  assert (kept s s') as Hs by (by transitivity (on_el id f s)).
  destruct h; [..|done]; (transitivity s'; [done|by apply Hg]).
Qed.

Lemma on_el_id id s : on_el id (fun e => e) s = s.
Proof. destruct s. unfold on_el. simpl. by rewrite list_alter_id. Qed.

Lemma link_click_kept w b id e s :
  els s !! id = Some e -> i_tag (e_info e) = TA ->
  kept s (link_click csrfToken csrfParam anchor origin serializeArray serialize ajax_dataType accepts_script w b id e s).
Proof.
  intros He Ht. unfold link_click. destruct (stopped e) eqn:Hst; [done|]. destruct (negb (allowAction _ _)); [done|].
  set (f := if negb b && linkDisableSelector (e_info e) then disableElement else fun e => e).
  assert ((if negb b && linkDisableSelector (e_info e) then on_el id disableElement s else s) = on_el id f s) as ->.
  { unfold f. destruct (_ && _); [done|by rewrite on_el_id]. }
  assert (kept s (on_el id f s)) as Hf.
  { apply kept_on_el. intros e' He'. simplify_eq. unfold f. destruct (_ && _); [|done].
    apply keeps_kept; [by intros; apply disableElement_ok|apply info_disableElement]. }
  destruct (isRemote _).
  - destruct (_ && negb (truthy_data _)); [transitivity (on_el id f s); [done|by apply kept_same]|].
    apply (remote_kept w id e s f enableElement Hf).
    intros s' Hs. destruct (kept_tag id s s' e Hs He) as (e' & He' & Hi).
    apply (kept_enableElement id s' e' He'). by rewrite Hi.
  - destruct (truthy_data _); (transitivity (on_el id f s); [done|by apply kept_same]).
Qed.

Lemma button_click_kept w id e s :
  els s !! id = Some e -> i_tag (e_info e) = TButton ->
  kept s (button_click csrfToken anchor origin serializeArray serialize ajax_dataType accepts_script w id e s).
Proof.
  intros He Ht. unfold button_click. destruct (e_disabled e) eqn:Hd; [done|]. destruct (_ || _); [done|].
  assert (is_field (e_info e) = true) as Hc by (unfold is_field; by rewrite Ht).
  set (f := if buttonDisableSelector (e_info e) then disableFormElement else fun e => e).
  assert ((if buttonDisableSelector (e_info e) then on_el id disableFormElement s else s) = on_el id f s) as ->.
  { unfold f. destruct (buttonDisableSelector _); [done|by rewrite on_el_id]. }
  apply (remote_kept w id e s f enableFormElement).
  - apply kept_on_el. intros e' He'. simplify_eq. unfold f. destruct (buttonDisableSelector _); [|done].
    apply keeps_kept; [by intros; apply disableFormElement_ok|apply info_disableFormElement].
  - intros s' Hs. destruct (kept_tag id s s' e Hs He) as (e' & He' & Hi).
    apply (kept_enableFormElement id s' e' He'). by rewrite Hi.
Qed.

Lemma form_submit_kept w id e s :
  kept s (form_submit csrfToken anchor origin serializeArray serialize ajax_dataType accepts_script w id e s).
Proof.
  unfold form_submit. destruct (negb (allowAction _ _)); [done|]. destruct (_ && fire w EAbortedRequired); [done|].
  set (s' := if _ && _ then on_el id _ s else s).
  assert (kept s s') as Hs by (subst s'; destruct (_ && _); [apply kept_novalidate|done]). clearbody s'.
  transitivity s'; [done|]. destruct (isRemote _); [|by apply kept_same].
  destruct (negb (bool_decide _)); [|apply handleRemote_kept].
  destruct (fire w EAbortedFile); by apply kept_same.
Qed.

Lemma form_input_click_kept w e s : kept s (form_input_click w e s).
Proof.
  unfold form_input_click. destruct (e_disabled e); [done|]. destruct (negb _); [done|].
  destruct (i_inside _) as [form|]; [|done]. apply kept_on_el. intros f _. split_and!; [done|by destruct (i_formnovalidate _)|].
  intros [H1 H2 H3]. split; [|done]. by split.
Qed.

Lemma ajax_end_kept ok n s : kept s (ajax_end ok n s).
Proof.
  unfold ajax_end. destruct (pending s !! n) as [id|]; [|done]. simpl.
  set (s1 := Page (els s) _ _ _). assert (kept s s1) as H1 by (by apply kept_same).
  destruct (els s !! id) as [e|] eqn:He; [|done]. assert (els s1 !! id = Some e) as He1 by done.
  clearbody s1. transitivity s1; [done|]. clear H1 He.
  set (s2 := if ok then s1 else _). assert (kept s1 s2) as H2.
  { subst s2. destruct ok; [done|]. destruct (bool_decide _) eqn:Ht.
    - apply bool_decide_eq_true in Ht. by eapply kept_enableElement.
    - destruct (buttonClickSelector _) eqn:Hb; [|done]. eapply kept_enableFormElement; [done|].
      unfold buttonClickSelector in Hb. unfold is_field. by destruct (i_tag _). }
  clearbody s2. transitivity s2; [done|]. destruct (kept_tag id s1 s2 e H2 He1) as (e' & He' & Hi).
  unfold ajax_complete. destruct (linkDisableSelector _) eqn:Hl.
  { apply andb_true_iff in Hl as [Hl%bool_decide_eq_true _]. eapply kept_enableElement; [done|]. by rewrite Hi. }
  destruct (buttonDisableSelector _) eqn:Hb.
  { apply andb_true_iff in Hb as [[Hb%bool_decide_eq_true _]%andb_true_iff _].
    eapply kept_enableFormElement; [done|]. unfold is_field. by rewrite Hi, Hb. }
  destruct (bool_decide _); [apply kept_enableFormElements|done].
Qed.

Lemma run_timer_kept s : kept s (run_timer s).
Proof.
  unfold run_timer. destruct (timers s) as [|t l]; [done|].
  transitivity (Page (els s) l (pending s) (log s)); [by apply kept_same|].
  destruct t; [apply kept_disableFormElements|apply kept_enableFormElements].
Qed.

Lemma pageshow_kept s : kept s (pageshow s).
Proof.
  unfold pageshow. set (s1 := on_els _ s). transitivity s1; [subst s1|]; apply kept_on_els; intros e.
  - destruct (enableSelector e && ujs_disabled e) eqn:E; [|done].
    apply andb_true_iff in E as [[[Hc _]%andb_true_iff _]%andb_true_iff _].
    apply keeps_kept; [by intros; apply enableFormElement_ok|apply info_enableFormElement].
  - destruct (_ && _) eqn:E; [|done].
    apply andb_true_iff in E as [[Ht%bool_decide_eq_true _]%andb_true_iff _].
    apply keeps_kept; [by intros; apply enableElement_ok|apply info_enableElement].
Qed.

Lemma act_kept a s : (forall id v b, a <> Edit id v b) -> kept s (act a s).
Proof.
  intros Ha. destruct a as [id b w|id w|id w|ok n| | |id v b]; simpl; [..|by destruct (Ha id v b)].
  - destruct (els s !! id) as [e|] eqn:He; [|done]. destruct (linkClickSelector _) eqn:Hl.
    { apply link_click_kept; [done|]. unfold linkClickSelector in Hl. by destruct (i_tag _). }
    destruct (buttonClickSelector _) eqn:Hb.
    { apply button_click_kept; [done|]. unfold buttonClickSelector in Hb. by destruct (i_tag _). }
    destruct (formInputClickSelector _); [apply form_input_click_kept|done].
  - destruct (els s !! id) as [e|]; [|done]. destruct (inputChangeSelector _); [|done].
    unfold input_change. destruct (_ || _); [done|apply handleRemote_kept].
  - destruct (els s !! id) as [e|]; [|done]. destruct (bool_decide _); [apply form_submit_kept|done].
  - apply ajax_end_kept.
  - apply run_timer_kept.
  - apply pageshow_kept.
Qed.

Lemma edit_ok v b e : el_ok e -> el_ok (edit v b e).
Proof.
  intros Hok. unfold edit. destruct (e_disabled e) eqn:Hd; [done|]. destruct Hok as [H1 H2 H3]. split; simpl; [|exact H2|exact H3].
  intros Hu. destruct (H1 Hu) as [[[Ht Hs]|[_ ?]] Hr]; [|congruence]. split; [by left|].
  unfold text_of in *. simpl. by rewrite Ht in *.
Qed.

Lemma edit_info v b e : e_info (edit v b e) = e_info e /\ novalidate_button (edit v b e) = novalidate_button e.
Proof. unfold edit. by destruct (e_disabled e). Qed.

(** One element through one action. *)
Lemma act_el a s j e : els s !! j = Some e ->
  exists e', els (act a s) !! j = Some e' /\ e_info e' = e_info e /\
    (novalidate_button e <> None -> novalidate_button e' <> None) /\
    (el_ok e -> el_ok e' /\ ((forall v b, a <> Edit j v b) -> own e' = own e)).
Proof.
  intros He. assert ((exists id v b, a = Edit id v b) \/ forall id v b, a <> Edit id v b) as [(id & v & b & ->)|Ha]
    by (destruct a; (by right) || (left; eauto)).
  - simpl. destruct (decide (id = j)) as [->|Hne].
    + exists (edit v b e). rewrite list_lookup_alter_eq, He.
      destruct (edit_info v b e) as [Hi Hn]. split_and!; [done|done|by rewrite Hn|].
      intros Hok. split; [by apply edit_ok|]. intros Hno. by destruct (Hno v b).
    + exists e. by rewrite list_lookup_alter_ne.
  - destruct (Forall2_lookup_l _ _ _ _ _ (act_kept a s Ha) He) as (e' & He' & Hi & Hn & Hk). exists e'.
    split_and!; [done..|]. intros Hok. destruct (Hk Hok). auto.
Qed.

Lemma run_el l s j e : els s !! j = Some e ->
  exists e', els (run l s) !! j = Some e' /\ e_info e' = e_info e /\
    (novalidate_button e <> None -> novalidate_button e' <> None) /\
    (el_ok e -> el_ok e' /\ ((forall v b, Edit j v b ∉ l) -> own e' = own e)).
Proof.
  revert s e. induction l as [|a l IH]; intros s e He; [exists e; by split_and!|]. simpl.
  destruct (act_el a s j e He) as (e1 & He1 & Hi1 & Hn1 & H1). destruct (IH _ _ He1) as (e2 & He2 & Hi2 & Hn2 & H2).
  exists e2. split_and!; [done|congruence|auto|]. intros Hok. destruct (H1 Hok) as [Hok1 Ho1].
  destruct (H2 Hok1) as [Hok2 Ho2]. split; [done|]. intros Hno.
  rewrite Ho2 by (intros v b Hin; apply (Hno v b); by right).
  apply Ho1. intros v b ->. apply (Hno v b). by left.
Qed.

(** An element no script has touched. *)
Definition fresh (e : el) : Prop := enable_with e = None /\ ujs_disabled e = false /\ stopped e = false.

Lemma fresh_ok e : fresh e -> el_ok e.
Proof. intros (H1 & H2 & H3). split; rewrite ?H1, ?H2, ?H3; done. Qed.

(** C15: Whatever is clicked, sent and answered, the text of an element the user does
    not edit is its own when it is enabled, and the text of [data-disable-with]
    (its own, if there is none) while it is disabled; a link marked as disabled
    stops clicks, a control is disabled. *)
Theorem texts_come_back l s j e :
  els s !! j = Some e -> fresh e -> (forall v b, Edit j v b ∉ l) ->
  exists e', els (run l s) !! j = Some e' /\
    text_of e' = (if ujs_disabled e' then default (text_of e) (d_disable_with (e_info e)) else text_of e) /\
    (ujs_disabled e' = true ->
       i_tag (e_info e) = TA /\ stopped e' = true \/ is_field (e_info e) = true /\ e_disabled e' = true).
Proof.
  intros He Hf Hno. destruct (run_el l s j e He) as (e' & He' & Hi & _ & Hk). exists e'. split; [done|].
  destruct (Hk (fresh_ok e Hf)) as [[H1 H2 _] Ho]. specialize (Ho Hno). rewrite <- Hi in *.
  unfold own in Ho. rewrite (proj1 Hf) in Ho. simpl in Ho. destruct (ujs_disabled e').
  - destruct (H1 eq_refl) as [Hd Hr]. split; [|done]. destruct (d_disable_with _) as [r|]; simpl; [apply Hr|].
    by rewrite Hr in Ho.
  - split; [|done]. by rewrite (H2 eq_refl) in Ho.
Qed.

(** ** The question *)

(** The element an action of the user is about, and what is answered. *)
Definition asked (a : action) : option (nat * answers) :=
  match a with
  | Click id _ w | Change id w | Submit id w => Some (id, w)
  | _ => None
  end.

(** C16: An element with a question: unless the user says yes (and no listener objects),
    nothing is sent, and the page stays as it is. *)
Theorem only_after_yes a id w s e :
  asked a = Some (id, w) -> els s !! id = Some e -> truthy_data (d_confirm (e_info e)) = true ->
  ~ (fire w EConfirm = true /\ confirm w = Some true /\ fire w EConfirmComplete = true) ->
  act a s = s.
Proof.
  intros Ha He Hc Hw. assert (allowAction w (e_info e) = false) as Hno.
  { unfold allowAction. rewrite Hc. simpl. destruct (fire w EConfirm); [|done].
    destruct (confirm w) as [[]|]; [|done..]. simpl. destruct (fire w EConfirmComplete); [|done]. by destruct Hw. }
  destruct a; simplify_eq/=; rewrite He.
  - unfold link_click, button_click, form_input_click. rewrite Hno. simpl.
    by repeat case_match.
  - unfold input_change. rewrite Hno. simpl. by destruct (inputChangeSelector _).
  - unfold form_submit. rewrite Hno. simpl. by destruct (bool_decide _).
Qed.

(** ** Required fields *)











(** A click on a button without validation is remembered for good: from then on,
    the form is sent whatever is missing, also by buttons that validate. *)
Theorem novalidate_sticks l w s id e :
  els s !! id = Some e -> i_tag (e_info e) = TForm -> isRemote (e_info e) = false ->
  novalidate_button e <> None -> allowAction w (e_info e) = true ->
  log (act (Submit id w) (run l s)) = log (run l s) ++ [Native id].
Proof.
  intros He Ht Hr Hb Ha. destruct (run_el l s id e He) as (e' & He' & Hi & Hn & _). specialize (Hn Hb).
  simpl. rewrite He', Hi, bool_decide_true by done. unfold form_submit. rewrite Hi, Ha, Hr. simpl.
  destruct (novalidate_button e'); [|done]. simpl. rewrite andb_false_r. simpl. by destruct (_ && _).
Qed.

(** ** A request and its answer *)

(** What the user sees of an element, and the data about its being disabled. *)
Definition look (e : el) : info * string * string * bool * bool * option string * bool * bool :=
  (e_info e, e_html e, e_val e, e_checked e, e_disabled e, enable_with e, ujs_disabled e, stopped e).

(** Nothing is disabled that a script could enable. *)
Definition untouched (e : el) : Prop :=
  fresh e /\ (is_field (e_info e) = true -> disables (e_info e) = true -> e_disabled e = false).

Lemma form_controls_back f e : untouched e ->
  look (let e := if bool_decide (i_owner (e_info e) = Some f) && disableSelector e then disableFormElement e else e in
        if bool_decide (i_owner (e_info e) = Some f) && enableSelector e then enableFormElement e else e) = look e.
Proof.
  intros [(H1 & H2 & H3) Hd]. unfold disableSelector, enableSelector.
  destruct (bool_decide (i_owner (e_info e) = Some f)) eqn:Ho; cbn -[disableFormElement]; [|by rewrite Ho].
  destruct (is_field (e_info e) && disables (e_info e)) eqn:Ec; cbn -[disableFormElement]; [|by rewrite Ho, Ec].
  pose proof Ec as [Hc Hs]%andb_true_iff. rewrite (Hd Hc Hs). cbn -[disableFormElement].
  destruct (info_disableFormElement e) as [-> _]. rewrite Ho, Ec. cbn -[disableFormElement].
  assert (e_disabled (disableFormElement e) = true) as -> by (unfold disableFormElement; by destruct (d_disable_with _)).
  specialize (Hd Hc Hs). destruct e as [i h v ck d ew u st sb nb]. simpl in *. subst.
  unfold disableFormElement, enableFormElement, set_method_text, method_text, look. simpl.
  by destruct (d_disable_with i), (i_tag i) eqn:Et; simpl; rewrite ?Et; simpl; rewrite ?Et.
Qed.

Lemma link_back e : fresh e -> look (enableElement (disableElement e)) = look e /\ look (enableElement e) = look e.
Proof.
  intros (H1 & H2 & H3). destruct e as [i h v ck d ew u st sb nb]. simpl in *. subst.
  unfold disableElement, enableElement, look. simpl. by destruct (d_disable_with i).
Qed.

Lemma button_back e : fresh e -> e_disabled e = false ->
  look (enableFormElement (disableFormElement e)) = look e /\ look (enableFormElement e) = look e.
Proof.
  intros (H1 & H2 & H3) Hd. destruct e as [i h v ck d ew u st sb nb]. simpl in *. subst.
  unfold disableFormElement, enableFormElement, set_method_text, method_text, look. simpl.
  split; [|done]. by destruct (d_disable_with i), (i_tag i) eqn:Et; simpl; rewrite ?Et; simpl; rewrite ?Et.
Qed.

Lemma look_alter (f : el -> el) (id : nat) (l : list el) :
  (forall e, l !! id = Some e -> look (f e) = look e) -> look <$> alter f id l = look <$> l.
Proof.
  intros H. apply list_eq. intros j. rewrite !list_lookup_fmap. destruct (decide (id = j)) as [->|].
  - rewrite list_lookup_alter_eq. destruct (l !! j) as [e|] eqn:E; [|done]. simpl. by rewrite H.
  - by rewrite list_lookup_alter_ne.
Qed.

Lemma alter_alter (f g : el -> el) (id : nat) (l : list el) : alter f id (alter g id l) = alter (fun e => f (g e)) id l.
Proof.
  apply list_eq. intros j. destruct (decide (id = j)) as [->|]; [|by rewrite !list_lookup_alter_ne].
  rewrite !list_lookup_alter_eq. by destruct (l !! j).
Qed.

(** What a request that is sent leaves behind. *)
Lemma handleRemote_sent w id e s :
  let s' := (handleRemote w id e s).1 in
  pending s' <> pending s ->
  (handleRemote w id e s).2 = RSent /\ pending s' = pending s ++ [id] /\
  els s' = els (if bool_decide (i_tag (e_info e) = TForm)
                then disableFormElements id (on_el id (set_submit_button None) s) else s).
Proof.
  unfold Ujs.handleRemote. destruct (negb (fire w EBefore)); [done|].
  destruct (request_of serializeArray serialize s id e) as [[[method url] has_url] data].
  destruct (fire w EBeforeSend); simpl; [|by destruct (bool_decide _)]. by destruct (bool_decide _).
Qed.

Lemma remote_sent w id e s (f g : el -> el) : i_tag (e_info e) <> TForm ->
  let s1 := (let '(s', h) := handleRemote w id e (on_el id f s) in
             match h with RFalse | RCancelled => on_el id g s' | RSent => s' end) in
  pending s1 <> pending s -> pending s1 = pending s ++ [id] /\ els s1 = alter f id (els s).
Proof.
  intros Ht. pose proof (handleRemote_sent w id e (on_el id f s)) as Hr.
  destruct (handleRemote w id e (on_el id f s)) as [s' h]. simpl in *. intros Hp.
  destruct Hr as (-> & Hp' & He); [by destruct h|]. by rewrite bool_decide_false in He.
Qed.

(** The last of the requests under way ends. *)
Lemma ajax_end_last ok id P s e :
  pending s = P ++ [id] -> els s !! id = Some e ->
  ajax_end ok (length P) s =
    ajax_complete e id
      (let s := Page (els s) (timers s) P (log s) in
       if ok then s
       else if bool_decide (i_tag (e_info e) = TA) then on_el id enableElement s
       else if buttonClickSelector (e_info e) then on_el id enableFormElement s
       else s).
Proof.
  intros Hp He. unfold ajax_end. rewrite Hp, list_lookup_middle by done. simpl. rewrite He, delete_middle, app_nil_r. done.
Qed.

Lemma enableElement_twice e : enableElement (enableElement e) = enableElement e.
Proof. destruct e as [? ? ? ? ? []]; done. Qed.
Lemma enableFormElement_twice e : enableFormElement (enableFormElement e) = enableFormElement e.
Proof. destruct e as [i ? ? ? ? []]; unfold enableFormElement, set_method_text; simpl; by destruct (i_tag i). Qed.

Lemma link_answer ok id e s s1 f :
  els s !! id = Some e -> fresh e -> i_tag (e_info e) = TA -> (f = disableElement /\ linkDisableSelector (e_info e) = true \/ f = Datatypes.id) ->
  pending s1 = pending s ++ [id] -> els s1 = alter f id (els s) ->
  let s2 := ajax_end ok (length (pending s)) s1 in look <$> els s2 = look <$> els s /\ pending s2 = pending s.
Proof.
  intros He Hf Ht Hs Hp Hl. destruct (link_back e Hf) as [Hb1 Hb2].
  assert (els s1 !! id = Some (f e)) as He1 by (by rewrite Hl, list_lookup_alter_eq, He).
  assert (e_info (f e) = e_info e) as Hi by (destruct Hs as [[-> _]| ->]; [apply info_disableElement|done]).
  cbn zeta. rewrite (ajax_end_last ok id _ s1 _ Hp He1). unfold ajax_complete, buttonDisableSelector. rewrite Hi, Ht. simpl.
  assert (forall g, (forall e', els s !! id = Some e' -> look (g (f e')) = look e') ->
    look <$> alter g id (els s1) = look <$> els s) as Hg.
  { intros g H. rewrite Hl, alter_alter. by apply look_alter. }
  split; [|by destruct ok, (linkDisableSelector _)].
  destruct (linkDisableSelector _) eqn:Hsel.
  - destruct ok; simpl; rewrite ?alter_alter; apply Hg; intros e' [= <-]%(eq_trans (eq_sym He));
      rewrite ?enableElement_twice; by destruct Hs as [[-> _]| ->].
  - destruct Hs as [[_ ?]| ->]; [done|]. destruct ok; simpl; [|apply Hg; intros e' [= <-]%(eq_trans (eq_sym He)); done].
    rewrite Hl. by apply look_alter.
Qed.

Lemma button_answer ok id e s s1 f :
  els s !! id = Some e -> fresh e -> e_disabled e = false -> buttonClickSelector (e_info e) = true ->
  (f = disableFormElement /\ buttonDisableSelector (e_info e) = true \/ f = Datatypes.id) ->
  pending s1 = pending s ++ [id] -> els s1 = alter f id (els s) ->
  let s2 := ajax_end ok (length (pending s)) s1 in look <$> els s2 = look <$> els s /\ pending s2 = pending s.
Proof.
  intros He Hf Hd Hc Hs Hp Hl. destruct (button_back e Hf Hd) as [Hb1 Hb2].
  assert (i_tag (e_info e) = TButton) as Ht by (unfold buttonClickSelector in Hc; by destruct (i_tag _)).
  assert (els s1 !! id = Some (f e)) as He1 by (by rewrite Hl, list_lookup_alter_eq, He).
  assert (e_info (f e) = e_info e) as Hi by (destruct Hs as [[-> _]| ->]; [apply info_disableFormElement|done]).
  cbn zeta. rewrite (ajax_end_last ok id _ s1 _ Hp He1). unfold ajax_complete, linkDisableSelector. rewrite Hi, Ht, Hc. simpl.
  assert (forall g, (forall e', els s !! id = Some e' -> look (g (f e')) = look e') ->
    look <$> alter g id (els s1) = look <$> els s) as Hg.
  { intros g H. rewrite Hl, alter_alter. by apply look_alter. }
  split; [|by destruct ok, (buttonDisableSelector _)].
  destruct (buttonDisableSelector _) eqn:Hsel.
  - destruct ok; simpl; rewrite ?alter_alter; apply Hg; intros e' [= <-]%(eq_trans (eq_sym He));
      rewrite ?enableFormElement_twice; by destruct Hs as [[-> _]| ->].
  - destruct Hs as [[_ ?]| ->]; [done|]. destruct ok; simpl; [|apply Hg; intros e' [= <-]%(eq_trans (eq_sym He)); done].
    rewrite Hl. by apply look_alter.
Qed.

Lemma form_answer ok id e s s1 L :
  els s !! id = Some e -> i_tag (e_info e) = TForm ->
  Forall untouched L -> look <$> L = look <$> els s ->
  pending s1 = pending s ++ [id] -> els s1 = els (disableFormElements id (Page L (timers s) (pending s) (log s))) ->
  let s2 := ajax_end ok (length (pending s)) s1 in look <$> els s2 = look <$> els s /\ pending s2 = pending s.
Proof.
  intros He Ht HL Hlook Hp Hl.
  assert (exists e1, els s1 !! id = Some e1 /\ e_info e1 = e_info e) as (e1 & He1 & Hi).
  { assert ((look <$> L) !! id = Some (look e)) as H by (by rewrite Hlook, list_lookup_fmap, He).
    rewrite list_lookup_fmap in H. destruct (L !! id) as [e0|] eqn:E0; [|done]. injection H as Hi _.
    rewrite Hl. simpl. rewrite list_lookup_fmap, E0. eexists. split; [done|].
    destruct (_ && _); [|done]. by rewrite (proj1 (info_disableFormElement e0)). }
  cbn zeta. rewrite (ajax_end_last ok id _ s1 _ Hp He1).
  unfold ajax_complete, linkDisableSelector, buttonDisableSelector, buttonClickSelector. rewrite Hi, Ht. simpl.
  split; [|by destruct ok]. transitivity (look <$> L); [|done].
  assert (forall s', els s' = els s1 -> look <$> els (enableFormElements id s') = look <$> L) as H; [|by destruct ok; apply H].
  intros s' E. simpl. rewrite E, Hl. simpl. rewrite <- !list_fmap_compose. apply Forall_fmap_ext_1.
  eapply Forall_impl; [exact HL|]. intros x Hx. exact (form_controls_back id x Hx).
Qed.

Lemma untouched_alter (f : el -> el) id l :
  (forall e, untouched e -> untouched (f e)) -> Forall untouched l -> Forall untouched (alter f id l).
Proof.
  intros Hf Hl. apply Forall_lookup. intros j x. destruct (decide (id = j)) as [->|].
  - rewrite list_lookup_alter_eq. destruct (l !! j) eqn:E; [|done]. intros [= <-]. apply Hf.
    by eapply Forall_lookup_1.
  - rewrite list_lookup_alter_ne by done. by apply Forall_lookup_1.
Qed.

(** The request [s1] has made is answered: all is as in [s]. *)
Definition answered (ok : bool) (s s1 : page) : Prop :=
  pending s1 <> pending s ->
  let s2 := ajax_end ok (length (pending s)) s1 in look <$> els s2 = look <$> els s /\ pending s2 = pending s.

Lemma link_restores ok w b id e s : els s !! id = Some e -> fresh e -> i_tag (e_info e) = TA ->
  answered ok s (link_click csrfToken csrfParam anchor origin serializeArray serialize ajax_dataType accepts_script w b id e s).
Proof.
  intros He Hf Ht. unfold link_click. destruct (stopped e); [done|]. destruct (negb (allowAction _ _)); [done|].
  assert ((if negb b && linkDisableSelector (e_info e) then on_el id disableElement s else s)
    = on_el id (if negb b && linkDisableSelector (e_info e) then disableElement else Datatypes.id) s) as ->
    by (destruct (_ && _); [done|by rewrite <- (on_el_id id s) at 1]).
  destruct (isRemote _); [|destruct (truthy_data _); done].
  destruct (_ && negb (truthy_data _)); [done|].
  intros [Hp Hels]%(remote_sent w id e s _ enableElement ltac:(congruence)).
  eapply link_answer; [done..| |exact Hp|exact Hels].
  destruct (negb b); [|by right]. destruct (linkDisableSelector _); [by left|by right].
Qed.

Lemma button_restores ok w id e s : els s !! id = Some e -> fresh e -> buttonClickSelector (e_info e) = true ->
  answered ok s (button_click csrfToken anchor origin serializeArray serialize ajax_dataType accepts_script w id e s).
Proof.
  intros He Hf Hb.
  assert (i_tag (e_info e) = TButton) as Ht by (unfold buttonClickSelector in Hb; by destruct (i_tag _)).
  unfold button_click. destruct (e_disabled e) eqn:Hdis; [done|]. destruct (_ || _); [done|].
  assert ((if buttonDisableSelector (e_info e) then on_el id disableFormElement s else s)
    = on_el id (if buttonDisableSelector (e_info e) then disableFormElement else Datatypes.id) s) as ->
    by (destruct (buttonDisableSelector _); [done|by rewrite <- (on_el_id id s) at 1]).
  intros [Hp Hels]%(remote_sent w id e s _ enableFormElement ltac:(congruence)).
  eapply button_answer; [done..| |exact Hp|exact Hels]. destruct (buttonDisableSelector _); [by left|by right].
Qed.

Lemma field_restores ok w id e s : els s !! id = Some e -> inputChangeSelector (e_info e) = true ->
  answered ok s (input_change csrfToken anchor origin serializeArray serialize ajax_dataType accepts_script w id e s).
Proof.
  intros He Hc. unfold input_change. destruct (_ || _); [done|]. intros (_ & Hp & Hl)%handleRemote_sent.
  set (s1 := (handleRemote w id e s).1) in *.
  rewrite bool_decide_false in Hl by (intros E; unfold inputChangeSelector in Hc; by rewrite E in Hc).
  cbn zeta. rewrite (ajax_end_last ok id _ s1 e Hp) by (by rewrite Hl).
  unfold ajax_complete, linkDisableSelector, buttonDisableSelector, buttonClickSelector.
  unfold inputChangeSelector in Hc. destruct (i_tag (e_info e)) eqn:Ht; try done; simpl; rewrite ?Ht; simpl;
    destruct ok; simpl; by rewrite Hl.
Qed.

Lemma form_restores ok w id e s : els s !! id = Some e -> Forall untouched (els s) -> i_tag (e_info e) = TForm ->
  answered ok s (form_submit csrfToken anchor origin serializeArray serialize ajax_dataType accepts_script w id e s).
Proof.
  intros He Hu Ht. unfold form_submit. destruct (negb (allowAction _ _)); [done|].
  destruct (_ && fire w EAbortedRequired); [done|].
  set (f := if negb (i_novalidate (e_info e)) && is_some (novalidate_button e) then set_novalidate_button None else Datatypes.id).
  assert ((if negb (i_novalidate (e_info e)) && is_some (novalidate_button e) then on_el id (set_novalidate_button None) s else s)
    = on_el id f s) as -> by (unfold f; destruct (_ && _); [done|by rewrite <- (on_el_id id s) at 1]).
  destruct (isRemote _); [|done]. destruct (negb (bool_decide _)); [by destruct (fire w EAbortedFile)|].
  intros Hp. destruct (handleRemote_sent w id e (on_el id f s) Hp) as (_ & Hp' & Hl). rewrite bool_decide_true in Hl by done.
  apply (form_answer ok id e s _ (alter (set_submit_button None) id (alter f id (els s)))); try done.
  - apply untouched_alter; [done|]. apply untouched_alter; [|done]. intros x Hx. unfold f. by destruct (_ && _).
  - rewrite alter_alter. apply look_alter. intros x _. unfold f. by destruct (_ && _).
Qed.

(** C17: A page on which nothing is disabled: when a link, a button, a field or a form
    makes a request, then the answer, an error or not, brings every element back
    to what it was. *)
Theorem answer_restores a id w ok s :
  asked a = Some (id, w) -> Forall untouched (els s) ->
  let s1 := act a s in
  pending s1 <> pending s ->
  let s2 := act (End ok (length (pending s))) s1 in
  look <$> els s2 = look <$> els s /\ pending s2 = pending s.
Proof.
  intros Ha Hu. destruct (els s !! id) as [e|] eqn:He; [|by destruct a; simplify_eq/=; rewrite He].
  assert (untouched e) as [Hf _] by (by eapply Forall_lookup_1).
  change (answered ok s (act a s)). destruct a; simplify_eq/=; rewrite He.
  - destruct (linkClickSelector _) eqn:Hl.
    { apply link_restores; [done..|]. unfold linkClickSelector in Hl. by destruct (i_tag _). }
    destruct (buttonClickSelector _) eqn:Hb; [by apply button_restores|].
    destruct (formInputClickSelector _); [|done]. unfold form_input_click. by repeat case_match.
  - destruct (inputChangeSelector _) eqn:Hc; [by apply field_restores|done].
  - destruct (bool_decide _) eqn:Ht; [|done]. apply bool_decide_eq_true in Ht. by apply form_restores.
Qed.

(** ** The token *)

(** The address is one of this site. *)
Definition home (url : option string) : Prop :=
  exists protocol host, anchor (default "undefined"%string url) = Some (protocol, host) /\
    ((protocol = "" \/ protocol = ":") /\ host = "" \/ (protocol, host) = origin)%string.

(** A request carries the token exactly if it goes to this site and there is one; so
    does a form made for a link. *)
Definition guarded (x : effect) : Prop :=
  match x with
  | Ajax _ r => exists url, (rq_url r = url \/ rq_url r = None) /\
      ((home url /\ rq_token r = if nonempty csrfToken then csrfToken else None) \/ (~ home url /\ rq_token r = None))
  | Post form inputs _ => exists href method,
      form = ("<form method=" +:+ quoted "post" +:+ " action=" +:+ quoted href +:+ "></form>")%string /\
      ((exists p t, home (Some href) /\ csrfParam = Some p /\ csrfToken = Some t /\
          inputs = (hidden_input "_method" method +:+ hidden_input p t)%string) \/
       (~ (home (Some href) /\ is_some csrfParam = true /\ is_some csrfToken = true) /\
          inputs = hidden_input "_method" method))
  | Native _ => True
  end.

Context (Hslash : forall url p h, anchor url = Some (p, h) -> no_slash p = true).
Context (Horigin : no_slash origin.1 = true).

Lemma isCrossDomain_spec url : isCrossDomain url = false <-> home url.
Proof.
  unfold Ujs.isCrossDomain, home. destruct (anchor _) as [[p h]|] eqn:E; [|split; [done|by intros (? & ? & ? & _)]].
  rewrite negb_false_iff, orb_true_iff, andb_true_iff, orb_true_iff, !String.eqb_eq. destruct origin as [p0 h0] eqn:Eo.
  simpl in *. split.
  - intros Ho. exists p, h. split; [done|]. destruct Ho as [?|Ho]; [by left|right].
    apply origin_inj in Ho as [-> ->]; [done|done|by eapply Hslash].
  - intros (p' & h' & ? & Ho). simplify_eq. destruct Ho as [?|Ho]; [by left|right]. by simplify_eq.
Qed.

Definition logs (s s' : page) : Prop := log s' = log s \/ exists x, log s' = log s ++ [x] /\ guarded x.

Lemma logs_same s s' : log s' = log s -> logs s s'.
Proof. by left. Qed.

Lemma handleRemote_logs w id e s : logs s (handleRemote w id e s).1.
Proof.
  unfold Ujs.handleRemote. destruct (negb (fire w EBefore)); [by left|].
  destruct (request_of serializeArray serialize s id e) as [[[method url] has_url] data].
  destruct (fire w EBeforeSend); [right|left; by destruct (bool_decide _)].
  eexists. split; [simpl; by destruct (bool_decide _)|]. exists url. simpl. split; [destruct has_url; auto|].
  unfold CSRFProtection. destruct (isCrossDomain url) eqn:E; simpl; [right|left].
  - split; [|done]. intros Hh%isCrossDomain_spec. congruence.
  - split; [by apply isCrossDomain_spec|done].
Qed.

Lemma handleMethod_logs i s : logs s (handleMethod i s).
Proof.
  right. eexists. split; [done|]. exists (i_href i), (default "undefined"%string (d_method i)). split; [done|].
  destruct csrfParam as [p|] eqn:Ep, csrfToken as [t|] eqn:Et; try (right; split; [by intros (_ & ? & ?)|done]).
  destruct (isCrossDomain (Some (i_href i))) eqn:E; simpl; [right|left].
  - split; [|done]. intros [Hh%isCrossDomain_spec _]. congruence.
  - exists p, t. split_and!; try done. by apply isCrossDomain_spec.
Qed.

Lemma logs_remote w id e s (g : el -> el) :
  logs s (let '(s, h) := handleRemote w id e s in match h with RFalse | RCancelled => on_el id g s | RSent => s end).
Proof.
  pose proof (handleRemote_logs w id e s) as Hl. destruct (handleRemote w id e s) as [s' h]. by destruct h.
Qed.

Lemma act_logs a s : logs s (act a s).
Proof.
  assert (forall id, logs s (emit (Native id) s)) as Hn by (intros id; right; by exists (Native id)).
  destruct a as [id b w|id w|id w|ok n| | |id v b]; simpl.
  - destruct (els s !! id) as [e|]; [|by left]. destruct (linkClickSelector _).
    { unfold link_click. destruct (stopped e); [by left|]. destruct (negb (allowAction _ _)); [by left|].
      set (s1 := if _ && _ then on_el id disableElement s else s).
      assert (log s1 = log s) as E1 by (subst s1; by destruct (_ && _)).
      assert (forall s', logs s1 s' -> logs s s') as Hl by (unfold logs; by rewrite E1). clearbody s1. clear Hn.
      apply Hl. destruct (isRemote _).
      - destruct (_ && negb (truthy_data _)); [right; by exists (Native id)|apply logs_remote].
      - destruct (truthy_data _); [apply handleMethod_logs|right; by exists (Native id)]. }
    destruct (buttonClickSelector _).
    { unfold button_click. destruct (e_disabled e); [by left|]. destruct (_ || _); [by left|].
      destruct (buttonDisableSelector _); [exact (logs_remote w id e (on_el id disableFormElement s) enableFormElement)|].
      apply logs_remote. }
    destruct (formInputClickSelector _); [|by left]. left. unfold form_input_click. by repeat case_match.
  - destruct (els s !! id) as [e|]; [|by left]. destruct (inputChangeSelector _); [|by left].
    unfold input_change. destruct (_ || _); [by left|apply handleRemote_logs].
  - destruct (els s !! id) as [e|]; [|by left]. destruct (bool_decide _); [|by left].
    unfold form_submit. destruct (negb (allowAction _ _)); [by left|]. destruct (_ && fire w EAbortedRequired); [by left|].
    set (s1 := if _ && _ then on_el id _ s else s).
    assert (log s1 = log s) as E1 by (subst s1; by destruct (_ && _)).
    assert (forall s', logs s1 s' -> logs s s') as Hl by (unfold logs; by rewrite E1). clearbody s1.
    apply Hl. destruct (isRemote _); [|right; by exists (Native id)].
    destruct (negb _); [|apply handleRemote_logs]. destruct (fire w EAbortedFile); [right; by exists (Native id)|by left].
  - left. unfold ajax_end, ajax_complete. by repeat case_match.
  - left. unfold run_timer. by repeat case_match.
  - by left.
  - by left.
Qed.

(** C14: In every sequence of actions, each request and each form made for a link
    carries the token of the page if it goes to this site, and no other does. *)
Theorem token_stays_home l s x : log s = [] -> x ∈ log (run l s) -> guarded x.
Proof.
  intros Hs. assert (forall x, x ∈ log s -> guarded x) as H by (rewrite Hs; by intros ? []%elem_of_nil).
  clear Hs. revert s H x. induction l as [|a l IH]; intros s H x; [apply H|]. simpl. apply IH. intros y.
  destruct (act_logs a s) as [->|(z & -> & Hz)]; [apply H|].
  rewrite elem_of_app, list_elem_of_singleton. intros [?| ->]; [by apply H|done].
Qed.
End ujs.

(** ** A page

    A link that deletes, after a question and without a new page; and a form with a
    required field, a button that does not validate and one that does. *)

Definition plain (t : tag) : info :=
  Info t None None None None false false false None None "" None None None None None None None None None false.
Definition ex_link : info :=
  Info TA None None None None false false false None None "/works/1" None
    (Some "Are you sure?"%string) (Some "delete"%string) (Some "true"%string) None None None None
    (Some "Deleting"%string) false.
Definition ex_field : info :=
  Info TInput (Some "text"%string) (Some "title"%string) (Some 1%nat) (Some 1%nat) true false false None None "" None
    None None None None None None None None false.
Definition ex_submit (novalidate : bool) : info :=
  Info TButton (Some "submit"%string) None (Some 1%nat) (Some 1%nat) false false novalidate None None "" None
    None None None None None None None (Some "Saving"%string) false.

Definition new_el (i : info) (html : string) : el := El i html "" false false None false false None None.
Definition ex_page : page :=
  Page [new_el ex_link "Delete"; new_el (plain TForm) ""; new_el ex_field "";
        new_el (ex_submit true) "Save draft"; new_el (ex_submit false) "Save"] [] [] [].

Definition ex_anchor (url : string) : option (string * string) :=
  if String.prefix "//" url then Some ("http:", "example.org")%string else Some ("http:", "lagotto.org")%string.
Definition ex_origin : string * string := ("http:", "lagotto.org")%string.
Definition answer (b : bool) : answers := Answers (fun _ => true) (Some b).

#[local] Abbreviation ex_act :=
  (act (Some "T"%string) (Some "token"%string) ex_anchor ex_origin (fun _ _ => []) (fun _ _ => "") None "js").
#[local] Abbreviation ex_run :=
  (run (Some "T"%string) (Some "token"%string) ex_anchor ex_origin (fun _ _ => []) (fun _ _ => "") None "js").

Lemma texts_come_back_witness :
  exists e, els (ex_run [Click 0 false (answer true)] ex_page) !! 0%nat = Some e /\
    text_of e = "Deleting"%string /\ stopped e = true.
Proof.
  destruct (texts_come_back (Some "T"%string) (Some "token"%string) ex_anchor ex_origin (fun _ _ => []) (fun _ _ => "")
    None "js" [Click 0 false (answer true)] ex_page 0 (new_el ex_link "Delete")) as (e & He & Hs & _).
  - reflexivity.
  - by vm_compute.
  - intros v b H. by apply list_elem_of_singleton in H.
  - exists e. split; [done|]. vm_compute in He. injection He as <-. by vm_compute.
Defined.

Lemma only_after_yes_witness : ex_act (Click 0 false (answer false)) ex_page = ex_page.
Proof.
  apply (only_after_yes (Some "T"%string) (Some "token"%string) ex_anchor ex_origin (fun _ _ => []) (fun _ _ => "")
    None "js" (Click 0 false (answer false)) 0 (answer false) ex_page (new_el ex_link "Delete")); try reflexivity.
  by intros (_ & ? & _).
Defined.



(** The field is missing, and the form is not sent. *)
Example ex_not_sent : ex_act (Submit 1 (answer true)) ex_page = ex_page.
Proof. by vm_compute. Qed.

(** After a click on the button that does not validate, the other button sends the form too. *)
Definition ex_draft : page := ex_act (Click 3 false (answer true)) ex_page.

Lemma novalidate_sticks_witness :
  log (ex_act (Submit 1 (answer true)) (ex_run [Click 4 false (answer true)] ex_draft)) = [Native 1].
Proof.
  destruct (els ex_draft !! 1%nat) as [e|] eqn:E; [|by vm_compute in E].
  apply (novalidate_sticks (Some "T"%string) (Some "token"%string) ex_anchor ex_origin (fun _ _ => []) (fun _ _ => "")
    None "js" [Click 4 false (answer true)] (answer true) ex_draft 1 e E); vm_compute in E; by injection E as <-.
Defined.

Lemma answer_restores_witness :
  let s1 := ex_act (Click 0 false (answer true)) ex_page in
  look <$> els (ex_act (End false 0) s1) = look <$> els ex_page /\ pending (ex_act (End false 0) s1) = [].
Proof.
  apply (answer_restores (Some "T"%string) (Some "token"%string) ex_anchor ex_origin (fun _ _ => []) (fun _ _ => "")
    None "js" (Click 0 false (answer true)) 0 (answer true) false ex_page).
  - reflexivity.
  - repeat constructor.
  - by vm_compute.
Defined.

Lemma token_stays_home_witness :
  exists x, log (ex_run [Click 0 false (answer true)] ex_page) = [x] /\
    guarded (Some "T"%string) (Some "token"%string) ex_anchor ex_origin x.
Proof.
  eexists. split; [vm_compute; reflexivity|].
  apply (token_stays_home (Some "T"%string) (Some "token"%string) ex_anchor ex_origin (fun _ _ => [])
    (fun _ _ => "") None "js") with (l := [Click 0 false (answer true)]) (s := ex_page).
  - intros url p h. unfold ex_anchor. destruct (String.prefix _ _); intros E; injection E as <- <-; reflexivity.
  - reflexivity.
  - reflexivity.
  - vm_compute. left.
Defined.
