(* ===== verification/TooltipPlace.v ===== *)
(** * Where a tooltip goes ([bootstrap/tooltip.js])

    The arithmetic of [show] and [applyPlacement]: the side of the element
    ([placement], chosen again when it has the word auto), the offset of the tip, the
    shift that keeps it in the viewport, and the arrow.  Rectangles and sizes are
    what the browser measures: arguments. *)

From Stdlib Require Import Ascii String QArith Lqa Qround.
From S2P Require Import Prelude.
From S2P Require Import JsStrings.

#[local] Open Scope Q_scope.

(** ** Geometry *)

(** What [getPosition] returns. *)
Record rect := Rect {
  r_top : Q; r_left : Q; r_bottom : Q; r_right : Q; r_width : Q; r_height : Q; r_scroll : Q }.

Record offset := Offset { o_top : Q; o_left : Q }.

(** The option [viewport]: its padding, and the rectangle of its element. *)
Record viewport := Viewport { v_padding : Q; v_rect : rect }.

(** [getCalculatedOffset]. *)
Definition getCalculatedOffset (placement : string) (pos : rect) (actualWidth actualHeight : Q) : offset :=
  if String.eqb placement "bottom" then
    Offset (r_top pos + r_height pos) (r_left pos + r_width pos / 2 - actualWidth / 2)
  else if String.eqb placement "top" then
    Offset (r_top pos - actualHeight) (r_left pos + r_width pos / 2 - actualWidth / 2)
  else if String.eqb placement "left" then
    Offset (r_top pos + r_height pos / 2 - actualHeight / 2) (r_left pos - actualWidth)
  else Offset (r_top pos + r_height pos / 2 - actualHeight / 2) (r_left pos + r_width pos).

(** [a < b] of numbers. *)
Definition Qltb (a b : Q) : bool := negb (Qle_bool b a).

(** [/right|left/.test(placement)] and [/top|bottom/.test(placement)]. *)
Definition contains (pattern s : string) : bool := bool_decide (String.index 0 pattern s <> None).
Definition sideways (placement : string) : bool := contains "right" placement || contains "left" placement.
Definition isVertical (placement : string) : bool := contains "top" placement || contains "bottom" placement.

Definition getViewportAdjustedDelta (v : option viewport) (placement : string) (pos : offset)
    (actualWidth actualHeight : Q) : offset :=
  match v with
  | None => Offset 0 0
  | Some (Viewport viewportPadding dims) =>
      if sideways placement then
        let topEdgeOffset := o_top pos - viewportPadding - r_scroll dims in
        let bottomEdgeOffset := o_top pos + viewportPadding - r_scroll dims + actualHeight in
        if Qltb topEdgeOffset (r_top dims) then Offset (r_top dims - topEdgeOffset) 0
        else if Qltb (r_top dims + r_height dims) bottomEdgeOffset then
          Offset (r_top dims + r_height dims - bottomEdgeOffset) 0
        else Offset 0 0
      else
        let leftEdgeOffset := o_left pos - viewportPadding in
        let rightEdgeOffset := o_left pos + viewportPadding + actualWidth in
        if Qltb leftEdgeOffset (r_left dims) then Offset 0 (r_left dims - leftEdgeOffset)
        else if Qltb (r_right dims) rightEdgeOffset then
          Offset 0 (r_left dims + r_width dims - rightEdgeOffset)
        else Offset 0 0
  end.

(** The sizes of the tip before and after it has its class [in], its margins
    ([NaN] counts as 0), and its size at the end, for the arrow. *)
Record tip_sizes := TipSizes {
  s_width : Q; s_height : Q; s_marginTop : Q; s_marginLeft : Q;
  s_actualWidth : Q; s_actualHeight : Q; s_endWidth : Q; s_endHeight : Q }.

(** The arrow's [left] (or [top]), in per cent; [None] when the tip has no size. *)
Definition replaceArrow (delta dimension : Q) : option Q :=
  if Qeq_bool dimension 0 then None else Some (50 * (1 - delta / dimension)).

(** [applyPlacement]: the offset in the end, and the arrow. *)
Definition applyPlacement (v : option viewport) (z : tip_sizes) (off : offset) (placement : string)
    : offset * option Q :=
  let top := o_top off + s_marginTop z in
  let left := o_left off + s_marginLeft z in
  let top := if String.eqb placement "top" && negb (Qeq_bool (s_actualHeight z) (s_height z))
             then top + s_height z - s_actualHeight z else top in
  let delta := getViewportAdjustedDelta v placement (Offset top left) (s_actualWidth z) (s_actualHeight z) in
  let off := if Qeq_bool (o_left delta) 0 then Offset (top + o_top delta) left
             else Offset top (left + o_left delta) in
  let arrowDelta := if isVertical placement then o_left delta * 2 - s_width z + s_actualWidth z
                    else o_top delta * 2 - s_height z + s_actualHeight z in
  (off, replaceArrow arrowDelta (if isVertical placement then s_endWidth z else s_endHeight z)).

(** ** The option [placement] *)

(** White space, ASCII. *)
Definition space (c : ascii) : bool :=
  let n := nat_of_ascii c in bool_decide (n = 32 \/ 9 <= n <= 13)%nat.
Definition skip_space (s : string) : string :=
  match s with String c s' => if space c then s' else s | EmptyString => s end.

Definition letter (small big : ascii) (s : string) : option string :=
  match s with
  | String c s' => if is_char small c || is_char big c then Some s' else None
  | EmptyString => None
  end.

(** The rest after a match of [/\s?auto?\s?/i] at the start. *)
Definition auto_here (s : string) : option string :=
  s ← letter "a" "A" (skip_space s);
  s ← letter "u" "U" s;
  s ← letter "t" "T" s;
  Some (skip_space (default s (letter "o" "O" s))).

(** [placement.replace(autoToken, '')] when [autoToken.test(placement)]. *)
Fixpoint strip_auto (s : string) : option string :=
  match auto_here s with
  | Some rest => Some rest
  | None => match s with String c s' => String c <$> strip_auto s' | EmptyString => None end
  end.

(** The side with more room. *)
Definition auto_place (placement : string) (pos viewportDim : rect) (actualWidth actualHeight : Q) : string :=
  if String.eqb placement "bottom" && Qltb (r_bottom viewportDim) (r_bottom pos + actualHeight) then "top"
  else if String.eqb placement "top" && Qltb (r_top pos - actualHeight) (r_top viewportDim) then "bottom"
  else if String.eqb placement "right" && Qltb (r_width viewportDim) (r_right pos + actualWidth) then "left"
  else if String.eqb placement "left" && Qltb (r_left pos - actualWidth) (r_left viewportDim) then "right"
  else placement.

(** The side asked for, and whether it is to be chosen again. *)
Definition asked_side (placement : string) : string * bool :=
  match strip_auto placement with
  | Some rest => (if String.eqb rest "" then "top" else rest, true)
  | None => (placement, false)
  end.

Example strip_ex :
  asked_side "auto" = ("top"%string, true) /\ asked_side "auto left" = ("left"%string, true) /\
  asked_side "left AUTO" = ("left"%string, true) /\ asked_side "right" = ("right"%string, false).
Proof. by vm_compute. Qed.

(** ** The tip stays in the viewport, the arrow at the element *)

Definition sides : list string := ["top"; "bottom"; "left"; "right"]%string.

Lemma Qltb_true a b : Qltb a b = true <-> a < b.
Proof.
  unfold Qltb. destruct (Qle_bool b a) eqn:E; simpl.
  - apply Qle_bool_iff in E. split; [done|lra].
  - split; [intros _|done]. apply Qnot_le_lt. intros H%Qle_bool_iff. congruence.
Qed.

Lemma Qltb_false a b : Qltb a b = false <-> b <= a.
Proof. rewrite <- not_true_iff_false, Qltb_true. split; [apply Qnot_lt_le|lra]. Qed.

(** Cases on the comparisons of the goal. *)
Ltac qcases :=
  repeat match goal with
  | |- context [Qltb ?a ?b] => destruct (Qltb a b) eqn:?
  | |- context [Qeq_bool ?a ?b] => destruct (Qeq_bool a b) eqn:?
  end;
  repeat match goal with
  | H : Qltb _ _ = true |- _ => apply Qltb_true in H
  | H : Qltb _ _ = false |- _ => apply Qltb_false in H
  | H : Qeq_bool _ _ = true |- _ => apply Qeq_bool_eq in H
  | H : Qeq_bool _ _ = false |- _ => apply Qeq_bool_neq in H
  end; simpl in *.

(** C36: a tip that fits between the paddings of the viewport ends up there, along the side
    of its element, wherever the element is. *)
Theorem tip_in_viewport v z off placement :
  placement ∈ sides ->
  let dims := v_rect v in
  r_right dims == r_left dims + r_width dims ->
  s_actualWidth z + 2 * v_padding v <= r_width dims ->
  s_actualHeight z + 2 * v_padding v <= r_height dims ->
  let off' := (applyPlacement (Some v) z off placement).1 in
  if sideways placement then
    r_top dims + v_padding v <= o_top off' - r_scroll dims /\
    o_top off' - r_scroll dims + s_actualHeight z + v_padding v <= r_top dims + r_height dims
  else
    r_left dims + v_padding v <= o_left off' /\
    o_left off' + s_actualWidth z + v_padding v <= r_left dims + r_width dims.
Proof.
  intros Hp dims Hr Hw Hh off'. subst off' dims. destruct v as [p dims]. simpl in *.
  unfold sides in Hp. rewrite !elem_of_cons, elem_of_nil in Hp.
  unfold applyPlacement, getViewportAdjustedDelta.
  destruct Hp as [->|[->|[->|[->|[]]]]]; simpl; qcases; split; lra.
Qed.

(** A narrow bar at the left edge of the page, and its tip. *)
Definition edge_rect : rect := Rect 300 2 310 12 10 10 0.
Definition edge_sizes : tip_sizes := TipSizes 80 30 0 0 80 30 80 30.
Definition edge_viewport : viewport := Viewport 5 (Rect 0 0 600 800 800 600 0).

Lemma tip_in_viewport_witness :
  let off := getCalculatedOffset "top" edge_rect 80 30 in
  let off' := (applyPlacement (Some edge_viewport) edge_sizes off "top").1 in
  o_left off < 0 /\ 0 + 5 <= o_left off' /\ o_left off' + 80 + 5 <= 0 + 800.
Proof.
  split; [by vm_compute|].
  apply (tip_in_viewport edge_viewport edge_sizes (getCalculatedOffset "top" edge_rect 80 30) "top"); [left|by vm_compute..].
Defined.

(** The shift is along the side. *)
Lemma adjusted_delta v placement off w h :
  let d := getViewportAdjustedDelta v placement off w h in
  if sideways placement then o_left d = 0 else o_top d = 0.
Proof.
  unfold getViewportAdjustedDelta. destruct v as [[p dims]|]; [|by destruct (sideways placement)].
  destruct (sideways placement); by repeat case_match.
Qed.

(** The place of the arrow, as a share of the tip. *)
Lemma arrow_at delta dimension :
  ~ dimension == 0 -> replaceArrow delta dimension = Some (50 * (1 - delta / dimension)).
Proof. unfold replaceArrow. intros Hn. destruct (Qeq_bool dimension 0) eqn:E; [by apply Qeq_bool_eq in E|done]. Qed.

Lemma arrow_there delta dimension :
  ~ dimension == 0 -> dimension * (50 * (1 - delta / dimension) / 100) == dimension / 2 - delta / 2.
Proof. intros Hn. field. done. Qed.

(** The arrow points at the middle of the element, also when the tip was shifted or
    has changed its size. *)
Theorem arrow_points v z pos placement :
  placement ∈ sides -> let off := getCalculatedOffset placement pos (s_width z) (s_height z) in
  let '(off', arrow) := applyPlacement v z off placement in
  if sideways placement then
    s_marginTop z == 0 -> s_endHeight z == s_actualHeight z -> ~ s_endHeight z == 0 ->
    exists a, arrow = Some a /\ o_top off' + s_endHeight z * (a / 100) == r_top pos + r_height pos / 2
  else
    s_marginLeft z == 0 -> s_endWidth z == s_actualWidth z -> ~ s_endWidth z == 0 ->
    exists a, arrow = Some a /\ o_left off' + s_endWidth z * (a / 100) == r_left pos + r_width pos / 2.
Proof.
  intros Hp off. unfold applyPlacement. cbv zeta.
  set (top := if _ && _ then _ else _). pose proof (adjusted_delta v placement (Offset top (o_left off + s_marginLeft z))
    (s_actualWidth z) (s_actualHeight z)) as Hd. destruct (getViewportAdjustedDelta _ _ _ _ _) as [dt dl]. simpl in *.
  unfold sides in Hp. rewrite !elem_of_cons, elem_of_nil in Hp.
  destruct Hp as [->|[->|[->|[->|[]]]]]; simpl in *; subst top off; rewrite Hd in *; intros Hm He Hn;
    (eexists; split; [by apply arrow_at|]); rewrite (arrow_there _ _ Hn); simpl; qcases;
    unfold Qdiv; change (/ 2) with (1 # 2); lra.
Qed.

Lemma arrow_points_witness :
  exists a, (applyPlacement (Some edge_viewport) edge_sizes (getCalculatedOffset "top" edge_rect 80 30) "top").2 = Some a /\
    o_left (applyPlacement (Some edge_viewport) edge_sizes (getCalculatedOffset "top" edge_rect 80 30) "top").1
    + 80 * (a / 100) == 2 + 10 / 2.
Proof. apply (arrow_points (Some edge_viewport) edge_sizes edge_rect "top"); [left|by vm_compute..]. Defined.
