(* ===== verification/Tooltip.v ===== *)
(** * Tooltips of bootstrap ([bootstrap/tooltip.js])

    One element and everything the plugin keeps about it: the data and the listeners
    of the element, the instances made for it and the tips they have made (both
    numbered: an instance or a tip can outlive its use).  What waits for the end
    of a CSS transition is pending on the tip, and the end of the transition is a step of
    its own, as are the timeouts of the option [delay].  Whether a listener of another
    script prevents an event, the sizes of the page, and whether the browser has
    transitions are parameters.  The option [selector] (delegation), titles and
    placements that are functions, and templates are left out. *)

From Stdlib Require Import Ascii String QArith.
From S2P Require Import Prelude.
From S2P Require Import JsStrings.
From S2P Require Import TooltipPlace.

#[local] Open Scope string_scope.
#[local] Open Scope list_scope.

(** ** Options *)

Inductive delay := DelayNumber (ms : Z) | DelayObject (show_ms hide_ms : Z).

Record options := Options {
  animation : bool; placement : string; trigger : string; o_title : string; o_delay : delay; container : bool;
  has_viewport : bool; viewport_padding : Q }.

(** Options that are given: in the call, or as data of the element. *)
Record given_options := Given {
  g_animation : option bool; g_placement : option string; g_trigger : option string; g_title : option string;
  g_delay : option delay; g_container : option bool; g_has_viewport : option bool; g_padding : option Q }.

Definition no_options : given_options := Given None None None None None None None None.

Definition DEFAULTS : options := Options true "top" "hover focus" "" (DelayNumber 0) false true 0%Q.

Definition extend (o : options) (g : given_options) : options :=
  Options (default (animation o) (g_animation g)) (default (placement o) (g_placement g))
    (default (trigger o) (g_trigger g)) (default (o_title o) (g_title g)) (default (o_delay o) (g_delay g))
    (default (container o) (g_container g)) (default (has_viewport o) (g_has_viewport g))
    (default (viewport_padding o) (g_padding g)).

(** A delay that is a number counts for both. *)
Definition getOptions (el_data opts : given_options) : options :=
  let o := extend (extend DEFAULTS el_data) opts in
  match o_delay o with
  | DelayNumber ms =>
      if (ms =? 0)%Z then o
      else Options (animation o) (placement o) (trigger o) (o_title o) (DelayObject ms ms) (container o)
             (has_viewport o) (viewport_padding o)
  | DelayObject _ _ => o
  end.

(** [!options.delay || !options.delay.show], and the same of [hide]. *)
Definition show_delay (o : options) : bool :=
  match o_delay o with DelayObject s _ => negb (s =? 0)%Z | DelayNumber _ => false end.
Definition hide_delay (o : options) : bool :=
  match o_delay o with DelayObject _ h => negb (h =? 0)%Z | DelayNumber _ => false end.

(** ** State *)

Inductive hover := HoverIn | HoverOut.
#[export] Instance hover_eq_dec : EqDecision hover.
Proof. solve_decision. Defined.

Inductive timer := TimerShow | TimerHide.

(** What waits for the end of a transition: [complete] of [show] or of [hide], of
    an instance; [hide] may have the callback of [destroy]. *)
Inductive handler := ShowComplete (i : nat) | HideComplete (i : nat) (destroying : bool).

Record tip := Tip {
  t_in : bool; t_fade : bool; t_sides : list string; t_attached : bool; t_text : string;
  t_offset : option offset; t_arrow : option Q; t_pending : list handler }.

(** An instance of [Tooltip]; [hoverState] is [null], ['in'] or ['out']. *)
Record self := Self {
  enabled : bool; timeout : option timer; hoverState : option hover;
  in_click : bool; in_hover : bool; in_focus : bool; opts : options; the_tip : option nat }.

Inductive user_event := Mouseenter | Mouseleave | Focusin | Focusout | Click.
#[export] Instance user_event_eq_dec : EqDecision user_event.
Proof. solve_decision. Defined.

Inductive handling := Enter | Leave | Toggle.

Inductive bs_event := Show | Inserted | Shown | Hide | Hidden.

Record element := Element {
  attr_title : option string; attr_original : option string; describedby : option nat; in_document : bool;
  el_data : given_options; data : option nat; bound : list (user_event * handling);
  selfs : list self; tips : list tip; triggered : list bs_event }.

Definition new_tip : tip := Tip false false [] false "" None None [].
Definition new_self (o : options) : self := Self true None None false false false o None.

Definition self_at (i : nat) (e : element) : self := default (new_self DEFAULTS) (selfs e !! i).
Definition tip_at (t : nat) (e : element) : tip := default new_tip (tips e !! t).

Definition on_selfs (f : list self -> list self) (e : element) : element :=
  Element (attr_title e) (attr_original e) (describedby e) (in_document e) (el_data e) (data e) (bound e)
    (f (selfs e)) (tips e) (triggered e).
Definition on_tips (f : list tip -> list tip) (e : element) : element :=
  Element (attr_title e) (attr_original e) (describedby e) (in_document e) (el_data e) (data e) (bound e)
    (selfs e) (f (tips e)) (triggered e).
Definition on_self (i : nat) (f : self -> self) (e : element) : element := on_selfs (alter f i) e.
Definition on_tip (t : nat) (f : tip -> tip) (e : element) : element := on_tips (alter f t) e.
Definition set_describedby (x : option nat) (e : element) : element :=
  Element (attr_title e) (attr_original e) x (in_document e) (el_data e) (data e) (bound e)
    (selfs e) (tips e) (triggered e).
Definition set_data (d : option nat) (l : list (user_event * handling)) (e : element) : element :=
  Element (attr_title e) (attr_original e) (describedby e) (in_document e) (el_data e) d l
    (selfs e) (tips e) (triggered e).
Definition set_titles (t o : option string) (e : element) : element :=
  Element t o (describedby e) (in_document e) (el_data e) (data e) (bound e) (selfs e) (tips e) (triggered e).
Definition trigger_event (x : bs_event) (e : element) : element :=
  Element (attr_title e) (attr_original e) (describedby e) (in_document e) (el_data e) (data e) (bound e)
    (selfs e) (tips e) (triggered e ++ [x]).

Definition set_hoverState (h : option hover) (s : self) : self :=
  Self (enabled s) (timeout s) h (in_click s) (in_hover s) (in_focus s) (opts s) (the_tip s).
Definition set_timeout (t : option timer) (s : self) : self :=
  Self (enabled s) t (hoverState s) (in_click s) (in_hover s) (in_focus s) (opts s) (the_tip s).
Definition set_enabled (b : bool) (s : self) : self :=
  Self b (timeout s) (hoverState s) (in_click s) (in_hover s) (in_focus s) (opts s) (the_tip s).
Definition set_the_tip (t : option nat) (s : self) : self :=
  Self (enabled s) (timeout s) (hoverState s) (in_click s) (in_hover s) (in_focus s) (opts s) t.
Definition set_inState (c h f : bool) (s : self) : self :=
  Self (enabled s) (timeout s) (hoverState s) c h f (opts s) (the_tip s).

Definition set_in (b : bool) (t : tip) : tip :=
  Tip b (t_fade t) (t_sides t) (t_attached t) (t_text t) (t_offset t) (t_arrow t) (t_pending t).
Definition set_attached (b : bool) (t : tip) : tip :=
  Tip (t_in t) (t_fade t) (t_sides t) b (t_text t) (t_offset t) (t_arrow t) (t_pending t).
Definition set_pending (l : list handler) (t : tip) : tip :=
  Tip (t_in t) (t_fade t) (t_sides t) (t_attached t) (t_text t) (t_offset t) (t_arrow t) l.

(** ** Methods *)

(** The sizes of the page, for [show]: the rectangles of the element and of the
    viewport, and the sizes of the tip at a side. *)
Class Geometry := {
  el_rect : rect; viewport_rect : rect; tip_width : string -> Q; tip_height : string -> Q;
  tip_sizes_at : string -> tip_sizes }.

Section tooltip.
(** [$.support.transition], and whether a listener prevents [show] and [hide]. *)
Context (transition : bool) (prevented : bs_event -> bool) {Geo : Geometry}.

(** [tip()]: the tip of an instance, made when there is none. *)
Definition tip_of (i : nat) (e : element) : element * nat :=
  match the_tip (self_at i e) with
  | Some t => (e, t)
  | None =>
      let t := length (tips e) in
      (on_self i (set_the_tip (Some t)) (on_tips (fun l => l ++ [new_tip]) e), t)
  end.

Definition isInStateTrue (s : self) : bool := in_click s || in_hover s || in_focus s.

Definition getTitle (i : nat) (e : element) : string :=
  match attr_original e with
  | Some t => if String.eqb t "" then o_title (opts (self_at i e)) else t
  | None => o_title (opts (self_at i e))
  end.
Definition hasContent (i : nat) (e : element) : bool := negb (String.eqb (getTitle i e) "").

(** The callback of [destroy]. *)
Definition destroyed (i : nat) (e : element) : element :=
  let e := set_data None [] e in
  let e := match the_tip (self_at i e) with Some t => on_tip t (set_attached false) e | None => e end in
  on_self i (set_the_tip None) e.

(** [complete] of [hide]; [t] is the tip [hide] was called with. *)
Definition hide_complete (i : nat) (t : option nat) (destroying : bool) (e : element) : element :=
  let e := if decide (hoverState (self_at i e) = Some HoverIn) then e
           else match t with Some t => on_tip t (set_attached false) e | None => e end in
  let e := trigger_event Hidden (set_describedby None e) in
  if destroying then destroyed i e else e.

Definition later (t : nat) (h : handler) (e : element) : element :=
  on_tip t (fun x => set_pending (t_pending x ++ [h]) x) e.

Definition hide (i : nat) (destroying : bool) (e : element) : element :=
  let t := the_tip (self_at i e) in
  let e := trigger_event Hide e in
  if prevented Hide then e
  else
    let e := match t with
             | Some t =>
                 let e := on_tip t (set_in false) e in
                 if transition && t_fade (tip_at t e) then later t (HideComplete i destroying) e
                 else hide_complete i (Some t) destroying e
             | None => hide_complete i None destroying e
             end in
    on_self i (set_hoverState None) e.

(** [leave(self)]. *)
Definition leave_self (i : nat) (e : element) : element :=
  if isInStateTrue (self_at i e) then e
  else
    let e := on_self i (set_timeout None) e in
    let e := on_self i (set_hoverState (Some HoverOut)) e in
    if negb (hide_delay (opts (self_at i e))) then hide i false e
    else on_self i (set_timeout (Some TimerHide)) e.

(** [complete] of [show]. *)
Definition show_complete (i : nat) (e : element) : element :=
  let prevHoverState := hoverState (self_at i e) in
  let e := trigger_event Shown e in
  let e := on_self i (set_hoverState None) e in
  if decide (prevHoverState = Some HoverOut) then leave_self i e else e.

Definition setContent (title : string) (x : tip) : tip :=
  Tip false false (filter (fun c => c ∉ sides) (t_sides x)) (t_attached x) title (t_offset x) (t_arrow x) (t_pending x).

Definition addClass (c : string) (l : list string) : list string := if decide (c ∈ l) then l else l ++ [c].
Definition removeClass (c : string) (l : list string) : list string := filter (fun x => x <> c) l.

(** The tip is put in the page, at its side, and gets its class [in]. *)
Definition put (o : options) (x : tip) : tip :=
  let fade := animation o || t_fade x in
  let '(side, autoPlace) := asked_side (placement o) in
  let sides := addClass side (t_sides x) in
  let v := if has_viewport o then Some (Viewport (viewport_padding o) viewport_rect) else None in
  let '(side', sides) :=
    if autoPlace then
      let viewportDim := if has_viewport o then viewport_rect else el_rect in
      let side' := auto_place side el_rect viewportDim (tip_width side) (tip_height side) in
      (side', addClass side' (removeClass side sides))
    else (side, sides) in
  let calculatedOffset := getCalculatedOffset side' el_rect (tip_width side) (tip_height side) in
  let '(off, arrow) := applyPlacement v (tip_sizes_at side') calculatedOffset side' in
  Tip true fade sides true (t_text x) (Some off) arrow (t_pending x).

Definition show (i : nat) (e : element) : element :=
  if hasContent i e && enabled (self_at i e) then
    let e := trigger_event Show e in
    if prevented Show || negb (in_document e) then e
    else
      let '(e, t) := tip_of i e in
      let e := on_tip t (setContent (getTitle i e)) e in
      let e := set_describedby (Some t) e in
      let e := trigger_event Inserted (on_tip t (put (opts (self_at i e))) e) in
      if transition && t_fade (tip_at t e) then later t (ShowComplete i) e
      else show_complete i e
  else e.

(** [enter(self)]. *)
Definition enter_self (i : nat) (e : element) : element :=
  let '(e, t) := tip_of i e in
  if t_in (tip_at t e) || bool_decide (hoverState (self_at i e) = Some HoverIn)
  then on_self i (set_hoverState (Some HoverIn)) e
  else
    let e := on_self i (set_timeout None) e in
    let e := on_self i (set_hoverState (Some HoverIn)) e in
    if negb (show_delay (opts (self_at i e))) then show i e
    else on_self i (set_timeout (Some TimerShow)) e.

(** [toggle()] without an event. *)
Definition toggle (i : nat) (e : element) : element :=
  let '(e, t) := tip_of i e in
  if t_in (tip_at t e) then leave_self i e else enter_self i e.

Definition destroy (i : nat) (e : element) : element := hide i true (on_self i (set_timeout None) e).

(** ** The constructor and the listeners *)

Definition fixTitle (e : element) : element :=
  match attr_title e, attr_original e with
  | None, Some _ => e
  | Some "", Some _ => e
  | t, _ => set_titles (Some "") (Some (default "" t)) e
  end.

(** The listeners of one word of the option [trigger]. *)
Definition listeners_of (word : string) : list (user_event * handling) :=
  if String.eqb word "click" then [(Click, Toggle)]
  else if String.eqb word "manual" then []
  else if String.eqb word "hover" then [(Mouseenter, Enter); (Mouseleave, Leave)]
  else [(Focusin, Enter); (Focusout, Leave)].

Definition triggers (o : options) : list string := split_on " " (trigger o).

(** [new Tooltip(element, options)], from the last word to the first. *)
Definition init (given : given_options) (e : element) : element * nat :=
  let i := length (selfs e) in
  let o := getOptions (el_data e) given in
  let e := on_selfs (fun l => l ++ [new_self o]) e in
  let e := set_data (data e) (bound e ++ concat (map listeners_of (rev (triggers o)))) e in
  (fixTitle e, i).

(** The instance an event is for: that of the data, or a new one. *)
Definition instance (given : given_options) (e : element) : element * nat :=
  match data e with
  | Some i => (e, i)
  | None => let '(e, i) := init given e in (set_data (Some i) (bound e) e, i)
  end.

Definition handle (ev : user_event) (h : handling) (e : element) : element :=
  let '(e, i) := instance no_options e in
  match h with
  | Enter =>
      let e := on_self i (fun s => if decide (ev = Focusin) then set_inState (in_click s) (in_hover s) true s
                                   else set_inState (in_click s) true (in_focus s) s) e in
      enter_self i e
  | Leave =>
      let e := on_self i (fun s => if decide (ev = Focusout) then set_inState (in_click s) (in_hover s) false s
                                   else set_inState (in_click s) false (in_focus s) s) e in
      leave_self i e
  | Toggle =>
      let e := on_self i (fun s => set_inState (negb (in_click s)) (in_hover s) (in_focus s) s) e in
      if isInStateTrue (self_at i e) then enter_self i e else leave_self i e
  end.

Definition user (ev : user_event) (e : element) : element :=
  foldl (fun e '(ev', h) => if decide (ev' = ev) then handle ev h e else e) e (bound e).

(** A timeout of an instance. *)
Definition time_out (i : nat) (e : element) : element :=
  let s := self_at i e in
  let e := on_self i (set_timeout None) e in
  match timeout s with
  | Some TimerShow => if decide (hoverState s = Some HoverIn) then show i e else e
  | Some TimerHide => if decide (hoverState s = Some HoverOut) then hide i false e else e
  | None => e
  end.

(** The end of the transition of a tip: everything that waits for it is called. *)
Definition run_handler (t : nat) (e : element) (h : handler) : element :=
  match h with
  | ShowComplete i => show_complete i e
  | HideComplete i destroying => hide_complete i (Some t) destroying e
  end.

Definition transition_end (t : nat) (e : element) : element :=
  foldl (run_handler t) (on_tip t (set_pending []) e) (t_pending (tip_at t e)).

(** ** [$(element).tooltip(option)] *)

Inductive method := CallShow | CallHide | CallToggle | CallDestroy | CallEnable | CallDisable | CallToggleEnabled.
Inductive argument := Object (given : given_options) | Method (m : method).

Definition call (m : method) (i : nat) (e : element) : element :=
  match m with
  | CallShow => show i e
  | CallHide => hide i false e
  | CallToggle => toggle i e
  | CallDestroy => destroy i e
  | CallEnable => on_self i (set_enabled true) e
  | CallDisable => on_self i (set_enabled false) e
  | CallToggleEnabled => on_self i (fun s => set_enabled (negb (enabled s)) s) e
  end.

Definition Plugin (option : argument) (e : element) : element :=
  match data e, option with
  | None, Method (CallHide | CallDestroy) => e
  | _, _ =>
      let '(e, i) := instance (match option with Object g => g | Method _ => no_options end) e in
      match option with Object _ => e | Method m => call m i e end
  end.

(** What [works/events.js] and [sources/events.js] do for each bar after a chart is drawn. *)
Definition chart_options (title : string) : given_options :=
  Given None None None (Some title) None (Some true) None None.

Definition renew (title : string) (e : element) : element :=
  Plugin (Object (chart_options title)) (Plugin (Method CallDestroy) e).
End tooltip.
