(* ===== verification/TooltipProps.v ===== *)
(** * Tooltips: what they show in the end, and what redrawing a chart does to them

    The theorems about [Tooltip]: an invariant of the states of an element with one instance,
    by induction over the events of the user, the timeouts and the ends of transitions; and
    the calls [works/events.js] makes for every bar when a chart is drawn again. *)

From stdpp Require Import relations.
From Stdlib Require Import Ascii String QArith.
From S2P Require Import Prelude.
From S2P Require Import JsStrings.
From S2P Require Import TooltipPlace.
From S2P Require Import Tooltip.

#[local] Open Scope string_scope.
#[local] Open Scope list_scope.

(** ** Parts of an instance that a method leaves alone *)

Section view.
Context (transition : bool) (prevented : bs_event -> bool) `{Geometry}.
Context {A : Type} (p : self -> A).
Context (p_hoverState : forall h s, p (set_hoverState h s) = p s) (p_timeout : forall t s, p (set_timeout t s) = p s)
  (p_tip : forall t s, p (set_the_tip t s) = p s).

Definition view (i : nat) (e : element) : A := p (self_at i e).

Lemma view_on_self j i f e : (forall s, p (f s) = p s) -> view j (on_self i f e) = view j e.
Proof.
  intros Hf. unfold view, self_at. simpl. destruct (decide (i = j)) as [-> |Hn].
  - rewrite list_lookup_alter_eq. destruct (selfs e !! j) as [s|]; [apply Hf|done].
  - by rewrite list_lookup_alter_ne.
Qed.

Lemma view_hide_complete j i t d e : view j (hide_complete i t d e) = view j e.
Proof. unfold hide_complete, destroyed. repeat case_match; rewrite ?view_on_self; done. Qed.

Lemma view_hide j i d e : view j (hide transition prevented i d e) = view j e.
Proof. unfold hide. repeat case_match; rewrite ?view_on_self, ?view_hide_complete; done. Qed.

Lemma view_leave_self j i e : view j (leave_self transition prevented i e) = view j e.
Proof. unfold leave_self. repeat case_match; rewrite ?view_hide, ?view_on_self; try done; by rewrite ?view_on_self. Qed.

Lemma view_show_complete j i e : view j (show_complete transition prevented i e) = view j e.
Proof. unfold show_complete. repeat case_match; rewrite ?view_leave_self, ?view_on_self; done. Qed.

Lemma view_tip_of j i e : view j (tip_of i e).1 = view j e.
Proof. unfold tip_of. case_match; simpl; rewrite ?view_on_self; done. Qed.

Lemma view_show j i e : view j (show transition prevented i e) = view j e.
Proof.
  unfold show. case_match; [|done]. case_match; [done|].
  pose proof (view_tip_of j i (trigger_event Show e)) as Ht. destruct (tip_of _ _) as [e' t]. simpl in Ht.
  case_match; rewrite ?view_show_complete; exact Ht.
Qed.

Lemma view_enter_self j i e : view j (enter_self transition prevented i e) = view j e.
Proof.
  unfold enter_self. pose proof (view_tip_of j i e) as Ht. destruct (tip_of _ _) as [e' t]. simpl in Ht. rewrite <- Ht.
  repeat case_match; rewrite ?view_show, ?view_on_self; try done; by rewrite ?view_on_self.
Qed.

Lemma view_time_out j i e : view j (time_out transition prevented i e) = view j e.
Proof. unfold time_out. repeat case_match; rewrite ?view_show, ?view_hide, ?view_on_self; done. Qed.

Lemma view_transition_end j t e : view j (transition_end transition prevented t e) = view j e.
Proof.
  unfold transition_end. transitivity (view j (on_tip t (set_pending []) e)); [|done].
  generalize (t_pending (tip_at t e)) as l. generalize (on_tip t (set_pending []) e) as e'. clear e.
  intros e l. revert e. induction l as [|h l IH]; intros e; [done|]. simpl.
  rewrite IH. destruct h; [apply view_show_complete|apply view_hide_complete].
Qed.
End view.

(** ** States with one instance *)

Section one_facts.
Context (bd : list (user_event * handling)) (oa ob : option string) (ed : given_options).

(** One instance, and without or with its tip. *)
Definition one_of (db : option nat) (s : self) (ts : list tip) (tr : list bs_event) : element :=
  Element oa ob db true ed (Some 0%nat) bd [s] ts tr.

Context (db : option nat) (s : self) (ts : list tip) (x : tip) (tr : list bs_event).

Lemma self_at_one : self_at 0 (one_of db s ts tr) = s.
Proof. done. Qed.
Lemma tip_at_one : tip_at 0 (one_of db s [x] tr) = x.
Proof. done. Qed.
Lemma on_self_one g : on_self 0 g (one_of db s ts tr) = one_of db (g s) ts tr.
Proof. done. Qed.
Lemma on_tip_one g : on_tip 0 g (one_of db s [x] tr) = one_of db s [g x] tr.
Proof. done. Qed.
Lemma describedby_one y : set_describedby y (one_of db s ts tr) = one_of y s ts tr.
Proof. done. Qed.
Lemma trigger_one y : trigger_event y (one_of db s ts tr) = one_of db s ts (tr ++ [y]).
Proof. done. Qed.
Lemma in_document_one : in_document (one_of db s ts tr) = true.
Proof. done. Qed.
Lemma later_one h : later 0 h (one_of db s [x] tr) = one_of db s [set_pending (t_pending x ++ [h]) x] tr.
Proof. done. Qed.
End one_facts.

Lemma isIn_set c h f s : isInStateTrue (set_inState c h f s) = c || h || f.
Proof. done. Qed.

Lemma put_fields `{Geometry} o x : exists sds off arr,
  put o x = Tip true (animation o || t_fade x) sds true (t_text x) off arr (t_pending x).
Proof.
  unfold put. destruct (asked_side (placement o)) as [side []]; destruct (applyPlacement _ _ _ _) as [off arr];
    by eexists _, _, _.
Qed.

(** Evaluates the operations on such a state, where nothing is prevented. *)
Ltac evaluate_with allowed_show allowed_hide :=
  cbv zeta; repeat (rewrite ?self_at_one, ?on_self_one, ?tip_at_one, ?on_tip_one, ?later_one, ?describedby_one,
    ?trigger_one, ?in_document_one, ?allowed_show, ?allowed_hide, ?isIn_set; cbn [t_fade t_in t_pending t_attached set_in set_attached set_pending
    setContent t_text opts the_tip timeout hoverState enabled set_the_tip set_hoverState set_timeout set_inState negb orb andb]).

(** ** One instance, used without haste *)

Section settled.
Context (transition : bool) (prevented : bs_event -> bool) `{Geometry}.
Context (allowed_show : prevented Show = false) (allowed_hide : prevented Hide = false).

(** The listeners of the element (of each event one kind, and clicks counted once), the options, and
    the attributes for the title and the options. *)
Context (bd : list (user_event * handling)) (o : options) (oa ob : option string) (ed : given_options).
#[local] Abbreviation one := (one_of bd oa ob ed).
Ltac evaluate := evaluate_with allowed_show allowed_hide.

(** Whether the pointer or the focus is there (or a click has asked for the tip). *)
Definition wanted (e : element) : bool := isInStateTrue (self_at 0 e).

(** Nothing waits. *)
Definition at_rest (e : element) : Prop :=
  Forall (fun s => timeout s = None) (selfs e) /\ Forall (fun x => t_pending x = []) (tips e).

(** The tip is there, with its title. *)
Definition shown (e : element) : Prop :=
  exists x, tips e = [x] /\ t_in x = true /\ t_attached x = true /\ t_text x = getTitle 0 e /\ describedby e = Some 0%nat.

(** No tip is in the page. *)
Definition gone (e : element) : Prop := Forall (fun x => t_attached x = false) (tips e) /\ describedby e = None.

(** A tip that is fading out has done so before it is wanted again. *)
Definition calm (e : element) : Prop := Forall (fun x => t_in x = true \/ t_pending x = []) (tips e).

Inductive step : element -> element -> Prop :=
| step_user ev e : (ev ∈ [Mouseenter; Focusin; Click] -> calm e) -> step e (user transition prevented ev e)
| step_time_out e : step e (time_out transition prevented 0 e)
| step_transition_end e : step e (transition_end transition prevented 0 e).

(** The state of the instance and of its tip. *)
Definition tip_inv (title : string) (db : option nat) (s : self) (x : tip) : Prop :=
  (t_pending x <> [] -> transition = true /\ t_fade x = true) /\
  (t_in x = true -> t_attached x = true /\ db = Some 0%nat /\ t_text x = title /\
     (t_pending x = [] \/ t_pending x = [ShowComplete 0])) /\
  if isInStateTrue s then
    if t_in x then hoverState s <> Some HoverOut /\ timeout s <> Some TimerShow
    else hoverState s = Some HoverIn /\ timeout s = Some TimerShow /\
         t_pending x = [] /\ t_attached x = false /\ db = None
  else
    if t_in x then hoverState s = Some HoverOut /\ timeout s = Some TimerHide
    else hoverState s <> Some HoverIn /\ timeout s <> Some TimerShow /\
         (hoverState s = Some HoverOut -> timeout s = Some TimerHide) /\
         (t_pending x = [] -> t_attached x = false /\ db = None) /\
         (t_pending x <> [] -> exists l, t_pending x = l ++ [HideComplete 0 false] /\
            Forall (fun h => h = ShowComplete 0 \/ h = HideComplete 0 false) l).

Definition live (s : self) : Prop := enabled s = true /\ opts s = o.

Definition inv (e : element) : Prop :=
  exists db s ts tr, e = one db s ts tr /\ hasContent 0 e = true /\ live s /\
  ((exists x, the_tip s = Some 0%nat /\ ts = [x] /\ tip_inv (getTitle 0 e) db s x) \/
   (the_tip s = None /\ ts = [] /\ db = None /\ isInStateTrue s = false /\ hoverState s <> Some HoverIn /\
    timeout s <> Some TimerShow /\ (hoverState s = Some HoverOut -> timeout s = Some TimerHide))).

Lemma inv_one_tip db s x tr :
  let e := one db s [x] tr in
  hasContent 0 e = true -> live s -> the_tip s = Some 0%nat -> tip_inv (getTitle 0 e) db s x -> inv e.
Proof. intros e Ht Hen Htip Hx. exists db, s, [x], tr. split_and!; [done..|]. left. eauto. Qed.

Lemma inv_no_tip s tr :
  let e := one None s [] tr in
  hasContent 0 e = true -> live s -> the_tip s = None -> isInStateTrue s = false -> hoverState s <> Some HoverIn ->
  timeout s <> Some TimerShow -> (hoverState s = Some HoverOut -> timeout s = Some TimerHide) -> inv e.
Proof. intros e Ht Hen ?????. exists None, s, [], tr. split_and!; [done..|]. by right. Qed.

Definition mine (h : handler) : Prop := h = ShowComplete 0 \/ h = HideComplete 0 false.

Lemma tip_inv_mine title db s x : tip_inv title db s x -> Forall mine (t_pending x).
Proof.
  intros (_ & Hin & Hc). destruct (t_in x); [destruct (Hin eq_refl) as (_ & _ & _ & [-> | ->]); [constructor|by repeat (constructor; [by left|])]|].
  destruct (isInStateTrue s); [destruct Hc as (_ & _ & -> & _); constructor|].
  destruct Hc as (_ & _ & _ & _ & Hc). destruct (t_pending x) as [|h l]; [constructor|].
  destruct Hc as (l' & -> & Hl); [done|]. apply Forall_app. split; [done|]. by constructor; [right|].
Qed.

(** A tip that is not wanted and has lost its class [in]; [detached] says that it is out of the
    page unless something waits. *)
Definition fading (detached : bool) (e : element) : Prop :=
  exists db s x tr, e = one db s [x] tr /\
    hasContent 0 e = true /\ live s /\ the_tip s = Some 0%nat /\ isInStateTrue s = false /\
    hoverState s <> Some HoverIn /\ timeout s <> Some TimerShow /\
    (hoverState s = Some HoverOut -> timeout s = Some TimerHide) /\ t_in x = false /\
    (t_pending x <> [] -> transition = true /\ t_fade x = true /\
       exists l, t_pending x = l ++ [HideComplete 0 false] /\ Forall mine l) /\
    (detached = true -> t_pending x = [] -> t_attached x = false /\ db = None).

Lemma fading_inv e : fading true e -> inv e.
Proof.
  intros (db & s & x & tr & -> & Ht & Hen & Htip & Hoff & Hh & Htm & Himp & Hin & Hp & Hd).
  apply inv_one_tip; [done..|]. unfold tip_inv. rewrite Hoff, Hin. split_and!; try done; naive_solver.
Qed.

Lemma fading_mine k e : fading k e -> Forall (fun x => Forall mine (t_pending x)) (tips e).
Proof.
  intros (db & s & x & tr & -> & _ & _ & _ & _ & _ & _ & _ & _ & Hp & _). apply Forall_singleton.
  destruct (t_pending x) as [|h l]; [constructor|]. destruct Hp as (_ & _ & l' & -> & Hl); [done|].
  apply Forall_app. split; [done|]. by constructor; [right|].
Qed.

Lemma hide_fading db s x tr :
  let e := one db s [x] tr in
  hasContent 0 e = true -> live s -> the_tip s = Some 0%nat -> isInStateTrue s = false ->
  timeout s <> Some TimerShow -> hoverState s <> Some HoverIn ->
  (t_pending x <> [] -> transition = true /\ t_fade x = true) -> Forall mine (t_pending x) -> 
  fading true (hide transition prevented 0 false e).
Proof.
  intros e Ht Hen Htip Hoff Htm Hh Hp Hm. subst e. unfold hide, hide_complete. evaluate. rewrite Htip. evaluate.
  destruct (transition && t_fade x) eqn:Ef; evaluate.
  - apply andb_true_iff in Ef as [-> Ef]. eexists _, _, _, _. split; [done|]. simpl. split_and!; try done.
    + intros _. eauto.
    + by intros _ []%app_nil.
  - rewrite decide_False by done. eexists _, _, _, _. split; [done|]. simpl.
    assert (t_pending x = []) as -> by (destruct (t_pending x); [done|]; destruct Hp as [-> Hp]; [done|]; by rewrite Hp in Ef).
    by split_and!.
Qed.

(** [leave] when nothing asks for the tip. *)
Lemma leave_off db s x tr :
  let e := one db s [x] tr in
  hasContent 0 e = true -> live s -> the_tip s = Some 0%nat -> isInStateTrue s = false ->
  (t_pending x <> [] -> transition = true /\ t_fade x = true) -> Forall mine (t_pending x) ->
  leave_self transition prevented 0 e = one db (set_timeout (Some TimerHide) (set_hoverState (Some HoverOut) s)) [x] tr \/
  fading true (leave_self transition prevented 0 e).
Proof.
  intros e Ht Hen Htip Hoff Hp Hm. subst e. unfold leave_self. evaluate. rewrite Hoff.
  destruct (hide_delay (opts s)); evaluate; [by left|right; by apply hide_fading].
Qed.

(** Leaving, with the flags [c], [h], [f] after it. *)
Lemma leave_inv e c h f : inv e -> (c || h || f = true -> wanted e = true) ->
  inv (leave_self transition prevented 0 (on_self 0 (set_inState c h f) e)).
Proof.
  intros (db & s & ts & tr & -> & Ht & Hen & Hc) Hw. unfold wanted in Hw. rewrite self_at_one in Hw.
  destruct (c || h || f) eqn:Hf.
  { specialize (Hw eq_refl). unfold leave_self. evaluate. rewrite Hf. destruct Hc as [(x & Htip & -> & Hx)|(_ & _ & _ & Hoff & _)];
      [|congruence]. apply inv_one_tip; [done..|]. unfold tip_inv in *. rewrite isIn_set, Hf. by rewrite Hw in Hx. }
  clear Hw. rewrite on_self_one. destruct Hc as [(x & Htip & -> & Hx)|(Htip & -> & -> & Hoff & Hh & Htm & Himp)].
  - pose proof (tip_inv_mine _ _ _ _ Hx) as Hm. destruct Hx as (Hp & Hin & Hc).
    destruct (leave_off db (set_inState c h f s) x tr) as [-> |?]; [done..| |by apply fading_inv].
    apply inv_one_tip; [done..|]. unfold tip_inv. change (isInStateTrue _) with (c || h || f). rewrite Hf.
    split_and!; [done..|]. destruct (t_in x); [done|]. split_and!; try done; destruct (isInStateTrue s); naive_solver.
  - unfold leave_self. evaluate. rewrite Hf. destruct (hide_delay (opts s)); evaluate;
      [|unfold hide; evaluate; rewrite Htip; unfold hide_complete; evaluate];
      by apply inv_no_tip.
Qed.

Lemma show_tip_inv db s x tr :
  let e := one db s [x] tr in
  hasContent 0 e = true -> live s -> the_tip s = Some 0%nat -> isInStateTrue s = true ->
  timeout s <> Some TimerShow -> hoverState s = Some HoverIn -> t_pending x = [] ->
  let e' := show transition prevented 0 e in
  inv e' /\ wanted e' = true /\ timeout (self_at 0 e') = timeout s /\ hoverState (self_at 0 e') <> Some HoverOut.
Proof.
  intros e Ht Hen Htip Hon Htm Hh Hp. subst e. cbv zeta. unfold show. rewrite Ht. evaluate. rewrite (proj1 Hen). evaluate.
  unfold tip_of. evaluate. rewrite Htip. evaluate.
  match goal with |- context [setContent ?t x] => set (title := t) end.
  destruct (put_fields (opts s) (setContent title x)) as (sds & off & arr & ->). evaluate.
  rewrite orb_false_r, Hp. destruct (transition && animation (opts s)) eqn:Ef; evaluate.
  - split; [|split_and!; [done..|by evaluate; rewrite Hh]]. apply inv_one_tip; [done..|]. unfold tip_inv. simpl. rewrite Hon. apply andb_true_iff in Ef as [-> ->].
    split_and!; auto; congruence.
  - unfold show_complete. evaluate. rewrite decide_False by congruence. split; [|done].
    apply inv_one_tip; [done..|]. unfold tip_inv. simpl.
    change (isInStateTrue (set_hoverState None s)) with (isInStateTrue s). rewrite Hon. by split_and!; auto.
Qed.

Lemma inv_calm e : inv e -> wanted e = true -> calm e.
Proof.
  intros (db & s & ts & tr & -> & _ & _ & Hc) Hw. unfold wanted in Hw. rewrite self_at_one in Hw.
  destruct Hc as [(x & _ & -> & _ & _ & Hx)|(_ & -> & _)]; [|constructor]. rewrite Hw in Hx.
  apply Forall_singleton. destruct (t_in x); [by left|right; by destruct Hx as (_ & _ & ? & _)].
Qed.

Lemma set_the_tip_same s t : the_tip s = t -> set_the_tip t s = s.
Proof. destruct s. by intros <-. Qed.

(** Entering, with the flags [c], [h], [f] after it. *)
Lemma enter_inv e c h f : inv e -> calm e -> c || h || f = true ->
  let e' := enter_self transition prevented 0 (on_self 0 (set_inState c h f) e) in inv e' /\ wanted e' = true.
Proof.
  intros (db & s & ts & tr & -> & Ht & Hen & Hc) Hcalm Hf. rewrite on_self_one.
  assert (exists x, enter_self transition prevented 0 (one db (set_inState c h f s) ts tr) =
      enter_self transition prevented 0 (one db (set_inState c h f (set_the_tip (Some 0%nat) s)) [x] tr) /\
    (t_in x = true \/ t_pending x = []) /\ (t_in x = false -> t_attached x = false /\ db = None) /\
    (t_in x = true -> tip_inv (getTitle 0 (one db s ts tr)) db s x) /\
    (t_in x = false -> hoverState s = Some HoverIn -> timeout s = Some TimerShow)) as (x & -> & Hx & Hd & Hin & Htm).
  { destruct Hc as [(x & Htip & -> & Hx)|(Htip & -> & -> & Hoff & Hh & Htm & Himp)].
    - exists x. apply Forall_inv in Hcalm. split_and!; [by rewrite (set_the_tip_same _ _ Htip)|exact Hcalm| |by intros _|].
      + intros Hin. destruct Hcalm as [?|?]; [congruence|]. destruct Hx as (_ & _ & Hx). rewrite Hin in Hx.
        destruct (isInStateTrue s); naive_solver.
      + intros Hin Hh. destruct Hx as (_ & _ & Hx). rewrite Hin in Hx. destruct (isInStateTrue s); naive_solver.
    - exists new_tip. split_and!; try done; [|by right]. unfold enter_self, tip_of. rewrite !self_at_one. cbn [the_tip set_inState set_the_tip]. rewrite Htip. reflexivity. }
  unfold enter_self, tip_of. evaluate. destruct (t_in x) eqn:Ein; cbn [orb].
  - split; [|exact Hf]. specialize (Hin eq_refl) as (Hp & Hin & Hc'). rewrite Ein in *. apply inv_one_tip; [done..|].
    unfold tip_inv. change (isInStateTrue _) with (c || h || f). rewrite Hf, Ein. split_and!; [done..|simpl].
    destruct (isInStateTrue s); naive_solver.
  - destruct Hx as [?|Hp]; [done|]. destruct (bool_decide_reflect (hoverState s = Some HoverIn)) as [Hh|Hh]; evaluate.
    + split; [|exact Hf]. apply inv_one_tip; [done..|]. unfold tip_inv.
      change (isInStateTrue _) with (c || h || f). rewrite Hf, Ein, Hp. simpl. naive_solver.
    + destruct (show_delay (opts s)) eqn:Hsd; evaluate.
      * split; [|exact Hf]. apply inv_one_tip; [done..|]. unfold tip_inv.
        change (isInStateTrue _) with (c || h || f). rewrite Hf, Ein, Hp. simpl. naive_solver.
      * by split; apply show_tip_inv.
Qed.
Lemma time_out_inv e : inv e -> inv (time_out transition prevented 0 e).
Proof.
  intros (db & s & ts & tr & -> & Ht & Hen & Hc). unfold time_out. evaluate.
  destruct Hc as [(x & Htip & -> & Hx)|(Htip & -> & -> & Hoff & Hh & Htm & Himp)].
  - pose proof (tip_inv_mine _ _ _ _ Hx) as Hm. destruct Hx as (Hp & Hin & Hc). destruct (timeout s) as [[]|] eqn:Etm.
    + destruct (isInStateTrue s) eqn:Hon; [|destruct (t_in x); naive_solver].
      destruct (t_in x) eqn:Ein; [naive_solver|]. destruct Hc as (Hh & _ & Hp' & _). rewrite decide_True by done.
      by apply show_tip_inv.
    + destruct (decide (hoverState s = Some HoverOut)) as [Hh|Hh].
      * apply fading_inv, hide_fading; try done; [|by simpl; rewrite Hh].
        destruct (isInStateTrue s) eqn:Hon; [|done]. destruct (t_in x); naive_solver.
      * apply inv_one_tip; [done..|]. unfold tip_inv. change (isInStateTrue (set_timeout None s)) with (isInStateTrue s).
        destruct (isInStateTrue s), (t_in x); simpl; naive_solver.
    + apply inv_one_tip; [done..|]. unfold tip_inv. change (isInStateTrue (set_timeout None s)) with (isInStateTrue s).
      simpl. rewrite <- Etm. destruct (isInStateTrue s), (t_in x); naive_solver.
  - assert (inv (one None (set_timeout None s) [] tr) \/ hoverState s = Some HoverOut) as Hi.
    { destruct (decide (hoverState s = Some HoverOut)); [by right|left].
      by apply inv_no_tip. }
    destruct (timeout s) as [[]|] eqn:Etm; [done| |destruct Hi as [?|?]; [done|]; by specialize (Himp ltac:(done))].
    destruct (decide (hoverState s = Some HoverOut)) as [Ho|Ho]; [|by destruct Hi].
    unfold hide, hide_complete. evaluate. rewrite Htip. evaluate. rewrite decide_False by done. evaluate.
    by apply inv_no_tip.
Qed.

Lemma show_complete_fading k e : fading k e -> fading false (show_complete transition prevented 0 e).
Proof.
  intros Hfa. pose proof (fading_mine _ _ Hfa) as Hm.
  destruct Hfa as (db & s & x & tr & -> & Ht & Hen & Htip & Hoff & Hh & Htm & Himp & Hin & Hp & Hd).
  apply Forall_inv in Hm. unfold show_complete. evaluate.
  assert (fading false (one db (set_hoverState None s) [x] (tr ++ [Shown]))) as Hnull
    by (eexists _, _, _, _; split; [done|]; simpl; by split_and!).
  destruct (decide (hoverState s = Some HoverOut)) as [Ho|Ho]; [|done].
  destruct (leave_off db (set_hoverState None s) x (tr ++ [Shown])) as [-> |Hfa]; try done; [naive_solver| |].
  - eexists _, _, _, _. split; [done|]. simpl. by split_and!.
  - destruct Hfa as (db' & s' & x' & tr' & E & Hfa). exists db', s', x', tr'.
    split; [done|]. naive_solver.
Qed.

Lemma hide_complete_fading k e : fading k e -> fading true (hide_complete 0 (Some 0%nat) false e).
Proof.
  intros (db & s & x & tr & -> & Ht & Hen & Htip & Hoff & Hh & Htm & Himp & Hin & Hp & Hd).
  unfold hide_complete. evaluate. rewrite decide_False by done. evaluate.
  eexists _, _, _, _. split; [done|]. simpl. by split_and!.
Qed.

Lemma handlers_fading k e l : fading k e -> Forall mine l ->
  exists k', fading k' (foldl (run_handler transition prevented 0) e l).
Proof.
  intros Hfa Hl. revert k e Hfa. induction Hl as [|h l [-> | ->] _ IH]; intros k e Hfa; [by exists k|..]; simpl.
  - by eapply IH, show_complete_fading.
  - by eapply IH, hide_complete_fading.
Qed.

Lemma transition_end_inv e : inv e -> inv (transition_end transition prevented 0 e).
Proof.
  intros Hinv. pose proof Hinv as (db & s & ts & tr & -> & Ht & Hen & Hc).
  destruct Hc as [(x & Htip & -> & Hx)|(Htip & -> & -> & Hoff & Hh & Htm & Himp)]; [|done].
  unfold transition_end. evaluate. destruct Hx as (Hp & Hin & Hc).
  assert (t_pending x = [] -> set_pending [] x = x) as Hsame by (intros <-; by destruct x).
  destruct (t_in x) eqn:Ein.
  - destruct (Hin eq_refl) as (Hatt & -> & Htext & [Hpe|Hpe]); rewrite Hpe; [simpl; by rewrite Hsame|]. simpl.
    unfold show_complete. evaluate. destruct (decide (hoverState s = Some HoverOut)) as [Ho|Ho].
    + destruct (isInStateTrue s) eqn:Hon; [naive_solver|].
      destruct (leave_off (Some 0%nat) (set_hoverState None s) (set_pending [] x) (tr ++ [Shown])) as [-> |?];
        [done..| |by apply fading_inv].
      apply inv_one_tip; [done..|]. unfold tip_inv. change (isInStateTrue _) with (isInStateTrue s). rewrite Hon. simpl.
      rewrite Ein. by split_and!; auto.
    + destruct (isInStateTrue s) eqn:Hon; [|naive_solver]. apply inv_one_tip; [done..|]. unfold tip_inv.
      change (isInStateTrue _) with (isInStateTrue s). rewrite Hon. simpl. rewrite Ein. naive_solver.
  - destruct (isInStateTrue s) eqn:Hon.
    { destruct Hc as (_ & _ & Hpe & _). rewrite Hpe. simpl. by rewrite Hsame. }
    destruct Hc as (Hh & Htm & Himp & Hd & Hl). destruct (t_pending x) as [|h l] eqn:Epe; [simpl; by rewrite Hsame|].
    destruct Hl as (l' & -> & Hl'); [done|]. rewrite foldl_app. simpl.
    destruct (handlers_fading false (one db s [set_pending [] x] tr) l') as [k Hfa]; [|done|].
    { eexists _, _, _, _. split; [done|]. simpl. by split_and!. }
    by eapply fading_inv, hide_complete_fading.
Qed.
(** *** Events of the user *)

Definition kind (ev : user_event) : handling :=
  match ev with Mouseenter | Focusin => Enter | Mouseleave | Focusout => Leave | Click => Toggle end.

Context (kinds : Forall (fun p => p.2 = kind p.1) bd) (one_click : (length (filter (fun p => p.1 = Click) bd) <= 1)%nat).

Lemma user_listeners ev e : bound e = bd ->
  user transition prevented ev e =
  foldl (fun e _ => handle transition prevented ev (kind ev) e) e (filter (fun p => p.1 = ev) bd).
Proof.
  unfold user. intros ->. clear one_click. revert e. induction kinds as [|[ev' h] l Hk Hl IH]; intros e; [done|]. simpl in *.
  rewrite filter_cons. simpl. subst h. destruct (decide (ev' = ev)) as [-> |?]; simpl; by apply IH.
Qed.

(** A listener sets the flags, and enters or leaves. *)
Lemma handle_enter ev e : inv e -> calm e -> kind ev = Enter ->
  let e' := handle transition prevented ev Enter e in inv e' /\ calm e'.
Proof.
  intros Hi Hcalm Hk e'. enough (inv e' /\ wanted e' = true) as [? ?] by (split; [done|by apply inv_calm]).
  pose proof Hi as (db & s & ts & tr & -> & _). subst e'. unfold handle, instance. cbn [data one_of].
  rewrite on_self_one. destruct (decide (ev = Focusin)).
  - rewrite <- (on_self_one bd oa ob ed db s ts tr (set_inState (in_click s) (in_hover s) true)).
    apply enter_inv; [done..|]. by rewrite !orb_true_r.
  - rewrite <- (on_self_one bd oa ob ed db s ts tr (set_inState (in_click s) true (in_focus s))).
    apply enter_inv; [done..|]. by rewrite !orb_true_r.
Qed.

Lemma handle_leave ev e : inv e -> kind ev = Leave -> inv (handle transition prevented ev Leave e).
Proof.
  intros Hi Hk. pose proof Hi as (db & s & ts & tr & -> & _). unfold handle, instance. cbn [data one_of].
  rewrite on_self_one. destruct (decide (ev = Focusout)).
  - rewrite <- (on_self_one bd oa ob ed db s ts tr (set_inState (in_click s) (in_hover s) false)).
    apply leave_inv; [done|]. unfold wanted, isInStateTrue. rewrite self_at_one, orb_false_r. by intros ->.
  - rewrite <- (on_self_one bd oa ob ed db s ts tr (set_inState (in_click s) false (in_focus s))).
    apply leave_inv; [done|]. unfold wanted, isInStateTrue. rewrite self_at_one, orb_false_r.
    destruct (in_click s), (in_focus s); simpl; rewrite ?orb_true_r; done.
Qed.

Lemma handle_toggle e : inv e -> calm e -> inv (handle transition prevented Click Toggle e).
Proof.
  intros Hi Hcalm. pose proof Hi as (db & s & ts & tr & -> & _). unfold handle, instance. cbn [data one_of].
  rewrite on_self_one, self_at_one, isIn_set.
  rewrite <- (on_self_one bd oa ob ed db s ts tr (set_inState (negb (in_click s)) (in_hover s) (in_focus s))).
  destruct (_ || _) eqn:Hf; [by apply enter_inv|]. apply leave_inv; [done|]. by rewrite Hf.
Qed.

Lemma user_inv ev e : inv e -> (ev ∈ [Mouseenter; Focusin; Click] -> calm e) -> inv (user transition prevented ev e).
Proof.
  intros Hi Hcalm. rewrite user_listeners by (by destruct Hi as (? & ? & ? & ? & -> & _)). destruct (kind ev) eqn:Hk.
  - assert (calm e) as Hc by (apply Hcalm; destruct ev; simplify_eq/=; rewrite !elem_of_cons; auto). clear Hcalm. revert e Hi Hc.
    induction (filter (fun p => p.1 = ev) bd) as [|p l IH]; intros e Hi Hc; [done|]. simpl. by apply IH; apply handle_enter.
  - revert e Hi Hcalm. induction (filter (fun p => p.1 = ev) bd) as [|p l IH]; intros e Hi Hcalm; [done|]. simpl.
    apply IH; [by apply handle_leave|]. destruct ev; simplify_eq/=; rewrite !elem_of_cons, elem_of_nil; naive_solver.
  - assert (ev = Click) as -> by (by destruct ev). specialize (Hcalm ltac:(by right; right; left)).
    destruct (filter _ bd) as [|p [|q l]]; simpl in *; [done|by apply handle_toggle|lia].
Qed.

Lemma steps_inv e e' : rtc step e e' -> inv e -> inv e'.
Proof.
  induction 1 as [|e1 e2 e3 Hs _ IH]; [done|]. intros Hi. apply IH.
  destruct Hs; [by apply user_inv|by apply time_out_inv|by apply transition_end_inv].
Qed.

(** *** At rest *)

Lemma inv_rest e : inv e -> at_rest e -> if wanted e then shown e else gone e.
Proof.
  intros (db & s & ts & tr & -> & Ht & Hen & Hc) [Htm Hp]. apply Forall_inv in Htm. simpl in Hp.
  unfold wanted. rewrite self_at_one. destruct Hc as [(x & Htip & -> & _ & Hin & Hx)|(_ & -> & -> & -> & _)]; [|by split].
  apply Forall_inv in Hp. destruct (isInStateTrue s), (t_in x) eqn:Ein.
  - exists x. naive_solver.
  - naive_solver.
  - naive_solver.
  - split; [apply Forall_singleton|]; naive_solver.
Qed.

(** No timeout waits, and the tip is not about to be left. *)
Definition no_timer (e : element) : Prop := timeout (self_at 0 e) = None /\ hoverState (self_at 0 e) <> Some HoverOut.

Lemma hide_no_timer db s ts tr : timeout s = None -> (the_tip s = Some 0%nat -> exists x, ts = [x]) ->
  (the_tip s = None \/ the_tip s = Some 0%nat) -> no_timer (hide transition prevented 0 false (one db s ts tr)).
Proof.
  intros Htm Hts [Htip|Htip]; unfold hide, hide_complete; evaluate; rewrite Htip; evaluate;
    [|destruct (Hts Htip) as [x ->]; evaluate; destruct (transition && t_fade x); evaluate];
    try (destruct (decide _); evaluate); by split.
Qed.

Lemma time_out_no_timer e : inv e -> no_timer (time_out transition prevented 0 e).
Proof.
  intros Hi. pose proof Hi as (db & s & ts & tr & -> & Ht & Hen & Hc). unfold time_out. evaluate.
  assert (hoverState s = Some HoverOut -> timeout s = Some TimerHide) as Ho.
  { destruct Hc as [(x & _ & _ & _ & _ & Hx)|Hx]; [|naive_solver]. destruct (isInStateTrue s), (t_in x); naive_solver. }
  destruct (timeout s) as [[]|] eqn:Etm.
  - destruct Hc as [(x & Htip & -> & _ & Hin & Hx)|Hx]; [|naive_solver].
    destruct (isInStateTrue s) eqn:Hon, (t_in x) eqn:Ein; [naive_solver| |naive_solver..].
    destruct Hx as (Hh & _ & Hp & _). rewrite decide_True by done.
    destruct (show_tip_inv db (set_timeout None s) x tr) as (_ & _ & E & ?); done.
  - destruct (decide (hoverState s = Some HoverOut)); [|by split]. apply hide_no_timer; [done|..].
    + destruct Hc as [(x & _ & -> & _)|Hx]; [eauto|]. simpl. naive_solver.
    + destruct Hc as [(x & Htip & _)|Hx]; [by right|left; apply Hx].
  - split; [done|]. intros Hh. by specialize (Ho Hh).
Qed.

Lemma handlers_rest e l : Forall mine l -> no_timer e ->
  (exists db s x tr, e = one db s [x] tr /\ t_pending x = []) ->
  at_rest (foldl (run_handler transition prevented 0) e l).
Proof.
  intros Hl. revert e. induction Hl as [|h l Hm _ IH]; intros e [Htm Hh] (db & s & x & tr & -> & Hp);
    rewrite self_at_one in Htm, Hh; simpl.
  { by split; apply Forall_singleton. }
  destruct Hm as [-> | ->]; simpl; apply IH; clear IH; unfold show_complete, hide_complete; evaluate.
  - by rewrite decide_False.
  - rewrite decide_False by done. by eexists _, _, _, _.
  - by destruct (decide _); evaluate.
  - destruct (decide _); evaluate; by eexists _, _, _, _.
Qed.

(** After a timeout and the end of a transition nothing waits. *)
Lemma inv_comes_to_rest e : inv e -> at_rest (transition_end transition prevented 0 (time_out transition prevented 0 e)).
Proof.
  intros Hi. pose proof (time_out_no_timer e Hi) as Hn. apply time_out_inv in Hi. revert Hi Hn.
  generalize (time_out transition prevented 0 e) as e'. clear e.
  intros e (db & s & ts & tr & -> & Ht & Hen & Hc) [Htm Hh]. rewrite self_at_one in Htm, Hh.
  destruct Hc as [(x & Htip & -> & Hx)|(_ & -> & _)].
  - unfold transition_end. evaluate. apply handlers_rest; [by eapply tip_inv_mine|by split|by eexists _, _, _, _].
  - split; [by apply Forall_singleton|constructor].
Qed.
End settled.

(** ** A tip that never shows: without a title, or when a listener prevents [show] *)

Section mute.
Context (transition : bool) (prevented : bs_event -> bool) `{Geometry}.
Context (allowed_hide : prevented Hide = false).
Context (bd : list (user_event * handling)) (o : options) (oa ob : option string) (ed : given_options).
#[local] Abbreviation one := (one_of bd oa ob ed).
Context (kinds : Forall (fun p => p.2 = kind p.1) bd).

(** Instance and tip as they are made, but for the flags. *)
Definition quiet (e : element) : Prop :=
  exists s ts tr, e = one None s ts tr /\ (hasContent 0 e = true -> prevented Show = true) /\ opts s = o /\
    ((the_tip s = None /\ ts = []) \/ (the_tip s = Some 0%nat /\ ts = [new_tip])).

Lemma quiet_on_self f e : quiet e -> (forall s, the_tip (f s) = the_tip s) -> (forall s, opts (f s) = opts s) -> quiet (on_self 0 f e).
Proof.
  intros (s & ts & tr & -> & Ht & Ho & Hts) Hf1 Hf2. rewrite on_self_one. exists (f s), ts, tr.
  rewrite Hf1, Hf2. split_and!; try done. intros Hc. apply Ht. revert Hc. unfold hasContent, getTitle.
  by rewrite !self_at_one, Hf2.
Qed.

Lemma quiet_trigger x e : quiet e -> quiet (trigger_event x e).
Proof. intros (s & ts & tr & -> & Hr). by exists s, ts, (tr ++ [x]). Qed.

Lemma quiet_show e : quiet e -> quiet (show transition prevented 0 e).
Proof.
  intros Hq. unfold show. destruct (hasContent 0 e) eqn:Hc; [|done]. cbn [andb]. destruct (enabled _); [|done].
  pose proof Hq as (s & ts & tr & E & Ht & _). rewrite (Ht Hc). by apply quiet_trigger.
Qed.

Lemma quiet_show_self e : quiet e -> self_at 0 (show transition prevented 0 e) = self_at 0 e.
Proof.
  intros Hq. unfold show. destruct (hasContent 0 e) eqn:Hc; [|done]. cbn [andb]. destruct (enabled _); [|done].
  pose proof Hq as (s & ts & tr & E & Ht & _). by rewrite (Ht Hc).
Qed.

Lemma quiet_hide_timeout e : quiet e -> timeout (self_at 0 (hide transition prevented 0 false e)) = timeout (self_at 0 e).
Proof.
  intros (s & ts & tr & -> & Ht & Ho & Hts). unfold hide, hide_complete. cbv zeta. rewrite self_at_one.
  destruct Hts as [[Htip ->]|[Htip ->]]; rewrite Htip; evaluate_with allowed_hide allowed_hide.
  - destruct (decide _); evaluate_with allowed_hide allowed_hide; done.
  - rewrite andb_false_r. cbn [new_tip t_in t_fade t_sides t_attached t_text t_offset t_arrow t_pending].
    destruct (decide _); evaluate_with allowed_hide allowed_hide; done.
Qed.

Lemma quiet_hide e : quiet e -> quiet (hide transition prevented 0 false e).
Proof.
  intros (s & ts & tr & -> & Ht & Ho & Hts). unfold hide, hide_complete. cbv zeta. rewrite self_at_one.
  assert (forall ts tr, ts = [] \/ ts = [new_tip] -> (the_tip s = None /\ ts = []) \/ (the_tip s = Some 0%nat /\ ts = [new_tip]) ->
    quiet (on_self 0 (set_hoverState None) (one None s ts tr))) as Hq.
  { intros ts' tr' _ Hts'. apply quiet_on_self; [|done|done]. by exists s, ts', tr'. }
  destruct Hts as [[Htip ->]|[Htip ->]]; rewrite Htip; evaluate_with allowed_hide allowed_hide.
  - destruct (decide _); evaluate_with allowed_hide allowed_hide; rewrite <- on_self_one; apply Hq; auto.
  - rewrite andb_false_r. cbn [new_tip t_in t_fade t_sides t_attached t_text t_offset t_arrow t_pending].
    destruct (decide _); evaluate_with allowed_hide allowed_hide; rewrite <- on_self_one; apply Hq; auto.
Qed.

Lemma quiet_leave e : quiet e -> quiet (leave_self transition prevented 0 e).
Proof.
  intros Hq. unfold leave_self. destruct (isInStateTrue _); [done|].
  destruct (negb _); [apply quiet_hide|]; by repeat (apply quiet_on_self; [|done..]).
Qed.

Lemma quiet_tip_of e : quiet e -> exists e', tip_of 0 e = (e', 0%nat) /\ quiet e'.
Proof.
  intros (s & ts & tr & -> & Ht & Ho & Hts). unfold tip_of. rewrite self_at_one. destruct Hts as [[Htip ->]|[Htip ->]]; rewrite Htip.
  - eexists. split; [done|]. exists (set_the_tip (Some 0%nat) s), [new_tip], tr. split_and!; try done. by right.
  - eexists. split; [done|]. exists s, [new_tip], tr. split_and!; try done. by right.
Qed.

Lemma quiet_enter e : quiet e -> quiet (enter_self transition prevented 0 e).
Proof.
  intros Hq. unfold enter_self. destruct (quiet_tip_of e Hq) as (e' & -> & Hq').
  destruct (_ || _); [by apply quiet_on_self|].
  destruct (negb _); [apply quiet_show|]; by repeat (apply quiet_on_self; [|done..]).
Qed.

Lemma quiet_handle ev h e : quiet e -> quiet (handle transition prevented ev h e).
Proof.
  intros Hq. pose proof Hq as (s & ts & tr & -> & _). unfold handle, instance. cbn [data one_of]. fold (one None s ts tr).
  destruct h.
  - apply quiet_enter, quiet_on_self; [done|intros s'; by destruct (decide _)..].
  - apply quiet_leave, quiet_on_self; [done|intros s'; by destruct (decide _)..].
  - destruct (isInStateTrue _); [apply quiet_enter|apply quiet_leave]; by apply quiet_on_self.
Qed.

Lemma quiet_step e e' : step transition prevented e e' -> quiet e -> quiet e'.
Proof.
  intros [ev e1 _|e1|e1] Hq.
  - unfold user. generalize (bound e1). intros l. revert e1 Hq. induction l as [|[ev' h] l IH]; intros e1 Hq; [done|].
    simpl. apply IH. destruct (decide _); [by apply quiet_handle|done].
  - unfold time_out. assert (quiet (on_self 0 (set_timeout None) e1)) as Hq' by (by apply quiet_on_self).
    destruct (timeout _) as [[]|]; [| |done]; destruct (decide _); [by apply quiet_show|done|by apply quiet_hide|done].
  - assert (transition_end transition prevented 0 e1 = e1) as ->; [|done].
    destruct Hq as (s & ts & tr & -> & _ & _ & [[_ ->]|[_ ->]]); done.
Qed.

Lemma quiet_gone e : quiet e -> gone e.
Proof. intros (s & ts & tr & -> & _ & _ & [[_ ->]|[_ ->]]); split; try done; repeat constructor. Qed.

(** No timeout is left after one, and no transition is waited for. *)
Lemma quiet_rest e : quiet e -> at_rest (transition_end transition prevented 0 (time_out transition prevented 0 e)).
Proof.
  intros Hq. assert (quiet (on_self 0 (set_timeout None) e)) as Hq1 by (by apply quiet_on_self).
  assert (timeout (self_at 0 (on_self 0 (set_timeout None) e)) = None) as E1 by (by destruct Hq as (s & ts & tr & -> & _)).
  assert (timeout (self_at 0 (time_out transition prevented 0 e)) = None) as Htm.
  { unfold time_out. destruct (timeout (self_at 0 e)) as [[]|]; [| |exact E1]; destruct (decide _); try exact E1.
    - by rewrite quiet_show_self.
    - by rewrite quiet_hide_timeout. }
  assert (quiet (time_out transition prevented 0 e)) as Hq' by (by apply (quiet_step e); [constructor|]).
  destruct Hq' as (s & ts & tr & E & _ & _ & Hts). rewrite E in Htm |- *. rewrite self_at_one in Htm.
  assert (transition_end transition prevented 0 (one None s ts tr) = one None s ts tr) as ->
    by (by destruct Hts as [[_ ->]|[_ ->]]).
  split; [by apply Forall_singleton|]. destruct Hts as [[_ ->]|[_ ->]]; by repeat constructor.
Qed.
End mute.

(** ** The theorem *)

Definition fresh (title original : option string) (ed : given_options) : element :=
  Element title original None true ed None [] [] [] [].

Lemma listeners_kinds l : Forall (fun p => p.2 = kind p.1) (concat (map listeners_of l)).
Proof.
  induction l as [|w l IH]; [constructor|]. simpl. apply Forall_app. split; [|done]. unfold listeners_of.
  repeat case_match; repeat constructor.
Qed.

Lemma listeners_clicks l :
  length (filter (fun p => p.1 = Click) (concat (map listeners_of l))) = length (filter (fun w => w = "click") l).
Proof.
  induction l as [|w l IH]; [done|]. simpl. rewrite filter_app, length_app, IH, filter_cons. unfold listeners_of.
  destruct (String.eqb_spec w "click") as [-> |Hn]; [done|]. rewrite (decide_False (P := w = "click")) by done.
  by repeat case_match.
Qed.

Section theorem.
Context (transition : bool) (prevented : bs_event -> bool) `{Geometry}.

Lemma Plugin_fresh g title original ed :
  let e := Plugin transition prevented (Object g) (fresh title original ed) in
  let o := getOptions ed g in
  exists oa ob, e = one_of (concat (map listeners_of (rev (triggers o)))) oa ob ed None (new_self o) [] [].
Proof.
  cbv zeta. unfold Plugin, instance, init. cbn [data fresh].
  assert (forall e, fixTitle e = set_titles (attr_title (fixTitle e)) (attr_original (fixTitle e)) e) as Hfix
    by (intros []; unfold fixTitle; simpl; by repeat case_match).
  rewrite Hfix. by eexists _, _.
Qed.

Lemma quiet_steps bd o oa ob ed e e' : prevented Hide = false ->
  rtc (step transition prevented) e e' -> quiet prevented bd o oa ob ed e -> quiet prevented bd o oa ob ed e'.
Proof. intros Hp. induction 1 as [|e1 e2 e3 Hs _ IH]; [done|]. intros Hq. by eapply IH, quiet_step. Qed.

Lemma view_wanted e :
  wanted (transition_end transition prevented 0 (time_out transition prevented 0 e)) = wanted e.
Proof.
  unfold wanted, isInStateTrue.
  pose proof (view_transition_end transition prevented (fun s => (in_click s, in_hover s, in_focus s))
    ltac:(done) ltac:(done) ltac:(done) 0 0 (time_out transition prevented 0 e)) as E1.
  rewrite view_time_out in E1 by done. unfold view in E1. by injection E1 as -> -> ->.
Qed.

(** C35: an element with a tooltip of any options and titles that names the trigger click once at most,
    where no listener prevents [hide], and whose tip is not wanted again while it is fading out: whatever
    the pointer, the focus and the clicks did, in whatever order with the timeouts and the transitions, once
    nothing waits the tip is in the page, with its title, exactly if it is wanted, has a title, and no listener
    prevents [show]; and nothing waits after one more timeout and transition. *)
Theorem tooltip_settled g title original ed e :
  prevented Hide = false -> (length (filter (fun w => w = "click") (triggers (getOptions ed g))) <= 1)%nat ->
  let e1 := Plugin transition prevented (Object g) (fresh title original ed) in
  rtc (step transition prevented) e1 e ->
  let settled e' := if wanted e && hasContent 0 e1 && negb (prevented Show) then shown e' else gone e' in
  (at_rest e -> settled e) /\
  let e' := transition_end transition prevented 0 (time_out transition prevented 0 e) in at_rest e' /\ settled e'.
Proof.
  intros Hp Hc e1 Hs. destruct (Plugin_fresh g title original ed) as (oa & ob & E). fold e1 in E. cbv zeta.
  set (o := getOptions ed g) in *. set (bd := concat _) in E.
  destruct (hasContent 0 e1 && negb (prevented Show)) eqn:Eq.
  - apply andb_true_iff in Eq as [Ht Hsh%negb_true_iff]. rewrite Ht, Hsh, !andb_true_r.
    assert (inv transition bd o oa ob ed e1) as Hi by (rewrite E in Ht |- *; by apply inv_no_tip).
    apply (steps_inv transition prevented Hsh Hp bd o oa ob ed) in Hs; [|apply listeners_kinds| |done].
    2:{ unfold bd. rewrite listeners_clicks. by rewrite <- Permutation_rev. }
    split; [by eapply inv_rest|]. pose proof (inv_comes_to_rest transition prevented Hsh Hp _ _ _ _ _ e Hs) as Hr. split; [done|].
    apply (time_out_inv transition prevented Hsh Hp), (transition_end_inv transition prevented Hp) in Hs.
    pose proof (inv_rest _ _ _ _ _ _ _ Hs Hr) as Hend. by rewrite view_wanted in Hend.
  - assert (wanted e && hasContent 0 e1 && negb (prevented Show) = false) as -> by (by rewrite <- andb_assoc, Eq, andb_false_r).
    assert (quiet prevented bd o oa ob ed e1) as Hq.
    { exists (new_self o), [], []. split_and!; [done| |done|by left]. intros Ht. rewrite Ht in Eq. by destruct (prevented Show). }
    apply (quiet_steps bd o oa ob ed e1 e Hp Hs) in Hq. split; [by intros _; eapply quiet_gone|].
    split; [by eapply quiet_rest|]. eapply quiet_gone, quiet_step; [done|apply step_transition_end|].
    eapply quiet_step; [done|apply step_time_out|done].
Qed.
End theorem.

(** ** Examples *)

Definition ex_rect : rect := Rect 100 200 110 220 20 10 0.
#[export] Instance ex_geometry : Geometry := {|
  el_rect := ex_rect; viewport_rect := Rect 0 0 600 800 800 600 0;
  tip_width := fun _ => 80%Q; tip_height := fun _ => 30%Q;
  tip_sizes_at := fun _ => TipSizes 80 30 0 0 80 30 80 30 |}.

Definition ex_options : given_options := Given None None None (Some "2 in 2015") None (Some true) None None.
Definition ex_element : element := Plugin true (fun _ => false) (Object ex_options) (fresh None None no_options).
#[local] Abbreviation ex_user := (user true (fun _ => false)).
#[local] Abbreviation ex_end := (transition_end true (fun _ => false) 0).

(** The pointer comes and goes before the tip has faded in, and the element gets the focus. *)
Lemma tooltip_settled_witness :
  let e := ex_user Mouseleave (ex_user Mouseenter ex_element) in
  let e := ex_user Focusin (ex_end e) in
  shown (ex_end (time_out true (fun _ => false) 0 e)) /\ length (t_pending (tip_at 0 e)) = 1%nat.
Proof.
  cbv zeta. split; [|by vm_compute].
  apply (tooltip_settled true (fun _ => false) ex_options None None no_options
    (ex_user Focusin (ex_end (ex_user Mouseleave (ex_user Mouseenter ex_element))))).
  - done.
  - vm_compute. lia.
  - eapply rtc_l; [apply (step_user _ _ Mouseenter); intros _; constructor|].
    eapply rtc_l; [apply (step_user _ _ Mouseleave); intros Hf; exfalso; rewrite !elem_of_cons, elem_of_nil in Hf; by destruct Hf as [?|[?|[?|[]]]]|].
    eapply rtc_l; [apply step_transition_end|].
    eapply rtc_l; [apply (step_user _ _ Focusin); intros _; vm_compute; constructor; [by right|constructor]|]. apply rtc_refl.
Defined.

(** Hurried: the pointer goes and comes back before the tip has faded in.  When the transition ends
    the pointer is there and the tip is not, since [complete] of [hide] finds
    [hoverState] reset by [complete] of the first [show]. *)
Theorem tooltip_hurried :
  let e := ex_end (ex_user Mouseenter (ex_user Mouseleave (ex_user Mouseenter ex_element))) in
  at_rest e /\ wanted e = true /\ gone e.
Proof. vm_compute. repeat split; repeat constructor. Qed.

(** Coming back while the tip fades out, after it had faded in: the tip stays, but the
    element has lost its attribute [aria-describedby]. *)
Theorem tooltip_loses_description :
  let e := ex_end (ex_user Mouseenter (ex_user Mouseleave (ex_end (ex_user Mouseenter ex_element)))) in
  at_rest e /\ wanted e = true /\ t_attached <$> tips e = [true] /\ describedby e = None.
Proof. vm_compute. repeat split; repeat constructor. Qed.
