(* ===== verification/TooltipRedraw.v ===== *)
(** * The tooltips of a chart that is drawn again

    [loadData_] of [works/events.js] (and of [sources/events.js]) renews the tooltip of every bar: it
    destroys the old one and makes a new one ([renew]).  Destroying waits for a transition
    when the tip has been shown before, so that the call that would make the new one still finds the
    old one and does nothing. *)

From stdpp Require Import relations.
From Stdlib Require Import Ascii String QArith.
From S2P Require Import Prelude.
From S2P Require Import JsStrings.
From S2P Require Import TooltipPlace.
From S2P Require Import Tooltip.
From S2P Require Import TooltipProps.

#[local] Open Scope string_scope.
#[local] Open Scope list_scope.

Section redraw.
Context (prevented : bs_event -> bool) `{Geometry} (allowed : forall x, prevented x = false).

Definition its (h : handler) : Prop := h = ShowComplete 0 \/ exists d, h = HideComplete 0 d.

(** A tip that is being destroyed. *)
Definition doomed (s : self) (x : tip) : Prop :=
  the_tip s = Some 0%nat /\ show_delay (opts s) = false /\ hide_delay (opts s) = false /\ animation (opts s) = true /\
  timeout s = None /\ hoverState s <> Some HoverOut /\ t_fade x = true /\
  HideComplete 0 true ∈ t_pending x /\ Forall its (t_pending x).

Definition leaving (e : element) : Prop :=
  exists bd a b ed db s x tr, e = one_of bd a b ed db s [x] tr /\ doomed s x.

Lemma leaving_one bd a b ed db s x tr : doomed s x -> leaving (one_of bd a b ed db s [x] tr).
Proof. intros Hd. by exists bd, a, b, ed, db, s, x, tr. Qed.

Lemma doomed_self s s' x : doomed s x -> the_tip s' = the_tip s -> opts s' = opts s -> timeout s' = None ->
  hoverState s' <> Some HoverOut -> doomed s' x.
Proof. unfold doomed. intros Hd -> -> -> Hh. naive_solver. Qed.

Lemma doomed_later s x x' h : doomed s x -> its h -> t_fade x' = true -> t_pending x' = t_pending x ++ [h] -> doomed s x'.
Proof.
  intros (? & ? & ? & ? & ? & ? & ? & Hin & Hits) Hh Hf Hp. unfold doomed. rewrite Hp. split_and!; try done.
  - apply elem_of_app. by left.
  - apply Forall_app. by split; [|constructor].
Qed.

Ltac evaluate := evaluate_with constr:(allowed Show) constr:(allowed Hide).

Lemma show_leaving e : leaving e -> leaving (show true prevented 0 e).
Proof.
  intros (bd & a & b & ed & db & s & x & tr & -> & Hd). pose proof Hd as (Htip & _ & _ & Han & _).
  unfold show. evaluate. destruct (hasContent 0 _ && enabled s); [|by apply leaving_one].
  unfold tip_of. evaluate. rewrite Htip. evaluate.
  match goal with |- context [setContent ?t x] => set (title := t) end.
  destruct (put_fields (opts s) (setContent title x)) as (sds & off & arr & ->). evaluate. rewrite Han. evaluate.
  apply leaving_one. eapply doomed_later; [done|by left|done|done].
Qed.

(** Entering and leaving, with other flags. *)
Lemma enter_leaving bd a b ed db s x tr c h f : doomed s x ->
  leaving (enter_self true prevented 0 (one_of bd a b ed db (set_inState c h f s) [x] tr)).
Proof.
  intros Hd. pose proof Hd as (Htip & Hsd & _ & _ & Htm & _). unfold enter_self, tip_of. evaluate. rewrite Htip. evaluate.
  rewrite Hsd. destruct (t_in x || _); evaluate; [|apply show_leaving]; apply leaving_one; by eapply doomed_self.
Qed.

Lemma leave_leaving bd a b ed db s x tr c h f : doomed s x ->
  leaving (leave_self true prevented 0 (one_of bd a b ed db (set_inState c h f s) [x] tr)).
Proof.
  intros Hd. pose proof Hd as (Htip & _ & Hhd & _ & Htm & Hh & Hf & _). unfold leave_self. evaluate.
  destruct (c || h || f); [by apply leaving_one; eapply doomed_self|]. rewrite Hhd. evaluate.
  unfold hide. evaluate. rewrite Htip. evaluate. rewrite Hf. evaluate. apply leaving_one.
  eapply doomed_later; [by eapply doomed_self|right; by eexists|done|done].
Qed.

Lemma user_leaving ev e : leaving e -> leaving (user true prevented ev e).
Proof.
  unfold user. generalize (bound e) as l. intros l. revert e. induction l as [|[ev' h] l IH]; intros e Hl; [done|]. simpl.
  apply IH. destruct (decide (ev' = ev)) as [-> |?]; [|done].
  destruct Hl as (bd & a & b & ed & db & s & x & tr & -> & Hd). unfold handle, instance. cbn [data one_of].
  destruct h; evaluate.
  - destruct (decide _); by apply enter_leaving.
  - destruct (decide _); by apply leave_leaving.
  - destruct (_ || _); [by apply enter_leaving|by apply leave_leaving].
Qed.

(** While the handlers run; [is_over] once the one of [destroy] has. *)
Definition ending (is_over : bool) (e : element) : Prop :=
  exists a b db ed da bd s x tr, e = Element a b db true ed da bd [s] [x] tr /\
    timeout s = None /\ hoverState s <> Some HoverOut /\ t_pending x = [] /\
    ((is_over = false /\ the_tip s = Some 0%nat) \/
     (da = None /\ bd = [] /\ the_tip s = None /\ t_attached x = false /\ db = None)).

Lemma show_complete_ending over e : ending over e -> ending over (show_complete true prevented 0 e).
Proof.
  intros (a & b & db & ed & da & bd & s & x & tr & -> & Htm & Hh & Hp & Ho). unfold show_complete.
  change (self_at 0 _) with s at 1. rewrite decide_False by done.
  by exists a, b, db, ed, da, bd, (set_hoverState None s), x, (tr ++ [Shown]).
Qed.

Lemma hide_complete_ending over d e : ending over e -> ending (over || d) (hide_complete 0 (Some 0%nat) d e).
Proof.
  intros (a & b & db & ed & da & bd & s & x & tr & -> & Htm & Hh & Hp & Ho). unfold hide_complete.
  change (self_at 0 _) with s at 1.
  set (x' := if decide (hoverState s = Some HoverIn) then x else set_attached false x).
  assert (t_pending x' = [] /\ (t_attached x = false -> t_attached x' = false)) as [Hp' Ha']
    by (subst x'; by destruct (decide _)).
  set (e' := if decide _ then _ else _).
  assert (e' = Element a b db true ed da bd [s] [x'] tr) as -> by (subst x' e'; by destruct (decide _)). clearbody x'.
  destruct d.
  - rewrite orb_true_r. unfold destroyed. change (the_tip (self_at _ _)) with (the_tip s).
    destruct Ho as [[_ Htip]|(_ & _ & Htip & Hatt & _)]; rewrite Htip.
    + exists a, b, None, ed, None, [], (set_the_tip None s), (set_attached false x'), (tr ++ [Hidden]).
      split_and!; try done. by right.
    + exists a, b, None, ed, None, [], (set_the_tip None s), x', (tr ++ [Hidden]). split_and!; try done. right. by split_and!; auto.
  - rewrite orb_false_r. exists a, b, None, ed, da, bd, s, x', (tr ++ [Hidden]). split_and!; try done.
    destruct Ho as [?|(? & ? & ? & ? & ?)]; [by left|right; by split_and!; auto].
Qed.

Lemma handlers_ending over e l : Forall its l -> ending over e ->
  exists over', ending over' (foldl (run_handler true prevented 0) e l) /\
    (over = true \/ HideComplete 0 true ∈ l -> over' = true).
Proof.
  intros Hl. revert over e. induction Hl as [|h l Hh _ IH]; intros over e He.
  { exists over. split; [done|]. intros [?|[]%elem_of_nil]; done. }
  simpl. destruct Hh as [-> |[d ->]]; simpl.
  - destruct (IH over _ (show_complete_ending over e He)) as (o & Ho & Hi). exists o. split; [done|].
    rewrite elem_of_cons. naive_solver.
  - destruct (IH (over || d) _ (hide_complete_ending over d e He)) as (o & Ho & Hi). exists o. split; [done|].
    rewrite elem_of_cons. intros [-> |[[= <-]|Hin]]; apply Hi; rewrite ?orb_true_r; auto.
Qed.

(** Once its transition ends, nothing is left of the tooltip. *)
Lemma transition_end_leaving e : leaving e -> ending true (transition_end true prevented 0 e).
Proof.
  intros (bd & a & b & ed & db & s & x & tr & -> & Hd). pose proof Hd as (Htip & _ & _ & _ & Htm & Hh & _ & Hin & Hits).
  unfold transition_end. rewrite tip_at_one, on_tip_one.
  destruct (handlers_ending false (one_of bd a b ed db s [set_pending [] x] tr) (t_pending x)) as (o & Ho & Hi); [done| |].
  - exists a, b, db, ed, (Some 0%nat), bd, s, (set_pending [] x), tr. split_and!; try done. by left.
  - by rewrite (Hi (or_intror Hin)) in Ho.
Qed.

Lemma ending_dead e : ending true e -> data e = None /\ gone e /\ at_rest e /\ forall ev, user true prevented ev e = e.
Proof.
  intros (a & b & db & ed & da & bd & s & x & tr & -> & Htm & Hh & Hp & [[? _]|(-> & -> & Htip & Hatt & ->)]); [done|].
  split_and!; try done; split; (done || by apply Forall_singleton).
Qed.
(** *** Drawing again *)

(** The states of a bar whose chart was drawn once. *)
Definition bar_state (title : string) (e : element) : Prop :=
  rtc (step true prevented) (renew true prevented title (fresh None None no_options)) e.

Definition chart_listeners : list (user_event * handling) :=
  [(Focusin, Enter); (Focusout, Leave); (Mouseenter, Enter); (Mouseleave, Leave)].

Lemma bar_state_inv title e : bar_state title e -> title <> "" ->
  inv true chart_listeners (getOptions no_options (chart_options title)) (Some "") (Some "") no_options e.
Proof.
  intros Hs Ht. eapply (steps_inv true prevented (allowed Show) (allowed Hide)); [| |apply Hs|].
  - repeat constructor.
  - simpl. lia.
  - apply (inv_no_tip true chart_listeners _ (Some "") (Some "") no_options); try done.
    unfold hasContent, getTitle. simpl. apply negb_true_iff. by apply String.eqb_neq.
Qed.

Lemma renew_leaving t0 title e : bar_state t0 e -> t0 <> "" -> t_fade (tip_at 0 e) = true ->
  leaving (renew true prevented title e).
Proof.
  intros Hs Ht0 Hf. apply bar_state_inv in Hs; [|done].
  destruct Hs as (db & s & ts & tr & -> & _ & [_ Ho] & Hc).
  destruct Hc as [(x & Htip & -> & Hx)|(_ & -> & _)]; [|done]. rewrite tip_at_one in Hf.
  unfold renew, Plugin at 2, instance, call, destroy. cbn [data one_of]. unfold hide. evaluate. rewrite Htip. evaluate.
  rewrite Hf. evaluate. apply leaving_one. unfold doomed. simpl. rewrite Ho. split_and!; try done.
  - apply elem_of_app. right. left.
  - apply Forall_app. split; [|by constructor; [right; eexists|]]. eapply Forall_impl; [by eapply tip_inv_mine|].
    intros h [-> | ->]; [by left|right; by eexists].
Qed.

(** Redrawing a chart whose bar has shown its tooltip before: whatever the user does until the
    old tip has faded, the bar is left without a tooltip, and no event brings one. *)
Theorem redraw_loses_tooltip t0 title e evs :
  bar_state t0 e -> t0 <> "" -> t_fade (tip_at 0 e) = true ->
  let e' := foldl (fun e ev => user true prevented ev e) (renew true prevented title e) evs in
  let e' := transition_end true prevented 0 e' in
  data e' = None /\ gone e' /\ at_rest e' /\ forall ev, user true prevented ev e' = e'.
Proof.
  intros Hs Ht Hf. cbv zeta. apply ending_dead, transition_end_leaving.
  assert (leaving (renew true prevented title e)) as Hl by (by eapply renew_leaving).
  revert Hl. generalize (renew true prevented title e) as e'. induction evs as [|ev evs IH]; intros e' Hl; [done|]. simpl.
  by apply IH, user_leaving.
Qed.

(** *** A bar that has not shown a tooltip *)

Section two.
Context (a b : option string) (ed : given_options) (da : option nat) (bd : list (user_event * handling)) (s0 : self).

(** An element with its second instance, and the first tip. *)
Definition two (s : self) (ts : list tip) (tr : list bs_event) (db : option nat) : element :=
  Element a b db true ed da bd [s0; s] ts tr.

Lemma two_self s ts tr db g : on_self 1 g (two s ts tr db) = two (g s) ts tr db.
Proof. done. Qed.
Lemma two_tip s x tr db g : on_tip 0 g (two s [x] tr db) = two s [g x] tr db.
Proof. done. Qed.
Lemma two_described s ts tr db y : set_describedby y (two s ts tr db) = two s ts tr y.
Proof. done. Qed.
Lemma two_trigger s ts tr db y : trigger_event y (two s ts tr db) = two s ts (tr ++ [y]) db.
Proof. done. Qed.
Lemma two_self_at s ts tr db : self_at 1 (two s ts tr db) = s.
Proof. done. Qed.
Lemma two_tip_at s x tr db : tip_at 0 (two s [x] tr db) = x.
Proof. done. Qed.

Lemma show_two s x tr db : the_tip s = Some 0%nat -> enabled s = true -> animation (opts s) = true ->
  hasContent 1 (two s [x] tr db) = true ->
  exists y, tips (show true prevented 1 (two s [x] tr db)) = [y] /\
    t_in y = true /\ t_attached y = true /\ t_text y = getTitle 1 (two s [x] tr db).
Proof.
  intros Htip Hen Han Ht. unfold show. rewrite Ht, two_self_at, Hen. cbn [andb]. cbv zeta. rewrite two_trigger, (allowed Show).
  change (in_document _) with true. cbn [orb negb]. unfold tip_of. rewrite two_self_at, Htip, two_tip, two_described, two_self_at.
  match goal with |- context [setContent ?t x] => set (title := t) end.
  rewrite two_tip. destruct (put_fields (opts s) (setContent title x)) as (sds & off & arr & ->).
  rewrite two_trigger, two_tip_at, Han. cbn [andb t_fade orb]. eexists. by split_and!.
Qed.

Lemma enter_two o tr db : show_delay o = false -> animation o = true ->
  let e := two (set_inState false true false (new_self o)) [] tr db in hasContent 1 e = true ->
  exists y, tips (enter_self true prevented 1 e) = [y] /\ t_in y = true /\ t_attached y = true /\ t_text y = getTitle 1 e.
Proof.
  intros Hd Ha e Ht. subst e. unfold enter_self, tip_of. rewrite two_self_at. cbn [the_tip set_inState new_self].
  change (on_tips _ (two ?s [] tr db)) with (two s [new_tip] tr db). cbv zeta. rewrite !two_self, !two_self_at.
  change (length (tips _)) with 0%nat. rewrite two_tip_at. rewrite bool_decide_false by done.
  cbn [t_in new_tip orb opts set_hoverState set_timeout set_the_tip set_inState new_self]. rewrite Hd. cbn [negb].
  by apply show_two.
Qed.
End two.

(** Redrawing a chart whose bar has not shown a tooltip: the bar has a new one, which shows the
    new title when the pointer comes. *)
Theorem redraw_renews_tooltip t0 title e :
  bar_state t0 e -> t0 <> "" -> title <> "" -> tips e = [] ->
  let e' := renew true prevented title e in
  bound e' = chart_listeners /\ gone e' /\
  exists x, tips (user true prevented Mouseenter e') = [x] /\ t_in x = true /\ t_attached x = true /\ t_text x = title.
Proof.
  intros Hs Ht0 Ht Hts. apply bar_state_inv in Hs; [|done].
  destruct Hs as (db & s & ts & tr & -> & _ & [_ Ho] & Hc). simpl in Hts. subst ts.
  destruct Hc as [(x & _ & ? & _)|(Htip & _ & -> & _ & Hh & _)]; [done|].
  assert (exists s0 tr', renew true prevented title (one_of chart_listeners (Some "") (Some "") no_options None s [] tr) =
    two (Some "") (Some "") no_options (Some 1%nat) chart_listeners s0 (new_self (getOptions no_options (chart_options title))) [] tr' None) as E.
  { unfold renew, Plugin at 2, instance, call, destroy. cbn [data one_of]. unfold hide. evaluate. rewrite Htip.
    unfold hide_complete, destroyed. evaluate. rewrite decide_False by done. evaluate.
    change (self_at 0 _) with (set_timeout None s). cbn [the_tip set_timeout]. rewrite Htip.
    unfold Plugin, instance, init. simpl. unfold fixTitle. simpl.
    by eexists _, _. }
  destruct E as (s0 & tr' & ->). split_and!; [done|done|].
  apply (enter_two (Some "") (Some "") no_options (Some 1%nat) chart_listeners s0 (getOptions no_options (chart_options title)) tr' None);
    [done|done|]. unfold hasContent, getTitle. rewrite two_self_at. simpl. apply negb_true_iff. by apply String.eqb_neq.
Qed.
End redraw.

(** A bar that was pointed at, and one that was not. *)
Definition ex_bar : element := renew true (fun _ => false) "2 in 2015-01-30" (fresh None None no_options).
#[local] Abbreviation ex_user := (user true (fun _ => false)).
#[local] Abbreviation ex_end := (transition_end true (fun _ => false) 0).

Lemma redraw_loses_tooltip_witness :
  let e := ex_end (ex_user Mouseleave (ex_end (ex_user Mouseenter ex_bar))) in
  gone (ex_end (foldl (fun e ev => ex_user ev e) (renew true (fun _ => false) "4 in 2015-01" e) [Mouseenter])) /\
  t_text <$> tips (ex_user Mouseenter ex_bar) = ["2 in 2015-01-30"].
Proof.
  cbv zeta. split; [|by vm_compute].
  refine (proj1 (proj2 (redraw_loses_tooltip (fun _ => false) (fun _ => eq_refl) "2 in 2015-01-30" "4 in 2015-01"
    (ex_end (ex_user Mouseleave (ex_end (ex_user Mouseenter ex_bar)))) [Mouseenter] _ _ _))); [|done|by vm_compute].
  eapply rtc_l; [apply (step_user _ _ Mouseenter); intros _; constructor|].
  eapply rtc_l; [apply step_transition_end|].
  eapply rtc_l; [apply (step_user _ _ Mouseleave); intros Hf; exfalso; rewrite !elem_of_cons, elem_of_nil in Hf;
    by destruct Hf as [?|[?|[?|[]]]]|].
  eapply rtc_l; [apply step_transition_end|]. apply rtc_refl.
Defined.

Lemma redraw_renews_tooltip_witness :
  exists x, tips (ex_user Mouseenter (renew true (fun _ => false) "4 in 2015-01" ex_bar)) = [x] /\
    t_in x = true /\ t_attached x = true /\ t_text x = "4 in 2015-01".
Proof.
  apply (redraw_renews_tooltip (fun _ => false) (fun _ => eq_refl) "2 in 2015-01-30" "4 in 2015-01" ex_bar);
    [apply rtc_refl|done..].
Defined.
