(* ===== verification/TooltipBars.v ===== *)
(** * The tooltips of bars that nobody has pointed at

    However often a chart is drawn again, and whatever else happened to a bar, as long
    as no tip has been made for it its tooltip is that of the last drawing: the tip that
    the pointer or the focus brings has its title. *)

From Stdlib Require Import Ascii String QArith.
From S2P Require Import Prelude.
From S2P Require Import JsStrings.
From S2P Require Import TooltipPlace.
From S2P Require Import Tooltip.
From S2P Require Import TooltipProps.
From S2P Require Import TooltipRedraw.

#[local] Open Scope string_scope.
#[local] Open Scope list_scope.

(** What can happen to an element between two drawings. *)
Inductive happening := Uses (ev : user_event) | TimesOut (i : nat) | TransitionEnds (t : nat).

Definition happens (transition : bool) (prevented : bs_event -> bool) `{Geometry} (h : happening) (e : element) : element :=
  match h with
  | Uses ev => user transition prevented ev e
  | TimesOut i => time_out transition prevented i e
  | TransitionEnds t => transition_end transition prevented t e
  end.

(** ** Tips are not lost *)

Section count.
Context (transition : bool) (prevented : bs_event -> bool) `{Geometry}.

Definition count (e : element) : nat := length (tips e).

Lemma count_on_tip t f e : count (on_tip t f e) = count e.
Proof. unfold count. simpl. by rewrite length_alter. Qed.

Lemma count_hide_complete i t d e : count (hide_complete i t d e) = count e.
Proof.
  unfold hide_complete, destroyed. repeat case_match; try done; unfold count; simpl; by rewrite ?length_alter.
Qed.

Lemma count_hide i d e : count (hide transition prevented i d e) = count e.
Proof.
  unfold hide. destruct (prevented Hide); [done|]. change (count (on_self ?i ?f ?e)) with (count e).
  destruct (the_tip _); [|by rewrite count_hide_complete].
  destruct (_ && _); [unfold later|rewrite count_hide_complete]; by rewrite ?count_on_tip.
Qed.

Lemma count_leave_self i e : count (leave_self transition prevented i e) = count e.
Proof. unfold leave_self. repeat case_match; rewrite ?count_hide; done. Qed.

Lemma count_show_complete i e : count (show_complete transition prevented i e) = count e.
Proof. unfold show_complete. case_match; rewrite ?count_leave_self; done. Qed.

Lemma count_tip_of i e : (count e <= count (tip_of i e).1)%nat.
Proof. unfold tip_of. case_match; [done|]. unfold count. simpl. rewrite length_app. lia. Qed.

Lemma count_show i e : (count e <= count (show transition prevented i e))%nat.
Proof.
  unfold show. destruct (_ && _); [|done]. destruct (_ || _); [done|].
  pose proof (count_tip_of i (trigger_event Show e)) as Ht. destruct (tip_of _ _) as [e' t]. cbn [fst] in Ht.
  change (count (trigger_event Show e)) with (count e) in Ht. etrans; [exact Ht|]. apply Nat.eq_le_incl. symmetry.
  destruct (_ && _); [unfold later; rewrite count_on_tip|rewrite count_show_complete];
    change (count (trigger_event ?x ?e)) with (count e); by rewrite count_on_tip;
    change (count (set_describedby ?x ?e)) with (count e); rewrite ?count_on_tip.
Qed.

Lemma count_enter_self i e : (count (tip_of i e).1 <= count (enter_self transition prevented i e))%nat.
Proof.
  unfold enter_self. destruct (tip_of i e) as [e' t]. cbn [fst]. repeat case_match; try done. etrans; [|apply count_show]. done.
Qed.

Lemma count_instance g e : count (instance g e).1 = count e.
Proof.
  unfold instance. destruct (Tooltip.data e); [done|]. unfold init. simpl. unfold count, fixTitle. simpl.
  by repeat case_match.
Qed.

Lemma count_handle ev h e : (count e <= count (handle transition prevented ev h e))%nat.
Proof.
  unfold handle. pose proof (count_instance no_options e) as Hi. destruct (instance no_options e) as [e' i].
  cbn [fst] in Hi. rewrite <- Hi. destruct h.
  - etrans; [|apply count_enter_self]. etrans; [|apply count_tip_of]. done.
  - by rewrite count_leave_self.
  - case_match; [etrans; [|apply count_enter_self]; etrans; [|apply count_tip_of]; done|by rewrite count_leave_self].
Qed.

Lemma count_happens h e : (count e <= count (happens transition prevented h e))%nat.
Proof.
  destruct h as [ev|i|t]; simpl.
  - unfold user. generalize (bound e). intros l. revert e. induction l as [|[ev' h] l IH]; intros e; [done|]. simpl.
    etrans; [|apply IH]. destruct (decide _); [apply count_handle|done].
  - unfold time_out. repeat case_match; try done; [apply (count_show i (on_self i (set_timeout None) e))|by rewrite count_hide].
  - unfold transition_end. rewrite <- (count_on_tip t (set_pending []) e). generalize (t_pending (tip_at t e)).
    generalize (on_tip t (set_pending []) e). clear e. intros e l. revert e. induction l as [|h l IH]; intros e; [done|].
    simpl. etrans; [|apply IH]. destruct h; simpl; by rewrite ?count_show_complete, ?count_hide_complete.
Qed.

Lemma count_renew title e : (count e <= count (renew transition prevented title e))%nat.
Proof.
  unfold renew. assert (count e = count (Plugin transition prevented (Method CallDestroy) e)) as ->.
  { unfold Plugin. destruct (Tooltip.data e) eqn:Ed; [|done]. unfold instance. rewrite Ed. simpl. unfold destroy.
    by rewrite count_hide. }
  generalize (Plugin transition prevented (Method CallDestroy) e). intros e'. unfold Plugin.
  pose proof (count_instance (chart_options title) e') as Hi. destruct (instance _ e') as [e2 i]. cbn [fst] in Hi.
  by destruct (Tooltip.data e'); rewrite Hi.
Qed.
End count.

(** ** Bars without a tip *)

Section untipped.
Context (transition : bool) (prevented : bs_event -> bool) `{Geometry}.
Context (allowed_show : prevented Show = false) (allowed_hide : prevented Hide = false).

Definition chart_self (title : string) : self := new_self (getOptions no_options (chart_options title)).

(** An element whose last instance is [s], with instances before it that are not used any more. *)
Definition last_of (os : list self) (s : self) (ts : list tip) (db : option nat) (tr : list bs_event) : element :=
  Element (Some "") (Some "") db true no_options (Some (length os)) chart_listeners (os ++ [s]) ts tr.

Lemma alter_last {A} (f : A -> A) l x : alter f (length l) (l ++ [x]) = l ++ [f x].
Proof. by rewrite alter_app_r_alt, Nat.sub_diag by done. Qed.

Lemma last_self os s ts db tr : self_at (length os) (last_of os s ts db tr) = s.
Proof. unfold self_at. simpl. by rewrite list_lookup_middle. Qed.
Lemma last_on_self os s ts db tr f : on_self (length os) f (last_of os s ts db tr) = last_of os (f s) ts db tr.
Proof.
  unfold on_self, on_selfs, last_of. simpl. by rewrite alter_last.
Qed.

(** Without a tip, with the tooltip of the drawing that gave it its title. *)
Definition untipped (title : string) (e : element) : Prop :=
  exists os tr, e = last_of os (chart_self title) [] None tr /\ Forall (fun s => timeout s = None) os.

(** Drawing again, for the first time or not. *)
Lemma renew_fresh title : untipped title (renew transition prevented title (fresh None None no_options)).
Proof. exists [], []. by split; [|constructor]. Qed.

Lemma renew_untipped t title e : untipped t e -> untipped title (renew transition prevented title e).
Proof.
  intros (os & tr & -> & Hos). exists (os ++ [chart_self t]), ((tr ++ [Hide]) ++ [Hidden]).
  split; [|apply Forall_app; split; [done|by apply Forall_singleton]].
  unfold renew, Plugin at 2, instance, call. cbn [Tooltip.data last_of]. unfold destroy.
  fold (last_of os (chart_self t) [] None tr). rewrite last_on_self. unfold hide. rewrite last_self, allowed_hide.
  cbn [the_tip set_timeout chart_self new_self].
  change (trigger_event Hide (last_of os ?s [] None tr)) with (last_of os s [] None (tr ++ [Hide])).
  unfold hide_complete. rewrite last_self. cbn [hoverState set_timeout chart_self new_self]. rewrite decide_False by done.
  change (trigger_event Hidden (set_describedby None (last_of os ?s [] None ?tr))) with (last_of os s [] None (tr ++ [Hidden])).
  unfold destroyed.
  change (set_data None [] (last_of os ?s [] None ?tr)) with (Element (Some "") (Some "") None true no_options None [] (os ++ [s]) [] tr).
  change (set_timeout None (chart_self t)) with (chart_self t).
  assert (forall f : self -> self, f (chart_self t) = chart_self t -> forall l tr,
    on_self (length os) f (Element (Some "") (Some "") None true no_options None l (os ++ [chart_self t]) [] tr)
    = Element (Some "") (Some "") None true no_options None l (os ++ [chart_self t]) [] tr) as Hsame.
  { intros f Hf l tr'. unfold on_self, on_selfs. simpl. by rewrite alter_last, Hf. }
  assert (self_at (length os) (Element (Some "") (Some "") None true no_options None [] (os ++ [chart_self t]) [] ((tr ++ [Hide]) ++ [Hidden]))
    = chart_self t) as -> by (unfold self_at; simpl; by rewrite list_lookup_middle).
  cbn [the_tip chart_self new_self]. rewrite !Hsame by done. unfold Plugin, instance, init. cbn [Tooltip.data]. simpl.
  unfold last_of. by rewrite length_app.
Qed.

(** Leaving changes nothing, for nothing is there. *)
Lemma leave_untipped os t tr c h : Forall (fun s => timeout s = None) os -> c = false -> h = false ->
  untipped t (leave_self transition prevented (length os) (last_of os (set_inState false c h (chart_self t)) [] None tr)).
Proof.
  intros Hos -> ->. unfold leave_self. rewrite last_self. change (isInStateTrue _) with false. cbv iota. rewrite !last_on_self, last_self.
  change (hide_delay _) with false. cbn [negb]. unfold hide. rewrite last_self, allowed_hide. cbn [the_tip set_hoverState set_timeout set_inState chart_self new_self].
  change (trigger_event Hide (last_of os ?s [] None tr)) with (last_of os s [] None (tr ++ [Hide])).
  unfold hide_complete. rewrite last_self. cbn [hoverState set_hoverState]. rewrite decide_False by done.
  change (trigger_event Hidden (set_describedby None (last_of os ?s [] None ?tr))) with (last_of os s [] None (tr ++ [Hidden])).
  rewrite last_on_self. by eexists _, _.
Qed.

Lemma user_last ev os s ts db tr : let e := last_of os s ts db tr in
  user transition prevented ev e = match ev with Click => e | _ => handle transition prevented ev (kind ev) e end.
Proof. by destruct ev. Qed.

(** Entering makes a tip. *)
Lemma enter_counts os s tr ev :
  (1 <= count (handle transition prevented ev Enter (last_of os s [] None tr)))%nat \/ the_tip s <> None.
Proof.
  destruct (the_tip s) eqn:Ht; [by right|left]. unfold handle, instance. cbn [Tooltip.data last_of].
  fold (last_of os s [] None tr). rewrite last_on_self. etrans; [|apply count_enter_self].
  unfold tip_of. rewrite last_self. destruct (decide (ev = Focusin)); cbn [the_tip set_inState]; by rewrite Ht.
Qed.

Lemma happens_untipped t h e : untipped t e -> tips (happens transition prevented h e) = [] ->
  untipped t (happens transition prevented h e).
Proof.
  intros (os & tr & -> & Hos) Htips. destruct h as [ev|i|j]; simpl in *.
  - rewrite user_last in *. assert (handle transition prevented ev Leave (last_of os (chart_self t) [] None tr) =
      leave_self transition prevented (length os) (last_of os (set_inState false false false (chart_self t)) [] None tr)) as Hleave.
    { unfold handle, instance. cbn [Tooltip.data last_of]. fold (last_of os (chart_self t) [] None tr). rewrite last_on_self.
      by destruct (decide _). }
    assert (forall ev, tips (handle transition prevented ev Enter (last_of os (chart_self t) [] None tr)) <> []) as Henter.
    { intros ev' E. destruct (enter_counts os (chart_self t) tr ev') as [Hc|Hc]; [|done]. unfold count in Hc. rewrite E in Hc. simpl in Hc. lia. }
    destruct ev; simpl in *; try (by destruct (Henter _ Htips)); rewrite ?Hleave; [by apply leave_untipped..|by exists os, tr].
  - assert (time_out transition prevented i (last_of os (chart_self t) [] None tr) =
      on_self i (set_timeout None) (last_of os (chart_self t) [] None tr)) as ->.
    { unfold time_out. assert (timeout (self_at i (last_of os (chart_self t) [] None tr)) = None) as ->; [|done].
      unfold self_at. simpl. destruct ((os ++ [chart_self t]) !! i) as [s|] eqn:Es; [|done]. simpl.
      apply (Forall_lookup_1 (fun s => timeout s = None) (os ++ [chart_self t]) i); [|done].
      apply Forall_app. split; [done|by apply Forall_singleton]. }
    unfold untipped, on_self, on_selfs, last_of. simpl. rewrite alter_app. destruct (decide _) as [Hi|Hi].
    + exists (alter (set_timeout None) i os), tr. rewrite length_alter. split; [done|]. by apply Forall_alter.
    + exists os, tr. split; [|done]. do 2 f_equal. by destruct (i - length os)%nat.
  - by exists os, tr.
Qed.

(** ** The tip that is made *)

(** The tip is there, with its title. *)
Definition tip_shows (title : string) (e : element) : Prop :=
  exists x, tips e = [x] /\ t_in x = true /\ t_attached x = true /\ t_text x = title.

Lemma getTitle_last os s ts d tr t : opts s = opts (chart_self t) -> getTitle (length os) (last_of os s ts d tr) = t.
Proof. intros Ho. unfold getTitle. rewrite last_self, Ho. done. Qed.

Lemma show_last os s x tr t : the_tip s = Some 0%nat -> enabled s = true -> opts s = opts (chart_self t) ->
  hoverState s = Some HoverIn -> t <> "" ->
  tip_shows t (show transition prevented (length os) (last_of os s [x] None tr)).
Proof.
  intros Htip Hen Ho Hh Ht. unfold show, hasContent. rewrite (getTitle_last _ _ _ _ _ t Ho), last_self, Hen.
  rewrite (proj2 (String.eqb_neq _ _) Ht). cbn [negb andb].
  rewrite allowed_show. change (in_document _) with true. cbn [negb orb].
  change (trigger_event ?y (last_of os s [x] None tr)) with (last_of os s [x] None (tr ++ [y])).
  unfold tip_of. rewrite last_self, Htip. cbv beta iota zeta. rewrite (getTitle_last _ _ _ _ _ t Ho).
  change (on_tip 0 ?f (last_of os s [x] None ?tr)) with (last_of os s [f x] None tr).
  change (set_describedby ?d (last_of os s ?ts None ?tr)) with (last_of os s ts d tr). rewrite last_self.
  change (on_tip 0 ?f (last_of os s [?x] ?d ?tr)) with (last_of os s [f x] d tr).
  destruct (put_fields (opts s) (setContent t x)) as (sds & off & arr & Ep). rewrite Ep.
  change (trigger_event ?y (last_of os s ?ts ?d ?tr)) with (last_of os s ts d (tr ++ [y])).
  destruct (transition && _).
  - eexists. by split_and!.
  - unfold show_complete. change (trigger_event ?y (last_of os s ?ts ?d ?tr)) with (last_of os s ts d (tr ++ [y])).
    rewrite last_self, Hh, decide_False, last_on_self by done. eexists. by split_and!.
Qed.

(** The pointer or the focus comes to a bar without a tip. *)
Lemma untipped_shows t e ev : untipped t e -> t <> "" -> ev = Mouseenter \/ ev = Focusin ->
  tip_shows t (user transition prevented ev e).
Proof.
  intros (os & tr & -> & _) Ht Hev. rewrite user_last.
  assert (exists s, the_tip s = None /\ enabled s = true /\ opts s = opts (chart_self t) /\ hoverState s = None /\
    (match ev with Click => last_of os (chart_self t) [] None tr | _ => handle transition prevented ev (kind ev) (last_of os (chart_self t) [] None tr) end)
    = enter_self transition prevented (length os) (last_of os s [] None tr)) as (s & Hs1 & Hs2 & Hs3 & Hs4 & ->).
  { destruct Hev as [-> | ->]; simpl; unfold handle, instance; cbn [Tooltip.data last_of];
      fold (last_of os (chart_self t) [] None tr); rewrite last_on_self; eexists (set_inState _ _ _ (chart_self t)); by split_and!. }
  unfold enter_self, tip_of. rewrite last_self, Hs1.
  change (on_tips (fun l => l ++ [new_tip]) (last_of os s [] None tr)) with (last_of os s [new_tip] None tr).
  rewrite last_on_self. change (length (tips (last_of os s [] None tr))) with 0%nat.
  change (tip_at 0 (last_of os ?s [new_tip] None tr)) with new_tip. rewrite !last_self. cbn [t_in new_tip hoverState set_the_tip].
  rewrite Hs4. cbn [orb]. rewrite bool_decide_false by done. rewrite !last_on_self, last_self. cbn [opts set_hoverState set_timeout set_the_tip].
  rewrite Hs3. change (show_delay _) with false. cbn [negb]. by apply show_last.
Qed.
End untipped.
