(* ===== verification/Redraw.v ===== *)
(** * ALMViz: a chart drawn again at another level

    [loadData_] of [works/events.js] on a chart that has bars already, and the controls
    (daily, monthly, yearly) whose clicks call it.  d3 joins the bars to the data of the
    new level by a key computed at the new level from the data the bars have:
    a bar of a coarser level has no month or day, and its key is an invalid date.
    Attributes are those at the end of the transitions.  The tooltip of a bar is
    what the plugin keeps about it ([Tooltip.element]): drawing destroys it and makes a
    new one, and between two drawings pointer, focus, timeouts and transitions act on it. *)

From Stdlib Require Import Ascii String QArith.
From S2P Require Import Prelude.
From S2P Require Import JsStrings.
From S2P Require Import TooltipPlace.
From S2P Require Import Tooltip.
From S2P Require Import TooltipProps.
From S2P Require Import TooltipBars.
From S2P Require Import Helpers.
From S2P Require Import Dom.
From S2P Require Import Charts.
From S2P Require Import AlmViz.

#[local] Open Scope string_scope.

(** ** The join of d3

    [selection.data(data, key)]: of the nodes with one key the first one counts, and so does
    the first of the data; a node that is not joined leaves. *)

Section join.
Context {N D : Type} (node_key : N -> string) (data_key : D -> string).

Definition has_key (k : string) (l : list string) : bool := existsb (String.eqb k) l.

(** Nodes that stay, in their order, with their new data. *)
Fixpoint staying (seen : list string) (nodes : list N) (data : list D) : list (N * D) :=
  match nodes with
  | [] => []
  | n :: nodes' =>
      let k := node_key n in
      if has_key k seen then staying seen nodes' data
      else (match List.find (fun d => String.eqb (data_key d) k) data with Some d => [(n, d)] | None => [] end
            ++ staying (k :: seen) nodes' data)%list
  end.

(** Data that get a new node; [seen] starts with the keys of the nodes. *)
Fixpoint arriving (seen : list string) (data : list D) : list D :=
  match data with
  | [] => []
  | d :: data' =>
      let k := data_key d in
      if has_key k seen then arriving seen data' else d :: arriving (k :: seen) data'
  end.

(** What the selection has after [enter().append(...)]: new nodes come last; [None] marks them. *)
Definition joined (nodes : list N) (data : list D) : list (option N * D) :=
  (map (fun '(n, d) => (Some n, d)) (staying [] nodes data)
   ++ map (fun d => (None, d)) (arriving (map node_key nodes) data))%list.
End join.

(** ** The chart *)

Section redraw.
Context `{Scales} `{!Times} (pub_date : option Date) (events : WorkEvents.event) (group subgroup : string).
(** For the tooltips: [$.support.transition], listeners that prevent events, and the sizes of the page. *)
Context (transition : bool) (prevented : bs_event -> bool) `{!Geometry}.

(** A bar: its data, the level they are of, its attributes, and its tooltip. *)
Record node := Node {
  n_level : level; n_bin : bin; n_class : string; n_x : num; n_width : Q; n_y : num; n_height : num;
  n_tooltip : element }.

(** What [append("rect")] makes: no tooltip, no title. *)
Definition no_tooltip : element := fresh None None no_options.
Definition on_tooltip (f : element -> element) (n : node) : node :=
  Node (n_level n) (n_bin n) (n_class n) (n_x n) (n_width n) (n_y n) (n_height n) (f (n_tooltip n)).

(** Bars, the bars for the tooltips, and what [viz.z] has seen. *)
Record chart := Chart { bars : list node; barsForTooltips : list node; z_domain : list string }.

Definition finer (a b : level) : bool :=
  match a, b with
  | _, Year => true
  | Month, Month | Day, Month => true
  | Day, Day => true
  | _, _ => false
  end.

(** [getDate_(level, d)] as a key, for data of level [from]. *)
Definition key_at (lv from : level) (d : bin) : string :=
  if finer from lv then date_key (getDate_ lv d) else "Invalid Date".

Definition level_data (lv : level) : list bin := default [] (WorkEvents.getData_ lv events).
Definition end_date (lv : level) : Date := if decide (lv = Day) then offset_days pub_date 29 else year_ceil now.

Definition x_scale (lv : level) : Date -> num :=
  time_linear (floor_to lv pub_date, end_date lv) (0%Q, inject_Z viz_width).
Definition y_scale (lv : level) : num -> num :=
  linear (of_Z 0, d3_max (map (fun d => num_of (counts d subgroup)) (level_data lv))) (inject_Z viz_height, 0%Q).
Definition barWidth (lv : level) : Q :=
  let rawWidth := (inject_Z viz_width / inject_Z (range_length lv pub_date (end_date lv) + 1))%Q in
  (if Qle_bool (rawWidth - rawWidth / 5) 1 then 1 else rawWidth - rawWidth / 5)%Q.

(** The argument of [viz.z]. *)
Definition z_key (lv : level) (d : bin) : string :=
  str_of_num (if decide (lv = Day) then weekOfYear (getDate_ lv d) else year d).

(** A bar, and a bar for a tooltip, at a level; a bar that stays keeps its class and its tooltip. *)
Definition bar_at (lv : level) (class : string) (tooltip : element) (d : bin) : node :=
  let y := y_scale lv (num_of (counts d subgroup)) in
  Node lv d class (num_add (x_scale lv (getDate_ lv d)) (Some 2%Q)) (barWidth lv) y (num_sub (of_Z viz_height) y) tooltip.
Definition tooltip_bar_at (lv : level) (class : string) (tooltip : element) (d : bin) : node :=
  let y := y_scale lv (num_of (counts d subgroup)) in
  Node lv d class (num_add (x_scale lv (getDate_ lv d)) (Some 1%Q)) (barWidth lv + 2)%Q (num_sub y (Some 1%Q))
    (num_add (num_sub (of_Z viz_height) y) (Some 1%Q)) tooltip.

Definition title_at (lv : level) (d : bin) : string :=
  formatNumber (counts d subgroup) ++ " in " ++ getFormattedDate_ lv d.

(** The nodes of a selection after a join: class of the new ones, attributes of all. *)
Definition redraw (prefix : string) (at_ : string -> element -> bin -> node) (lv : level) (z : list string) (nodes : list node)
    : list node * list string :=
  let data := level_data lv in
  let key n := key_at lv (n_level n) (n_bin n) in
  let z' := (z ++ map (z_key lv) (arriving (key_at lv lv) (map key nodes) data))%list in
  (map (fun '(old, d) =>
     at_ (match old with
          | Some n => n_class n
          | None => prefix ++ ordinal z' [group; group ++ "-alt"] (z_key lv d)
          end) (match old with Some n => n_tooltip n | None => no_tooltip end) d) (joined key (key_at lv lv) nodes data), z').

(** The last step (lines 586-591) destroys the tooltip of each bar and makes a new one. *)
Definition loadData_ (lv : level) (c : chart) : chart :=
  let '(bars', z) := redraw "bar " (bar_at lv) lv (z_domain c) (bars c) in
  let '(tips', z) := redraw "barsForTooltip " (tooltip_bar_at lv) lv z (barsForTooltips c) in
  Chart bars' (map (fun n => on_tooltip (renew transition prevented (title_at lv (n_bin n))) n) tips') z.

Definition getViz_ : chart := Chart [] [] [].

(** ** The controls *)

(** Which control has the class [active]. *)
Record row := Row { the_chart : chart; active : level -> bool }.

Definition shows (lv : level) : bool := WorkEvents.show_level pub_date lv events subgroup.

(** The finest level that is shown. *)
Definition first_level : option level :=
  let lv := if shows Year then Some Year else None in
  let lv := if shows Month then Some Month else lv in
  if shows Day then Some Day else lv.

Definition first_row (lv : level) : row := Row (loadData_ lv getViz_) (fun c => bool_decide (c = lv)).

(** A click on a control (there is none for a level that is not shown). *)
Definition click (lv : level) (r : row) : row :=
  if shows lv && negb (active r lv)
  then Row (loadData_ lv (the_chart r)) (fun c => bool_decide (c = lv))
  else r.

(** What happens on the page: a click on a control, or something at the tooltip of a bar. *)
Inductive action := Control (lv : level) | AtBar (i : nat) (h : happening).

Definition act (a : action) (r : row) : row :=
  match a with
  | Control lv => click lv r
  | AtBar i h =>
      let c := the_chart r in
      Row (Chart (bars c) (alter (on_tooltip (happens transition prevented h)) i (barsForTooltips c)) (z_domain c))
        (active r)
  end.

(** The control clicked last. *)
Definition clicked_level (lv : level) (a : action) : level :=
  match a with Control c => if shows c then c else lv | AtBar _ _ => lv end.
End redraw.

(** ** The join *)

Section join_facts.
Context {N D : Type} (node_key : N -> string) (data_key : D -> string).

Lemma has_key_spec k l : has_key k l = true <-> k ∈ l.
Proof.
  unfold has_key. rewrite existsb_exists. split.
  - intros (x & Hx & ->%String.eqb_eq). by apply list_elem_of_In.
  - intros Hk. exists k. split; [by apply list_elem_of_In|apply String.eqb_refl].
Qed.

Context (data : list D) (Hdata : NoDup (data_key <$> data)).

Lemma find_data d k :
  List.find (fun x => String.eqb (data_key x) k) data = Some d <-> d ∈ data /\ data_key d = k.
Proof.
  induction data as [|x l IH]; simpl; [split; [done|by intros [[]%elem_of_nil _]]|].
  simpl in Hdata. apply NoDup_cons in Hdata as [Hx Hl]. specialize (IH Hl). rewrite elem_of_cons.
  destruct (String.eqb_spec (data_key x) k) as [Hk|Hk].
  - split; [intros [= <-]; auto|]. intros [[->|Hd] Hdk]; [done|]. exfalso. apply Hx. rewrite Hk, <- Hdk.
    by apply list_elem_of_fmap_2.
  - rewrite IH. split; [intros [? ?]; auto|]. intros [[->|Hd] Hdk]; [congruence|done].
Qed.

Lemma inj_NoDup_key d x : d ∈ data -> x ∈ data -> data_key d = data_key x -> d = x.
Proof.
  intros Hd Hx E. assert (List.find (fun y => String.eqb (data_key y) (data_key d)) data = Some d) as E1
    by (by apply find_data).
  assert (List.find (fun y => String.eqb (data_key y) (data_key d)) data = Some x) as E2 by (by apply find_data).
  congruence.
Qed.

Lemma staying_spec seen nodes :
  NoDup (data_key <$> (snd <$> staying node_key data_key seen nodes data)) /\
  forall d, d ∈ (snd <$> staying node_key data_key seen nodes data) <->
    d ∈ data /\ (data_key d ∉ seen) /\ data_key d ∈ (node_key <$> nodes).
Proof.
  revert seen. induction nodes as [|n nodes IH]; intros seen; simpl.
  { split; [constructor|]. intros d. split; [intros []%elem_of_nil|intros (_ & _ & []%elem_of_nil)]. }
  destruct (has_key (node_key n) seen) eqn:Hs.
  { apply has_key_spec in Hs. destruct (IH seen) as [Hnd Hin]. split; [done|]. intros d. rewrite Hin, elem_of_cons.
    split; [tauto|]. intros (Hd & Hns & [Hk|Hk]); [|done]. by rewrite Hk in Hns. }
  apply not_true_iff_false in Hs. rewrite has_key_spec in Hs. destruct (IH (node_key n :: seen)) as [Hnd Hin].
  destruct (List.find _ data) as [x|] eqn:Hf; simpl.
  - apply find_data in Hf as [Hx Hk]. split.
    + apply NoDup_cons. split; [|done]. intros (d & Hdk & Hd)%list_elem_of_fmap. apply Hin in Hd as (_ & Hns & _).
      apply Hns. rewrite <- Hdk, Hk. left.
    + intros d. rewrite elem_of_cons, Hin, not_elem_of_cons, elem_of_cons. split.
      * intros [->|(? & [? ?] & ?)]; [rewrite Hk|]; auto.
      * intros (Hd & Hns & Hor). destruct (decide (data_key d = node_key n)) as [E|E]; [left|right; naive_solver].
        apply (inj_NoDup_key d x Hd Hx). congruence.
  - split; [done|]. intros d. rewrite Hin, not_elem_of_cons, elem_of_cons. split; [tauto|].
    intros (Hd & Hns & Hor). destruct (decide (data_key d = node_key n)) as [E|E]; [|naive_solver].
    exfalso. assert (List.find (fun x => String.eqb (data_key x) (node_key n)) data = Some d) as E2 by (by apply find_data).
    by rewrite E2 in Hf.
Qed.

Lemma arriving_spec seen l : NoDup (data_key <$> l) ->
  NoDup (data_key <$> arriving data_key seen l) /\
  forall d, d ∈ arriving data_key seen l <-> d ∈ l /\ data_key d ∉ seen.
Proof.
  revert seen. induction l as [|x l IH]; intros seen Hl; simpl.
  { split; [constructor|]. intros d. split; [intros []%elem_of_nil|intros [[]%elem_of_nil _]]. }
  simpl in Hl. apply NoDup_cons in Hl as [Hx Hl].
  destruct (has_key (data_key x) seen) eqn:Hs.
  - apply has_key_spec in Hs. destruct (IH seen Hl) as [Hnd Hin]. split; [done|]. intros d. rewrite Hin, elem_of_cons.
    split; [tauto|]. intros [[->|?] ?]; done.
  - apply not_true_iff_false in Hs. rewrite has_key_spec in Hs. destruct (IH (data_key x :: seen) Hl) as [Hnd Hin].
    assert (forall d, d ∈ l -> data_key d <> data_key x) as Hne
      by (intros d Hd E; apply Hx; rewrite <- E; by apply list_elem_of_fmap_2).
    simpl. split.
    + apply NoDup_cons. split; [|done]. intros (d & Hdk & Hd)%list_elem_of_fmap. apply Hin in Hd as [Hd _].
      by apply (Hne d Hd).
    + intros d. rewrite !(elem_of_cons _ d), Hin, not_elem_of_cons. naive_solver.
Qed.

(** With keys of their own, the data are all there, once each. *)
Lemma joined_perm nodes : snd <$> joined node_key data_key nodes data ≡ₚ data.
Proof.
  destruct (staying_spec [] nodes) as [Hnd1 Hin1]. destruct (arriving_spec (map node_key nodes) data Hdata) as [Hnd2 Hin2].
  unfold joined. rewrite fmap_app.
  assert (snd <$> map (fun '(n, d) => (Some n, d)) (staying node_key data_key [] nodes data)
    = snd <$> staying node_key data_key [] nodes data) as ->.
  { clear. induction (staying node_key data_key [] nodes data) as [|[n d] l IH]; [done|]. simpl. by f_equal. }
  assert (snd <$> map (fun d => (@None N, d)) (arriving data_key (map node_key nodes) data)
    = arriving data_key (map node_key nodes) data) as ->.
  { clear. induction (arriving data_key (map node_key nodes) data) as [|d l IH]; [done|]. simpl. by f_equal. }
  apply NoDup_Permutation.
  - apply NoDup_app. split_and!; [by eapply NoDup_fmap_1| |by eapply NoDup_fmap_1].
    intros d (_ & _ & Hk)%Hin1 [_ Hnk]%Hin2. done.
  - by eapply NoDup_fmap_1.
  - intros d. rewrite elem_of_app, Hin1, Hin2. change (map node_key nodes) with (node_key <$> nodes).
    destruct (decide (data_key d ∈ (node_key <$> nodes))); split; try tauto.
    intros Hd. left. split_and!; [done|apply not_elem_of_nil|done].
Qed.

Lemma staying_old seen nodes n d : (n, d) ∈ staying node_key data_key seen nodes data -> n ∈ nodes.
Proof.
  clear Hdata. revert seen. induction nodes as [|x nodes IH]; intros seen; simpl; [by intros []%elem_of_nil|].
  rewrite elem_of_cons. destruct (has_key _ _); [intros H; right; by eapply IH|]. rewrite elem_of_app.
  intros [Hf|H]; [left|right; by eapply IH]. destruct (List.find _ data); [|by apply elem_of_nil in Hf].
  apply list_elem_of_singleton in Hf. by injection Hf.
Qed.

Lemma joined_old nodes n d : (Some n, d) ∈ joined node_key data_key nodes data -> n ∈ nodes.
Proof.
  unfold joined. rewrite elem_of_app. intros [H|H]; apply list_elem_of_In, in_map_iff in H.
  - destruct H as ([n' d'] & [= -> ->] & H). by eapply staying_old, list_elem_of_In.
  - by destruct H as (d' & ? & _).
Qed.
End join_facts.

(** ** What the chart shows *)

Section shown.
Context `{Scales} `{!Times} (pub_date : option Date) (events : WorkEvents.event) (group subgroup : string).
Context (transition : bool) (prevented : bs_event -> bool) `{!Geometry}.

(** The bars of a level: one per bin, each with the place and size of its bin (its
    class and its tooltip aside). *)
Definition drawn (lv : level) (c : chart) : Prop :=
  n_bin <$> bars c ≡ₚ level_data events lv /\
  Forall (fun n => n = bar_at pub_date events subgroup lv (n_class n) (n_tooltip n) (n_bin n)) (bars c) /\
  n_bin <$> barsForTooltips c ≡ₚ level_data events lv /\
  Forall (fun n => n = tooltip_bar_at pub_date events subgroup lv (n_class n) (n_tooltip n) (n_bin n)) (barsForTooltips c).

(** A bar for which no tip has been made yet: the tip that the pointer or the focus brings
    has the number and the date of its bin at this level. *)
Definition told (lv : level) (n : node) : Prop :=
  tips (n_tooltip n) = [] -> forall ev, ev = Mouseenter \/ ev = Focusin ->
  tip_shows (title_at subgroup lv (n_bin n)) (user transition prevented ev (n_tooltip n)).

(** The dates of a level are all different. *)
Definition own_dates (lv : level) : Prop := NoDup (key_at lv lv <$> level_data events lv).

Lemma redraw_drawn prefix at_ lv z nodes : own_dates lv ->
  (forall cl tt d, n_bin (at_ cl tt d) = d) -> (forall cl tt d, n_class (at_ cl tt d) = cl) ->
  (forall cl tt d, n_tooltip (at_ cl tt d) = tt) ->
  let nodes' := (redraw events group prefix at_ lv z nodes).1 in
  n_bin <$> nodes' ≡ₚ level_data events lv /\ Forall (fun n => n = at_ (n_class n) (n_tooltip n) (n_bin n)) nodes' /\
  Forall (fun n => n_tooltip n = no_tooltip \/ exists n0, n0 ∈ nodes /\ n_tooltip n = n_tooltip n0) nodes'.
Proof.
  intros Hd Hb Hc Ht nodes'. split_and!.
  - rewrite <- (joined_perm (fun n => key_at lv (n_level n) (n_bin n)) (key_at lv lv) _ Hd nodes).
    subst nodes'. simpl. clear Hd. induction (joined _ _ _ _) as [|[o d] l IH]; simpl; [done|]. by rewrite Hb, IH.
  - apply Forall_forall. intros n ([o d] & <- & _)%list_elem_of_In%in_map_iff. by rewrite Hb, Hc, Ht.
  - apply Forall_forall. intros n ([o d] & <- & Hin)%list_elem_of_In%in_map_iff. rewrite Ht.
    destruct o as [n0|]; [right|by left]. exists n0. split; [|done]. by eapply joined_old, list_elem_of_In.
Qed.

(** Without a tip, the tooltip is the one made last. *)
Definition renewed (t : string) (n : node) : Prop := tips (n_tooltip n) = [] -> untipped t (n_tooltip n).

Context (allowed_show : prevented Show = false) (allowed_hide : prevented Hide = false).

Lemma renew_renewed t (e : element) :
  (tips e = [] -> e = no_tooltip \/ exists t0, untipped t0 e) ->
  tips (renew transition prevented t e) = [] -> untipped t (renew transition prevented t e).
Proof.
  intros He Htips. pose proof (count_renew transition prevented t e) as Hc. unfold count in Hc. rewrite Htips in Hc.
  destruct He as [->|[t0 He]]; [destruct (tips e); [done|simpl in Hc; lia]| |].
  - apply renew_fresh.
  - by apply (renew_untipped transition prevented allowed_hide t0).
Qed.

Lemma on_tooltip_bar lv f n :
  n = tooltip_bar_at pub_date events subgroup lv (n_class n) (n_tooltip n) (n_bin n) ->
  on_tooltip f n = tooltip_bar_at pub_date events subgroup lv (n_class n) (f (n_tooltip n)) (n_bin n).
Proof. destruct n as [lv' d cl x w y h tt]. unfold on_tooltip, tooltip_bar_at. simpl. by intros [= -> -> -> -> ->]. Qed.

Lemma loadData_drawn lv lv0 c : own_dates lv ->
  Forall (fun n => renewed (title_at subgroup lv0 (n_bin n)) n) (barsForTooltips c) ->
  let c' := loadData_ pub_date events group subgroup transition prevented lv c in
  drawn lv c' /\ Forall (fun n => renewed (title_at subgroup lv (n_bin n)) n) (barsForTooltips c').
Proof.
  intros Hd Hren. unfold loadData_.
  pose proof (redraw_drawn "bar " (bar_at pub_date events subgroup lv) lv (z_domain c) (bars c) Hd
    (fun _ _ _ => eq_refl) (fun _ _ _ => eq_refl) (fun _ _ _ => eq_refl)) as (D1 & D2 & _).
  destruct (redraw _ _ _ _ _ _ (bars c)) as [bars' z]. simpl in D1, D2.
  pose proof (redraw_drawn "barsForTooltip " (tooltip_bar_at pub_date events subgroup lv) lv z (barsForTooltips c) Hd
    (fun _ _ _ => eq_refl) (fun _ _ _ => eq_refl) (fun _ _ _ => eq_refl)) as (D3_ & D4 & D5).
  destruct (redraw _ _ _ _ _ _ (barsForTooltips c)) as [tips' z']. simpl in D3_, D4, D5. cbv zeta. split; [split_and!|].
  - done.
  - done.
  - simpl. rewrite <- D3_. clear. induction tips' as [|n l IH]; simpl; [done|by rewrite IH].
  - simpl. apply Forall_map. eapply Forall_impl; [exact D4|]. intros n Hn.
    exact (on_tooltip_bar lv (renew transition prevented (title_at subgroup lv (n_bin n))) n Hn).
  - simpl. apply Forall_map. eapply Forall_impl; [exact D5|]. intros n Hn. simpl. unfold renewed. simpl.
    apply renew_renewed. intros Htips. destruct Hn as [->|(n0 & Hin & E)]; [by left|right].
    rewrite Forall_forall in Hren. rewrite E in *. eexists. by apply (Hren n0 Hin).
Qed.

(** Something happens at a bar. *)
Lemma happens_renewed t h n : renewed t n -> renewed t (on_tooltip (happens transition prevented h) n).
Proof.
  unfold renewed. simpl. intros Hn Htips. apply happens_untipped; [done| |done]. apply Hn.
  pose proof (count_happens transition prevented h (n_tooltip n)) as Hc. unfold count in Hc. rewrite Htips in Hc.
  destruct (tips (n_tooltip n)); [done|simpl in Hc; lia].
Qed.

Lemma renewed_told lv n : renewed (title_at subgroup lv (n_bin n)) n -> told lv n.
Proof.
  intros Hn Htips ev Hev. apply untipped_shows; [done|by apply Hn| |done].
  unfold title_at. by destruct (formatNumber _).
Qed.

(** A happening at a bar changes its tooltip only. *)
Lemma alter_tooltip f (i : nat) (l : list node) : n_bin <$> alter (on_tooltip f) i l = n_bin <$> l.
Proof. revert i. induction l as [|n l IH]; intros [|i]; simpl; [done..|]. f_equal. apply IH. Qed.

(** The first drawing is that of [draw]. *)
Lemma first_bars lv :
  n_bin <$> bars (loadData_ pub_date events group subgroup transition prevented lv getViz_) = entering [] lv (level_data events lv).
Proof.
  assert (forall seen l, arriving (key_at lv lv) seen l = entering seen lv l) as E.
  { intros seen l. revert seen. induction l as [|d l IH]; intros seen; simpl; [done|].
    assert (key_at lv lv d = date_key (getDate_ lv d)) as -> by (by destruct lv). unfold has_key. by rewrite !IH. }
  simpl. unfold joined. simpl. rewrite E. generalize (map (z_key lv) (entering [] lv (level_data events lv))) as z. intros z.
  induction (entering [] lv _) as [|d l IH]; [done|]. simpl. f_equal. exact IH.
Qed.

Lemma first_level_shows lv : first_level pub_date events subgroup = Some lv -> shows pub_date events subgroup lv = true.
Proof. unfold first_level. intros E. repeat case_match; by simplify_eq. Qed.

#[local] Abbreviation act := (act pub_date events group subgroup transition prevented).
#[local] Abbreviation clicked_level := (clicked_level pub_date events subgroup).

(** The level [lv] is shown, and the tooltips that have not been used are its. *)
Definition showing (lv : level) (r : row) : Prop :=
  shows pub_date events subgroup lv = true /\ (forall c, active r c = true <-> c = lv) /\ drawn lv (the_chart r) /\
  Forall (fun n => renewed (title_at subgroup lv (n_bin n)) n) (barsForTooltips (the_chart r)).

Lemma act_showing lv r a : (forall lv, own_dates lv) -> showing lv r -> showing (clicked_level lv a) (act a r).
Proof.
  intros Hd (Hs & Ha & Hc & Hr). destruct a as [c|i h]; simpl.
  - unfold click. destruct (shows pub_date events subgroup c) eqn:Hsc; simpl; [|done].
    destruct (active r c) eqn:Hac; simpl; [apply Ha in Hac as ->; done|].
    destruct (loadData_drawn c lv (the_chart r) (Hd c) Hr) as [Hc' Hr'].
    split_and!; [done|intros c'; apply bool_decide_eq_true|done|done].
  - destruct Hc as (Hc1 & Hc2 & Hc3 & Hc4). split; [done|]. split; [done|]. split; [split_and!|]; simpl; try done.
    + by rewrite alter_tooltip.
    + apply Forall_alter; [done|]. intros n _ Hn. exact (on_tooltip_bar lv (happens transition prevented h) n Hn).
    + apply Forall_alter; [done|]. intros n _ Hn. by apply happens_renewed.
Qed.

Lemma acts_showing l lv r : (forall lv, own_dates lv) -> showing lv r ->
  showing (foldl clicked_level lv l) (foldl (fun r a => act a r) r l).
Proof. intros Hd. revert lv r. induction l as [|a l IH]; intros lv r Hs; [done|]. by apply IH, act_showing. Qed.

(** C25: The chart of a source, whatever controls were clicked, and whatever the pointer, the
    focus, the timeouts and the transitions did to its tooltips in between: it shows the bins of
    the level whose control was clicked last (the finest one at the start), each by one bar of its
    place and size and by one bar for its tooltip; the control of that level, and no other, is
    active; and at each bar for which no tip has been made yet, the tip that the pointer or the focus brings
    is the one of this level. *)
Theorem chart_shows_level lv0 l :
  first_level pub_date events subgroup = Some lv0 -> (forall lv, own_dates lv) ->
  let r := foldl (fun r a => act a r) (first_row pub_date events group subgroup transition prevented lv0) l in
  let lv := foldl clicked_level lv0 l in
  shows pub_date events subgroup lv = true /\ (forall c, active r c = true <-> c = lv) /\ drawn lv (the_chart r) /\
  Forall (told lv) (barsForTooltips (the_chart r)).
Proof.
  intros Hf Hd r lv. apply first_level_shows in Hf.
  assert (showing lv0 (first_row pub_date events group subgroup transition prevented lv0)) as Hfirst.
  { destruct (loadData_drawn lv0 lv0 getViz_ (Hd lv0) (Forall_nil_2 _)) as [Hc Hr].
    split_and!; [done|intros c; apply bool_decide_eq_true|done|done]. }
  destruct (acts_showing l lv0 _ Hd Hfirst) as (Hs1 & Hs2 & Hs3 & Hs4). split_and!; try done.
  eapply Forall_impl; [exact Hs4|]. intros n. apply renewed_told.
Qed.
End shown.

(** ** A work with five days in two months *)

Definition ex_counts : string -> option Z := fun _ => Some 2%Z.
Definition ex_days : list bin := [Bin 2015 1 30 ex_counts; Bin 2015 1 31 ex_counts; Bin 2015 2 1 ex_counts].
Definition ex_months : list bin := [Bin 2015 1 0 ex_counts; Bin 2015 2 0 ex_counts; Bin 2015 3 0 ex_counts].
Definition ex_levels : WorkEvents.event :=
  WorkEvents.Event "counter" (Some 6%Z) None (Some 6%Z) None (Some [Bin 2015 0 0 ex_counts]) (Some ex_months) (Some ex_days).

#[local] Abbreviation ex_row := (@first_row text_d3 text_scales text_times (Some "2015-01-30") ex_levels "viewed" "html"
  true (fun _ => false) ex_geometry Day).
#[local] Abbreviation ex_act := (@act text_d3 text_scales text_times (Some "2015-01-30") ex_levels "viewed" "html"
  true (fun _ => false) ex_geometry).

(** The pointer is at the first day, then the months are shown. *)
Definition ex_actions : list action := [AtBar 0 (Uses Mouseenter); Control Month].

Lemma chart_shows_level_witness :
  let r := foldl (fun r a => ex_act a r) ex_row ex_actions in
  @drawn text_d3 text_scales text_times (Some "2015-01-30") ex_levels "html" Month (the_chart r) /\
  Forall (@told text_d3 text_times "html" true (fun _ => false) ex_geometry Month) (barsForTooltips (the_chart r)) /\
  (length ∘ tips ∘ n_tooltip) <$> barsForTooltips (the_chart r) = [1; 0; 0]%nat.
Proof.
  destruct (@chart_shows_level text_d3 text_scales text_times (Some "2015-01-30") ex_levels "viewed" "html"
    true (fun _ => false) ex_geometry eq_refl eq_refl Day ex_actions) as (_ & _ & Hd & Ht).
  - reflexivity.
  - intros []; vm_compute; repeat (constructor; [by rewrite ?elem_of_cons, ?elem_of_nil; naive_solver|]); constructor.
  - split; [exact Hd|]. split; [exact Ht|by vm_compute].
Defined.

(** The classes of the bars alternate by the week, by day, and by the year otherwise; a bar that
    stays keeps that of the level before.  Of three months of one year, drawn
    after the days, two have that of a week; drawn at once all have that of the year. *)
Theorem redraw_keeps_class :
  n_class <$> bars (the_chart (ex_act (Control Month) ex_row)) = ["bar 1"; "bar 1"; "bar 2015"] /\
  n_class <$> bars (@loadData_ text_d3 text_scales text_times (Some "2015-01-30") ex_levels "viewed" "html"
    true (fun _ => false) ex_geometry Month getViz_)
  = ["bar 2015"; "bar 2015"; "bar 2015"].
Proof. split; by vm_compute. Qed.

(** The first bar stays when the months are drawn; its tip had been shown, and it is left
    without a tooltip: when the tip has faded out, pointing at it brings nothing. *)
Theorem redraw_drops_shown_tooltip :
  let r := foldl (fun r a => ex_act a r) ex_row (ex_actions ++ [AtBar 0 (TransitionEnds 0); AtBar 0 (Uses Mouseenter)])%list in
  (fun n => (Tooltip.data (n_tooltip n), describedby (n_tooltip n), t_attached <$> tips (n_tooltip n)))
    <$> (barsForTooltips (the_chart r) !! 0%nat) = Some (None, None, [false]).
Proof. by vm_compute. Qed.
