(* ===== verification/Tab.v ===== *)
(** * Tabs of bootstrap ([bootstrap/tab.js])

    A list of tabs and the container of their panes.  An item of the list is a tab, or it opens a menu whose items
    are tabs.  The pane that is left can fade out first; then the rest of [activate] waits on it, and the end of its
    transition is a step of its own.  Which pane a tab is for (its [data-target] or [href]), whether the browser has
    transitions, and whether a listener prevents an event are parameters. *)

From stdpp Require Import relations.
From S2P Require Import Prelude.

#[local] Open Scope list_scope.

(** ** State *)

(** A tab in a menu, and an item of the list: the class [active], and [aria-expanded] of the tab's link. *)
Record leaf := Leaf { l_active : bool; l_expanded : bool }.
Record item := Item { i_active : bool; i_expanded : bool; i_menu : option (list leaf) }.

(** A tab: an item of the list, or one of the menu of an item. *)
Inductive tab := Top (i : nat) | InMenu (i j : nat).
#[export] Instance tab_eq_dec : EqDecision tab.
Proof. solve_decision. Defined.

(** [next] of [activate] with its variables: the panes that were active, and the pane of the tab; and the
    tabs for the events. *)
Record next := Next { x_active : list nat; x_element : nat; x_this : tab; x_previous : option tab }.

Record pane := Pane { p_active : bool; p_in : bool; p_fade : bool; p_pending : list next }.

Inductive tab_event := EHide | EShow | EHidden | EShown.

Record tabs := Tabs { items : list item; panes : list pane; log : list (tab_event * option tab) }.

Definition on_items (f : list item -> list item) (s : tabs) : tabs := Tabs (f (items s)) (panes s) (log s).
Definition on_panes (f : list pane -> list pane) (s : tabs) : tabs := Tabs (items s) (f (panes s)) (log s).
Definition trigger (x : tab_event) (t : option tab) (s : tabs) : tabs := Tabs (items s) (panes s) (log s ++ [(x, t)]).

Definition set_active (b : bool) (p : pane) : pane := Pane b (p_in p) (p_fade p) (p_pending p).
Definition set_in (b : bool) (p : pane) : pane := Pane (p_active p) b (p_fade p) (p_pending p).
Definition set_fade (b : bool) (p : pane) : pane := Pane (p_active p) (p_in p) b (p_pending p).
Definition set_pending (l : list next) (p : pane) : pane := Pane (p_active p) (p_in p) (p_fade p) l.

Section tab.
Context (transition : bool) (prevented : tab_event -> tab -> option tab -> bool) (target : tab -> nat).

(** ** The list *)

(** The tabs in an item are no longer, or now, expanded. *)
Definition expand (b : bool) (it : item) : item :=
  match i_menu it with
  | None => Item (i_active it) b None
  | Some l => Item (i_active it) (i_expanded it) (Some (map (fun x => Leaf (l_active x) b) l))
  end.

Definition deactivate (it : item) : item :=
  expand false (Item false (i_expanded it) (map (fun x => Leaf false (l_expanded x)) <$> i_menu it)).

(** [activate] of an item of the list: nothing waits. *)
Definition activate_item (t : tab) (l : list item) : list item :=
  let l := map (fun it => if i_active it then deactivate it else it) l in
  match t with
  | Top i => alter (fun it => expand true (Item true (i_expanded it) (i_menu it))) i l
  | InMenu i j =>
      alter (fun it => Item true (i_expanded it) (alter (fun _ => Leaf true true) j <$> i_menu it)) i l
  end.

Definition leaf_at (l : list item) (i j : nat) : option leaf :=
  match l !! i with Some (Item _ _ (Some m)) => m !! j | _ => None end.

Definition is_active (t : tab) (l : list item) : bool :=
  match t with
  | Top i => match l !! i with Some it => i_active it | None => false end
  | InMenu i j => match leaf_at l i j with Some x => l_active x | None => false end
  end.

(** [$ul.find('.active:last')], in the order of the document. *)
Definition menu_tabs (i : nat) (m : option (list leaf)) : list tab := imap (fun j _ => InMenu i j) (default [] m).
Definition all_tabs (l : list item) : list tab := concat (imap (fun i it => Top i :: menu_tabs i (i_menu it)) l).
Definition last_active (l : list item) : option tab := last (filter (fun t => is_active t l = true) (all_tabs l)).

(** ** The panes *)

Definition active_panes (l : list pane) : list nat :=
  filter (fun i => match l !! i with Some p => p_active p | None => false end = true) (seq 0 (length l)).

Definition run_next (fades : bool) (x : next) (s : tabs) : tabs :=
  let s := on_panes (fun l => foldr (fun i l => alter (set_active false) i l) l (x_active x)) s in
  let s := on_panes (alter (set_active true) (x_element x)) s in
  let s := on_panes (alter (if fades then set_in true else set_fade false) (x_element x)) s in
  trigger EShown (Some (x_this x)) (trigger EHidden (x_previous x) s).

(** [activate] of a pane, with the callback of [show]. *)
Definition activate_pane (this : tab) (previous : option tab) (s : tabs) : tabs :=
  let active := active_panes (panes s) in
  let fade_at i := match panes s !! i with Some p => p_fade p | None => false end in
  let fades := transition && (existsb fade_at active || existsb p_fade (panes s)) in
  let x := Next active (target this) this previous in
  let s := if negb (bool_decide (active = [])) && fades
           then on_panes (fun l => foldr (fun i l => alter (fun p => set_pending (p_pending p ++ [x]) p) i l) l active) s
           else run_next fades x s in
  on_panes (fun l => foldr (fun i l => alter (set_in false) i l) l active) s.

Definition show (this : tab) (s : tabs) : tabs :=
  if is_active this (items s) then s
  else
    let previous := last_active (items s) in
    let s := trigger EShow (Some this) (trigger EHide previous s) in
    if prevented EShow this previous || prevented EHide this previous then s
    else activate_pane this previous (on_items (activate_item this) s).

(** The end of the transition of a pane. *)
Definition transition_end (i : nat) (s : tabs) : tabs :=
  let due := match panes s !! i with Some p => p_pending p | None => [] end in
  foldl (fun s x => run_next true x s) (on_panes (alter (set_pending []) i) s) due.
End tab.

(** Two tabs and a menu with two; the first tab is shown. *)
Definition ex_tabs (fade : bool) : tabs :=
  Tabs [Item true true None; Item false false None; Item false false (Some [Leaf false false; Leaf false false])]
    [Pane true fade fade []; Pane false false fade []; Pane false false fade []; Pane false false fade []] [].
Definition ex_target (t : tab) : nat := match t with Top i => i | InMenu i j => (i + j)%nat end.
Definition ex_allow (x : tab_event) (this : tab) (previous : option tab) : bool := false.

(** ** The list shows one tab *)

Definition mark (t : tab) (i : nat) (it : item) : item :=
  match i_menu it with
  | None => Item (bool_decide (t = Top i)) (bool_decide (t = Top i)) None
  | Some m =>
      Item (bool_decide (match t with Top k | InMenu k _ => k end = i)) (i_expanded it)
        (Some (imap (fun j _ => let b := bool_decide (t = InMenu i j) in Leaf b b) m))
  end.

(** The tab [t], and the item whose menu it is in, and nothing else is active and expanded. *)
Definition marks (t : tab) (l : list item) : Prop := l = imap (mark t) l.

(** [t] is a tab of the list. *)
Definition valid (t : tab) (l : list item) : Prop :=
  match t with
  | Top i => exists it, l !! i = Some it /\ i_menu it = None
  | InMenu i j => exists it m x, l !! i = Some it /\ i_menu it = Some m /\ m !! j = Some x
  end.

Definition unmark (it : item) : item :=
  match i_menu it with
  | None => Item false false None
  | Some m => Item false (i_expanded it) (Some (map (fun _ => Leaf false false) m))
  end.

Lemma mark_twice t t' i it : mark t i (mark t' i it) = mark t i it.
Proof.
  unfold mark. destruct (i_menu it) as [m|] eqn:E; simpl; [|done]. do 2 f_equal. rewrite imap_imap.
  apply imap_ext. done.
Qed.

Lemma marks_mark t l : marks t (imap (mark t) l).
Proof. unfold marks. rewrite imap_imap. apply imap_ext. intros i it _. simpl. by rewrite mark_twice. Qed.

Lemma marks_at t l i it : marks t l -> l !! i = Some it -> it = mark t i it.
Proof.
  intros Hm Hi. pose proof (f_equal (lookup i) Hm) as E. rewrite list_lookup_imap, Hi in E. by injection E.
Qed.

Lemma imap_const {A B} (x : B) (l : list A) : imap (fun _ _ => x) l = map (fun _ => x) l.
Proof. apply list_eq. intros i. by rewrite list_lookup_imap, list_lookup_fmap. Qed.

Lemma deactivate_unmark t i it : it = mark t i it -> (if i_active it then deactivate it else it) = unmark it.
Proof.
  intros E. destruct (i_active it) eqn:Ha.
  - unfold deactivate, expand, unmark. simpl. destruct (i_menu it) as [m|]; [|done]. simpl. by rewrite map_map.
  - rewrite E in Ha |- *. clear E. unfold mark, unmark in *. destruct (i_menu it) as [m|]; simpl in *.
    + apply bool_decide_eq_false in Ha. rewrite bool_decide_false by done. do 2 f_equal.
      rewrite <- (imap_const (Leaf false false) (imap _ m)), imap_imap. apply imap_ext. intros j x _. simpl.
      rewrite bool_decide_false; [done|]. by intros ->.
    + by rewrite Ha.
Qed.

Lemma unmark_mark t i it : (match t with Top k | InMenu k _ => k end) <> i -> unmark it = mark t i it.
Proof.
  intros Hn. unfold unmark, mark. destruct (i_menu it) as [m|].
  - rewrite bool_decide_false by done. do 2 f_equal. rewrite <- imap_const. apply imap_ext. intros j x _. simpl.
    rewrite bool_decide_false; [done|]. by intros ->.
  - rewrite bool_decide_false; [done|]. by intros ->.
Qed.

(** Activating a tab of a list that shows another one. *)
Lemma activate_marks t0 t l : marks t0 l -> valid t l -> activate_item t l = imap (mark t) l.
Proof.
  intros Hm Hv. unfold activate_item.
  assert (map (fun it => if i_active it then deactivate it else it) l = map unmark l) as ->.
  { apply list_eq. intros i. change (map ?f l) with (f <$> l). rewrite !list_lookup_fmap.
    destruct (l !! i) as [it|] eqn:E; [|done]. simpl. f_equal. apply (deactivate_unmark t0 i).
    by apply (marks_at _ l). }
  change (map unmark l) with (unmark <$> l). apply list_eq. intros k. rewrite list_lookup_imap.
  destruct t as [i|i j]; simpl in Hv; (destruct (decide (i = k)) as [<- |Hn];
    [rewrite list_lookup_alter_eq|rewrite list_lookup_alter_ne by done]); rewrite list_lookup_fmap.
  - destruct Hv as (it & -> & Hmenu). simpl. f_equal. unfold expand, unmark, mark. rewrite Hmenu. simpl.
    by rewrite bool_decide_true.
  - destruct (l !! k) as [it|]; [|done]. simpl. f_equal. by apply unmark_mark.
  - destruct Hv as (it & m & x & -> & Hmenu & Hx). simpl. f_equal. unfold unmark, mark. rewrite Hmenu. simpl.
    rewrite bool_decide_true by done. do 2 f_equal. apply list_eq. intros j'. rewrite list_lookup_imap.
    destruct (decide (j = j')) as [<- |Hj].
    + rewrite list_lookup_alter_eq. change (map ?f m) with (f <$> m). rewrite list_lookup_fmap, Hx. simpl.
      by rewrite bool_decide_true.
    + rewrite list_lookup_alter_ne by done. change (map ?f m) with (f <$> m). rewrite list_lookup_fmap.
      destruct (m !! j'); [|done]. simpl. rewrite bool_decide_false; [done|]. congruence.
  - destruct (l !! k) as [it|]; [|done]. simpl. f_equal. by apply unmark_mark.
Qed.

Lemma valid_mark t t' l : valid t' (imap (mark t) l) <-> valid t' l.
Proof.
  assert (forall i, imap (mark t) l !! i = mark t i <$> l !! i) as E by (intros i; apply list_lookup_imap).
  destruct t' as [i|i j]; simpl; rewrite E; destruct (l !! i) as [it|]; simpl.
  - unfold mark. destruct (i_menu it) eqn:Em; split; intros (it' & [= <-] & Hm); eexists; (split; [done|]); simpl in *; congruence.
  - split; by intros (? & ? & _).
  - unfold mark. destruct (i_menu it) as [m|] eqn:Em.
    + split; intros (it' & m' & x & [= <-] & Hm & Hx); simpl in *.
      * injection Hm as <-. rewrite list_lookup_imap in Hx. destruct (m !! j) as [y|] eqn:Ey; [|done]. eauto 6.
      * rewrite Em in Hm. injection Hm as <-. eexists _, _, _. split_and!; [done|done|].
        rewrite list_lookup_imap, Hx. done.
    + split; intros (it' & m' & x & [= <-] & Hm & Hx); simpl in *; congruence.
  - split; by intros (? & ? & ? & ? & _).
Qed.

Lemma is_active_marks t t' l : marks t l -> valid t' l -> is_active t' l = bool_decide (t' = t).
Proof.
  intros Hm Hv. assert (forall i it, l !! i = Some it -> it = mark t i it) as E
    by (intros i it; by apply marks_at).
  destruct t' as [i|i j]; simpl in Hv; unfold is_active, leaf_at.
  - destruct Hv as (it & Hi & Hmenu). rewrite Hi, (E i it Hi). unfold mark. rewrite Hmenu. simpl. by apply bool_decide_ext.
  - destruct Hv as (it & m & x & Hi & Hmenu & Hx). rewrite Hi, (E i it Hi). unfold mark. rewrite Hmenu.
    rewrite list_lookup_imap, Hx. simpl. by apply bool_decide_ext.
Qed.

(** ** One pane is active *)

Section panes.

Definition only (c : nat) (l : list pane) : Prop := forall i p, l !! i = Some p -> p_active p = bool_decide (i = c).

(** Nothing waits, and the pane [c] can be seen. *)
Definition resting (c : nat) (l : list pane) : Prop :=
  only c l /\ (c < length l)%nat /\ Forall (fun p => p_pending p = []) l /\
  forall p, l !! c = Some p -> p_fade p = true -> p_in p = true.

(** The pane [c] fades out, and [x] waits for it. *)
Definition fading (c : nat) (x : next) (l : list pane) : Prop :=
  only c l /\ (c < length l)%nat /\
  forall i p, l !! i = Some p -> p_pending p = if decide (i = c) then [x] else [].

Lemma active_panes_only c l : only c l -> (c < length l)%nat -> active_panes l = [c].
Proof.
  intros Ho Hc. unfold active_panes. apply filter_unique; [apply NoDup_seq|apply elem_of_seq; lia|].
  intros i. split.
  - destruct (l !! i) as [p|] eqn:E; [|done]. rewrite (Ho i p E). by intros ?%bool_decide_eq_true.
  - intros ->. destruct (lookup_lt_is_Some_2 l c Hc) as [p E]. rewrite E, (Ho c p E). by apply bool_decide_true.
Qed.

(** What [next] does to the panes. *)
Definition switch (fades : bool) (c k : nat) (l : list pane) : list pane :=
  alter (if fades then set_in true else set_fade false) k (alter (set_active true) k (alter (set_active false) c l)).

Lemma lookup_switch fades c k l i p : switch fades c k l !! i = Some p ->
  exists p0, l !! i = Some p0 /\ p_pending p = p_pending p0 /\
    p_active p = (if decide (k = i) then true else if decide (c = i) then false else p_active p0) /\
    (k = i -> if fades then p_in p = true else p_fade p = false).
Proof.
  unfold switch. rewrite !lookup_alter_if. destruct (l !! i) as [p0|]; [|done]. simpl. intros [= <-]. exists p0.
  repeat case_decide; destruct fades; by split_and!.
Qed.

Lemma switch_only fades c k l : only c l -> only k (switch fades c k l).
Proof.
  intros Ho i p (p0 & E & _ & -> & _)%lookup_switch. rewrite (Ho i p0 E).
  repeat case_decide; simplify_eq; [by rewrite bool_decide_true|by rewrite bool_decide_false|].
  rewrite !bool_decide_false; [done|congruence..].
Qed.

Lemma switch_length fades c k l : length (switch fades c k l) = length l.
Proof. unfold switch. by rewrite !length_alter. Qed.

Lemma switch_resting fades c k l : only c l -> (k < length l)%nat -> Forall (fun p => p_pending p = []) l ->
  resting k (switch fades c k l) /\ (fades = false -> resting k (alter (set_in false) c (switch fades c k l))).
Proof.
  intros Ho Hk Hp.
  assert (Forall (fun p => p_pending p = []) (switch fades c k l)) as Hp'.
  { apply Forall_lookup. intros i p (p0 & E & -> & _)%lookup_switch. by eapply (Forall_lookup_1 _ _ _ _ Hp). }
  split.
  - split_and!; [by apply switch_only|by rewrite switch_length|done|].
    intros p (p0 & E & _ & _ & Hv)%lookup_switch Hf. specialize (Hv eq_refl). destruct fades; congruence.
  - intros ->. split_and!.
    + intros i p. rewrite lookup_alter_if. destruct (switch _ _ _ _ !! i) as [p0|] eqn:E; [|done]. simpl. intros [= <-].
      rewrite <- (switch_only _ _ _ _ Ho i p0 E). by destruct (decide (c = i)).
    + by rewrite length_alter, switch_length.
    + apply Forall_alter; [done|]. intros x. by destruct x.
    + intros p. rewrite lookup_alter_if. destruct (switch _ _ _ _ !! k) as [p0|] eqn:E; [|done]. simpl. intros [= <-].
      apply lookup_switch in E as (p1 & _ & _ & _ & Hv). specialize (Hv eq_refl). by case_decide; simpl; rewrite Hv.
Qed.
End panes.

(** ** Tabs and panes agree *)

Section agree.
Context (transition : bool) (prevented : tab_event -> tab -> option tab -> bool) (target : tab -> nat).

(** The tab [t] is shown: by the list, and by its pane once nothing waits. *)
Definition showing (t : tab) (s : tabs) : Prop :=
  marks t (items s) /\ (target t < length (panes s))%nat /\
  (resting (target t) (panes s) \/
   exists c previous, fading c (Next [c] (target t) t previous) (panes s)).

Definition calm (s : tabs) : Prop := Forall (fun p => p_pending p = []) (panes s).

(** Clicks on tabs that come when nothing waits, and ends of transitions; with the tab clicked last (unless
    a listener has prevented it). *)
Inductive step : tabs * tab -> tabs * tab -> Prop :=
| step_click this s t : calm s -> valid this (items s) -> (target this < length (panes s))%nat ->
    let previous := last_active (items s) in
    step (s, t) (show transition prevented target this s,
                 if prevented EShow this previous || prevented EHide this previous then t else this)
| step_end i s t : step (s, t) (transition_end i s, t).

Lemma run_next_panes fades c k t prev s :
  panes (run_next fades (Next [c] k t prev) s) = switch fades c k (panes s).
Proof. done. Qed.

Lemma end_elsewhere i s : (forall p, panes s !! i = Some p -> p_pending p = []) -> transition_end i s = s.
Proof.
  intros Hp. unfold transition_end.
  assert (alter (set_pending []) i (panes s) = panes s) as E.
  { apply list_eq. intros j. rewrite lookup_alter_if. destruct (panes s !! j) as [p|] eqn:Ej; [|done]. simpl.
    case_decide; [subst|done]. specialize (Hp p Ej). by destruct p; simpl in *; subst. }
  destruct (panes s !! i) as [p|] eqn:Ei; [rewrite (Hp p eq_refl)|]; simpl; unfold on_panes; rewrite E; by destruct s.
Qed.

Lemma fading_end c t prev s : fading c (Next [c] (target t) t prev) (panes s) -> (target t < length (panes s))%nat ->
  items (transition_end c s) = items s /\ resting (target t) (panes (transition_end c s)).
Proof.
  intros (Ho & Hc & Hp) Hk. unfold transition_end. destruct (lookup_lt_is_Some_2 _ _ Hc) as [p E].
  rewrite E, (Hp c p E), decide_True by done. split; [done|]. simpl foldl. rewrite run_next_panes.
  apply switch_resting; simpl; [|by rewrite length_alter|].
  - intros j q. rewrite lookup_alter_if. destruct (panes s !! j) as [p'|] eqn:Ej; [|done]. simpl. intros [= <-].
    rewrite <- (Ho j p' Ej). by destruct (decide (c = j)).
  - apply Forall_lookup. intros j q. rewrite lookup_alter_if. destruct (panes s !! j) as [p'|] eqn:Ej; [|done].
    simpl. intros [= <-]. specialize (Hp j p' Ej). destruct (decide (c = j)); [done|]. by rewrite decide_False in Hp.
Qed.

Lemma end_showing i t s : showing t s -> showing t (transition_end i s).
Proof.
  intros (Hm & Hk & [Hr|(c & prev & Hf)]).
  - rewrite end_elsewhere; [by split_and!; auto|]. intros p E. destruct Hr as (_ & _ & Hp & _).
    by apply (Forall_lookup_1 _ _ _ _ Hp E).
  - destruct (decide (i = c)) as [-> |Hi].
    + destruct (fading_end c t prev s Hf Hk) as [E Hr]. split_and!; [by rewrite E|apply Hr|by left].
    + rewrite end_elsewhere; [split_and!; eauto|]. destruct Hf as (_ & _ & Hp).
      intros p E. rewrite (Hp i p E). by rewrite decide_False.
Qed.

Lemma activate_showing this prev c s : marks this (items s) -> (target this < length (panes s))%nat ->
  resting c (panes s) -> showing this (activate_pane transition target this prev s).
Proof.
  intros Hm Hk (Ho & Hc & Hp & Hv). unfold activate_pane. rewrite (active_panes_only c _ Ho Hc). cbv zeta.
  rewrite (bool_decide_false (_ = [])) by done. simpl negb. rewrite andb_true_l.
  destruct (transition && _); (split; [done|]).
  - simpl. rewrite !length_alter. split; [done|]. right. exists c, prev. split_and!.
    + intros i p. rewrite !lookup_alter_if. destruct (panes s !! i) as [p0|] eqn:E; [|done]. simpl. intros [= <-].
      rewrite <- (Ho i p0 E). by destruct (decide (c = i)).
    + by rewrite !length_alter.
    + intros i p. rewrite !lookup_alter_if. destruct (panes s !! i) as [p0|] eqn:E; [|done]. simpl. intros [= <-].
      pose proof (Forall_lookup_1 _ _ _ _ Hp E) as Hp0. simpl in Hp0.
      destruct (decide (c = i)) as [-> |?]; simpl; [by rewrite Hp0, decide_True|by rewrite decide_False].
  - split; [simpl; by rewrite !length_alter|left].
    by apply (switch_resting false c (target this) (panes s) Ho Hk Hp).
Qed.

Lemma click_showing this t s : showing t s -> calm s -> valid this (items s) -> (target this < length (panes s))%nat ->
  let previous := last_active (items s) in
  showing (if prevented EShow this previous || prevented EHide this previous then t else this)
    (show transition prevented target this s).
Proof.
  intros Hs Hcalm Hv Hk. cbv zeta. unfold show. pose proof Hs as (Hm & _ & Hr).
  rewrite (is_active_marks t this _ Hm Hv). destruct (decide (this = t)) as [-> |Hn].
  { rewrite bool_decide_true by done. by destruct (_ || _). }
  rewrite bool_decide_false by done. destruct (_ || _); [by split_and!; apply Hs|].
  destruct Hr as [Hr|(c & prev & Ho & Hc & Hp)].
  - apply (activate_showing _ _ (target t)); [|done|done]. simpl. rewrite (activate_marks t) by done. apply marks_mark.
  - exfalso. destruct (lookup_lt_is_Some_2 _ _ Hc) as [p E]. pose proof (Forall_lookup_1 _ _ _ _ Hcalm E) as Hp0.
    simpl in Hp0. by rewrite (Hp c p E), decide_True in Hp0.
Qed.

Lemma steps_showing st st' : rtc step st st' -> showing st.2 st.1 -> showing st'.2 st'.1.
Proof.
  induction 1 as [|x y z Hs _ IH]; [done|]. intros Hsh. apply IH. destruct Hs; [by apply click_showing|by apply end_showing].
Qed.

(** The panes that can be seen. *)
Definition visible (p : pane) : bool := p_active p && (negb (p_fade p) || p_in p).

(** C37: clicks on tabs that wait for transitions: the list always marks the tab clicked last, with the
    item whose menu it is in, and no other; at every moment one pane is active; once nothing waits
    the pane of that tab can be seen and no other; and something waits on one pane only, whose
    transition ends the waiting. *)
Theorem tabs_show_last s0 t0 s t :
  marks t0 (items s0) -> resting (target t0) (panes s0) -> rtc step (s0, t0) (s, t) ->
  marks t (items s) /\ (exists c, only c (panes s)) /\
  (calm s -> forall i p, panes s !! i = Some p -> visible p = bool_decide (i = target t)) /\
  (calm s \/ exists i, calm (transition_end i s)).
Proof.
  intros Hm Hr Hs. apply steps_showing in Hs; [|by split_and!; [|apply Hr|left]]. simpl in Hs.
  destruct Hs as (Hm' & Hk & Hp). split; [done|].
  destruct Hp as [Hrest|(c & prev & Hf)].
  - split_and!; [by exists (target t); apply Hrest| |left; apply Hrest].
    intros _ i p E. destruct Hrest as (Ho & _ & _ & Hv). unfold visible. rewrite (Ho i p E).
    case_bool_decide; [subst|done]. specialize (Hv p E). destruct (p_fade p); [by rewrite Hv|done].
  - pose proof Hf as (Ho & Hc & Hp). destruct (lookup_lt_is_Some_2 _ _ Hc) as [p E]. split_and!; [by exists c| |].
    + intros Hcalm. pose proof (Forall_lookup_1 _ _ _ _ Hcalm E) as Hp0. simpl in Hp0. by rewrite (Hp c p E), decide_True in Hp0.
    + right. exists c. by destruct (fading_end c t prev s Hf Hk) as [_ (_ & _ & ? & _)].
Qed.
End agree.

Lemma tabs_show_last_witness :
  let s := transition_end 0 (show true ex_allow ex_target (InMenu 2 1) (ex_tabs true)) in
  marks (InMenu 2 1) (items s) /\ visible <$> panes s = [false; false; false; true].
Proof.
  cbv zeta. split; [|by vm_compute].
  apply (tabs_show_last true ex_allow ex_target (ex_tabs true) (Top 0)); [done| |].
  - split_and!; [|vm_compute; lia|repeat constructor|by intros p [= <-]].
    intros [|[|[|[|i]]]] p; simpl; intros [= <-]; done.
  - eapply rtc_l; [apply (step_click true ex_allow ex_target (InMenu 2 1)); [repeat constructor| |vm_compute; lia]|].
    + eexists _, _, _. by split_and!.
    + eapply rtc_l; [apply (step_end _ _ _ 0)|]. apply rtc_refl.
Defined.

(** Without waiting: both panes that were asked for are active in the end, since the second [next], too, takes
    the class only from the pane that was active when it was called. *)
Theorem tabs_hurried :
  let s := show true ex_allow ex_target (InMenu 2 0) (show true ex_allow ex_target (Top 1) (ex_tabs true)) in
  visible <$> panes (transition_end 0 s) = [false; true; true; false].
Proof. by vm_compute. Qed.
