(* ===== verification/Dropdown.v ===== *)
(** * Dropdown menus of bootstrap ([bootstrap/dropdown.js])

    The toggles of a page (in the order of the document) and the containers of their menus, with the listeners of the
    document for clicks and keys.  The container of a toggle ([getParent]: its [data-target] or [href], or its parent),
    touch devices, the items of menus and whether a listener prevents an event are parameters. *)

From Stdlib Require Import Ascii String.
From S2P Require Import Prelude.
From S2P Require Import JsStrings.

#[local] Open Scope list_scope.

(** ** State *)

Record toggle_el := ToggleEl { aria_expanded : bool; disabled : bool }.

(** What has the focus: a toggle, or an item of the menu of a container. *)
Inductive focusable := OnToggle (i : nat) | OnItem (c k : nat).
#[export] Instance focusable_eq_dec : EqDecision focusable.
Proof. solve_decision. Defined.

Inductive dd_event := DShow | DShown | DHide | DHidden.

Record page := Page {
  toggles : list toggle_el; is_open : nat -> bool; backdrops : nat; focus : option focusable;
  log : list (dd_event * nat) }.

(** An event that comes to [clearMenus]: a click, with the button, whether it is on an [input] or [textarea],
    and the containers it is in; or an event of the plugin, which has taken its place. *)
Record click_event := ClickEvent { which : Z; on_input : bool; inside : nat -> bool }.
Inductive event := NoEvent | AClick (e : click_event) | AHide.

Definition on_toggle (i : nat) (f : toggle_el -> toggle_el) (s : page) : page :=
  Page (alter f i (toggles s)) (is_open s) (backdrops s) (focus s) (log s).
Definition set_open (c : nat) (b : bool) (s : page) : page :=
  Page (toggles s) (fun c' => if decide (c' = c) then b else is_open s c') (backdrops s) (focus s) (log s).
Definition set_backdrops (n : nat) (s : page) : page := Page (toggles s) (is_open s) n (focus s) (log s).
Definition set_focus (f : option focusable) (s : page) : page := Page (toggles s) (is_open s) (backdrops s) f (log s).
Definition trigger (x : dd_event) (i : nat) (s : page) : page :=
  Page (toggles s) (is_open s) (backdrops s) (focus s) (log s ++ [(x, i)]).
Definition set_expanded (b : bool) (t : toggle_el) : toggle_el := ToggleEl b (disabled t).

Section dropdown.
(** The container of a toggle, the toggles in a container, touch devices, containers in a navbar, the items of a menu
    that are visible and not disabled; and whether a listener prevents [hide] or [show] of a toggle. *)
Context (getParent : nat -> nat) (toggles_in : nat -> list nat) (touch : bool) (in_navbar : nat -> bool) (items : nat -> nat)
  (prevented : dd_event -> nat -> bool).

(** One toggle in [clearMenus]; the event [e] is replaced by that of the plugin. *)
Definition clear_one (st : page * event) (i : nat) : page * event :=
  let '(s, e) := st in
  let c := getParent i in
  if negb (is_open s c) then st
  else if match e with AClick e => on_input e && inside e c | _ => false end then st
  else
    let s := trigger DHide i s in
    if prevented DHide i then (s, AHide)
    else (trigger DHidden i (set_open c false (on_toggle i (set_expanded false) s)), AHide).

Definition clearMenus (e : event) (s : page) : page :=
  if match e with AClick e => which e =? 3 | _ => false end then s
  else (foldl clear_one (set_backdrops 0 s, e) (seq 0 (length (toggles s)))).1.

Definition is_disabled (i : nat) (s : page) : bool :=
  match toggles s !! i with Some t => disabled t | None => false end.

(** [toggle], and whether it returns [false], which stops the event. *)
Definition toggle (i : nat) (s : page) : page * bool :=
  if is_disabled i s then (s, false)
  else
    let c := getParent i in
    let isActive := is_open s c in
    let s := clearMenus NoEvent s in
    if isActive then (s, true)
    else
      let s := if touch && negb (in_navbar c) then set_backdrops (S (backdrops s)) s else s in
      let s := trigger DShow i s in
      if prevented DShow i then (s, false)
      else
        let s := on_toggle i (set_expanded true) (set_focus (Some (OnToggle i)) s) in
        (trigger DShown i (set_open c (negb (is_open s c)) s), true).

(** ** The listeners of the document *)

(** A click on a toggle, in a form in a dropdown, or elsewhere; a backdrop has [clearMenus] as a listener of its own. *)
Inductive place := ClickToggle (i : nat) | ClickForm | ClickBackdrop | ClickElsewhere.

Definition click (p : place) (e : click_event) (s : page) : page :=
  match p with
  | ClickToggle i => let '(s, stopped) := toggle i s in if stopped then s else clearMenus (AClick e) s
  | ClickForm => s
  | ClickBackdrop => clearMenus (AClick e) (clearMenus (AClick e) s)
  | ClickElsewhere => clearMenus (AClick e) s
  end.

(** Keys: in a toggle, or in the menu of a container; [target_item] is the item that has the event, if one has. *)
Inductive key_place := KeyToggle (i : nat) | KeyMenu (c : nat).

(** [/(38|40|27|32)/.test(e.which)]: the digits may be part of a longer number. *)
Definition key_matters (key : Z) : bool :=
  existsb (fun p => bool_decide (String.index 0 p (str_of_num key) <> None)) ["38"; "40"; "27"; "32"]%string.

(** The index of the item that gets the focus, from that of the item with the event (-1 for none), of [n]. *)
Definition next_index (key : Z) (index n : Z) : Z :=
  let index := if (key =? 38) && (0 <? index) then index - 1 else index in
  let index := if (key =? 40) && (index <? n - 1) then index + 1 else index in
  if index =? -1 then 0 else index.

(** The click that a key triggers on its place. *)
Definition key_click (p : key_place) (s : page) : page :=
  let e := ClickEvent 0 false (fun _ => false) in
  match p with KeyToggle i => click (ClickToggle i) e s | KeyMenu c => click ClickElsewhere e s end.

Definition keydown (p : key_place) (key : Z) (target_is_input : bool) (index : Z) (s : page) : page :=
  if negb (key_matters key) || target_is_input then s
  else if match p with KeyToggle i => is_disabled i s | KeyMenu _ => false end then s
  else
    let c := match p with KeyToggle i => getParent i | KeyMenu c => c end in
    let isActive := is_open s c in
    if (negb isActive && negb (key =? 27)) || (isActive && (key =? 27)) then
      let s := if key =? 27 then foldl (fun s i => set_focus (Some (OnToggle i)) s) s (toggles_in c) else s in
      key_click p s
    else if (items c =? 0)%nat then s
    else set_focus (Some (OnItem c (Z.to_nat (next_index key index (Z.of_nat (items c)))))) s.
End dropdown.

(** ** Menus, abstractly: which container is open *)

Inductive action := Clicked (p : place) (e : click_event) | Key (p : key_place) (key : Z) (is_input : bool) (index : Z).

Section refinement.
Context (getParent : nat -> nat) (toggles_in : nat -> list nat) (touch : bool) (in_navbar : nat -> bool)
  (items : nat -> nat) (prevented : dd_event -> nat -> bool).

Definition act (a : action) (s : page) : page :=
  match a with
  | Clicked p e => click getParent touch in_navbar prevented p e s
  | Key p key is_input index => keydown getParent toggles_in touch in_navbar items prevented p key is_input index s
  end.

(** A click that is not on a toggle closes the menu, unless it is in a field of it or with the right button. *)
Definition spec_clear (e : click_event) (st : option nat) : option nat :=
  match st with
  | Some c => if (which e =? 3) || (on_input e && inside e c) then Some c else None
  | None => None
  end.

Definition spec_toggle (i : nat) (st : option nat) : option nat :=
  if decide (st = Some (getParent i)) then None else Some (getParent i).

Definition spec (dis : nat -> bool) (a : action) (st : option nat) : option nat :=
  match a with
  | Clicked (ClickToggle i) e => if dis i then spec_clear e st else spec_toggle i st
  | Clicked ClickForm e => st
  | Clicked (ClickBackdrop | ClickElsewhere) e => spec_clear e st
  | Key p key is_input index =>
      if negb (key_matters key) || is_input then st
      else match p with
           | KeyToggle i =>
               if dis i then st
               else if decide (st = Some (getParent i)) then if key =? 27 then None else st
               else if key =? 27 then st else Some (getParent i)
           | KeyMenu c =>
               if decide (st = Some c) then if key =? 27 then None else st
               else if key =? 27 then st else None
           end
  end.

Definition rep (s : page) (st : option nat) : Prop :=
  (forall c, is_open s c = bool_decide (st = Some c)) /\
  (forall i t, toggles s !! i = Some t -> aria_expanded t = bool_decide (st = Some (getParent i))) /\
  (forall c, st = Some c -> exists i, (i < length (toggles s))%nat /\ getParent i = c) /\ (backdrops s <= 1)%nat.

Context (allowed : forall x i, prevented x i = false).

(** Toggles of the page that was loaded. *)
Context (n : nat) (dis : nat -> bool).
Context (own : forall i j, (i < n)%nat -> (j < n)%nat -> getParent i = getParent j -> i = j).

Definition same_toggles (s : page) : Prop := length (toggles s) = n /\ forall i, is_disabled i s = dis i.

Lemma clear_closed st l : (forall i, i ∈ l -> is_open st.1 (getParent i) = false) ->
  foldl (clear_one getParent prevented) st l = st.
Proof.
  destruct st as [s e]. simpl. induction l as [|i l IH]; intros Hl; [done|]. simpl. rewrite Hl by left. simpl.
  apply IH. intros j Hj. apply Hl. by right.
Qed.

(** [clearMenus] and what the event lets stay open. *)
Definition cleared (e : event) (st : option nat) : option nat :=
  match e with AClick e => spec_clear e st | _ => None end.

(** The toggle of the open container closes it, the others do nothing. *)
Lemma clear_toggle s e c i0 : rep s (Some c) -> length (toggles s) = n -> (i0 < n)%nat -> getParent i0 = c ->
  foldl (clear_one getParent prevented) (s, e) (seq 0 n) = clear_one getParent prevented (s, e) i0.
Proof.
  intros (Ho & _) Hn Hi Hc. assert (i0 ∈ seq 0 n) as (l1 & l2 & E)%list_elem_of_split by (apply elem_of_seq; lia).
  pose proof (NoDup_seq 0 n) as Hnd. rewrite E in Hnd |- *. apply NoDup_app in Hnd as (_ & H1 & [H2 _]%NoDup_cons).
  assert (forall i, i ∈ l1 ++ l2 -> getParent i <> c) as Hother.
  { intros i Hi' Hp. assert (i ∈ seq 0 n) as Hs by (rewrite E; apply elem_of_app in Hi'; rewrite elem_of_app, elem_of_cons; tauto).
    apply elem_of_seq in Hs. assert (i = i0) as -> by (apply own; [lia|lia|congruence]).
    apply elem_of_app in Hi' as [Hi'|Hi']; [|done]. apply (H1 i0 Hi'). left. }
  assert (forall i, i ∈ l1 ++ l2 -> is_open s (getParent i) = false) as Hclosed
    by (intros i Hi'; rewrite Ho; apply bool_decide_false; intros [= ->]; by apply (Hother i)).
  rewrite foldl_app. simpl. rewrite (clear_closed (s, e) l1) by (intros i ?; apply Hclosed; apply elem_of_app; by left).
  apply clear_closed. intros i Hi'. specialize (Hclosed i ltac:(apply elem_of_app; by right)).
  unfold clear_one. repeat case_match; simplify_eq/=; try done; by case_decide.
Qed.

Lemma same_on_toggle i f s : (forall t, disabled (f t) = disabled t) -> same_toggles s -> same_toggles (on_toggle i f s).
Proof.
  intros Hf [Hn Hd]. split; [simpl; by rewrite length_alter|]. intros j. rewrite <- Hd. unfold is_disabled. simpl.
  rewrite lookup_alter_if. destruct (toggles s !! j) as [t|]; [|done]. simpl. by case_decide.
Qed.

Lemma clearMenus_rep e s st : rep s st -> same_toggles s ->
  let s' := clearMenus getParent prevented e s in
  rep s' (cleared e st) /\ same_toggles s' /\
  (match e with AClick e => which e =? 3 | _ => false end = false -> backdrops s' = 0%nat).
Proof.
  intros Hr Hs. unfold clearMenus. destruct (match e with AClick e => which e =? 3 | _ => false end) eqn:E3.
  { split_and!; [|done|done]. destruct e as [|e|]; try done. simpl. unfold spec_clear. rewrite E3. by destruct st. }
  pose proof Hs as [Hn Hd]. rewrite Hn.
  assert (rep (set_backdrops 0 s) st) as Hr0 by (destruct Hr as (? & ? & ? & ?); split_and!; try done; simpl; lia).
  destruct st as [c|].
  - pose proof Hr as (Ho & He & Hc & _). destruct (Hc c eq_refl) as (i0 & Hi0 & Hp). rewrite Hn in Hi0.
    rewrite (clear_toggle _ e c i0) by done. unfold clear_one. simpl. rewrite Ho, Hp, bool_decide_true by done. simpl.
    destruct (match e with AClick e => on_input e && inside e c | _ => false end) eqn:Ei; simpl.
    { split_and!; [|done|done]. destruct e as [|e|]; try done. simpl. by rewrite Ei, orb_true_r. }
    rewrite allowed. simpl.
    assert (cleared e (Some c) = None) as -> by (destruct e as [|e|]; try done; simpl; by rewrite E3, Ei).
    split_and!; [split_and!; [| |done|simpl; lia]|by apply (same_on_toggle i0 (set_expanded false) s)|done].
    + intros c'. simpl. rewrite Ho. case_decide; [done|]. by rewrite bool_decide_false by congruence.
    + intros j t. simpl. rewrite lookup_alter_if. destruct (toggles s !! j) as [t0|] eqn:Et; [|done]. simpl. intros [= <-].
      case_decide as Hj; [done|]. unfold id. rewrite (He j t0 Et), bool_decide_false; [done|]. intros [= Hpj].
      apply Hj, own; [done|rewrite <- Hn; by eapply lookup_lt_Some|congruence].
  - destruct Hr as (Ho & _). rewrite clear_closed by (intros i _; simpl; by rewrite Ho).
    split_and!; [|done..]. by destruct e.
Qed.

(** A toggle that is not disabled. *)
Lemma toggle_rep i s st : rep s st -> same_toggles s -> (i < n)%nat -> dis i = false ->
  let '(s', stopped) := toggle getParent touch in_navbar prevented i s in
  rep s' (spec_toggle i st) /\ same_toggles s' /\ stopped = true.
Proof.
  intros Hr Hs Hi Hdis. unfold toggle. rewrite (proj2 Hs), Hdis. pose proof Hr as (Ho & _). rewrite Ho.
  destruct (clearMenus_rep NoEvent s st Hr Hs) as (Hr1 & Hs1 & Hb). specialize (Hb eq_refl). simpl in Hr1.
  set (s1 := clearMenus getParent prevented NoEvent s) in *. clearbody s1. unfold spec_toggle.
  destruct (decide (st = Some (getParent i))) as [E|E];
    [rewrite (bool_decide_true _ E); done|rewrite (bool_decide_false _ E)].
  rewrite allowed. destruct Hr1 as (Ho1 & He1 & _ & _).
  set (s2 := if touch && negb (in_navbar (getParent i)) then set_backdrops (S (backdrops s1)) s1 else s1).
  assert (toggles s2 = toggles s1 /\ (forall c, is_open s2 c = false) /\ (backdrops s2 <= 1)%nat) as (Ht2 & Ho2 & Hb2).
  { subst s2. destruct (touch && _); simpl; (split_and!; [done|intros c; by rewrite Ho1|lia]). }
  clearbody s2. split_and!; [split_and!|split|done]; simpl; rewrite ?Ht2.
  - intros c. simpl. rewrite !Ho2. case_decide; [subst; by rewrite bool_decide_true|]. rewrite bool_decide_false; congruence.
  - intros j t. rewrite lookup_alter_if. destruct (toggles s1 !! j) as [t0|] eqn:Et; [|done]. simpl. intros [= <-].
    case_decide as Hj; [subst; simpl; by rewrite bool_decide_true|]. unfold id. rewrite (He1 j t0 Et). symmetry. apply bool_decide_false.
    intros [= Hp]. apply Hj, own; [done|rewrite <- (proj1 Hs1); by eapply lookup_lt_Some|done].
  - intros c [= <-]. exists i. by rewrite length_alter, (proj1 Hs1).
  - done.
  - rewrite length_alter. apply Hs1.
  - intros j. rewrite <- (proj2 Hs1 j). unfold is_disabled. simpl. rewrite Ht2, lookup_alter_if.
    destruct (toggles s1 !! j); [|done]. simpl. by case_decide.
Qed.
(** A click on a toggle: a disabled one does not stop the click, which then closes the menus. *)
Lemma click_toggle_rep i e s st : rep s st -> same_toggles s -> (i < n)%nat ->
  let s' := click getParent touch in_navbar prevented (ClickToggle i) e s in
  rep s' (if dis i then spec_clear e st else spec_toggle i st) /\ same_toggles s'.
Proof.
  intros Hr Hs Hi. simpl. destruct (dis i) eqn:Hd.
  - unfold toggle. rewrite (proj2 Hs), Hd. destruct (clearMenus_rep (AClick e) s st Hr Hs) as (? & ? & _). by split.
  - pose proof (toggle_rep i s st Hr Hs Hi Hd) as Ht. destruct (toggle _ _ _ _ _ _) as [s' stopped].
    destruct Ht as (? & ? & ->). by split.
Qed.

Lemma spec_clear_twice e st : spec_clear e (spec_clear e st) = spec_clear e st.
Proof.
  destruct st as [c|]; [|done]. simpl. destruct ((which e =? 3) || (on_input e && inside e c)) eqn:E; [|done].
  simpl. by rewrite E.
Qed.

(** The toggles an action names are on the page. *)
Definition on_page (a : action) : Prop :=
  match a with Clicked (ClickToggle i) _ | Key (KeyToggle i) _ _ _ => (i < n)%nat | _ => True end.

Lemma focus_all l s : exists f, foldl (fun s i => set_focus (Some (OnToggle i)) s) s l = set_focus f s.
Proof.
  revert s. induction l as [|i l IH]; intros s; [exists (focus s); by destruct s|]. simpl.
  destruct (IH (set_focus (Some (OnToggle i)) s)) as [f ->]. by exists f.
Qed.

Lemma act_rep a s st : on_page a -> rep s st -> same_toggles s -> rep (act a s) (spec dis a st) /\ same_toggles (act a s).
Proof.
  intros Ha Hr Hs. destruct a as [[i| | |] e|p key is_input index]; simpl in Ha.
  - by apply click_toggle_rep.
  - done.
  - simpl. destruct (clearMenus_rep (AClick e) s st Hr Hs) as (Hr1 & Hs1 & _).
    destruct (clearMenus_rep (AClick e) _ _ Hr1 Hs1) as (Hr2 & Hs2 & _). simpl in Hr2. rewrite spec_clear_twice in Hr2. by split.
  - simpl. destruct (clearMenus_rep (AClick e) s st Hr Hs) as (? & ? & _). by split.
  - simpl. unfold keydown. destruct (negb (key_matters key) || is_input); [done|].
    pose proof Hr as (Ho & _). rewrite Ho.
    assert (exists f, (if key =? 27 then foldl (fun s i => set_focus (Some (OnToggle i)) s) s
      (toggles_in match p with KeyToggle i => getParent i | KeyMenu c => c end) else s) = set_focus f s) as [f Ef]
      by (destruct (key =? 27); [apply focus_all|exists (focus s); by destruct s]).
    assert (forall f, rep (set_focus f s) st /\ same_toggles (set_focus f s)) as Hf by done. 
    destruct p as [i|c].
    + rewrite (proj2 Hs). destruct (dis i) eqn:Hd; [done|].
      destruct (click_toggle_rep i (ClickEvent 0 false (fun _ => false)) (set_focus f s) st) as [Hr1 Hs1]; [by apply Hf..|done|].
      rewrite Hd in Hr1. unfold spec_toggle in Hr1. cbv zeta. rewrite Ef.
      destruct (decide (st = Some (getParent i))) as [E|E]; [rewrite (bool_decide_true _ E)|rewrite (bool_decide_false _ E)];
        destruct (key =? 27); simpl; try (by split); by destruct (items _ =? 0)%nat.
    + destruct (clearMenus_rep (AClick (ClickEvent 0 false (fun _ => false))) (set_focus f s) st) as (Hr1 & Hs1 & _); [by apply Hf..|].
      cbv zeta. rewrite Ef. simpl in Hr1.
      destruct (decide (st = Some c)) as [E|E]; [rewrite (bool_decide_true _ E)|rewrite (bool_decide_false _ E)];
        destruct (key =? 27); simpl; try (by destruct (items _ =? 0)%nat); (split; [|done]);
        destruct st; by simplify_eq.
Qed.

(** C38: the page refines its abstraction, the container that is open: over any clicks and keys, at most one menu is
    open, the one the abstraction says; the toggle of the open container, and no other, says that it is expanded; and there
    is at most one backdrop. *)
Theorem dropdown_refines l s st :
  rep s st -> same_toggles s -> (forall a, a ∈ l -> on_page a) ->
  rep (foldl (fun s a => act a s) s l) (foldl (fun st a => spec dis a st) st l).
Proof.
  revert s st. induction l as [|a l IH]; intros s st Hr Hs Hl; [done|]. simpl.
  destruct (act_rep a s st) as [Hr1 Hs1]; [apply Hl; left|done|done|]. apply IH; [done|done|]. intros b Hb. apply Hl. by right.
Qed.
End refinement.

(** Keys in a menu: the focus stays in the menu, and moves by one. *)
Lemma next_index_moves key index k : 0 < k -> -1 <= index < k ->
  0 <= next_index key index k < k /\
  (key = 40 -> next_index key index k = Z.min (index + 1) (k - 1)) /\
  (key = 38 -> next_index key index k = Z.max (index - 1) 0).
Proof.
  intros Hk Hi. unfold next_index.
  destruct (Z.eqb_spec key 38), (Z.eqb_spec key 40), (Z.ltb_spec 0 index); simpl; try lia;
    repeat (match goal with |- context [Z.ltb ?a ?b] => destruct (Z.ltb_spec a b) end; simpl);
    match goal with |- context [Z.eqb ?a ?b] => destruct (Z.eqb_spec a b) end; lia.
Qed.

(** ** Examples *)

Definition ex_page : page :=
  Page [ToggleEl false false; ToggleEl false false; ToggleEl false true] (fun _ => false) 0 None [].
Definition ex_click : click_event := ClickEvent 1 false (fun _ => false).
Definition ex_field : click_event := ClickEvent 1 true (fun c => (c =? 1)%nat).
Definition dd_allow (x : dd_event) (i : nat) : bool := false.
#[local] Abbreviation ex_act := (act (fun i => i) (fun c => [c]) true (fun _ => false) (fun _ => 3%nat) dd_allow).

(** A menu, another one, a click in a field of it, the key down, escape. *)
Definition ex_actions : list action :=
  [Clicked (ClickToggle 0) ex_click; Clicked (ClickToggle 1) ex_click; Clicked ClickElsewhere ex_field;
   Key (KeyMenu 1) 40 false (-1)].

Lemma dropdown_refines_witness :
  rep (fun i => i) (foldl (fun s a => ex_act a s) ex_page ex_actions) (Some 1%nat) /\
  focus (foldl (fun s a => ex_act a s) ex_page ex_actions) = Some (OnItem 1 0).
Proof.
  split; [|by vm_compute].
  apply (dropdown_refines (fun i => i) (fun c => [c]) true (fun _ => false) (fun _ => 3%nat) dd_allow (fun _ _ => eq_refl)
    3 (fun i => (i =? 2)%nat) (fun i j _ _ E => E) ex_actions ex_page None).
  - split_and!; [done| |done|simpl; lia]. intros [|[|[|i]]] t [= <-]; done.
  - split; [done|]. by intros [|[|[|i]]].
  - intros a Ha. unfold ex_actions in Ha. rewrite !elem_of_cons, elem_of_nil in Ha.
    destruct Ha as [->|[->|[->|[->|[]]]]]; simpl; lia.
Defined.

(** Two toggles of one container: the one that has opened it still says that it is expanded after the other one, earlier in
    the page, was found to close it. *)
Theorem shared_container_expanded :
  let f := act (fun _ => 0%nat) (fun _ => [0; 1]%nat) false (fun _ => false) (fun _ => 3%nat) dd_allow in
  let s := f (Clicked ClickElsewhere ex_click) (f (Clicked (ClickToggle 1) ex_click) ex_page) in
  is_open s 0 = false /\ aria_expanded <$> toggles s = [false; true; false].
Proof. by vm_compute. Qed.

(** A field in a menu keeps it open, unless an earlier menu was closed by the same click, whose event has then taken the
    place of the click; as when a listener has kept two menus open. *)
Theorem field_in_second_menu :
  let s := Page (toggles ex_page) (fun c => (c <? 2)%nat) 0 None [] in
  let s := ex_act (Clicked ClickElsewhere ex_field) s in
  is_open s 0 = false /\ is_open s 1 = false.
Proof. by vm_compute. Qed.
