(* ===== verification/Carousel.v ===== *)
(** * Carousels of bootstrap ([bootstrap/carousel.js])

    The items of one carousel with their classes, its indicators, and the variables of its object.  What waits for the end of
    an item's transition is pending on that item, the event [slid] that follows waits for a timeout, and calls of
    [to] that came during a slide wait for [slid]; each of these is a step of its own, as is the interval.  Whether a listener
    prevents [slide], and whether the browser has transitions, are parameters.  A carousel has an active item. *)

From S2P Require Import Prelude.

#[local] Open Scope list_scope.

(** ** State *)

Inductive direction := DNext | DPrev.
#[export] Instance direction_eq_dec : EqDecision direction.
Proof. solve_decision. Defined.

(** The classes of an item: [active]; [next] or [prev]; [left] or [right] (the direction of [next] is left). *)
Record item := Item { active : bool; coming : option direction; moving : option direction }.

Record options := Options { o_interval : bool; o_hover : bool; o_wrap : bool; o_keyboard : bool }.

(** A slide that waits: the items that were active, the next one, and the type. *)
Record slide_rec := SlideRec { s_active : list nat; s_next : nat; s_type : direction }.

Inductive slide_event := Slide (i : nat) | Slid.

Record carousel := Carousel {
  items : list item; indicators : list bool; paused : bool; sliding : bool; interval : bool;
  pending : list (nat * slide_rec); timers : nat; waiting : list Z; log : list slide_event }.

Definition on_items (f : list item -> list item) (s : carousel) : carousel :=
  Carousel (f (items s)) (indicators s) (paused s) (sliding s) (interval s) (pending s) (timers s) (waiting s) (log s).
Definition set_indicators (l : list bool) (s : carousel) : carousel :=
  Carousel (items s) l (paused s) (sliding s) (interval s) (pending s) (timers s) (waiting s) (log s).
Definition set_paused (b : bool) (s : carousel) : carousel :=
  Carousel (items s) (indicators s) b (sliding s) (interval s) (pending s) (timers s) (waiting s) (log s).
Definition set_sliding (b : bool) (s : carousel) : carousel :=
  Carousel (items s) (indicators s) (paused s) b (interval s) (pending s) (timers s) (waiting s) (log s).
Definition set_interval (b : bool) (s : carousel) : carousel :=
  Carousel (items s) (indicators s) (paused s) (sliding s) b (pending s) (timers s) (waiting s) (log s).
Definition set_pending (l : list (nat * slide_rec)) (s : carousel) : carousel :=
  Carousel (items s) (indicators s) (paused s) (sliding s) (interval s) l (timers s) (waiting s) (log s).
Definition set_timers (k : nat) (s : carousel) : carousel :=
  Carousel (items s) (indicators s) (paused s) (sliding s) (interval s) (pending s) k (waiting s) (log s).
Definition set_waiting (l : list Z) (s : carousel) : carousel :=
  Carousel (items s) (indicators s) (paused s) (sliding s) (interval s) (pending s) (timers s) l (log s).
Definition trigger (x : slide_event) (s : carousel) : carousel :=
  Carousel (items s) (indicators s) (paused s) (sliding s) (interval s) (pending s) (timers s) (waiting s) (log s ++ [x]).

Definition set_active (b : bool) (x : item) : item := Item b (coming x) (moving x).
Definition set_coming (d : option direction) (x : item) : item := Item (active x) d (moving x).
Definition set_moving (d : option direction) (x : item) : item := Item (active x) (coming x) d.

Section carousel.
(** [$.support.transition], the class [slide] of the element, the options, and prevented slides. *)
Context (transition has_slide : bool) (o : options) (prevented : nat -> bool).

(** ** Pausing and cycling

    [by_event] is [true] when the function is a listener and has the event as its argument. *)

Definition cycle (by_event : bool) (s : carousel) : carousel :=
  let s := if by_event then s else set_paused false s in
  let s := set_interval false s in
  if o_interval o && negb (paused s) then set_interval true s else s.

Definition has_coming (x : item) : bool := match coming x with Some _ => true | None => false end.

(** The end of a transition that [pause] signals is on the element itself, where nothing waits for it. *)
Definition pause (by_event : bool) (s : carousel) : carousel :=
  let s := if by_event then s else set_paused true s in
  let s := if existsb has_coming (items s) && transition then cycle true s else s in
  set_interval false s.

(** ** Sliding *)

Definition actives (s : carousel) : list nat :=
  filter (fun i => match items s !! i with Some x => active x | None => false end = true) (seq 0 (length (items s))).
Definition is_active (i : nat) (s : carousel) : bool :=
  match items s !! i with Some x => active x | None => false end.

(** [eq(i)]: an index below 0 counts from the end. *)
Definition eq_index (i n : Z) : nat := Z.to_nat (if i <? 0 then i + n else i).

Definition getItemForDirection (d : direction) (activeIndex n : Z) : nat :=
  let willWrap := match d with DPrev => activeIndex =? 0 | DNext => activeIndex =? n - 1 end in
  if willWrap && negb (o_wrap o) then Z.to_nat activeIndex
  else eq_index (Z.rem (activeIndex + match d with DPrev => -1 | DNext => 1 end) n) n.

Definition show_indicator (i : nat) (s : carousel) : carousel :=
  set_indicators (alter (fun _ => true) i (map (fun _ => false) (indicators s))) s.

(** [slide]; [fire] is what the event [slid] does when it comes at once. *)
Definition slide (fire : carousel -> carousel) (d : direction) (next : option nat) (s : carousel) : carousel :=
  match actives s with
  | [] => s
  | a :: _ =>
      let act := actives s in
      let n := match next with
               | Some i => i
               | None => getItemForDirection d (Z.of_nat a) (Z.of_nat (length (items s)))
               end in
      let isCycling := interval s in
      if is_active n s then set_sliding false s
      else
        let s := trigger (Slide n) s in
        if prevented n then s
        else
          let s := set_sliding true s in
          let s := if isCycling then pause false s else s in
          let s := show_indicator n s in
          let s :=
            if transition && has_slide then
              let s := on_items (alter (set_coming (Some d)) n) s in
              let s := on_items (fun l => foldr (alter (set_moving (Some d))) l act) s in
              let s := on_items (alter (set_moving (Some d)) n) s in
              set_pending (pending s ++ map (fun i => (i, SlideRec act n d)) act) s
            else
              let s := on_items (fun l => foldr (alter (set_active false)) l act) s in
              let s := on_items (alter (set_active true) n) s in
              fire (trigger Slid (set_sliding false s)) in
          if isCycling then cycle false s else s
  end.

Definition to (fire : carousel -> carousel) (pos : Z) (s : carousel) : carousel :=
  match actives s with
  | [] => s
  | a :: _ =>
      if (Z.of_nat (length (items s)) - 1 <? pos) || (pos <? 0) then s
      else if sliding s then set_waiting (waiting s ++ [pos]) s
      else if Z.of_nat a =? pos then cycle false (pause false s)
      else slide fire (if Z.of_nat a <? pos then DNext else DPrev) (Some (Z.to_nat pos)) s
  end.

(** The listeners of [slid]: the calls of [to] that wait, each once. *)
Fixpoint fire_slid (fuel : nat) (s : carousel) : carousel :=
  match fuel with
  | O => s
  | S k => foldl (fun s pos => to (fire_slid k) pos s) (set_waiting [] s) (waiting s)
  end.
Definition fire : carousel -> carousel := fire_slid 2.

Definition next (s : carousel) : carousel := if sliding s then s else slide fire DNext None s.
Definition prev (s : carousel) : carousel := if sliding s then s else slide fire DPrev None s.

(** ** Events *)

(** The classes of a direction are removed. *)
Definition without (d : direction) (x : option direction) : option direction := if decide (x = Some d) then None else x.
Definition still (d : direction) (x : item) : item := set_moving (without d (moving x)) x.

(** The end of a slide. *)
Definition finish (x : slide_rec) (s : carousel) : carousel :=
  let s := on_items (alter (fun y => set_active true (still (s_type x) (set_coming (without (s_type x) (coming y)) y)))
                      (s_next x)) s in
  let s := on_items (fun l => foldr (alter (fun y => still (s_type x) (set_active false y))) l (s_active x)) s in
  set_timers (S (timers s)) (set_sliding false s).

Definition transition_end (i : nat) (s : carousel) : carousel :=
  let due := filter (fun p => p.1 = i) (pending s) in
  let s := set_pending (filter (fun p => p.1 <> i) (pending s)) s in
  foldl (fun s p => finish p.2 s) s due.

(** A timeout after the end of a slide. *)
Definition slid_timeout (s : carousel) : carousel :=
  match timers s with
  | O => s
  | S k => fire (trigger Slid (set_timers k s))
  end.

Inductive action :=
| Next | Prev | To (pos : Z) | Pause | Cycle | Mouseenter | Mouseleave | Keydown (key : Z) (on_input : bool)
| Tick | TransitionEnd (i : nat) | SlidTimeout.

Definition keydown (key : Z) (on_input : bool) (s : carousel) : carousel :=
  if on_input then s else if key =? 37 then prev s else if key =? 39 then next s else s.

Definition act (a : action) (s : carousel) : carousel :=
  match a with
  | Next => next s
  | Prev => prev s
  | To pos => to fire pos s
  | Pause => pause false s
  | Cycle => cycle false s
  | Mouseenter => if o_hover o then pause true s else s
  | Mouseleave => if o_hover o then cycle true s else s
  | Keydown key on_input => if o_keyboard o then keydown key on_input s else s
  | Tick => if interval s then next s else s
  | TransitionEnd i => transition_end i s
  | SlidTimeout => slid_timeout s
  end.
End carousel.

(** ** Phases *)

Section phases.
Context (transition has_slide : bool) (o : options) (prevented : nat -> bool).

(** The item [c] is active and nothing moves. *)
Definition at_rest (c : nat) (s : carousel) : Prop :=
  (c < length (items s))%nat /\ sliding s = false /\ pending s = [] /\
  forall i x, items s !! i = Some x -> x = Item (bool_decide (i = c)) None None.

(** The item [c] makes room for [d]. *)
Definition moves (c d : nat) (ty : direction) (s : carousel) : Prop :=
  (c < length (items s))%nat /\ (d < length (items s))%nat /\ c <> d /\ sliding s = true /\
  pending s = [(c, SlideRec [c] d ty)] /\
  forall i x, items s !! i = Some x ->
    x = Item (bool_decide (i = c)) (if decide (i = d) then Some ty else None)
          (if decide (i = c \/ i = d) then Some ty else None).

(** The item the indicators show: the one that is active or coming. *)
Definition shows (t : nat) (s : carousel) : Prop := forall i b, indicators s !! i = Some b -> b = bool_decide (i = t).

(** Calls of [to] wait only for a slide that is under way or has just ended. *)
Definition waits_ok (s : carousel) : Prop :=
  Forall (fun p => 0 <= p < Z.of_nat (length (items s))) (waiting s) /\
  (transition && has_slide = false -> waiting s = []) /\
  (waiting s <> [] -> sliding s = true \/ (0 < timers s)%nat).

Definition inv (s : carousel) : Prop :=
  waits_ok s /\
  exists c, (at_rest c s /\ shows c s) \/
    (transition && has_slide = true /\ exists d ty, moves c d ty s /\ shows d s).

(** [paused], [interval] and [log] do not matter. *)
Definition alike (s s' : carousel) : Prop :=
  items s' = items s /\ indicators s' = indicators s /\ sliding s' = sliding s /\ pending s' = pending s /\
  timers s' = timers s /\ waiting s' = waiting s.

Lemma alike_refl s : alike s s.
Proof. by split_and!. Qed.
Lemma alike_trans s1 s2 s3 : alike s1 s2 -> alike s2 s3 -> alike s1 s3.
Proof. unfold alike. intuition congruence. Qed.

Lemma alike_inv s s' : alike s s' -> inv s -> inv s'.
Proof.
  intros (E1 & E2 & E3 & E4 & E5 & E6). unfold inv, waits_ok, at_rest, moves, shows. by rewrite E1, E2, E3, E4, E5, E6.
Qed.

Lemma alike_cycle e s : alike s (cycle o e s).
Proof. unfold cycle. cbv zeta. by destruct (_ && _), e. Qed.

Lemma alike_pause e s : alike s (pause transition o e s).
Proof.
  unfold pause. cbv zeta. assert (alike s (if e then s else set_paused true s)) as H by (by destruct e).
  eapply alike_trans; [exact H|]. destruct (_ && _); [|done]. eapply alike_trans; [apply (alike_cycle true)|done].
Qed.

Lemma actives_only c s : (c < length (items s))%nat ->
  (forall i x, items s !! i = Some x -> active x = bool_decide (i = c)) -> actives s = [c].
Proof.
  intros Hc Ho. unfold actives. apply filter_unique; [apply NoDup_seq|apply elem_of_seq; lia|].
  intros i. split.
  - destruct (items s !! i) as [p|] eqn:E; [|done]. rewrite (Ho i p E). by intros ?%bool_decide_eq_true.
  - intros ->. destruct (lookup_lt_is_Some_2 (items s) c Hc) as [p E]. rewrite E, (Ho c p E). by apply bool_decide_true.
Qed.

Lemma at_rest_actives c s : at_rest c s -> actives s = [c].
Proof. intros (Hc & _ & _ & Hi). apply actives_only; [done|]. intros i x E. by rewrite (Hi i x E). Qed.

Lemma moves_actives c d ty s : moves c d ty s -> actives s = [c].
Proof. intros (Hc & _ & _ & _ & _ & Hi). apply actives_only; [done|]. intros i x E. by rewrite (Hi i x E). Qed.

Lemma is_active_rest c i s : at_rest c s -> is_active i s = bool_decide (i = c).
Proof.
  intros (Hc & _ & _ & Hi). unfold is_active. destruct (items s !! i) as [x|] eqn:E; [by rewrite (Hi i x E)|].
  symmetry. apply bool_decide_false. intros ->. apply lookup_ge_None in E. lia.
Qed.

Lemma shows_indicator t s : shows t (show_indicator t s).
Proof.
  intros i b. unfold show_indicator. simpl. rewrite lookup_alter_if. change (map ?f ?l) with (f <$> l).
  rewrite list_lookup_fmap. destruct (indicators s !! i); [|done]. simpl. intros [= <-].
  case_decide; [by rewrite bool_decide_true|by rewrite bool_decide_false].
Qed.

(** The neighbour of an item. *)
Lemma getItemForDirection_spec d c k : (c < k)%nat ->
  getItemForDirection o d (Z.of_nat c) (Z.of_nat k) =
  match d with
  | DNext => if decide (S c = k) then if o_wrap o then 0%nat else c else S c
  | DPrev => match c with O => if o_wrap o then (k - 1)%nat else 0%nat | S c' => c' end
  end.
Proof.
  intros Hc. unfold getItemForDirection, eq_index. destruct d.
  - destruct (decide (S c = k)) as [<- |Hn].
    + rewrite (proj2 (Z.eqb_eq _ _)) by lia. destruct (o_wrap o); simpl andb; [|simpl; lia].
      replace (Z.of_nat c + 1) with (Z.of_nat (S c)) by lia. by rewrite Z.rem_same by lia.
    + rewrite (proj2 (Z.eqb_neq _ _)) by lia. simpl andb. rewrite Z.rem_small by lia.
      rewrite (proj2 (Z.ltb_ge _ _)) by lia. lia.
  - destruct c as [|c].
    + destruct (o_wrap o); simpl; [|done]. destruct (decide (k = 1%nat)) as [-> |Hn]; [done|].
      rewrite (Z.rem_opp_l 1) by lia. rewrite Z.rem_small by lia. simpl. lia.
    + rewrite (proj2 (Z.eqb_neq _ _)) by lia. simpl andb.
      replace (Z.of_nat (S c) + -1) with (Z.of_nat c) by lia. rewrite Z.rem_small by lia.
      rewrite (proj2 (Z.ltb_ge _ _)) by lia. lia.
Qed.
(** *** A slide from rest *)

Lemma alike_fire k s : waiting s = [] -> alike s (fire_slid transition has_slide o prevented (S k) s).
Proof. intros E. simpl. rewrite E. simpl. by split_and!. Qed.

Lemma alike_rest s s' c : alike s s' -> at_rest c s -> at_rest c s'.
Proof. intros (E1 & E2 & E3 & E4 & E5 & E6). unfold at_rest. by rewrite E1, E3, E4. Qed.
Lemma alike_moves s s' c d ty : alike s s' -> moves c d ty s -> moves c d ty s'.
Proof. intros (E1 & E2 & E3 & E4 & E5 & E6). unfold moves. by rewrite E1, E3, E4. Qed.
Lemma alike_shows s s' t : alike s s' -> shows t s -> shows t s'.
Proof. intros (E1 & E2 & E3 & E4 & E5 & E6). unfold shows. by rewrite E2. Qed.

(** What stays the same in a slide. *)
Definition keeps (s s' : carousel) : Prop :=
  length (items s') = length (items s) /\ timers s' = timers s /\ waiting s' = waiting s.

Lemma alike_keeps s s' : alike s s' -> keeps s s'.
Proof. intros (E1 & _ & _ & _ & E5 & E6). unfold keeps. by rewrite E1, E5, E6. Qed.
Lemma slide_keeps_trans s1 s2 s3 : keeps s1 s2 -> keeps s2 s3 -> keeps s1 s3.
Proof. unfold keeps. intuition congruence. Qed.

(** The state in which the classes of a slide from [c] to [m] are set. *)
Lemma begin_slide c m d s : at_rest c s -> (m < length (items s))%nat -> m <> c ->
  let s1 := on_items (alter (set_coming (Some d)) m) (set_sliding true s) in
  let s1 := on_items (fun l => foldr (alter (set_moving (Some d))) l [c]) s1 in
  let s1 := on_items (alter (set_moving (Some d)) m) s1 in
  moves c m d (set_pending (pending s1 ++ map (fun i => (i, SlideRec [c] m d)) [c]) s1).
Proof.
  intros (Hc & Hs & Hp & Hi) Hm Hn s1. subst s1. split_and!; simpl; rewrite ?length_alter; try done.
  - by rewrite Hp.
  - intros i x. rewrite !lookup_alter_if. destruct (items s !! i) as [y|] eqn:E; [|done]. simpl. intros [= <-].
    rewrite (Hi i y E). unfold id, set_moving, set_coming.
    repeat case_decide; subst; simpl; try done; exfalso; naive_solver.
Qed.

Lemma swap_active c m s : at_rest c s -> (m < length (items s))%nat -> m <> c ->
  let s1 := on_items (fun l => foldr (alter (set_active false)) l [c]) (set_sliding true s) in
  let s1 := on_items (alter (set_active true) m) s1 in
  at_rest m (trigger Slid (set_sliding false s1)).
Proof.
  intros (Hc & Hs & Hp & Hi) Hm Hn s1. subst s1. split_and!; simpl; rewrite ?length_alter; try done.
  intros i x. rewrite !lookup_alter_if. destruct (items s !! i) as [y|] eqn:E; [|done]. simpl. intros [= <-].
  rewrite (Hi i y E). repeat case_decide; subst; simpl; unfold set_active; simpl;
    rewrite ?(bool_decide_true (_ = _)) by done; try done; rewrite ?bool_decide_false by done; done.
Qed.

Lemma slide_rest fire d nxt s c m :
  at_rest c s -> (transition && has_slide = false -> waiting s = []) ->
  (transition && has_slide = false -> forall s, waiting s = [] -> alike s (fire s)) ->
  m = match nxt with
      | Some i => i
      | None => getItemForDirection o d (Z.of_nat c) (Z.of_nat (length (items s)))
      end -> (m < length (items s))%nat -> shows c s ->
  let s' := slide transition has_slide o prevented fire d nxt s in
  keeps s s' /\
  ((at_rest c s' /\ shows c s' /\ (m = c \/ prevented m = true)) \/
   (shows m s' /\ m <> c /\ if transition && has_slide then moves c m d s' else at_rest m s')).
Proof.
  intros Hr Hw Hfire Hm Hlen Hsh. unfold slide. rewrite (at_rest_actives c s Hr). cbv zeta. rewrite <- Hm.
  rewrite (is_active_rest c m s Hr). case_bool_decide as Emc.
  { destruct Hr as (Hc & Hs & Hp & Hi). assert (alike s (set_sliding false s)) as Hal by (split_and!; try done; by rewrite Hs).
    split; [by apply alike_keeps|left]. split_and!; [by eapply alike_rest|by eapply alike_shows|by left]. }
  destruct (prevented m) eqn:Ep.
  { split; [done|left]. split_and!; [done|done|by right]. }
  set (s1 := trigger (Slide m) s).
  set (s2 := if interval s then pause transition o false (set_sliding true s1) else set_sliding true s1).
  assert (exists s0, alike s s0 /\ s2 = set_sliding true s0) as (s0 & Hs0 & E2).
  { subst s2. destruct (interval s); [|by exists s1]. exists (set_sliding (sliding s) (pause transition o false (set_sliding true s1))).
    pose proof (alike_pause false (set_sliding true s1)) as (A1 & A2 & A3 & A4 & A5 & A6).
    split; [by split_and!|]. destruct (pause _ _ _ _); simpl in *; by subst. }
  rewrite E2. clear s2 E2. assert (keeps s s0) as Hk by (by apply alike_keeps).
  set (s3 := set_indicators (indicators (show_indicator m s0)) s0).
  assert (at_rest c s3) as Hr3 by (by apply (alike_rest s s0 c Hs0)).
  assert (m < length (items s3))%nat as Hl3 by (simpl; by rewrite (proj1 Hk)).
  assert (shows m s3) as Hsh3 by (apply (shows_indicator m s0)).
  assert (forall s', alike s' (if interval s then cycle o false s' else s')) as Hcyc
    by (intros s'; destruct (interval s); [apply alike_cycle|apply alike_refl]).
  destruct (transition && has_slide) eqn:Easy.
  - split.
    + eapply slide_keeps_trans; [|apply alike_keeps, Hcyc]. split_and!; simpl; rewrite ?length_alter; apply Hk.
    + right. split_and!; [by eapply alike_shows; [apply Hcyc|]|done|]. eapply alike_moves; [apply Hcyc|].
      by apply (begin_slide c m d s3).
  - pose proof (swap_active c m s3 Hr3 Hl3 Emc) as Hsw. cbv zeta in Hsw.
    match type of Hsw with at_rest _ ?x => set (s4 := x) in * end.
    assert (keeps s s4) as Hk4 by (split_and!; simpl; rewrite ?length_alter; apply Hk).
    assert (alike s4 (fire s4)) as Hf by (apply Hfire; [done|]; rewrite (proj2 (proj2 Hk4)); by apply Hw).
    split; [|right; split_and!; [|done|]].
    + eapply slide_keeps_trans; [|apply alike_keeps, Hcyc]. eapply slide_keeps_trans; [exact Hk4|by apply alike_keeps].
    + eapply alike_shows; [apply Hcyc|]. by eapply alike_shows; [exact Hf|].
    + eapply alike_rest; [apply Hcyc|]. by eapply alike_rest; [exact Hf|].
Qed.
(** *** Every action keeps the invariant *)

#[local] Abbreviation async := (transition && has_slide).
#[local] Abbreviation to' := (to transition has_slide o prevented).
#[local] Abbreviation fires f := (async = false -> forall s, waiting s = [] -> alike s (f s)).

Lemma waits_keeps s s' : keeps s s' -> waits_ok s -> (sliding s = true -> sliding s' = true) -> waits_ok s'.
Proof. intros (E1 & E2 & E3) (H1 & H2 & H3) Hs. unfold waits_ok. rewrite E1, E2, E3. split_and!; [done|done|]. intros Hw. destruct (H3 Hw); auto. Qed.

Lemma slide_inv f d nxt s c : fires f -> waits_ok s -> at_rest c s -> shows c s ->
  match nxt with Some i => (i < length (items s))%nat | None => True end ->
  let s' := slide transition has_slide o prevented f d nxt s in inv s' /\ keeps s s'.
Proof.
  intros Hf Hw Hr Hsh Hn. pose proof Hr as (Hc & Hs & _).
  set (m := match nxt with Some i => i | None => getItemForDirection o d (Z.of_nat c) (Z.of_nat (length (items s))) end).
  assert (m < length (items s))%nat as Hm.
  { subst m. destruct nxt; [done|]. rewrite getItemForDirection_spec by done.
    destruct d; [destruct (decide _), (o_wrap o)|destruct c, (o_wrap o)]; lia. }
  pose proof (slide_rest f d nxt s c m Hr (proj1 (proj2 Hw)) Hf eq_refl Hm Hsh) as (Hk & Hcase).
  split; [|done]. split; [eapply waits_keeps; [done|done|by rewrite Hs]|].
  destruct Hcase as [(Hr' & Hsh' & _)|(Hsh' & _ & Hcase)]; [exists c; by left|].
  destruct async; [exists c; right; eauto|exists m; by left].
Qed.

Lemma to_inv f pos s : fires f -> inv s ->
  inv (to' f pos s) /\ length (items (to' f pos s)) = length (items s).
Proof.
  intros Hf Hi. pose proof Hi as (Hw & c & [[Hr Hsh]|(Ha & d & ty & Hm & Hsh)]); unfold to.
  - rewrite (at_rest_actives c s Hr). destruct (_ || _) eqn:Eo; [done|]. apply orb_false_iff in Eo as [E1 E2].
    rewrite (proj1 (proj2 Hr)). case_match.
    + split; [|by destruct (alike_trans _ _ _ (alike_pause false s) (alike_cycle false _)) as (-> & _)].
      eapply alike_inv; [|done]. eapply alike_trans; [apply alike_pause|apply alike_cycle].
    + destruct (slide_inv f (if Z.of_nat c <? pos then DNext else DPrev) (Some (Z.to_nat pos)) s c) as [? [? _]]; [done..|lia|done].
  - rewrite (moves_actives c d ty s Hm). destruct (_ || _) eqn:Eo; [done|]. apply orb_false_iff in Eo as [E1 E2].
    pose proof Hm as (_ & _ & _ & -> & _). split; [|done]. split; [|exists c; right; split; [done|]; eauto].
    destruct Hw as (H1 & H2 & H3). split_and!; simpl.
    + apply Forall_app. split; [done|]. constructor; [lia|constructor].
    + by rewrite Ha.
    + intros _. left. by destruct Hm as (_ & _ & _ & ? & _).
Qed.

Lemma fires_fire k : fires (fire_slid transition has_slide o prevented (S k)).
Proof. intros _ s. apply alike_fire. Qed.

Lemma tos_inv f l s : fires f -> inv s -> inv (foldl (fun s pos => to' f pos s) s l).
Proof.
  intros Hf. revert s. induction l as [|p l IH]; intros s Hi; [done|]. simpl. by apply IH, to_inv.
Qed.

Lemma set_waiting_inv s : inv s -> inv (set_waiting [] s).
Proof. intros [(_ & H2 & _) Hc]. split; [split_and!; [constructor|done|done]|exact Hc]. Qed.

Lemma fire_inv s : inv s -> inv (fire transition has_slide o prevented s).
Proof. intros Hi. unfold fire. apply tos_inv; [apply (fires_fire 0)|by apply set_waiting_inv]. Qed.

Lemma end_moves c d ty s : moves c d ty s ->
  let s' := transition_end c s in
  at_rest d s' /\ indicators s' = indicators s /\ timers s' = S (timers s) /\ waiting s' = waiting s /\
  length (items s') = length (items s).
Proof.
  intros (Hc & Hd & Hn & Hs & Hp & Hi). unfold transition_end. rewrite Hp, !filter_cons.
  simpl. rewrite (decide_True (P := c = c)) by done. rewrite (decide_False (P := c <> c)) by (intros E; by apply E). simpl.
  rewrite !length_alter. split; [|done]. split_and!; simpl; rewrite ?length_alter; [done..|].
  intros i x. simpl. rewrite !lookup_alter_if. destruct (items s !! i) as [y|] eqn:E; [|done]. simpl. intros [= <-].
  rewrite (Hi i y E). unfold id, still, set_moving, set_coming, set_active, without. simpl.
  repeat (case_decide; simplify_eq/=); try done; try (by rewrite bool_decide_true); try (by rewrite bool_decide_false);
    exfalso; naive_solver.
Qed.

Lemma end_of_other i s : (forall p, p ∈ pending s -> p.1 <> i) -> alike s (transition_end i s).
Proof.
  intros Hp. unfold transition_end.
  assert (filter (fun p => p.1 = i) (pending s) = [] /\ filter (fun p => p.1 <> i) (pending s) = pending s) as [-> ->].
  { induction (pending s) as [|p l IH]; [done|]. rewrite !filter_cons.
    rewrite decide_False by (apply Hp; left). rewrite decide_True by (apply Hp; left).
    destruct IH as [-> ->]; [|done]. intros q Hq. apply Hp. by right. }
  by split_and!.
Qed.

Lemma carousel_end_inv i s : inv s -> inv (transition_end i s).
Proof.
  intros Hi. pose proof Hi as (Hw & c & [[Hr Hsh]|(Ha & d & ty & Hm & Hsh)]).
  - eapply alike_inv; [|done]. apply end_of_other. destruct Hr as (_ & _ & -> & _). by intros p ?%elem_of_nil.
  - destruct (decide (i = c)) as [-> |Hn].
    + pose proof (end_moves c d ty s Hm) as (Hr & E1 & E2 & E3 & E4). split.
      * destruct Hw as (H1 & H2 & H3). unfold waits_ok. rewrite E2, E3, E4. split_and!; [done|done|]. intros _. right. lia.
      * exists d. left. split; [done|]. unfold shows. by rewrite E1.
    + eapply alike_inv; [|done]. apply end_of_other. destruct Hm as (_ & _ & _ & _ & -> & _).
      intros p ->%list_elem_of_singleton. simpl. congruence.
Qed.

Lemma slid_timeout_inv s : inv s -> inv (slid_timeout transition has_slide o prevented s).
Proof.
  intros Hi. unfold slid_timeout. destruct (timers s) as [|k] eqn:E; [done|]. unfold fire. simpl.
  apply tos_inv; [apply (fires_fire 0)|]. destruct Hi as [(_ & H2 & _) Hc]. split; [split_and!; [constructor|done|done]|exact Hc].
Qed.

Lemma step_inv d s : inv s -> inv (if sliding s then s else slide transition has_slide o prevented (fire transition has_slide o prevented) d None s).
Proof.
  intros Hi. pose proof Hi as (Hw & c & [[Hr Hsh]|(Ha & e & ty & Hm & Hsh)]).
  - rewrite (proj1 (proj2 Hr)). apply (slide_inv _ d None s c); [apply (fires_fire 1)|done..].
  - by destruct Hm as (_ & _ & _ & -> & _).
Qed.

Lemma act_inv a s : inv s -> inv (act transition has_slide o prevented a s).
Proof.
  intros Hi. destruct a; simpl.
  - by apply step_inv.
  - by apply step_inv.
  - by apply to_inv; [apply (fires_fire 1)|].
  - eapply alike_inv; [apply alike_pause|done].
  - eapply alike_inv; [apply alike_cycle|done].
  - destruct (o_hover o); [eapply alike_inv; [apply alike_pause|done]|done].
  - destruct (o_hover o); [eapply alike_inv; [apply alike_cycle|done]|done].
  - destruct (o_keyboard o); [|done]. unfold keydown. repeat case_match; try done; by apply step_inv.
  - destruct (interval s); [by apply step_inv|done].
  - by apply carousel_end_inv.
  - by apply slid_timeout_inv.
Qed.
Lemma acts_inv l s : inv s -> inv (foldl (fun s a => act transition has_slide o prevented a s) s l).
Proof. revert s. induction l as [|a l IH]; intros s Hi; [done|]. by apply IH, act_inv. Qed.

(** A carousel as the page has it at the start. *)
Definition as_loaded (s : carousel) : Prop := exists c, at_rest c s /\ shows c s /\ waiting s = [].

Lemma starts_inv s : as_loaded s -> inv s.
Proof.
  intros (c & Hr & Hsh & Hw). split; [|exists c; by left]. unfold waits_ok. rewrite Hw. by split_and!.
Qed.

(** The item of the slide that is under way. *)
Definition dest_item (s : carousel) : option nat := match pending s with (_, x) :: _ => Some (s_next x) | [] => None end.

(** C39: whatever is called, pressed, pointed at and timed, in whatever order with the ends of transitions: one item is
    active; a slide is under way exactly if the end of a transition is waited for, of one item; the indicators
    show the item that is active or, in a slide, the one that comes; and at rest no item has a
    class of a slide. *)
Theorem carousel_one_active s l : as_loaded s ->
  let s' := foldl (fun s a => act transition has_slide o prevented a s) s l in
  exists c t, actives s' = [c] /\ shows t s' /\ (length (pending s') <= 1)%nat /\
    (if sliding s' then pending s' <> [] /\ t <> c /\ dest_item s' = Some t
     else pending s' = [] /\ t = c /\ forall x, x ∈ items s' -> coming x = None /\ moving x = None).
Proof.
  intros Hst. cbv zeta. pose proof (acts_inv l s (starts_inv s Hst)) as Hi. revert Hi.
  generalize (foldl (fun s a => act transition has_slide o prevented a s) s l) as s'.
  intros s' (_ & c & [[Hr Hsh]|(_ & d & ty & Hm & Hsh)]).
  - exists c, c. pose proof Hr as (_ & Hs & Hp & Hi). rewrite Hs, Hp. split_and!; [by apply at_rest_actives|done|simpl; lia|done|done|].
    intros x [i Hx]%list_elem_of_lookup. by rewrite (Hi i x Hx).
  - exists c, d. pose proof Hm as (_ & _ & Hn & Hs & Hp & _). unfold dest_item. rewrite Hs, Hp.
    split_and!; [by eapply moves_actives|done|simpl; lia|done|done|done].
Qed.

(** *** Calls of [to] are not lost *)

Context (allowed : forall i, prevented i = false).

(** The item a list of calls leads to, from [c]. *)
Definition led (c : nat) (w : list Z) : nat := match last w with Some p => Z.to_nat p | None => c end.

(** The item the carousel is on its way to. *)
Definition dest (s : carousel) : nat :=
  led (match dest_item s with Some d => d | None => default 0%nat (head (actives s)) end) (waiting s).

Lemma dest_rest c s : at_rest c s -> dest s = led c (waiting s).
Proof. intros Hr. unfold dest, dest_item. rewrite (at_rest_actives c s Hr). by destruct Hr as (_ & _ & -> & _). Qed.
Lemma dest_moves c d ty s : moves c d ty s -> dest s = led d (waiting s).
Proof. intros Hm. unfold dest, dest_item. by destruct Hm as (_ & _ & _ & _ & -> & _). Qed.

Definition in_range (s : carousel) (p : Z) : Prop := 0 <= p < Z.of_nat (length (items s)).

Lemma tos_moves f c d ty w s : moves c d ty s -> Forall (in_range s) w ->
  foldl (fun s pos => to' f pos s) s w = set_waiting (waiting s ++ w) s.
Proof.
  intros Hm Hw. revert s Hm Hw. induction w as [|p w IH]; intros s Hm Hw; [rewrite app_nil_r; by destruct s|].
  apply Forall_cons in Hw as [Hp Hw]. simpl. unfold to at 2. rewrite (moves_actives c d ty s Hm).
  unfold in_range in Hp. rewrite (proj2 (Z.ltb_ge _ _)), (proj2 (Z.ltb_ge p 0)) by lia. simpl orb. cbv iota.
  pose proof Hm as (_ & _ & _ & -> & _). rewrite IH; [|done|done]. simpl. by rewrite <- app_assoc.
Qed.

Lemma led_cons c p w : Z.to_nat p = c -> led c (p :: w) = led c w.
Proof. unfold led. rewrite last_cons. destruct (last w); [done|by intros ->]. Qed.
Lemma led_cons_to c p w : led c (p :: w) = led (Z.to_nat p) w.
Proof. unfold led. rewrite last_cons. by destruct (last w). Qed.

(** The calls that waited, when the slide has ended: those of the active item do nothing, the next one begins a slide, and the
    rest waits again. *)
Lemma tos_rest f c w s : async = true -> at_rest c s -> shows c s -> waiting s = [] -> Forall (in_range s) w ->
  let s' := foldl (fun s pos => to' f pos s) s w in
  timers s' = timers s /\
  ((at_rest c s' /\ waiting s' = [] /\ led c w = c) \/
   (exists d ty, moves c d ty s' /\ (length (waiting s') < length w)%nat /\ led d (waiting s') = led c w)).
Proof.
  intros Ha Hr Hsh Hwt Hw. revert s Hr Hsh Hwt Hw. induction w as [|p w IH]; intros s Hr Hsh Hwt Hw; [by split; [|left]|].
  apply Forall_cons in Hw as [Hp Hw]. unfold in_range in Hp.
  assert (to' f p s = if Z.of_nat c =? p then cycle o false (pause transition o false s)
    else slide transition has_slide o prevented f (if Z.of_nat c <? p then DNext else DPrev) (Some (Z.to_nat p)) s) as E.
  { unfold to. rewrite (at_rest_actives c s Hr), (proj2 (Z.ltb_ge _ _)), (proj2 (Z.ltb_ge p 0)) by lia.
    by rewrite (proj1 (proj2 Hr)). }
  simpl. rewrite E. clear E. destruct (Z.eqb_spec (Z.of_nat c) p) as [Ep|Ep].
  - assert (alike s (cycle o false (pause transition o false s))) as Hal by (eapply alike_trans; [apply alike_pause|apply alike_cycle]).
    rewrite led_cons by lia.
    destruct (IH (cycle o false (pause transition o false s))) as [Et [?|(d & ty & ? & ? & ?)]].
    + by eapply alike_rest.
    + by eapply alike_shows.
    + destruct Hal as (_ & _ & _ & _ & _ & ->). done.
    + unfold in_range. by rewrite (proj1 Hal).
    + rewrite Et. split; [apply Hal|by left].
    + rewrite Et. split; [apply Hal|right]. exists d, ty. split_and!; [done|simpl; lia|done].
  - set (s1 := slide _ _ _ _ _ _ _ _).
    assert (keeps s s1 /\ moves c (Z.to_nat p) (if Z.of_nat c <? p then DNext else DPrev) s1) as [Hk Hm].
    { destruct (slide_rest f (if Z.of_nat c <? p then DNext else DPrev) (Some (Z.to_nat p)) s c (Z.to_nat p)) as [Hk Hc];
        [done|by rewrite Ha|by rewrite Ha|done|lia|done|]. split; [done|]. rewrite Ha in Hc.
      destruct Hc as [(_ & _ & [?|?])|(_ & _ & ?)]; [lia|by rewrite allowed in *|done]. }
    rewrite (tos_moves f c (Z.to_nat p) (if Z.of_nat c <? p then DNext else DPrev)); [|done|unfold in_range; by rewrite (proj1 Hk)].
    split; [apply Hk|right]. exists (Z.to_nat p), (if Z.of_nat c <? p then DNext else DPrev).
    simpl. rewrite (proj2 (proj2 Hk)), Hwt. simpl. split_and!; [done|lia|by rewrite led_cons_to].
Qed.
(** All transitions end, then all timeouts. *)
Definition ends (s : carousel) : carousel := foldl (fun s i => transition_end i s) s (seq 0 (length (items s))).
Definition round (s : carousel) : carousel :=
  Nat.iter (timers (ends s)) (slid_timeout transition has_slide o prevented) (ends s).

Lemma ends_rest c l s : at_rest c s -> alike s (foldl (fun s i => transition_end i s) s l).
Proof.
  revert s. induction l as [|i l IH]; intros s Hr; [apply alike_refl|]. simpl.
  assert (alike s (transition_end i s)) as Ha by (apply end_of_other; destruct Hr as (_ & _ & -> & _); by intros p ?%elem_of_nil).
  eapply alike_trans; [exact Ha|]. apply IH. by eapply alike_rest.
Qed.

Lemma ends_moves c d ty l s : moves c d ty s -> shows d s -> c ∈ l ->
  let s' := foldl (fun s i => transition_end i s) s l in
  at_rest d s' /\ shows d s' /\ waiting s' = waiting s.
Proof.
  revert s. induction l as [|i l IH]; intros s Hm Hsh Hc; [by apply elem_of_nil in Hc|]. simpl.
  destruct (decide (i = c)) as [-> |Hn].
  - destruct (end_moves c d ty s Hm) as (Hr & E1 & E2 & E3 & E4). pose proof (ends_rest d l _ Hr) as Ha.
    split_and!; [by eapply alike_rest|eapply alike_shows; [done|]; unfold shows; by rewrite E1|].
    destruct Ha as (_ & _ & _ & _ & _ & ->). done.
  - assert (alike s (transition_end i s)) as Ha.
    { apply end_of_other. destruct Hm as (_ & _ & _ & _ & -> & _). intros p ->%list_elem_of_singleton. simpl. congruence. }
    apply elem_of_cons in Hc as [?|Hc]; [congruence|].
    destruct (IH (transition_end i s)) as (Hr & Hs & Hw); [by eapply alike_moves|by eapply alike_shows|done|].
    split_and!; [done|done|]. rewrite Hw. apply Ha.
Qed.

Lemma ends_spec s : inv s ->
  inv (ends s) /\ exists c, at_rest c (ends s) /\ shows c (ends s) /\ waiting (ends s) = waiting s /\ dest s = led c (waiting s).
Proof.
  intros Hi. split.
  { unfold ends. generalize (seq 0 (length (items s))) as l. intros l. revert s Hi.
    induction l as [|i l IH]; intros s Hi; [done|]. simpl. by apply IH, carousel_end_inv. }
  destruct Hi as (_ & c & [[Hr Hsh]|(_ & d & ty & Hm & Hsh)]).
  - pose proof (ends_rest c (seq 0 (length (items s))) s Hr) as Ha. exists c.
    split_and!; [by eapply alike_rest|by eapply alike_shows|apply Ha|by apply dest_rest].
  - exists d. destruct (ends_moves c d ty (seq 0 (length (items s))) s Hm Hsh) as (? & ? & ?);
      [apply elem_of_seq; destruct Hm; lia|]. split_and!; [done..|]. by eapply dest_moves.
Qed.

(** A timeout when nothing waits for it, or in a slide. *)
Definition settled (s : carousel) : Prop := (exists c, at_rest c s /\ waiting s = []) \/ exists c d ty, moves c d ty s.

Lemma timeout_settled s : inv s -> settled s ->
  let s' := slid_timeout transition has_slide o prevented s in
  dest s' = dest s /\ settled s' /\ sliding s' = sliding s /\ waiting s' = waiting s.
Proof.
  intros ((Hr & _ & _) & _) [(c & Hc & Hw)|(c & d & ty & Hm)]; unfold slid_timeout; (destruct (timers s) as [|k]; [split_and!; try done|]).
  - left. eauto.
  - unfold fire. simpl. rewrite Hw. simpl. split_and!; [|left; by exists c|done|done].
    rewrite (dest_rest c s Hc), Hw. by rewrite (dest_rest c).
  - right. eauto.
  - unfold fire. cbn [fire_slid]. rewrite (tos_moves _ c d ty) by done. simpl.
    split_and!; [|right; by exists c, d, ty|done|done]. rewrite (dest_moves c d ty s Hm). by rewrite (dest_moves c d ty).
Qed.

Lemma timeouts_settled k s : inv s -> settled s ->
  let s' := Nat.iter k (slid_timeout transition has_slide o prevented) s in
  inv s' /\ dest s' = dest s /\ settled s' /\ sliding s' = sliding s /\ waiting s' = waiting s.
Proof.
  intros Hi Hs. induction k as [|k IH]; [done|]. simpl. destruct IH as (Hi' & Hd & Hst & Hsl & Hw).
  destruct (timeout_settled _ Hi' Hst) as (E1 & E2 & E3 & E4). rewrite E1, E3, E4. by split_and!; [apply slid_timeout_inv|..].
Qed.

(** How many rounds a state needs at most. *)
Definition need (s : carousel) : nat :=
  if sliding s || negb (bool_decide (waiting s = [])) then S (length (waiting s)) else 0%nat.

Lemma round_spec s : inv s -> inv (round s) /\ dest (round s) = dest s /\ (need (round s) <= need s - 1)%nat.
Proof.
  intros Hi. destruct (ends_spec s Hi) as (He & c & Hr & Hsh & Hw & Hd). unfold round.
  assert (dest (ends s) = dest s) as Hd' by (rewrite (dest_rest c _ Hr); congruence).
  destruct (timers (ends s)) as [|k] eqn:Et.
  { simpl. split_and!; [done|done|]. pose proof (proj2 (proj2 (proj1 He))) as Hwt. rewrite (proj1 (proj2 Hr)), Et in Hwt.
    unfold need. rewrite (proj1 (proj2 Hr)), bool_decide_true; [simpl; lia|].
    destruct (waiting (ends s)); [done|]. destruct Hwt as [?|?]; [done|done|lia]. }
  rewrite Nat.iter_succ_r. pose proof (slid_timeout_inv (ends s) He) as Hi1.
  assert (settled (slid_timeout transition has_slide o prevented (ends s)) /\
    dest (slid_timeout transition has_slide o prevented (ends s)) = dest s /\
    (need (slid_timeout transition has_slide o prevented (ends s)) <= need s - 1)%nat) as (Hst & Hd1 & Hn).
  { destruct (waiting (ends s)) as [|p w] eqn:Ew.
    - destruct (timeout_settled (ends s) He) as (E1 & E2 & E3 & E4); [left; eauto|]. split_and!; [done|congruence|].
      unfold need. rewrite E3, E4, (proj1 (proj2 Hr)), Ew. simpl. lia.
    - assert (async = true) as Ha.
      { apply not_false_iff_true. intros Hf. pose proof (proj1 (proj2 (proj1 He)) Hf). congruence. }
      unfold slid_timeout. rewrite Et. unfold fire. cbn [fire_slid].
      set (s1 := set_waiting [] _).
      destruct (tos_rest (fire_slid transition has_slide o prevented 1) c (waiting (ends s)) s1) as (_ & Hc); try done.
      { apply (proj1 (proj1 He)). }
      change (waiting (trigger Slid (set_timers k (ends s)))) with (waiting (ends s)).
      rewrite Ew in Hc |- *. set (s2 := foldl _ _ _) in *. destruct Hc as [(Hr2 & Hw2 & Hl)|(d & ty & Hm2 & Hl & Hd2)].
      + split_and!; [left; eauto| |].
        * rewrite (dest_rest c _ Hr2), Hw2, Hd, <- Hw. by rewrite Hl.
        * unfold need. rewrite (proj1 (proj2 Hr2)), Hw2. simpl. lia.
      + split_and!; [right; eauto| |].
        * rewrite (dest_moves c d ty _ Hm2), Hd2, Hd. by rewrite Hw.
        * unfold need. rewrite <- Hw, (bool_decide_false (_ :: _ = [])), orb_true_r by done.
          pose proof Hm2 as (_ & _ & _ & -> & _). simpl in *. lia. }
  destruct (timeouts_settled k _ Hi1 Hst) as (E0 & E1 & E2 & E3 & E4). split_and!; [done|congruence|].
  unfold need in *. by rewrite E3, E4.
Qed.

Lemma rounds_arrive k s : inv s -> (need s <= k)%nat ->
  let s' := Nat.iter k round s in inv s' /\ dest s' = dest s /\ need s' = 0%nat.
Proof.
  revert s. induction k as [|k IH]; intros s Hi Hn; [by split_and!; [| |simpl; lia]|].
  rewrite Nat.iter_succ_r. destruct (round_spec s Hi) as (Hi' & Hd & Hn').
  destruct (IH (round s)) as (? & E & ?); [done|lia|]. cbv zeta. split_and!; [done|congruence|done].
Qed.

(** Whatever happened before: after one more round of transitions and timeouts than there are calls that wait, the
    carousel rests at the item of the last of them, or of the slide that was under way. *)
Lemma arrives s : inv s ->
  let s' := Nat.iter (S (length (waiting s))) round s in
  actives s' = [dest s] /\ sliding s' = false /\ pending s' = [] /\ waiting s' = [].
Proof.
  intros Hi. cbv zeta. destruct (rounds_arrive (S (length (waiting s))) s) as (Hi' & Hd & Hn); [done|unfold need; case_match; lia|].
  revert Hi' Hd Hn. generalize (Nat.iter (S (length (waiting s))) round s) as s'. intros s' Hi' Hd Hn. unfold need in Hn.
  destruct (sliding s' || _) eqn:E; [done|]. apply orb_false_iff in E as [Hs Hw].
  apply negb_false_iff, bool_decide_eq_true in Hw.
  destruct Hi' as (_ & c & [[Hr _]|(_ & d & ty & Hm & _)]); [|destruct Hm as (_ & _ & _ & ? & _); congruence].
  rewrite (at_rest_actives c _ Hr). rewrite <- Hd, (dest_rest c _ Hr), Hw. by split_and!; [|done|apply Hr|].
Qed.

Lemma dest_to f pos s : fires f -> inv s -> in_range s pos -> sliding s = true \/ waiting s = [] ->
  dest (to' f pos s) = Z.to_nat pos.
Proof.
  intros Hf (Hw & c & Hc) Hp Hs. unfold in_range in Hp. destruct Hc as [[Hr Hsh]|(Ha & d & ty & Hm & Hsh)].
  - destruct Hs as [Hs|Hs]; [by rewrite (proj1 (proj2 Hr)) in Hs|].
    unfold to. rewrite (at_rest_actives c s Hr), (proj2 (Z.ltb_ge _ _)), (proj2 (Z.ltb_ge pos 0)) by lia.
    rewrite (proj1 (proj2 Hr)). simpl orb. cbv iota. destruct (Z.eqb_spec (Z.of_nat c) pos) as [Ep|Ep].
    + assert (alike s (cycle o false (pause transition o false s))) as Hal
        by (eapply alike_trans; [apply alike_pause|apply alike_cycle]).
      rewrite (dest_rest c) by (by eapply alike_rest). destruct Hal as (_ & _ & _ & _ & _ & ->). rewrite Hs. unfold led. simpl. lia.
    + destruct (slide_rest f (if Z.of_nat c <? pos then DNext else DPrev) (Some (Z.to_nat pos)) s c (Z.to_nat pos)) as [Hk Hcase];
        [done|by intros _|done|done|lia|done|].
      destruct Hcase as [(_ & _ & [?|?])|(_ & _ & Hcase)]; [lia|by rewrite allowed in *|].
      destruct async; [rewrite (dest_moves _ _ _ _ Hcase)|rewrite (dest_rest _ _ Hcase)]; by rewrite (proj2 (proj2 Hk)), Hs.
  - pose proof (tos_moves f c d ty [pos] s Hm) as E. simpl in E. rewrite E by (by constructor).
    rewrite (dest_moves c d ty); [|done]. simpl. unfold led. by rewrite last_snoc.
Qed.

(** C40: calls of [to] are not lost.  Whatever happened before, a call that comes during a slide, or when no other one
    waits, is the last to be served: after one more round of transitions and timeouts than there are calls that wait, the
    carousel rests at its item. *)
Theorem carousel_arrives s l pos : as_loaded s ->
  let s1 := foldl (fun s a => act transition has_slide o prevented a s) s l in
  sliding s1 = true \/ waiting s1 = [] -> 0 <= pos < Z.of_nat (length (items s1)) ->
  let s2 := act transition has_slide o prevented (To pos) s1 in
  let s3 := Nat.iter (S (length (waiting s2))) round s2 in
  actives s3 = [Z.to_nat pos] /\ sliding s3 = false /\ pending s3 = [] /\ waiting s3 = [].
Proof.
  intros Hst. cbv zeta. pose proof (acts_inv l s (starts_inv s Hst)) as Hi. revert Hi.
  generalize (foldl (fun s a => act transition has_slide o prevented a s) s l) as s1. intros s1 Hi Hs Hp.
  pose proof (arrives _ (act_inv (To pos) s1 Hi)) as Ha. cbv zeta in Ha. 
  rewrite <- (dest_to (fire transition has_slide o prevented) pos s1); [exact Ha|apply (fires_fire 1)|done..].
Qed.
End phases.

(** ** A carousel with three items *)

Definition ex_options : options := Options true true true true.
Definition ex_carousel : carousel :=
  Carousel [Item true None None; Item false None None; Item false None None] [true; false; false] false false true [] 0 [] [].
Definition ex_calls : list action := [Next; To 0; Prev; To 2; TransitionEnd 0; Next; SlidTimeout].
#[local] Abbreviation ex_run := (foldl (fun s a => act true true ex_options (fun _ => false) a s) ex_carousel ex_calls).

Lemma ex_starts : as_loaded ex_carousel.
Proof.
  exists 0%nat. split_and!; [|by intros [|[|[|i]]] b [= <-]|done]. split_and!; [simpl; lia|done|done|].
  by intros [|[|[|i]]] x [= <-].
Qed.

(** The slide to 1 is over, and one to 2 under way, when the calls of [to] are made again. *)
Lemma carousel_one_active_witness :
  (exists c t, actives ex_run = [c] /\ shows t ex_run /\ (length (pending ex_run) <= 1)%nat /\
    (if sliding ex_run then pending ex_run <> [] /\ t <> c /\ dest_item ex_run = Some t
     else pending ex_run = [] /\ t = c /\ forall x, x ∈ items ex_run -> coming x = None /\ moving x = None)) /\
  waiting ex_run = [0; 2]%Z.
Proof.
  split; [|by vm_compute]. exact (carousel_one_active true true ex_options (fun _ => false) ex_carousel ex_calls ex_starts).
Defined.

Lemma carousel_arrives_witness :
  let s := act true true ex_options (fun _ => false) (To 1) ex_run in
  actives (Nat.iter 4 (round true true ex_options (fun _ => false)) s) = [1%nat] /\ waiting s = [0; 2; 1]%Z.
Proof.
  split; [|by vm_compute].
  refine (proj1 (carousel_arrives true true ex_options (fun _ => false) (fun _ => eq_refl) ex_carousel ex_calls 1 ex_starts _ _)).
  - left. by vm_compute.
  - by vm_compute.
Defined.

(** A call between the end of a slide and the event [slid] begins a slide of its own; the calls that waited come after it. *)
Theorem calls_overtaken :
  let f a s := act true true ex_options (fun _ => false) a s in
  let s := foldl (fun s a => f a s) ex_carousel [Next; To 0; TransitionEnd 0; To 2] in
  actives (Nat.iter 4 (round true true ex_options (fun _ => false)) s) = [0%nat].
Proof. by vm_compute. Qed.
